(* ===== verification/_CoqProject ===== *)
-Q . S2P
Prelude.v
State.v
Runtime.v
Bench.v
Sched.v
TimerQueue.v
SchedSpec.v
TimerService.v
Vlq.v
Crc.v
Command.v
CommandSpec.v
Basecmd.v
BasecmdSpec.v
PoolSpec.v
OidSpec.v
Trsync.v
Stepper.v
Endstop.v
Outputs.v
Inputs.v
SerialIrq.v
Canserial.v
UsbCdc.v
Buses.v
Tmcuart.v
Sensors.v
Lcd.v
Double.v
DoubleSpec.v
Trapq.v
Kinematics.v
Msgblock.v
StepCompress.v
Itersolve.v
Pollreactor.v
Serialqueue.v
Trdispatch.v
Firmware.v
StepperSpec.v
StepperProps.v
TrsyncSpec.v
EndstopSpec.v
InputsSpec.v
OutputSpec.v
SerialSpec.v
CanserialSpec.v
UsbCdcSpec.v
UsbCanbus.v
BusSpec.v
WireSpec.v
MsgblockSpec.v
BisectSpec.v
StepCompressSpec.v
FlushSpec.v
SteppersyncSpec.v
TrapqSpec.v
SearchSpec.v
ItersolveSpec.v
GenerateSpec.v
PollreactorSpec.v
SerialqueueSpec.v
SerialqueueInv.v
SerialqueueSend.v
SerialqueueRecv.v
SerialqueueOps.v
LinkSpec.v
LinkLive.v
CanLinkSpec.v
TrdispatchSpec.v
TimeoutSpec.v
Reach.v
ShutdownSpec.v
AdxlSpec.v
LcdSpec.v
Rig.v
RigCore.v
RigDevices.v
RigHost.v
RigLink.v
