(* ===== verification/Prelude.v ===== *)
(** * Klipper micro-controller firmware: verification library

    The repository holds the software of a 3D printer.  Its C core is Klipper: a firmware
    that runs on the micro-controllers of the machine ([src/Klipper/src]) and C helpers of
    the host program ([src/Klipper/klippy/chelper]).  This library models the firmware and
    the host helpers that turn moves into step times, compress the steps, queue the messages
    and coordinate homing, and proves what makes them correct.

    ** How the program works, and where each part is modelled

    - [sched.c] keeps a sorted linked list of timers, runs the callback of the first one from
      the timer interrupt, runs the tasks in the background, and handles shutdowns
      ([longjmp] to [sched_main]).  Sched.v, with [generic/timer_irq.c];
      [generic/alloc.c] is in Basecmd.v.
    - [command.c] finds checksummed blocks in the received bytes, parses variable length
      integers and calls the handlers, and encodes responses.  Vlq.v, Command.v, with
      [generic/crc16_ccitt.c] in Crc.v.  Below it are the serial console
      [generic/serial_irq.c] in SerialIrq.v, the CAN console [generic/canserial.c],
      [generic/canbus.c] with [lib/fast-hash/fasthash.c] in Canserial.v, the USB console
      [generic/usb_cdc.c] in UsbCdc.v, and the bridge [generic/usb_canbus.c], through which the
      host reaches the other nodes of a CAN bus and the local one over USB, in UsbCanbus.v.
    - [basecmd.c] owns the memory: chunks, the pool of moves and its queues, object ids,
      configuration and statistics.  Basecmd.v, with [debugcmds.c].
    - Motion: [stepper.c] (Stepper.v), [trsync.c] (Trsync.v), [endstop.c] (Endstop.v).
    - Outputs and inputs: [gpiocmds.c], [pwmcmds.c] and [neopixel.c] (Outputs.v), [adccmds.c], [buttons.c]
      and [pulse_counter.c] (Inputs.v).
    - Buses and devices: [spicmds.c], [spi_software.c], [i2ccmds.c], [initial_pins.c] and
      [sdiocmds.c] (Buses.v), [tmcuart.c] (Tmcuart.v), [thermocouple.c],
      [sensor_adxl345.c], [sensor_mpu9250.c] and [sensor_angle.c] (Sensors.v),
      [lcd_hd44780.c] and [lcd_st7920.c] (Lcd.v).
    - The host: [chelper/msgblock.c] (Msgblock.v) checks, decodes and encodes messages and
      estimates clocks; [chelper/trapq.c] (Trapq.v) queues the moves of the tool,
      [chelper/kin_*.c] (Kinematics.v) give the position of a stepper from that of the tool,
      [chelper/itersolve.c] (Itersolve.v) searches the times at which it has to step;
      [chelper/stepcompress.c] (StepCompress.v) turns these times into
      [queue_step] messages and keeps the heap of free move slots; [chelper/pollreactor.c]
      (Pollreactor.v) is the event loop of the background thread of [chelper/serialqueue.c]
      (Serialqueue.v), which sends, acknowledges and retransmits blocks;
      [chelper/trdispatch.c] (Trdispatch.v) hooks into its received messages to stop all
      micro-controllers of a homing move.
    - Firmware.v ties the firmware together: the table of timer callbacks, the commands of
      the [DECL_COMMAND] of these files and of [pru/main.c], the tasks, shutdown and init functions, a round of [run_tasks], and the
      machine as a transition system ([step], [runs]).

    ** State and effects

    State.v has a record for each struct, with its fields, and one record [mcu] for the whole
    memory: the globals of each file, a map from addresses to objects, the timers (named by
    the object they are a member of), the move pool, the trigger signals, and a trace of
    outputs.  C code is a program of the state and error monad [M] of this file: it returns
    ([Ret]), shuts down ([Shut], the [longjmp] with its reason), does something C leaves
    undefined such as an access outside an array or through a null pointer ([Undef]), or runs
    out of the fuel of a loop ([Diverge]).  Integers are [Z] with the wrap-around of their C
    type written out ([u8], [u16], [u32], [i32]).

    The board code is not part of the firmware's portable sources.  The class [Board] of
    State.v stands for it: constants of the build, the clock and the inputs as functions of
    the number of hardware reads so far, which pins and buses exist, and the integer types of the
    parameters of the board's gpio functions ([gpio_types], from its gpio.h), to which the
    arguments are converted.  Every theorem holds for every board; Bench.v is a concrete one, on which the definitions evaluate.  The
    generated call tables are the lists of Firmware.v.  In the same way the class [CanBoard]
    of Canserial.v stands for the CAN controller, [UsbBoard] of UsbCdc.v for the USB controller
    (what the theorems need of it is the class [LawfulUsb]), the class [HostOS] of Double.v for the
    services of the host's system (with what a conversion out of the range of an integer
    gives), and [Libm] of Kinematics.v for sin, cos and atan2.  The class [StepQueue] of
    Itersolve.v has the functions of the step compressor that the solver calls; its instance is
    StepCompress.v, and the theorems of the solver are about this instance.  The host's [double] is
    binary64 of SpecFloat (Double.v), rounding included, so its comparisons and arithmetic
    are computed as the hardware does when it does not fuse operations.

    [wp m s Q E] says that [m] run from [s] returns with [Q] or shuts down with [E], and
    neither is undefined nor diverges; with [E] set to [no_shut] it must return.  The tactic
    [wstep] runs a program symbolically.

    ** What is proved

    - Timers (TimerQueue.v, SchedSpec.v, TimerService.v): insertion, deletion and dispatch
      refine a sorted abstract queue; the loops end.
    - Protocol (Vlq.v, Crc.v, CommandSpec.v, MsgblockSpec.v, SerialSpec.v): both
      directions round trip between host and firmware, arbitrary bytes are parsed safely,
      the checksum is the bitwise CRC, and the console loses no byte.
    - Memory (BasecmdSpec.v, PoolSpec.v, OidSpec.v): allocation, the move pool and its
      queues, the types of object ids.
    - Motion (StepperSpec.v, StepperProps.v, TrsyncSpec.v, EndstopSpec.v): the times and the
      position of every step, conservation of moves, that a trigger halts all steppers, and
      that an end stop triggers exactly after its run of samples.
    - Devices (OutputSpec.v, InputsSpec.v, BusSpec.v, WireSpec.v, AdxlSpec.v, LcdSpec.v): time limits of
      outputs, range checks, debouncing, what is put on the wires of the serial buses, and
      that accelerometer samples reach the host unchanged.
    - Doubles (DoubleSpec.v): each operation gives a double next to the exact value, for
      which comparisons are exact, and never leaves the format.
    - Moves (TrapqSpec.v): appended moves join in time and place, every run of the queue keeps
      its sentinels and leaves no gap in time (but behind a move that starts at time 0, where the
      null move is cut to one second), and expired moves go to the history.
    - The solver (SearchSpec.v, ItersolveSpec.v, GenerateSpec.v): the search for a step ends
      on doubles, by a measure on its bracket; the steps of a move increase in time and are
      accurate; a call covers the flushed time of every move that concerns the stepper, in
      windows that do not overlap.  The step queue is the real one, whose functions can end in
      undefined behaviour (FlushSpec.v shows how): then the solver ends in the same way, after
      the steps it has found so far.
    - Step compression (BisectSpec.v, StepCompressSpec.v, FlushSpec.v, SteppersyncSpec.v):
      every move sent reproduces its steps within the error allowed, the messages of a flush carry all of them in order, signed arithmetic does not overflow,
      and the slot heap never sends more moves than the micro-controller has slots.
    - Host threads (PollreactorSpec.v, SerialqueueSpec.v, SerialqueueInv.v,
      SerialqueueSend.v, SerialqueueRecv.v, SerialqueueOps.v): the timers of
      the reactor, an invariant of the serial queue that every event preserves, the window,
      the content and the order of blocks, acknowledgement and notification.
    - The link (LinkSpec.v, LinkLive.v): over a wire that loses and repeats blocks the
      firmware takes exactly the blocks of the host, each once and in order, and
      retransmission over a wire that works delivers all of them, behind whatever was still in
      flight.
    - Homing over several micro-controllers (TrdispatchSpec.v, TimeoutSpec.v): from the
      allocation of a group on, the first trigger is found by the reader of its member and
      reaches every member once, and the time limits follow the slowest of the other members.
    - CAN (CanserialSpec.v, CanLinkSpec.v): node ids, lossless buffers, and the
      way of a message from the host over CAN to its handler.
    - USB (UsbCdcSpec.v): the bulk buffers neither lose nor reorder a byte, and a descriptor
      that the host asks for is sent whole, in packets that show its end, and given up only
      when the controller refuses a packet.
    - The bridge (UsbCanbus.v, model and theorems): every frame of the host reaches the bus, the
      local node and the echo as its id says, once and in order, frames of the bus are
      forwarded in order, a run of the task ends and completes what the controllers allow, and
      control requests stay inside their buffers.
    - System (Reach.v, ShutdownSpec.v): an invariant of every reachable state, that a shutdown
      stays latched with its first reason until clear_shutdown or config_reset (a command of
      the PRU board), and that it puts every output into its default state.
    - Rig.v describes a configured machine; RigCore.v and RigDevices.v apply the
      theorems that have hypotheses to it.  RigHost.v and RigLink.v do so for the solver, the
      step compressor, the serial queue, the homing dispatch, the CAN and USB consoles and the bridge.

    ** Fuel

    Loops over linked lists have the size of the map that holds the nodes as fuel (timers,
    signals, moves), loops over the object ids 257, [dispatch_loop] the length of the block,
    [pop_loop] 194 for a buffer of 192 bytes, [next_toggle] 256 for a position of eight bits:
    theorems about these loops show that the fuel suffices.  Busy waits on the clock
    (neopixel, displays, [udelay], the waits of [timer_dispatch_many], [idle_loop]) take it
    as an argument; LcdSpec.v proves that the waits of the displays end on any clock that
    advances with every read.

    The bisection of [compress_bisect_add] has 65537 rounds, one more than the steps a move
    can have, the loops over queues of the host the length of the queue ([input_loop] and
    [build_loop] one more), [command_loop] 14 more than the messages queued, since at most
    twelve blocks fit the window.  [can_pop_loop] has 194 and [tx_loop] 33 as their buffers
    have 192 and 96 bytes.  [admin_loop] allows nine frames and the ones that arrive, and the
    wait for a free transmit buffer ([send_retry]) takes its patience as an argument.  The
    packets of a transfer on endpoint 0 ([xfer_loop]) have 18: the size is eight bits, so there
    are at most 16 packets with data and an empty one.  [drain_loop] has one round more than the
    32 frames of the ring and those that arrive; [usbcan_loop] takes the number of frames that
    the host sends meanwhile as an argument.

    [search_loop] takes its patience as an argument, and the theorems show that from some
    number on every patience gives the same result ([keeps_result] of GenerateSpec.v: a result
    does not change with more patience); [finalize_loop] has the length of the
    list.  The theorems about moves and the solver assume times of at most 2^20 seconds
    (twelve days) for new moves and flushes: then the range of a search stays below 2^21
    seconds, where doubles are finer than the 1 ns at which the search stops.

    The theorems about step compression assume at most 46341 queued steps and an error
    bound for which the products fit (max_error times the steps at most 2^28): beyond them the
    C code overflows.  Those about the serial queue assume fewer than 2^62 blocks, messages of
    at most 59 bytes, which is what the host encodes, and clocks below [MAX_CLOCK].

    ** Not modelled

    Commands, tasks and interrupts run one after the other: a task is not interrupted in the
    middle, except where SerialIrq.v, Canserial.v and UsbCanbus.v let the interrupts of the
    console in.  The config_reset of [linux/main.c] and the reset command of
    other boards start the program again, which is a new run of the machine and not a step of
    it; the commands of board drivers ([linux/sensor_ds18b20.c], [linux/pca9685.c],
    [atsamd/sercom.c]) are left out.
    The threads of the host hold the lock of their queue during each modelled call, so the
    calls are steps in any order.  [debug_write] stores to an arbitrary address.  Functions
    of the host that only free memory or print statistics are left out.  Out of reach of this model:
    boot code and interrupt instructions ([generic/armcm_*.c]), the chip drivers of the
    boards, sockets, the clock and the error prints of the host ([chelper/pyhelper.c]).  The
    theorems of the solver do not cover pressure advance with smoothing and input shaping,
    whose callbacks read the moves around the current one; they are modelled and evaluate. *)

From Stdlib Require Export ZArith Lia.
From stdpp Require Export base gmap list numbers strings sets option sorting.

Declare Scope klipper_scope.
Delimit Scope klipper_scope with klipper.
Open Scope klipper_scope.
#[global] Open Scope Z_scope.

(** ** Functional record update

    A record declares one [Eta] instance; a setter for each of its fields is then
    found by class resolution.  [s <| f := v |>] is C's [s.f = v]. *)

Class Eta (R : Type) := eta_expand : R → R.
Class Setter {R T : Type} (proj : R → T) := upd : (T → T) → R → R.
Arguments upd {R T} proj {_} f r.

Ltac solve_setter :=
  match goal with
  | |- @Setter ?R ?T ?p =>
      let i := constr:(_ : Eta R) in
      let f := fresh "f" in
      let r := fresh "r" in
      intros f r;
      let t := eval cbv [eta_expand] in (@eta_expand R i r) in
      let t := eval hnf in t in
      let g := eval pattern (p r) in t in
      match g with ?h _ => let u := eval cbv beta in (h (f (p r))) in exact u end
  end.
#[export] Hint Extern 0 (Setter _) => solve_setter : typeclass_instances.

Notation "s <| p := v |>" := (upd p (fun _ => v) s)
  (at level 1, left associativity, p at level 0, v at level 200,
   format "s  <|  p  :=  v  |>") : klipper_scope.
Notation "s <| p ; q := v |>" := (upd p (upd q (fun _ => v)) s)
  (at level 1, left associativity, p at level 0, q at level 0, v at level 200,
   format "s  <|  p ;  q  :=  v  |>") : klipper_scope.

(** ** Machine integers

    A C integer of width [w] is the [Z] it denotes; every conversion that can wrap is
    written out with one of these functions. *)

Definition u8 (x : Z) : Z := x mod 2 ^ 8.
Definition u16 (x : Z) : Z := x mod 2 ^ 16.
Definition u32 (x : Z) : Z := x mod 2 ^ 32.
Definition u64 (x : Z) : Z := x mod 2 ^ 64.
Definition i8 (x : Z) : Z := let y := x mod 2 ^ 8 in if y <? 2 ^ 7 then y else y - 2 ^ 8.
Definition i16 (x : Z) : Z := let y := x mod 2 ^ 16 in if y <? 2 ^ 15 then y else y - 2 ^ 16.
Definition i32 (x : Z) : Z := let y := x mod 2 ^ 32 in if y <? 2 ^ 31 then y else y - 2 ^ 32.

(** C truth: [nz x] is [x != 0], [b2z b] the int a comparison yields. *)
Definition nz (x : Z) : bool := negb (x =? 0).
Definition b2z (b : bool) : Z := if b then 1 else 0.
(** [flags & mask] used as a condition. *)
Definition has (flags mask : Z) : bool := nz (Z.land flags mask).
(** [DIV_ROUND_UP] and [ALIGN] of compiler.h. *)
Definition DIV_ROUND_UP (n d : Z) : Z := (n + d - 1) / d.
Definition ALIGN (x a : Z) : Z := Z.land (x + a - 1) (Z.lnot (a - 1)).

Ltac unfold_word := unfold u8, u16, u32, u64, i8, i16, i32 in *;
  change (2 ^ 7) with 128 in *; change (2 ^ 8) with 256 in *;
  change (2 ^ 15) with 32768 in *; change (2 ^ 16) with 65536 in *;
  change (2 ^ 31) with 2147483648 in *; change (2 ^ 32) with 4294967296 in *;
  change (2 ^ 64) with 18446744073709551616 in *.

Ltac bool_to_prop :=
  repeat match goal with
  | H : (_ <? _) = true |- _ => apply Z.ltb_lt in H
  | H : (_ <? _) = false |- _ => apply Z.ltb_ge in H
  | H : (_ <=? _) = true |- _ => apply Z.leb_le in H
  | H : (_ <=? _) = false |- _ => apply Z.leb_gt in H
  | H : (_ >? _) = _ |- _ => rewrite Z.gtb_ltb in H
  | H : (_ >=? _) = _ |- _ => rewrite Z.geb_leb in H
  | H : (_ =? _) = true |- _ => apply Z.eqb_eq in H
  | H : (_ =? _) = false |- _ => apply Z.eqb_neq in H
  | H : (_ && _)%bool = true |- _ => apply andb_prop in H as [? ?]
  | H : (_ || _)%bool = false |- _ => apply orb_false_elim in H as [? ?]
  | H : negb _ = true |- _ => apply negb_true_iff in H
  | H : negb _ = false |- _ => apply negb_false_iff in H
  end.

(** Case analysis on every integer comparison of the goal, then [lia] with division and
    modulo turned into their Euclidean equations. *)
Ltac split_cmp :=
  repeat match goal with
  | |- context [?a <? ?b] => destruct (Z.ltb_spec a b)
  | |- context [?a <=? ?b] => destruct (Z.leb_spec a b)
  | |- context [?a =? ?b] => destruct (Z.eqb_spec a b)
  | H : context [?a <? ?b] |- _ => destruct (Z.ltb_spec a b)
  | H : context [?a <=? ?b] |- _ => destruct (Z.leb_spec a b)
  | H : context [?a =? ?b] |- _ => destruct (Z.eqb_spec a b)
  end.
Ltac zmod := unfold_word; split_cmp; try done; try (Z.to_euclidean_division_equations; lia).

(** [feed H]: prove the first premise of [H] in a new goal and discharge it. *)
Ltac feed H :=
  match type of H with
  | ?A → _ => let h := fresh in assert A as h; [|specialize (H h); clear h]
  end.

Lemma alter_middle {A} (f : A → A) pre x post : alter f (length pre) (pre ++ x :: post) = pre ++ f x :: post.
Proof. rewrite <- (Nat.add_0_r (length pre)). by rewrite alter_app_r. Qed.

Create HintDb word.
Create Rewrite HintDb word_rw.

Lemma u8_range x : 0 ≤ u8 x < 256. Proof. unfold u8. apply Z.mod_pos_bound. lia. Qed.
Lemma u16_range x : 0 ≤ u16 x < 65536. Proof. unfold u16. apply Z.mod_pos_bound. lia. Qed.
Lemma u32_range x : 0 ≤ u32 x < 4294967296. Proof. unfold u32. apply Z.mod_pos_bound. lia. Qed.
Lemma i32_range x : -2147483648 ≤ i32 x < 2147483648. Proof. zmod. Qed.
Lemma u8_small x : 0 ≤ x < 256 → u8 x = x. Proof. apply Z.mod_small. Qed.
Lemma u16_small x : 0 ≤ x < 65536 → u16 x = x. Proof. apply Z.mod_small. Qed.
Lemma u32_small x : 0 ≤ x < 4294967296 → u32 x = x. Proof. apply Z.mod_small. Qed.
Lemma u32_idemp x : u32 (u32 x) = u32 x. Proof. apply u32_small, u32_range. Qed.
Lemma u32_add_l x y : u32 (u32 x + y) = u32 (x + y). Proof. apply Zplus_mod_idemp_l. Qed.
Lemma u32_add_r x y : u32 (x + u32 y) = u32 (x + y). Proof. apply Zplus_mod_idemp_r. Qed.
Lemma u32_sub_l x y : u32 (u32 x - y) = u32 (x - y). Proof. apply Zminus_mod_idemp_l. Qed.
Lemma u32_sub_r x y : u32 (x - u32 y) = u32 (x - y). Proof. apply Zminus_mod_idemp_r. Qed.
Lemma i32_u32 x : i32 (u32 x) = i32 x.
Proof. unfold i32, u32. by rewrite Z.mod_mod. Qed.
Lemma u32_i32 x : u32 (i32 x) = u32 x.
Proof. zmod. Qed.
Lemma i32_small x : -2147483648 ≤ x < 2147483648 → i32 x = x.
Proof. intros. zmod. Qed.
#[export] Hint Resolve u8_range u16_range u32_range i32_range : word.
#[export] Hint Rewrite u32_idemp u32_add_l u32_add_r u32_sub_l u32_sub_r i32_u32 u32_i32 : word_rw.

Lemma has_true flags mask : has flags mask = true ↔ Z.land flags mask ≠ 0.
Proof. unfold has, nz. rewrite negb_true_iff. by rewrite Z.eqb_neq. Qed.
Lemma has_false flags mask : has flags mask = false ↔ Z.land flags mask = 0.
Proof. unfold has, nz. rewrite negb_false_iff. by rewrite Z.eqb_eq. Qed.

Lemma land_1 x : Z.land x 1 = x mod 2.
Proof. exact (Z.land_ones x 1 ltac:(lia)). Qed.

(** A map has at least as many entries as a list of distinct keys of it. *)
Lemma NoDup_size `{Countable K} {A} (m : gmap K A) l :
  NoDup l → (∀ k, k ∈ l → is_Some (m !! k)) → (length l ≤ size m)%nat.
Proof.
  intros Hnd Hl. rewrite <- (size_dom m).
  assert (size (list_to_set l : gset K) = length l) as <- by by apply size_list_to_set.
  apply subseteq_size. intros k Hk. apply elem_of_dom, Hl. set_solver.
Qed.

(** ** The monad of the firmware

    A C function runs on a state and either returns, leaves through
    [longjmp(shutdown_jmp)] ([Shut], with the static string given to [shutdown]), or
    has no defined result: [Undef] marks a read or write through a pointer that does
    not point at a live object, [Diverge] a loop that used up its fuel. *)

Inductive result (S A : Type) : Type :=
| Ret (a : A) (s : S)
| Shut (reason : string) (s : S)
| Undef
| Diverge.
Arguments Ret {S A} a s.
Arguments Shut {S A} reason s.
Arguments Undef {S A}.
Arguments Diverge {S A}.

Definition M (S A : Type) : Type := S → result S A.

#[export] Instance M_ret {S} : MRet (M S) := λ A a s, Ret a s.
#[export] Instance M_bind {S} : MBind (M S) := λ A B k m s,
  match m s with
  | Ret a s' => k a s'
  | Shut r s' => Shut r s'
  | Undef => Undef
  | Diverge => Diverge
  end.

Section primitives.
Context {S : Type}.
Definition get : M S S := λ s, Ret s s.
Definition gets {A} (f : S → A) : M S A := λ s, Ret (f s) s.
Definition modify (f : S → S) : M S unit := λ s, Ret tt (f s).
Definition undef {A} : M S A := λ _, Undef.
Definition diverge {A} : M S A := λ _, Diverge.
(** [p] dereferenced: undefined when it is NULL or dangling. *)
Definition deref {A} (o : option A) : M S A := λ s,
  match o with Some a => Ret a s | None => Undef end.
Definition whenM (b : bool) (m : M S unit) : M S unit := if b then m else mret tt.
End primitives.

Notation "'let!' x := m 'in' k" := (mbind (λ x, k) m)
  (at level 10, x name, m at level 100, k at level 200,
   format "'let!'  x  :=  m  'in' '//' k") : klipper_scope.
Notation "'let!' ' p := m 'in' k" := (mbind (λ x, match x with p => k end) m)
  (at level 10, p pattern, m at level 100, k at level 200,
   format "'let!'  ' p  :=  m  'in' '//' k") : klipper_scope.
Notation "m ';;;' k" := (mbind (λ _ : unit, k) m)
  (at level 100, k at level 200, right associativity,
   format "m ';;;' '//' k") : klipper_scope.
Notation "'when' b 'do' m" := (whenM b m) (at level 90, b at level 100, m at level 90) : klipper_scope.

(** ** Weakest preconditions

    [wp m s Q E]: run from [s], [m] is defined and terminates; when it returns, the
    result satisfies [Q], and when it shuts the machine down, [E]. *)

Definition wp {S A} (m : M S A) (s : S) (Q : A → S → Prop) (E : string → S → Prop) : Prop :=
  match m s with
  | Ret a s' => Q a s'
  | Shut r s' => E r s'
  | Undef | Diverge => False
  end.

(** No shutdown is allowed. *)
Definition no_shut {S} : string → S → Prop := λ _ _, False.

Section wp.
Context {S : Type}.
Implicit Types (s : S) (E : string → S → Prop).

Lemma wp_bind {A B} (m : M S A) (k : A → M S B) s Q E :
  wp m s (λ a s', wp (k a) s' Q E) E → wp (mbind k m) s Q E.
Proof. unfold wp, mbind, M_bind. by destruct (m s). Qed.

Lemma wp_mono {A} (m : M S A) s (Q Q' : A → S → Prop) E E' :
  wp m s Q E → (∀ a s', Q a s' → Q' a s') → (∀ r s', E r s' → E' r s') → wp m s Q' E'.
Proof. unfold wp. destruct (m s); naive_solver. Qed.

Lemma wp_conseq {A} (m : M S A) s (Q Q' : A → S → Prop) E :
  wp m s Q E → (∀ a s', Q a s' → Q' a s') → wp m s Q' E.
Proof. intros H HQ. by eapply wp_mono. Qed.

Lemma wp_use {A} (m : M S A) s (Q Q' : A → S → Prop) E :
  wp m s Q no_shut → (∀ a s', Q a s' → Q' a s') → wp m s Q' E.
Proof. intros H HQ. by eapply wp_mono. Qed.

Lemma wp_ret {A} (a : A) s (Q : A → S → Prop) E : Q a s → wp (mret a) s Q E.
Proof. done. Qed.

Lemma wp_when b (m : M S unit) s (Q : unit → S → Prop) E :
  (b = true → wp m s Q E) → (b = false → Q tt s) → wp (whenM b m) s Q E.
Proof. destruct b; cbn; auto. Qed.

Lemma wp_returns {A} (m : M S A) s Q : wp m s Q no_shut → ∃ a s', m s = Ret a s' ∧ Q a s'.
Proof. unfold wp, no_shut. destruct (m s); [eauto | done..]. Qed.

Lemma wp_returns_tt (m : M S unit) s Q :
  wp m s (λ _, Q) no_shut → ∃ s', m s = Ret tt s' ∧ Q s'.
Proof. unfold wp, no_shut. destruct (m s) as [[]| | |]; [eauto | done..]. Qed.

Lemma wp_shuts {A} (m : M S A) s E :
  wp m s (λ _ _, False) E → ∃ r s', m s = Shut r s' ∧ E r s'.
Proof. unfold wp. destruct (m s); [done | eauto | done..]. Qed.

Lemma wp_of_eq {A} (m : M S A) s a s' (Q : A → S → Prop) E :
  m s = Ret a s' → Q a s' → wp m s Q E.
Proof. unfold wp. by intros ->. Qed.

Lemma bind_ret_eq {A B} (m : M S A) (k : A → M S B) s a s' :
  m s = Ret a s' → mbind k m s = k a s'.
Proof. unfold mbind, M_bind. by intros ->. Qed.
Lemma bind_shut_eq {A B} (m : M S A) (k : A → M S B) s r s' :
  m s = Shut r s' → mbind k m s = Shut r s'.
Proof. unfold mbind, M_bind. by intros ->. Qed.

Lemma wp_eq {A} (m m' : M S A) s (Q : A → S → Prop) E : m s = m' s → wp m' s Q E → wp m s Q E.
Proof. unfold wp. by intros ->. Qed.

(** Programs that have returned. *)
Lemma bind_inv {A B} (m : M S A) (k : A → M S B) s b s' :
  mbind k m s = Ret b s' → ∃ a s1, m s = Ret a s1 ∧ k a s1 = Ret b s'.
Proof. unfold mbind, M_bind. destruct (m s) as [a s1| | |]; [eauto|done..]. Qed.
Lemma deref_inv {A} (o : option A) s s' a : deref o s = Ret a s' → o = Some a ∧ s' = s.
Proof. unfold deref. destruct o; [|done]. by intros [= -> ->]. Qed.

Lemma wp_hget s (Q : S → S → Prop) E : Q s s → wp get s Q E.
Proof. done. Qed.
Lemma wp_hgets {A} (f : S → A) s (Q : A → S → Prop) E : Q (f s) s → wp (gets f) s Q E.
Proof. done. Qed.
Lemma wp_hmodify f s (Q : unit → S → Prop) E : Q tt (f s) → wp (modify f) s Q E.
Proof. done. Qed.
Lemma wp_hderef {A} (a : A) s (Q : A → S → Prop) E : Q a s → wp (deref (Some a)) s Q E.
Proof. done. Qed.
Lemma wp_deref_eq {A} (o : option A) a s (Q : A → S → Prop) E : o = Some a → Q a s → wp (deref o) s Q E.
Proof. by intros ->. Qed.
End wp.

(** One step of symbolic execution, on any state. *)
Ltac hstep :=
  lazymatch goal with
  | |- wp (mbind _ _) _ _ _ => apply wp_bind
  | |- wp (mret _) _ _ _ => apply wp_ret
  | |- wp get _ _ _ => apply wp_hget
  | |- wp (gets _) _ _ _ => apply wp_hgets
  | |- wp (modify _) _ _ _ => apply wp_hmodify
  | |- wp (deref (Some _)) _ _ _ => apply wp_hderef
  | |- wp (whenM true _) _ _ _ => cbn [whenM]
  | |- wp (whenM false _) _ _ _ => apply wp_ret
  end; cbn beta iota.
