(* ===== verification/State.v ===== *)
(** * Data of the firmware: structs, globals and the board

    The C structs of src/Klipper/src as records, the union of all objects that live
    in dynamic memory, the global variables of every translation unit gathered in one
    record [mcu], and the class [Board] of everything that comes from outside: the
    Kconfig options, struct sizes and the values read from hardware.

    Memory is modelled by typed stores.  A [struct timer] embedded in an object is
    named by the object's address and the member, so [container_of] is the projection
    of that name; nodes of the move queue and trsync signals have their own stores. *)

From S2P Require Import Prelude.

(** An address; 0 is NULL. *)
Abbreviation addr := Z.

(** ** Timers (sched.h) *)

Inductive member := M_time | M_expire_time.
Inductive tid := T_periodic | T_sentinel | T_deleted | T_member (a : addr) (m : member).

#[export] Instance member_eq : EqDecision member.
Proof. solve_decision. Defined.
#[export] Instance tid_eq : EqDecision tid.
Proof. solve_decision. Defined.

Definition tid_encode (t : tid) : unit + (unit + (unit + (addr * bool))) :=
  match t with
  | T_periodic => inl tt
  | T_sentinel => inr (inl tt)
  | T_deleted => inr (inr (inl tt))
  | T_member a M_time => inr (inr (inr (a, true)))
  | T_member a M_expire_time => inr (inr (inr (a, false)))
  end.
Definition tid_decode (x : unit + (unit + (unit + (addr * bool)))) : tid :=
  match x with
  | inl _ => T_periodic
  | inr (inl _) => T_sentinel
  | inr (inr (inl _)) => T_deleted
  | inr (inr (inr (a, b))) => T_member a (if b then M_time else M_expire_time)
  end.
Lemma tid_decode_encode t : tid_decode (tid_encode t) = t.
Proof. by destruct t as [| | |? []]. Qed.
#[export] Instance tid_countable : Countable tid :=
  inj_countable' tid_encode tid_decode tid_decode_encode.

(** The functions a timer's [func] can point at; [F_null] is the NULL of a stepper
    timer that relies on CONFIG_INLINE_STEPPER_HACK. *)
Inductive tfunc :=
| F_null | F_periodic_event | F_sentinel_event | F_deleted_event
| F_stepper_event_full
| F_endstop_event | F_endstop_oversample_event
| F_trsync_report_event | F_trsync_expire_event
| F_digital_toggle_event | F_digital_load_event
| F_pwm_event | F_pwm_end_event
| F_analog_in_event | F_buttons_event | F_counter_event
| F_thermocouple_event
| F_tmcuart_read_event | F_tmcuart_read_sync_event | F_tmcuart_send_finish_event
| F_tmcuart_send_event | F_tmcuart_send_sync_event
| F_adxl345_event | F_mpu9250_event | F_angle_event.
#[export] Instance tfunc_eq : EqDecision tfunc.
Proof. solve_decision. Defined.

Record timer := mk_timer { t_next : option tid; t_func : tfunc; t_waketime : Z }.
#[export] Instance eta_timer : Eta timer := λ r, mk_timer (t_next r) (t_func r) (t_waketime r).
Definition zero_timer : timer := mk_timer None F_null 0.

Definition SF_DONE : Z := 0.
Definition SF_RESCHEDULE : Z := 1.

(** ** Move queues (basecmd.h) *)

Record move_queue_head := mk_mq { mq_first : addr; mq_last : addr }.
#[export] Instance eta_mq : Eta move_queue_head := λ r, mk_mq (mq_first r) (mq_last r).

(** The fields after [node] of the structs that are carved out of the move pool. *)
Record stepper_move := mk_stepper_move
  { sm_interval : Z; sm_add : Z; sm_count : Z; sm_flags : Z }.
#[export] Instance eta_stepper_move : Eta stepper_move := λ r,
  mk_stepper_move (sm_interval r) (sm_add r) (sm_count r) (sm_flags r).
Record digital_move := mk_digital_move { dm_waketime : Z; dm_on_duration : Z }.
Record pwm_move := mk_pwm_move { pm_waketime : Z; pm_value : Z }.
Inductive move_data :=
| MD_raw
| MD_stepper (m : stepper_move)
| MD_digital (m : digital_move)
| MD_pwm (m : pwm_move).
Record move_node := mk_move_node { n_next : addr; n_data : move_data }.
#[export] Instance eta_move_node : Eta move_node := λ r, mk_move_node (n_next r) (n_data r).

(** ** Objects configured by the host *)

(** struct stepper (stepper.c), without its [time] and [stop_signal] members. *)
Record stepper := mk_stepper
  { st_interval : Z; st_add : Z; st_count : Z; st_next_step_time : Z;
    st_step_pulse_ticks : Z; st_step_pin : Z; st_dir_pin : Z; st_position : Z;
    st_mq : move_queue_head; st_flags : Z }.
#[export] Instance eta_stepper : Eta stepper := λ r,
  mk_stepper (st_interval r) (st_add r) (st_count r) (st_next_step_time r)
    (st_step_pulse_ticks r) (st_step_pin r) (st_dir_pin r) (st_position r)
    (st_mq r) (st_flags r).

(** struct endstop (endstop.c), without [time]. *)
Record endstop := mk_endstop
  { es_pin : Z; es_rest_time : Z; es_sample_time : Z; es_nextwake : Z; es_ts : addr;
    es_flags : Z; es_sample_count : Z; es_trigger_count : Z; es_trigger_reason : Z }.
#[export] Instance eta_endstop : Eta endstop := λ r,
  mk_endstop (es_pin r) (es_rest_time r) (es_sample_time r) (es_nextwake r) (es_ts r)
    (es_flags r) (es_sample_count r) (es_trigger_count r) (es_trigger_reason r).

(** struct trsync (trsync.c); [report_time] is its [M_time], [expire_time] its
    [M_expire_time]. *)
Record trsync := mk_trsync
  { ts_report_ticks : Z; ts_signals : addr; ts_flags : Z; ts_trigger_reason : Z;
    ts_expire_reason : Z }.
#[export] Instance eta_trsync : Eta trsync := λ r,
  mk_trsync (ts_report_ticks r) (ts_signals r) (ts_flags r) (ts_trigger_reason r)
    (ts_expire_reason r).

(** struct trsync_signal (trsync.h), named by the address of the object it is in. *)
Inductive sigfunc := SG_stepper_stop.
#[export] Instance sigfunc_eq : EqDecision sigfunc.
Proof. solve_decision. Defined.
Record trsync_signal := mk_signal { sg_next : addr; sg_func : option sigfunc }.
#[export] Instance eta_signal : Eta trsync_signal := λ r, mk_signal (sg_next r) (sg_func r).

(** struct digital_out_s (gpiocmds.c), without [timer]. *)
Record digital_out_s := mk_digital_out
  { do_on_duration : Z; do_off_duration : Z; do_end_time : Z; do_pin : Z;
    do_max_duration : Z; do_cycle_time : Z; do_mq : move_queue_head; do_flags : Z }.
#[export] Instance eta_digital_out : Eta digital_out_s := λ r,
  mk_digital_out (do_on_duration r) (do_off_duration r) (do_end_time r) (do_pin r)
    (do_max_duration r) (do_cycle_time r) (do_mq r) (do_flags r).

(** struct pwm_out_s (pwmcmds.c), without [timer]. *)
Record pwm_out_s := mk_pwm_out
  { po_pin : Z; po_max_duration : Z; po_default_value : Z; po_mq : move_queue_head }.
#[export] Instance eta_pwm_out : Eta pwm_out_s := λ r,
  mk_pwm_out (po_pin r) (po_max_duration r) (po_default_value r) (po_mq r).

(** struct analog_in (adccmds.c), without [timer]. *)
Record analog_in := mk_analog_in
  { ai_rest_time : Z; ai_sample_time : Z; ai_next_begin_time : Z; ai_value : Z;
    ai_min_value : Z; ai_max_value : Z; ai_pin : Z; ai_invalid_count : Z;
    ai_range_check_count : Z; ai_state : Z; ai_sample_count : Z }.
#[export] Instance eta_analog_in : Eta analog_in := λ r,
  mk_analog_in (ai_rest_time r) (ai_sample_time r) (ai_next_begin_time r) (ai_value r)
    (ai_min_value r) (ai_max_value r) (ai_pin r) (ai_invalid_count r)
    (ai_range_check_count r) (ai_state r) (ai_sample_count r).

(** struct buttons (buttons.c), without [time]. *)
Record buttons := mk_buttons
  { bt_rest_ticks : Z; bt_pressed : Z; bt_last_pressed : Z; bt_report_count : Z;
    bt_reports : list Z; bt_ack_count : Z; bt_retransmit_state : Z;
    bt_retransmit_count : Z; bt_button_count : Z; bt_pins : list Z }.
#[export] Instance eta_buttons : Eta buttons := λ r,
  mk_buttons (bt_rest_ticks r) (bt_pressed r) (bt_last_pressed r) (bt_report_count r)
    (bt_reports r) (bt_ack_count r) (bt_retransmit_state r) (bt_retransmit_count r)
    (bt_button_count r) (bt_pins r).

(** struct counter (pulse_counter.c), without [timer]. *)
Record counter := mk_counter
  { ct_poll_ticks : Z; ct_sample_ticks : Z; ct_next_sample_time : Z; ct_count : Z;
    ct_last_count_time : Z; ct_flags : Z; ct_pin : Z }.
#[export] Instance eta_counter : Eta counter := λ r,
  mk_counter (ct_poll_ticks r) (ct_sample_ticks r) (ct_next_sample_time r) (ct_count r)
    (ct_last_count_time r) (ct_flags r) (ct_pin r).

(** struct spi_software (spi_software.c). *)
Record spi_software := mk_spi_software
  { ss_miso : Z; ss_mosi : Z; ss_sclk : Z; ss_mode : Z }.
#[export] Instance eta_spi_software : Eta spi_software := λ r,
  mk_spi_software (ss_miso r) (ss_mosi r) (ss_sclk r) (ss_mode r).

(** struct spidev_s (spicmds.c); the union of a hardware configuration (whose contents
    the board chooses, here the arguments of [spi_setup]) and a pointer. *)
Inductive spi_bus := SB_none | SB_hard (bus mode rate : Z) | SB_soft (ss : addr).
Record spidev_s := mk_spidev { sp_bus : spi_bus; sp_pin : Z; sp_flags : Z }.
#[export] Instance eta_spidev : Eta spidev_s := λ r, mk_spidev (sp_bus r) (sp_pin r) (sp_flags r).

(** struct spidev_shutdown_s (spicmds.c). *)
Record spidev_shutdown_s := mk_spidev_shutdown
  { sd_spi : addr; sd_shutdown_msg_len : Z; sd_shutdown_msg : list Z }.
#[export] Instance eta_spidev_shutdown : Eta spidev_shutdown_s := λ r,
  mk_spidev_shutdown (sd_spi r) (sd_shutdown_msg_len r) (sd_shutdown_msg r).

(** struct thermocouple_spi (thermocouple.c), without [timer]. *)
Record thermocouple_spi := mk_thermocouple
  { tc_rest_time : Z; tc_min_value : Z; tc_max_value : Z; tc_spi : addr; tc_max_invalid : Z;
    tc_invalid_count : Z; tc_chip_type : Z; tc_flags : Z }.
#[export] Instance eta_thermocouple : Eta thermocouple_spi := λ r,
  mk_thermocouple (tc_rest_time r) (tc_min_value r) (tc_max_value r) (tc_spi r)
    (tc_max_invalid r) (tc_invalid_count r) (tc_chip_type r) (tc_flags r).

(** struct tmcuart_s (tmcuart.c), without [timer]. *)
Record tmcuart_s := mk_tmcuart
  { tu_tx_pin : Z; tu_rx_pin : Z; tu_flags : Z; tu_pos : Z; tu_read_count : Z;
    tu_write_count : Z; tu_cfg_bit_time : Z; tu_bit_time : Z; tu_data : list Z }.
#[export] Instance eta_tmcuart : Eta tmcuart_s := λ r,
  mk_tmcuart (tu_tx_pin r) (tu_rx_pin r) (tu_flags r) (tu_pos r) (tu_read_count r)
    (tu_write_count r) (tu_cfg_bit_time r) (tu_bit_time r) (tu_data r).

(** struct neopixel_s (neopixel.c). *)
Record neopixel_s := mk_neopixel
  { np_pin : Z; np_bit_max_ticks : Z; np_last_req_time : Z; np_reset_min_ticks : Z;
    np_data_size : Z; np_data : list Z }.
#[export] Instance eta_neopixel : Eta neopixel_s := λ r,
  mk_neopixel (np_pin r) (np_bit_max_ticks r) (np_last_req_time r) (np_reset_min_ticks r)
    (np_data_size r) (np_data r).

(** An I2C bus as the board sets it up, here by the arguments of [i2c_setup]. *)
Record i2c_config := mk_i2c
  { ic_bus : Z; ic_rate : Z; ic_addr : Z }.
#[export] Instance eta_i2c : Eta i2c_config := λ r,
  mk_i2c (ic_bus r) (ic_rate r) (ic_addr r).

(** struct i2cdev_s (i2ccmds.h); the bus is unset until [i2c_setup] returns. *)
Record i2cdev_s := mk_i2cdev
  { id_config : option i2c_config }.
#[export] Instance eta_i2cdev : Eta i2cdev_s := λ r,
  mk_i2cdev (id_config r).

(** struct adxl345 (sensor_adxl345.c), without [timer]. *)
Record adxl345 := mk_adxl345
  { ax_rest_ticks : Z; ax_spi : addr; ax_sequence : Z; ax_limit_count : Z; ax_flags : Z;
    ax_data_count : Z; ax_data : list Z }.
#[export] Instance eta_adxl345 : Eta adxl345 := λ r,
  mk_adxl345 (ax_rest_ticks r) (ax_spi r) (ax_sequence r) (ax_limit_count r) (ax_flags r)
    (ax_data_count r) (ax_data r).

(** struct mpu9250 (sensor_mpu9250.c), without [timer]. *)
Record mpu9250 := mk_mpu9250
  { mp_rest_ticks : Z; mp_i2c : addr; mp_sequence : Z; mp_limit_count : Z; mp_fifo_max : Z;
    mp_fifo_pkts_bytes : Z; mp_flags : Z; mp_data_count : Z; mp_data : list Z }.
#[export] Instance eta_mpu9250 : Eta mpu9250 := λ r,
  mk_mpu9250 (mp_rest_ticks r) (mp_i2c r) (mp_sequence r) (mp_limit_count r) (mp_fifo_max r)
    (mp_fifo_pkts_bytes r) (mp_flags r) (mp_data_count r) (mp_data r).

(** struct spi_angle (sensor_angle.c), without [timer]. *)
Record spi_angle := mk_spi_angle
  { sa_rest_ticks : Z; sa_spi : addr; sa_sequence : Z; sa_flags : Z; sa_chip_type : Z;
    sa_data_count : Z; sa_time_shift : Z; sa_overflow : Z; sa_data : list Z }.
#[export] Instance eta_spi_angle : Eta spi_angle := λ r,
  mk_spi_angle (sa_rest_ticks r) (sa_spi r) (sa_sequence r) (sa_flags r) (sa_chip_type r)
    (sa_data_count r) (sa_time_shift r) (sa_overflow r) (sa_data r).

(** struct hd44780 (lcd_hd44780.c). *)
Record hd44780 := mk_hd44780
  { hd_last_cmd_time : Z; hd_cmd_wait_ticks : Z; hd_last : Z; hd_rs : Z; hd_e : Z; hd_d4 :
    Z; hd_d5 : Z; hd_d6 : Z; hd_d7 : Z }.
#[export] Instance eta_hd44780 : Eta hd44780 := λ r,
  mk_hd44780 (hd_last_cmd_time r) (hd_cmd_wait_ticks r) (hd_last r) (hd_rs r) (hd_e r)
    (hd_d4 r) (hd_d5 r) (hd_d6 r) (hd_d7 r).

(** struct st7920 (lcd_st7920.c). *)
Record st7920 := mk_st7920
  { lc_last_cmd_time : Z; lc_sync_wait_ticks : Z; lc_cmd_wait_ticks : Z; lc_sclk : Z; lc_sid
    : Z }.
#[export] Instance eta_st7920 : Eta st7920 := λ r,
  mk_st7920 (lc_last_cmd_time r) (lc_sync_wait_ticks r) (lc_cmd_wait_ticks r) (lc_sclk r)
    (lc_sid r).

(** struct sdiodev_s (sdiocmds.c); the bus is unset until [sdio_setup] returns. *)
Record sdiodev_s := mk_sdiodev
  { sx_config : option Z; sx_blocksize : Z; sx_speed : Z; sx_data_buffer : list Z }.
#[export] Instance eta_sdiodev : Eta sdiodev_s := λ r,
  mk_sdiodev (sx_config r) (sx_blocksize r) (sx_speed r) (sx_data_buffer r).

(** The type tag of an oid is the address of the command that configures it. *)
Inductive otype :=
| command_config_stepper_t | command_config_endstop_t | command_config_trsync_t
| command_config_digital_out_t | command_config_pwm_out_t | command_config_analog_in_t
| command_config_buttons_t | command_config_counter_t
| command_config_spi_t | command_config_spi_shutdown_t | command_config_thermocouple_t
| command_config_tmcuart_t | command_config_neopixel_t
| command_config_i2c_t | command_config_adxl345_t | command_config_mpu9250_t
| command_config_spi_angle_t | command_config_hd44780_t | command_config_st7920_t
| command_config_sdio_t.
#[export] Instance otype_eq : EqDecision otype.
Proof. solve_decision. Defined.

Inductive object :=
| O_stepper (o : stepper) | O_endstop (o : endstop) | O_trsync (o : trsync)
| O_digital_out (o : digital_out_s) | O_pwm_out (o : pwm_out_s)
| O_analog_in (o : analog_in) | O_buttons (o : buttons) | O_counter (o : counter)
| O_spidev (o : spidev_s) | O_spi_software (o : spi_software)
| O_spidev_shutdown (o : spidev_shutdown_s) | O_thermocouple (o : thermocouple_spi)
| O_tmcuart (o : tmcuart_s) | O_neopixel (o : neopixel_s)
| O_i2cdev (o : i2cdev_s) | O_adxl345 (o : adxl345) | O_mpu9250 (o : mpu9250)
| O_spi_angle (o : spi_angle) | O_hd44780 (o : hd44780) | O_st7920 (o : st7920)
| O_sdiodev (o : sdiodev_s).

(** Reading an object at its C type. *)
Class Obj (T : Type) := { to_obj : T → object; of_obj : object → option T;
                          of_to_obj o : of_obj (to_obj o) = Some o }.
#[export] Instance obj_stepper : Obj stepper :=
  {| to_obj := O_stepper; of_obj o := match o with O_stepper x => Some x | _ => None end;
     of_to_obj _ := eq_refl |}.
#[export] Instance obj_endstop : Obj endstop :=
  {| to_obj := O_endstop; of_obj o := match o with O_endstop x => Some x | _ => None end;
     of_to_obj _ := eq_refl |}.
#[export] Instance obj_trsync : Obj trsync :=
  {| to_obj := O_trsync; of_obj o := match o with O_trsync x => Some x | _ => None end;
     of_to_obj _ := eq_refl |}.
#[export] Instance obj_digital_out : Obj digital_out_s :=
  {| to_obj := O_digital_out; of_obj o := match o with O_digital_out x => Some x | _ => None end;
     of_to_obj _ := eq_refl |}.
#[export] Instance obj_pwm_out : Obj pwm_out_s :=
  {| to_obj := O_pwm_out; of_obj o := match o with O_pwm_out x => Some x | _ => None end;
     of_to_obj _ := eq_refl |}.
#[export] Instance obj_analog_in : Obj analog_in :=
  {| to_obj := O_analog_in; of_obj o := match o with O_analog_in x => Some x | _ => None end;
     of_to_obj _ := eq_refl |}.
#[export] Instance obj_buttons : Obj buttons :=
  {| to_obj := O_buttons; of_obj o := match o with O_buttons x => Some x | _ => None end;
     of_to_obj _ := eq_refl |}.
#[export] Instance obj_counter : Obj counter :=
  {| to_obj := O_counter; of_obj o := match o with O_counter x => Some x | _ => None end;
     of_to_obj _ := eq_refl |}.
#[export] Instance obj_spidev : Obj spidev_s :=
  {| to_obj := O_spidev; of_obj o := match o with O_spidev x => Some x | _ => None end;
     of_to_obj _ := eq_refl |}.
#[export] Instance obj_spi_software : Obj spi_software :=
  {| to_obj := O_spi_software; of_obj o := match o with O_spi_software x => Some x | _ => None end;
     of_to_obj _ := eq_refl |}.
#[export] Instance obj_spidev_shutdown : Obj spidev_shutdown_s :=
  {| to_obj := O_spidev_shutdown; of_obj o := match o with O_spidev_shutdown x => Some x | _ => None end;
     of_to_obj _ := eq_refl |}.
#[export] Instance obj_thermocouple : Obj thermocouple_spi :=
  {| to_obj := O_thermocouple; of_obj o := match o with O_thermocouple x => Some x | _ => None end;
     of_to_obj _ := eq_refl |}.
#[export] Instance obj_tmcuart : Obj tmcuart_s :=
  {| to_obj := O_tmcuart; of_obj o := match o with O_tmcuart x => Some x | _ => None end;
     of_to_obj _ := eq_refl |}.
#[export] Instance obj_neopixel : Obj neopixel_s :=
  {| to_obj := O_neopixel; of_obj o := match o with O_neopixel x => Some x | _ => None end;
     of_to_obj _ := eq_refl |}.
#[export] Instance obj_i2cdev : Obj i2cdev_s :=
  {| to_obj := O_i2cdev; of_obj o := match o with O_i2cdev x => Some x | _ => None end;
     of_to_obj _ := eq_refl |}.
#[export] Instance obj_adxl345 : Obj adxl345 :=
  {| to_obj := O_adxl345; of_obj o := match o with O_adxl345 x => Some x | _ => None end;
     of_to_obj _ := eq_refl |}.
#[export] Instance obj_mpu9250 : Obj mpu9250 :=
  {| to_obj := O_mpu9250; of_obj o := match o with O_mpu9250 x => Some x | _ => None end;
     of_to_obj _ := eq_refl |}.
#[export] Instance obj_spi_angle : Obj spi_angle :=
  {| to_obj := O_spi_angle; of_obj o := match o with O_spi_angle x => Some x | _ => None end;
     of_to_obj _ := eq_refl |}.
#[export] Instance obj_hd44780 : Obj hd44780 :=
  {| to_obj := O_hd44780; of_obj o := match o with O_hd44780 x => Some x | _ => None end;
     of_to_obj _ := eq_refl |}.
#[export] Instance obj_st7920 : Obj st7920 :=
  {| to_obj := O_st7920; of_obj o := match o with O_st7920 x => Some x | _ => None end;
     of_to_obj _ := eq_refl |}.
#[export] Instance obj_sdiodev : Obj sdiodev_s :=
  {| to_obj := O_sdiodev; of_obj o := match o with O_sdiodev x => Some x | _ => None end;
     of_to_obj _ := eq_refl |}.

(** The object that a chunk filled with zeros is, at the type a command gives it. *)
Definition zero_object (t : otype) (n : nat) : object :=
  match t with
  | command_config_stepper_t => O_stepper (mk_stepper 0 0 0 0 0 0 0 0 (mk_mq 0 0) 0)
  | command_config_endstop_t => O_endstop (mk_endstop 0 0 0 0 0 0 0 0 0)
  | command_config_trsync_t => O_trsync (mk_trsync 0 0 0 0 0)
  | command_config_digital_out_t => O_digital_out (mk_digital_out 0 0 0 0 0 0 (mk_mq 0 0) 0)
  | command_config_pwm_out_t => O_pwm_out (mk_pwm_out 0 0 0 (mk_mq 0 0))
  | command_config_analog_in_t => O_analog_in (mk_analog_in 0 0 0 0 0 0 0 0 0 0 0)
  | command_config_buttons_t =>
      O_buttons (mk_buttons 0 0 0 0 (replicate 8 0) 0 0 0 0 (replicate n 0))
  | command_config_counter_t => O_counter (mk_counter 0 0 0 0 0 0 0)
  | command_config_spi_t => O_spidev (mk_spidev SB_none 0 0)
  | command_config_spi_shutdown_t => O_spidev_shutdown (mk_spidev_shutdown 0 0 (replicate n 0))
  | command_config_thermocouple_t => O_thermocouple (mk_thermocouple 0 0 0 0 0 0 0 0)
  | command_config_tmcuart_t => O_tmcuart (mk_tmcuart 0 0 0 0 0 0 0 0 (replicate 10 0))
  | command_config_neopixel_t => O_neopixel (mk_neopixel 0 0 0 0 0 (replicate n 0))
  | command_config_i2c_t => O_i2cdev (mk_i2cdev None)
  | command_config_adxl345_t => O_adxl345 (mk_adxl345 0 0 0 0 0 0 (replicate 50 0))
  | command_config_mpu9250_t => O_mpu9250 (mk_mpu9250 0 0 0 0 0 0 0 0 (replicate 48 0))
  | command_config_spi_angle_t => O_spi_angle (mk_spi_angle 0 0 0 0 0 0 0 0 (replicate 48 0))
  | command_config_hd44780_t => O_hd44780 (mk_hd44780 0 0 0 0 0 0 0 0 0)
  | command_config_st7920_t => O_st7920 (mk_st7920 0 0 0 0 0)
  | command_config_sdio_t => O_sdiodev (mk_sdiodev None 0 0 (replicate (Z.to_nat 4096) 0))
  end.

(** ** The outside world *)

(** Arguments of a [sendf]: integers, byte buffers, and the id that the build gives a
    static string (named here by the string). *)
Inductive msg_arg := A_int (z : Z) | A_buf (l : list Z) | A_static (s : string).

(** What the firmware does to its surroundings, in order. *)
Inductive event :=
| EvSend (fmt : string) (args : list msg_arg)  (** a message handed to [console_sendf] *)
| EvOutSetup (pin val : Z)                     (** [gpio_out_setup] *)
| EvWrite (pin val : Z)                        (** [gpio_out_write] *)
| EvToggle (pin : Z)                           (** [gpio_out_toggle_noirq] *)
| EvOutReset (pin val : Z)                     (** [gpio_out_reset] *)
| EvInReset (pin pull_up : Z)                  (** [gpio_in_reset] *)
| EvSpiPrepare (bus mode rate : Z)             (** [spi_prepare] *)
| EvSpiTransfer (bus : Z) (data : list Z)      (** [spi_transfer] *)
| EvInSetup (pin pull_up : Z)                  (** [gpio_in_setup] *)
| EvPwmSetup (pin cycle_time val : Z)          (** [gpio_pwm_setup] *)
| EvPwmWrite (pin val : Z)                     (** [gpio_pwm_write] *)
| EvAdcSetup (pin : Z)                         (** [gpio_adc_setup] *)
| EvAdcCancel (pin : Z)                        (** [gpio_adc_cancel_sample] *)
| EvI2cWrite (c : i2c_config) (data : list Z)  (** [i2c_write] *)
| EvI2cRead (c : i2c_config) (reg : list Z) (len : nat)  (** [i2c_read] *)
| EvSdioSpeed (bus speed : Z)                  (** [sdio_set_speed] *)
| EvSdioCommand (bus cmd argument wait : Z)    (** [sdio_send_command] *)
| EvSdioPrepare (bus read numblocks blocksize timeout : Z)
                                               (** [sdio_prepare_data_transfer] *)
| EvSdioWrite (bus : Z) (data : list Z)        (** [sdio_write_data] *)
| EvKick.                                      (** [timer_kick] *)

(** The integer types that the boards give to pins and values in their gpio.h (an STM32 takes
    the value of a PWM pin as a uint32_t, Linux as a uint16_t, an AVR as a uint8_t); an
    argument is converted to the type of its parameter. *)
Inductive c_int := C_uint8 | C_uint16 | C_uint32 | C_int8 | C_int32.
Definition conv (t : c_int) (x : Z) : Z :=
  match t with C_uint8 => u8 x | C_uint16 => u16 x | C_uint32 => u32 x | C_int8 => i8 x | C_int32 => i32 x end.
Record gpio_types := mk_gpio_types
  { gt_out_pin : c_int; gt_out_val : c_int; gt_in_pin : c_int; gt_pull_up : c_int;
    gt_pwm_pin : c_int; gt_pwm_setup_val : c_int; gt_pwm_val : c_int; gt_adc_pin : c_int }.

(** The largest number that the type holds. *)
Definition max_val (t : c_int) : Z :=
  match t with C_uint8 => 255 | C_uint16 => 65535 | C_uint32 => 4294967295 | C_int8 => 127 | C_int32 => 2147483647 end.
Lemma conv_fits t x : 0 ≤ x ≤ max_val t → conv t x = x.
Proof. intros H. destruct t; cbn [conv max_val] in *; zmod. Qed.
Lemma conv_small t x : 0 ≤ x < 128 → conv t x = x.
Proof. intros H. apply conv_fits. destruct t; cbn [max_val]; lia. Qed.
Lemma conv_byte t x : 0 ≤ x < 256 → nz (conv t x) = nz x.
Proof.
  intros H. unfold nz. f_equal. destruct (Z.eqb_spec x 0) as [->|Hx]; [by destruct t|].
  apply Z.eqb_neq. destruct t; cbn [conv]; zmod.
Qed.

(** Build configuration (autoconf.h), the prototypes of board/gpio.h, the layout of structs, and the values hardware
    registers hold: the [n]-th read of the machine finds the clock at [clock_at n]
    and input pin [p] at [pin_at p n]; a byte [b] shifted out on SPI bus [k] by that
    read shifts in [spi_reply_at k n b].  An I2C transfer fails with the shutdown
    [i2c_error_at n] or reads the bytes [i2c_reply_at c n i]; an SDIO operation has the
    error code [sdio_error_at n] and the data [sdio_reply_at n]; a raw memory access
    finds the word [mem_at p n].  [initial_pins] is the
    table the build makes of CONFIG_INITIAL_PINS: pins with their flags. *)
Class Board := {
  CONFIG_CLOCK_FREQ : Z;
  CONFIG_INLINE_STEPPER_HACK : bool;
  CONFIG_HAVE_STEPPER_BOTH_EDGE : bool;
  CONFIG_MACH_AVR : bool;
  CONFIG_MACH_PRU : bool;
  gpio_h : gpio_types;
  CONFIG_HAVE_GPIO_BITBANGING : bool;
  CONFIG_HAVE_STRICT_TIMING : bool;
  CONFIG_INITIAL_PINS : string;
  initial_pins : list (Z * Z);
  alignof_ptr : Z;
  sizeof_oid_s : Z;
  sizeof_move_node : Z;
  sizeof_stepper_move : Z;
  sizeof_digital_move : Z;
  sizeof_pwm_move : Z;
  sizeof_gpio_in : Z;
  sizeof_spi_software : Z;
  sizeof_object : otype → Z;
  dynmem_pool : addr;
  command_identify_data : list Z;
  clock_at : nat → Z;
  pin_at : Z → nat → bool;
  adc_delay_at : Z → nat → Z;
  adc_value_at : Z → nat → Z;
  spi_reply_at : Z → nat → Z → Z;
  out_pin_ok : Z → bool;
  in_pin_ok : Z → bool;
  pwm_pin_ok : Z → bool;
  adc_pin_ok : Z → bool;
  spi_bus_ok : Z → bool;
  i2c_bus_ok : Z → bool;
  i2c_error_at : nat → option string;
  i2c_reply_at : i2c_config → nat → nat → Z;
  mem_at : addr → nat → Z;
  sdio_bus_ok : Z → bool;
  sdio_error_at : nat → Z;
  sdio_reply_at : nat → list Z;
}.

(** ** Global variables *)

(** [task_wake] variables. *)
Inductive wake_id := trsync_wake | analog_wake | buttons_wake | counter_wake
| thermocouple_wake | tmcuart_wake | adxl345_wake | mpu9250_wake | angle_wake.
#[export] Instance wake_id_eq : EqDecision wake_id.
Proof. solve_decision. Defined.

(** sched.c: SchedStatus and every [struct timer] of the firmware. *)
Record sched_state := mk_sched
  { timers : gmap tid timer; timer_list : tid; last_insert : tid; tasks_status : Z;
    shutdown_status : Z; shutdown_reason : string }.
#[export] Instance eta_sched : Eta sched_state := λ r,
  mk_sched (timers r) (timer_list r) (last_insert r) (tasks_status r)
    (shutdown_status r) (shutdown_reason r).

(** basecmd.c: struct oid_s and the file's static variables. *)
Record oid_s := mk_oid { o_type : option otype; o_data : addr }.
#[export] Instance eta_oid : Eta oid_s := λ r, mk_oid (o_type r) (o_data r).
Record base_state := mk_base
  { alloc_end : addr; move_free_list : addr; move_list : addr; move_count : Z;
    move_item_size : Z; oids : option (list oid_s); oid_count : Z; config_crc : Z;
    stats_send_time : Z; stats_send_time_high : Z; stats_count : Z; stats_sum : Z;
    stats_sumsq : Z }.
#[export] Instance eta_base : Eta base_state := λ r,
  mk_base (alloc_end r) (move_free_list r) (move_list r) (move_count r)
    (move_item_size r) (oids r) (oid_count r) (config_crc r) (stats_send_time r)
    (stats_send_time_high r) (stats_count r) (stats_sum r) (stats_sumsq r).

(** command.c: static variables (also those local to a function). *)
Record cmd_state := mk_cmd { next_sequence : Z; in_sendf : Z; sync_state : Z }.
#[export] Instance eta_cmd : Eta cmd_state := λ r,
  mk_cmd (next_sequence r) (in_sendf r) (sync_state r).

(** The whole machine.  [rx_block] is the message block that is being dispatched; a
    pointer that [command_decode_ptr] makes of an argument is a position in it. *)
Record mcu := mk_mcu
  { sched : sched_state; base : base_state; cmd : cmd_state;
    objects : gmap addr object; moves : gmap addr move_node;
    signals : gmap addr trsync_signal; wakes : wake_id → Z;
    rx_block : list Z; timer_repeat_until : Z; irq_off : bool; hw_reads : nat;
    trace : list event }.
#[export] Instance eta_mcu : Eta mcu := λ r,
  mk_mcu (sched r) (base r) (cmd r) (objects r) (moves r) (signals r) (wakes r)
    (rx_block r) (timer_repeat_until r) (irq_off r) (hw_reads r) (trace r).

(** The static initialisers: the state in which [sched_main] starts. *)
Definition boot_timers : gmap tid timer :=
  <[T_periodic := mk_timer (Some T_sentinel) F_periodic_event 0]>
  (<[T_sentinel := mk_timer None F_sentinel_event 0x80000000]>
  (<[T_deleted := mk_timer None F_deleted_event 0]> ∅)).
Definition boot_sched : sched_state := mk_sched boot_timers T_periodic T_periodic 0 0 "".
Definition boot_base : base_state := mk_base 0 0 0 0 0 None 0 0 0 0 0 0 0.
Definition boot_cmd : cmd_state := mk_cmd 0x10 0 0.
Definition boot : mcu :=
  mk_mcu boot_sched boot_base boot_cmd ∅ ∅ ∅ (λ _, 0) [] 0 true 0 [].

Abbreviation MC := (M mcu).

(** ** Primitive accesses *)

Definition shutdown {A} (reason : string) : MC A := λ s, Shut reason (s <| irq_off := true |>).

Definition emit (e : event) : MC unit := modify (λ s, s <| trace := e :: trace s |>).

Definition irq_disable : MC unit := modify (λ s, s <| irq_off := true |>).
Definition irq_enable : MC unit := modify (λ s, s <| irq_off := false |>).
Definition irq_save : MC bool :=
  let! f := gets irq_off in
  irq_disable;;;
  mret f.
Definition irq_restore (f : bool) : MC unit := modify (λ s, s <| irq_off := f |>).

Definition get_timer (t : tid) : MC timer :=
  let! s := get in
  deref (timers (sched s) !! t).
(** Assignment to fields of a timer through a pointer to it. *)
Definition upd_timer (t : tid) (f : timer → timer) : MC unit :=
  let! x := get_timer t in
  modify (upd sched (upd timers <[t := f x]>)).

Definition load {T} `{Obj T} (a : addr) : MC T :=
  let! s := get in
  deref (objects s !! a ≫= of_obj).
Definition store {T} `{Obj T} (a : addr) (x : T) : MC unit :=
  modify (upd objects <[a := to_obj x]>).

(** Assignment to fields of an object through a pointer to it. *)
Definition upd_obj {T} `{Obj T} (a : addr) (f : T → T) : MC unit :=
  let! x := load a in
  store a (f x).

Definition get_node (a : addr) : MC move_node :=
  let! s := get in
  deref (moves s !! a).
Definition upd_node (a : addr) (f : move_node → move_node) : MC unit :=
  let! x := get_node a in
  modify (upd moves <[a := f x]>).

Definition get_signal (a : addr) : MC trsync_signal :=
  let! s := get in
  deref (signals s !! a).
Definition upd_signal (a : addr) (f : trsync_signal → trsync_signal) : MC unit :=
  let! x := get_signal a in
  modify (upd signals <[a := f x]>).

(** ** Symbolic execution

    [mstep] runs a monadic program of the goal one primitive further. *)

Lemma get_timer_eq (s : mcu) t x :
  timers (sched s) !! t = Some x → get_timer t s = Ret x s.
Proof. intros H. unfold get_timer, get, mbind, M_bind. by rewrite H. Qed.
Lemma upd_timer_eq (s : mcu) t x f :
  timers (sched s) !! t = Some x →
  upd_timer t f s = Ret tt (upd sched (upd timers <[t := f x]>) s).
Proof. intros H. unfold upd_timer. by rewrite (bind_ret_eq _ _ _ _ _ (get_timer_eq _ _ _ H)). Qed.
Lemma load_eq {T} `{Obj T} (s : mcu) a (x : T) :
  objects s !! a = Some (to_obj x) → load a s = Ret x s.
Proof.
  intros Ha. unfold load, get, mbind, M_bind. rewrite Ha. cbn. by rewrite of_to_obj.
Qed.
Lemma get_node_eq (s : mcu) a x : moves s !! a = Some x → get_node a s = Ret x s.
Proof. intros H. unfold get_node, get, mbind, M_bind. by rewrite H. Qed.
Lemma upd_node_eq (s : mcu) a x f :
  moves s !! a = Some x → upd_node a f s = Ret tt (upd moves <[a := f x]> s).
Proof. intros H. unfold upd_node. by rewrite (bind_ret_eq _ _ _ _ _ (get_node_eq _ _ _ H)). Qed.
Lemma get_signal_eq (s : mcu) a x : signals s !! a = Some x → get_signal a s = Ret x s.
Proof. intros H. unfold get_signal, get, mbind, M_bind. by rewrite H. Qed.
Lemma upd_signal_eq (s : mcu) a x f :
  signals s !! a = Some x → upd_signal a f s = Ret tt (upd signals <[a := f x]> s).
Proof. intros H. unfold upd_signal. by rewrite (bind_ret_eq _ _ _ _ _ (get_signal_eq _ _ _ H)). Qed.

(** ** Weakest preconditions of the primitives *)

Section wp_rules.
Implicit Types (s : mcu) (E : string → mcu → Prop).
Lemma wp_get s (Q : mcu → mcu → Prop) E : Q s s → wp get s Q E.
Proof. done. Qed.
Lemma wp_gets {A} (f : mcu → A) s (Q : A → mcu → Prop) E : Q (f s) s → wp (gets f) s Q E.
Proof. done. Qed.
Lemma wp_modify f s (Q : unit → mcu → Prop) E : Q tt (f s) → wp (modify f) s Q E.
Proof. done. Qed.
Lemma wp_deref {A} (a : A) s (Q : A → mcu → Prop) E : Q a s → wp (deref (Some a)) s Q E.
Proof. done. Qed.
Lemma wp_shutdown {A} r s (Q : A → mcu → Prop) E :
  E r (s <| irq_off := true |>) → wp (shutdown r) s Q E.
Proof. done. Qed.
Lemma wp_get_timer t x s (Q : timer → mcu → Prop) E :
  timers (sched s) !! t = Some x → Q x s → wp (get_timer t) s Q E.
Proof. intros H. apply wp_of_eq. by apply get_timer_eq. Qed.
Lemma wp_upd_timer t x f s (Q : unit → mcu → Prop) E :
  timers (sched s) !! t = Some x →
  Q tt (upd sched (upd timers <[t := f x]>) s) → wp (upd_timer t f) s Q E.
Proof. intros H. apply wp_of_eq. by apply upd_timer_eq. Qed.
Lemma wp_load {T} `{Obj T} a (x : T) s (Q : T → mcu → Prop) E :
  objects s !! a = Some (to_obj x) → Q x s → wp (load a) s Q E.
Proof. intros Ha. apply wp_of_eq. by apply load_eq. Qed.
Lemma wp_store {T} `{Obj T} a (x : T) s (Q : unit → mcu → Prop) E :
  Q tt (upd objects <[a := to_obj x]> s) → wp (store a x) s Q E.
Proof. done. Qed.
Lemma wp_upd_obj {T} `{Obj T} a (x : T) f s (Q : unit → mcu → Prop) E :
  objects s !! a = Some (to_obj x) → Q tt (upd objects <[a := to_obj (f x)]> s) →
  wp (upd_obj a f) s Q E.
Proof. intros Ha HQ. apply wp_bind. by apply (wp_load a x). Qed.
Lemma wp_get_node a x s (Q : move_node → mcu → Prop) E :
  moves s !! a = Some x → Q x s → wp (get_node a) s Q E.
Proof. intros H. apply wp_of_eq. by apply get_node_eq. Qed.
Lemma wp_upd_node a x f s (Q : unit → mcu → Prop) E :
  moves s !! a = Some x → Q tt (upd moves <[a := f x]> s) → wp (upd_node a f) s Q E.
Proof. intros H. apply wp_of_eq. by apply upd_node_eq. Qed.
Lemma wp_get_signal a x s (Q : trsync_signal → mcu → Prop) E :
  signals s !! a = Some x → Q x s → wp (get_signal a) s Q E.
Proof. intros H. apply wp_of_eq. by apply get_signal_eq. Qed.
Lemma wp_upd_signal a x f s (Q : unit → mcu → Prop) E :
  signals s !! a = Some x → Q tt (upd signals <[a := f x]> s) → wp (upd_signal a f) s Q E.
Proof. intros H. apply wp_of_eq. by apply upd_signal_eq. Qed.
End wp_rules.

(** [wstep] runs one primitive of a [wp] goal; lookups are found in the context. *)
Ltac wstep_prim :=
  lazymatch goal with
  | |- wp (mbind _ _) _ _ _ => apply wp_bind
  | |- wp (mret _) _ _ _ => apply wp_ret
  | |- wp get _ _ _ => apply wp_get
  | |- wp (gets _) _ _ _ => apply wp_gets
  | |- wp (modify _) _ _ _ => apply wp_modify
  | |- wp (emit _) _ _ _ => apply wp_modify
  | |- wp irq_disable _ _ _ => apply wp_modify
  | |- wp irq_enable _ _ _ => apply wp_modify
  | |- wp (irq_restore _) _ _ _ => apply wp_modify
  | |- wp irq_save _ _ _ => unfold irq_save
  | |- wp (deref (Some _)) _ _ _ => apply wp_deref
  | |- wp (shutdown _) _ _ _ => apply wp_shutdown
  | |- wp (get_timer _) _ _ _ => eapply wp_get_timer; [first [eassumption | by simplify_map_eq]|]
  | |- wp (upd_timer _ _) _ _ _ => eapply wp_upd_timer; [first [eassumption | by simplify_map_eq]|]
  | |- wp (load _) _ _ _ => eapply wp_load; [first [eassumption | by simplify_map_eq]|]
  | |- wp (store _ _) _ _ _ => apply wp_store
  | |- wp (upd_obj _ _) _ _ _ => eapply wp_upd_obj; [first [eassumption | by simplify_map_eq]|]
  | |- wp (get_node _) _ _ _ => eapply wp_get_node; [first [eassumption | by simplify_map_eq]|]
  | |- wp (upd_node _ _) _ _ _ => eapply wp_upd_node; [first [eassumption | by simplify_map_eq]|]
  | |- wp (get_signal _) _ _ _ => eapply wp_get_signal; [first [eassumption | by simplify_map_eq]|]
  | |- wp (upd_signal _ _) _ _ _ => eapply wp_upd_signal; [first [eassumption | by simplify_map_eq]|]
  | |- wp (whenM true _) _ _ _ => cbn [whenM]
  | |- wp (whenM false _) _ _ _ => apply wp_ret
  end; cbn beta iota.
(** Later files add the rules of the functions they define. *)
Ltac wstep_hook := fail.
Ltac wstep := first [wstep_prim | wstep_hook; cbn beta iota].
