(* ===== verification/Runtime.v ===== *)
(** * Board services and response messages

    The functions board/misc.h, board/gpio.h and board/irq.h declare, as far as the
    generic code calls them (timer_irq.c and alloc.c give the arithmetic ones; pins
    are an event trace and an input oracle), and [command_sendf] of command.c. *)

From S2P Require Import Prelude State.

Section runtime.
Context {B : Board}.

(** ** generic/timer_irq.c, generic/alloc.c *)

Definition timer_from_us (us : Z) : Z := u32 (us * (CONFIG_CLOCK_FREQ / 1000000)).

Definition timer_is_before (time1 time2 : Z) : bool := i32 (u32 (time1 - time2)) <? 0.

Definition dynmem_start : addr := dynmem_pool.
Definition dynmem_end : addr := dynmem_pool + 20 * 1024.

(** ** Hardware *)

Definition next_read : MC nat :=
  let! n := gets hw_reads in
  modify (λ s, s <| hw_reads := S n |>);;;
  mret n.

Definition timer_read_time : MC Z :=
  let! n := next_read in
  mret (u32 (clock_at n)).

Definition timer_kick : MC unit := emit EvKick.

(** The prototypes of the board's gpio.h convert the arguments. *)
Definition gpio_out_setup (pin val : Z) : MC Z :=
  let pin := conv (gt_out_pin gpio_h) pin in
  if out_pin_ok pin then
    emit (EvOutSetup pin (b2z (nz (conv (gt_out_val gpio_h) val))));;;
    mret pin
  else shutdown "Not an output pin".
Definition gpio_out_write (pin val : Z) : MC unit := emit (EvWrite pin (b2z (nz (conv (gt_out_val gpio_h) val)))).
Definition gpio_out_toggle_noirq (pin : Z) : MC unit := emit (EvToggle pin).
Definition gpio_out_toggle (pin : Z) : MC unit := emit (EvToggle pin).
Definition gpio_out_reset (pin val : Z) : MC unit := emit (EvOutReset pin (b2z (nz (conv (gt_out_val gpio_h) val)))).

Definition gpio_in_setup (pin pull_up : Z) : MC Z :=
  let pin := conv (gt_in_pin gpio_h) pin in
  if in_pin_ok pin then
    emit (EvInSetup pin (conv (gt_pull_up gpio_h) pull_up));;;
    mret pin
  else shutdown "Not an input pin".
Definition gpio_in_reset (pin pull_up : Z) : MC unit := emit (EvInReset pin (conv (gt_pull_up gpio_h) pull_up)).
Definition gpio_in_read (pin : Z) : MC Z :=
  let! n := next_read in
  mret (b2z (pin_at pin n)).

Definition gpio_pwm_setup (pin cycle_time val : Z) : MC Z :=
  let pin := conv (gt_pwm_pin gpio_h) pin in
  if pwm_pin_ok pin then
    emit (EvPwmSetup pin (u32 cycle_time) (conv (gt_pwm_setup_val gpio_h) val));;;
    mret pin
  else shutdown "Not a valid PWM pin".
Definition gpio_pwm_write (pin val : Z) : MC unit := emit (EvPwmWrite pin (conv (gt_pwm_val gpio_h) val)).

Definition gpio_adc_setup (pin : Z) : MC Z :=
  let pin := conv (gt_adc_pin gpio_h) pin in
  if adc_pin_ok pin then
    emit (EvAdcSetup pin);;;
    mret pin
  else shutdown "Not a valid ADC pin".
Definition gpio_adc_sample (pin : Z) : MC Z :=
  let! n := next_read in
  mret (u32 (adc_delay_at pin n)).
Definition gpio_adc_read (pin : Z) : MC Z :=
  let! n := next_read in
  mret (u16 (adc_value_at pin n)).
Definition gpio_adc_cancel_sample (pin : Z) : MC unit := emit (EvAdcCancel pin).

(** The hardware SPI of the board: every byte shifted out shifts one in. *)
Definition spi_setup (bus mode rate : Z) : MC spi_bus :=
  let bus := u32 bus in
  if spi_bus_ok bus then mret (SB_hard bus (u8 mode) (u32 rate))
  else shutdown "Invalid spi bus".
Definition spi_prepare (config : spi_bus) : MC unit :=
  match config with SB_hard bus mode rate => emit (EvSpiPrepare bus mode rate) | _ => undef end.
Fixpoint spi_exchange (bus : Z) (data : list Z) : MC (list Z) :=
  match data with
  | [] => mret []
  | b :: data =>
      let! n := next_read in
      let! rest := spi_exchange bus data in
      mret (u8 (spi_reply_at bus n b) :: rest)
  end.
Definition spi_transfer (config : spi_bus) (receive_data : bool) (data : list Z) : MC (list Z) :=
  match config with
  | SB_hard bus _ _ =>
      emit (EvSpiTransfer bus data);;;
      let! reply := spi_exchange bus data in
      mret (if receive_data then reply else data)
  | _ => undef
  end.

(** I2C: the board reports a failed transfer by a shutdown. *)
Definition i2c_setup (bus rate addr : Z) : MC i2c_config :=
  let bus := u32 bus in
  if i2c_bus_ok bus then mret (mk_i2c bus (u32 rate) (u8 addr))
  else shutdown "Unsupported i2c bus".
Definition i2c_result : MC nat :=
  let! n := next_read in
  match i2c_error_at n with Some reason => shutdown reason | None => mret n end.
Definition i2c_write (config : option i2c_config) (data : list Z) : MC unit :=
  let! c := deref config in
  emit (EvI2cWrite c data);;;
  let! _ := i2c_result in
  mret tt.
Definition i2c_read (config : option i2c_config) (reg : list Z) (len : nat) : MC (list Z) :=
  let! c := deref config in
  emit (EvI2cRead c reg len);;;
  let! n := i2c_result in
  mret ((λ i, u8 (i2c_reply_at c n i)) <$> seq 0 len).

(** SDIO: operations with an error code. *)
Definition sdio_setup (bus : Z) : MC Z :=
  let bus := u32 bus in
  if sdio_bus_ok bus then mret bus else shutdown "Invalid sdio bus".
Definition sdio_set_speed (config : option Z) (speed : Z) : MC unit :=
  let! bus := deref config in
  emit (EvSdioSpeed bus speed).
Definition sdio_send_command (config : option Z) (cmd argument wait : Z) : MC (Z * list Z) :=
  let! bus := deref config in
  emit (EvSdioCommand bus cmd argument wait);;;
  let! n := next_read in
  mret (u8 (sdio_error_at n), take 16 (u8 <$> sdio_reply_at n)).
Definition sdio_prepare_data_transfer (config : option Z) (read numblocks blocksize timeout : Z)
    : MC Z :=
  let! bus := deref config in
  emit (EvSdioPrepare bus read numblocks blocksize timeout);;;
  let! n := next_read in
  mret (u8 (sdio_error_at n)).
(** The error code and the bytes that were read, at most [len] of them. *)
Definition sdio_read_data (config : option Z) (len : nat) : MC (Z * list Z) :=
  let! bus := deref config in
  let! n := next_read in
  mret (u8 (sdio_error_at n), take len (u8 <$> sdio_reply_at n)).
Definition sdio_write_data (config : option Z) (data : list Z) : MC Z :=
  let! bus := deref config in
  emit (EvSdioWrite bus data);;;
  let! n := next_read in
  mret (u8 (sdio_error_at n)).

(** The types [uint_fast8_t] and [uint_fast16_t]: exact on AVR, 32 bits elsewhere. *)
Definition uint_fast8 (x : Z) : Z := if CONFIG_MACH_AVR then u8 x else u32 x.
Definition uint_fast16 (x : Z) : Z := if CONFIG_MACH_AVR then u16 x else u32 x.

(** ** command.c: buffer parameters

    [len] bytes at the address [command_decode_ptr p]. *)

Definition read_ptr (p : Z) (len : nat) : MC (list Z) :=
  let! s := get in
  if (0 <=? p) && (p + Z.of_nat len <=? Z.of_nat (length (rx_block s)))
  then mret (take len (drop (Z.to_nat p) (rx_block s)))
  else undef.
Definition write_ptr (p : Z) (data : list Z) : MC unit :=
  modify (λ s, s <| rx_block := take (Z.to_nat p) (rx_block s) ++ data ++
                                drop (Z.to_nat p + length data) (rx_block s) |>).

(** A fixed size array [l] accessed from index [p]: undefined past its end. *)
Definition read_array (l : list Z) (p : Z) (len : nat) : MC (list Z) :=
  if (len =? 0)%nat then mret []
  else if (0 <=? p) && (p + Z.of_nat len <=? Z.of_nat (length l))
       then mret (take len (drop (Z.to_nat p) l)) else undef.
Definition write_array (l : list Z) (p : Z) (data : list Z) : MC (list Z) :=
  if (length data =? 0)%nat then mret l
  else if (0 <=? p) && (p + Z.of_nat (length data) <=? Z.of_nat (length l))
       then mret (take (Z.to_nat p) l ++ data ++ drop (Z.to_nat p + length data) l) else undef.

(** ** command.c: response messages

    A call made while an outer [command_sendf] is active is dropped. *)

Definition command_sendf (fmt : string) (args : list msg_arg) : MC unit :=
  let! s := get in
  if nz (in_sendf (cmd s)) then mret tt
  else
    modify (upd cmd (λ c, c <| in_sendf := 1 |>));;;
    emit (EvSend fmt args);;;
    modify (upd cmd (λ c, c <| in_sendf := 0 |>)).

Definition sendf_shutdown : MC unit := modify (upd cmd (λ c, c <| in_sendf := 0 |>)).

Section wp_rules.
Implicit Types (s : mcu) (E : string → mcu → Prop).
Lemma wp_timer_read_time s (Q : Z → mcu → Prop) E :
  Q (u32 (clock_at (hw_reads s))) (s <| hw_reads := S (hw_reads s) |>) →
  wp timer_read_time s Q E.
Proof. done. Qed.
Lemma wp_gpio_in_read pin s (Q : Z → mcu → Prop) E :
  Q (b2z (pin_at pin (hw_reads s))) (s <| hw_reads := S (hw_reads s) |>) →
  wp (gpio_in_read pin) s Q E.
Proof. done. Qed.
Lemma wp_command_sendf fmt args s (Q : unit → mcu → Prop) E :
  Q tt (if nz (in_sendf (cmd s)) then s
        else s <| cmd; in_sendf := 0 |> <| trace := EvSend fmt args :: trace s |>) →
  wp (command_sendf fmt args) s Q E.
Proof.
  unfold wp, command_sendf, mbind, M_bind, get. destruct (nz (in_sendf (cmd s))); intros H; exact H.
Qed.
End wp_rules.

(** ** Wrap-around comparison of clock values

    [timer_is_before] agrees with the order of the unwrapped clocks as long as they are
    less than half a period apart. *)

Lemma timer_is_before_spec x y :
  -2147483648 ≤ x - y < 2147483648 → timer_is_before (u32 x) (u32 y) = (x <? y).
Proof. intros H. unfold timer_is_before. zmod. Qed.

Lemma timer_is_before_true x y :
  -2147483648 ≤ x - y < 0 → timer_is_before (u32 x) (u32 y) = true.
Proof. intros H. rewrite timer_is_before_spec by lia. by apply Z.ltb_lt; lia. Qed.

Lemma timer_is_before_false x y :
  0 ≤ x - y < 2147483648 → timer_is_before (u32 x) (u32 y) = false.
Proof. intros H. rewrite timer_is_before_spec by lia. by apply Z.ltb_ge; lia. Qed.

Lemma timer_is_before_irrefl x : timer_is_before x x = false.
Proof. unfold timer_is_before. by rewrite Z.sub_diag. Qed.
End runtime.

Ltac wstep_runtime :=
  lazymatch goal with
  | |- wp timer_read_time _ _ _ => apply wp_timer_read_time
  | |- wp (gpio_in_read _) _ _ _ => apply wp_gpio_in_read
  | |- wp (command_sendf _ _) _ _ _ => apply wp_command_sendf
  | |- wp (gpio_out_write _ _) _ _ _ => apply wp_modify
  | |- wp (gpio_out_toggle_noirq _) _ _ _ => apply wp_modify
  | |- wp (gpio_out_toggle _) _ _ _ => apply wp_modify
  | |- wp (gpio_out_reset _ _) _ _ _ => apply wp_modify
  | |- wp (gpio_in_reset _ _) _ _ _ => apply wp_modify
  | |- wp (write_ptr _ _) _ _ _ => apply wp_modify
  | |- wp timer_kick _ _ _ => apply wp_modify
  end.
Ltac wstep_hook ::= wstep_runtime.
