(* ===== verification/Bench.v ===== *)
(** * A concrete board

    An STM32 board with a 180 MHz clock, for evaluating the definitions: the clock
    advances by 1000 ticks with every hardware read and input pins read high on every
    read from the tenth on, pin 3 always. *)

From S2P Require Import Prelude State Runtime.

Definition bench : Board := {|
  CONFIG_CLOCK_FREQ := 180000000;
  CONFIG_INLINE_STEPPER_HACK := true;
  CONFIG_HAVE_STEPPER_BOTH_EDGE := true;
  CONFIG_MACH_AVR := false;
  CONFIG_MACH_PRU := false;
  gpio_h := mk_gpio_types C_uint32 C_uint32 C_uint32 C_int32 C_uint8 C_uint8 C_uint32 C_uint32;
  CONFIG_HAVE_GPIO_BITBANGING := true;
  CONFIG_HAVE_STRICT_TIMING := false;
  CONFIG_INITIAL_PINS := "PA1,!PA2";
  initial_pins := [(1, 1); (2, 0)];
  alignof_ptr := 4;
  sizeof_oid_s := 8;
  sizeof_move_node := 4;
  sizeof_stepper_move := 16;
  sizeof_digital_move := 12;
  sizeof_pwm_move := 12;
  sizeof_gpio_in := 8;
  sizeof_spi_software := 28;
  sizeof_object t := match t with
    | command_config_stepper_t => 76 | command_config_endstop_t => 40
    | command_config_trsync_t => 36 | command_config_digital_out_t => 56
    | command_config_pwm_out_t => 36 | command_config_analog_in_t => 40
    | command_config_buttons_t => 36 | command_config_counter_t => 44
    | command_config_spi_t => 20 | command_config_spi_shutdown_t => 5
    | command_config_thermocouple_t => 32 | command_config_tmcuart_t => 52
    | command_config_neopixel_t => 24
    | command_config_i2c_t => 8 | command_config_adxl345_t => 76
    | command_config_mpu9250_t => 80 | command_config_spi_angle_t => 76
    | command_config_hd44780_t => 36 | command_config_st7920_t => 20
    | command_config_sdio_t => 4108 end;
  dynmem_pool := 0x20000000;
  command_identify_data := [120; 156; 1; 2; 3; 4; 5];
  clock_at n := 1000 * Z.of_nat n;
  pin_at p n := (p =? 3) || (10 <=? n)%nat;
  adc_delay_at _ _ := 0;
  adc_value_at _ _ := 500;
  spi_reply_at _ _ b := 255 - b;
  out_pin_ok pin := pin <? 128;
  in_pin_ok pin := pin <? 128;
  pwm_pin_ok pin := pin <? 128;
  adc_pin_ok pin := pin <? 128;
  spi_bus_ok bus := bus <? 3;
  i2c_bus_ok bus := bus <? 3;
  i2c_error_at _ := None;
  i2c_reply_at _ n i := if (i =? 0)%nat then 0 else 18;
  mem_at p _ := p;
  sdio_bus_ok bus := bus =? 0;
  sdio_error_at _ := 0;
  sdio_reply_at _ := [1; 2; 3; 4];
|}.
