(* ===== verification/Sched.v ===== *)
(** * sched.c: timers, task wake-ups and the shutdown state

    The timer list is the linked list of the source: [timers] maps each
    [struct timer] to its fields, [timer_list] and [last_insert] are the pointers of
    SchedStatus.  [run_tasks] and [sched_main] are in Firmware.v, next to the task
    functions they call. *)

From S2P Require Import Prelude State Runtime.

Section sched.
Context {B : Board}.

(** ** Tasks *)

Definition TS_IDLE : Z := -1.
Definition TS_REQUESTED : Z := 0.
Definition TS_RUNNING : Z := 1.

Definition sched_wake_tasks : MC unit :=
  modify (λ s, s <| sched; tasks_status := TS_REQUESTED |>).
Definition sched_tasks_busy : MC bool :=
  gets (λ s, TS_REQUESTED <=? tasks_status (sched s)).
Definition set_wake (w : wake_id) (v : Z) : MC unit :=
  modify (λ s, s <| wakes := λ w', if decide (w' = w) then v else wakes s w' |>).
Definition sched_wake_task (w : wake_id) : MC unit :=
  sched_wake_tasks;;;
  set_wake w 1.
Definition sched_check_wake (w : wake_id) : MC bool :=
  let! s := get in
  if negb (nz (wakes s w)) then mret false
  else
    set_wake w 0;;;
    mret true.

(** ** Shutdown state *)

Definition sched_is_shutdown : MC bool := gets (λ s, nz (shutdown_status (sched s))).
Definition sched_shutdown {A} (reason : string) : MC A :=
  irq_disable;;;
  shutdown reason.
Definition sched_try_shutdown (reason : string) : MC unit :=
  let! s := get in
  when negb (nz (shutdown_status (sched s))) do sched_shutdown reason.
Definition sched_clear_shutdown : MC unit :=
  let! s := get in
  (when negb (nz (shutdown_status (sched s))) do
     shutdown "Shutdown cleared when not shutdown");;;
  let! s := get in
  if shutdown_status (sched s) =? 2 then mret tt
  else modify (λ s, s <| sched; shutdown_status := 0 |>).
Definition sched_report_shutdown : MC unit :=
  let! s := get in
  command_sendf "is_shutdown static_string_id=%hu"
    [A_static (shutdown_reason (sched s))].

(** ** Timers *)

Definition periodic_event : MC Z :=
  sched_wake_tasks;;;
  let! p := get_timer T_periodic in
  upd_timer T_periodic (λ t, t <| t_waketime := u32 (t_waketime p + timer_from_us 100000) |>);;;
  let! p := get_timer T_periodic in
  upd_timer T_sentinel (λ t, t <| t_waketime := u32 (t_waketime p + 0x80000000) |>);;;
  mret SF_RESCHEDULE.

Definition sentinel_event : MC Z := shutdown "sentinel timer called".
Definition deleted_event : MC Z := mret SF_DONE.

(** The [for (;;)] of [insert_timer]; the result is the final [(prev, pos)]. *)
Fixpoint insert_timer_loop (fuel : nat) (pos : tid) (waketime : Z) : MC (tid * tid) :=
  match fuel with
  | O => diverge
  | S fuel =>
      let prev := pos in
      let! p := get_timer pos in
      let! pos := deref (t_next p) in
      let! q := get_timer pos in
      if timer_is_before waketime (t_waketime q) then mret (prev, pos)
      else insert_timer_loop fuel pos waketime
  end.
Definition insert_timer (pos t : tid) (waketime : Z) : MC unit :=
  let! s := get in
  let! '(prev, pos) := insert_timer_loop (size (timers (sched s))) pos waketime in
  upd_timer t (λ x, x <| t_next := Some pos |>);;;
  upd_timer prev (λ x, x <| t_next := Some t |>).

Definition set_timer_list (t : tid) : MC unit := modify (λ s, s <| sched; timer_list := t |>).
Definition set_last_insert (t : tid) : MC unit := modify (λ s, s <| sched; last_insert := t |>).

Definition sched_add_timer (add : tid) : MC unit :=
  let! a := get_timer add in
  let waketime := t_waketime a in
  let! flag := irq_save in
  let! s := get in
  let tl := timer_list (sched s) in
  let! tlt := get_timer tl in
  (if timer_is_before waketime (t_waketime tlt) then
     let! now := timer_read_time in
     (when timer_is_before waketime now do sched_try_shutdown "Timer too close");;;
     (if decide (tl = T_deleted) then
        let! d := get_timer T_deleted in
        upd_timer add (λ x, x <| t_next := t_next d |>)
      else upd_timer add (λ x, x <| t_next := Some tl |>));;;
     upd_timer T_deleted (λ x, x <| t_waketime := waketime |>);;;
     upd_timer T_deleted (λ x, x <| t_next := Some add |>);;;
     set_timer_list T_deleted;;;
     timer_kick
   else insert_timer tl add waketime);;;
  irq_restore flag.

(** The search loop of [sched_del_timer]. *)
Fixpoint del_timer_loop (fuel : nat) (pos del : tid) : MC unit :=
  match fuel with
  | O => diverge
  | S fuel =>
      let! p := get_timer pos in
      match t_next p with
      | None => mret tt
      | Some n =>
          if decide (n = del) then
            let! d := get_timer del in
            upd_timer pos (λ x, x <| t_next := t_next d |>)
          else del_timer_loop fuel n del
      end
  end.
Definition sched_del_timer (del : tid) : MC unit :=
  let! flag := irq_save in
  let! s := get in
  (if decide (timer_list (sched s) = del) then
     let! d := get_timer del in
     upd_timer T_deleted (λ x, x <| t_waketime := t_waketime d |>);;;
     upd_timer T_deleted (λ x, x <| t_next := t_next d |>);;;
     set_timer_list T_deleted
   else del_timer_loop (size (timers (sched s))) (timer_list (sched s)) del);;;
  let! s := get in
  (when bool_decide (last_insert (sched s) = del) do set_last_insert T_periodic);;;
  irq_restore flag.

(** [call f t] runs the function a [func] pointer designates on [t]; [stepper_event] is
    the function sched.c inlines under CONFIG_INLINE_STEPPER_HACK. *)
Definition sched_timer_dispatch (call : tfunc → tid → MC Z) (stepper_event : tid → MC Z) : MC Z :=
  let! s := get in
  let t := timer_list (sched s) in
  let! tt0 := get_timer t in
  let! res := (if CONFIG_INLINE_STEPPER_HACK && bool_decide (t_func tt0 = F_null)
               then stepper_event t else call (t_func tt0) t) in
  let! t' := get_timer t in
  let updated_waketime := t_waketime t' in
  if res =? SF_DONE then
    let! n := deref (t_next t') in
    let! nt := get_timer n in
    set_timer_list n;;;
    let! s := get in
    (when bool_decide (last_insert (sched s) = t) do set_last_insert n);;;
    mret (t_waketime nt)
  else
    let! n := deref (t_next t') in
    let! nt := get_timer n in
    if negb (timer_is_before updated_waketime (t_waketime nt)) then
      set_timer_list n;;;
      let! s := get in
      let pos := last_insert (sched s) in
      let! pt := get_timer pos in
      let pos := if timer_is_before updated_waketime (t_waketime pt)
                 then timer_list (sched s) else pos in
      insert_timer pos t updated_waketime;;;
      set_last_insert t;;;
      mret (t_waketime nt)
    else mret updated_waketime.

Definition sched_timer_reset : MC unit :=
  set_timer_list T_deleted;;;
  let! p := get_timer T_periodic in
  upd_timer T_deleted (λ x, x <| t_waketime := t_waketime p |>);;;
  set_last_insert T_periodic;;;
  upd_timer T_deleted (λ x, x <| t_next := Some T_periodic |>);;;
  upd_timer T_periodic (λ x, x <| t_next := Some T_sentinel |>);;;
  timer_kick.

(** [shutdownfuncs] is the generated call list of DECL_SHUTDOWN functions. *)
Definition run_shutdown (shutdownfuncs : MC unit) (reason : string) : MC unit :=
  irq_disable;;;
  let! cur := timer_read_time in
  let! s := get in
  (when negb (nz (shutdown_status (sched s))) do
     modify (λ s, s <| sched; shutdown_reason := reason |>));;;
  modify (λ s, s <| sched; shutdown_status := 2 |>);;;
  sched_timer_reset;;;
  shutdownfuncs;;;
  modify (λ s, s <| sched; shutdown_status := 1 |>);;;
  irq_enable;;;
  let! s := get in
  command_sendf "shutdown clock=%u static_string_id=%hu"
    [A_int cur; A_static (shutdown_reason (sched s))].
End sched.

Ltac wstep_sched :=
  lazymatch goal with
  | |- wp sched_is_shutdown _ _ _ => apply wp_gets
  | |- wp sched_tasks_busy _ _ _ => apply wp_gets
  | |- wp sched_wake_tasks _ _ _ => apply wp_modify
  | |- wp (set_wake _ _) _ _ _ => apply wp_modify
  | |- wp (set_timer_list _) _ _ _ => apply wp_modify
  | |- wp (set_last_insert _) _ _ _ => apply wp_modify
  | |- wp (sched_wake_task _) _ _ _ => unfold sched_wake_task
  end.
Ltac wstep_hook ::= first [wstep_runtime | wstep_sched].

(** * generic/timer_irq.c: running software timers from the timer interrupt *)

Section timer_irq.
Context {B : Board}.
(** The functions that timers can hold, as in [sched_timer_dispatch]. *)
Variable call : tfunc → tid → MC Z.
Variable stepper_event : tid → MC Z.

Definition TIMER_IDLE_REPEAT_TICKS : Z := timer_from_us 500.
Definition TIMER_REPEAT_TICKS : Z := timer_from_us 100.
Definition TIMER_MIN_TRY_TICKS : Z := timer_from_us 2.
Definition TIMER_DEFER_REPEAT_TICKS : Z := timer_from_us 5.

Definition set_repeat_until (v : Z) : MC unit := modify (λ s, s <| timer_repeat_until := v |>).

(** [while (diff > 0) diff = next - timer_read_time();] *)
Fixpoint wait_until (fuel : nat) (next diff : Z) : MC unit :=
  if 0 <? diff then
    match fuel with
    | O => diverge
    | S fuel =>
        let! now := timer_read_time in
        wait_until fuel next (i32 (u32 (next - now)))
    end
  else mret tt.

Fixpoint dispatch_many_loop (fuel wait_fuel : nat) (tru : Z) : MC Z :=
  match fuel with
  | O => diverge
  | S fuel =>
      let! next := sched_timer_dispatch call stepper_event in
      let! now := timer_read_time in
      let diff := i32 (u32 (next - now)) in
      if i32 TIMER_MIN_TRY_TICKS <? diff then mret next
      else
        let again (tru : Z) : MC Z :=
          irq_enable;;;
          wait_until wait_fuel next diff;;;
          irq_disable;;;
          dispatch_many_loop fuel wait_fuel tru in
        if timer_is_before tru now then
          (when diff <? i32 (u32 (- timer_from_us 1000)) do
             sched_try_shutdown "Rescheduled timer in the past");;;
          let! busy := sched_tasks_busy in
          if (busy : bool) then
            set_repeat_until (u32 (now + TIMER_REPEAT_TICKS));;;
            mret (u32 (now + TIMER_DEFER_REPEAT_TICKS))
          else
            let tru := u32 (now + TIMER_IDLE_REPEAT_TICKS) in
            set_repeat_until tru;;;
            again tru
        else again tru
  end.

Definition timer_dispatch_many (fuel wait_fuel : nat) : MC Z :=
  let! tru := gets timer_repeat_until in
  dispatch_many_loop fuel wait_fuel tru.

Definition timer_task : MC unit :=
  let! now := timer_read_time in
  irq_disable;;;
  let! s := get in
  (when timer_is_before (timer_repeat_until s) now do set_repeat_until now);;;
  irq_enable.
End timer_irq.
