(* ===== verification/TimerQueue.v ===== *)
(** * Abstract timer queue and linked-list shape

    The specification of the scheduler's timer list: a list of pending timers with
    their unwrapped wake times, kept sorted, with insertion after equal times; and
    the predicate [chain] that says a linked list in memory has a given sequence of
    nodes. *)

From S2P Require Import Prelude State.

Abbreviation entry := (tid * Z)%type.

(** ** Sorted insertion *)

Fixpoint ins (t : tid) (w : Z) (q : list entry) : list entry :=
  match q with
  | [] => [(t, w)]
  | (u, x) :: q' => if w <? x then (t, w) :: q else (u, x) :: ins t w q'
  end.

(** The timers that users of the scheduler put on the list: the placeholder
    [deleted_timer] is left out. *)
Definition is_live (e : entry) : bool := negb (bool_decide (e.1 = T_deleted)).
Definition live (q : list entry) : list entry := List.filter is_live q.

Definition sorted (q : list entry) : Prop := StronglySorted (λ a b : entry, a.2 ≤ b.2) q.

Lemma sorted_cons e q : sorted (e :: q) ↔ sorted q ∧ Forall (λ b : entry, e.2 ≤ b.2) q.
Proof. split; [apply StronglySorted_inv | intros []; by constructor]. Qed.

Lemma sorted_app q1 q2 :
  sorted (q1 ++ q2) ↔ sorted q1 ∧ sorted q2 ∧ ∀ a b, a ∈ q1 → b ∈ q2 → a.2 ≤ b.2.
Proof.
  induction q1 as [|e q1 IH]; cbn.
  { split; [intros H; split; [constructor | split; [done | set_solver]] | by intros (_ & ? & _)]. }
  rewrite !sorted_cons, IH, Forall_app, !Forall_forall. split.
  - intros [(? & ? & Hlt) (? & He)]. split; [by split|]. split; [done|].
    intros a b [->|Ha]%elem_of_cons Hb; [by apply He | by apply Hlt].
  - intros [[? ?] (? & Hlt)]. split; (split; [done|]).
    + split; [done|]. intros a b Ha Hb. apply Hlt; [by right|done].
    + intros b Hb. apply Hlt; [by left|done].
Qed.

Lemma ins_split t w q : sorted q →
  ∃ q1 q2, q = q1 ++ q2 ∧ ins t w q = q1 ++ (t, w) :: q2 ∧
    Forall (λ e : entry, e.2 ≤ w) q1 ∧ Forall (λ e : entry, w < e.2) q2.
Proof.
  induction q as [|[u x] q IH]; intros Hs.
  { by exists [], []. }
  apply sorted_cons in Hs as [Hs Hx]. cbn in *. destruct (Z.ltb_spec w x).
  - exists [], ((u, x) :: q). repeat split; [done|]. constructor; [done|].
    eapply Forall_impl; [done|]. cbn. lia.
  - destruct (IH Hs) as (q1 & q2 & -> & -> & H1 & H2).
    exists ((u, x) :: q1), q2. repeat split; [|done]. by constructor.
Qed.

Lemma ins_unique t w q1 q2 :
  Forall (λ e : entry, e.2 ≤ w) q1 → Forall (λ e : entry, w < e.2) q2 →
  ins t w (q1 ++ q2) = q1 ++ (t, w) :: q2.
Proof.
  induction q1 as [|[u x] q1 IH]; cbn; intros H1 H2.
  - destruct q2 as [|[u x] q2]; [done|]. cbn. apply Forall_cons in H2 as [H2 _]. cbn in H2.
    by destruct (Z.ltb_spec w x); [|lia].
  - apply Forall_cons in H1 as [Hx H1]. cbn in Hx. destruct (Z.ltb_spec w x); [lia|].
    by rewrite IH.
Qed.

Lemma sorted_ins t w q : sorted q → sorted (ins t w q).
Proof.
  intros Hs. destruct (ins_split t w q Hs) as (q1 & q2 & -> & -> & H1 & H2).
  rewrite Forall_forall in H1, H2. apply sorted_app in Hs as (Hs1 & Hs2 & H12).
  apply sorted_app. split; [done|]. split.
  - apply sorted_cons. split; [done|]. apply Forall_forall. intros e He.
    specialize (H2 e He). cbn. lia.
  - intros a b Ha Hb. apply elem_of_cons in Hb as [->|Hb]; [by apply H1 | by apply H12].
Qed.

Lemma elem_of_ins e t w q : e ∈ ins t w q ↔ e = (t, w) ∨ e ∈ q.
Proof.
  induction q as [|[u x] q IH]; cbn; [set_solver|].
  destruct (w <? x); set_solver.
Qed.

Lemma ins_perm t w q : ins t w q ≡ₚ (t, w) :: q.
Proof.
  induction q as [|[u x] q IH]; cbn; [done|].
  destruct (w <? x); [done|]. rewrite IH. apply Permutation_swap.
Qed.

Lemma live_app q1 q2 : live (q1 ++ q2) = live q1 ++ live q2.
Proof. apply List.filter_app. Qed.

Lemma Forall_live (P : entry → Prop) q : Forall P q → Forall P (live q).
Proof.
  intros H. induction H as [|e q He Hq IH]; cbn; [constructor|].
  destruct (is_live e); [by constructor|done].
Qed.

Lemma live_ins t w q : t ≠ T_deleted → sorted q → live (ins t w q) = ins t w (live q).
Proof.
  intros Ht Hs. destruct (ins_split t w q Hs) as (q1 & q2 & -> & -> & H1 & H2).
  rewrite !live_app, (ins_unique t w) by (by apply Forall_live).
  f_equal. cbn. unfold is_live at 1. cbn. by rewrite bool_decide_eq_false_2.
Qed.

Lemma live_id q : T_deleted ∉ q.*1 → live q = q.
Proof.
  induction q as [|[u x] q IH]; cbn; [done|]. intros H. apply not_elem_of_cons in H as [Hu H].
  fold (live q). rewrite IH by done. unfold is_live. cbn. by rewrite bool_decide_eq_false_2.
Qed.

Lemma live_deleted w q : live ((T_deleted, w) :: q) = live q.
Proof. done. Qed.

(** ** Linked lists *)

(** [chain ts l]: the nodes of [l] are linked in this order and the last one's [next]
    is NULL. *)
Fixpoint chain (ts : gmap tid timer) (l : list tid) : Prop :=
  match l with
  | [] => False
  | t :: l' =>
      match l' with
      | [] => ∃ x, ts !! t = Some x ∧ t_next x = None
      | u :: _ => (∃ x, ts !! t = Some x ∧ t_next x = Some u) ∧ chain ts l'
      end
  end.

Lemma chain_cons2 ts t u l :
  chain ts (t :: u :: l) ↔ (∃ x, ts !! t = Some x ∧ t_next x = Some u) ∧ chain ts (u :: l).
Proof. done. Qed.

Lemma chain_lookup ts l t : chain ts l → t ∈ l → is_Some (ts !! t).
Proof.
  induction l as [|u l IH]; [done|]. destruct l as [|v l].
  - intros (x & Hx & _) ->%list_elem_of_singleton. eauto.
  - intros [(x & Hx & _) Hc] [->|Ht]%elem_of_cons; [eauto|]. by apply IH.
Qed.

Lemma chain_app_inv ts l1 t l2 : chain ts (l1 ++ t :: l2) → chain ts (t :: l2).
Proof.
  induction l1 as [|u l1 IH]; [done|]. cbn [app]. intros H. apply IH.
  destruct (l1 ++ t :: l2) eqn:He; [by destruct l1|]. by destruct H.
Qed.

(** The [next] of a node of a chain is the head of what follows. *)
Lemma chain_next ts l1 t l2 x :
  chain ts (l1 ++ t :: l2) → ts !! t = Some x → t_next x = head l2.
Proof.
  intros Hc%chain_app_inv Hx. destruct l2 as [|u l2].
  - destruct Hc as (y & Hy & Hn). cbn. congruence.
  - destruct Hc as [(y & Hy & Hn) _]. cbn. congruence.
Qed.

(** Chains only depend on the [next] fields of their nodes. *)
Lemma chain_ext ts ts' l :
  (∀ t x, t ∈ l → ts !! t = Some x → ∃ x', ts' !! t = Some x' ∧ t_next x' = t_next x) →
  chain ts l → chain ts' l.
Proof.
  induction l as [|u l IH]; [done|]. intros Hext.
  assert (chain ts l → chain ts' l) as IH'.
  { apply IH. intros t x Ht. apply Hext. by apply elem_of_cons; right. }
  destruct l as [|v l].
  - intros (x & Hx & Hn). destruct (Hext u x) as (x' & ? & ?); [by left|done|].
    exists x'. split; [done|]. congruence.
  - intros [(x & Hx & Hn) Hc]. split; [|by apply IH'].
    destruct (Hext u x) as (x' & ? & ?); [by left|done|]. exists x'. split; [done|]. congruence.
Qed.

Lemma chain_frame ts t x l : t ∉ l → chain ts l → chain (<[t := x]> ts) l.
Proof.
  intros Ht. apply chain_ext. intros u y Hu Hy. exists y. split; [|done].
  rewrite lookup_insert_ne by (intros ->; done). done.
Qed.

(** Writing a field other than [next]. *)
Lemma chain_same_next ts t x x' l :
  ts !! t = Some x → t_next x' = t_next x → chain ts l → chain (<[t := x']> ts) l.
Proof.
  intros Hx Hn. apply chain_ext. intros u y Hu Hy.
  destruct (decide (t = u)) as [<-|Hne].
  - exists x'. rewrite lookup_insert_eq. split; [done|]. congruence.
  - exists y. by rewrite lookup_insert_ne.
Qed.

(** Redirecting the [next] of the node before a suffix replaces that suffix. *)
Lemma chain_redirect ts l1 p l2 u l3 x :
  NoDup (l1 ++ [p]) → p ∉ u :: l3 →
  chain ts (l1 ++ p :: l2) → ts !! p = Some x → chain ts (u :: l3) →
  chain (<[p := x <| t_next := Some u |>]> ts) (l1 ++ p :: u :: l3).
Proof.
  intros Hnd Hp Hc Hx Hu. induction l1 as [|v l1 IH]; cbn [app].
  - apply chain_cons2. split; [|by apply chain_frame].
    eexists. rewrite lookup_insert_eq. by split.
  - cbn [app] in *. apply NoDup_cons in Hnd as [Hv Hnd].
    assert (v ≠ p) as Hvp by (intros ->; apply Hv; set_solver).
    destruct l1 as [|v' l1]; cbn [app] in *; destruct Hc as [(y & Hy & Hn) Hc].
    + split; [|by apply IH]. exists y. by rewrite lookup_insert_ne.
    + split; [|by apply IH]. exists y. by rewrite lookup_insert_ne.
Qed.
