(* ===== verification/SchedSpec.v ===== *)
(** * The scheduler implements a sorted timer queue

    [rep s q P] relates the linked timer list of a state to the abstract queue [q]
    (with [periodic_timer] due at [P]); every operation of sched.c on timers is shown
    to implement the corresponding operation on queues, and its loops to terminate. *)

From S2P Require Import Prelude State Runtime Sched TimerQueue.

#[local] Ltac wstep_hook ::= wstep_runtime.

(** Half the period of the 32-bit clock. *)
Definition HALF : Z := 2147483648.

(** ** Representation *)

(** The list in memory is [q] followed by the sentinel. *)
Record links (c : sched_state) (q : list entry) (P : Z) : Prop := {
  l_chain : chain (timers c) (q.*1 ++ [T_sentinel]);
  l_head : head (q.*1) = Some (timer_list c);
  l_nodup : NoDup (q.*1 ++ [T_sentinel]);
  l_wake t w : (t, w) ∈ q → ∃ x, timers c !! t = Some x ∧ t_waketime x = u32 w;
  l_sentinel : ∃ x, timers c !! T_sentinel = Some x ∧ t_waketime x = u32 (P + HALF);
  l_last : last_insert c ∈ q.*1;
  l_deleted : T_deleted ∉ (tail q).*1;
  l_alloc : is_Some (timers c !! T_deleted);
}.

(** Sorted, all wake times within half a period of each other and of the sentinel. *)
Record ordered (q : list entry) (P : Z) : Prop := {
  o_sorted : sorted q;
  o_window a b : a ∈ q → b ∈ q → a.2 - b.2 < HALF;
  o_limit a : a ∈ q → a.2 < P + HALF;
  o_periodic : (T_periodic, P) ∈ q;
}.

Definition rep (s : mcu) (q : list entry) (P : Z) : Prop := links (sched s) q P ∧ ordered q P.

(** A wake time that can join [q]. *)
Definition fits (w : Z) (q : list entry) (P : Z) : Prop :=
  w < P + HALF ∧ ∀ e, e ∈ q → - HALF < w - e.2 < HALF.

(** Same [func] and [waketime] everywhere: only links differ. *)
Definition same_data (ts ts' : gmap tid timer) : Prop :=
  ∀ u, (λ x, (t_func x, t_waketime x)) <$> ts' !! u = (λ x, (t_func x, t_waketime x)) <$> ts !! u.

#[export] Instance same_data_equiv : Equivalence same_data.
Proof.
  split.
  - by intros ts u.
  - intros ts ts' H u. by rewrite H.
  - intros ts1 ts2 ts3 H1 H2 u. by rewrite H2, H1.
Qed.

Lemma same_data_next ts t x n :
  ts !! t = Some x → same_data ts (<[t := x <| t_next := n |>]> ts).
Proof.
  intros Hx u. destruct (decide (t = u)) as [<-|?].
  - by rewrite lookup_insert_eq, Hx.
  - by rewrite lookup_insert_ne.
Qed.

Lemma same_data_lookup ts ts' t x :
  same_data ts ts' → ts !! t = Some x →
  ∃ x', ts' !! t = Some x' ∧ t_waketime x' = t_waketime x ∧ t_func x' = t_func x.
Proof.
  intros H Hx. specialize (H t). rewrite Hx in H. cbn in H.
  destruct (ts' !! t) as [x'|] eqn:Hx'; [|done]. cbn in H. exists x'. by inversion H.
Qed.

(** ** insert_timer *)

Section insert.
Context {B : Board}.

Lemma insert_timer_loop_eq s p la z zs w fuel :
  chain (timers (sched s)) (p :: la ++ z :: zs) →
  (∀ u, u ∈ la → ∃ x, timers (sched s) !! u = Some x ∧ timer_is_before w (t_waketime x) = false) →
  (∃ x, timers (sched s) !! z = Some x ∧ timer_is_before w (t_waketime x) = true) →
  (length la < fuel)%nat →
  insert_timer_loop fuel p w s = Ret (default p (last la), z) s.
Proof.
  revert p fuel. induction la as [|u la IH]; intros p [|fuel] Hc Hla Hz Hf; cbn in Hf; try lia.
  - cbn [app] in Hc. apply chain_cons2 in Hc as [(x & Hx & Hn) Hc].
    destruct Hz as (y & Hy & Hb). cbn [insert_timer_loop].
    rewrite (bind_ret_eq _ _ _ _ _ (get_timer_eq _ _ _ Hx)), Hn.
    rewrite (bind_ret_eq (deref _) _ s z s) by done.
    by rewrite (bind_ret_eq _ _ _ _ _ (get_timer_eq _ _ _ Hy)), Hb.
  - cbn [app] in Hc. apply chain_cons2 in Hc as [(x & Hx & Hn) Hc].
    destruct (Hla u) as (y & Hy & Hb); [by left|]. cbn [insert_timer_loop].
    rewrite (bind_ret_eq _ _ _ _ _ (get_timer_eq _ _ _ Hx)), Hn.
    rewrite (bind_ret_eq (deref _) _ s u s) by done.
    rewrite (bind_ret_eq _ _ _ _ _ (get_timer_eq _ _ _ Hy)), Hb.
    rewrite IH; [|done|intros v Hv; apply Hla; by right|done|lia].
    rewrite last_cons. by destruct (last la).
Qed.

(** Splicing [t] between two adjacent nodes. *)
Lemma chain_splice ts l1 p z zs t xt xp :
  NoDup (l1 ++ p :: z :: zs) → t ∉ l1 ++ p :: z :: zs →
  chain ts (l1 ++ p :: z :: zs) → ts !! t = Some xt → ts !! p = Some xp →
  chain (<[p := xp <| t_next := Some t |>]> (<[t := xt <| t_next := Some z |>]> ts))
    (l1 ++ p :: t :: z :: zs).
Proof.
  intros Hnd Ht Hc Hxt Hxp.
  assert (t ≠ p) by set_solver.
  apply NoDup_app in Hnd as (Hnd1 & Hdisj & Hnd2). apply NoDup_cons in Hnd2 as [Hp Hnd2].
  eapply chain_redirect.
  - apply NoDup_app. split; [done|]. split; [set_solver|]. apply NoDup_singleton.
  - set_solver.
  - apply chain_frame; [set_solver|exact Hc].
  - by rewrite lookup_insert_ne.
  - apply chain_cons2. split.
    + eexists. rewrite lookup_insert_eq. by split.
    + apply chain_frame; [set_solver|]. apply chain_app_inv in Hc. by destruct Hc.
Qed.

(** Where [insert_timer] may start: at a queued timer that is not later, or at [t]
    itself when [t] still points at a first queued timer that is not later. *)
Definition start_ok (p t : tid) (xt : timer) (w : Z) (q : list entry) : Prop :=
  (∃ w0, (p, w0) ∈ q ∧ w0 ≤ w) ∨
  (p = t ∧ t_next xt = head (q.*1) ∧ ∃ e, head q = Some e ∧ e.2 ≤ w).

Lemma before_checks s q1 q2 P w :
  (∀ t x, (t, x) ∈ q1 ++ q2 → ∃ y, timers (sched s) !! t = Some y ∧ t_waketime y = u32 x) →
  (∃ y, timers (sched s) !! T_sentinel = Some y ∧ t_waketime y = u32 (P + HALF)) →
  (q2 = [] → P ≤ w) → fits w (q1 ++ q2) P →
  Forall (λ e : entry, e.2 ≤ w) q1 → Forall (λ e : entry, w < e.2) q2 →
  (∀ u, u ∈ q1.*1 → ∃ x, timers (sched s) !! u = Some x ∧
     timer_is_before (u32 w) (t_waketime x) = false) ∧
  ∃ z zs, q2.*1 ++ [T_sentinel] = z :: zs ∧ ∃ x, timers (sched s) !! z = Some x ∧
     timer_is_before (u32 w) (t_waketime x) = true.
Proof.
  intros Hw (y & Hy & Hyw) HP [Hlim Hfit] H1 H2. rewrite Forall_forall in H1, H2. split.
  - intros u ([u' x] & -> & Hu)%list_elem_of_fmap.
    destruct (Hw u' x) as (y' & Hy' & Hyw'); [set_solver|]. exists y'. split; [done|].
    rewrite Hyw'. apply timer_is_before_false.
    specialize (H1 _ Hu). specialize (Hfit (u', x)). cbn in *. unfold HALF in *.
    feed Hfit; [set_solver|]. lia.
  - destruct q2 as [|[u x] q2].
    + exists T_sentinel, []. split; [done|]. exists y. split; [done|]. rewrite Hyw.
      apply timer_is_before_true. specialize (HP eq_refl). unfold HALF in *. lia.
    + exists u, (q2.*1 ++ [T_sentinel]). split; [done|].
      destruct (Hw u x) as (y' & Hy' & Hyw'); [set_solver|]. exists y'. split; [done|].
      rewrite Hyw'. apply timer_is_before_true.
      specialize (H2 (u, x)). specialize (Hfit (u, x)). cbn in *. unfold HALF in *.
      feed Hfit; [set_solver|]. feed H2; [set_solver|]. lia.
Qed.

Lemma insert_timer_eq s q P t xt w p :
  chain (timers (sched s)) (q.*1 ++ [T_sentinel]) →
  NoDup (q.*1 ++ [T_sentinel]) →
  (∀ t x, (t, x) ∈ q → ∃ y, timers (sched s) !! t = Some y ∧ t_waketime y = u32 x) →
  (∃ y, timers (sched s) !! T_sentinel = Some y ∧ t_waketime y = u32 (P + HALF)) →
  sorted q → (Forall (λ e : entry, e.2 ≤ w) q → P ≤ w) → fits w q P →
  t ∉ q.*1 ++ [T_sentinel] → timers (sched s) !! t = Some xt → start_ok p t xt w q →
  ∃ ts', insert_timer p t (u32 w) s = Ret tt (upd sched (upd timers (λ _, ts')) s) ∧
    same_data (timers (sched s)) ts' ∧ chain ts' ((ins t w q).*1 ++ [T_sentinel]).
Proof.
  intros Hc Hnd Hw Hsent Hsorted HP Hfit Ht Hxt Hstart.
  destruct (ins_split t w q Hsorted) as (q1 & q2 & -> & -> & H1 & H2).
  destruct (before_checks s q1 q2 P w) as (Hb1 & z & zs & Hzs & Hz); [done..| |done|done|done|].
  { intros ->. apply HP. by rewrite app_nil_r. }
  rewrite fmap_app, <- app_assoc, Hzs in Hc, Hnd, Ht.
  (* the loop stops between the last timer of q1 and z *)
  assert (∃ l0 prev, q1.*1 = l0 ++ [prev] ∧
    insert_timer_loop (size (timers (sched s))) p (u32 w) s = Ret (prev, z) s)
    as (l0 & prev & Hl0 & Hloop).
  { destruct Hstart as [(w0 & Hp & Hw0)|(-> & Hn & e & He & Hew)].
    - assert ((p, w0) ∈ q1) as Hp1.
      { apply elem_of_app in Hp as [?|Hp]; [done|]. rewrite Forall_forall in H2.
        specialize (H2 _ Hp). cbn in H2. lia. }
      apply list_elem_of_split in Hp1 as (qa & qb & ->).
      rewrite fmap_app in Hc, Hnd, Hb1 |- *. cbn in *. rewrite <- app_assoc in Hc, Hnd. cbn in *.
      assert (insert_timer_loop (size (timers (sched s))) p (u32 w) s
              = Ret (default p (last qb.*1), z) s) as Hloop.
      { eapply insert_timer_loop_eq; [by eapply chain_app_inv|set_solver|done|].
        assert (length (qa.*1 ++ p :: qb.*1 ++ z :: zs) ≤ size (timers (sched s)))%nat as Hs.
        { apply NoDup_size; [done|]. intros u Hu. by eapply chain_lookup. }
        rewrite length_app in Hs. cbn in Hs. rewrite length_app in Hs. cbn in Hs. lia. }
      destruct (exists_last (l := p :: qb.*1)) as (l0 & prev & Hl0); [done|].
      exists (qa.*1 ++ l0), prev. rewrite Hl0, app_assoc. split; [done|]. rewrite Hloop.
      f_equal. f_equal. apply (f_equal last) in Hl0. rewrite last_snoc in Hl0.
      rewrite last_cons in Hl0. destruct (last qb.*1); cbn; congruence.
    - destruct q1 as [|[u x] q1].
      { exfalso. cbn in He. rewrite Forall_forall in H2. destruct q2 as [|e2 q2]; [done|].
        cbn in He. inversion He; subst. specialize (H2 e). feed H2; [set_solver|]. lia. }
      assert (insert_timer_loop (size (timers (sched s))) t (u32 w) s
              = Ret (default t (last (u :: q1.*1)), z) s) as Hloop.
      { eapply insert_timer_loop_eq; [|exact Hb1|exact Hz|].
        - cbn [app] in *. apply chain_cons2. split; [|exact Hc]. exists xt. by split.
        - assert (length (t :: (u :: q1.*1) ++ z :: zs) ≤ size (timers (sched s)))%nat as Hs.
          { apply NoDup_size; [by apply NoDup_cons|].
            intros v [->|Hv]%elem_of_cons; [done|]. by eapply chain_lookup. }
          cbn in Hs |- *. rewrite length_app in Hs. cbn in Hs. lia. }
      destruct (exists_last (l := u :: q1.*1)) as (l0 & prev & Hl0); [done|].
      exists l0, prev. split; [done|]. rewrite Hloop. f_equal. f_equal.
      by rewrite Hl0, last_snoc. }
  rewrite Hl0 in *. rewrite <- app_assoc in Hc, Hnd, Ht. cbn [app] in Hc, Hnd, Ht.
  assert (∃ xp, timers (sched s) !! prev = Some xp) as [xp Hxp]
    by (eapply chain_lookup; [exact Hc|set_solver]).
  assert (t ≠ prev) as Hne by set_solver.
  eexists. split; [|split].
  - unfold insert_timer. rewrite (bind_ret_eq get _ s s s) by done.
    rewrite (bind_ret_eq _ _ _ _ _ Hloop). cbn beta iota.
    rewrite (bind_ret_eq _ _ _ _ _ (upd_timer_eq _ _ _ _ Hxt)).
    erewrite upd_timer_eq; [reflexivity|]. cbn. by rewrite lookup_insert_ne.
  - cbn. etrans; [exact (same_data_next _ t xt (Some z) Hxt)|]. apply same_data_next. by rewrite lookup_insert_ne.
  - rewrite fmap_app, Hl0. cbn. rewrite <- !app_assoc. cbn. rewrite Hzs.
    by apply chain_splice.
Qed.
End insert.

(** ** Keeping the order *)

Lemma ordered_extend q q' P w :
  ordered q P → fits w q P → sorted q' → (∀ e, e ∈ q' → e ∈ q ∨ e.2 = w) →
  (T_periodic, P) ∈ q' → ordered q' P.
Proof.
  intros Ho [Hlim Hfit] Hs Hsub HP. split; [done| | |done].
  - intros a b Ha%Hsub Hb%Hsub. unfold HALF in *.
    destruct Ha as [Ha|Ha], Hb as [Hb|Hb].
    + by apply (o_window _ _ Ho).
    + specialize (Hfit _ Ha). lia.
    + specialize (Hfit _ Hb). lia.
    + lia.
  - intros a [Ha|Ha]%Hsub; [by apply (o_limit _ _ Ho)|lia].
Qed.

Lemma ordered_late q P w : ordered q P → Forall (λ e : entry, e.2 ≤ w) q → P ≤ w.
Proof. rewrite Forall_forall. intros Ho H. apply (H (T_periodic, P)), Ho. Qed.

Lemma ordered_ins q P t w : ordered q P → fits w q P → ordered (ins t w q) P.
Proof.
  intros Ho Hf. eapply ordered_extend; [done|done|by apply sorted_ins, Ho| |].
  - intros e [->|?]%elem_of_ins; [by right|by left].
  - apply elem_of_ins. right. apply Ho.
Qed.

Lemma head_fst (q : list entry) : head (q.*1) = fst <$> head q.
Proof. by destruct q. Qed.

Lemma head_ins t w q e : head q = Some e → e.2 ≤ w → head (ins t w q) = Some e.
Proof.
  destruct q as [|[u x] q]; [done|]. cbn. intros [= <-] Hle. cbn in Hle.
  by destruct (Z.ltb_spec w x); [lia|].
Qed.

Lemma tail_ins t w q e : head q = Some e → e.2 ≤ w → tail (ins t w q) = ins t w (tail q).
Proof.
  destruct q as [|[u x] q]; [done|]. cbn. intros [= <-] Hle. cbn in Hle.
  by destruct (Z.ltb_spec w x); [lia|].
Qed.

(** The list after [insert_timer], when the new timer does not become the first. *)
Lemma links_ins c q P t w x e ts' :
  links c q P → t ∉ q.*1 ++ [T_sentinel] → t ≠ T_deleted →
  timers c !! t = Some x → t_waketime x = u32 w →
  head q = Some e → e.2 ≤ w →
  same_data (timers c) ts' → chain ts' ((ins t w q).*1 ++ [T_sentinel]) →
  links (c <| timers := ts' |>) (ins t w q) P.
Proof.
  intros Hl Ht Htd Hx Hxw He Hew Hsd Hc.
  assert ((ins t w q).*1 ≡ₚ t :: q.*1) as Hperm by (by rewrite ins_perm).
  split; cbn.
  - done.
  - rewrite head_fst, (head_ins _ _ _ e) by done. rewrite <- (l_head _ _ _ Hl), head_fst.
    by rewrite He.
  - rewrite Hperm. cbn. apply NoDup_cons. split; [done|apply Hl].
  - intros u v [[= -> ->]|Hu]%elem_of_ins.
    + destruct (same_data_lookup _ _ _ _ Hsd Hx) as (x' & ? & ? & _). exists x'. split; congruence.
    + destruct (l_wake _ _ _ Hl _ _ Hu) as (y & Hy & Hyw).
      destruct (same_data_lookup _ _ _ _ Hsd Hy) as (y' & ? & ? & _). exists y'. split; congruence.
  - destruct (l_sentinel _ _ _ Hl) as (y & Hy & Hyw).
    destruct (same_data_lookup _ _ _ _ Hsd Hy) as (y' & ? & ? & _). exists y'. split; congruence.
  - rewrite Hperm. right. apply Hl.
  - rewrite (tail_ins _ _ _ e) by done.
    assert ((ins t w (tail q)).*1 ≡ₚ t :: (tail q).*1) as -> by (by rewrite ins_perm).
    apply not_elem_of_cons. split; [done|apply Hl].
  - destruct (l_alloc _ _ _ Hl) as [y Hy].
    destruct (same_data_lookup _ _ _ _ Hsd Hy) as (y' & ? & _). eauto.
Qed.

Definition first_time (q : list entry) : Z := match q with [] => 0 | e :: _ => e.2 end.

(** ** What the scheduler's operations leave alone *)

(** The events that reach the outside. *)
Definition outputs (l : list event) : list event :=
  List.filter (λ e, match e with EvKick => false | _ => true end) l.

Record frame (s s' : mcu) : Prop := {
  f_base : base s' = base s;
  f_cmd : cmd s' = cmd s;
  f_objects : objects s' = objects s;
  f_moves : moves s' = moves s;
  f_signals : signals s' = signals s;
  f_wakes : wakes s' = wakes s;
  f_outputs : outputs (trace s') = outputs (trace s);
  f_status : shutdown_status (sched s') = shutdown_status (sched s);
  f_reason : shutdown_reason (sched s') = shutdown_reason (sched s);
}.
#[export] Instance frame_preorder : PreOrder frame.
Proof. split; [by intros s|]. intros ? ? ? [] []. split; congruence. Qed.

(** Every timer but the placeholder keeps [func] and [waketime]. *)
Definition same_user_data (s s' : mcu) : Prop := ∀ u, u ≠ T_deleted →
  (λ x, (t_func x, t_waketime x)) <$> timers (sched s') !! u =
  (λ x, (t_func x, t_waketime x)) <$> timers (sched s) !! u.

#[export] Instance same_user_data_preorder : PreOrder same_user_data.
Proof. split; [by intros s u|]. intros s1 s2 s3 H1 H2 u Hu. by rewrite H2, H1. Qed.

(** ** sched_add_timer *)

Section add.
Context {B : Board}.

Lemma wp_try_shutdown r s (Q : unit → mcu → Prop) E :
  (shutdown_status (sched s) = 0 → E r (s <| irq_off := true |>)) → Q tt s →
  wp (sched_try_shutdown r) s Q E.
Proof.
  intros HE HQ. unfold sched_try_shutdown. wstep. wstep. apply wp_when; intros Hb; [|done].
  unfold nz in Hb. bool_to_prop. repeat wstep. by apply HE.
Qed.

(** The queue after [sched_add_timer] put [t] in front. *)
Lemma links_front c q P t w x ts' tl :
  links c q P → t ∉ q.*1 ++ [T_sentinel] → t ≠ T_deleted →
  timers c !! t = Some x → t_waketime x = u32 w →
  tl = (if bool_decide (timer_list c = T_deleted) then tail q else q) →
  (∀ u y, u ≠ T_deleted → u ≠ t → timers c !! u = Some y → ts' !! u = Some y) →
  (∃ y, ts' !! t = Some y ∧ t_waketime y = u32 w ∧ t_next y = head (tl.*1 ++ [T_sentinel])) →
  (∃ y, ts' !! T_deleted = Some y ∧ t_waketime y = u32 w ∧ t_next y = Some t) →
  links (c <| timers := ts' |> <| timer_list := T_deleted |>) ((T_deleted, w) :: (t, w) :: tl) P.
Proof.
  intros Hl Ht Htd Hx Hxw Htl Hkeep (yt & Hyt & Hytw & Hytn) (yd & Hyd & Hydw & Hydn).
  assert (T_deleted ∉ tl.*1) as Hdtl.
  { subst tl. case_bool_decide as Hd; [apply Hl|]. intros Hin.
    pose proof (l_head _ _ _ Hl) as Hh. pose proof (l_deleted _ _ _ Hl) as Hdel.
    destruct q as [|[u v] q]; [done|]. cbn in *.
    apply elem_of_cons in Hin as [Heq|Hin]; [congruence|done]. }
  assert (∀ e, e ∈ tl → e ∈ q) as Hsub.
  { subst tl. case_bool_decide; [|done]. destruct q; [done|]. intros e He. by right. }
  assert (chain (timers c) (tl.*1 ++ [T_sentinel]) ∧ NoDup (tl.*1 ++ [T_sentinel]))
    as [Hc Hnd].
  { pose proof (l_chain _ _ _ Hl) as Hc. pose proof (l_nodup _ _ _ Hl) as Hnd.
    subst tl. case_bool_decide; [|done]. destruct q as [|[u v] q]; [done|].
    cbn in *. apply NoDup_cons in Hnd as [_ Hnd]. split; [|done].
    destruct (q.*1 ++ [T_sentinel]) eqn:E; [by destruct q|]. by destruct Hc. }
  assert (chain ts' (tl.*1 ++ [T_sentinel])) as Hc'.
  { eapply chain_ext; [|exact Hc]. intros u y Hu Hy. exists y. split; [|done].
    apply Hkeep; [|set_solver|done]. intros ->. set_solver. }
  split; cbn.
  - split; [eauto|]. destruct (tl.*1 ++ [T_sentinel]) as [|z zs] eqn:E; [by destruct tl|].
    split; [|done]. exists yt. by split.
  - done.
  - apply NoDup_cons. split; [set_solver|]. apply NoDup_cons. split; [set_solver|done].
  - intros u v [[= -> ->]|[[= -> ->]|Hu]%elem_of_cons]%elem_of_cons; [eauto..|].
    destruct (l_wake _ _ _ Hl u v) as (y & Hy & Hyw); [by apply Hsub|].
    exists y. split; [|done]. apply Hkeep; [|set_solver|done].
    intros ->. apply Hdtl. by apply (list_elem_of_fmap_2' fst tl (T_deleted, v)).
  - destruct (l_sentinel _ _ _ Hl) as (y & Hy & Hyw). exists y. split; [|done].
    apply Hkeep; [done|set_solver|done].
  - pose proof (l_last _ _ _ Hl) as Hli. subst tl. case_bool_decide as Hd; [|by do 2 right].
    pose proof (l_head _ _ _ Hl) as Hh. destruct q as [|[u v] q]; [done|]. cbn in *.
    apply elem_of_cons in Hli as [Heq|Hli]; [|by do 2 right].
    replace (last_insert c) with T_deleted by congruence. by left.
  - apply not_elem_of_cons. by split.
  - eauto.
Qed.

Lemma ordered_front q P t w tl :
  ordered q P → fits w q P → (T_periodic, P) ∈ tl → sorted tl → (∀ e, e ∈ tl → e ∈ q) →
  Forall (λ e : entry, w < e.2) tl →
  ordered ((T_deleted, w) :: (t, w) :: tl) P.
Proof.
  intros Ho Hf HP Hs Hsub Hlt. eapply ordered_extend; [done|done| | |set_solver].
  - assert (Forall (λ e : entry, w ≤ e.2) tl) as Hle by (eapply Forall_impl; [done|]; cbn; lia).
    apply sorted_cons. split; [apply sorted_cons; by split|]. constructor; [cbn; lia|done].
  - intros e [->|[->|He]%elem_of_cons]%elem_of_cons; [by right..|left; by apply Hsub].
Qed.

(** Facts on the first entry of a represented queue. *)
Lemma rep_first s q P : rep s q P →
  ∃ h x q0, q = (timer_list (sched s), h) :: q0 ∧
    timers (sched s) !! timer_list (sched s) = Some x ∧ t_waketime x = u32 h ∧
    Forall (λ e : entry, h ≤ e.2) q0 ∧ sorted q0.
Proof.
  intros [Hl Ho]. pose proof (l_head _ _ _ Hl) as Hh. destruct q as [|[u h] q0]; [done|].
  cbn in Hh. inversion Hh; subst. destruct (l_wake _ _ _ Hl (timer_list (sched s)) h)
    as (x & Hx & Hxw); [by left|].
  pose proof (o_sorted _ _ Ho) as Hs. apply sorted_cons in Hs as [Hs0 Hs]. by exists h, x, q0.
Qed.

Lemma fits_before w q P u h :
  fits w q P → (u, h) ∈ q → timer_is_before (u32 w) (u32 h) = (w <? h).
Proof.
  intros [_ Hf] Hu. specialize (Hf _ Hu). cbn in Hf. unfold HALF in Hf.
  apply timer_is_before_spec. lia.
Qed.

Lemma rep_live_front s q P t w h q0 :
  rep s q P → q = (timer_list (sched s), h) :: q0 → w < h → t ≠ T_deleted →
  let tl := if bool_decide (timer_list (sched s) = T_deleted) then tail q else q in
  Forall (λ e : entry, w < e.2) tl ∧
  live ((T_deleted, w) :: (t, w) :: tl) = ins t w (live q) ∧ (T_periodic, P) ∈ tl.
Proof.
  intros [Hl Ho] Hq Hlt Htd tl.
  assert (Forall (λ e : entry, w < e.2) q) as Hall.
  { pose proof (o_sorted _ _ Ho) as Hs. subst q. apply sorted_cons in Hs as [_ Hs].
    constructor; [done|]. eapply Forall_impl; [done|]. cbn. lia. }
  assert (live tl = live q ∧ Forall (λ e : entry, w < e.2) tl) as [Hlv Htl].
  { subst tl. case_bool_decide as Hd; [|done]. subst q. rewrite Hd. cbn.
    split; [done|]. by apply Forall_cons in Hall as [_ ?]. }
  split; [done|]. split.
  - rewrite live_deleted. cbn. unfold is_live at 1. cbn.
    rewrite bool_decide_eq_false_2 by done. cbn. fold (live tl). rewrite Hlv.
    symmetry. by apply (ins_unique t w [] (live q)); [|apply Forall_live].
  - pose proof (o_periodic _ _ Ho) as HP. subst tl. case_bool_decide as Hd; [|done].
    subst q. apply elem_of_cons in HP as [HP|HP]; [congruence|done].
Qed.

Lemma first_time_ins t w q e : head q = Some e → e.2 ≤ w → first_time (ins t w q) = first_time q.
Proof. destruct q as [|[u v] q]; [done|]. intros [= <-] Hw. cbn in *. by rewrite (proj2 (Z.ltb_ge _ _)). Qed.

Lemma wp_sched_add_timer s q P t x w :
  rep s q P → timers (sched s) !! t = Some x → t_waketime x = u32 w →
  t ∉ q.*1 ++ [T_sentinel] → t ≠ T_deleted → fits w q P →
  wp (sched_add_timer t) s
    (λ _ s', ∃ q', rep s' q' P ∧ live q' = ins t w (live q) ∧
       first_time q' = Z.min (first_time q) w ∧ frame s s' ∧ same_user_data s s' ∧ irq_off s' = irq_off s)
    (λ r s', r = "Timer too close" ∧ shutdown_status (sched s) = 0 ∧
       timer_is_before (u32 w) (u32 (clock_at (hw_reads s))) = true).
Proof.
  intros Hrep Hx Hxw Ht Htd Hfit.
  destruct (rep_first _ _ _ Hrep) as (h & xh & q0 & Hq & Hxh & Hxhw & Hh & Hs0).
  destruct (Hrep) as [Hl Ho].
  unfold sched_add_timer. wstep. wstep. repeat wstep. rewrite Hxw, Hxhw.
  rewrite (fits_before w q P (timer_list (sched s)) h) by (done || (subst q; by left)).
  destruct (Z.ltb_spec w h) as [Hlt|Hge].
  - destruct (rep_live_front s q P t w h q0) as (Hall & Hlive & HP); [done..|].
    destruct (l_alloc _ _ _ Hl) as [xd Hxd].
    do 3 wstep.
    eapply (wp_conseq _ _ (λ _ s1, s1 = s <| irq_off := true |> <| hw_reads := S (hw_reads s) |>)).
    { apply wp_when; intros Hnow; [by apply wp_try_shutdown|done]. }
    intros [] ? ->. wstep. set (tl := if bool_decide _ then tail q else q) in *.
    set (n := head (tl.*1 ++ [T_sentinel])).
    eapply (wp_conseq _ _ (λ _ s1, s1 = upd sched (upd timers <[t := x <| t_next := n |>]>)
             (s <| irq_off := true |> <| hw_reads := S (hw_reads s) |>))).
    { cbn. pose proof (l_chain _ _ _ Hl) as Hc. subst tl n.
      destruct (decide (timer_list (sched s) = T_deleted)) as [Hd|Hd].
      - rewrite bool_decide_eq_true_2 by done. rewrite Hq, Hd in Hc |- *.
        do 3 wstep. by rewrite (chain_next _ [] T_deleted _ xd Hc Hxd).
      - rewrite bool_decide_eq_false_2 by done. wstep. by rewrite Hq. }
    intros [] ? ->. repeat wstep. exists ((T_deleted, w) :: (t, w) :: tl). split; [split|].
    + eapply (links_front (sched s)); try done; [..|].
      * intros u y ? ? ?. cbn. by rewrite !lookup_insert_ne.
      * eexists. cbn. rewrite !lookup_insert_ne, lookup_insert_eq by done. by split.
      * eexists. cbn. rewrite lookup_insert_eq. by split.
    + eapply ordered_front; try done; subst tl; case_bool_decide; [by subst q|apply Ho| |done].
      subst q. intros e He. by right.
    + split; [done|]. split; [subst q; cbn; lia|]. split; [by split|]. split; [|done].
      intros u Hu. cbn. rewrite !(lookup_insert_ne _ T_deleted) by done.
      destruct (decide (t = u)) as [<-|?]; [by rewrite lookup_insert_eq, Hx|].
      by rewrite lookup_insert_ne.
  - destruct (insert_timer_eq (s <| irq_off := true |>) q P t x w (timer_list (sched s)))
      as (ts' & Heq & Hsd & Hc);
      [exact (l_chain _ _ _ Hl)|exact (l_nodup _ _ _ Hl)|exact (l_wake _ _ _ Hl)
      |exact (l_sentinel _ _ _ Hl)|apply Ho|by apply ordered_late|done..| |].
    { left. exists h. split; [subst q; by left|lia]. }
    eapply wp_of_eq; [exact Heq|]. wstep. exists (ins t w q). split; [split|].
    + cbn. eapply links_ins; try done; [by subst q|done].
    + by apply ordered_ins.
    + split; [by apply live_ins, Ho|]. split.
      { subst q. rewrite (first_time_ins _ _ _ (timer_list (sched s), h)) by done. cbn. lia. }
      split; [by split|]. split; [|done]. intros u _. apply Hsd.
Qed.
End add.

(** ** sched_del_timer *)

Section del.
Context {B : Board}.

Definition without (d : tid) (q : list entry) : list entry :=
  List.filter (λ e : entry, negb (bool_decide (e.1 = d))) q.

Lemma without_app d q1 q2 : without d (q1 ++ q2) = without d q1 ++ without d q2.
Proof. apply List.filter_app. Qed.
Lemma without_id d q : d ∉ q.*1 → without d q = q.
Proof.
  induction q as [|[u x] q IH]; cbn; [done|]. intros [Hu H]%not_elem_of_cons.
  fold (without d q). rewrite IH by done. cbn. by rewrite bool_decide_eq_false_2.
Qed.
Lemma without_cons_eq d w q : without d ((d, w) :: q) = without d q.
Proof. cbn. by rewrite bool_decide_eq_true_2. Qed.
Lemma live_without d q : live (without d q) = without d (live q).
Proof.
  unfold live, without. induction q as [|e q IH]; [done|]. cbn.
  destruct (negb _) eqn:Hn, (is_live e) eqn:He; cbn; rewrite ?Hn, ?He; congruence.
Qed.

Lemma del_timer_loop_absent s p l d fuel :
  chain (timers (sched s)) (p :: l) → d ∉ l → (length l < fuel)%nat →
  del_timer_loop fuel p d s = Ret tt s.
Proof.
  revert p fuel. induction l as [|u l IH]; intros p [|fuel] Hc Hd Hf; cbn in Hf; try lia.
  - destruct Hc as (x & Hx & Hn). cbn [del_timer_loop].
    by rewrite (bind_ret_eq _ _ _ _ _ (get_timer_eq _ _ _ Hx)), Hn.
  - apply chain_cons2 in Hc as [(x & Hx & Hn) Hc]. cbn [del_timer_loop].
    apply not_elem_of_cons in Hd as [Hdu Hd].
    rewrite (bind_ret_eq _ _ _ _ _ (get_timer_eq _ _ _ Hx)), Hn.
    rewrite decide_False by done. apply IH; [done|done|lia].
Qed.

Lemma del_timer_loop_present s p l1 d l2 xd xp fuel :
  chain (timers (sched s)) (p :: l1 ++ d :: l2) → d ∉ l1 → (length l1 < fuel)%nat →
  timers (sched s) !! d = Some xd → timers (sched s) !! default p (last l1) = Some xp →
  del_timer_loop fuel p d s =
    Ret tt (upd sched (upd timers
      <[default p (last l1) := xp <| t_next := t_next xd |>]>) s).
Proof.
  revert p fuel. induction l1 as [|u l IH]; intros p [|fuel] Hc Hd Hf Hxd Hxp;
    cbn in Hf; try lia; cbn [app] in Hc; apply chain_cons2 in Hc as [(x & Hx & Hn) Hc];
    cbn [del_timer_loop]; rewrite (bind_ret_eq _ _ _ _ _ (get_timer_eq _ _ _ Hx)), Hn.
  - rewrite decide_True by done. rewrite (bind_ret_eq _ _ _ _ _ (get_timer_eq _ _ _ Hxd)).
    cbn in *. by rewrite (upd_timer_eq _ _ _ _ Hxp).
  - apply not_elem_of_cons in Hd as [Hdu Hd]. rewrite decide_False by done.
    assert (default p (last (u :: l)) = default u (last l)) as Hlast.
    { rewrite last_cons. by destruct (last l). }
    rewrite Hlast in Hxp |- *. apply IH; [done|done|lia|done|done].
Qed.

(** Unlinking a queued timer that is not the first. *)
Lemma links_unlink c qa p wp d wd qb P xd xp :
  let q := qa ++ (p, wp) :: (d, wd) :: qb in
  links c q P → d ≠ T_periodic → (T_periodic, P) ∈ q →
  timers c !! d = Some xd → timers c !! p = Some xp →
  links (c <| timers := <[p := xp <| t_next := t_next xd |>]> (timers c) |>
           <| last_insert := if bool_decide (last_insert c = d) then T_periodic else last_insert c |>)
    (qa ++ (p, wp) :: qb) P.
Proof.
  intros q Hl Hdp HP Hxd Hxp.
  pose proof (l_chain _ _ _ Hl) as Hc. pose proof (l_nodup _ _ _ Hl) as Hnd.
  subst q. rewrite fmap_app in Hc, Hnd. cbn in Hc, Hnd. rewrite <- app_assoc in Hc, Hnd. cbn in Hc, Hnd.
  assert (∃ u l3, qb.*1 ++ [T_sentinel] = u :: l3) as (u & l3 & Hu)
    by (destruct (qb.*1 ++ [T_sentinel]) eqn:E; [by destruct qb|eauto]).
  rewrite Hu in Hc, Hnd.
  assert (t_next xd = Some u) as Hdn.
  { change (qa.*1 ++ p :: d :: u :: l3) with (qa.*1 ++ [p] ++ d :: u :: l3) in Hc.
    rewrite app_assoc in Hc. by apply (chain_next _ _ _ _ _ Hc Hxd). }
  pose proof (NoDup_app (qa.*1) (p :: d :: u :: l3)) as [(Hnd1 & Hdisj & Hnd2) _]; [done|].
  apply NoDup_cons in Hnd2 as [Hp Hnd2]. apply NoDup_cons in Hnd2 as [Hd Hnd3].
  assert (Hsame : same_data (timers c) (<[p := xp <| t_next := t_next xd |>]> (timers c)))
    by by apply same_data_next.
  split; cbn.
  - rewrite fmap_app. cbn. rewrite <- app_assoc. cbn. rewrite Hu, Hdn.
    eapply chain_redirect; [|set_solver|exact Hc|done|].
    + apply NoDup_app. split; [done|]. split; [set_solver|]. apply NoDup_singleton.
    + apply (chain_app_inv _ (qa.*1 ++ [p; d])). by rewrite <- app_assoc.
  - pose proof (l_head _ _ _ Hl) as Hh. by destruct qa.
  - rewrite fmap_app. cbn. rewrite <- app_assoc. cbn. rewrite Hu.
    apply NoDup_app. split; [done|]. split; [set_solver|]. apply NoDup_cons. by split; [set_solver|].
  - intros t w Ht. destruct (l_wake _ _ _ Hl t w) as (y & Hy & Hyw).
    { revert Ht. rewrite !elem_of_app, !elem_of_cons. tauto. }
    destruct (same_data_lookup _ _ _ _ Hsame Hy) as (y' & ? & ? & _). exists y'. split; congruence.
  - destruct (l_sentinel _ _ _ Hl) as (y & Hy & Hyw).
    destruct (same_data_lookup _ _ _ _ Hsame Hy) as (y' & ? & ? & _). exists y'. split; congruence.
  - case_bool_decide as Hli.
    + apply (list_elem_of_fmap_2' fst _ (T_periodic, P)); [|done].
      revert HP. rewrite !elem_of_app, !elem_of_cons. intros [?|[?|[?|?]]]; [tauto..|congruence|tauto].
    + pose proof (l_last _ _ _ Hl) as Hin. revert Hin. rewrite !fmap_app. cbn.
      rewrite !elem_of_app, !elem_of_cons. tauto.
  - pose proof (l_deleted _ _ _ Hl) as Hdel. revert Hdel.
    destruct qa; cbn; rewrite ?fmap_app; cbn; rewrite ?elem_of_app, ?elem_of_cons; tauto.
  - destruct (l_alloc _ _ _ Hl) as [y Hy].
    destruct (same_data_lookup _ _ _ _ Hsame Hy) as (y' & ? & _). eauto.
Qed.

Lemma ordered_sublist q q' P :
  ordered q P → sorted q' → (∀ e, e ∈ q' → e ∈ q) → (T_periodic, P) ∈ q' → ordered q' P.
Proof.
  intros Ho Hs Hsub HP. split; [done| | |done].
  - intros a b Ha Hb. apply (o_window _ _ Ho); auto.
  - intros a Ha. apply (o_limit _ _ Ho); auto.
Qed.

(** Deleting the first timer leaves the placeholder in front. *)
Lemma links_unlink_first c h q0 P d xd xdel :
  links c ((d, h) :: q0) P → d ≠ T_periodic → d ≠ T_deleted → (T_periodic, P) ∈ (d, h) :: q0 →
  timers c !! d = Some xd → t_waketime xd = u32 h → timers c !! T_deleted = Some xdel →
  links (c <| timers := <[T_deleted := xdel <| t_waketime := t_waketime xd |> <| t_next := t_next xd |>]>
                          (timers c) |>
           <| timer_list := T_deleted |>
           <| last_insert := if bool_decide (last_insert c = d) then T_periodic else last_insert c |>)
    ((T_deleted, h) :: q0) P.
Proof.
  intros Hl Hdp Hdd HP Hxd Hxdw Hdel.
  pose proof (l_chain _ _ _ Hl) as Hc. pose proof (l_nodup _ _ _ Hl) as Hnd.
  pose proof (l_deleted _ _ _ Hl) as Hdq. cbn in Hnd, Hdq.
  apply NoDup_cons in Hnd as [_ Hnd].
  assert (T_deleted ∉ q0.*1 ++ [T_sentinel]) as Hdn.
  { rewrite elem_of_app, list_elem_of_singleton. intros [?|?]; done. }
  pose proof (chain_next _ [] d (q0.*1 ++ [T_sentinel]) xd Hc Hxd) as Hxn.
  assert (chain (timers c) (q0.*1 ++ [T_sentinel])) as Hc0.
  { cbn in Hc. destruct (q0.*1 ++ [T_sentinel]) eqn:E; [by destruct q0|]. by destruct Hc. }
  split; cbn.
  - assert (∃ u l3, q0.*1 ++ [T_sentinel] = u :: l3) as (u & l3 & Hu)
      by (destruct (q0.*1 ++ [T_sentinel]) eqn:E; [by destruct q0|eauto]).
    rewrite Hu in *. split; [|by apply chain_frame].
    eexists. rewrite lookup_insert_eq. split; [done|]. cbn. by rewrite Hxn.
  - done.
  - apply NoDup_cons. by split.
  - intros t w [[= -> ->]|Ht]%elem_of_cons.
    + eexists. rewrite lookup_insert_eq. by split.
    + destruct (l_wake _ _ _ Hl t w) as (y & Hy & Hyw); [by right|]. exists y. split; [|done].
      rewrite lookup_insert_ne; [done|]. intros <-. apply Hdq.
      by apply (list_elem_of_fmap_2' fst _ (T_deleted, w)).
  - destruct (l_sentinel _ _ _ Hl) as (y & Hy & Hyw). exists y. by rewrite lookup_insert_ne.
  - apply elem_of_cons in HP as [HP|HP]; [congruence|].
    case_bool_decide as Hli.
    + right. by apply (list_elem_of_fmap_2' fst _ (T_periodic, P)).
    + pose proof (l_last _ _ _ Hl) as Hin. cbn in Hin.
      apply elem_of_cons in Hin as [?|?]; [done|by right].
  - done.
  - rewrite lookup_insert_eq. eauto.
Qed.

Lemma links_ext c c' q P :
  timers c' = timers c → timer_list c' = timer_list c → last_insert c' = last_insert c →
  links c q P → links c' q P.
Proof. destruct c, c'. cbn. intros -> -> -> []. by split. Qed.

(** The end of [sched_del_timer]: forget [last_insert] when it was deleted. *)
Lemma wp_del_finish s d flag (Q : unit → mcu → Prop) E :
  Q tt (s <| sched; last_insert := if bool_decide (last_insert (sched s) = d) then T_periodic
                                   else last_insert (sched s) |> <| irq_off := flag |>) →
  wp (let! s := get in
      (when bool_decide (last_insert (sched s) = d) do set_last_insert T_periodic);;;
      irq_restore flag) s Q E.
Proof.
  intros HQ. do 3 wstep. apply wp_when; intros Hb; rewrite Hb in HQ; [exact HQ|].
  wstep. by destruct s as [[] ? ? ? ? ? ? ? ? ? ?].
Qed.

Lemma sorted_remove q1 e q2 : sorted (q1 ++ e :: q2) → sorted (q1 ++ q2).
Proof.
  rewrite !sorted_app, sorted_cons. intros (? & [? _] & Hlt). split; [done|]. split; [done|].
  intros a b Ha Hb. apply Hlt; [done|by right].
Qed.

Lemma split_last_entry hd h (qm : list entry) :
  ∃ qa p w, (hd, h) :: qm = qa ++ [(p, w)] ∧ default hd (last qm.*1) = p.
Proof.
  induction qm as [|[p w] qm _] using rev_ind; [by exists [], hd, h|].
  exists ((hd, h) :: qm), p, w. split; [done|].
  rewrite fmap_app. change [(p, w)].*1 with [p]. by rewrite last_snoc.
Qed.

Lemma without_middle d qa e wd qb :
  NoDup ((qa ++ e :: (d, wd) :: qb).*1 ++ [T_sentinel]) →
  without d (qa ++ e :: (d, wd) :: qb) = qa ++ e :: qb.
Proof.
  intros Hnd. assert ((qa ++ e :: (d, wd) :: qb).*1 ≡ₚ d :: (qa ++ e :: qb).*1) as Hp.
  { rewrite !fmap_app. cbn. by rewrite (Permutation_swap d e.1), <- Permutation_middle. }
  rewrite Hp in Hnd. cbn in Hnd. apply NoDup_cons in Hnd as [Hnd _].
  rewrite elem_of_app in Hnd.
  change (e :: (d, wd) :: qb) with ([e] ++ (d, wd) :: qb).
  rewrite app_assoc, without_app, without_cons_eq, <- without_app, <- app_assoc.
  apply without_id. tauto.
Qed.

Definition del_post s q P d (_ : unit) (s' : mcu) : Prop :=
  ∃ q', rep s' q' P ∧ live q' = without d (live q) ∧ first_time q' = first_time q ∧
    frame s s' ∧ same_user_data s s' ∧ irq_off s' = irq_off s.

Lemma del_first s q0 h P d :
  rep s ((d, h) :: q0) P → timer_list (sched s) = d → d ≠ T_periodic → d ≠ T_deleted →
  wp (sched_del_timer d) s (del_post s ((d, h) :: q0) P d) no_shut.
Proof.
  intros Hrep Hd Hdp Hdd.
  destruct (rep_first _ _ _ Hrep) as (h' & xh & q0' & Hq & Hxh & Hxhw & Hh & Hs0).
  rewrite Hd in Hxh. injection Hq as _ <- <-.
  destruct (Hrep) as [Hl Ho]. pose proof (o_periodic _ _ Ho) as HP.
  destruct (l_alloc _ _ _ Hl) as [xdel Hdel].
  pose proof (links_unlink_first (sched s) h q0 P d xh xdel) as Hl'.
  unfold sched_del_timer. repeat wstep. cbn [sched timer_list upd]. rewrite decide_True by done.
  repeat wstep. apply wp_modify, wp_del_finish. exists ((T_deleted, h) :: q0). split; [split|].
  - eapply links_ext; [..|by apply Hl']; [|done|done]. cbn. by rewrite insert_insert_eq.
  - eapply (ordered_extend _ _ _ h Ho); [|by apply sorted_cons| |].
    + split; [by apply (o_limit _ _ Ho (d, h)); left|]. intros e He.
      pose proof (o_window _ _ Ho (d, h) e) as H1. pose proof (o_window _ _ Ho e (d, h)) as H2.
      cbn in *. feed H1; [by left|]. specialize (H1 He). specialize (H2 He). feed H2; [by left|].
      unfold HALF in *. lia.
    + intros e [->|He]%elem_of_cons; [by right|left; by right].
    + apply elem_of_cons in HP as [HP|HP]; [congruence|by right].
  - split; [|split; [done|split; [by split|split; [|done]]]].
    + rewrite live_deleted, <- live_without, without_cons_eq.
      rewrite without_id; [done|]. pose proof (l_nodup _ _ _ Hl) as Hnd. cbn in Hnd.
      apply NoDup_cons in Hnd as [Hnd _]. rewrite elem_of_app in Hnd. tauto.
    + intros u Hu. cbn. by rewrite !lookup_insert_ne.
Qed.

Lemma links_size c q P : links c q P → (length (q.*1 ++ [T_sentinel]) ≤ size (timers c))%nat.
Proof. intros Hl. apply NoDup_size; [apply Hl|]. intros u. apply chain_lookup, Hl. Qed.

Lemma del_absent s q P d :
  rep s q P → d ≠ T_sentinel → d ∉ q.*1 → wp (sched_del_timer d) s (del_post s q P d) no_shut.
Proof.
  intros Hrep Hds Hin.
  destruct (rep_first _ _ _ Hrep) as (h & xh & q0 & Hq & Hxh & _). destruct (Hrep) as [Hl Ho].
  pose proof (l_chain _ _ _ Hl) as Hc. pose proof (links_size _ _ _ Hl) as Hsize.
  rewrite Hq in Hc, Hsize. cbn in Hsize.
  assert (d ∉ timer_list (sched s) :: q0.*1) as Hin' by by rewrite Hq in Hin.
  apply not_elem_of_cons in Hin' as [Hdh Hin'].
  unfold sched_del_timer. repeat wstep. cbn [sched timer_list upd]. rewrite decide_False by done.
  eapply wp_of_eq.
  { eapply (del_timer_loop_absent _ _ (q0.*1 ++ [T_sentinel])); [exact Hc| |cbn; lia].
    rewrite elem_of_app, list_elem_of_singleton. tauto. }
  apply wp_del_finish. cbn.
  rewrite bool_decide_eq_false_2 by (intros Heq; apply Hin; rewrite <- Heq; apply Hl).
  exists q. split; [split; [by eapply links_ext; [..|exact Hl]|done]|].
  split; [|by split; [|split; [split|split]]]. rewrite <- live_without. by rewrite without_id.
Qed.

Lemma del_middle s q P d wd qm qb h :
  rep s q P → q = (timer_list (sched s), h) :: qm ++ (d, wd) :: qb →
  d ≠ T_periodic → wp (sched_del_timer d) s (del_post s q P d) no_shut.
Proof.
  intros [Hl Ho] Hq Hdp. pose proof (o_periodic _ _ Ho) as HP.
  destruct (split_last_entry (timer_list (sched s)) h qm) as (qa & p & wp' & Hqa & Hlast).
  assert (q = qa ++ (p, wp') :: (d, wd) :: qb) as Hq'.
  { rewrite Hq. change (?a :: ?b ++ ?c) with ((a :: b) ++ c). by rewrite Hqa, <- app_assoc. }
  destruct (l_wake _ _ _ Hl d wd) as (xd & Hxd & Hxdw).
  { rewrite Hq', elem_of_app, !elem_of_cons. tauto. }
  destruct (l_wake _ _ _ Hl p wp') as (xp & Hxp & Hxpw).
  { rewrite Hq', elem_of_app, !elem_of_cons. tauto. }
  pose proof (l_chain _ _ _ Hl) as Hc. pose proof (l_nodup _ _ _ Hl) as Hnd.
  pose proof (links_size _ _ _ Hl) as Hsize. pose proof Hnd as Hnd'.
  rewrite Hq in Hc, Hsize, Hnd. cbn in Hc, Hsize, Hnd. rewrite fmap_app in Hc, Hsize, Hnd.
  cbn in Hc, Hsize, Hnd. rewrite <- app_assoc in Hc, Hsize, Hnd. cbn in Hc, Hsize, Hnd.
  apply NoDup_cons in Hnd as [Hhd Hnd]. rewrite elem_of_app, elem_of_cons in Hhd.
  unfold sched_del_timer. repeat wstep. cbn [sched timer_list upd].
  rewrite decide_False by (intros Heq; apply Hhd; tauto).
  eapply wp_of_eq.
  { eapply (del_timer_loop_present _ _ (qm.*1) d); [exact Hc| | |exact Hxd|by rewrite Hlast].
    - apply NoDup_app in Hnd as (_ & Hnd & _). intros Hdm. apply (Hnd _ Hdm). by left.
    - rewrite length_app in Hsize. cbn in Hsize |- *. lia. }
  rewrite Hlast. apply wp_del_finish. exists (qa ++ (p, wp') :: qb). split; [split|].
  - rewrite Hq' in Hl, HP. eapply links_ext; [..|by eapply links_unlink]; done.
  - rewrite Hq' in Ho, HP. eapply (ordered_sublist _ _ _ Ho).
    + pose proof (o_sorted _ _ Ho) as Hs. change (?a :: ?b :: ?c) with ([a] ++ b :: c) in Hs.
      rewrite app_assoc in Hs. apply sorted_remove in Hs. by rewrite <- app_assoc in Hs.
    + intros e. rewrite !elem_of_app, !elem_of_cons. tauto.
    + revert HP. rewrite !elem_of_app, !elem_of_cons. intros [?|[?|[?|?]]]; [tauto..|congruence|tauto].
  - split; [|split; [|split; [by split|split; [|done]]]].
    + rewrite <- live_without, Hq' in *. by rewrite without_middle.
    + rewrite Hq'. by destruct qa.
    + intros u Hu. cbn. apply (same_data_next _ _ _ _ Hxp).
Qed.

Lemma wp_sched_del_timer s q P d :
  rep s q P → d ≠ T_periodic → d ≠ T_sentinel → d ≠ T_deleted →
  wp (sched_del_timer d) s (del_post s q P d) no_shut.
Proof.
  intros Hrep Hdp Hds Hdd.
  destruct (rep_first _ _ _ Hrep) as (h & xh & q0 & -> & _).
  destruct (decide (d ∈ ((timer_list (sched s), h) :: q0).*1)) as [Hin|?]; [|by apply del_absent].
  cbn in Hin. apply elem_of_cons in Hin as [->|Hin]; [by apply del_first|].
  apply list_elem_of_fmap in Hin as ([d' wd] & -> & Hin).
  apply list_elem_of_split in Hin as (qm & qb & ->). by eapply del_middle.
Qed.
End del.

(** ** sched_timer_dispatch *)

Section dispatch.
Context {B : Board}.

Lemma links_set_last c q P t : links c q P → t ∈ q.*1 → links (c <| last_insert := t |>) q P.
Proof. intros [] Ht. by split. Qed.

(** The list without its first timer. *)
Lemma links_tail c t w n wn q P :
  links c ((t, w) :: (n, wn) :: q) P →
  links (c <| timer_list := n |>
           <| last_insert := if bool_decide (last_insert c = t) then n else last_insert c |>)
    ((n, wn) :: q) P.
Proof.
  intros [Hc Hh Hnd Hw Hs Hli Hd Ha]. cbn in Hnd, Hli, Hd. split; cbn.
  - by destruct Hc.
  - done.
  - by apply NoDup_cons in Hnd as [_ Hnd].
  - intros u x Hu. apply Hw. by right.
  - done.
  - apply elem_of_cons in Hli as [->|Hli]; [rewrite bool_decide_eq_true_2 by done; by left|].
    case_bool_decide; [by left|done].
  - by apply not_elem_of_cons in Hd as [_ Hd].
  - done.
Qed.

(** What a callback must leave behind for its timer [t], which it moved to [w'], and the
    other timers [q1]. *)
Definition reentry (t : tid) (res w' : Z) (q1 : list entry) (P : Z) : Prop :=
  if res =? SF_DONE then ordered q1 P else t ≠ T_deleted ∧ ordered (ins t w' q1) P.

Definition requeue (t : tid) (res w' : Z) (q1 : list entry) : list entry :=
  if res =? SF_DONE then q1 else ins t w' q1.

Lemma ordered_ins_fits t w q P : ordered (ins t w q) P → fits w q P.
Proof.
  intros Ho. split; [apply (o_limit _ _ Ho (t, w)), elem_of_ins; by left|]. intros e He.
  pose proof (o_window _ _ Ho (t, w) e) as H1. pose proof (o_window _ _ Ho e (t, w)) as H2.
  rewrite !elem_of_ins in H1, H2. cbn in *. unfold HALF in *.
  specialize (H1 (or_introl eq_refl) (or_intror He)).
  specialize (H2 (or_intror He) (or_introl eq_refl)). lia.
Qed.

Lemma ins_sorted_inv t w q : sorted (ins t w q) → sorted q.
Proof.
  induction q as [|[u x] q IH]; [constructor|]. cbn. destruct (w <? x).
  - by intros [? _]%sorted_cons.
  - rewrite !sorted_cons. intros [Hs Hf]. split; [by apply IH|].
    rewrite Forall_forall in Hf |- *. intros e He. apply Hf, elem_of_ins. by right.
Qed.

Lemma ordered_ins_late t w q P :
  ordered (ins t w q) P → Forall (λ e : entry, e.2 ≤ w) q → P ≤ w.
Proof.
  intros Ho Hf. pose proof (o_periodic _ _ Ho) as HP. rewrite Forall_forall in Hf.
  apply elem_of_ins in HP as [[= _ ->]|HP]; [done|]. by apply (Hf _ HP).
Qed.

(** Moving the first timer [t] to its new place. *)
Definition requeue_code (n t : tid) (w ret : Z) : MC Z :=
  set_timer_list n;;;
  let! s := get in
  let pos := last_insert (sched s) in
  let! pt := get_timer pos in
  let pos := if timer_is_before w (t_waketime pt) then timer_list (sched s) else pos in
  insert_timer pos t w;;;
  set_last_insert t;;;
  mret ret.

Lemma wp_requeue_code s t w n wn q P ret E :
  let q1 := (n, wn) :: q in
  links (sched s) ((t, w) :: q1) P → ordered (ins t w q1) P → t ≠ T_deleted → wn ≤ w →
  wp (requeue_code n t (u32 w) ret) s
    (λ r s', r = ret ∧ rep s' (ins t w q1) P ∧ frame s s' ∧ same_user_data s s') E.
Proof.
  intros q1 Hl Ho Htd Hle.
  pose proof (ordered_ins_fits _ _ _ _ Ho) as Hfit.
  pose proof (ins_sorted_inv _ _ _ (o_sorted _ _ Ho)) as Hs.
  destruct (l_wake _ _ _ Hl t w) as (xt & Hxt & Hxtw); [by left|].
  pose proof (l_nodup _ _ _ Hl) as Hnd. cbn in Hnd. apply NoDup_cons in Hnd as [Htq Hnd].
  pose proof (links_tail _ _ _ _ _ _ _ Hl) as Hl1.
  assert (∃ xp p', timers (sched s) !! last_insert (sched s) = Some xp ∧
    p' = (if timer_is_before (u32 w) (t_waketime xp) then n else last_insert (sched s)) ∧
    start_ok p' t xt w q1) as (xp & p' & Hxp & Hp' & Hstart).
  { pose proof (l_last _ _ _ Hl) as Hli. cbn in Hli. apply elem_of_cons in Hli as [Hli|Hli].
    - exists xt, t. rewrite Hli, Hxtw, timer_is_before_irrefl. split; [done|]. split; [done|].
      right. split; [done|]. split; [|by exists (n, wn)].
      exact (chain_next (timers (sched s)) [] t (q1.*1 ++ [T_sentinel]) xt (l_chain _ _ _ Hl) Hxt).
    - change (n :: q.*1) with q1.*1 in Hli. apply list_elem_of_fmap in Hli as ([u wu] & Hu & Hin).
      cbn in Hu. destruct (l_wake _ _ _ Hl u wu) as (xp & Hxp & Hxpw); [by right|].
      eexists xp, _. rewrite Hu. split; [done|]. split; [done|]. left.
      rewrite Hxpw, (fits_before w q1 P u wu) by done. destruct (Z.ltb_spec w wu).
      + exists wn. split; [by left|done].
      + exists wu. by split. }
  set (s1 := s <| sched; timer_list := n |>).
  destruct (insert_timer_eq s1 q1 P t xt w p') as (ts' & Heq & Hsd & Hc);
    [apply (l_chain _ _ _ Hl1)|done|apply (l_wake _ _ _ Hl1)|apply (l_sentinel _ _ _ Hl1)
    |done|by eapply ordered_ins_late|done|done|done|done|].
  unfold requeue_code. wstep. apply wp_modify. repeat wstep. cbn -[ins]. rewrite <- Hp'.
  eapply wp_of_eq; [exact Heq|]. wstep. apply wp_modify. wstep. split; [done|].
  split; [split; [|done]|split; [by split|intros u _; apply Hsd]].
  pose proof (links_ins _ q1 P t w xt (n, wn) ts' Hl1 Htq Htd Hxt Hxtw eq_refl Hle Hsd Hc) as Hl2.
  assert (t ∈ (ins t w q1).*1) as Hin by (rewrite ins_perm; by left).
  by apply (links_ext _ _ _ _ eq_refl eq_refl eq_refl (links_set_last _ _ _ t Hl2 Hin)).
Qed.

(** C2: sched_timer_dispatch refines an abstract timer queue. If the callback of the head timer
    leaves a linked list that represents the queue behind it, the dispatch takes the head off,
    puts it back at its new wake time (SF_RESCHEDULE) or drops it (SF_DONE), leaves a sorted
    well-formed queue and returns the wake time of the new head; nothing outside the list
    changes, whatever else the callback did. *)
Theorem sched_timer_dispatch_refines call stepper_event s t x
    (R : Z → mcu → Z → list entry → Z → Prop) (E : string → mcu → Prop) :
  timer_list (sched s) = t → timers (sched s) !! t = Some x →
  wp (if CONFIG_INLINE_STEPPER_HACK && bool_decide (t_func x = F_null)
      then stepper_event t else call (t_func x) t) s
     (λ res s', ∃ w' q1 P', links (sched s') ((t, w') :: q1) P' ∧
        reentry t res w' q1 P' ∧ R res s' w' q1 P') E →
  wp (sched_timer_dispatch call stepper_event) s
     (λ next s'', ∃ res s' w' q1 P' u h q2, R res s' w' q1 P' ∧
        requeue t res w' q1 = (u, h) :: q2 ∧ rep s'' ((u, h) :: q2) P' ∧ next = u32 h ∧
        frame s' s'' ∧ same_user_data s' s'') E.
Proof.
  intros Ht Hx Hcb. unfold sched_timer_dispatch. do 3 wstep. rewrite Ht. do 2 wstep.
  eapply wp_conseq; [exact Hcb|]. intros res s' (w' & q1 & P' & Hl & Hre & HR). cbn beta.
  destruct (l_wake _ _ _ Hl t w') as (xt & Hxt & Hxtw); [by left|].
  pose proof (chain_next (timers (sched s')) [] t (q1.*1 ++ [T_sentinel]) xt (l_chain _ _ _ Hl) Hxt) as Hn.
  do 2 wstep. unfold reentry, requeue in *. destruct (res =? SF_DONE) eqn:Hres.
  - destruct q1 as [|[n wn] q]; [by apply o_periodic, not_elem_of_nil in Hre|].
    destruct (l_wake _ _ _ Hl n wn) as (xn & Hxn & Hxnw); [right; by left|].
    cbn in Hn. rewrite Hn. repeat wstep. apply wp_modify. repeat wstep. cbn.
    pose proof (links_tail _ _ _ _ _ _ _ Hl) as Hl1.
    apply wp_when; intros Hb; [apply wp_modify|];
      exists res, s', w', ((n, wn) :: q), P', n, wn, q; rewrite Hb in Hl1; rewrite Hres;
      (split; [done|]); (split; [done|]); (split; [split; [|done]|by split; [|split; [split|]]]);
      by apply (links_ext _ _ _ _ eq_refl eq_refl eq_refl Hl1).
  - destruct Hre as [Htd Ho]. destruct q1 as [|[n wn] q].
    + pose proof (o_periodic _ _ Ho) as HP. cbn in HP. apply list_elem_of_singleton in HP.
      injection HP as <- <-. destruct (l_sentinel _ _ _ Hl) as (xs & Hxs & Hxsw).
      cbn in Hn. rewrite Hn. repeat wstep. rewrite Hxtw, Hxsw, timer_is_before_true by (unfold HALF; lia).
      cbn [negb]. wstep. exists res, s', P', [], P', T_periodic, P', []. rewrite Hres. by split_and!.
    + destruct (l_wake _ _ _ Hl n wn) as (xn & Hxn & Hxnw); [right; by left|].
      cbn in Hn. rewrite Hn. repeat wstep. rewrite Hxtw, Hxnw.
      rewrite (fits_before w' ((n, wn) :: q) P' n wn);
        [|by eapply ordered_ins_fits|by left].
      destruct (Z.ltb_spec w' wn) as [Hlt|Hge]; cbn [negb].
      * wstep. exists res, s', w', ((n, wn) :: q), P', t, w', ((n, wn) :: q). rewrite Hres.
        assert (ins t w' ((n, wn) :: q) = (t, w') :: (n, wn) :: q) as Hins.
        { cbn. by destruct (Z.ltb_spec w' wn); [|lia]. }
        rewrite Hins in *. by split_and!.
      * eapply wp_conseq; [by apply (wp_requeue_code _ _ _ _ _ _ _ _ E Hl Ho Htd)|].
        intros ? s'' (-> & Hrep & Hf & Hd).
        exists res, s', w', ((n, wn) :: q), P', n, wn, (ins t w' q). rewrite Hres.
        assert (ins t w' ((n, wn) :: q) = (n, wn) :: ins t w' q) as Hins.
        { cbn. by destruct (Z.ltb_spec w' wn); [lia|]. }
        rewrite Hins in *. by split_and!.
Qed.
End dispatch.

(** ** The scheduler's own timers *)

Section own_timers.
Context {B : Board}.

(** The queue before the callback of its first timer [t] runs, seen as the queue after a
    callback that moves [t] to [w'] and touches no other timer. *)
Lemma links_move c t w q w' x P P' xs :
  links c ((t, w) :: q) P → t ≠ T_sentinel → t_waketime x = u32 w' →
  t_next x = t_next (default x (timers c !! t)) →
  timers c !! T_sentinel = Some xs →
  links (c <| timers := <[T_sentinel := xs <| t_waketime := u32 (P' + HALF) |>]>
                          (<[t := x]> (timers c)) |>) ((t, w') :: q) P'.
Proof.
  intros [Hc Hh Hnd Hw Hs Hli Hd Ha] Hts Hxw Hxn Hxs. cbn in Hnd, Hli, Hd.
  assert (T_sentinel ∉ q.*1) as Hsq.
  { apply NoDup_cons in Hnd as [_ Hnd]. apply NoDup_app in Hnd as (_ & Hnd & _).
    intros Hin. apply (Hnd _ Hin). by left. }
  destruct (Hw t w) as (x0 & Hx0 & _); [by left|]. rewrite Hx0 in Hxn. cbn in Hxn.
  split; cbn -[chain].
  - apply (chain_same_next _ _ xs); [by rewrite lookup_insert_ne|done|].
    by apply (chain_same_next _ _ x0).
  - done.
  - done.
  - intros u v [[= -> ->]|Hu]%elem_of_cons.
    + exists x. by rewrite lookup_insert_ne, lookup_insert_eq.
    + destruct (Hw u v) as (y & Hy & Hyw); [by right|]. exists y. split; [|done].
      pose proof (list_elem_of_fmap_2' fst _ _ _ Hu eq_refl) as Hu'. cbn in Hu'.
      rewrite !lookup_insert_ne; [done| |].
      * intros ->. apply NoDup_cons in Hnd as [Hnd _]. apply Hnd. apply elem_of_app. by left.
      * intros <-. done.
  - eexists. by rewrite lookup_insert_eq.
  - done.
  - done.
  - destruct (decide (T_deleted = t)) as [<-|?].
    + by rewrite lookup_insert_ne, lookup_insert_eq.
    + by rewrite !lookup_insert_ne.
Qed.

Lemma periodic_fits q P d :
  ordered ((T_periodic, P) :: q) P → 0 ≤ d < HALF → ordered (ins T_periodic (P + d) q) (P + d).
Proof.
  intros Ho Hd. pose proof (o_sorted _ _ Ho) as Hs. apply sorted_cons in Hs as [Hs Hle].
  rewrite Forall_forall in Hle. unfold HALF in *.
  assert (∀ e, e ∈ q → P ≤ e.2 < P + HALF) as Hb.
  { intros e He. split; [by apply (Hle e)|]. apply (o_limit _ _ Ho). by right. }
  split.
  - by apply sorted_ins.
  - intros a b [->|Ha]%elem_of_ins [->|Hb']%elem_of_ins; cbn; unfold HALF in *.
    + lia.
    + specialize (Hb _ Hb'). lia.
    + specialize (Hb _ Ha). lia.
    + apply (o_window _ _ Ho); by right.
  - intros a [->|Ha]%elem_of_ins; cbn; unfold HALF in *; [lia|]. specialize (Hb _ Ha). lia.
  - apply elem_of_ins. by left.
Qed.

(** [periodic_event] moves [periodic_timer] and the sentinel by 100 ms, asks for the tasks and
    returns what the dispatch expects of a callback. *)
Theorem periodic_event_ok s q P :
  rep s ((T_periodic, P) :: q) P → timer_from_us 100000 < HALF →
  let P' := P + timer_from_us 100000 in
  wp periodic_event s
    (λ res s', res = SF_RESCHEDULE ∧ links (sched s') ((T_periodic, P') :: q) P' ∧
       reentry T_periodic res P' q P' ∧ tasks_status (sched s') = TS_REQUESTED ∧ frame s s')
    no_shut.
Proof.
  intros [Hl Ho] Hus P'. destruct (l_wake _ _ _ Hl T_periodic P) as (x & Hx & Hxw); [by left|].
  destruct (l_sentinel _ _ _ Hl) as (xs & Hxs & Hxsw).
  unfold periodic_event. wstep. apply wp_modify. repeat wstep.
  assert (0 ≤ timer_from_us 100000) by apply u32_range.
  split; [done|]. split; [|split; [|split; [done|by split]]].
  - pose proof (links_move (sched s) T_periodic P q P' (x <| t_waketime := u32 P' |>) P P' xs Hl) as Hl'.
    eapply links_ext; [..|apply Hl'; try done; by rewrite Hx]; [|done|done].
    cbn. rewrite Hxw, !u32_add_l, <- Z.add_assoc, !u32_add_l, Z.add_assoc. done.
  - split; [done|]. apply periodic_fits; [done|lia].
Qed.

Lemma wp_sched_timer_reset s q P :
  rep s q P →
  wp sched_timer_reset s
    (λ _ s', rep s' [(T_deleted, P); (T_periodic, P)] P ∧ frame s s' ∧ same_user_data s s')
    no_shut.
Proof.
  intros [Hl Ho]. destruct (l_wake _ _ _ Hl T_periodic P) as (x & Hx & Hxw); [apply Ho|].
  destruct (l_sentinel _ _ _ Hl) as (xs & Hxs & Hxsw). destruct (l_alloc _ _ _ Hl) as [xd Hxd].
  assert (t_next xs = None) as Hxsn by (by apply (chain_next _ _ _ [] _ (l_chain _ _ _ Hl) Hxs)).
  unfold sched_timer_reset. wstep. apply wp_modify. repeat wstep. apply wp_modify. repeat wstep.
  split; [split|split; [by split|]].
  - split; cbn.
    + split; [|split]; eexists; simplify_map_eq; split; done.
    + done.
    + repeat (apply NoDup_cons; split; [set_solver|]). constructor.
    + intros t w [[= -> ->]|[[= -> ->]|[]%not_elem_of_nil]%elem_of_cons]%elem_of_cons;
        eexists; simplify_map_eq; split; done.
    + exists xs. by simplify_map_eq.
    + set_solver.
    + set_solver.
    + eexists. by simplify_map_eq.
  - split.
    + apply sorted_cons. split; [apply sorted_cons; split; constructor|]. repeat constructor; cbn; lia.
    + intros a b Ha Hb. assert (a.2 = P ∧ b.2 = P) as [-> ->] by set_solver. unfold HALF. lia.
    + intros a Ha. assert (a.2 = P) as -> by set_solver. unfold HALF. lia.
    + set_solver.
  - intros u Hu. cbn. destruct (decide (u = T_periodic)) as [->|?]; simplify_map_eq; done.
Qed.
End own_timers.
