(* ===== verification/TimerService.v ===== *)
(** * The timer service: what sched.c promises to the rest of the firmware

    Clients of the scheduler see a queue of (timer, wake time) pairs.  The class states
    the laws of that queue; the linked list of sched.c is an instance of it.  Device
    files prove their properties against the class. *)

From S2P Require Import Prelude State Runtime Bench Sched TimerQueue SchedSpec.

(** A wake time that can join a queue whose earliest time is [lo]: the clock arithmetic
    of [timer_is_before] orders it correctly. *)
Definition room (w lo : Z) (q : list entry) (P : Z) : Prop :=
  w < P + HALF ∧ w < lo + HALF ∧ Forall (λ e : entry, e.2 - HALF < w) q.

(** The timers a device file may put on the queue. *)
Definition user_timer (t : tid) : Prop := match t with T_member _ _ => True | _ => False end.

(** [tq s lo q P]: in state [s] the timers [q] are scheduled, in this order; nothing is
    due before [lo], and [periodic_timer] is due at [P]. *)
Class TimerService {B : Board} := {
  tq : mcu → Z → list entry → Z → Prop;
  tq_ext s s' lo q P :
    timers (sched s') = timers (sched s) → timer_list (sched s') = timer_list (sched s) →
    last_insert (sched s') = last_insert (sched s) → tq s lo q P → tq s' lo q P;
  tq_wf s lo q P : tq s lo q P →
    sorted q ∧ (T_periodic, P) ∈ q ∧ Forall (λ e : entry, lo ≤ e.2 < P + HALF) q ∧ NoDup (q.*1);
  tq_wake s lo q P t w : tq s lo q P → (t, w) ∈ q →
    ∃ x, timers (sched s) !! t = Some x ∧ t_waketime x = u32 w;
  tq_write s lo q P t y : tq s lo q P → user_timer t → t ∉ q.*1 →
    tq (upd sched (upd timers <[t := y]>) s) lo q P;
  tq_del s lo q P t : tq s lo q P → user_timer t →
    wp (sched_del_timer t) s
      (λ _ s', tq s' lo (without t q) P ∧ frame s s' ∧ same_user_data s s' ∧
         irq_off s' = irq_off s) no_shut;
  tq_add s lo q P t x w : tq s lo q P → user_timer t → t ∉ q.*1 →
    timers (sched s) !! t = Some x → t_waketime x = u32 w → room w lo q P →
    wp (sched_add_timer t) s
      (λ _ s', tq s' (Z.min lo w) (ins t w q) P ∧ frame s s' ∧ same_user_data s s' ∧
         irq_off s' = irq_off s)
      (λ r _, r = "Timer too close" ∧ shutdown_status (sched s) = 0 ∧
         timer_is_before (u32 w) (u32 (clock_at (hw_reads s))) = true);
}.

(** ** The linked list provides the service *)

Section sched_service.
Context {B : Board}.

(** The placeholder [deleted_timer] is hidden. *)
Definition sched_queue (s : mcu) (lo : Z) (q : list entry) (P : Z) : Prop :=
  ∃ q0, rep s q0 P ∧ live q0 = q ∧ first_time q0 = lo.

Lemma live_elem e q : e ∈ live q ↔ e ∈ q ∧ e.1 ≠ T_deleted.
Proof.
  unfold live. rewrite !list_elem_of_In, List.filter_In. unfold is_live.
  rewrite negb_true_iff, bool_decide_eq_false. done.
Qed.

Lemma user_special t : user_timer t → t ≠ T_periodic ∧ t ≠ T_sentinel ∧ t ≠ T_deleted.
Proof. by destruct t. Qed.

Lemma live_absent t q : t ≠ T_deleted → t ∉ (live q).*1 → t ∉ q.*1.
Proof.
  intros Ht Hn ([u w] & -> & Hin)%list_elem_of_fmap. apply Hn.
  apply (list_elem_of_fmap_2' fst _ (u, w)); [|done]. by apply live_elem.
Qed.

Lemma rep_lo s q P : rep s q P → Forall (λ e : entry, first_time q ≤ e.2) q.
Proof.
  intros Hrep. destruct (rep_first _ _ _ Hrep) as (h & x & q0 & -> & _ & _ & Hle & _).
  constructor; cbn; [lia|done].
Qed.

Lemma NoDup_live q : NoDup (q.*1) → NoDup ((live q).*1).
Proof.
  induction q as [|e q IH]; cbn; [constructor|]. intros [Hn Hnd]%NoDup_cons.
  unfold is_live at 1. destruct (bool_decide (e.1 = T_deleted)); cbn; [by apply IH|].
  apply NoDup_cons. split; [|by apply IH].
  intros ([u w] & Hu & Hin)%list_elem_of_fmap. apply Hn. rewrite Hu.
  apply (list_elem_of_fmap_2' fst _ (u, w)); [|done]. by apply live_elem in Hin as [? _].
Qed.

Lemma sorted_live q : sorted q → sorted (live q).
Proof.
  unfold sorted. induction 1 as [|e q Hs IH Hle]; cbn; [constructor|].
  destruct (is_live e); [|done]. constructor; [done|]. by apply Forall_live.
Qed.

Lemma queue_wf s lo q P : sched_queue s lo q P →
  sorted q ∧ (T_periodic, P) ∈ q ∧ Forall (λ e : entry, lo ≤ e.2 < P + HALF) q ∧ NoDup (q.*1).
Proof.
  intros (q0 & Hrep & <- & <-). pose proof (rep_lo _ _ _ Hrep) as Hlo. destruct Hrep as [Hl Ho].
  split; [apply sorted_live, Ho|]. split; [apply live_elem; split; [apply Ho|done]|]. split.
  - rewrite Forall_forall in Hlo. apply Forall_forall. intros e [He _]%live_elem.
    split; [by apply Hlo|by apply (o_limit _ _ Ho)].
  - apply NoDup_live. pose proof (l_nodup _ _ _ Hl) as Hnd. by apply NoDup_app in Hnd as (Hnd & _).
Qed.

Lemma room_fits s q0 P w : rep s q0 P → room w (first_time q0) (live q0) P → fits w q0 P.
Proof.
  intros Hrep (HP & Hlo & Hall). pose proof (rep_lo _ _ _ Hrep) as Hle.
  rewrite Forall_forall in Hall, Hle. split; [done|]. intros e He. specialize (Hle e He).
  destruct Hrep as [Hl Ho]. split; [|lia].
  destruct (decide (e.1 = T_deleted)) as [Hd|Hd].
  - pose proof (Hall (T_periodic, P)) as HPP. cbn in HPP. feed HPP.
    { apply live_elem. split; [apply Ho|done]. }
    assert (e.2 ≤ P); [|lia]. pose proof (l_deleted _ _ _ Hl) as Hdel.
    destruct q0 as [|f q0]; [by apply not_elem_of_nil in He|].
    apply elem_of_cons in He as [->|He].
    + pose proof (o_sorted _ _ Ho) as Hs. apply sorted_cons in Hs as [_ Hs].
      rewrite Forall_forall in Hs. pose proof (o_periodic _ _ Ho) as HPq.
      apply elem_of_cons in HPq as [HPq|HPq]; [by subst f|]. by apply (Hs (T_periodic, P)).
    + destruct Hdel. rewrite <- Hd. by apply (list_elem_of_fmap_2' fst _ e).
  - specialize (Hall e). feed Hall; [by apply live_elem|]. lia.
Qed.

Lemma links_write c q P t y :
  links c q P → user_timer t → t ∉ q.*1 → links (c <| timers := <[t := y]> (timers c) |>) q P.
Proof.
  intros Hl Hu Ht. destruct (user_special _ Hu) as (Hp & Hs & Hd).
  assert (t ∉ q.*1 ++ [T_sentinel]) as Ht'.
  { rewrite elem_of_app, list_elem_of_singleton. tauto. }
  destruct Hl as [Hc Hh Hnd Hw (x & Hx & Hxw) Hli Hdel [xd Hxd]]. split; cbn; try done.
  - by apply chain_frame.
  - intros u w Huw. destruct (Hw u w Huw) as (z & Hz & Hzw). exists z.
    rewrite lookup_insert_ne; [done|]. intros <-. apply Ht. by apply (list_elem_of_fmap_2' fst _ (t, w)).
  - exists x. by rewrite lookup_insert_ne.
  - exists xd. by rewrite lookup_insert_ne.
Qed.

#[export] Program Instance sched_service : TimerService := { tq := sched_queue }.
Next Obligation.
  intros s s' lo q P H1 H2 H3 (q0 & [Hl Ho] & Hq & Hlo). exists q0. split; [|done].
  split; [|done]. by eapply links_ext.
Qed.
Next Obligation. apply queue_wf. Qed.
Next Obligation.
  intros s lo q P t w (q0 & [Hl _] & <- & _) [Hin _]%live_elem. by apply (l_wake _ _ _ Hl).
Qed.
Next Obligation.
  intros s lo q P t y (q0 & [Hl Ho] & <- & <-) Hu Ht. exists q0. split; [|done]. split; [|done].
  apply (links_write (sched s)); [done|done|]. apply live_absent; [by apply user_special|done].
Qed.
Next Obligation.
  intros s lo q P t (q0 & Hrep & <- & <-) Hu. destruct (user_special _ Hu) as (Hp & Hs & Hd).
  eapply wp_use; [by apply wp_sched_del_timer|].
  intros [] s' (q' & Hrep' & Hl' & Hlo' & Hf & Hd' & Hi). split; [|done]. by exists q'.
Qed.
Next Obligation.
  intros s lo q P t x w (q0 & Hrep & <- & <-) Hu Ht Hx Hxw Hroom.
  destruct (user_special _ Hu) as (Hp & Hs & Hd).
  eapply wp_conseq; [eapply wp_sched_add_timer; try done|].
  - rewrite elem_of_app, list_elem_of_singleton. pose proof (live_absent t q0 Hd Ht). tauto.
  - by eapply room_fits.
  - intros [] s' (q' & Hrep' & Hl' & Hlo' & Hf & Hd' & Hi). split; [|done]. by exists q'.
Qed.
End sched_service.

(** ** Refinement *)

Section refinement.
Context {B : Board}.

(** C13: sched_add_timer inserts a timer that is not queued into the sorted abstract queue,
    after the timers due at the same time, and changes nothing but the list; the only shutdown
    is 'Timer too close', and only when the timer is earlier than the clock that was read. *)
Theorem sched_add_timer_refines s lo q P t x w :
  sched_queue s lo q P → user_timer t → t ∉ q.*1 →
  timers (sched s) !! t = Some x → t_waketime x = u32 w → room w lo q P →
  wp (sched_add_timer t) s
    (λ _ s', sched_queue s' (Z.min lo w) (ins t w q) P ∧ frame s s' ∧ same_user_data s s' ∧
       irq_off s' = irq_off s)
    (λ r _, r = "Timer too close" ∧ shutdown_status (sched s) = 0 ∧
       timer_is_before (u32 w) (u32 (clock_at (hw_reads s))) = true).
Proof. apply (tq_add (TimerService := sched_service)). Qed.

(** C14: sched_del_timer removes the timer from the abstract queue (a head is replaced by the
    deleted_timer placeholder, which is not visible in the abstract queue), is harmless for a
    timer that is not queued, and terminates without a shutdown. *)
Theorem sched_del_timer_refines s lo q P t :
  sched_queue s lo q P → user_timer t →
  wp (sched_del_timer t) s
    (λ _ s', sched_queue s' lo (without t q) P ∧ frame s s' ∧ same_user_data s s' ∧
       irq_off s' = irq_off s)
    no_shut.
Proof. apply (tq_del (TimerService := sched_service)). Qed.

Lemma boot_queue : sched_queue boot 0 [(T_periodic, 0)] 0.
Proof.
  exists [(T_periodic, 0)]. split; [|done]. split; split; cbn.
  - split; eexists; split; [done|done..].
  - done.
  - apply NoDup_cons. split; [by intros ?%list_elem_of_singleton|apply NoDup_singleton].
  - intros t w [= -> ->]%list_elem_of_singleton. by eexists.
  - by eexists.
  - by left.
  - by apply not_elem_of_nil.
  - by eexists.
  - repeat constructor.
  - intros a b ->%list_elem_of_singleton ->%list_elem_of_singleton. done.
  - intros a ->%list_elem_of_singleton. done.
  - by left.
Qed.

(** [sched_timer_reset] leaves only [periodic_timer] scheduled. *)
Theorem sched_timer_reset_refines s lo q P :
  sched_queue s lo q P →
  wp sched_timer_reset s
    (λ _ s', sched_queue s' P [(T_periodic, P)] P ∧ frame s s' ∧ same_user_data s s') no_shut.
Proof.
  intros (q0 & Hrep & _ & _). eapply wp_use; [by apply (wp_sched_timer_reset s q0)|].
  intros [] s' (Hrep' & Hf & Hd). split; [|done]. by exists [(T_deleted, P); (T_periodic, P)].
Qed.
End refinement.
