(* ===== verification/Vlq.v ===== *)
(** * Variable length quantities and the frame checksum

    [encode_int]/[parse_int] (identical in src/Klipper/src/command.c and
    klippy/chelper/msgblock.c) and [crc16_ccitt] (generic/crc16_ccitt.c and
    [msgblock_crc16_ccitt]).  A buffer is the list of its bytes and a pointer into it
    an index; reading past the end has no result. *)

From S2P Require Import Prelude.

(** ** Encoding *)

(** The bytes [encode_int] stores from [p] on; [f4] .. [f1] are its labels. *)
Definition encode_int (v : Z) : list Z :=
  let sv := i32 v in
  let f4 := [Z.land v 0x7f] in
  let f3 := Z.lor (Z.land (Z.shiftr v 7) 0x7f) 0x80 :: f4 in
  let f2 := Z.lor (Z.land (Z.shiftr v 14) 0x7f) 0x80 :: f3 in
  let f1 := Z.lor (Z.land (Z.shiftr v 21) 0x7f) 0x80 :: f2 in
  if (sv <? Z.shiftl 3 5) && (- Z.shiftl 1 5 <=? sv) then f4
  else if (sv <? Z.shiftl 3 12) && (- Z.shiftl 1 12 <=? sv) then f3
  else if (sv <? Z.shiftl 3 19) && (- Z.shiftl 1 19 <=? sv) then f2
  else if (sv <? Z.shiftl 3 26) && (- Z.shiftl 1 26 <=? sv) then f1
  else u8 (Z.lor (Z.shiftr v 28) 0x80) :: f1.

(** The [while (c & 0x80)] loop of [parse_int]. *)
Fixpoint parse_int_loop (fuel : nat) (buf : list Z) (p : nat) (c v : Z) : option (Z * nat) :=
  if has c 0x80 then
    match fuel with
    | O => None
    | S fuel =>
        c ← buf !! p;
        parse_int_loop fuel buf (S p) c (u32 (Z.lor (Z.shiftl v 7) (Z.land c 0x7f)))
    end
  else Some (v, p).

(** The value parsed at [p] and the position after it. *)
Definition parse_int (buf : list Z) (p : nat) : option (Z * nat) :=
  c ← buf !! p;
  let v := Z.land c 0x7f in
  let v := if Z.land c 0x60 =? 0x60 then Z.lor v (u32 (- 0x20)) else v in
  parse_int_loop (length buf) buf (S p) c v.

(** ** Checksum *)

(** One iteration of the loop of [crc16_ccitt]. *)
Definition crc16_step (crc data : Z) : Z :=
  let data := Z.lxor data (Z.land crc 0xff) in
  let data := u8 (Z.lxor data (Z.shiftl data 4)) in
  u16 (Z.lxor (Z.lxor (Z.lor (Z.shiftl data 8) (Z.shiftr crc 8)) (u8 (Z.shiftr data 4)))
              (Z.shiftl data 3)).
Definition crc16_ccitt (buf : list Z) (len : nat) : Z :=
  fold_left crc16_step (take len buf) 0xffff.

(** ** Arithmetic of the bit operations *)

Lemma land_127 x : Z.land x 127 = x mod 128.
Proof. exact (Z.land_ones x 7 ltac:(lia)). Qed.
Lemma land_255 x : Z.land x 255 = x mod 256.
Proof. exact (Z.land_ones x 8 ltac:(lia)). Qed.

Lemma lor_disjoint a b n : 0 ≤ n → 0 ≤ b < 2 ^ n → Z.lor (Z.shiftl a n) b = a * 2 ^ n + b.
Proof.
  intros Hn Hb. assert (Z.land (Z.shiftl a n) b = 0) as Hl.
  { apply Z.bits_inj'. intros i Hi. rewrite Z.land_spec, Z.bits_0.
    destruct (Z.ltb_spec i n); [by rewrite Z.shiftl_spec_low|].
    rewrite <- (Z.mod_small b (2 ^ n)) by done.
    by rewrite Z.mod_pow2_bits_high, andb_false_r. }
  pose proof (Z.add_lor_land (Z.shiftl a n) b) as H. rewrite Hl in H.
  rewrite Z.shiftl_mul_pow2 in H |- * by done. lia.
Qed.

Lemma lor_128 x : 0 ≤ x < 128 → Z.lor x 128 = x + 128.
Proof. intros H. rewrite Z.lor_comm, Z.add_comm. exact (lor_disjoint 1 x 7 ltac:(lia) H). Qed.

Definition bytes_below (n : nat) : list Z := map Z.of_nat (seq 0 n).
Lemma bytes_below_elem n x : 0 ≤ x < Z.of_nat n → x ∈ bytes_below n.
Proof.
  intros H. apply list_elem_of_In, in_map_iff. exists (Z.to_nat x).
  split; [lia|]. apply in_seq. lia.
Qed.

(** A decidable fact about all bytes, by evaluation. *)
Lemma all_below (P : Z → bool) n x :
  forallb P (bytes_below n) = true → 0 ≤ x < Z.of_nat n → P x = true.
Proof.
  intros H Hx. rewrite forallb_forall in H. apply H, list_elem_of_In. by apply bytes_below_elem.
Qed.

Lemma has_128 c : 0 ≤ c < 256 → has c 128 = (128 <=? c).
Proof.
  intros H. pose proof (all_below (λ c, Bool.eqb (has c 128) (128 <=? c)) 256 c
                          ltac:(by vm_compute) ltac:(lia)) as E. by apply Bool.eqb_prop in E.
Qed.

Lemma sign_test c : 0 ≤ c < 256 → (Z.land c 96 =? 96) = (96 <=? c mod 128).
Proof.
  intros H. pose proof (all_below (λ c, Bool.eqb (Z.land c 96 =? 96) (96 <=? c mod 128)) 256 c
                          ltac:(by vm_compute) ltac:(lia)) as E. by apply Bool.eqb_prop in E.
Qed.

Lemma sign_fill m : 96 ≤ m < 128 → Z.lor m (u32 (- 32)) = m - 128 + 4294967296.
Proof.
  intros H. pose proof (all_below (λ x, Z.lor (x + 96) (u32 (- 32)) =? x + 96 - 128 + 4294967296) 32 (m - 96)
                          ltac:(by vm_compute) ltac:(lia)) as E.
  rewrite Z.eqb_eq in E. by replace (m - 96 + 96) with m in E by lia.
Qed.

(** ** Decoding what was encoded *)

(** The first byte's contribution and the effect of one more byte. *)
Definition vlq_first (c : Z) : Z :=
  let m := c mod 128 in if 96 <=? m then m - 128 + 4294967296 else m.
Definition vlq_next (v c : Z) : Z := u32 (v * 128 + c mod 128).

Lemma parse_first c : 0 ≤ c < 256 →
  (if Z.land c 0x60 =? 0x60 then Z.lor (Z.land c 0x7f) (u32 (- 0x20)) else Z.land c 0x7f)
  = vlq_first c.
Proof.
  intros H. rewrite sign_test, land_127 by done. unfold vlq_first.
  destruct (Z.leb_spec 96 (c mod 128)); [|done]. apply sign_fill.
  pose proof (Z.mod_pos_bound c 128). lia.
Qed.

Lemma parse_more v c : u32 (Z.lor (Z.shiftl v 7) (Z.land c 0x7f)) = vlq_next v c.
Proof.
  unfold vlq_next. rewrite land_127. f_equal. apply lor_disjoint; [lia|].
  apply Z.mod_pos_bound. lia.
Qed.

Definition is_byte (b : Z) : Prop := 0 ≤ b < 256.

(** Continuation bytes followed by a final byte. *)
Lemma parse_loop_app pre cs d post c v fuel :
  Forall (λ b, 128 ≤ b < 256) cs → 0 ≤ d < 128 → 128 ≤ c < 256 → (length cs < fuel)%nat →
  parse_int_loop fuel (pre ++ cs ++ d :: post) (length pre) c v =
    Some (vlq_next (fold_left vlq_next cs v) d, (length pre + length cs + 1)%nat).
Proof.
  revert pre c v fuel. induction cs as [|c' cs IH]; intros pre c v [|fuel] Hcs Hd Hc Hf;
    cbn in Hf; try lia; cbn [parse_int_loop].
  - rewrite has_128 by lia. rewrite (proj2 (Z.leb_le 128 c)) by lia. cbn [app].
    rewrite list_lookup_middle by done. cbn [mbind option_bind]. rewrite parse_more.
    destruct fuel; cbn [parse_int_loop]; rewrite has_128, (proj2 (Z.leb_gt 128 d)) by lia;
      cbn; do 2 f_equal; lia.
  - apply Forall_cons in Hcs as [Hc' Hcs].
    rewrite has_128 by lia. rewrite (proj2 (Z.leb_le 128 c)) by lia. cbn [app].
    rewrite list_lookup_middle by done. cbn [mbind option_bind]. rewrite parse_more.
    specialize (IH (pre ++ [c']) c' (vlq_next v c') fuel Hcs Hd Hc' ltac:(lia)).
    rewrite <- app_assoc, length_app in IH. cbn in IH. rewrite Nat.add_1_r in IH. rewrite IH.
    cbn. do 2 f_equal. lia.
Qed.

Lemma parse_int_app pre c cs d post :
  Forall (λ b, 128 ≤ b < 256) (c :: cs) → 0 ≤ d < 128 →
  parse_int (pre ++ (c :: cs ++ [d]) ++ post) (length pre) =
    Some (vlq_next (fold_left vlq_next cs (vlq_first c)) d, (length pre + S (S (length cs)))%nat).
Proof.
  intros Hcs Hd. apply Forall_cons in Hcs as [Hc Hcs]. unfold parse_int.
  cbn [app]. rewrite list_lookup_middle by done. cbn [mbind option_bind].
  rewrite parse_first by lia.
  pose proof (parse_loop_app (pre ++ [c]) cs d post c (vlq_first c)
    (length (pre ++ c :: (cs ++ [d]) ++ post)) Hcs Hd Hc) as H.
  rewrite <- !app_assoc, !length_app in *. cbn in H |- *.
  rewrite Nat.add_1_r in H. rewrite H; [|rewrite !length_app; cbn; lia]. do 2 f_equal. lia.
Qed.

Lemma parse_int_one pre d post :
  0 ≤ d < 128 → parse_int (pre ++ [d] ++ post) (length pre) = Some (vlq_first d, S (length pre)).
Proof.
  intros Hd. unfold parse_int. cbn [app]. rewrite list_lookup_middle by done.
  cbn [mbind option_bind]. rewrite parse_first by lia.
  destruct (length _); cbn [parse_int_loop]; by rewrite has_128, (proj2 (Z.leb_gt 128 d)) by lia.
Qed.

(** [digit k v] is the 7-bit digit [encode_int] takes at bit [k]. *)
Definition digit (k v : Z) : Z := (v / 2 ^ k) mod 128.

Lemma digit_range k v : 0 ≤ digit k v < 128.
Proof. apply Z.mod_pos_bound. lia. Qed.

Lemma digit_bits k v : 0 ≤ k → Z.land (Z.shiftr v k) 0x7f = digit k v.
Proof. intros Hk. by rewrite land_127, Z.shiftr_div_pow2. Qed.

Lemma digit_cont k v : 0 ≤ k → Z.lor (Z.land (Z.shiftr v k) 0x7f) 0x80 = digit k v + 128.
Proof. intros Hk. rewrite digit_bits by done. apply lor_128, digit_range. Qed.

Lemma vlq_first_cont m : 0 ≤ m < 128 → vlq_first (m + 128) = vlq_first m.
Proof.
  intros H. unfold vlq_first. replace ((m + 128) mod 128) with (m mod 128); [done|].
  Z.to_euclidean_division_equations. lia.
Qed.
Lemma vlq_next_cont v m : vlq_next v (m + 128) = vlq_next v m.
Proof.
  unfold vlq_next. replace ((m + 128) mod 128) with (m mod 128); [done|].
  rewrite <- (Z.mul_1_l 128) at 2. by rewrite Z.mod_add.
Qed.

(** Digits do not see the sign. *)
Lemma digit_signed k v : 0 ≤ k ≤ 21 → digit k (i32 v) = digit k v.
Proof.
  intros Hk. unfold digit.
  assert (∃ b, i32 v = v + b * 2 ^ 32) as [b ->].
  { unfold i32. pose proof (Z.div_mod v (2 ^ 32) ltac:(lia)).
    destruct (_ <? _); [exists (- (v / 2 ^ 32))|exists (- (v / 2 ^ 32) - 1)]; lia. }
  replace (2 ^ 32) with (2 ^ (25 - k) * 128 * 2 ^ k).
  - rewrite (Z.mul_assoc b), Z.div_add by (pose proof (Z.pow_pos_nonneg 2 k); lia).
    by rewrite Z.mul_assoc, Z.mod_add.
  - change 128 with (2 ^ 7). rewrite <- !Z.pow_add_r by lia. f_equal. lia.
Qed.

(** The first digit carries the sign of a value that fits; each further digit refines
    the quotient. *)
Lemma vlq_first_digit k w :
  0 ≤ k → -(2 ^ (k + 5)) ≤ w < 3 * 2 ^ (k + 5) → u32 (vlq_first (digit k w)) = u32 (w / 2 ^ k).
Proof.
  intros Hk Hw. unfold vlq_first, digit. rewrite Z.mod_mod by lia.
  rewrite Z.pow_add_r in Hw by lia. change (2 ^ 5) with 32 in Hw.
  pose proof (Z.pow_pos_nonneg 2 k ltac:(lia) Hk) as Hp. revert Hw Hp.
  generalize (2 ^ k). intros p Hw Hp.
  assert (-32 ≤ w / p < 96) as Hq.
  { split; [apply Z.div_le_lower_bound; lia|apply Z.div_lt_upper_bound; lia]. }
  revert Hq. generalize (w / p). intros q Hq. zmod.
Qed.
Lemma vlq_step k w x :
  0 ≤ k → u32 x = u32 (w / 2 ^ (k + 7)) → vlq_next x (digit k w) = u32 (w / 2 ^ k).
Proof.
  intros Hk Hx. unfold vlq_next, digit.
  rewrite Z.pow_add_r, <- Z.div_div in Hx by lia. change (2 ^ 7) with 128 in Hx.
  revert Hx. generalize (w / 2 ^ k). intros y Hx. rewrite Z.mod_mod by lia. zmod.
Qed.
Lemma vlq_step_u32 k w x :
  0 ≤ k → u32 x = u32 (w / 2 ^ (k + 7)) → u32 (vlq_next x (digit k w)) = u32 (w / 2 ^ k).
Proof. intros. rewrite (vlq_step k w x) by done. apply u32_idemp. Qed.

(** The digits of a value in as many bytes as its size calls for. *)
Lemma encode_int_digits v :
  0 ≤ v < 2 ^ 32 →
  let w := i32 v in
  ∃ c cs, encode_int v = c :: cs ∧
   (cs = [] ∧ c = digit 0 w ∧ -32 ≤ w < 96 ∨
    cs = [digit 0 w] ∧ c = digit 7 w + 128 ∧ -4096 ≤ w < 12288 ∨
    cs = [digit 7 w + 128; digit 0 w] ∧ c = digit 14 w + 128 ∧ -524288 ≤ w < 1572864 ∨
    cs = [digit 14 w + 128; digit 7 w + 128; digit 0 w] ∧ c = digit 21 w + 128 ∧
      -67108864 ≤ w < 201326592 ∨
    cs = [digit 21 w + 128; digit 14 w + 128; digit 7 w + 128; digit 0 w] ∧ c = v / 2 ^ 28 + 128).
Proof.
  intros Hv w. unfold encode_int.
  rewrite !digit_cont by lia.
  replace (Z.land v 0x7f) with (digit 0 v) by (rewrite <- digit_bits by lia; by rewrite Z.shiftr_0_r).
  assert (u8 (Z.lor (Z.shiftr v 28) 128) = v / 2 ^ 28 + 128) as ->.
  { rewrite Z.shiftr_div_pow2, lor_128 by (change (2 ^ 28) with 268435456; zmod).
    change (2 ^ 28) with 268435456. zmod. }
  subst w. rewrite !digit_signed by lia.
  change (Z.shiftl 3 5) with 96. change (Z.shiftl 1 5) with 32.
  change (Z.shiftl 3 12) with 12288. change (Z.shiftl 1 12) with 4096.
  change (Z.shiftl 3 19) with 1572864. change (Z.shiftl 1 19) with 524288.
  change (Z.shiftl 3 26) with 201326592. change (Z.shiftl 1 26) with 67108864.
  repeat match goal with |- context [if ?b then _ else _] => destruct b eqn:? end;
    bool_to_prop; eexists _, _; (split; [reflexivity|]); naive_solver lia.
Qed.

Ltac vlq_digits :=
  repeat first
    [ rewrite vlq_next_cont
    | rewrite vlq_first_cont by apply digit_range
    | progress cbn [fold_left] ].

Ltac cont_bytes :=
  repeat constructor; repeat match goal with
  | |- context [digit ?k ?w] => pose proof (digit_range k w); revert dependent k
  end; intros; lia.

(** What [encode_int] writes, [parse_int] reads back, wherever it lies in a buffer. *)
Lemma parse_encode_int pre v post :
  0 ≤ v < 2 ^ 32 →
  parse_int (pre ++ encode_int v ++ post) (length pre) =
    Some (v, (length pre + length (encode_int v))%nat).
Proof.
  intros Hv. destruct (encode_int_digits v Hv) as (c & cs & -> & H). set (w := i32 v) in *.
  pose proof (digit_range 0 w) as D0. pose proof (digit_range 7 w) as D7.
  pose proof (digit_range 14 w) as D14. pose proof (digit_range 21 w) as D21.
  assert (u32 (w / 2 ^ 0) = v) as Hw.
  { change (2 ^ 0) with 1. rewrite Z.div_1_r. subst w. rewrite u32_i32. by apply u32_small. }
  destruct H as [(-> & -> & R)|[(-> & -> & R)|[(-> & -> & R)|[(-> & -> & R)|(-> & ->)]]]].
  - rewrite parse_int_one by done. cbn [length]. f_equal. f_equal; [|lia].
    pose proof (vlq_first_digit 0 w ltac:(lia) R) as E. rewrite Hw in E. rewrite <- E.
    rewrite u32_small; [done|]. unfold vlq_first. clear -D0. zmod.
  - change ([digit 0 w]) with ([] ++ [digit 0 w]). rewrite parse_int_app; [|cont_bytes|done].
    vlq_digits. cbn [length app]. f_equal. f_equal. rewrite <- Hw. apply vlq_step; [lia|].
    by apply (vlq_first_digit 7 w).
  - change ([digit 7 w + 128; digit 0 w]) with ([digit 7 w + 128] ++ [digit 0 w]).
    rewrite parse_int_app; [|cont_bytes|done].
    vlq_digits. cbn [length app]. f_equal. f_equal. rewrite <- Hw. apply vlq_step; [lia|].
    apply (vlq_step_u32 7 w); [lia|]. by apply (vlq_first_digit 14 w).
  - change ([digit 14 w + 128; digit 7 w + 128; digit 0 w])
      with ([digit 14 w + 128; digit 7 w + 128] ++ [digit 0 w]).
    rewrite parse_int_app; [|cont_bytes|done].
    vlq_digits. cbn [length app]. f_equal. f_equal. rewrite <- Hw. apply vlq_step; [lia|].
    apply (vlq_step_u32 7 w); [lia|]. apply (vlq_step_u32 14 w); [lia|].
    by apply (vlq_first_digit 21 w).
  - assert (0 ≤ v / 2 ^ 28 < 16) as R by (change (2 ^ 28) with 268435456; zmod).
    change ([digit 21 w + 128; digit 14 w + 128; digit 7 w + 128; digit 0 w])
      with ([digit 21 w + 128; digit 14 w + 128; digit 7 w + 128] ++ [digit 0 w]).
    rewrite parse_int_app; [|repeat constructor; lia|done].
    vlq_digits. cbn [length app]. f_equal. f_equal. subst w. rewrite !digit_signed by lia.
    assert (u32 (v / 2 ^ 0) = v) as Hv0.
    { change (2 ^ 0) with 1. rewrite Z.div_1_r. by apply u32_small. }
    etrans; [|exact Hv0]. apply (vlq_step 0 v); [lia|].
    apply (vlq_step_u32 7 v); [lia|]. apply (vlq_step_u32 14 v); [lia|].
    apply (vlq_step_u32 21 v); [lia|]. rewrite vlq_first_cont by lia.
    f_equal. unfold vlq_first. rewrite Z.mod_small by lia.
    by rewrite (proj2 (Z.leb_gt 96 (v / 2 ^ 28))) by lia.
Qed.

(** At most five bytes; only the last has the top bit clear. *)
Lemma encode_int_shape v :
  0 ≤ v < 2 ^ 32 →
  ∃ cs d, encode_int v = cs ++ [d] ∧ (length cs ≤ 4)%nat ∧ 0 ≤ d < 128 ∧
    Forall (λ b, 128 ≤ b < 256) cs.
Proof.
  intros Hv. destruct (encode_int_digits v Hv) as (c & cs & -> & H). set (w := i32 v) in *.
  pose proof (digit_range 0 w) as D0. pose proof (digit_range 7 w) as D7.
  pose proof (digit_range 14 w) as D14. pose proof (digit_range 21 w) as D21.
  assert (0 ≤ v / 2 ^ 28 < 16) as R by (change (2 ^ 28) with 268435456; zmod).
  destruct H as [(-> & -> & _)|[(-> & -> & _)|[(-> & -> & _)|[(-> & -> & _)|(-> & ->)]]]].
  - exists []. eexists. split; [done|]. split_and!; cbn; [lia..|]. repeat constructor; lia.
  - exists [digit 7 w + 128]. eexists. split; [done|]. split_and!; cbn; [lia..|]. repeat constructor; lia.
  - exists [digit 14 w + 128; digit 7 w + 128]. eexists. split; [done|]. split_and!; cbn; [lia..|]. repeat constructor; lia.
  - exists [digit 21 w + 128; digit 14 w + 128; digit 7 w + 128]. eexists. split; [done|].
    split_and!; cbn; [lia..|]. repeat constructor; lia.
  - exists [v / 2 ^ 28 + 128; digit 21 w + 128; digit 14 w + 128; digit 7 w + 128]. eexists.
    split; [done|]. split_and!; cbn; [lia..|]. repeat constructor; lia.
Qed.

(** Parsing stays within any buffer that has a byte below 0x80 at or after [p]. *)
Lemma parse_int_loop_in_bounds buf p n c v fuel d :
  Forall is_byte buf → is_byte c → (p ≤ n)%nat → buf !! n = Some d → d < 128 →
  (n - p < fuel)%nat → has c 128 = true →
  ∃ v' p', parse_int_loop fuel buf p c v = Some (v', p') ∧ (p < p' ≤ S n)%nat.
Proof.
  revert p c v. induction fuel as [|fuel IH]; intros p c v Hb Hc Hpn Hn Hd Hf Hh; [lia|].
  cbn [parse_int_loop]. rewrite Hh.
  destruct (lookup_lt_is_Some_2 buf p) as [c' Hc']; [apply lookup_lt_Some in Hn; lia|].
  rewrite Hc'. cbn [mbind option_bind].
  assert (is_byte c') as Hbc' by (by eapply Forall_lookup_1 in Hb).
  destruct (has c' 128) eqn:Hh'.
  - assert (p ≠ n) as Hne.
    { intros ->. rewrite Hn in Hc'. injection Hc' as ->. rewrite has_128 in Hh' by done. bool_to_prop. lia. }
    destruct (IH (S p) c' (u32 (Z.lor (Z.shiftl v 7) (Z.land c' 0x7f)))) as (v' & p' & -> & Hp);
      [done|done|lia|done|done|lia|done|]. exists v', p'. split; [done|lia].
  - eexists _, _. split; [by destruct fuel; cbn [parse_int_loop]; rewrite Hh'|lia].
Qed.

Lemma parse_int_in_bounds buf p n d :
  Forall is_byte buf → (p ≤ n)%nat → buf !! n = Some d → d < 128 →
  ∃ v p', parse_int buf p = Some (v, p') ∧ (p < p' ≤ S n)%nat.
Proof.
  intros Hb Hpn Hn Hd. unfold parse_int.
  destruct (lookup_lt_is_Some_2 buf p) as [c Hc]; [apply lookup_lt_Some in Hn; lia|].
  rewrite Hc. cbn [mbind option_bind].
  assert (is_byte c) as Hbc by (by eapply Forall_lookup_1 in Hb).
  destruct (has c 128) eqn:Hh.
  - destruct (decide (p = n)) as [->|Hne].
    + exfalso. rewrite Hn in Hc. injection Hc as ->. rewrite has_128 in Hh by done. bool_to_prop. lia.
    + edestruct (parse_int_loop_in_bounds buf (S p) n c) as (v' & p' & -> & Hp);
        [done|done|lia|done|done|apply lookup_lt_Some in Hn; lia|done|].
      exists v', p'. split; [done|lia].
  - eexists _, _. split; [by destruct (length buf); cbn [parse_int_loop]; rewrite Hh|lia].
Qed.
