(* ===== verification/Crc.v ===== *)
(** * The frame checksum is CRC-16/CCITT

    [crc16_ccitt] computes eight steps of the bit-serial checksum per byte with a
    handful of shifts; this file shows that it is the textbook bit-serial definition
    (reflected polynomial 0x8408, initial value 0xffff). *)

From Stdlib Require Import Btauto.
From S2P Require Import Prelude Vlq.

(** ** Reference: one shift of the register per message bit *)

Definition crc_bit (r : Z) : Z :=
  if Z.odd r then Z.lxor (Z.shiftr r 1) 0x8408 else Z.shiftr r 1.
Definition crc_shift (n : nat) (r : Z) : Z := Nat.iter n crc_bit r.
Definition crc_ref_step (crc data : Z) : Z := crc_shift 8 (Z.lxor crc data).
Definition crc_ref (bytes : list Z) : Z := fold_left crc_ref_step bytes 0xffff.

(** ** Linearity *)

Ltac zbits :=
  apply Z.bits_inj'; intros ?i ?Hi;
  repeat first [rewrite Z.lxor_spec | rewrite Z.land_spec | rewrite Z.lor_spec
               | rewrite Z.shiftr_spec by lia].

Lemma crc_bit_lxor a b : crc_bit (Z.lxor a b) = Z.lxor (crc_bit a) (crc_bit b).
Proof.
  unfold crc_bit. rewrite <- !Z.bit0_odd, Z.lxor_spec.
  destruct (Z.testbit a 0), (Z.testbit b 0); cbn [xorb]; zbits; btauto.
Qed.

Lemma crc_shift_S n r : crc_shift (S n) r = crc_bit (crc_shift n r).
Proof. done. Qed.

Lemma crc_shift_lxor n a b : crc_shift n (Z.lxor a b) = Z.lxor (crc_shift n a) (crc_shift n b).
Proof.
  induction n as [|n IH]; [done|]. by rewrite !crc_shift_S, IH, crc_bit_lxor.
Qed.

(** Eight shifts of a register whose low byte is clear just move it down. *)
Lemma crc_shift_clear n k h : 0 ≤ k → crc_shift n (Z.shiftl h (k + Z.of_nat n)) = Z.shiftl h k.
Proof.
  revert k. induction n as [|n IH]; intros k Hk.
  - cbn. by rewrite Z.add_0_r.
  - rewrite crc_shift_S. replace (k + Z.of_nat (S n)) with (k + 1 + Z.of_nat n) by lia.
    rewrite IH by lia. unfold crc_bit. rewrite <- Z.bit0_odd, Z.shiftl_spec_low by lia.
    rewrite Z.shiftr_shiftl_l by lia. f_equal. lia.
Qed.

(** ** The optimised step *)

(** Its contribution of the byte [b] that is shifted out. *)
Definition crc_fold (b : Z) : Z :=
  let d := u8 (Z.lxor b (Z.shiftl b 4)) in
  u16 (Z.lxor (Z.lxor (Z.shiftl d 8) (u8 (Z.shiftr d 4))) (Z.shiftl d 3)).

Lemma crc_fold_ref b : 0 ≤ b < 256 → crc_fold b = crc_shift 8 b.
Proof.
  intros Hb. pose proof (all_below (λ b, crc_fold b =? crc_shift 8 b) 256 b
                           ltac:(by vm_compute) Hb) as E. by apply Z.eqb_eq in E.
Qed.

Lemma u16_land x : u16 x = Z.land x 65535.
Proof. symmetry. exact (Z.land_ones x 16 ltac:(lia)). Qed.

Lemma lor_lxor_high d h : 0 ≤ h < 256 → Z.lor (Z.shiftl d 8) h = Z.lxor (Z.shiftl d 8) h.
Proof.
  intros Hh. apply Z.bits_inj'. intros i Hi. rewrite Z.lor_spec, Z.lxor_spec.
  destruct (Z.ltb_spec i 8).
  - rewrite Z.shiftl_spec_low by lia. by destruct (Z.testbit h i).
  - assert (Z.testbit h i = false) as ->.
    { rewrite <- (Z.mod_small h (2 ^ 8)) by done. apply Z.mod_pow2_bits_high. lia. }
    by destruct (Z.testbit _ i).
Qed.

Lemma crc16_step_fold crc data :
  0 ≤ crc < 65536 → 0 ≤ data < 256 →
  crc16_step crc data = Z.lxor (Z.shiftr crc 8) (crc_fold (Z.land (Z.lxor crc data) 255)).
Proof.
  intros Hc Hd. unfold crc16_step, crc_fold.
  assert (Z.lxor data (Z.land crc 0xff) = Z.land (Z.lxor crc data) 255) as ->.
  { assert (data = Z.land data 255) as Hd' by (by rewrite land_255, Z.mod_small).
    rewrite Hd' at 1. zbits. btauto. }
  set (d := u8 (Z.lxor _ (Z.shiftl _ 4))).
  assert (0 ≤ Z.shiftr crc 8 < 256) as Hh.
  { rewrite Z.shiftr_div_pow2 by lia. change (2 ^ 8) with 256. zmod. }
  rewrite lor_lxor_high by done. rewrite !u16_land.
  assert (Z.shiftr crc 8 = Z.land (Z.shiftr crc 8) 65535) as Hs.
  { rewrite <- u16_land. symmetry. apply u16_small. lia. }
  rewrite Hs at 2. generalize (Z.shiftl d 8), (u8 (Z.shiftr d 4)), (Z.shiftl d 3), (Z.shiftr crc 8).
  intros x y z h. zbits. btauto.
Qed.

Lemma split_low_byte x : 0 ≤ x → x = Z.lxor (Z.shiftl (Z.shiftr x 8) 8) (Z.land x 255).
Proof.
  intros Hx. apply Z.bits_inj'. intros i Hi. rewrite Z.lxor_spec, Z.land_spec.
  change 255 with (Z.ones 8). destruct (Z.ltb_spec i 8).
  - rewrite Z.shiftl_spec_low, Z.ones_spec_low by lia. by rewrite andb_true_r.
  - rewrite Z.shiftl_spec_high, Z.shiftr_spec, Z.ones_spec_high by lia.
    rewrite andb_false_r, xorb_false_r. f_equal. lia.
Qed.

Lemma crc16_step_ref crc data :
  0 ≤ crc < 65536 → 0 ≤ data < 256 → crc16_step crc data = crc_ref_step crc data.
Proof.
  intros Hc Hd. rewrite crc16_step_fold by done. unfold crc_ref_step.
  assert (0 ≤ Z.lxor crc data) as Hx by (apply Z.lxor_nonneg; lia).
  rewrite (split_low_byte (Z.lxor crc data)) at 2 by done.
  rewrite crc_shift_lxor. rewrite (crc_shift_clear 8 0) by lia. rewrite Z.shiftl_0_r.
  assert (Z.shiftr (Z.lxor crc data) 8 = Z.shiftr crc 8) as ->.
  { rewrite Z.shiftr_lxor. assert (Z.shiftr data 8 = 0) as ->.
    { rewrite Z.shiftr_div_pow2 by lia. by apply Z.div_small. }
    apply Z.lxor_0_r. }
  rewrite crc_fold_ref; [done|]. rewrite land_255. apply Z.mod_pos_bound. lia.
Qed.

Lemma crc16_step_range crc data : 0 ≤ crc16_step crc data < 65536.
Proof. apply u16_range. Qed.

(** C37: crc16_ccitt, which folds each byte with nibble shifts, computes the bitwise CRC-16 of
    the reflected polynomial 0x8408 with initial value 0xffff, for every byte string and
    length. *)
Theorem crc16_ccitt_ref buf len :
  Forall is_byte buf → crc16_ccitt buf len = crc_ref (take len buf).
Proof.
  intros Hb. unfold crc16_ccitt, crc_ref.
  assert (Forall is_byte (take len buf)) as Hb' by by apply Forall_take.
  revert Hb'. assert (0 ≤ 65535 < 65536) as Hr by lia. revert Hr. generalize 65535.
  induction (take len buf) as [|d l IH]; intros r Hr Hl; [done|].
  apply Forall_cons in Hl as [Hd Hl]. cbn [fold_left]. rewrite <- crc16_step_ref by done.
  apply IH; [apply crc16_step_range|done].
Qed.

Lemma crc16_range buf len : 0 ≤ crc16_ccitt buf len < 65536.
Proof.
  unfold crc16_ccitt. destruct (take len buf) as [|d l] using rev_ind; [cbn; lia|].
  rewrite fold_left_app. apply crc16_step_range.
Qed.
