(* ===== verification/Command.v ===== *)
(** * command.c: parsing incoming commands and encoding outgoing messages

    A message block is the list of its bytes.  The tables that the build generates
    (command_index and the encoders) are arguments. *)

From S2P Require Import Prelude State Runtime Sched Vlq Crc.

(** ** command.h *)

Definition MESSAGE_MIN : Z := 5.
Definition MESSAGE_MAX : Z := 64.
Definition MESSAGE_HEADER_SIZE : Z := 2.
Definition MESSAGE_TRAILER_SIZE : Z := 3.
Definition MESSAGE_POS_LEN : Z := 0.
Definition MESSAGE_POS_SEQ : Z := 1.
Definition MESSAGE_TRAILER_CRC : Z := 3.
Definition MESSAGE_TRAILER_SYNC : Z := 1.
Definition MESSAGE_PAYLOAD_MAX : Z := MESSAGE_MAX - MESSAGE_MIN.
Definition MESSAGE_SEQ_MASK : Z := 0x0f.
Definition MESSAGE_DEST : Z := 0x10.
Definition MESSAGE_SYNC : Z := 0x7e.
Definition HF_IN_SHUTDOWN : Z := 1.

Inductive param_type :=
| PT_uint32 | PT_int32 | PT_uint16 | PT_int16 | PT_byte
| PT_string | PT_progmem_buffer | PT_buffer.

(** struct command_encoder and struct command_parser; the parameter count is the length
    of the list of types. *)
Record command_encoder := mk_encoder
  { ce_msg_id : Z; ce_max_size : Z; ce_param_types : list param_type }.
Record command_parser := mk_parser
  { cp_flags : Z; cp_param_types : list param_type; cp_func : list Z → MC unit }.

(** [buf[i]]; undefined past the end. *)
Definition byte_at (buf : list Z) (i : Z) : MC Z := deref (buf !! Z.to_nat i).

(** ** Parsing *)

(** [command_parsef]: [p] and [maxend] are positions in [buf].  A buffer parameter is
    passed to the handler as its length and its position ([command_encode_ptr]). *)
Fixpoint command_parsef (buf : list Z) (p maxend : Z) (types : list param_type) : MC (Z * list Z) :=
  match types with
  | [] => mret (p, [])
  | t :: types =>
      if maxend <? p then shutdown "Command parser error"
      else
        match t with
        | PT_uint32 | PT_int32 | PT_uint16 | PT_int16 | PT_byte =>
            let! '(v, p) := deref (parse_int buf (Z.to_nat p)) in
            let! '(p, args) := command_parsef buf (Z.of_nat p) maxend types in
            mret (p, v :: args)
        | PT_buffer =>
            let! len := byte_at buf p in
            let p := p + 1 in
            if maxend <? p + len then shutdown "Command parser error"
            else
              let! '(p', args) := command_parsef buf (p + len) maxend types in
              mret (p', len :: p :: args)
        | _ => shutdown "Command parser error"
        end
  end.

(** ** Encoding *)

(** Variadic arguments: a promoted integer or a pointer to bytes. *)
Inductive va_arg := VA_int (z : Z) | VA_ptr (data : list Z).

(** The integer read for a parameter of type [t]; [sizeof_int] is 2 on AVR, 4 elsewhere. *)
Definition va_uint32 (sizeof_int : Z) (t : param_type) (z : Z) : Z :=
  match t with
  | PT_int16 => if sizeof_int <? 4 then u32 (i16 z) else u32 z
  | PT_uint16 | PT_byte => if sizeof_int <? 4 then u16 z else u32 z
  | _ => u32 z
  end.

(** The bytes of a C string that fit: [while ( *s && p<maxend )]. *)
Fixpoint copy_string (room : nat) (s : list Z) : list Z :=
  match room, s with
  | S room, c :: s => if c =? 0 then [] else c :: copy_string room s
  | _, _ => []
  end.

(** The parameter loop of [command_encodef]: [p] is the position of the next byte; the
    result is the bytes written from there. *)
Fixpoint encode_params (sizeof_int maxend p : Z) (types : list param_type) (args : list va_arg)
    : MC (list Z) :=
  match types with
  | [] => mret []
  | t :: types =>
      if maxend <? p then shutdown "Message encode error"
      else
        match t, args with
        | (PT_uint32 | PT_int32 | PT_uint16 | PT_int16 | PT_byte), VA_int z :: args =>
            let out := encode_int (va_uint32 sizeof_int t z) in
            let! rest := encode_params sizeof_int maxend (p + Z.of_nat (length out)) types args in
            mret (out ++ rest)
        | PT_string, VA_ptr s :: args =>
            let body := copy_string (Z.to_nat (maxend - (p + 1))) s in
            let n := Z.of_nat (length body) in
            let! rest := encode_params sizeof_int maxend (p + 1 + n) types args in
            mret (u8 n :: body ++ rest)
        | (PT_progmem_buffer | PT_buffer), VA_int z :: VA_ptr s :: args =>
            let v := u32 z in
            let v := if maxend - p <? v then maxend - p else v in
            if Z.of_nat (length s) <? v then undef
            else
              let! rest := encode_params sizeof_int maxend (p + 1 + v) types args in
              mret (u8 v :: take (Z.to_nat v) s ++ rest)
        | _, _ => undef
        end
  end.

(** [command_encodef]: the message length and the payload stored after the header. *)
Definition command_encodef (sizeof_int : Z) (ce : command_encoder) (args : list va_arg)
    : MC (Z * list Z) :=
  let max_size := ce_max_size ce in
  if max_size <=? MESSAGE_MIN then mret (max_size, [])
  else
    let p := MESSAGE_HEADER_SIZE in
    let maxend := p + (max_size - MESSAGE_MIN) in
    let! params := encode_params sizeof_int maxend (p + 1) (ce_param_types ce) args in
    let payload := u8 (ce_msg_id ce) :: params in
    mret (p + Z.of_nat (length payload) + MESSAGE_TRAILER_SIZE, payload).

(** [command_add_frame]: the whole block around a payload of [msglen - MESSAGE_MIN] bytes. *)
Definition add_frame (seq msglen : Z) (payload : list Z) : list Z :=
  let head := [u8 msglen; u8 seq] ++ payload in
  let crc := crc16_ccitt head (Z.to_nat (msglen - MESSAGE_TRAILER_SIZE)) in
  head ++ [u8 (Z.shiftr crc 8); u8 crc; MESSAGE_SYNC].
Definition command_add_frame (msglen : Z) (payload : list Z) : MC (list Z) :=
  gets (λ s, add_frame (next_sequence (cmd s)) msglen payload).

Definition command_encode_and_frame (sizeof_int : Z) (ce : command_encoder) (args : list va_arg)
    : MC (Z * list Z) :=
  let! '(msglen, payload) := command_encodef sizeof_int ce args in
  let! block := command_add_frame msglen payload in
  mret (msglen, block).

(** ** Message blocks *)

Definition CF_NEED_SYNC : Z := 1.
Definition CF_NEED_VALID : Z := 2.

(** The empty message [encode_acknak]. *)
Definition encode_acknak : string := "".

Definition set_sync (f : Z → Z) : MC unit := modify (upd cmd (upd sync_state f)).

Definition memchr (buf : list Z) (c : Z) : option nat := fst <$> list_find (λ b, b = c) buf.

(** Label [nak]. *)
Definition fb_nak (pop_count : Z) : MC (Z * Z) :=
  command_sendf encode_acknak [];;;
  mret (-1, pop_count).
(** Label [need_sync]. *)
Definition fb_need_sync (buf : list Z) : MC (Z * Z) :=
  let! pop_count :=
    (match memchr buf MESSAGE_SYNC with
     | Some n =>
         set_sync (λ x, Z.land x (Z.lnot CF_NEED_SYNC));;;
         mret (Z.of_nat n + 1)
     | None => mret (Z.of_nat (length buf))
     end) in
  let! s := get in
  if has (sync_state (cmd s)) CF_NEED_VALID then mret (-1, pop_count)
  else
    set_sync (λ x, Z.lor x CF_NEED_VALID);;;
    fb_nak pop_count.
(** Label [error]. *)
Definition fb_error (buf : list Z) : MC (Z * Z) :=
  let! b0 := byte_at buf 0 in
  if b0 =? MESSAGE_SYNC then mret (-1, 1)
  else
    set_sync (λ x, Z.lor x CF_NEED_SYNC);;;
    fb_need_sync buf.

(** [command_find_block] on the [buf_len] bytes [buf]: its return value and *pop_count. *)
Definition command_find_block (buf : list Z) : MC (Z * Z) :=
  let buf_len := Z.of_nat (length buf) in
  let! s := get in
  if nz buf_len && has (sync_state (cmd s)) CF_NEED_SYNC then fb_need_sync buf
  else if buf_len <? MESSAGE_MIN then mret (0, 0)
  else
    let! msglen := byte_at buf MESSAGE_POS_LEN in
    if (msglen <? MESSAGE_MIN) || (MESSAGE_MAX <? msglen) then fb_error buf
    else
      let! msgseq := byte_at buf MESSAGE_POS_SEQ in
      if negb (Z.land msgseq (Z.lnot MESSAGE_SEQ_MASK) =? MESSAGE_DEST) then fb_error buf
      else if buf_len <? msglen then mret (0, 0)
      else
        let! sync := byte_at buf (msglen - MESSAGE_TRAILER_SYNC) in
        if negb (sync =? MESSAGE_SYNC) then fb_error buf
        else
          let! hi := byte_at buf (msglen - MESSAGE_TRAILER_CRC) in
          let! lo := byte_at buf (msglen - MESSAGE_TRAILER_CRC + 1) in
          let msgcrc := u16 (Z.lor (Z.shiftl hi 8) lo) in
          let crc := crc16_ccitt buf (Z.to_nat (msglen - MESSAGE_TRAILER_SIZE)) in
          if negb (crc =? msgcrc) then fb_error buf
          else
            set_sync (λ x, Z.land x (Z.lnot CF_NEED_VALID));;;
            if negb (msgseq =? next_sequence (cmd s)) then fb_nak msglen
            else
              modify (upd cmd (λ c, c <| next_sequence :=
                Z.lor (Z.land (msgseq + 1) MESSAGE_SEQ_MASK) MESSAGE_DEST |>));;;
              mret (1, msglen).

(** ** Dispatch *)

Definition command_lookup_parser (command_index : list command_parser) (cmdid : Z)
    : MC command_parser :=
  if (cmdid =? 0) || (Z.of_nat (length command_index) <=? cmdid) then shutdown "Invalid command"
  else deref (command_index !! Z.to_nat cmdid).

Section dispatch.
Context {B : Board}.

(** The [while (p < msgend)] loop of [command_dispatch]. *)
Fixpoint dispatch_loop (fuel : nat) (command_index : list command_parser) (buf : list Z)
    (p msgend : Z) : MC unit :=
  if p <? msgend then
    match fuel with
    | O => diverge
    | S fuel =>
        let! cmdid := byte_at buf p in
        let! cp := command_lookup_parser command_index cmdid in
        let! '(p, args) := command_parsef buf (p + 1) msgend (cp_param_types cp) in
        let! sd := sched_is_shutdown in
        if sd && negb (has (cp_flags cp) HF_IN_SHUTDOWN) then
          sched_report_shutdown;;;
          dispatch_loop fuel command_index buf p msgend
        else
          cp_func cp args;;;
          dispatch_loop fuel command_index buf p msgend
    end
  else mret tt.
(** The block stays in memory while its commands run: a handler can read and overwrite
    the bytes of its own buffer parameters there. *)
Definition command_dispatch (command_index : list command_parser) (buf : list Z) (msglen : Z)
    : MC unit :=
  modify (λ s, s <| rx_block := buf |>);;;
  dispatch_loop (length buf) command_index buf MESSAGE_HEADER_SIZE (msglen - MESSAGE_TRAILER_SIZE).

Definition command_send_ack : MC unit := command_sendf encode_acknak [].

Definition command_find_and_dispatch (command_index : list command_parser) (buf : list Z)
    : MC (Z * Z) :=
  let! '(ret, pop_count) := command_find_block buf in
  (when 0 <? ret do
     (command_dispatch command_index buf pop_count;;;
      command_send_ack));;;
  mret (ret, pop_count).
End dispatch.
