(* ===== verification/CommandSpec.v ===== *)
(** * Framing and parsing of command.c *)

From S2P Require Import Prelude State Runtime Sched Vlq Crc Command.

(** ** Blocks *)

Lemma crc_bytes c : 0 ≤ c < 65536 → u16 (Z.lor (Z.shiftl (u8 (Z.shiftr c 8)) 8) (u8 c)) = c.
Proof.
  intros Hc. rewrite lor_disjoint by (lia || apply u8_range).
  rewrite Z.shiftr_div_pow2 by lia. change (2 ^ 8) with 256. zmod.
Qed.

(** A sequence byte: the low four bits count, the high bits are MESSAGE_DEST. *)
Definition seq_ok (seq : Z) : Prop := 16 ≤ seq < 32.

Lemma seq_test b : is_byte b → (Z.land b (Z.lnot MESSAGE_SEQ_MASK) =? MESSAGE_DEST) = true ↔ seq_ok b.
Proof.
  intros Hb. pose proof (all_below
    (λ b, Bool.eqb (Z.land b (Z.lnot MESSAGE_SEQ_MASK) =? MESSAGE_DEST) ((16 <=? b) && (b <? 32)))
    256 b ltac:(by vm_compute) Hb) as E.
  apply Bool.eqb_prop in E. rewrite E. unfold seq_ok. rewrite andb_true_iff, Z.leb_le, Z.ltb_lt. done.
Qed.

(** What the sequence number becomes after a block is accepted. *)
Definition next_seq (seq : Z) : Z := Z.lor (Z.land (seq + 1) MESSAGE_SEQ_MASK) MESSAGE_DEST.

Lemma next_seq_spec seq : seq_ok seq → next_seq seq = 16 + (seq - 16 + 1) mod 16.
Proof.
  intros H. pose proof (all_below (λ k, next_seq (16 + k) =? 16 + (k + 1) mod 16) 16 (seq - 16)
    ltac:(by vm_compute) ltac:(unfold seq_ok in H; lia)) as E.
  apply Z.eqb_eq in E. rewrite <- E. f_equal. lia.
Qed.

Lemma next_seq_ok seq : seq_ok seq → seq_ok (next_seq seq).
Proof.
  intros H. rewrite next_seq_spec by done. unfold seq_ok.
  pose proof (Z.mod_pos_bound (seq - 16 + 1) 16). lia.
Qed.

Section frames.
Context (payload : list Z) (seq msglen : Z).
Hypothesis Hmsg : msglen = Z.of_nat (length payload) + 5.
Hypothesis Hlen : (length payload ≤ 59)%nat.
Hypothesis Hseq : seq_ok seq.
Abbreviation frame := (add_frame seq msglen payload).

Lemma frame_eq : frame = [msglen; seq] ++ payload ++
  [u8 (Z.shiftr (crc16_ccitt ([msglen; seq] ++ payload) (2 + length payload)) 8);
   u8 (crc16_ccitt ([msglen; seq] ++ payload) (2 + length payload)); MESSAGE_SYNC].
Proof.
  unfold add_frame. unfold seq_ok in Hseq.
  rewrite (u8_small msglen), (u8_small seq) by lia.
  replace (Z.to_nat (msglen - MESSAGE_TRAILER_SIZE)) with (2 + length payload)%nat
    by (unfold MESSAGE_TRAILER_SIZE; lia).
  done.
Qed.

Lemma frame_length : length frame = (length payload + 5)%nat.
Proof. rewrite frame_eq. cbn. rewrite length_app. cbn. lia. Qed.

Lemma frame_len_byte rest : (frame ++ rest) !! 0%nat = Some msglen.
Proof. by rewrite frame_eq. Qed.
Lemma frame_seq_byte rest : (frame ++ rest) !! 1%nat = Some seq.
Proof. by rewrite frame_eq. Qed.

Lemma frame_trailer i x rest :
  [u8 (Z.shiftr (crc16_ccitt ([msglen; seq] ++ payload) (2 + length payload)) 8);
   u8 (crc16_ccitt ([msglen; seq] ++ payload) (2 + length payload)); MESSAGE_SYNC] !! i = Some x →
  (frame ++ rest) !! (2 + length payload + i)%nat = Some x.
Proof.
  intros Hx. rewrite frame_eq, <- app_assoc, lookup_app_r by (cbn; lia).
  rewrite <- app_assoc, lookup_app_r by (cbn; lia).
  replace (2 + length payload + i - length [msglen; seq] - length payload)%nat with i by (cbn; lia).
  by apply lookup_app_l_Some.
Qed.

Lemma frame_crc rest :
  crc16_ccitt (frame ++ rest) (2 + length payload) =
  crc16_ccitt ([msglen; seq] ++ payload) (2 + length payload).
Proof.
  unfold crc16_ccitt. f_equal. rewrite frame_eq, (app_assoc [msglen; seq]), <- app_assoc.
  rewrite !take_app_le by (cbn; lia). done.
Qed.
End frames.

Section find_block.
Context {B : Board}.

(** The checks of [command_find_block] pass for a block at the start of the input, whatever
    follows it; what is left is the test of the sequence number. *)
Lemma find_block_frame seq payload rest s :
  (length payload ≤ 59)%nat → seq_ok seq → has (sync_state (cmd s)) CF_NEED_SYNC = false →
  let n := Z.of_nat (length payload) + 5 in
  command_find_block (add_frame seq n payload ++ rest) s =
    (set_sync (λ x, Z.land x (Z.lnot CF_NEED_VALID));;;
     if negb (seq =? next_sequence (cmd s)) then fb_nak n
     else
       modify (upd cmd (λ c, c <| next_sequence := next_seq seq |>));;;
       mret (1, n)) s.
Proof.
  intros Hlen Hseq Hsync n. assert (n = Z.of_nat (length payload) + 5) as Hn by done.
  clearbody n. set (buf := add_frame seq n payload ++ rest).
  assert (Z.of_nat (length buf) = n + Z.of_nat (length rest)) as Hbl.
  { unfold buf. rewrite length_app, frame_length by done. lia. }
  unfold command_find_block, byte_at. rewrite (bind_ret_eq get _ s s s) by done.
  rewrite Hsync, andb_false_r. unfold MESSAGE_MIN, MESSAGE_MAX.
  rewrite (proj2 (Z.ltb_ge _ 5)) by lia.
  rewrite (bind_ret_eq _ _ s n s); [|unfold deref, buf; by rewrite frame_len_byte].
  rewrite (proj2 (Z.ltb_ge n 5)), (proj2 (Z.ltb_ge 64 n)) by lia. cbn [orb].
  rewrite (bind_ret_eq _ _ s seq s); [|unfold deref, buf; by rewrite frame_seq_byte].
  rewrite (proj2 (seq_test seq ltac:(unfold is_byte, seq_ok in *; lia)) Hseq). cbn [negb].
  rewrite (proj2 (Z.ltb_ge _ n)) by lia.
  set (crc := crc16_ccitt ([n; seq] ++ payload) (2 + length payload)).
  unfold MESSAGE_TRAILER_SYNC, MESSAGE_TRAILER_CRC, MESSAGE_TRAILER_SIZE.
  rewrite (bind_ret_eq _ _ s MESSAGE_SYNC s);
    [|unfold deref, buf; replace (Z.to_nat (n - 1)) with (2 + length payload + 2)%nat by lia;
      by rewrite (frame_trailer payload seq n Hn Hlen Hseq 2 MESSAGE_SYNC)].
  rewrite Z.eqb_refl. cbn [negb].
  rewrite (bind_ret_eq _ _ s (u8 (Z.shiftr crc 8)) s);
    [|unfold deref, buf; replace (Z.to_nat (n - 3)) with (2 + length payload + 0)%nat by lia;
      by rewrite (frame_trailer payload seq n Hn Hlen Hseq 0 (u8 (Z.shiftr crc 8)))].
  rewrite (bind_ret_eq _ _ s (u8 crc) s);
    [|unfold deref, buf; replace (Z.to_nat (n - 3 + 1)) with (2 + length payload + 1)%nat by lia;
      by rewrite (frame_trailer payload seq n Hn Hlen Hseq 1 (u8 crc))].
  rewrite crc_bytes by apply crc16_range.
  replace (Z.to_nat (n - 3)) with (2 + length payload)%nat by lia.
  unfold buf. rewrite frame_crc by done. fold crc. rewrite !Z.eqb_refl. done.
Qed.

(** A block with the expected number is accepted. *)
Lemma find_block_accepts payload rest s :
  (length payload ≤ 59)%nat → seq_ok (next_sequence (cmd s)) →
  has (sync_state (cmd s)) CF_NEED_SYNC = false →
  let n := Z.of_nat (length payload) + 5 in
  command_find_block (add_frame (next_sequence (cmd s)) n payload ++ rest) s =
    Ret (1, n) (s <| cmd := (cmd s)
                   <| next_sequence := next_seq (next_sequence (cmd s)) |>
                   <| sync_state := Z.land (sync_state (cmd s)) (Z.lnot CF_NEED_VALID) |> |>).
Proof.
  intros Hlen Hseq Hsync n. subst n. rewrite find_block_frame by done. rewrite Z.eqb_refl. cbn [negb].
  by destruct s as [? ? [] ? ? ? ? ? ? ? ?].
Qed.

(** Any other block is answered by a nak. *)
Lemma find_block_naks seq payload rest s :
  (length payload ≤ 59)%nat → seq_ok seq → seq ≠ next_sequence (cmd s) →
  has (sync_state (cmd s)) CF_NEED_SYNC = false →
  let n := Z.of_nat (length payload) + 5 in
  wp (command_find_block (add_frame seq n payload ++ rest)) s
    (λ r s', r = (-1, n) ∧ next_sequence (cmd s') = next_sequence (cmd s) ∧
       sync_state (cmd s') = Z.land (sync_state (cmd s)) (Z.lnot CF_NEED_VALID)) no_shut.
Proof.
  intros Hlen Hseq Hne Hsync n. unfold wp. subst n. rewrite find_block_frame by done.
  rewrite (proj2 (Z.eqb_neq _ _)) by done. cbn [negb].
  enough (wp (set_sync (λ x, Z.land x (Z.lnot CF_NEED_VALID));;; fb_nak (Z.of_nat (length payload) + 5)) s
    (λ r s', r = (-1, Z.of_nat (length payload) + 5) ∧ next_sequence (cmd s') = next_sequence (cmd s) ∧
       sync_state (cmd s') = Z.land (sync_state (cmd s)) (Z.lnot CF_NEED_VALID)) no_shut) as H by exact H.
  wstep. apply wp_modify. unfold fb_nak. do 3 wstep. split; [done|]. by destruct (nz _).
Qed.

Lemma wp_byte_at buf i b s (Q : Z → mcu → Prop) E :
  buf !! Z.to_nat i = Some b → Q b s → wp (byte_at buf i) s Q E.
Proof. intros Hb HQ. unfold byte_at, deref, wp. by rewrite Hb. Qed.

(** What a block found in [buf] is: the bytes of a frame with the expected number. *)
Definition is_frame (seq pop : Z) (buf : list Z) : Prop :=
  ∃ payload, pop = Z.of_nat (length payload) + 5 ∧ (length payload ≤ 59)%nat ∧
    take (Z.to_nat pop) buf = add_frame seq pop payload.

(** The result of [command_find_block] on [buf]. *)
Definition found (s : mcu) (buf : list Z) (r : Z * Z) (s' : mcu) : Prop :=
  let '(ret, pop) := r in
  0 ≤ pop ≤ Z.of_nat (length buf) ∧
  (ret = 0 ∧ pop = 0 ∧ s' = s ∧ Z.of_nat (length buf) < MESSAGE_MAX ∨
   ret = -1 ∧ 0 < pop ∧ next_sequence (cmd s') = next_sequence (cmd s) ∨
   ret = 1 ∧ is_frame (next_sequence (cmd s)) pop buf ∧
     next_sequence (cmd s') = next_seq (next_sequence (cmd s)) ∧ trace s' = trace s).

Lemma wp_fb_nak s s0 buf pop E :
  0 < pop ≤ Z.of_nat (length buf) → next_sequence (cmd s) = next_sequence (cmd s0) →
  wp (fb_nak pop) s (found s0 buf) E.
Proof.
  intros Hp Hn. unfold fb_nak. do 3 wstep. split; [lia|]. right. left. split; [done|].
  split; [lia|]. by destruct (nz _).
Qed.

Lemma memchr_bound buf c n : memchr buf c = Some n → (n < length buf)%nat.
Proof.
  unfold memchr. intros ([n1 b] & H & ->)%fmap_Some. apply list_find_Some in H as (H & _).
  by apply lookup_lt_Some in H.
Qed.

Lemma wp_fb_need_sync s s0 buf E :
  (0 < length buf)%nat → next_sequence (cmd s) = next_sequence (cmd s0) →
  wp (fb_need_sync buf) s (found s0 buf) E.
Proof.
  intros Hb Hn. unfold fb_need_sync. wstep.
  eapply (wp_conseq _ _ (λ pop s1, 0 < pop ≤ Z.of_nat (length buf) ∧
                                   next_sequence (cmd s1) = next_sequence (cmd s0))).
  { destruct (memchr buf MESSAGE_SYNC) as [n|] eqn:Hm.
    - wstep. apply wp_modify. wstep. apply memchr_bound in Hm. split; [lia|done].
    - wstep. split; [lia|done]. }
  intros pop s1 [Hp Hn1]. do 2 wstep. destruct (has _ _).
  - wstep. split; [lia|]. right. left. split; [done|]. split; [lia|done].
  - wstep. apply wp_modify. by apply wp_fb_nak.
Qed.

Lemma wp_fb_error s buf E :
  (0 < length buf)%nat → wp (fb_error buf) s (found s buf) E.
Proof.
  intros Hb. destruct buf as [|b0 buf]; cbn in Hb; [lia|]. unfold fb_error. wstep.
  eapply wp_byte_at; [done|]. destruct (b0 =? MESSAGE_SYNC).
  - wstep. split; [cbn; lia|]. right. left. by split_and!.
  - wstep. apply wp_modify. by apply wp_fb_need_sync; [cbn; lia|].
Qed.

(** A buffer whose length, number, checksum and sync bytes are right starts with a frame. *)
Lemma frame_of_checks buf n seq hi lo :
  Forall is_byte buf → buf !! 0%nat = Some n → buf !! 1%nat = Some seq → 5 ≤ n ≤ 64 →
  n ≤ Z.of_nat (length buf) → buf !! Z.to_nat (n - 1) = Some MESSAGE_SYNC →
  buf !! Z.to_nat (n - 3) = Some hi → buf !! Z.to_nat (n - 3 + 1) = Some lo →
  crc16_ccitt buf (Z.to_nat (n - 3)) = u16 (Z.lor (Z.shiftl hi 8) lo) →
  is_frame seq n buf.
Proof.
  intros Hb H0 H1 Hn Hl Hsync Hhi Hlo Hcrc.
  destruct buf as [|b0 [|b1 buf]]; cbn in H0, H1; try done. injection H0 as ->. injection H1 as ->.
  assert (is_byte n ∧ is_byte seq ∧ is_byte hi ∧ is_byte lo) as (Hbn & Hbs & Hbh & Hbl).
  { pose proof (Forall_lookup_1 _ _ _ _ Hb Hhi). pose proof (Forall_lookup_1 _ _ _ _ Hb Hlo).
    apply Forall_cons in Hb as [? [? ?]%Forall_cons]. done. }
  set (k := Z.to_nat (n - 5)).
  exists (take k buf). rewrite length_take. cbn in Hl. split; [lia|]. split; [lia|].
  replace (Z.to_nat (n - 3)) with (S (S k)) in Hhi, Hcrc by lia.
  replace (Z.to_nat (n - 3 + 1)) with (S (S (S k))) in Hlo by lia.
  replace (Z.to_nat (n - 1)) with (S (S (S (S k)))) in Hsync by lia.
  replace (Z.to_nat n) with (S (S (S (S (S k))))) by lia. cbn in Hhi, Hlo, Hsync.
  unfold add_frame. rewrite (u8_small n), (u8_small seq) by done.
  replace (Z.to_nat (n - MESSAGE_TRAILER_SIZE)) with (S (S k)) by (unfold MESSAGE_TRAILER_SIZE; lia).
  assert (crc16_ccitt ([n; seq] ++ take k buf) (S (S k)) = u16 (Z.lor (Z.shiftl hi 8) lo)) as ->.
  { rewrite <- Hcrc. unfold crc16_ccitt. cbn [take app]. by rewrite take_take, Nat.min_id. }
  rewrite lor_disjoint by (lia || done). unfold is_byte in *.
  assert (u8 (Z.shiftr (u16 (hi * 2 ^ 8 + lo)) 8) = hi ∧ u8 (u16 (hi * 2 ^ 8 + lo)) = lo) as [-> ->].
  { rewrite Z.shiftr_div_pow2 by lia. change (2 ^ 8) with 256. split; zmod. }
  cbn [app take]. do 2 f_equal.
  rewrite (take_S_r buf (S (S k)) MESSAGE_SYNC), (take_S_r buf (S k) lo), (take_S_r buf k hi) by done.
  by rewrite <- !app_assoc.
Qed.

Lemma wp_find_block buf s :
  Forall is_byte buf → wp (command_find_block buf) s (found s buf) no_shut.
Proof.
  intros Hb. unfold command_find_block. do 2 wstep.
  destruct (nz (Z.of_nat (length buf)) && _) eqn:Hsync.
  { apply wp_fb_need_sync; [|done]. unfold nz in Hsync. bool_to_prop. lia. }
  unfold MESSAGE_MIN, MESSAGE_MAX, MESSAGE_POS_LEN, MESSAGE_POS_SEQ, MESSAGE_TRAILER_SYNC,
    MESSAGE_TRAILER_CRC, MESSAGE_TRAILER_SIZE.
  destruct (Z.ltb_spec (Z.of_nat (length buf)) 5) as [|Hmin].
  { wstep. split; [lia|]. left. split_and!; try done. unfold MESSAGE_MAX. lia. }
  assert (∀ i, 0 ≤ i < Z.of_nat (length buf) → ∃ b, buf !! Z.to_nat i = Some b ∧ is_byte b) as Hget.
  { intros i Hi. destruct (lookup_lt_is_Some_2 buf (Z.to_nat i)) as [b Hi']; [lia|].
    exists b. split; [done|]. by eapply Forall_lookup_1 in Hb. }
  destruct (Hget 0) as (n & Hn & Hbn); [lia|]. wstep. eapply wp_byte_at; [exact Hn|].
  destruct (_ || _) eqn:Hr; [apply wp_fb_error; lia|]. bool_to_prop.
  destruct (Hget 1) as (seq & Hs & Hbs); [lia|]. wstep. eapply wp_byte_at; [exact Hs|].
  destruct (Z.land seq _ =? _) eqn:Hq; cbn [negb]; [|apply wp_fb_error; lia].
  destruct (Z.ltb_spec (Z.of_nat (length buf)) n) as [|Hfull]; [wstep; split; [lia|left; split_and!; try done; unfold MESSAGE_MAX; lia]|].
  destruct (Hget (n - 1)) as (sy & Hsy & _); [lia|]. wstep. eapply wp_byte_at; [exact Hsy|].
  destruct (Z.eqb_spec sy MESSAGE_SYNC) as [->|]; cbn [negb]; [|apply wp_fb_error; lia].
  destruct (Hget (n - 3)) as (hi & Hhi & _); [lia|]. wstep. eapply wp_byte_at; [exact Hhi|].
  destruct (Hget (n - 3 + 1)) as (lo & Hlo & _); [lia|]. wstep. eapply wp_byte_at; [exact Hlo|].
  destruct (Z.eqb_spec (crc16_ccitt buf (Z.to_nat (n - 3))) (u16 (Z.lor (Z.shiftl hi 8) lo)))
    as [Hcrc|]; cbn [negb]; [|apply wp_fb_error; lia].
  wstep. apply wp_modify. destruct (Z.eqb_spec seq (next_sequence (cmd s))) as [Heq|]; cbn [negb].
  - wstep. apply wp_modify. wstep. split; [lia|]. right. right. split; [done|].
    split; [|by rewrite Heq]. rewrite <- Heq. by eapply frame_of_checks.
  - by apply wp_fb_nak; [lia|].
Qed.

(** C35: On arbitrary input bytes command_find_block stays within the buffer and returns: it
    needs more data, with fewer than 64 bytes only, and changes nothing, discards at least one
    byte without changing the sequence number, or returns a block that really is a correctly
    framed block (length, sync byte, checksum) with the expected sequence number. *)
Theorem find_block_sound buf s :
  Forall is_byte buf → wp (command_find_block buf) s (found s buf) no_shut.
Proof. apply wp_find_block. Qed.
End find_block.

(** ** Dispatch reads only the block it was given *)

Section dispatch_safe.
Context {B : Board}.

(** The words that a parameter list puts into [args]: one for an integer, and for a
    buffer its length and position, inside a block of [n] bytes. *)
Fixpoint args_ok (n : Z) (types : list param_type) (args : list Z) : Prop :=
  match types, args with
  | [], [] => True
  | PT_buffer :: types, len :: p :: args =>
      0 ≤ len < 256 ∧ 0 ≤ p ∧ p + len ≤ n ∧ args_ok n types args
  | (PT_uint32 | PT_int32 | PT_uint16 | PT_int16 | PT_byte) :: types, _ :: args => args_ok n types args
  | _, _ => False
  end.

(** [n] is the position of a byte below 0x80, such as the final sync byte. *)
Lemma parse_param_safe buf n d maxend types p s :
  (∀ q, 0 ≤ q → wp (command_parsef buf q maxend types) s
     (λ r s', s' = s ∧ q ≤ r.1 ∧ args_ok (Z.of_nat n) types r.2)
     (λ r s', r = "Command parser error" ∧ s' = s <| irq_off := true |>)) →
  Forall is_byte buf → buf !! n = Some d → d < 128 → 0 ≤ p ≤ Z.of_nat n →
  wp (let! '(v, p) := deref (parse_int buf (Z.to_nat p)) in
      let! '(p, args) := command_parsef buf (Z.of_nat p) maxend types in
      mret (p, v :: args)) s
    (λ r s', s' = s ∧ p ≤ r.1 ∧ ∃ v args, r.2 = v :: args ∧ args_ok (Z.of_nat n) types args)
    (λ r s', r = "Command parser error" ∧ s' = s <| irq_off := true |>).
Proof.
  intros IH Hb Hn Hd Hp. destruct (parse_int_in_bounds buf (Z.to_nat p) n d) as (v & p' & -> & Hp');
    [done|lia|done|done|]. wstep. wstep. wstep.
  eapply wp_conseq; [apply IH; lia|]. intros [p2 args] s' (-> & Hp2 & Ha). wstep. cbn in *.
  split; [done|]. split; [lia|]. eauto.
Qed.

Lemma command_parsef_safe buf n d maxend types p s :
  Forall is_byte buf → buf !! n = Some d → d < 128 → 0 ≤ maxend ≤ Z.of_nat n → 0 ≤ p →
  wp (command_parsef buf p maxend types) s
    (λ r s', s' = s ∧ p ≤ r.1 ∧ args_ok (Z.of_nat n) types r.2)
    (λ r s', r = "Command parser error" ∧ s' = s <| irq_off := true |>).
Proof.
  intros Hb Hn Hd Hm. revert p. induction types as [|t types IH]; intros p Hp; cbn [command_parsef].
  { wstep. cbn. split; [done|]. split; [lia|done]. }
  destruct (Z.ltb_spec maxend p) as [|Hle]; [by wstep|].
  pose proof (parse_param_safe buf n d maxend types p s IH Hb Hn Hd ltac:(lia)) as Hint.
  destruct t; try by wstep.
  1-5: eapply wp_conseq; [exact Hint|];
    intros [p2 l] s' (-> & Hp2 & v & args & Hl & Ha); cbn in Hl, Hp2 |- *; by subst l.
  destruct (lookup_lt_is_Some_2 buf (Z.to_nat p)) as [len Hlen]; [apply lookup_lt_Some in Hn; lia|].
  assert (is_byte len) as Hbl by (by eapply Forall_lookup_1 in Hb). unfold is_byte in Hbl.
  wstep. eapply wp_byte_at; [exact Hlen|]. destruct (Z.ltb_spec maxend (p + 1 + len)); [by wstep|].
  wstep. eapply wp_conseq; [apply IH; lia|]. intros [p2 args] s' (-> & Hp2 & Ha). wstep. cbn in *.
  split; [done|]. split; [lia|]. repeat split; [lia..|done].
Qed.

(** The handlers of [command_index] keep [I] and are defined on every argument list that
    fits their parameters and the block being dispatched. *)
Definition handlers_ok (I J : mcu → Prop) (command_index : list command_parser) : Prop :=
  ∀ cp, cp ∈ command_index → ∀ args s, I s →
  args_ok (Z.of_nat (length (rx_block s))) (cp_param_types cp) args →
  wp (cp_func cp args) s (λ _ s', I s' ∧ length (rx_block s') = length (rx_block s)) (λ _ s', J s').

(** [I] looks neither at what was sent nor at the block being dispatched. *)
Definition stable (I : mcu → Prop) : Prop :=
  ∀ s c tr b, I s → I (s <| cmd; in_sendf := c |> <| trace := tr |>) ∧ I (s <| rx_block := b |>).

Lemma args_ok_mono n n' types args : n ≤ n' → args_ok n types args → args_ok n' types args.
Proof.
  intros Hn. revert args. induction types as [|t types IH]; intros args; [by destruct args|].
  destruct t, args as [|v [|w args]]; cbn; try done; try apply IH.
  intros (? & ? & ? & ?). repeat split; [lia..|by apply IH].
Qed.

Lemma dispatch_loop_safe I J command_index buf n d msgend fuel p s :
  handlers_ok I J command_index → stable I → (∀ s, I s → J (s <| irq_off := true |>)) →
  Forall is_byte buf → buf !! n = Some d → d < 128 → 0 ≤ msgend ≤ Z.of_nat n → 0 ≤ p →
  msgend - p ≤ Z.of_nat fuel → I s → length (rx_block s) = length buf →
  wp (dispatch_loop fuel command_index buf p msgend) s (λ _ s', I s') (λ _ s', J s').
Proof.
  intros Hh Hst HJ Hb Hn Hd Hm. revert p s.
  induction fuel as [|fuel IH]; intros p s Hp Hf HI Hrx; cbn [dispatch_loop];
    destruct (Z.ltb_spec p msgend) as [Hlt|]; try (by wstep); [lia|].
  pose proof (lookup_lt_Some _ _ _ Hn) as Hnl.
  destruct (lookup_lt_is_Some_2 buf (Z.to_nat p)) as [id Hid]; [lia|].
  assert (is_byte id) as Hbid by (by eapply Forall_lookup_1 in Hb). unfold is_byte in Hbid.
  wstep. eapply wp_byte_at; [exact Hid|]. wstep. unfold command_lookup_parser.
  destruct (_ || _) eqn:Hlk; [wstep; by apply HJ|]. bool_to_prop.
  destruct (lookup_lt_is_Some_2 command_index (Z.to_nat id)) as [cp Hcp]; [lia|].
  rewrite Hcp. wstep. wstep.
  eapply wp_mono; [apply (command_parsef_safe buf n d msgend _ (p + 1)); done || lia| |].
  2: { intros r s' [_ ->]. by apply HJ. }
  intros [p' args] s' (-> & Hp' & Ha). cbn in Hp', Ha. do 2 wstep.
  destruct (nz _ && _).
  - wstep. unfold sched_report_shutdown. do 3 wstep. apply IH; [lia|lia| |].
    + destruct (nz _); [done|]. by apply (Hst s 0 _ []).
    + by destruct (nz _).
  - wstep. eapply wp_mono; [apply (Hh cp); [by eapply list_elem_of_lookup_2|done|]| |].
    + eapply args_ok_mono; [|exact Ha]. lia.
    + intros [] s' [HI' Hrx']. apply IH; [lia|lia|done|congruence].
    + done.
Qed.

Lemma wp_command_dispatch I J command_index buf seq msglen s :
  handlers_ok I J command_index → stable I → (∀ s, I s → J (s <| irq_off := true |>)) →
  Forall is_byte buf → is_frame seq msglen buf → msglen ≤ Z.of_nat (length buf) → I s →
  wp (command_dispatch command_index buf msglen) s (λ _ s', I s') (λ _ s', J s').
Proof.
  intros Hh Hst HJ Hb (payload & Hm & Hpl & Hfr) Hlen HI.
  assert (buf !! Z.to_nat (msglen - 1) = Some MESSAGE_SYNC) as Hsync.
  { rewrite <- (take_drop (Z.to_nat msglen) buf), Hfr. unfold add_frame.
    rewrite lookup_app_l by (rewrite !length_app; cbn; lia).
    rewrite lookup_app_r by (rewrite !length_app; cbn; lia). rewrite length_app. cbn [length].
    by replace (Z.to_nat (msglen - 1) - (2 + length payload))%nat with 2%nat by lia. }
  unfold command_dispatch, MESSAGE_TRAILER_SIZE, MESSAGE_HEADER_SIZE. wstep. wstep.
  eapply (dispatch_loop_safe I J _ _ (Z.to_nat (msglen - 1)) MESSAGE_SYNC);
    try done; try (unfold MESSAGE_SYNC; lia). by apply (Hst s 0 []).
Qed.

(** C36: command_dispatch on any correctly framed block of arbitrary bytes reads only inside
    the block, hands every handler arguments of its declared parameter types with buffers
    inside the block, and preserves any invariant that all handlers preserve; the only other
    exit is a shutdown. *)
Theorem command_dispatch_safe I J command_index buf seq msglen s :
  handlers_ok I J command_index → stable I → (∀ s, I s → J (s <| irq_off := true |>)) →
  Forall is_byte buf → is_frame seq msglen buf → msglen ≤ Z.of_nat (length buf) → I s →
  wp (command_dispatch command_index buf msglen) s (λ _ s', I s') (λ _ s', J s').
Proof. apply wp_command_dispatch. Qed.
End dispatch_safe.
