(* ===== verification/Basecmd.v ===== *)
(** * basecmd.c: memory, move queue, object ids, configuration, statistics

    Memory from [alloc_chunk] is zero filled; the typed stores of [mcu] receive the
    zeroed struct when a caller gives the chunk its type. *)

From S2P Require Import Prelude State Runtime Sched.

Section basecmd.
Context {B : Board}.

Definition upd_base (f : base_state → base_state) : MC unit := modify (upd base f).

(** ** Low level allocation *)

Definition alloc_init : MC unit :=
  upd_base (λ b, b <| alloc_end := ALIGN dynmem_start alignof_ptr |>).

Definition alloc_chunk (size : Z) : MC addr :=
  let! s := get in
  (when dynmem_end <? alloc_end (base s) + size do shutdown "alloc_chunk failed");;;
  let data := alloc_end (base s) in
  upd_base (λ b, b <| alloc_end := data + ALIGN size alignof_ptr |>);;;
  mret data.

(** The loop of [alloc_chunks]: the final [(can_alloc, p)]. *)
Fixpoint count_chunks (fuel : nat) (size p : Z) (can_alloc : Z) : Z * Z :=
  match fuel with
  | O => (can_alloc, p)
  | S fuel =>
      if p + size <=? dynmem_end then count_chunks fuel size (p + size) (can_alloc + 1)
      else (can_alloc, p)
  end.
Definition alloc_chunks (size : Z) (count : nat) : MC (addr * Z) :=
  let! s := get in
  let '(can_alloc, p) := count_chunks count size (alloc_end (base s)) 0 in
  (when can_alloc =? 0 do shutdown "alloc_chunks failed");;;
  let! data := alloc_chunk (p - alloc_end (base s)) in
  mret (data, u16 can_alloc).

(** ** Move queue *)

Definition is_finalized : MC bool := gets (λ s, nz (move_count (base s))).

Definition move_free (m : addr) : MC unit :=
  let! s := get in
  upd_node m (λ n, n <| n_next := move_free_list (base s) |>);;;
  upd_base (λ b, b <| move_free_list := m |>).

Definition move_alloc : MC addr :=
  let! flag := irq_save in
  let! s := get in
  let mf := move_free_list (base s) in
  if mf =? 0 then shutdown "Move queue overflow"
  else
    let! n := get_node mf in
    upd_base (λ b, b <| move_free_list := n_next n |>);;;
    irq_restore flag;;;
    mret mf.

(** A queue head is a field of the caller's object: it is passed in and handed back. *)
Definition move_queue_empty (mh : move_queue_head) : bool := mq_first mh =? 0.
Definition move_queue_first (mh : move_queue_head) : addr := mq_first mh.
Definition move_queue_push (m : addr) (mh : move_queue_head) : MC (Z * move_queue_head) :=
  upd_node m (λ n, n <| n_next := 0 |>);;;
  if nz (mq_first mh) then
    upd_node (mq_last mh) (λ n, n <| n_next := m |>);;;
    mret (0, mh <| mq_last := m |>)
  else mret (1, mk_mq m m).
Definition move_queue_pop (mh : move_queue_head) : MC (addr * move_queue_head) :=
  let mn := mq_first mh in
  let! n := get_node mn in
  mret (mn, mh <| mq_first := n_next n |>).
Definition move_queue_clear (mh : move_queue_head) : move_queue_head := mh <| mq_first := 0 |>.
Definition move_queue_setup (size : Z) : MC move_queue_head :=
  let! fin := is_finalized in
  (when (255 <? size) || fin do shutdown "Invalid move request size");;;
  let! s := get in
  (when move_item_size (base s) <? size do upd_base (λ b, b <| move_item_size := u8 size |>));;;
  mret (mk_mq 0 0).

(** Nodes [i], [i+1], .. of the pool each point at the following one. *)
Fixpoint link_moves (n : nat) (i : Z) : MC unit :=
  match n with
  | O => mret tt
  | S n =>
      let! s := get in
      let b := base s in
      upd_node (move_list b + i * move_item_size b)
        (λ x, x <| n_next := move_list b + (i + 1) * move_item_size b |>);;;
      link_moves n (i + 1)
  end.
Definition move_reset : MC unit :=
  let! s := get in
  let b := base s in
  if move_count b =? 0 then mret tt
  else
    link_moves (Z.to_nat (move_count b - 1)) 0;;;
    upd_node (move_list b + (move_count b - 1) * move_item_size b) (λ x, x <| n_next := 0 |>);;;
    upd_base (λ b, b <| move_free_list := move_list b |>).

(** The zeroed pool seen as move nodes. *)
Fixpoint pool_nodes (n : nat) (p size : Z) : gmap addr move_node → gmap addr move_node :=
  match n with
  | O => id
  | S n => λ m, pool_nodes n (p + size) size (<[p := mk_move_node 0 MD_raw]> m)
  end.
Definition move_finalize : MC unit :=
  let! fin := is_finalized in
  (when fin do shutdown "Already finalized");;;
  let! _ := move_queue_setup sizeof_move_node in
  let! s := get in
  let! '(data, avail) := alloc_chunks (move_item_size (base s)) 1024 in
  modify (upd moves (pool_nodes (Z.to_nat avail) data (move_item_size (base s))));;;
  upd_base (λ b, b <| move_count := avail |> <| move_list := data |>);;;
  move_reset.

(** ** Object ids *)

Definition oid_lookup (oid : Z) (type : otype) : MC addr :=
  let oid := u8 oid in
  let! s := get in
  if oid_count (base s) <=? oid then shutdown "Invalid oid type"
  else
    let! e := deref (oids (base s) ≫= (.!! Z.to_nat oid)) in
    if decide (o_type e = Some type) then mret (o_data e) else shutdown "Invalid oid type".

Definition upd_oid (oid : Z) (f : oid_s → oid_s) : MC unit :=
  upd_base (λ b, b <| oids := alter f (Z.to_nat oid) <$> oids b |>).

(** The structs with a [struct timer] member. *)
Definition has_timer (type : otype) : bool :=
  match type with
  | command_config_spi_t | command_config_spi_shutdown_t | command_config_neopixel_t
  | command_config_i2c_t | command_config_hd44780_t | command_config_st7920_t
  | command_config_sdio_t => false
  | _ => true
  end.

(** The typed contents of a fresh chunk: the object and the timers and signal in it. *)
Definition zero_chunk (type : otype) (n : nat) (data : addr) : MC unit :=
  modify (upd objects <[data := zero_object type n]>);;;
  (when has_timer type do
     modify (upd sched (upd timers <[T_member data M_time := zero_timer]>)));;;
  (when bool_decide (type = command_config_trsync_t) do
     modify (upd sched (upd timers <[T_member data M_expire_time := zero_timer]>)));;;
  (when bool_decide (type = command_config_stepper_t) do
     modify (upd signals <[data := mk_signal 0 None]>)).

(** [n] is the length of the struct's flexible array member, 0 for most. *)
Definition oid_alloc (oid : Z) (type : otype) (size : Z) (n : nat) : MC addr :=
  let oid := u8 oid in
  let size := u16 size in
  let! s := get in
  if oid_count (base s) <=? oid then shutdown "Can't assign oid"
  else
    let! e := deref (oids (base s) ≫= (.!! Z.to_nat oid)) in
    let! fin := is_finalized in
    if (match o_type e with Some _ => true | None => false end) || fin
    then shutdown "Can't assign oid"
    else
      upd_oid oid (λ e, e <| o_type := Some type |>);;;
      let! data := alloc_chunk size in
      zero_chunk type n data;;;
      upd_oid oid (λ e, e <| o_data := data |>);;;
      mret data.

(** The loop of [oid_next]; [None] is the NULL that ends an iteration. *)
Fixpoint oid_next_loop (fuel : nat) (oid : Z) (type : otype) : MC (option (Z * addr)) :=
  match fuel with
  | O => diverge
  | S fuel =>
      let oid := u8 (oid + 1) in
      let! s := get in
      if oid_count (base s) <=? oid then mret None
      else
        let! e := deref (oids (base s) ≫= (.!! Z.to_nat oid)) in
        if decide (o_type e = Some type) then mret (Some (oid, o_data e))
        else oid_next_loop fuel oid type
  end.
Definition oid_next (i : Z) (type : otype) : MC (option (Z * addr)) := oid_next_loop 257 i type.

(** [foreach_oid(pos, data, oidtype)] with body [body]; a NULL object ends it as well. *)
Fixpoint foreach_loop (fuel : nat) (pos : Z) (type : otype) (body : Z → addr → MC unit) : MC unit :=
  match fuel with
  | O => diverge
  | S fuel =>
      let! r := oid_next pos type in
      match r with
      | None => mret tt
      | Some (pos, data) =>
          if data =? 0 then mret tt
          else
            body pos data;;;
            foreach_loop fuel pos type body
      end
  end.
Definition foreach_oid (type : otype) (body : Z → addr → MC unit) : MC unit :=
  foreach_loop 257 (u8 (-1)) type body.

(** [args[i]] *)
Definition arg (args : list Z) (i : nat) : MC Z := deref (args !! i).

Definition command_allocate_oids (args : list Z) : MC unit :=
  let! s := get in
  (when bool_decide (is_Some (oids (base s))) do shutdown "oids already allocated");;;
  let! a0 := arg args 0 in
  let count := u8 a0 in
  let! _ := alloc_chunk (sizeof_oid_s * count) in
  upd_base (λ b, b <| oids := Some (replicate (Z.to_nat count) (mk_oid None 0)) |>);;;
  upd_base (λ b, b <| oid_count := count |>).

(** ** Configuration *)

Definition command_get_config (args : list Z) : MC unit :=
  let! fin := is_finalized in
  let! sd := sched_is_shutdown in
  let! s := get in
  command_sendf "config is_config=%c crc=%u is_shutdown=%c move_count=%hu"
    [A_int (b2z fin); A_int (config_crc (base s)); A_int (b2z sd); A_int (move_count (base s))].

Definition command_finalize_config (args : list Z) : MC unit :=
  move_finalize;;;
  let! a0 := arg args 0 in
  upd_base (λ b, b <| config_crc := u32 a0 |>).

Definition config_reset (args : list Z) : MC unit :=
  let! sd := sched_is_shutdown in
  (when negb sd do shutdown "config_reset only available when shutdown");;;
  irq_disable;;;
  upd_base (λ b, b <| config_crc := 0 |> <| oid_count := 0 |> <| oids := None |>
                   <| move_free_list := 0 |> <| move_list := 0 |>
                   <| move_count := 0 |> <| move_item_size := 0 |>);;;
  alloc_init;;;
  sched_timer_reset;;;
  sched_clear_shutdown;;;
  irq_enable.

(** ** Timing and load statistics *)

Definition command_get_clock (args : list Z) : MC unit :=
  let! t := timer_read_time in
  command_sendf "clock clock=%u" [A_int t].

Definition command_get_uptime (args : list Z) : MC unit :=
  let! cur := timer_read_time in
  let! s := get in
  let high := u32 (stats_send_time_high (base s) + b2z (cur <? stats_send_time (base s))) in
  command_sendf "uptime high=%u clock=%u" [A_int high; A_int cur].

Definition SUMSQ_BASE : Z := 256.

(** DIV_ROUND_UP on uint32_t operands. *)
Definition DIV_ROUND_UP32 (n d : Z) : Z := u32 (u32 (n + d) - 1) / d.

(** The next value of [sumsq]. *)
Definition next_sumsq (sumsq diff : Z) : Z :=
  let nextsumsq :=
    if diff <=? 0xffff then u32 (sumsq + DIV_ROUND_UP32 (u32 (diff * diff)) SUMSQ_BASE)
    else if diff <=? 0xfffff then u32 (sumsq + u32 (DIV_ROUND_UP32 diff SUMSQ_BASE * diff))
    else 0xffffffff in
  if nextsumsq <? sumsq then 0xffffffff else nextsumsq.

Definition stats_update (start cur : Z) : MC unit :=
  let diff := u32 (cur - start) in
  upd_base (λ b, b <| stats_count := u32 (stats_count b + 1) |>
                   <| stats_sum := u32 (stats_sum b + diff) |>
                   <| stats_sumsq := next_sumsq (stats_sumsq b) diff |>);;;
  let! s := get in
  let b := base s in
  if timer_is_before cur (u32 (stats_send_time b + timer_from_us 5000000)) then mret tt
  else
    command_sendf "stats count=%u sum=%u sumsq=%u"
      [A_int (stats_count b); A_int (stats_sum b); A_int (stats_sumsq b)];;;
    (when cur <? stats_send_time b do
       upd_base (λ b, b <| stats_send_time_high := u32 (stats_send_time_high b + 1) |>));;;
    upd_base (λ b, b <| stats_send_time := cur |> <| stats_count := 0 |>
                     <| stats_sum := 0 |> <| stats_sumsq := 0 |>).

(** ** Misc commands *)

Definition command_emergency_stop (args : list Z) : MC unit := shutdown "Command request".
Definition command_clear_shutdown (args : list Z) : MC unit := sched_clear_shutdown.

Definition command_identify (args : list Z) : MC unit :=
  let! offset := arg args 0 in
  let! a1 := arg args 1 in
  let offset := u32 offset in
  let count := u8 a1 in
  let isize := Z.of_nat (length command_identify_data) in
  let count := if isize <=? offset then 0
               else if isize <? u32 (offset + count) then u8 (isize - offset) else count in
  command_sendf "identify_response offset=%u data=%.*s"
    [A_int offset; A_buf (take (Z.to_nat count) (drop (Z.to_nat offset) command_identify_data))].
End basecmd.

Ltac wstep_base :=
  lazymatch goal with
  | |- wp (upd_base _) _ _ _ => apply wp_modify
  | |- wp is_finalized _ _ _ => apply wp_gets
  | |- wp (arg _ _) _ _ _ => apply wp_deref
  end.
Ltac wstep_hook ::= first [wstep_runtime | wstep_sched | wstep_base].

(** * debugcmds.c: memory inspection and round trip tests

    [debug_write] is left out: a store to an arbitrary address has no meaning for the typed
    stores of the machine. *)

Section debugcmds.
Context {B : Board}.

Definition command_debug_read (args : list Z) : MC unit :=
  let! a0 := arg args 0 in
  let order := u8 a0 in
  let! ptr := arg args 1 in
  let! flag := irq_save in
  let! n := next_read in
  let v := if order =? 1 then u16 (mem_at ptr n)
           else if order =? 2 then u32 (mem_at ptr n) else u8 (mem_at ptr n) in
  irq_restore flag;;;
  command_sendf "debug_result val=%u" [A_int v].

Definition command_debug_ping (args : list Z) : MC unit :=
  let! a0 := arg args 0 in
  let len := u8 a0 in
  let! a1 := arg args 1 in
  let! data := read_ptr a1 (Z.to_nat len) in
  command_sendf "pong data=%*s" [A_buf data].

Definition command_debug_nop (args : list Z) : MC unit := mret tt.
End debugcmds.
