(* ===== verification/BasecmdSpec.v ===== *)
(** * Allocation, move queues, object ids and statistics *)

From S2P Require Import Prelude State Runtime Sched Basecmd.

(** ** Low level allocation *)

Lemma ALIGN_spec x k : 0 ≤ k → ALIGN x (2 ^ k) = 2 ^ k * ((x + 2 ^ k - 1) / 2 ^ k).
Proof.
  intros Hk. unfold ALIGN. pose proof (Z.pow_pos_nonneg 2 k ltac:(lia) Hk).
  rewrite <- Z.ldiff_land. replace (2 ^ k - 1) with (Z.ones k) by (rewrite Z.ones_equiv; lia).
  rewrite Z.ldiff_ones_r, Z.shiftl_mul_pow2, Z.shiftr_div_pow2 by lia. lia.
Qed.

Lemma ALIGN_bounds x k : 0 ≤ k → x ≤ ALIGN x (2 ^ k) < x + 2 ^ k ∧ (2 ^ k | ALIGN x (2 ^ k)).
Proof.
  intros Hk. rewrite ALIGN_spec by done. pose proof (Z.pow_pos_nonneg 2 k ltac:(lia) Hk) as Hp.
  split; [|apply Z.divide_factor_l]. revert Hp. generalize (2 ^ k). intros a Ha.
  pose proof (Z.div_mod (x + a - 1) a ltac:(lia)). pose proof (Z.mod_pos_bound (x + a - 1) a Ha). lia.
Qed.

Section alloc.
Context {B : Board}.

(** [alloc_end] is aligned and inside the pool. *)
Definition alloc_ok (s : mcu) : Prop :=
  (alignof_ptr | alloc_end (base s)) ∧ dynmem_start ≤ alloc_end (base s).

(** [alloc_chunk] returns aligned memory inside the pool, behind all earlier allocations. *)
Theorem alloc_chunk_ok size k s :
  alloc_ok s → 0 ≤ size → 0 ≤ k → alignof_ptr = 2 ^ k →
  wp (alloc_chunk size) s
    (λ data s', data = alloc_end (base s) ∧ (alignof_ptr | data) ∧
       dynmem_start ≤ data ∧ data + size ≤ dynmem_end ∧
       data + size ≤ alloc_end (base s') < data + size + alignof_ptr ∧ alloc_ok s')
    (λ r _, r = "alloc_chunk failed" ∧ dynmem_end < alloc_end (base s) + size).
Proof.
  intros [Hal Hst] Hsz Hk Hk2. destruct (ALIGN_bounds size k Hk) as [Hb Hd]. rewrite <- Hk2 in Hb, Hd.
  unfold alloc_chunk. do 3 wstep. apply wp_when; intros Hlt; bool_to_prop.
  { wstep. by split. }
  do 3 wstep. cbn. split; [done|]. split; [done|]. split; [done|]. split; [lia|]. split; [lia|].
  split; cbn; [by apply Z.divide_add_r|lia].
Qed.
End alloc.

(** ** Move queues *)

(** [mlist ms p l]: following [next] from [p] visits the nodes [l] and ends at NULL. *)
Fixpoint mlist (ms : gmap addr move_node) (p : addr) (l : list addr) : Prop :=
  match l with
  | [] => p = 0
  | a :: l => p = a ∧ a ≠ 0 ∧ ∃ n, ms !! a = Some n ∧ mlist ms (n_next n) l
  end.

(** A queue head represents the moves [l], in order. *)
Record mq_rep (ms : gmap addr move_node) (mh : move_queue_head) (l : list addr) : Prop := {
  mq_list : mlist ms (mq_first mh) l;
  mq_nodup : NoDup l;
  mq_end : l ≠ [] → last l = Some (mq_last mh);
}.

Lemma mlist_ext ms ms' p l :
  (∀ a n, a ∈ l → ms !! a = Some n → ∃ n', ms' !! a = Some n' ∧ n_next n' = n_next n) →
  mlist ms p l → mlist ms' p l.
Proof.
  revert p. induction l as [|a l IH]; [done|]. intros p Hext (-> & Ha & n & Hn & Hl).
  destruct (Hext a n) as (n' & Hn' & Hnn); [by left|done|]. split; [done|]. split; [done|].
  exists n'. split; [done|]. rewrite Hnn. apply IH; [|done]. intros b m Hb. apply Hext. by right.
Qed.

Lemma mlist_frame ms a n p l : a ∉ l → mlist ms p l → mlist (<[a := n]> ms) p l.
Proof.
  intros Ha. apply mlist_ext. intros b m Hb Hm. exists m. split; [|done].
  rewrite lookup_insert_ne; [done|]. by intros ->.
Qed.

(** Writing a field other than [next]. *)
Lemma mlist_same_next ms a n n' p l :
  ms !! a = Some n → n_next n' = n_next n → mlist ms p l → mlist (<[a := n']> ms) p l.
Proof.
  intros Ha Hn. apply mlist_ext. intros b m Hb Hm. destruct (decide (a = b)) as [<-|?].
  - exists n'. rewrite lookup_insert_eq. split; [done|]. congruence.
  - exists m. by rewrite lookup_insert_ne.
Qed.

Lemma mlist_lookup ms p l a : mlist ms p l → a ∈ l → a ≠ 0 ∧ is_Some (ms !! a).
Proof.
  revert p. induction l as [|b l IH]; intros p; [by intros _ ?%not_elem_of_nil|].
  intros (-> & Hb & n & Hn & Hl) [->|Ha]%elem_of_cons; [by eauto|]. by eapply IH.
Qed.

(** Appending a node behind the last one. *)
Lemma mlist_snoc ms p l b m nb nm :
  mlist ms p (l ++ [b]) → NoDup (l ++ [b]) → ms !! b = Some nb → m ∉ l ++ [b] → m ≠ 0 →
  ms !! m = Some nm → n_next nm = 0 →
  mlist (<[b := nb <| n_next := m |>]> ms) p ((l ++ [b]) ++ [m]).
Proof.
  intros Hl Hnd Hb Hm Hm0 Hnm Hn0. revert p Hl. induction l as [|a l IH]; intros p Hl.
  - destruct Hl as (-> & Hb0 & n & Hn & Hl). split; [done|]. split; [done|].
    eexists. rewrite lookup_insert_eq. split; [done|]. split; [done|]. split; [done|].
    exists nm. rewrite lookup_insert_ne; [done|]. intros ->. apply Hm. by left.
  - cbn in Hnd. apply NoDup_cons in Hnd as [Ha Hnd].
    destruct Hl as (-> & Ha0 & n & Hn & Hl). split; [done|]. split; [done|].
    exists n. rewrite lookup_insert_ne.
    + split; [done|]. apply IH; [done| |done]. cbn in Hm. by apply not_elem_of_cons in Hm as [_ ?].
    + intros ->. apply Ha. apply elem_of_app. right. by left.
Qed.

Lemma mq_rep_ext ms ms' mh l :
  (∀ a, a ∈ l → ms' !! a = ms !! a) → mq_rep ms mh l → mq_rep ms' mh l.
Proof.
  intros Hext [Hl Hnd He]. split; [|done..]. eapply mlist_ext; [|exact Hl].
  intros a n Ha Hn. exists n. by rewrite Hext.
Qed.

Section queue.
Context {B : Board}.

Lemma wp_move_queue_push s mh l m nm :
  mq_rep (moves s) mh l → m ∉ l → m ≠ 0 → moves s !! m = Some nm →
  wp (move_queue_push m mh) s
    (λ r s', mq_rep (moves s') r.2 (l ++ [m]) ∧ r.1 = b2z (bool_decide (l = [])) ∧
       n_data <$> moves s' !! m = Some (n_data nm) ∧
       (∀ a, a ∉ l → a ≠ m → moves s' !! a = moves s !! a) ∧
       (∀ a, n_data <$> moves s' !! a = n_data <$> moves s !! a) ∧
       s' = s <| moves := moves s' |>)
    no_shut.
Proof.
  intros [Hl Hnd Hend] Hm Hm0 Hnm. unfold move_queue_push, nz. do 2 wstep.
  set (ms1 := <[m := nm <| n_next := 0 |>]> (moves s)).
  assert (mlist ms1 (mq_first mh) l) as Hl1 by (by apply mlist_frame).
  assert (∀ a, n_data <$> ms1 !! a = n_data <$> moves s !! a) as Hd1.
  { intros a. unfold ms1. destruct (decide (m = a)) as [<-|?];
      [by rewrite lookup_insert_eq, Hnm|by rewrite lookup_insert_ne]. }
  destruct l as [|a l] using rev_ind.
  - cbn in Hl. rewrite Hl, Z.eqb_refl. cbn [negb]. wstep. cbn. split_and!; try done.
    + split; cbn; [|apply NoDup_singleton|done]. split_and!; [done|done|].
      eexists. rewrite lookup_insert_eq. by split.
    + rewrite lookup_insert_eq. done.
    + intros a _ Ha. by rewrite lookup_insert_ne.
  - clear IHl. assert (mq_first mh ≠ 0) as Hf.
    { destruct l; destruct Hl as (-> & ? & _); done. }
    rewrite (proj2 (Z.eqb_neq _ _) Hf). cbn [negb].
    specialize (Hend ltac:(by destruct l)). rewrite last_snoc in Hend. injection Hend as Hend.
    destruct (mlist_lookup _ _ _ a Hl1) as [Ha0 [na Hna]]; [apply elem_of_app; right; by left|].
    rewrite <- Hend. wstep. eapply wp_upd_node; [exact Hna|]. wstep. cbn. fold ms1. split_and!.
    + split; cbn.
      * eapply mlist_snoc; try done; [unfold ms1; by rewrite lookup_insert_eq|done].
      * apply NoDup_app. split; [done|]. split; [|apply NoDup_singleton].
        intros x Hx ->%list_elem_of_singleton. done.
      * intros _. by rewrite last_snoc.
    + by rewrite bool_decide_eq_false_2 by (by destruct l).
    + rewrite lookup_insert_ne by (intros ->; apply Hm, elem_of_app; right; by left).
      unfold ms1. by rewrite lookup_insert_eq.
    + intros x Hx Hxm. rewrite lookup_insert_ne; [unfold ms1; by rewrite lookup_insert_ne|].
      intros ->. apply Hx, elem_of_app. right. by left.
    + intros x. rewrite <- Hd1. destruct (decide (a = x)) as [<-|?];
        [by rewrite lookup_insert_eq, Hna|by rewrite lookup_insert_ne].
    + by destruct s.
Qed.

(** [move_queue_push] appends at the end of the queue and tells whether it was empty. *)
Theorem move_queue_push_fifo s mh l m nm :
  mq_rep (moves s) mh l → m ∉ l → m ≠ 0 → moves s !! m = Some nm →
  wp (move_queue_push m mh) s
    (λ r s', mq_rep (moves s') r.2 (l ++ [m]) ∧ r.1 = b2z (bool_decide (l = [])) ∧
       n_data <$> moves s' !! m = Some (n_data nm) ∧
       (∀ a, a ∉ l → a ≠ m → moves s' !! a = moves s !! a) ∧
       (∀ a, n_data <$> moves s' !! a = n_data <$> moves s !! a) ∧
       s' = s <| moves := moves s' |>)
    no_shut.
Proof. apply wp_move_queue_push. Qed.

Lemma mq_pop_eq s mh a l :
  mq_rep (moves s) mh (a :: l) →
  ∃ mh', move_queue_pop mh s = Ret (a, mh') s ∧ mq_rep (moves s) mh' l.
Proof.
  intros [(Hf & Ha & n & Hn & Hl) Hnd Hend]. unfold move_queue_pop. rewrite Hf.
  eexists. split; [by rewrite (bind_ret_eq _ _ _ _ _ (get_node_eq _ _ _ Hn))|].
  apply NoDup_cons in Hnd as [Hal Hnd]. split; [done|done|]. intros Hne. cbn.
  rewrite <- Hend by done. destruct l; [done|]. by rewrite last_cons_cons.
Qed.

(** [move_queue_pop] takes the first move. *)
Theorem move_queue_pop_fifo s mh a l :
  mq_rep (moves s) mh (a :: l) →
  ∃ mh', move_queue_pop mh s = Ret (a, mh') s ∧ mq_rep (moves s) mh' l.
Proof. apply mq_pop_eq. Qed.

Lemma move_queue_empty_rep ms mh l : mq_rep ms mh l → move_queue_empty mh = bool_decide (l = []).
Proof.
  intros [Hl _ _]. unfold move_queue_empty. destruct l as [|a l].
  - cbn in Hl. by rewrite Hl.
  - destruct Hl as (-> & Ha & _). by rewrite (proj2 (Z.eqb_neq _ _) Ha).
Qed.
End queue.
