(* ===== verification/PoolSpec.v ===== *)
(** * The pool of moves

    [free_rep s l]: the free list holds exactly the moves [l].  Allocation takes the
    first of them, freeing puts one back, and a reset (or the first finalisation)
    makes every node of the pool free. *)

From S2P Require Import Prelude State Runtime Sched Basecmd BasecmdSpec.

Definition free_rep (s : mcu) (l : list addr) : Prop :=
  mlist (moves s) (move_free_list (base s)) l ∧ NoDup l.

(** The addresses of [n] adjacent items of [size] bytes from [p]. *)
Fixpoint pool (n : nat) (p size : Z) : list addr :=
  match n with O => [] | S n => p :: pool n (p + size) size end.

Lemma pool_elem n p size a :
  a ∈ pool n p size ↔ ∃ j, 0 ≤ j < Z.of_nat n ∧ a = p + j * size.
Proof.
  revert p. induction n as [|n IH]; intros p; cbn [pool].
  - rewrite elem_of_nil. split; [done|]. intros (j & ? & _). lia.
  - rewrite elem_of_cons, IH. split.
    + intros [->|(j & Hj & ->)]; [exists 0; lia|exists (j + 1); lia].
    + intros (j & Hj & ->). destruct (decide (j = 0)) as [->|?]; [left; lia|].
      right. exists (j - 1). lia.
Qed.

Lemma pool_length n p size : length (pool n p size) = n.
Proof. revert p. induction n; intros p; cbn; congruence. Qed.

Lemma pool_nodup n p size : 0 < size → NoDup (pool n p size).
Proof.
  intros Hs. revert p. induction n as [|n IH]; intros p; cbn; [constructor|].
  constructor; [|done]. rewrite pool_elem. intros (j & ? & ?). nia.
Qed.

Section pool.
Context {B : Board}.

(** ** Allocating and freeing *)

(** [move_alloc] takes the first free move; it fails only when there is none. *)
Theorem move_alloc_takes_first s l :
  free_rep s l →
  wp move_alloc s
    (λ m s', ∃ l', l = m :: l' ∧ free_rep s' l' ∧ moves s' = moves s ∧ m ≠ 0 ∧
       objects s' = objects s ∧ sched s' = sched s ∧ irq_off s' = irq_off s)
    (λ r s', r = "Move queue overflow" ∧ l = []).
Proof.
  intros [Hl Hnd]. unfold move_alloc. repeat wstep. destruct l as [|a l].
  - cbn in Hl |- *. rewrite Hl. done.
  - destruct Hl as (Hf & Ha & n & Hn & Hl). cbn. rewrite Hf, (proj2 (Z.eqb_neq _ _) Ha).
    repeat wstep. exists l. apply NoDup_cons in Hnd as [_ Hnd]. by split_and!.
Qed.

(** Pushing a node on the free list. *)
Lemma free_rep_push s l m nm :
  free_rep s l → m ∉ l → m ≠ 0 →
  free_rep (s <| moves := <[m := nm <| n_next := move_free_list (base s) |>]> (moves s) |>
              <| base; move_free_list := m |>) (m :: l).
Proof.
  intros [Hl Hnd] Hm Hm0. split; [|by apply NoDup_cons].
  split; [done|]. split; [done|]. eexists. cbn. rewrite lookup_insert_eq. split; [done|].
  by apply mlist_frame.
Qed.

(** [move_free] puts a move in front of the free list. *)
Theorem move_free_puts_back s l m nm :
  free_rep s l → m ∉ l → m ≠ 0 → moves s !! m = Some nm →
  wp (move_free m) s
    (λ _ s', free_rep s' (m :: l) ∧ objects s' = objects s ∧ sched s' = sched s ∧
       ∀ a, a ≠ m → moves s' !! a = moves s !! a)
    no_shut.
Proof.
  intros Hf Hm Hm0 Hnm. unfold move_free. repeat wstep. split; [by apply (free_rep_push s)|].
  split_and!; [done|done|]. intros a Ha. cbn. by rewrite lookup_insert_ne.
Qed.

(** ** Resetting the pool *)

Lemma link_moves_ok n i s :
  let node j := move_list (base s) + j * move_item_size (base s) in
  0 < move_item_size (base s) →
  (∀ j, i ≤ j < i + Z.of_nat n → is_Some (moves s !! node j)) →
  wp (link_moves n i) s
    (λ _ s', s' = s <| moves := moves s' |> ∧
       (∀ j, i ≤ j < i + Z.of_nat n → ∃ x, moves s' !! node j = Some x ∧ n_next x = node (j + 1)) ∧
       (∀ a, (∀ j, i ≤ j < i + Z.of_nat n → a ≠ node j) → moves s' !! a = moves s !! a))
    no_shut.
Proof.
  revert i s. induction n as [|n IH]; intros i s node Hsz Hex; cbn [link_moves].
  { wstep. split; [by destruct s|]. split; [lia|done]. }
  destruct (Hex i) as [x Hx]; [lia|]. wstep. wstep. wstep.
  eapply wp_upd_node; [exact Hx|]. eapply wp_use; [apply IH|]; cbn.
  - done.
  - intros j Hj. rewrite lookup_insert_ne; [apply Hex; lia|]. nia.
  - intros [] s' (Heq & Hin & Hout). split; [rewrite Heq; by destruct s|]. split.
    + intros j Hj. destruct (decide (j = i)) as [->|?]; [|apply Hin; lia].
      exists (x <| n_next := node (i + 1) |>). split; [|done].
      rewrite Hout by (intros j ?; fold node; unfold node; nia). by rewrite lookup_insert_eq.
    + intros a Ha. rewrite Hout by (intros j ?; apply Ha; lia).
      rewrite lookup_insert_ne; [done|]. intros Hia. by apply (Ha i); [lia|].
Qed.

Lemma mlist_pool ms n p size :
  0 < size → 0 < p →
  (∀ j, 0 ≤ j < Z.of_nat n → ∃ x, ms !! (p + j * size) = Some x ∧
     n_next x = if j =? Z.of_nat n - 1 then 0 else p + (j + 1) * size) →
  n ≠ O → mlist ms p (pool n p size).
Proof.
  intros Hs. revert p. induction n as [|n IH]; intros p Hp Hms Hn; [done|].
  cbn [pool mlist]. split; [done|]. split; [lia|].
  destruct (Hms 0) as (x & Hx & Hnx); [lia|]. rewrite Z.add_0_r in Hx. exists x. split; [done|].
  destruct n as [|n].
  - rewrite Hnx. done.
  - replace (n_next x) with (p + size).
    2:{ rewrite Hnx. destruct (Z.eqb_spec 0 (Z.of_nat (S (S n)) - 1)); lia. }
    apply IH; [lia| |done]. intros j Hj. destruct (Hms (j + 1)) as (y & Hy & Hny); [lia|].
    exists y. split; [rewrite <- Hy; f_equal; lia|]. rewrite Hny.
    destruct (Z.eqb_spec (j + 1) (Z.of_nat (S (S n)) - 1)), (Z.eqb_spec j (Z.of_nat (S n) - 1)); lia.
Qed.

(** The nodes of a configured pool exist. *)
Definition pool_ok (s : mcu) : Prop :=
  let b := base s in
  0 < move_item_size b ∧ 0 < move_list b ∧ 0 < move_count b ∧
  ∀ a, a ∈ pool (Z.to_nat (move_count b)) (move_list b) (move_item_size b) → is_Some (moves s !! a).

Lemma wp_move_reset s :
  pool_ok s →
  wp move_reset s
    (λ _ s', free_rep s' (pool (Z.to_nat (move_count (base s))) (move_list (base s))
                            (move_item_size (base s))) ∧
       s' = s <| moves := moves s' |> <| base; move_free_list := move_list (base s) |>)
    no_shut.
Proof.
  intros (Hsz & Hp & Hc & Hex). unfold move_reset. do 2 wstep.
  rewrite (proj2 (Z.eqb_neq _ _) (ltac:(lia) : move_count (base s) ≠ 0)).
  assert (∀ j, 0 ≤ j < move_count (base s) →
    is_Some (moves s !! (move_list (base s) + j * move_item_size (base s)))) as Hex'.
  { intros j Hj. apply Hex, pool_elem. exists j. rewrite Z2Nat.id by lia. by split. }
  wstep. eapply wp_use; [apply link_moves_ok; [done|intros j Hj; apply Hex'; lia]|].
  intros [] s' (Heq & Hin & Hout).
  destruct (Hex' (move_count (base s) - 1)) as [z Hz]; [lia|].
  rewrite <- Hout in Hz by (intros j ?; nia). wstep. eapply wp_upd_node; [exact Hz|].
  wstep. split; [|rewrite Heq; by destruct s as [? [] ? ? ? ? ? ? ? ? ?]].
  split; [|by apply pool_nodup]. rewrite Heq. cbn. apply mlist_pool; [done|done| |lia].
  intros j Hj. rewrite Z2Nat.id in Hj |- * by lia.
  destruct (Z.eqb_spec j (move_count (base s) - 1)) as [->|?].
  - eexists. rewrite Heq, lookup_insert_eq. by split.
  - destruct (Hin j) as (y & Hy & Hny); [lia|]. exists y. rewrite Heq, lookup_insert_ne by nia. by split.
Qed.

(** move_reset links all move_count items of the pool into the free list, in address order,
    from any state of the pool, and touches nothing else. *)
Theorem move_reset_frees_all s :
  pool_ok s →
  ∃ s', move_reset s = Ret tt s' ∧
    free_rep s' (pool (Z.to_nat (move_count (base s))) (move_list (base s))
                   (move_item_size (base s))) ∧
    objects s' = objects s ∧ sched s' = sched s ∧ pool_ok s'.
Proof.
  intros Hok. destruct (wp_returns _ _ _ (wp_move_reset s Hok)) as ([] & s' & Heq & Hf & Hs).
  exists s'. split; [done|]. split; [done|]. split; [by rewrite Hs|]. split; [by rewrite Hs|].
  destruct Hok as (? & ? & ? & _). destruct Hf as [Hf _]. rewrite Hs in Hf |- *.
  split_and!; try done. intros a Ha. by eapply mlist_lookup.
Qed.

(** ** Finalising the configuration *)

Lemma count_chunks_ok n size p c :
  ∃ k, 0 ≤ k ≤ Z.of_nat n ∧ count_chunks n size p c = (c + k, p + k * size) ∧
    (k = 0 ∨ p + k * size ≤ dynmem_end) ∧
    (k = Z.of_nat n ∨ dynmem_end < p + (k + 1) * size).
Proof.
  revert p c. induction n as [|n IH]; intros p c; cbn [count_chunks].
  { exists 0. split; [lia|]. split; [f_equal; lia|]. lia. }
  destruct (Z.leb_spec (p + size) dynmem_end).
  - destruct (IH (p + size) (c + 1)) as (k & Hk & -> & H1 & H2). exists (k + 1).
    split; [lia|]. split; [f_equal; lia|]. split; [right; destruct H1 as [->|]; lia|lia].
  - exists 0. split; [lia|]. split; [f_equal; lia|]. lia.
Qed.

Lemma pool_nodes_lookup n p size ms a :
  a ∈ pool n p size ∨ is_Some (ms !! a) → is_Some (pool_nodes n p size ms !! a).
Proof.
  revert p ms. induction n as [|n IH]; intros p ms; cbn.
  - by intros [?%elem_of_nil|?].
  - intros Ha. apply IH. destruct (decide (a = p)) as [->|?].
    + right. rewrite lookup_insert_eq. eauto.
    + rewrite lookup_insert_ne by done. destruct Ha as [[?|?]%elem_of_cons|?]; [done|by left|by right].
Qed.

Lemma wp_alloc_chunk size k s :
  alloc_ok s → 0 ≤ size → 0 ≤ k → alignof_ptr = 2 ^ k → alloc_end (base s) + size ≤ dynmem_end →
  wp (alloc_chunk size) s
    (λ data s', data = alloc_end (base s) ∧
       s' = s <| base; alloc_end := data + ALIGN size alignof_ptr |>) no_shut.
Proof.
  intros [Hal Hst] Hsz Hk Hk2 Hroom. unfold alloc_chunk. do 3 wstep.
  apply wp_when; intros Hlt; bool_to_prop; [lia|]. by do 3 wstep.
Qed.

(** move_finalize allocates a pool of 1 to 1024 items, each large enough for a move of any user
    and for the free list link, inside the dynamic memory, with all items free; its only
    failures are a second call and no memory for a single item. *)
Theorem move_finalize_ok s k :
  alloc_ok s → 0 < dynmem_start → 0 ≤ k → alignof_ptr = 2 ^ k →
  0 < sizeof_move_node < 256 → 0 ≤ move_item_size (base s) < 256 →
  wp move_finalize s
    (λ _ s', let b := base s' in
       move_count (base s) = 0 ∧ 0 < move_count b ≤ 1024 ∧
       move_item_size b = Z.max (move_item_size (base s)) sizeof_move_node ∧
       move_list b = alloc_end (base s) ∧
       move_list b + move_count b * move_item_size b ≤ dynmem_end ∧
       pool_ok s' ∧ free_rep s' (pool (Z.to_nat (move_count b)) (move_list b) (move_item_size b)))
    (λ r _, r = "Already finalized" ∧ move_count (base s) ≠ 0 ∨
       r = "alloc_chunks failed" ∧ move_count (base s) = 0 ∧
       dynmem_end < alloc_end (base s) + Z.max (move_item_size (base s)) sizeof_move_node).
Proof.
  intros Hal Hd Hk Hk2 Hnode Hitem. unfold move_finalize. repeat wstep.
  unfold nz. destruct (Z.eqb_spec (move_count (base s)) 0) as [Hc|Hc]; cbn [negb].
  2:{ wstep. wstep. by left. }
  repeat wstep. unfold move_queue_setup. repeat wstep. unfold nz. rewrite Hc. cbn [Z.eqb negb].
  rewrite (proj2 (Z.ltb_ge 255 sizeof_move_node)) by lia. cbn [orb]. repeat wstep.
  set (sz := Z.max (move_item_size (base s)) sizeof_move_node).
  eapply (wp_conseq _ _ (λ _ s1, s1 = s <| base; move_item_size := sz |>)).
  { apply wp_when; intros Hlt; bool_to_prop.
    - wstep. unfold sz. rewrite Z.max_r, u8_small by lia. done.
    - unfold sz. rewrite Z.max_l by lia. by destruct s as [? [] ? ? ? ? ? ? ? ? ?]. }
  intros [] s1 ->. repeat wstep. unfold alloc_chunks. repeat wstep.
  destruct (count_chunks_ok 1024 sz (alloc_end (base s)) 0) as (n & Hn & Heq & Hlo & Hhi).
  cbn [base move_item_size alloc_end upd] in Heq |- *. rewrite Heq, Z.add_0_l. cbn beta iota.
  destruct (Z.eqb_spec n 0) as [Hn0|Hn0].
  { repeat wstep. right. split; [done|]. split; [done|]. lia. }
  repeat wstep.
  eapply wp_mono; [apply (wp_alloc_chunk _ k); [exact Hal|lia|done|done|cbn; lia]| |done].
  intros data s2 [-> ->]. repeat wstep. rewrite u16_small by lia.
  eapply wp_mono; [apply wp_move_reset| |done].
  - cbn. split_and!; cbn; [lia| |lia|].
    + destruct Hal as [_ Hst]. cbn in Hst. lia.
    + intros a Ha. apply pool_nodes_lookup. by left.
  - cbn. intros [] s' [Hf Hs]. rewrite Hs in Hf |- *. cbn in *. destruct Hal as [_ Hst].
    split_and!; try done; try lia. split_and!; cbn; try lia.
    intros a Ha. destruct Hf as [Hf _]. by eapply mlist_lookup.
Qed.
End pool.
