(* ===== verification/OidSpec.v ===== *)
(** * Object ids, statistics and identification

    The oid table is a typed map from small numbers to objects: what [oid_alloc] stores
    under an id, [oid_lookup] with the same type returns. *)

From S2P Require Import Prelude State Runtime Sched Basecmd BasecmdSpec.

(** The table has [oid_count] entries. *)
Definition oids_ok (b : base_state) : Prop :=
  0 ≤ oid_count b < 256 ∧
  match oids b with
  | Some l => Z.of_nat (length l) = oid_count b
  | None => oid_count b = 0
  end.

Definition oid_entry (b : base_state) (oid : Z) : option oid_s := oids b ≫= (.!! Z.to_nat oid).

Section oid.
Context {B : Board}.

Lemma oids_ok_lookup b oid : oids_ok b → 0 ≤ oid < oid_count b → is_Some (oid_entry b oid).
Proof.
  intros [_ Hl] Ho. unfold oid_entry. destruct (oids b) as [l|]; [|lia]. cbn.
  apply lookup_lt_is_Some. lia.
Qed.

Lemma oid_lookup_eq s oid type e :
  0 ≤ oid < 256 → oid < oid_count (base s) → oid_entry (base s) oid = Some e → o_type e = Some type →
  oid_lookup oid type s = Ret (o_data e) s.
Proof.
  intros Hr Ho He Ht. unfold oid_lookup. rewrite u8_small by done.
  rewrite (bind_ret_eq _ _ _ s s) by done.
  rewrite (proj2 (Z.leb_gt _ _)) by lia. unfold oid_entry in He. rewrite He.
  rewrite (bind_ret_eq _ _ _ e s) by done. by rewrite decide_True.
Qed.

Lemma oid_entry_upd b oid oid' f :
  0 ≤ oid → 0 ≤ oid' →
  oid_entry (b <| oids := alter f (Z.to_nat oid) <$> oids b |>) oid' =
    (if decide (oid' = oid) then f <$> oid_entry b oid else oid_entry b oid').
Proof.
  intros H1 H2. unfold oid_entry. cbn. destruct (oids b) as [l|]; cbn; [|by destruct (decide _)].
  case_decide as Hd; [subst; by rewrite list_lookup_alter_eq|].
  rewrite list_lookup_alter_ne; [done|]. lia.
Qed.

Lemma oids_ok_upd b oid f : oids_ok b → oids_ok (b <| oids := alter f oid <$> oids b |>).
Proof.
  unfold oids_ok. cbn. intros [? Hl]. split; [done|]. destruct (oids b); [|done].
  cbn. by rewrite length_alter.
Qed.


Lemma wp_zero_chunk type n data s :
  wp (zero_chunk type n data) s
    (λ _ s', base s' = base s ∧ moves s' = moves s ∧
       objects s' = <[data := zero_object type n]> (objects s) ∧
       (has_timer type = true → timers (sched s') !! T_member data M_time = Some zero_timer) ∧
       (∀ t, (∀ m, t ≠ T_member data m) → timers (sched s') !! t = timers (sched s) !! t)) no_shut.
Proof.
  unfold zero_chunk. repeat first [wstep | apply wp_when; intros ?; cbn beta].
  all: cbn; split_and!; try done; try congruence; intros.
  all: first [by rewrite lookup_insert_eq | by rewrite lookup_insert_ne, lookup_insert_eq
             | by rewrite lookup_insert_ne by auto | by rewrite !lookup_insert_ne by auto].
Qed.

(** oid_alloc then oid_lookup of the same id and type returns the new zeroed object, other ids
    keep their entries, the object lies in the dynamic memory; the failures are a wrong, used
    or late id ('Can't assign oid') and exhausted memory. *)
Theorem oid_alloc_lookup s oid type size n k :
  oids_ok (base s) → alloc_ok s → 0 ≤ oid < 256 → 0 ≤ size < 65536 → 0 ≤ k → alignof_ptr = 2 ^ k →
  wp (oid_alloc oid type size n) s
    (λ data s', oid_lookup oid type s' = Ret data s' ∧
       objects s' = <[data := zero_object type n]> (objects s) ∧
       (∀ oid', 0 ≤ oid' → oid' ≠ oid → oid_entry (base s') oid' = oid_entry (base s) oid') ∧
       oids_ok (base s') ∧ moves s' = moves s ∧
       data + size ≤ dynmem_end ∧ data + size ≤ alloc_end (base s'))
    (λ r s', r = "Can't assign oid" ∧
         (oid_count (base s) ≤ oid ∨ move_count (base s) ≠ 0 ∨
          ∃ t data, oid_entry (base s) oid = Some (mk_oid (Some t) data)) ∨
       r = "alloc_chunk failed" ∧ dynmem_end < alloc_end (base s) + size).
Proof.
  intros Hok Hal Hr Hsz Hk Hk2. unfold oid_alloc. rewrite u8_small, u16_small by done. repeat wstep.
  destruct (Z.leb_spec (oid_count (base s)) oid) as [Hle|Hlt].
  { wstep. left. split; [done|]. by left. }
  destruct (oids_ok_lookup _ _ Hok (conj (proj1 Hr) Hlt)) as [e He].
  fold (oid_entry (base s) oid). rewrite He. repeat wstep. unfold nz.
  destruct (Z.eqb_spec (move_count (base s)) 0) as [Hc|Hc]; cbn [negb].
  2:{ rewrite orb_true_r. wstep. left. split; [done|]. right. by left. }
  rewrite orb_false_r. destruct e as [[ty|] d]; cbn [o_type].
  { wstep. left. split; [done|]. right. right. by eauto. }
  repeat wstep. unfold upd_oid. do 2 wstep. unfold alloc_chunk. do 3 wstep.
  apply wp_when; intros Hend; bool_to_prop.
  { wstep. by right. }
  repeat wstep. eapply wp_use; [apply wp_zero_chunk|]. intros [] s1 (Hb & Hm & Hobj & Htm & Hts).
  repeat wstep. destruct (ALIGN_bounds size k Hk) as [Hbd _]. rewrite <- Hk2 in Hbd.
  cbn in Hb, Hend |- *. unfold oid_entry in He.
  destruct (oids (base s)) as [l|] eqn:Hl; [|done]. cbn in He, Hb.
  split_and!; cbn; rewrite ?Hb; cbn; [..|lia|lia].
  - eapply (oid_lookup_eq _ _ _ (mk_oid (Some type) (alloc_end (base s)))); try done;
      unfold oid_entry; cbn; rewrite Hb; cbn; [done|].
    by rewrite !list_lookup_alter_eq, He.
  - done.
  - intros oid' H0 Hne. unfold oid_entry. cbn. rewrite Hl. cbn.
    rewrite !list_lookup_alter_ne; [done|lia..].
  - destruct Hok as [? Hlen]. rewrite Hl in Hlen. split; cbn; [done|].
    by rewrite !length_alter.
  - done.
Qed.

(** When the allocation itself fails the id is left typed with a NULL object. *)
(** When the memory for a new object is exhausted, oid_alloc has already set the type of the
    id: the machine shuts down, and a later oid_lookup of the id succeeds with the stale data
    pointer (NULL). *)
Theorem oid_alloc_failure_types_oid s oid type size n e :
  oids_ok (base s) → 0 ≤ oid < oid_count (base s) → 0 ≤ size < 65536 →
  oid_entry (base s) oid = Some e →
  o_type e = None → move_count (base s) = 0 → dynmem_end < alloc_end (base s) + size →
  ∃ s', oid_alloc oid type size n s = Shut "alloc_chunk failed" s' ∧
    oid_lookup oid type s' = Ret (o_data e) s'.
Proof.
  intros Hok Hr Hsz He Ht Hc Hend. destruct (Hok) as [Hcnt _].
  assert (wp (oid_alloc oid type size n) s (λ _ _, False)
    (λ r s', r = "alloc_chunk failed" ∧ oid_lookup oid type s' = Ret (o_data e) s')) as Hwp.
  { unfold oid_alloc. rewrite u8_small, u16_small by lia. repeat wstep.
    rewrite (proj2 (Z.leb_gt _ _)) by lia. fold (oid_entry (base s) oid). rewrite He. repeat wstep.
    rewrite Hc, Ht. cbn [nz Z.eqb negb orb]. unfold upd_oid. do 2 wstep. unfold alloc_chunk.
    do 3 wstep. cbn [base alloc_end upd]. rewrite (proj2 (Z.ltb_lt _ _)) by done. repeat wstep.
    split; [done|]. destruct e as [? d]. cbn in Ht. subst.
    apply (oid_lookup_eq _ _ _ (mk_oid (Some type) d)); try done; [lia|cbn; lia|].
    etransitivity; [apply (oid_entry_upd (base s)); lia|]. rewrite decide_True by done. by rewrite He. }
  destruct (wp_shuts _ _ _ Hwp) as (r & s' & Heq & -> & Hl). by exists s'.
Qed.
End oid.

(** ** Load statistics *)

(** [sumsq] counts squares of task times in units of [SUMSQ_BASE], rounded up, and sticks
    at the largest value instead of wrapping. *)
(** The sum of squares of the statistics never wraps: it saturates. *)
Theorem next_sumsq_saturates sumsq diff :
  0 ≤ sumsq < 2 ^ 32 → 0 ≤ diff < 2 ^ 32 →
  let n := next_sumsq sumsq diff in
  sumsq ≤ n < 2 ^ 32 ∧ (n < 2 ^ 32 - 1 → diff * diff ≤ SUMSQ_BASE * (n - sumsq)).
Proof.
  intros Hs Hd n. subst n. unfold next_sumsq, DIV_ROUND_UP32, SUMSQ_BASE.
  change (2 ^ 32) with 4294967296 in *.
  destruct (Z.leb_spec diff 65535); [|destruct (Z.leb_spec diff 1048575)].
  - assert (0 ≤ diff * diff ≤ 65535 * 65535) by nia.
    generalize dependent (diff * diff). intros d2 Hd2. zmod.
  - rewrite (u32_small (diff + 256)), (u32_small (diff + 256 - 1)) by lia.
    pose proof (Z.div_mod (diff + 256 - 1) 256 ltac:(lia)).
    pose proof (Z.mod_pos_bound (diff + 256 - 1) 256 ltac:(lia)).
    generalize dependent ((diff + 256 - 1) / 256). intros q Hq.
    assert (0 ≤ q * diff ≤ 4096 * 1048575) by nia. rewrite (u32_small (q * diff)) by lia.
    assert (diff * diff ≤ 256 * (q * diff)) by nia.
    generalize dependent (q * diff). generalize (diff * diff). intros. zmod.
  - split; [destruct (4294967295 <? sumsq) eqn:?; bool_to_prop; lia|].
    destruct (4294967295 <? sumsq) eqn:?; bool_to_prop; lia.
Qed.

(** ** Identification *)

Section identify.
Context {B : Board}.

(** [identify] sends exactly the requested part of the data dictionary, cut at its end. *)
Theorem command_identify_sends_chunk s offset count :
  0 ≤ offset < 2 ^ 32 → 0 ≤ count < 256 →
  Z.of_nat (length command_identify_data) < 2 ^ 32 - 256 → in_sendf (cmd s) = 0 →
  ∃ s', command_identify [offset; count] s = Ret tt s' ∧
    trace s' = EvSend "identify_response offset=%u data=%.*s"
      [A_int offset;
       A_buf (take (Z.to_nat count) (drop (Z.to_nat offset) command_identify_data))] :: trace s.
Proof.
  intros Ho Hc Hlen Hin. apply wp_returns_tt. unfold command_identify.
  apply wp_bind, wp_deref, wp_bind, wp_deref. cbn beta.
  set (isize := Z.of_nat (length command_identify_data)) in *.
  rewrite (u32_small offset), (u8_small count) by (unfold_word; lia).
  wstep. unfold nz. rewrite Hin. cbn. do 4 f_equal.
  destruct (Z.leb_spec isize offset).
  - rewrite drop_ge by lia. by rewrite !take_nil.
  - rewrite (u32_small (offset + count)) by (unfold_word; lia).
    destruct (Z.ltb_spec isize (offset + count)); [|done].
    rewrite (u8_small (isize - offset)) by lia.
    rewrite !take_ge; [done|rewrite length_drop; lia..].
Qed.
End identify.
