(* ===== verification/Trsync.v ===== *)
(** * trsync.c: synchronised trigger dispatch

    A [struct trsync_signal] is named by the address of the object it is a member of.
    Its [func] pointer is run by the argument [callback] of [trsync_do_trigger]. *)

From S2P Require Import Prelude State Runtime Sched Basecmd.

(** [container_of] for an embedded timer. *)
Definition container_of (t : tid) : MC addr :=
  match t with T_member a _ => mret a | _ => undef end.

Definition TSF_CAN_TRIGGER : Z := 1.
Definition TSF_REPORT : Z := 4.

Section trsync.
Context {B : Board}.

(** The callback type [trsync_callback_t], applied through a [func] pointer. *)
Variable callback : sigfunc → addr → Z → MC unit.

(** The [while (ts->signals)] loop. *)
Fixpoint dispatch_signals (fuel : nat) (ts : addr) (reason : Z) : MC unit :=
  match fuel with
  | O => diverge
  | S fuel =>
      let! o := load (T := trsync) ts in
      let tss := ts_signals o in
      if tss =? 0 then mret tt
      else
        let! sg := get_signal tss in
        store ts (o <| ts_signals := sg_next sg |>);;;
        upd_signal tss (λ g, g <| sg_next := 0 |>);;;
        upd_signal tss (λ g, g <| sg_func := None |>);;;
        let! func := deref (sg_func sg) in
        callback func tss reason;;;
        dispatch_signals fuel ts reason
  end.

Definition trsync_do_trigger (ts : addr) (reason : Z) : MC unit :=
  let reason := u8 reason in
  let! o := load (T := trsync) ts in
  let flags := ts_flags o in
  if negb (has flags TSF_CAN_TRIGGER) then mret tt
  else
    store ts (o <| ts_trigger_reason := reason |>
                <| ts_flags := u8 (Z.lor (Z.land flags (Z.lnot TSF_CAN_TRIGGER)) TSF_REPORT) |>);;;
    let! s := get in
    dispatch_signals (S (size (signals s))) ts reason;;;
    sched_wake_task trsync_wake.

Definition trsync_expire_event (t : tid) : MC Z :=
  let! ts := container_of t in
  let! o := load (T := trsync) ts in
  trsync_do_trigger ts (ts_expire_reason o);;;
  mret SF_DONE.

Definition trsync_report_event (t : tid) : MC Z :=
  let! ts := container_of t in
  let! o := load (T := trsync) ts in
  store ts (o <| ts_flags := Z.lor (ts_flags o) TSF_REPORT |>);;;
  sched_wake_task trsync_wake;;;
  upd_timer (T_member ts M_time)
    (λ x, x <| t_waketime := u32 (t_waketime x + ts_report_ticks o) |>);;;
  mret SF_RESCHEDULE.

Definition command_config_trsync (args : list Z) : MC unit :=
  let! a0 := arg args 0 in
  let! ts := oid_alloc a0 command_config_trsync_t (sizeof_object command_config_trsync_t) 0 in
  upd_timer (T_member ts M_time) (λ x, x <| t_func := F_trsync_report_event |>);;;
  upd_timer (T_member ts M_expire_time) (λ x, x <| t_func := F_trsync_expire_event |>).

Definition trsync_oid_lookup (oid : Z) : MC addr := oid_lookup oid command_config_trsync_t.

Definition trsync_add_signal (ts tss : addr) (func : option sigfunc) : MC unit :=
  let! flag := irq_save in
  let! sg := get_signal tss in
  (when match sg_func sg with Some _ => true | None => bool_decide (func = None) end do
     shutdown "Can't add signal that is already active");;;
  upd_signal tss (λ g, g <| sg_func := func |>);;;
  let! o := load (T := trsync) ts in
  upd_signal tss (λ g, g <| sg_next := ts_signals o |>);;;
  store ts (o <| ts_signals := tss |>);;;
  irq_restore flag.

(** The [while (tss)] loop of [trsync_clear]. *)
Fixpoint clear_signals (fuel : nat) (tss : addr) : MC unit :=
  match fuel with
  | O => diverge
  | S fuel =>
      if tss =? 0 then mret tt
      else
        let! sg := get_signal tss in
        let next := sg_next sg in
        upd_signal tss (λ g, g <| sg_func := None |> <| sg_next := 0 |>);;;
        clear_signals fuel next
  end.

Definition trsync_clear (ts : addr) : MC unit :=
  sched_del_timer (T_member ts M_time);;;
  sched_del_timer (T_member ts M_expire_time);;;
  let! o := load (T := trsync) ts in
  let! s := get in
  clear_signals (S (size (signals s))) (ts_signals o);;;
  store ts (o <| ts_signals := 0 |> <| ts_flags := 0 |> <| ts_trigger_reason := 0 |>
              <| ts_expire_reason := 0 |>).

Definition command_trsync_start (args : list Z) : MC unit :=
  let! a0 := arg args 0 in
  let! ts := trsync_oid_lookup a0 in
  irq_disable;;;
  trsync_clear ts;;;
  let! o := load (T := trsync) ts in
  store ts (o <| ts_flags := TSF_CAN_TRIGGER |>);;;
  let! a1 := arg args 1 in
  upd_timer (T_member ts M_time) (λ x, x <| t_waketime := u32 a1 |>);;;
  let! a2 := arg args 2 in
  let! o := load (T := trsync) ts in
  store ts (o <| ts_report_ticks := u32 a2 |>);;;
  (when nz (u32 a2) do sched_add_timer (T_member ts M_time));;;
  let! a3 := arg args 3 in
  let! o := load (T := trsync) ts in
  store ts (o <| ts_expire_reason := u8 a3 |>);;;
  irq_enable.

Definition command_trsync_set_timeout (args : list Z) : MC unit :=
  let! a0 := arg args 0 in
  let! ts := trsync_oid_lookup a0 in
  irq_disable;;;
  let! o := load (T := trsync) ts in
  (when has (ts_flags o) TSF_CAN_TRIGGER do
     (sched_del_timer (T_member ts M_expire_time);;;
      let! a1 := arg args 1 in
      upd_timer (T_member ts M_expire_time) (λ x, x <| t_waketime := u32 a1 |>);;;
      sched_add_timer (T_member ts M_expire_time)));;;
  irq_enable.

Definition trsync_report (oid flags reason clock : Z) : MC unit :=
  command_sendf "trsync_state oid=%c can_trigger=%c trigger_reason=%c clock=%u"
    [A_int oid; A_int (b2z (has flags TSF_CAN_TRIGGER)); A_int reason; A_int clock].

Definition command_trsync_trigger (args : list Z) : MC unit :=
  let! a0 := arg args 0 in
  let oid := u8 a0 in
  let! ts := trsync_oid_lookup oid in
  irq_disable;;;
  let! a1 := arg args 1 in
  trsync_do_trigger ts a1;;;
  sched_del_timer (T_member ts M_time);;;
  sched_del_timer (T_member ts M_expire_time);;;
  let! o := load (T := trsync) ts in
  store ts (o <| ts_flags := 0 |>);;;
  let trigger_reason := ts_trigger_reason o in
  irq_enable;;;
  trsync_report oid 0 trigger_reason 0.

(** The body of the loop of [trsync_task]. *)
Definition trsync_task_body (oid : Z) (ts : addr) : MC unit :=
  let! o := load (T := trsync) ts in
  if negb (has (ts_flags o) TSF_REPORT) then mret tt
  else
    let! time := timer_read_time in
    irq_disable;;;
    let! o := load (T := trsync) ts in
    let trigger_reason := ts_trigger_reason o in
    let flags := ts_flags o in
    store ts (o <| ts_flags := Z.land flags (Z.lnot TSF_REPORT) |>);;;
    irq_enable;;;
    trsync_report oid flags trigger_reason time.

Definition trsync_task : MC unit :=
  let! w := sched_check_wake trsync_wake in
  if negb w then mret tt
  else foreach_oid command_config_trsync_t trsync_task_body.

Definition trsync_shutdown : MC unit :=
  foreach_oid command_config_trsync_t (λ _ ts, trsync_clear ts).
End trsync.
