(* ===== verification/Stepper.v ===== *)
(** * stepper.c: step generation

    A stepper is the object at address [s]; its [time] member is the timer
    [T_member s M_time], its [stop_signal] the signal named [s]. *)

From S2P Require Import Prelude State Runtime Sched Basecmd Trsync.

Definition MF_DIR : Z := 1.
Definition POSITION_BIAS : Z := 0x40000000.
Definition SF_LAST_DIR : Z := 1.
Definition SF_NEXT_DIR : Z := 2.
Definition SF_INVERT_STEP : Z := 4.
Definition SF_NEED_RESET : Z := 8.
Definition SF_SINGLE_SCHED : Z := 16.
Definition SF_HAVE_ADD : Z := 32.
Definition AVR_STEP_INSNS : Z := 40.

Section stepper.
Context {B : Board}.

Definition HAVE_SINGLE_SCHEDULE : bool :=
  CONFIG_INLINE_STEPPER_HACK && (CONFIG_HAVE_STEPPER_BOTH_EDGE || CONFIG_MACH_AVR).
Definition HAVE_EDGE_OPTIMIZATION : bool :=
  CONFIG_INLINE_STEPPER_HACK && CONFIG_HAVE_STEPPER_BOTH_EDGE.
Definition HAVE_AVR_OPTIMIZATION : bool :=
  CONFIG_INLINE_STEPPER_HACK && negb CONFIG_HAVE_STEPPER_BOTH_EDGE && CONFIG_MACH_AVR.

(** A node of the move pool read as a [struct stepper_move]. *)
Definition get_stepper_move (m : addr) : MC stepper_move :=
  let! n := get_node m in
  deref (match n_data n with MD_stepper d => Some d | _ => None end).
Definition set_stepper_move (m : addr) (d : stepper_move) : MC unit :=
  upd_node m (λ n, n <| n_data := MD_stepper d |>).

Definition stepper_load_next (s : addr) : MC Z :=
  let! o := load (T := stepper) s in
  if move_queue_empty (st_mq o) then
    store s (o <| st_count := 0 |>);;;
    mret SF_DONE
  else
    let! '(mn, mq) := move_queue_pop (st_mq o) in
    let! m := get_stepper_move mn in
    let o := o <| st_mq := mq |> <| st_add := sm_add m |>
               <| st_interval := u32 (sm_interval m + sm_add m) |> in
    let! o :=
      (if HAVE_SINGLE_SCHEDULE && has (st_flags o) SF_SINGLE_SCHED then
         upd_timer (T_member s M_time) (λ x, x <| t_waketime := u32 (t_waketime x + sm_interval m) |>);;;
         let flags := if HAVE_AVR_OPTIMIZATION
                      then if nz (sm_add m) then Z.lor (st_flags o) SF_HAVE_ADD
                           else Z.land (st_flags o) (Z.lnot SF_HAVE_ADD)
                      else st_flags o in
         mret (o <| st_flags := flags |> <| st_count := sm_count m |>)
       else
         let next := u32 (st_next_step_time o + sm_interval m) in
         upd_timer (T_member s M_time) (λ x, x <| t_waketime := next |>);;;
         mret (o <| st_next_step_time := next |> <| st_count := u32 (sm_count m * 2) |>)) in
    (if has (sm_flags m) MF_DIR then
       store s (o <| st_position := u32 (- st_position o + sm_count m) |>);;;
       gpio_out_toggle_noirq (st_dir_pin o)
     else store s (o <| st_position := u32 (st_position o + sm_count m) |>));;;
    move_free mn;;;
    mret SF_RESCHEDULE.

Definition stepper_event_edge (t : tid) : MC Z :=
  let! s := container_of t in
  let! o := load (T := stepper) s in
  gpio_out_toggle_noirq (st_step_pin o);;;
  let count := u32 (st_count o - 1) in
  if nz count then
    upd_timer t (λ x, x <| t_waketime := u32 (t_waketime x + st_interval o) |>);;;
    store s (o <| st_count := count |> <| st_interval := u32 (st_interval o + st_add o) |>);;;
    mret SF_RESCHEDULE
  else stepper_load_next s.

(** [pcount] designates the low half of [count]. *)
Definition stepper_event_avr (t : tid) : MC Z :=
  let! s := container_of t in
  let! o := load (T := stepper) s in
  gpio_out_toggle_noirq (st_step_pin o);;;
  let count := u16 (u16 (st_count o) - 1) in
  if nz count then
    upd_timer t (λ x, x <| t_waketime := u32 (t_waketime x + st_interval o) |>);;;
    gpio_out_toggle_noirq (st_step_pin o);;;
    store s (o <| st_count := st_count o - u16 (st_count o) + count |>
               <| st_interval := if has (st_flags o) SF_HAVE_ADD
                                 then u32 (st_interval o + st_add o) else st_interval o |>);;;
    mret SF_RESCHEDULE
  else
    let! ret := stepper_load_next s in
    let! o := load (T := stepper) s in
    gpio_out_toggle_noirq (st_step_pin o);;;
    mret ret.

(** Label [reschedule_min]. *)
Definition reschedule_min (t : tid) (min_next_time : Z) : MC Z :=
  upd_timer t (λ x, x <| t_waketime := min_next_time |>);;;
  mret SF_RESCHEDULE.

Definition stepper_event_full (t : tid) : MC Z :=
  let! s := container_of t in
  let! o := load (T := stepper) s in
  gpio_out_toggle_noirq (st_step_pin o);;;
  let! curtime := timer_read_time in
  let min_next_time := u32 (curtime + st_step_pulse_ticks o) in
  let o := o <| st_count := u32 (st_count o - 1) |> in
  store s o;;;
  if nz (Z.land (st_count o) 1) then reschedule_min t min_next_time
  else if nz (st_count o) then
    let o := o <| st_next_step_time := u32 (st_next_step_time o + st_interval o) |>
               <| st_interval := u32 (st_interval o + st_add o) |> in
    store s o;;;
    if timer_is_before (st_next_step_time o) min_next_time then reschedule_min t min_next_time
    else
      upd_timer t (λ x, x <| t_waketime := st_next_step_time o |>);;;
      mret SF_RESCHEDULE
  else
    let! ret := stepper_load_next s in
    let! x := get_timer t in
    if (ret =? SF_DONE) || negb (timer_is_before (t_waketime x) min_next_time) then mret ret
    else reschedule_min t min_next_time.

Definition stepper_event (t : tid) : MC Z :=
  if HAVE_EDGE_OPTIMIZATION then stepper_event_edge t
  else if HAVE_AVR_OPTIMIZATION then stepper_event_avr t
  else stepper_event_full t.

(** [int_fast8_t] is 8 bits wide on AVR and an [int] on the other machines. *)
Definition int_fast8 (x : Z) : Z := if CONFIG_MACH_AVR then i8 x else i32 x.

Definition command_config_stepper (args : list Z) : MC unit :=
  let! a0 := arg args 0 in
  let! s := oid_alloc a0 command_config_stepper_t (sizeof_object command_config_stepper_t) 0 in
  let! a3 := arg args 3 in
  let invert_step := int_fast8 a3 in
  let flags := if 0 <? invert_step then SF_INVERT_STEP else 0 in
  upd_obj s (λ o, o <| st_flags := flags |>);;;
  let! a1 := arg args 1 in
  let! step_pin := gpio_out_setup a1 (Z.land flags SF_INVERT_STEP) in
  upd_obj s (λ o, o <| st_step_pin := step_pin |>);;;
  let! a2 := arg args 2 in
  let! dir_pin := gpio_out_setup a2 0 in
  let! a4 := arg args 4 in
  upd_obj s (λ o, o <| st_dir_pin := dir_pin |> <| st_position := u32 (- POSITION_BIAS) |>
                    <| st_step_pulse_ticks := u32 a4 |>);;;
  let! mq := move_queue_setup sizeof_stepper_move in
  upd_obj s (λ o, o <| st_mq := mq |>);;;
  let full := upd_timer (T_member s M_time) (λ x, x <| t_func := F_stepper_event_full |>) in
  let single := upd_obj s (λ o, o <| st_flags := Z.lor (st_flags o) SF_SINGLE_SCHED |>) in
  if HAVE_EDGE_OPTIMIZATION then
    if negb (nz (u32 a4)) && (invert_step <? 0) then single else full
  else if HAVE_AVR_OPTIMIZATION then
    if u32 a4 <=? AVR_STEP_INSNS then single else full
  else if negb CONFIG_INLINE_STEPPER_HACK then full
  else mret tt.

Definition stepper_oid_lookup (oid : Z) : MC addr := oid_lookup oid command_config_stepper_t.

(** The fields [add] and [flags] of a fresh move hold old bytes until they are
    assigned; they are written as 0 before that, and nothing reads them. *)
Definition command_queue_step (args : list Z) : MC unit :=
  let! a0 := arg args 0 in
  let! s := stepper_oid_lookup a0 in
  let! m := move_alloc in
  let! a1 := arg args 1 in
  let! a2 := arg args 2 in
  set_stepper_move m (mk_stepper_move (u32 a1) 0 (u16 a2) 0);;;
  (when u16 a2 =? 0 do shutdown "Invalid count parameter");;;
  let! a3 := arg args 3 in
  irq_disable;;;
  let! o := load (T := stepper) s in
  let flip := negb (eqb (has (st_flags o) SF_LAST_DIR) (has (st_flags o) SF_NEXT_DIR)) in
  let flags := if flip then Z.lxor (st_flags o) SF_LAST_DIR else st_flags o in
  set_stepper_move m (mk_stepper_move (u32 a1) (i16 a3) (u16 a2) (if flip then MF_DIR else 0));;;
  (if nz (st_count o) then
     let! '(_, mq) := move_queue_push m (st_mq o) in
     store s (o <| st_flags := flags |> <| st_mq := mq |>)
   else if has flags SF_NEED_RESET then move_free m
   else
     let! '(_, mq) := move_queue_push m (st_mq o) in
     store s (o <| st_flags := flags |> <| st_mq := mq |>);;;
     let! _ := stepper_load_next s in
     sched_add_timer (T_member s M_time));;;
  irq_enable.

Definition command_set_next_step_dir (args : list Z) : MC unit :=
  let! a0 := arg args 0 in
  let! s := stepper_oid_lookup a0 in
  let! a1 := arg args 1 in
  let nextdir := if nz (u32 a1) then SF_NEXT_DIR else 0 in
  irq_disable;;;
  let! o := load (T := stepper) s in
  store s (o <| st_flags := Z.lor (Z.land (st_flags o) (Z.lnot SF_NEXT_DIR)) nextdir |>);;;
  irq_enable.

Definition command_reset_step_clock (args : list Z) : MC unit :=
  let! a0 := arg args 0 in
  let! s := stepper_oid_lookup a0 in
  let! a1 := arg args 1 in
  let waketime := u32 a1 in
  irq_disable;;;
  let! o := load (T := stepper) s in
  (when nz (st_count o) do shutdown "Can't reset time when stepper active");;;
  upd_timer (T_member s M_time) (λ x, x <| t_waketime := waketime |>);;;
  store s (o <| st_next_step_time := waketime |>
             <| st_flags := Z.land (st_flags o) (Z.lnot SF_NEED_RESET) |>);;;
  irq_enable.

Definition stepper_get_position (o : stepper) : Z :=
  let position :=
    if HAVE_SINGLE_SCHEDULE && has (st_flags o) SF_SINGLE_SCHED
    then u32 (st_position o - st_count o)
    else u32 (st_position o - st_count o / 2) in
  if has position 0x80000000 then u32 (- position) else position.

Definition command_stepper_get_position (args : list Z) : MC unit :=
  let! a0 := arg args 0 in
  let oid := u8 a0 in
  let! s := stepper_oid_lookup oid in
  irq_disable;;;
  let! o := load (T := stepper) s in
  let position := stepper_get_position o in
  irq_enable;;;
  command_sendf "stepper_position oid=%c pos=%i" [A_int oid; A_int (u32 (position - POSITION_BIAS))].

(** The loop that frees the queued moves. *)
Fixpoint free_moves (fuel : nat) (s : addr) : MC unit :=
  match fuel with
  | O => diverge
  | S fuel =>
      let! o := load (T := stepper) s in
      if move_queue_empty (st_mq o) then mret tt
      else
        let! '(mn, mq) := move_queue_pop (st_mq o) in
        store s (o <| st_mq := mq |>);;;
        move_free mn;;;
        free_moves fuel s
  end.

Definition stepper_stop (tss : addr) (reason : Z) : MC unit :=
  let s := tss in
  sched_del_timer (T_member s M_time);;;
  upd_timer (T_member s M_time) (λ x, x <| t_waketime := 0 |>);;;
  let! o := load (T := stepper) s in
  let o := o <| st_next_step_time := 0 |> in
  let o := o <| st_position := u32 (- stepper_get_position o) |> in
  let flags := Z.lor (Z.land (st_flags o) (Z.lor SF_INVERT_STEP SF_SINGLE_SCHED)) SF_NEED_RESET in
  let o := o <| st_count := 0 |> <| st_flags := flags |> in
  store s o;;;
  gpio_out_write (st_dir_pin o) 0;;;
  (when negb (HAVE_EDGE_OPTIMIZATION && has flags SF_SINGLE_SCHED) do
     gpio_out_write (st_step_pin o) (Z.land flags SF_INVERT_STEP));;;
  let! st := get in
  free_moves (S (size (moves st))) s.

(** The functions a [trsync_signal] can hold. *)
Definition signal_callback (f : sigfunc) (tss : addr) (reason : Z) : MC unit :=
  match f with SG_stepper_stop => stepper_stop tss reason end.

Definition command_stepper_stop_on_trigger (args : list Z) : MC unit :=
  let! a0 := arg args 0 in
  let! s := stepper_oid_lookup a0 in
  let! a1 := arg args 1 in
  let! ts := trsync_oid_lookup a1 in
  trsync_add_signal ts s (Some SG_stepper_stop).

Definition stepper_shutdown : MC unit :=
  foreach_oid command_config_stepper_t (λ _ s,
    let! o := load (T := stepper) s in
    store s (o <| st_mq := move_queue_clear (st_mq o) |>);;;
    stepper_stop s 0).
End stepper.
