(* ===== verification/Endstop.v ===== *)
(** * endstop.c: end stops *)

From S2P Require Import Prelude State Runtime Sched Basecmd Trsync Stepper.

Definition ESF_PIN_HIGH : Z := 1.
Definition ESF_HOMING : Z := 2.

Section endstop.
Context {B : Board}.

(** [(val ? ~e->flags : e->flags) & ESF_PIN_HIGH]: the pin is not at the wanted level. *)
Definition no_match (val flags : Z) : bool :=
  has (if nz val then Z.lnot flags else flags) ESF_PIN_HIGH.

Definition endstop_oversample_event (t : tid) : MC Z :=
  let! a := container_of t in
  let! e := load (T := endstop) a in
  let! val := gpio_in_read (es_pin e) in
  if no_match val (es_flags e) then
    upd_timer t (λ x, x <| t_func := F_endstop_event |> <| t_waketime := es_nextwake e |>);;;
    store a (e <| es_trigger_count := es_sample_count e |>);;;
    mret SF_RESCHEDULE
  else
    let count := u8 (es_trigger_count e - 1) in
    if negb (nz count) then
      trsync_do_trigger signal_callback (es_ts e) (es_trigger_reason e);;;
      mret SF_DONE
    else
      store a (e <| es_trigger_count := count |>);;;
      upd_timer t (λ x, x <| t_waketime := u32 (t_waketime x + es_sample_time e) |>);;;
      mret SF_RESCHEDULE.

Definition endstop_event (t : tid) : MC Z :=
  let! a := container_of t in
  let! e := load (T := endstop) a in
  let! val := gpio_in_read (es_pin e) in
  let! x := get_timer t in
  let nextwake := u32 (t_waketime x + es_rest_time e) in
  if no_match val (es_flags e) then
    upd_timer t (λ x, x <| t_waketime := nextwake |>);;;
    mret SF_RESCHEDULE
  else
    store a (e <| es_nextwake := nextwake |>);;;
    upd_timer t (λ x, x <| t_func := F_endstop_oversample_event |>);;;
    endstop_oversample_event t.

Definition command_config_endstop (args : list Z) : MC unit :=
  let! a0 := arg args 0 in
  let! a := oid_alloc a0 command_config_endstop_t (sizeof_object command_config_endstop_t) 0 in
  let! a1 := arg args 1 in
  let! a2 := arg args 2 in
  let! pin := gpio_in_setup a1 a2 in
  let! e := load (T := endstop) a in
  store a (e <| es_pin := pin |>).

Definition command_endstop_home (args : list Z) : MC unit :=
  let! a0 := arg args 0 in
  let! a := oid_lookup a0 command_config_endstop_t in
  sched_del_timer (T_member a M_time);;;
  let! a1 := arg args 1 in
  upd_timer (T_member a M_time) (λ x, x <| t_waketime := u32 a1 |>);;;
  let! a2 := arg args 2 in
  let! a3 := arg args 3 in
  let! e := load (T := endstop) a in
  let e := e <| es_sample_time := u32 a2 |> <| es_sample_count := u8 a3 |> in
  if negb (nz (es_sample_count e)) then
    store a (e <| es_ts := 0 |> <| es_flags := 0 |>)
  else
    let! a4 := arg args 4 in
    upd_timer (T_member a M_time) (λ x, x <| t_func := F_endstop_event |>);;;
    let! a5 := arg args 5 in
    let e := e <| es_rest_time := u32 a4 |> <| es_trigger_count := es_sample_count e |>
               <| es_flags := Z.lor ESF_HOMING (if nz (u32 a5) then ESF_PIN_HIGH else 0) |> in
    store a e;;;
    let! a6 := arg args 6 in
    let! ts := trsync_oid_lookup a6 in
    let! a7 := arg args 7 in
    store a (e <| es_ts := ts |> <| es_trigger_reason := u8 a7 |>);;;
    sched_add_timer (T_member a M_time).

Definition command_endstop_query_state (args : list Z) : MC unit :=
  let! a0 := arg args 0 in
  let oid := u8 a0 in
  let! a := oid_lookup oid command_config_endstop_t in
  irq_disable;;;
  let! e := load (T := endstop) a in
  let eflags := es_flags e in
  let nextwake := es_nextwake e in
  irq_enable;;;
  let! pin_value := gpio_in_read (es_pin e) in
  command_sendf "endstop_state oid=%c homing=%c next_clock=%u pin_value=%c"
    [A_int oid; A_int (b2z (has eflags ESF_HOMING)); A_int nextwake; A_int pin_value].
End endstop.
