(* ===== verification/Outputs.v ===== *)
(** * The outputs: gpiocmds.c, pwmcmds.c and neopixel.c *)

From S2P Require Import Prelude State Runtime Sched Basecmd Trsync.

(** * gpiocmds.c: digital outputs and software PWM *)

Definition DF_ON : Z := 1.
Definition DF_TOGGLING : Z := 2.
Definition DF_CHECK_END : Z := 4.
Definition DF_DEFAULT_ON : Z := 16.

Section gpiocmds.
Context {B : Board}.

(** A node of the move pool read as a [struct digital_move]. *)
Definition get_digital_move (m : addr) : MC digital_move :=
  let! n := get_node m in
  deref (match n_data n with MD_digital d => Some d | _ => None end).

Definition digital_toggle_event (t : tid) : MC Z :=
  let! a := container_of t in
  let! d := load (T := digital_out_s) a in
  gpio_out_toggle_noirq (do_pin d);;;
  let d := d <| do_flags := Z.lxor (do_flags d) DF_ON |> in
  store a d;;;
  let! x := get_timer t in
  let waketime := u32 (t_waketime x + if has (do_flags d) DF_ON then do_on_duration d
                                      else do_off_duration d) in
  let! waketime :=
    (if has (do_flags d) DF_CHECK_END && negb (timer_is_before waketime (do_end_time d)) then
       upd_timer t (λ x, x <| t_func := F_digital_load_event |>);;;
       mret (do_end_time d)
     else mret waketime) in
  upd_timer t (λ x, x <| t_waketime := waketime |>);;;
  mret SF_RESCHEDULE.

(** The [end_time] and [flags] computed from one setting, before the queue is looked at. *)
Definition load_flags (d : digital_out_s) (waketime on_duration : Z) : Z * Z :=
  let flags := if nz on_duration then DF_ON else 0 in
  if negb (nz flags) || (do_cycle_time d <=? on_duration) then
    if negb (eqb (nz flags) (has (do_flags d) DF_DEFAULT_ON)) && nz (do_max_duration d)
    then (u32 (waketime + do_max_duration d), Z.lor flags DF_CHECK_END)
    else (0, flags)
  else
    let flags := Z.lor flags DF_TOGGLING in
    if nz (do_max_duration d)
    then (u32 (waketime + do_max_duration d), Z.lor flags DF_CHECK_END)
    else (0, flags).

Definition digital_load_event (t : tid) : MC Z :=
  let! a := container_of t in
  let! d := load (T := digital_out_s) a in
  (when move_queue_empty (do_mq d) do shutdown "Missed scheduling of next digital out event");;;
  let! '(mn, mq) := move_queue_pop (do_mq d) in
  let d := d <| do_mq := mq |> in
  store a d;;;
  let! m := get_digital_move mn in
  let on_duration := dm_on_duration m in
  gpio_out_write (do_pin d) (if nz on_duration then DF_ON else 0);;;
  move_free mn;;;
  let! x := get_timer t in
  let '(end_time, flags) := load_flags d (t_waketime x) on_duration in
  let! '(end_time, flags) :=
    (if negb (move_queue_empty (do_mq d)) then
       let! nn := get_digital_move (move_queue_first (do_mq d)) in
       let wake := dm_waketime nn in
       (when has flags DF_CHECK_END && timer_is_before end_time wake do
          shutdown "Scheduled digital out event will exceed max_duration");;;
       mret (wake, Z.lor flags DF_CHECK_END)
     else mret (end_time, flags)) in
  let d := d <| do_end_time := end_time |>
             <| do_flags := Z.lor flags (Z.land (do_flags d) DF_DEFAULT_ON) |> in
  store a d;;;
  if negb (has flags DF_TOGGLING) then
    if negb (has flags DF_CHECK_END) then mret SF_DONE
    else
      upd_timer t (λ x, x <| t_waketime := end_time |>);;;
      mret SF_RESCHEDULE
  else
    let waketime := u32 (t_waketime x + on_duration) in
    if has flags DF_CHECK_END && negb (timer_is_before waketime end_time) then
      upd_timer t (λ x, x <| t_waketime := end_time |>);;;
      mret SF_RESCHEDULE
    else
      upd_timer t (λ x, x <| t_func := F_digital_toggle_event |> <| t_waketime := waketime |>);;;
      store a (d <| do_on_duration := on_duration |>
                 <| do_off_duration := u32 (do_cycle_time d - on_duration) |>);;;
      mret SF_RESCHEDULE.

Definition command_config_digital_out (args : list Z) : MC unit :=
  let! a1 := arg args 1 in
  let! a2 := arg args 2 in
  let! pin := gpio_out_setup a1 (b2z (nz (u32 a2))) in
  let! a0 := arg args 0 in
  let! a := oid_alloc a0 command_config_digital_out_t
              (sizeof_object command_config_digital_out_t) 0 in
  let! a3 := arg args 3 in
  let! a4 := arg args 4 in
  upd_obj a (λ d, d <| do_pin := pin |>
    <| do_flags := Z.lor (if nz (u32 a2) then DF_ON else 0)
                         (if nz (u32 a3) then DF_DEFAULT_ON else 0) |>
    <| do_max_duration := u32 a4 |>);;;
  let! mq := move_queue_setup sizeof_digital_move in
  upd_obj a (λ d, d <| do_mq := mq |>).

Definition command_set_digital_out_pwm_cycle (args : list Z) : MC unit :=
  let! a0 := arg args 0 in
  let! a := oid_lookup a0 command_config_digital_out_t in
  irq_disable;;;
  let! d := load (T := digital_out_s) a in
  (when negb (move_queue_empty (do_mq d)) do
     shutdown "Can not set soft pwm cycle ticks while updates pending");;;
  let! a1 := arg args 1 in
  store a (d <| do_cycle_time := u32 a1 |>);;;
  irq_enable.

Definition command_queue_digital_out (args : list Z) : MC unit :=
  let! a0 := arg args 0 in
  let! a := oid_lookup a0 command_config_digital_out_t in
  let! m := move_alloc in
  let! a1 := arg args 1 in
  let time := u32 a1 in
  let! a2 := arg args 2 in
  upd_node m (λ n, n <| n_data := MD_digital (mk_digital_move time (u32 a2)) |>);;;
  irq_disable;;;
  let! d := load (T := digital_out_s) a in
  let! '(first_on_queue, mq) := move_queue_push m (do_mq d) in
  let d := d <| do_mq := mq |> in
  store a d;;;
  if negb (nz first_on_queue) then irq_enable
  else
    let flags := do_flags d in
    (when has flags DF_CHECK_END && timer_is_before (do_end_time d) time do
       shutdown "Scheduled digital out event will exceed max_duration");;;
    store a (d <| do_end_time := time |> <| do_flags := Z.lor flags DF_CHECK_END |>);;;
    let! x := get_timer (T_member a M_time) in
    (if has flags DF_TOGGLING && timer_is_before (t_waketime x) time then mret tt
     else
       sched_del_timer (T_member a M_time);;;
       upd_timer (T_member a M_time)
         (λ x, x <| t_waketime := time |> <| t_func := F_digital_load_event |>);;;
       sched_add_timer (T_member a M_time));;;
    irq_enable.

Definition command_update_digital_out (args : list Z) : MC unit :=
  let! a0 := arg args 0 in
  let! a := oid_lookup a0 command_config_digital_out_t in
  sched_del_timer (T_member a M_time);;;
  let! d := load (T := digital_out_s) a in
  (when negb (move_queue_empty (do_mq d)) do
     shutdown "update_digital_out not valid with active queue");;;
  let! a1 := arg args 1 in
  let value := u8 a1 in
  let flags := do_flags d in
  let on_flag := if nz value then DF_ON else 0 in
  gpio_out_write (do_pin d) on_flag;;;
  if negb (eqb (nz on_flag) (has flags DF_DEFAULT_ON)) && nz (do_max_duration d) then
    let! now := timer_read_time in
    let end_time := u32 (now + do_max_duration d) in
    upd_timer (T_member a M_time)
      (λ x, x <| t_waketime := end_time |> <| t_func := F_digital_load_event |>);;;
    store a (d <| do_end_time := end_time |>
               <| do_flags := Z.lor (Z.lor (Z.land flags DF_DEFAULT_ON) on_flag) DF_CHECK_END |>);;;
    sched_add_timer (T_member a M_time)
  else store a (d <| do_flags := Z.lor (Z.land flags DF_DEFAULT_ON) on_flag |>).

Definition digital_out_shutdown : MC unit :=
  foreach_oid command_config_digital_out_t (λ _ a,
    let! d := load (T := digital_out_s) a in
    gpio_out_write (do_pin d) (Z.land (do_flags d) DF_DEFAULT_ON);;;
    store a (d <| do_flags := if has (do_flags d) DF_DEFAULT_ON
                              then Z.lor DF_ON DF_DEFAULT_ON else 0 |>
               <| do_mq := move_queue_clear (do_mq d) |>)).

Definition command_set_digital_out (args : list Z) : MC unit :=
  let! a0 := arg args 0 in
  let! a1 := arg args 1 in
  let! _ := gpio_out_setup a0 a1 in
  mret tt.
End gpiocmds.

(** * pwmcmds.c: hardware PWM outputs *)

Section pwmcmds.
Context {B : Board}.

(** A node of the move pool read as a [struct pwm_move]. *)
Definition get_pwm_move (m : addr) : MC pwm_move :=
  let! n := get_node m in
  deref (match n_data n with MD_pwm d => Some d | _ => None end).

Definition pwm_end_event (t : tid) : MC Z := shutdown "Missed scheduling of next hard pwm event".

Definition pwm_event (t : tid) : MC Z :=
  let! a := container_of t in
  let! p := load (T := pwm_out_s) a in
  let! '(mn, mq) := move_queue_pop (po_mq p) in
  store a (p <| po_mq := mq |>);;;
  let! m := get_pwm_move mn in
  let value := pm_value m in
  gpio_pwm_write (po_pin p) value;;;
  move_free mn;;;
  if move_queue_empty mq then
    if (value =? po_default_value p) || negb (nz (po_max_duration p)) then mret SF_DONE
    else
      upd_timer t (λ x, x <| t_waketime := u32 (t_waketime x + po_max_duration p) |>
                          <| t_func := F_pwm_end_event |>);;;
      mret SF_RESCHEDULE
  else
    let! nn := get_pwm_move (move_queue_first mq) in
    let wake := pm_waketime nn in
    let! x := get_timer t in
    (when negb (value =? po_default_value p) && nz (po_max_duration p)
          && timer_is_before (u32 (t_waketime x + po_max_duration p)) wake do
       shutdown "Scheduled pwm event will exceed max_duration");;;
    upd_timer t (λ x, x <| t_waketime := wake |>);;;
    mret SF_RESCHEDULE.

Definition command_config_pwm_out (args : list Z) : MC unit :=
  let! a1 := arg args 1 in
  let! a2 := arg args 2 in
  let! a3 := arg args 3 in
  let! pin := gpio_pwm_setup a1 a2 a3 in
  let! a0 := arg args 0 in
  let! a := oid_alloc a0 command_config_pwm_out_t (sizeof_object command_config_pwm_out_t) 0 in
  let! a4 := arg args 4 in
  let! a5 := arg args 5 in
  upd_obj a (λ p, p <| po_pin := pin |> <| po_default_value := u16 a4 |>
                    <| po_max_duration := u32 a5 |>);;;
  upd_timer (T_member a M_time) (λ x, x <| t_func := F_pwm_event |>);;;
  let! mq := move_queue_setup sizeof_pwm_move in
  upd_obj a (λ p, p <| po_mq := mq |>).

Definition command_queue_pwm_out (args : list Z) : MC unit :=
  let! a0 := arg args 0 in
  let! a := oid_lookup a0 command_config_pwm_out_t in
  let! m := move_alloc in
  let! a1 := arg args 1 in
  let! a2 := arg args 2 in
  upd_node m (λ n, n <| n_data := MD_pwm (mk_pwm_move (u32 a1) (u16 a2)) |>);;;
  irq_disable;;;
  let! p := load (T := pwm_out_s) a in
  let! '(need_add_timer, mq) := move_queue_push m (po_mq p) in
  store a (p <| po_mq := mq |>);;;
  irq_enable;;;
  if negb (nz need_add_timer) then mret tt
  else
    sched_del_timer (T_member a M_time);;;
    let! x := get_timer (T_member a M_time) in
    (when bool_decide (t_func x = F_pwm_end_event) && timer_is_before (t_waketime x) (u32 a1) do
       shutdown "Scheduled pwm event will exceed max_duration");;;
    upd_timer (T_member a M_time)
      (λ x, x <| t_func := F_pwm_event |> <| t_waketime := u32 a1 |>);;;
    sched_add_timer (T_member a M_time).

Definition pwm_shutdown : MC unit :=
  foreach_oid command_config_pwm_out_t (λ _ a,
    let! p := load (T := pwm_out_s) a in
    gpio_pwm_write (po_pin p) (po_default_value p);;;
    upd_timer (T_member a M_time) (λ x, x <| t_func := F_pwm_event |>);;;
    store a (p <| po_mq := move_queue_clear (po_mq p) |>)).

Definition command_set_pwm_out (args : list Z) : MC unit :=
  let! a0 := arg args 0 in
  let! a1 := arg args 1 in
  let! a2 := arg args 2 in
  let! _ := gpio_pwm_setup a0 a1 a2 in
  mret tt.
End pwmcmds.

(** * neopixel.c: bit-banging of WS2812 LEDs

    The busy loops take their fuel as arguments. *)

Section neopixel.
Context {B : Board}.

(** neopixel_time_t is [unsigned int]: 16 bits on AVR. *)
Definition neopixel_time (x : Z) : Z := if CONFIG_MACH_AVR then u16 x else u32 x.

Definition nsecs_to_ticks (ns : Z) : Z := neopixel_time (timer_from_us (u32 (ns * 1000)) / 1000000).

Definition neopixel_check_elapsed (t1 t2 ticks : Z) : bool := ticks <=? neopixel_time (t2 - t1).

(** On AVR the counter register holds the low half of the clock. *)
Definition neopixel_get_time : MC Z :=
  let! t := timer_read_time in
  mret (neopixel_time t).

Fixpoint delay_loop (fuel : nat) (start ticks : Z) : MC unit :=
  match fuel with
  | O => diverge
  | S fuel =>
      let! now := neopixel_get_time in
      if neopixel_check_elapsed start now ticks then mret tt
      else delay_loop fuel start ticks
  end.
Definition neopixel_delay (fuel : nat) (start ticks : Z) : MC unit :=
  if CONFIG_MACH_AVR then mret tt else delay_loop fuel start ticks.

Definition PULSE_LONG_TICKS : Z := nsecs_to_ticks 650.
Definition PULSE_SHORT_TICKS : Z := nsecs_to_ticks 200.
Definition BIT_MIN_TICKS : Z := nsecs_to_ticks 1250.

Definition command_config_neopixel (args : list Z) : MC unit :=
  let! a1 := arg args 1 in
  let! pin := gpio_out_setup a1 0 in
  let! a2 := arg args 2 in
  let data_size := u16 a2 in
  (when has data_size 0x8000 do shutdown "Invalid neopixel data_size");;;
  let! a0 := arg args 0 in
  let! n := oid_alloc a0 command_config_neopixel_t
              (sizeof_object command_config_neopixel_t + data_size) (Z.to_nat data_size) in
  let! a3 := arg args 3 in
  let! a4 := arg args 4 in
  upd_obj n (λ o, o <| np_pin := pin |> <| np_data_size := data_size |>
                    <| np_bit_max_ticks := neopixel_time a3 |> <| np_reset_min_ticks := u32 a4 |>).

(** One bit of [send_data]: the new [last_start], or [None] for [goto fail]. *)
Definition send_bit (fuel : nat) (pin bit_max_ticks last_start : Z) (one : bool) : MC (option Z) :=
  neopixel_delay fuel last_start BIT_MIN_TICKS;;;
  irq_disable;;;
  let! start := neopixel_get_time in
  gpio_out_toggle_noirq pin;;;
  if one then
    irq_enable;;;
    if neopixel_check_elapsed last_start start bit_max_ticks then mret None
    else
      neopixel_delay fuel start PULSE_LONG_TICKS;;;
      irq_disable;;;
      gpio_out_toggle_noirq pin;;;
      irq_enable;;;
      let! now := neopixel_get_time in
      neopixel_delay fuel now PULSE_SHORT_TICKS;;;
      mret (Some start)
  else
    neopixel_delay fuel start PULSE_SHORT_TICKS;;;
    gpio_out_toggle_noirq pin;;;
    irq_enable;;;
    if neopixel_check_elapsed last_start start bit_max_ticks then mret None
    else mret (Some start).

(** The [while (bits--)] loop. *)
Fixpoint send_bits (bits : nat) (fuel : nat) (pin bit_max_ticks last_start byte : Z) : MC (option Z) :=
  match bits with
  | O => mret (Some last_start)
  | S bits =>
      let! r := send_bit fuel pin bit_max_ticks last_start (has byte 0x80) in
      match r with
      | None => mret None
      | Some start => send_bits bits fuel pin bit_max_ticks start (uint_fast8 (Z.shiftl byte 1))
      end
  end.

(** The [while (data_len--)] loop. *)
Fixpoint send_bytes (fuel : nat) (pin bit_max_ticks last_start : Z) (data : list Z) : MC bool :=
  match data with
  | [] => mret true
  | byte :: data =>
      let! r := send_bits 8 fuel pin bit_max_ticks last_start byte in
      match r with
      | None => mret false
      | Some start => send_bytes fuel pin bit_max_ticks start data
      end
  end.

(** The wait for the reset time; [irq_poll] lets pending interrupts run. *)
Fixpoint reset_wait (fuel : nat) (last_req_time rmt cur : Z) : MC unit :=
  if u32 (cur - last_req_time) <? rmt then
    match fuel with
    | O => diverge
    | S fuel =>
        let! cur := timer_read_time in
        reset_wait fuel last_req_time rmt cur
    end
  else mret tt.

Definition send_data (reset_fuel fuel : nat) (a : addr) : MC Z :=
  let! n := load (T := neopixel_s) a in
  let! cur := timer_read_time in
  reset_wait reset_fuel (np_last_req_time n) (np_reset_min_ticks n) cur;;;
  let! last_start := neopixel_get_time in
  let! ok := send_bytes fuel (np_pin n) (np_bit_max_ticks n) last_start
               (take (Z.to_nat (np_data_size n)) (np_data n)) in
  if (ok : bool) then
    let! now := timer_read_time in
    upd_obj a (λ n : neopixel_s, n <| np_last_req_time := now |>);;;
    mret 0
  else
    gpio_out_write (np_pin n) 0;;;
    let! now := timer_read_time in
    upd_obj a (λ n : neopixel_s, n <| np_last_req_time := now |>);;;
    mret (-1).

Definition command_neopixel_update (args : list Z) : MC unit :=
  let! a0 := arg args 0 in
  let! a := oid_lookup a0 command_config_neopixel_t in
  let! a1 := arg args 1 in
  let! a2 := arg args 2 in
  let pos := uint_fast16 a1 in
  let data_len := uint_fast8 a2 in
  let! a3 := arg args 3 in
  let! n := load (T := neopixel_s) a in
  (when has pos 0x8000 || (np_data_size n <? uint_fast16 (pos + data_len)) do
     shutdown "Invalid neopixel update command");;;
  let! data := read_ptr a3 (Z.to_nat data_len) in
  if Z.of_nat (length (np_data n)) <? pos + data_len then undef
  else
    store a (n <| np_data := take (Z.to_nat pos) (np_data n) ++ data ++
                             drop (Z.to_nat (pos + data_len)) (np_data n) |>).

Definition command_neopixel_send (reset_fuel fuel : nat) (args : list Z) : MC unit :=
  let! a0 := arg args 0 in
  let oid := u8 a0 in
  let! a := oid_lookup oid command_config_neopixel_t in
  let! ret := send_data reset_fuel fuel a in
  command_sendf "neopixel_result oid=%c success=%c" [A_int oid; A_int (if nz ret then 0 else 1)].
End neopixel.
