(* ===== verification/Inputs.v ===== *)
(** * The inputs: adccmds.c, buttons.c and pulse_counter.c *)

From S2P Require Import Prelude State Runtime Sched Basecmd Trsync.

(** * adccmds.c: analog inputs *)

Section adccmds.
Context {B : Board}.

Definition analog_in_event (t : tid) : MC Z :=
  let! i := container_of t in
  let! a := load (T := analog_in) i in
  let! sample_delay := gpio_adc_sample (ai_pin a) in
  if nz sample_delay then
    upd_timer t (λ x, x <| t_waketime := u32 (t_waketime x + sample_delay) |>);;;
    mret SF_RESCHEDULE
  else
    let! value := gpio_adc_read (ai_pin a) in
    let state := ai_state a in
    let '(state, value) := if ai_sample_count a <=? state then (0, value)
                           else (state, u16 (value + ai_value a)) in
    let a := a <| ai_value := value |> <| ai_state := u8 (state + 1) |> in
    store i a;;;
    if ai_state a <? ai_sample_count a then
      upd_timer t (λ x, x <| t_waketime := u32 (t_waketime x + ai_sample_time a) |>);;;
      mret SF_RESCHEDULE
    else
      let! a :=
        (if (ai_min_value a <=? ai_value a) && (ai_value a <=? ai_max_value a) then
           mret (a <| ai_invalid_count := 0 |>)
         else
           let a := a <| ai_invalid_count := u8 (ai_invalid_count a + 1) |> in
           store i a;;;
           if ai_range_check_count a <=? ai_invalid_count a then
             sched_try_shutdown "ADC out of range";;;
             mret (a <| ai_invalid_count := 0 |>)
           else mret a) in
      sched_wake_task analog_wake;;;
      let next := u32 (ai_next_begin_time a + ai_rest_time a) in
      store i (a <| ai_next_begin_time := next |>);;;
      upd_timer t (λ x, x <| t_waketime := next |>);;;
      mret SF_RESCHEDULE.

Definition command_config_analog_in (args : list Z) : MC unit :=
  let! a1 := arg args 1 in
  let! pin := gpio_adc_setup a1 in
  let! a0 := arg args 0 in
  let! a := oid_alloc a0 command_config_analog_in_t (sizeof_object command_config_analog_in_t) 0 in
  upd_timer (T_member a M_time) (λ x, x <| t_func := F_analog_in_event |>);;;
  upd_obj a (λ o, o <| ai_pin := pin |> <| ai_state := 1 |>).

Definition command_query_analog_in (args : list Z) : MC unit :=
  let! a0 := arg args 0 in
  let! i := oid_lookup a0 command_config_analog_in_t in
  sched_del_timer (T_member i M_time);;;
  let! a := load (T := analog_in) i in
  gpio_adc_cancel_sample (ai_pin a);;;
  let! a1 := arg args 1 in
  upd_timer (T_member i M_time) (λ x, x <| t_waketime := u32 a1 |>);;;
  let! a2 := arg args 2 in
  let! a3 := arg args 3 in
  let! a4 := arg args 4 in
  let! a5 := arg args 5 in
  let! a6 := arg args 6 in
  let! a7 := arg args 7 in
  store i (a <| ai_next_begin_time := u32 a1 |> <| ai_sample_time := u32 a2 |>
             <| ai_sample_count := u8 a3 |> <| ai_state := u8 (u8 a3 + 1) |>
             <| ai_rest_time := u32 a4 |> <| ai_min_value := u16 a5 |>
             <| ai_max_value := u16 a6 |> <| ai_range_check_count := u8 a7 |>);;;
  if negb (nz (u8 a3)) then mret tt
  else sched_add_timer (T_member i M_time).

(** The body of the loop of [analog_in_task]; with interrupts modelled as steps between
    firmware operations, the second test of [state] sees the same value. *)
Definition analog_in_task_body (oid : Z) (i : addr) : MC unit :=
  let! a := load (T := analog_in) i in
  if negb (ai_state a =? ai_sample_count a) then mret tt
  else
    irq_disable;;;
    let! a := load (T := analog_in) i in
    if negb (ai_state a =? ai_sample_count a) then irq_enable
    else
      let value := ai_value a in
      let next_begin_time := ai_next_begin_time a in
      store i (a <| ai_state := u8 (ai_state a + 1) |>);;;
      irq_enable;;;
      command_sendf "analog_in_state oid=%c next_clock=%u value=%hu"
        [A_int oid; A_int next_begin_time; A_int value].

Definition analog_in_task : MC unit :=
  let! w := sched_check_wake analog_wake in
  if negb w then mret tt
  else foreach_oid command_config_analog_in_t analog_in_task_body.

Definition analog_in_shutdown : MC unit :=
  foreach_oid command_config_analog_in_t (λ _ i,
    let! a := load (T := analog_in) i in
    gpio_adc_cancel_sample (ai_pin a);;;
    when nz (ai_sample_count a) do
      (let next := u32 (ai_next_begin_time a + ai_rest_time a) in
       store i (a <| ai_state := u8 (ai_sample_count a + 1) |> <| ai_next_begin_time := next |>);;;
       upd_timer (T_member i M_time) (λ x, x <| t_waketime := next |>);;;
       sched_add_timer (T_member i M_time))).
End adccmds.

(** * buttons.c: user interface buttons *)

Definition BF_NO_RETRANSMIT : Z := 0x80.
Definition BF_PENDING : Z := 0xff.
Definition BF_ACKED : Z := 0xfe.

Section buttons.
Context {B : Board}.

(** The loop that reads the pins, from pin [i] with the bit [bit]. *)
Fixpoint read_pins (pins : list Z) (n : nat) (bit status : Z) {struct n} : MC Z :=
  match n with
  | O => mret status
  | S n =>
      match pins with
      | [] => undef
      | pin :: pins =>
          let! val := gpio_in_read pin in
          read_pins pins n (u8 (Z.shiftl bit 1)) (if nz val then Z.lor status bit else status)
      end
  end.

(** [reports[report_count++] = pressed] and its wake-up, where there is room. *)
Definition add_report (b : buttons) : MC buttons :=
  if bt_report_count b <? 8 then
    let b := b <| bt_reports := <[Z.to_nat (bt_report_count b) := bt_pressed b]> (bt_reports b) |>
               <| bt_report_count := u8 (bt_report_count b + 1) |> in
    sched_wake_task buttons_wake;;;
    mret (b <| bt_retransmit_state := BF_PENDING |>)
  else mret b.

Definition buttons_event (t : tid) : MC Z :=
  let! a := container_of t in
  let! b := load (T := buttons) a in
  let! status := read_pins (bt_pins b) (Z.to_nat (bt_button_count b)) 1 0 in
  let diff := Z.lxor status (bt_pressed b) in
  let! b :=
    (if nz diff then
       let debounced := u8 (Z.lnot (Z.lxor status (bt_last_pressed b))) in
       if has diff debounced then
         add_report (b <| bt_pressed := Z.lor (Z.land (bt_pressed b) (Z.lnot debounced))
                                              (Z.land status debounced) |>)
       else mret b
     else mret b) in
  let b := b <| bt_last_pressed := status |> in
  let! b :=
    (if negb (has (bt_retransmit_state b) BF_NO_RETRANSMIT) then
       let retransmit_state := u8 (bt_retransmit_state b - 1) in
       (when has retransmit_state BF_NO_RETRANSMIT do sched_wake_task buttons_wake);;;
       mret (b <| bt_retransmit_state := retransmit_state |>)
     else mret b) in
  store a b;;;
  upd_timer t (λ x, x <| t_waketime := u32 (t_waketime x + bt_rest_ticks b) |>);;;
  mret SF_RESCHEDULE.

Definition command_config_buttons (args : list Z) : MC unit :=
  let! a1 := arg args 1 in
  let button_count := u8 a1 in
  (when 8 <? button_count do shutdown "Max of 8 buttons");;;
  let! a0 := arg args 0 in
  let! a := oid_alloc a0 command_config_buttons_t
              (sizeof_object command_config_buttons_t + sizeof_gpio_in * button_count)
              (Z.to_nat button_count) in
  upd_obj a (λ b, b <| bt_button_count := button_count |>);;;
  upd_timer (T_member a M_time) (λ x, x <| t_func := F_buttons_event |>).

Definition command_buttons_add (args : list Z) : MC unit :=
  let! a0 := arg args 0 in
  let! a := oid_lookup a0 command_config_buttons_t in
  let! a1 := arg args 1 in
  let pos := u8 a1 in
  let! b := load (T := buttons) a in
  (when bt_button_count b <=? pos do shutdown "Set button past maximum button count");;;
  let! a2 := arg args 2 in
  let! a3 := arg args 3 in
  let! pin := gpio_in_setup a2 a3 in
  store a (b <| bt_pins := <[Z.to_nat pos := pin]> (bt_pins b) |>).

Definition command_buttons_query (args : list Z) : MC unit :=
  let! a0 := arg args 0 in
  let! a := oid_lookup a0 command_config_buttons_t in
  sched_del_timer (T_member a M_time);;;
  let! a1 := arg args 1 in
  upd_timer (T_member a M_time) (λ x, x <| t_waketime := u32 a1 |>);;;
  let! a2 := arg args 2 in
  let! a3 := arg args 3 in
  let! a4 := arg args 4 in
  upd_obj a (λ b, b <| bt_rest_ticks := u32 a2 |> <| bt_pressed := u8 a4 |>
                    <| bt_last_pressed := u8 a4 |> <| bt_ack_count := 0 |>
                    <| bt_report_count := 0 |> <| bt_retransmit_state := BF_ACKED |>
                    <| bt_retransmit_count := u8 a3 |>);;;
  (when BF_NO_RETRANSMIT <=? u8 a3 do shutdown "Invalid buttons retransmit count");;;
  if negb (nz (u32 a2)) then mret tt
  else sched_add_timer (T_member a M_time).

(** [for (i=0; i<pending; i++) reports[i] = reports[i+count]] *)
Fixpoint shift_reports (n i : nat) (count : nat) (reports : list Z) : list Z :=
  match n with
  | O => reports
  | S n => shift_reports n (S i) count (<[i := default 0 (reports !! (i + count)%nat)]> reports)
  end.

Definition command_buttons_ack (args : list Z) : MC unit :=
  let! a0 := arg args 0 in
  let! a := oid_lookup a0 command_config_buttons_t in
  let! a1 := arg args 1 in
  let count := u8 a1 in
  upd_obj a (λ b, b <| bt_ack_count := u8 (bt_ack_count b + count) |>);;;
  irq_disable;;;
  let! b := load (T := buttons) a in
  (if bt_report_count b <=? count then
     store a (b <| bt_report_count := 0 |> <| bt_retransmit_state := BF_ACKED |>)
   else
     let pending := u8 (bt_report_count b - count) in
     store a (b <| bt_reports := shift_reports (Z.to_nat pending) 0 (Z.to_nat count) (bt_reports b) |>
                <| bt_report_count := pending |>));;;
  irq_enable.

(** The body of the loop of [buttons_task]. *)
Definition buttons_task_body (oid : Z) (a : addr) : MC unit :=
  let! b := load (T := buttons) a in
  if negb (bt_retransmit_state b =? BF_PENDING) then mret tt
  else
    irq_disable;;;
    let! b := load (T := buttons) a in
    let report_count := bt_report_count b in
    if negb (nz report_count) then irq_enable
    else
      store a (b <| bt_retransmit_state := bt_retransmit_count b |>);;;
      irq_enable;;;
      let! b := load (T := buttons) a in
      command_sendf "buttons_state oid=%c ack_count=%c state=%*s"
        [A_int oid; A_int (bt_ack_count b); A_buf (take (Z.to_nat report_count) (bt_reports b))].

Definition buttons_task : MC unit :=
  let! w := sched_check_wake buttons_wake in
  if negb w then mret tt
  else foreach_oid command_config_buttons_t buttons_task_body.
End buttons.

(** * pulse_counter.c: edge counting *)

Definition CF_PENDING : Z := 1.

Section pulse_counter.
Context {B : Board}.

Definition counter_event (t : tid) : MC Z :=
  let! a := container_of t in
  let! c := load (T := counter) a in
  let! x := get_timer t in
  let time := t_waketime x in
  let last_value := Z.land (ct_count c) 1 in
  let! value := gpio_in_read (ct_pin c) in
  let c := if negb (last_value =? value)
           then c <| ct_count := u32 (ct_count c + 1) |> <| ct_last_count_time := time |>
           else c in
  store a c;;;
  (when timer_is_before (ct_next_sample_time c) time do
     (store a (c <| ct_flags := Z.lor (ct_flags c) CF_PENDING |>
                 <| ct_next_sample_time := u32 (time + ct_sample_ticks c) |>);;;
      sched_wake_task counter_wake));;;
  upd_timer t (λ x, x <| t_waketime := u32 (t_waketime x + ct_poll_ticks c) |>);;;
  mret SF_RESCHEDULE.

Definition command_config_counter (args : list Z) : MC unit :=
  let! a0 := arg args 0 in
  let! a := oid_alloc a0 command_config_counter_t (sizeof_object command_config_counter_t) 0 in
  let! a1 := arg args 1 in
  let! a2 := arg args 2 in
  let! pin := gpio_in_setup a1 a2 in
  upd_obj a (λ c, c <| ct_pin := pin |>);;;
  upd_timer (T_member a M_time) (λ x, x <| t_func := F_counter_event |>).

Definition command_query_counter (args : list Z) : MC unit :=
  let! a0 := arg args 0 in
  let! a := oid_lookup a0 command_config_counter_t in
  sched_del_timer (T_member a M_time);;;
  let! a1 := arg args 1 in
  upd_timer (T_member a M_time) (λ x, x <| t_waketime := u32 a1 |>);;;
  let! a2 := arg args 2 in
  let! a3 := arg args 3 in
  upd_obj a (λ c, c <| ct_poll_ticks := u32 a2 |> <| ct_sample_ticks := u32 a3 |>
                    <| ct_next_sample_time := u32 a1 |>);;;
  sched_add_timer (T_member a M_time).

(** The body of the loop of [counter_task]. *)
Definition counter_task_body (oid : Z) (a : addr) : MC unit :=
  let! c := load (T := counter) a in
  if negb (has (ct_flags c) CF_PENDING) then mret tt
  else
    irq_disable;;;
    let! x := get_timer (T_member a M_time) in
    let! c := load (T := counter) a in
    store a (c <| ct_flags := Z.land (ct_flags c) (Z.lnot CF_PENDING) |>);;;
    irq_enable;;;
    command_sendf "counter_state oid=%c next_clock=%u count=%u count_clock=%u"
      [A_int oid; A_int (t_waketime x); A_int (ct_count c); A_int (ct_last_count_time c)].

Definition counter_task : MC unit :=
  let! w := sched_check_wake counter_wake in
  if negb w then mret tt
  else foreach_oid command_config_counter_t counter_task_body.
End pulse_counter.
