(* ===== verification/SerialIrq.v ===== *)
(** * generic/serial_irq.c: the serial console

    The console runs on top of the machine: its state adds the two buffers to [mcu].
    Interrupts that may arrive while [console_pop_input] runs are an argument: for each
    iteration of its loop the bytes received before and after the memmove; likewise
    [console_sendf] gets the number of transmit interrupts taken while it runs. *)

From S2P Require Import Prelude State Runtime Sched Vlq Crc Command.

Definition RX_BUFFER_SIZE : Z := 192.
Definition TX_BUFFER_SIZE : Z := 96.

Record console := mk_console
  { con_mcu : mcu; receive_buf : list Z; receive_pos : Z;
    transmit_buf : list Z; transmit_pos : Z; transmit_max : Z; wire : list Z }.
#[export] Instance eta_console : Eta console := λ r,
  mk_console (con_mcu r) (receive_buf r) (receive_pos r) (transmit_buf r) (transmit_pos r)
    (transmit_max r) (wire r).

(** Firmware code running on the machine below the console. *)
Definition lift {A} (m : MC A) : M console A := λ c,
  match m (con_mcu c) with
  | Ret a s => Ret a (c <| con_mcu := s |>)
  | Shut r s => Shut r (c <| con_mcu := s |>)
  | Undef => Undef
  | Diverge => Diverge
  end.

(** [memmove(&buf[dst], &buf[src], n)] inside [buf]. *)
Definition memmove (dst src n : nat) (buf : list Z) : list Z :=
  take dst buf ++ take n (drop src buf) ++ drop (dst + n) buf.

Definition serial_rx_byte (data : Z) : M console unit :=
  (when data =? MESSAGE_SYNC do lift sched_wake_tasks);;;
  let! c := get in
  if RX_BUFFER_SIZE <=? receive_pos c then mret tt
  else modify (λ c, c <| receive_buf := <[Z.to_nat (receive_pos c) := u8 data]> (receive_buf c) |>
                      <| receive_pos := u8 (receive_pos c + 1) |>).

(** A burst of receive interrupts. *)
Fixpoint rx_bytes (l : list Z) : M console unit :=
  match l with
  | [] => mret tt
  | d :: l => serial_rx_byte d;;; rx_bytes l
  end.

(** [None] is the return value -1. *)
Definition serial_get_tx_byte : M console (option Z) :=
  let! c := get in
  if transmit_max c <=? transmit_pos c then mret None
  else
    let! d := deref (transmit_buf c !! Z.to_nat (transmit_pos c)) in
    modify (λ c, c <| transmit_pos := u8 (transmit_pos c + 1) |>);;;
    mret (Some d).

(** The board's transmit interrupt: a byte taken from the buffer goes out on [wire].
    [serial_enable_tx_irq] only makes such interrupts possible. *)
Fixpoint tx_isrs (n : nat) : M console unit :=
  match n with
  | O => mret tt
  | S n =>
      let! d := serial_get_tx_byte in
      (match d with
       | None => mret tt
       | Some d => modify (λ c, c <| wire := wire c ++ [d] |>)
       end);;;
      tx_isrs n
  end.

(** The retry loop of [console_pop_input]. *)
Fixpoint pop_loop (fuel : nat) (rx : list (list Z * list Z)) (len copied : Z) : M console unit :=
  match fuel with
  | O => diverge
  | S fuel =>
      let! rpos := gets receive_pos in
      let needcopy := rpos - len in
      rx_bytes (from_option fst [] (head rx));;;
      let! copied :=
        (if nz needcopy then
           modify (λ c, c <| receive_buf := memmove (Z.to_nat copied) (Z.to_nat (copied + len))
                                              (Z.to_nat (needcopy - copied)) (receive_buf c) |>);;;
           lift sched_wake_tasks;;;
           mret needcopy
         else mret copied) in
      rx_bytes (from_option snd [] (head rx));;;
      let! flag := lift irq_save in
      let! c := get in
      if negb (rpos =? receive_pos c) then
        lift (irq_restore flag);;;
        pop_loop fuel (tail rx) len copied
      else
        modify (λ c, c <| receive_pos := u8 needcopy |>);;;
        lift (irq_restore flag)
  end.
(** [receive_pos] can change at most [RX_BUFFER_SIZE] times. *)
Definition console_pop_input (rx : list (list Z * list Z)) (len : Z) : M console unit :=
  pop_loop 194 rx len 0.

Section console.
Context {B : Board}.

(** [rx] as in [console_pop_input]; the bootloader request of
    CONFIG_HAVE_BOOTLOADER_REQUEST is not taken. *)
Definition console_task (command_index : list command_parser) (rx : list (list Z * list Z))
    : M console unit :=
  let! c := get in
  let buf := take (Z.to_nat (receive_pos c)) (receive_buf c) in
  let! '(ret, pop_count) := lift (command_find_block buf) in
  (when 0 <? ret do lift (command_dispatch command_index buf pop_count));;;
  when nz ret do
    (console_pop_input rx pop_count;;;
     when 0 <? ret do lift command_send_ack).

(** Bytes stored from position [p]; undefined past the end of the buffer. *)
Definition write_at (p : Z) (bytes : list Z) : M console unit :=
  let! c := get in
  if (Z.of_nat (length (transmit_buf c)) <? p + Z.of_nat (length bytes)) then undef
  else modify (λ c, c <| transmit_buf := take (Z.to_nat p) (transmit_buf c) ++ bytes ++
                           drop (Z.to_nat p + length bytes) (transmit_buf c) |>).

(** Send the message once there is room at [tmax]. *)
Definition send_at (sizeof_int tmax : Z) (ce : command_encoder) (args : list va_arg) : M console unit :=
  let! '(msglen, block) := lift (command_encode_and_frame sizeof_int ce args) in
  write_at tmax block;;;
  modify (λ c, c <| transmit_max := u8 (tmax + msglen) |>).

(** [tx1] interrupts are taken between the first reads and the write that stops them. *)
Definition console_sendf (tx1 : nat) (sizeof_int : Z) (ce : command_encoder) (args : list va_arg)
    : M console unit :=
  let! c := get in
  let! '(tpos, tmax) :=
    (if transmit_max c <=? transmit_pos c then
       modify (λ c, c <| transmit_max := 0 |> <| transmit_pos := 0 |>);;;
       mret (0, 0)
     else mret (transmit_pos c, transmit_max c)) in
  let max_size := ce_max_size ce in
  tx_isrs tx1;;;
  if TX_BUFFER_SIZE <? tmax + max_size then
    if TX_BUFFER_SIZE <? tmax + max_size - tpos then mret tt
    else
      modify (λ c, c <| transmit_max := 0 |>);;;
      let! tpos := gets transmit_pos in
      let tmax := tmax - tpos in
      modify (λ c, c <| transmit_buf := memmove 0 (Z.to_nat tpos) (Z.to_nat tmax) (transmit_buf c) |>
                     <| transmit_pos := 0 |> <| transmit_max := tmax |>);;;
      send_at sizeof_int tmax ce args
  else send_at sizeof_int tmax ce args.
End console.
