(* ===== verification/Canserial.v ===== *)
(** * generic/canserial.c and canbus.c: the console over CAN

    The state adds the buffers, the node id and the queue of admin messages to [mcu].  Frames
    that the receive interrupt delivers while a function runs are an argument of it.  The
    hardware accepts a frame ([canhw_send] is positive), is busy (negative), or has no room for
    it; that, and whether the build has a bootloader, is up to the board. *)

From S2P Require Import Prelude State Runtime Sched Vlq Crc Command SerialIrq.

(** struct canbus_msg. *)
Record canbus_msg := mk_canmsg { cm_id : Z; cm_dlc : Z; cm_data : list Z }.

Definition CANBUS_ID_ADMIN : Z := 0x3f0.
Definition CANBUS_ID_ADMIN_RESP : Z := 0x3f1.
Definition CANMSG_DATA_LEN (msg : canbus_msg) : Z := if 8 <? cm_dlc msg then 8 else cm_dlc msg.
Definition CANBUS_UUID_LEN : nat := 6.

(** struct canbus_data over the machine.  [can_sends] counts the calls of [canhw_send],
    [can_wire] has the frames it accepted, [can_filter] the last filter set and [can_boot] the
    bootloader requests. *)
Record canbus_data := mk_can
  { can_mcu : mcu; can_assigned_id : Z; can_uuid : list Z;
    can_tx_wake : Z; can_transmit_pos : Z; can_transmit_max : Z;
    can_rx_wake : Z; can_receive_pos : Z; can_admin_pull_pos : Z; can_admin_push_pos : Z;
    can_admin_queue : list canbus_msg; can_transmit_buf : list Z; can_receive_buf : list Z;
    can_sends : nat; can_wire : list canbus_msg; can_filter : Z; can_boot : nat }.
#[export] Instance eta_canbus_data : Eta canbus_data := λ r,
  mk_can (can_mcu r) (can_assigned_id r) (can_uuid r) (can_tx_wake r) (can_transmit_pos r) (can_transmit_max r)
    (can_rx_wake r) (can_receive_pos r) (can_admin_pull_pos r) (can_admin_push_pos r) (can_admin_queue r)
    (can_transmit_buf r) (can_receive_buf r) (can_sends r) (can_wire r) (can_filter r) (can_boot r).
Abbreviation CAN := (M canbus_data).

Class CanBoard := {
  canhw_send : nat → canbus_msg → Z;
  CONFIG_HAVE_BOOTLOADER_REQUEST : bool;
}.

(** Firmware code running on the machine below. *)
Definition can_lift {A} (m : MC A) : CAN A := λ c,
  match m (can_mcu c) with
  | Ret a s => Ret a (c <| can_mcu := s |>)
  | Shut r s => Shut r (c <| can_mcu := s |>)
  | Undef => Undef
  | Diverge => Diverge
  end.

(** [n] bytes from position [pos] of a buffer. *)
Definition bytes_at (buf : list Z) (pos n : Z) : option (list Z) :=
  if Z.of_nat (length buf) <? pos + n then None else Some (take (Z.to_nat n) (drop (Z.to_nat pos) buf)).
(** [bytes] stored from position [pos]. *)
Definition put_at (buf : list Z) (pos : Z) (bytes : list Z) : option (list Z) :=
  if Z.of_nat (length buf) <? pos + Z.of_nat (length bytes) then None
  else Some (take (Z.to_nat pos) buf ++ bytes ++ drop (Z.to_nat pos + length bytes) buf).

(** ** Transmission *)

Definition canserial_notify_tx : CAN unit :=
  can_lift sched_wake_tasks;;;
  modify (λ c, c <| can_tx_wake := 1 |>).
Definition canbus_notify_tx : CAN unit := canserial_notify_tx.
Definition canserial_notify_rx : CAN unit :=
  can_lift sched_wake_tasks;;;
  modify (λ c, c <| can_rx_wake := 1 |>).

(** [sched_check_wake] on one of the two flags. *)
Definition check_tx_wake : CAN bool :=
  let! c := get in
  if negb (nz (can_tx_wake c)) then mret false
  else modify (λ c, c <| can_tx_wake := 0 |>);;; mret true.
Definition check_rx_wake : CAN bool :=
  let! c := get in
  if negb (nz (can_rx_wake c)) then mret false
  else modify (λ c, c <| can_rx_wake := 0 |>);;; mret true.

Section board.
Context {B : Board} {CB : CanBoard}.

Definition canbus_send (msg : canbus_msg) : CAN Z :=
  let! c := get in
  let ret := canhw_send (can_sends c) msg in
  modify (λ c, c <| can_sends := S (can_sends c) |>
                 <| can_wire := if 0 <? ret then can_wire c ++ [msg] else can_wire c |>);;;
  mret ret.
Definition canbus_set_filter (id : Z) : CAN unit := modify (λ c, c <| can_filter := id |>).

(** The loop of [canserial_tx_task]. *)
Fixpoint tx_loop (fuel : nat) (id tpos tmax : Z) : CAN Z :=
  match fuel with
  | O => diverge
  | S fuel =>
      let avail := tmax - tpos in
      let now := if 8 <? avail then 8 else avail in
      if avail <=? 0 then mret tpos
      else
        let! c := get in
        let! data := deref (bytes_at (can_transmit_buf c) tpos now) in
        let! ret := canbus_send (mk_canmsg id now data) in
        if ret <=? 0 then mret tpos
        else tx_loop fuel id (tpos + now) tmax
  end.

(** [transmit_max] is at most 255, so 32 rounds of up to 8 bytes are enough. *)
Definition canserial_tx_task : CAN unit :=
  let! awake := check_tx_wake in
  if negb awake then mret tt
  else
    let! c := get in
    let id := can_assigned_id c in
    if negb (nz id) then modify (λ c, c <| can_transmit_max := 0 |> <| can_transmit_pos := 0 |>)
    else
      let! tpos := tx_loop 33 (u32 (id + 1)) (can_transmit_pos c) (can_transmit_max c) in
      modify (λ c, c <| can_transmit_pos := u8 tpos |>).

(** The message is encoded at [tmax]. *)
Definition can_send_at (sizeof_int tmax : Z) (ce : command_encoder) (args : list va_arg) : CAN unit :=
  let! '(msglen, block) := can_lift (command_encode_and_frame sizeof_int ce args) in
  let! c := get in
  let! buf := deref (put_at (can_transmit_buf c) tmax block) in
  modify (λ c, c <| can_transmit_buf := buf |> <| can_transmit_max := u8 (tmax + msglen) |>);;;
  canserial_notify_tx.

Definition can_console_sendf (sizeof_int : Z) (ce : command_encoder) (args : list va_arg) : CAN unit :=
  let! c := get in
  let! '(tpos, tmax) :=
    (if can_transmit_max c <=? can_transmit_pos c then
       modify (λ c, c <| can_transmit_max := 0 |> <| can_transmit_pos := 0 |>);;;
       mret (0, 0)
     else mret (can_transmit_pos c, can_transmit_max c)) in
  let max_size := ce_max_size ce in
  if TX_BUFFER_SIZE <? tmax + max_size then
    if TX_BUFFER_SIZE <? tmax + max_size - tpos then mret tt
    else
      let tmax := tmax - tpos in
      modify (λ c, c <| can_transmit_buf := memmove 0 (Z.to_nat tpos) (Z.to_nat tmax) (can_transmit_buf c) |>
                     <| can_transmit_pos := 0 |> <| can_transmit_max := tmax |>);;;
      can_send_at sizeof_int tmax ce args
  else can_send_at sizeof_int tmax ce args.

(** ** Admin messages *)

Definition CANBUS_CMD_QUERY_UNASSIGNED : Z := 0x00.
Definition CANBUS_CMD_SET_KLIPPER_NODEID : Z := 0x01.
Definition CANBUS_CMD_REQUEST_BOOTLOADER : Z := 0x02.
Definition CANBUS_RESP_NEED_NODEID : Z := 0x20.

Definition can_check_uuid (c : canbus_data) (msg : canbus_msg) : bool :=
  (7 <=? cm_dlc msg) && bool_decide (take CANBUS_UUID_LEN (drop 1 (cm_data msg)) = can_uuid c).

Definition can_get_nodeid (c : canbus_data) : Z :=
  if negb (nz (can_assigned_id c)) then 0 else Z.shiftr (u32 (can_assigned_id c - 0x100)) 1.
Definition can_decode_nodeid (nodeid : Z) : Z := u32 (Z.shiftl nodeid 1 + 0x100).

(** Sending with retry; [fuel] is how long the hardware may stay busy. *)
Fixpoint send_retry (fuel : nat) (msg : canbus_msg) : CAN unit :=
  match fuel with
  | O => diverge
  | S fuel =>
      let! ret := canbus_send msg in
      if 0 <=? ret then mret tt else send_retry fuel msg
  end.

Definition can_process_query_unassigned (patience : nat) : CAN unit :=
  let! c := get in
  if nz (can_assigned_id c) then mret tt
  else send_retry patience
         (mk_canmsg CANBUS_ID_ADMIN_RESP 8 ([CANBUS_RESP_NEED_NODEID] ++ can_uuid c ++ [CANBUS_CMD_SET_KLIPPER_NODEID])).

Definition can_id_conflict : CAN unit :=
  modify (λ c, c <| can_assigned_id := 0 |>);;;
  canbus_set_filter 0;;;
  can_lift (shutdown "Another CAN node assigned this ID").

Definition can_process_set_klipper_nodeid (msg : canbus_msg) : CAN unit :=
  if cm_dlc msg <? 8 then mret tt
  else
    let! nodeid := deref (cm_data msg !! 7%nat) in
    let newid := can_decode_nodeid nodeid in
    let! c := get in
    if can_check_uuid c msg then
      when negb (newid =? can_assigned_id c) do
        (modify (λ c, c <| can_assigned_id := newid |>);;;
         canbus_set_filter newid)
    else when newid =? can_assigned_id c do can_id_conflict.

(** [bootloader_request] is board code: that it was called is recorded. *)
Definition can_process_request_bootloader (msg : canbus_msg) : CAN unit :=
  let! c := get in
  if negb CONFIG_HAVE_BOOTLOADER_REQUEST || negb (can_check_uuid c msg) then mret tt
  else modify (λ c, c <| can_boot := S (can_boot c) |>).

Definition can_process_admin (patience : nat) (msg : canbus_msg) : CAN unit :=
  if negb (nz (cm_dlc msg)) then mret tt
  else
    let! cmd := deref (cm_data msg !! 0%nat) in
    if cmd =? CANBUS_CMD_QUERY_UNASSIGNED then can_process_query_unassigned patience
    else if cmd =? CANBUS_CMD_SET_KLIPPER_NODEID then can_process_set_klipper_nodeid msg
    else if cmd =? CANBUS_CMD_REQUEST_BOOTLOADER then can_process_request_bootloader msg
    else mret tt.

(** ** Reception *)

Definition ADMIN_QUEUE_SIZE : Z := 8.

Definition canserial_process_data (msg : canbus_msg) : CAN unit :=
  let! c := get in
  let id := cm_id msg in
  if nz (can_assigned_id c) && (id =? can_assigned_id c) then
    let rpos := can_receive_pos c in
    let len := CANMSG_DATA_LEN msg in
    if u32 (RX_BUFFER_SIZE - rpos) <? len then mret tt
    else
      let! buf := deref (put_at (can_receive_buf c) rpos (take (Z.to_nat len) (cm_data msg))) in
      modify (λ c, c <| can_receive_buf := buf |> <| can_receive_pos := u8 (rpos + len) |>);;;
      canserial_notify_rx
  else if (id =? CANBUS_ID_ADMIN) || (nz (can_assigned_id c) && (id =? u32 (can_assigned_id c + 1))) then
    let pushp := can_admin_push_pos c in
    if u32 (can_admin_pull_pos c + ADMIN_QUEUE_SIZE) <=? pushp then mret tt
    else
      let pos := pushp mod ADMIN_QUEUE_SIZE in
      modify (λ c, c <| can_admin_queue := <[Z.to_nat pos := msg]> (can_admin_queue c) |>
                     <| can_admin_push_pos := u32 (pushp + 1) |>);;;
      canserial_notify_rx
  else mret tt.
Definition canbus_process_data (msg : canbus_msg) : CAN unit := canserial_process_data msg.

(** A burst of receive interrupts. *)
Fixpoint rx_frames (l : list canbus_msg) : CAN unit :=
  match l with
  | [] => mret tt
  | msg :: l => canbus_process_data msg;;; rx_frames l
  end.

(** The retry loop of [console_pop_input]; for each iteration the frames received before and
    after the memmove. *)
Fixpoint can_pop_loop (fuel : nat) (rx : list (list canbus_msg * list canbus_msg)) (len copied : Z) : CAN unit :=
  match fuel with
  | O => diverge
  | S fuel =>
      let! rpos := gets can_receive_pos in
      let needcopy := rpos - len in
      rx_frames (from_option fst [] (head rx));;;
      let! copied :=
        (if nz needcopy then
           modify (λ c, c <| can_receive_buf := memmove (Z.to_nat copied) (Z.to_nat (copied + len))
                                                  (Z.to_nat (needcopy - copied)) (can_receive_buf c) |>);;;
           canserial_notify_rx;;;
           mret needcopy
         else mret copied) in
      rx_frames (from_option snd [] (head rx));;;
      let! flag := can_lift irq_save in
      let! c := get in
      if negb (rpos =? can_receive_pos c) then
        can_lift (irq_restore flag);;;
        can_pop_loop fuel (tail rx) len copied
      else
        modify (λ c, c <| can_receive_pos := u8 needcopy |>);;;
        can_lift (irq_restore flag)
  end.
(** [receive_pos] can change at most 192 times. *)
Definition can_console_pop_input (rx : list (list canbus_msg * list canbus_msg)) (len : Z) : CAN unit :=
  can_pop_loop 194 rx len 0.

(** One message of the admin queue, after the frames [irq] have arrived; [false] when there is
    none. *)
Definition admin_round (patience : nat) (irq : list canbus_msg) : CAN bool :=
  rx_frames irq;;;
  let! c := get in
  let pushp := can_admin_push_pos c in
  let pullp := can_admin_pull_pos c in
  if pushp =? pullp then mret false
  else
    let pos := pullp mod ADMIN_QUEUE_SIZE in
    let! msg := deref (can_admin_queue c !! Z.to_nat pos) in
    (if nz (can_assigned_id c) && (cm_id msg =? u32 (can_assigned_id c + 1)) then can_id_conflict
     else when cm_id msg =? CANBUS_ID_ADMIN do can_process_admin patience msg);;;
    modify (λ c, c <| can_admin_pull_pos := u32 (pullp + 1) |>);;;
    mret true.
Fixpoint admin_loop (fuel : nat) (patience : nat) (irqs : list (list canbus_msg)) : CAN unit :=
  match fuel with
  | O => diverge
  | S fuel =>
      let! more := admin_round patience (from_option id [] (head irqs)) in
      if (more : bool) then admin_loop fuel patience (tail irqs) else mret tt
  end.

(** [irqs] are the frames that arrive in each round of the admin loop, [rx] those that arrive
    while the buffer is popped; a round takes a message, and there are no more than the 8 in
    the queue and those that arrive. *)
Definition canserial_rx_task (command_index : list command_parser) (patience : nat)
    (irqs : list (list canbus_msg)) (rx : list (list canbus_msg * list canbus_msg)) : CAN unit :=
  let! awake := check_rx_wake in
  if negb awake then mret tt
  else
    admin_loop (9 + length (concat irqs)) patience irqs;;;
    let! c := get in
    let buf := take (Z.to_nat (can_receive_pos c)) (can_receive_buf c) in
    let! '(ret, pop_count) := can_lift (command_find_block buf) in
    (when 0 <? ret do can_lift (command_dispatch command_index buf pop_count));;;
    when nz ret do
      (can_console_pop_input rx pop_count;;;
       when 0 <? ret do can_lift command_send_ack).

(** ** Setup and shutdown *)

Definition command_get_canbus_id : CAN unit :=
  let! c := get in
  can_lift (command_sendf "canbus_id canbus_uuid=%.*s canbus_nodeid=%u" [A_buf (can_uuid c); A_int (can_get_nodeid c)]).

(** lib/fast-hash/fasthash.c on a little endian machine. *)
Definition mix (h : Z) : Z :=
  let h := Z.lxor h (Z.shiftr h 23) in
  let h := u64 (h * 0x2127599bf4325c37) in
  Z.lxor h (Z.shiftr h 47).
Fixpoint le_bytes (l : list Z) : Z :=
  match l with [] => 0 | b :: l => b + 256 * le_bytes l end.
Definition FASTHASH_M : Z := 0x880355f21e6d1965.
Fixpoint hash_words (n : nat) (buf : list Z) (h : Z) : Z * list Z :=
  match n with
  | O => (h, buf)
  | S n => hash_words n (drop 8 buf) (u64 (Z.lxor h (mix (le_bytes (take 8 buf))) * FASTHASH_M))
  end.
Definition fasthash64 (buf : list Z) (seed : Z) : Z :=
  let len := length buf in
  let '(h, pos2) := hash_words (len / 8) buf (Z.lxor seed (u64 (Z.of_nat len * FASTHASH_M))) in
  let h := match pos2 with [] => h | _ => u64 (Z.lxor h (mix (le_bytes pos2)) * FASTHASH_M) end in
  mix h.

(** The first bytes of a number in memory. *)
Fixpoint to_le_bytes (n : nat) (v : Z) : list Z :=
  match n with O => [] | S n => v mod 256 :: to_le_bytes n (v / 256) end.
Definition canserial_set_uuid (raw_uuid : list Z) : CAN unit :=
  let hash := fasthash64 raw_uuid 0xA16231A7 in
  modify (λ c, c <| can_uuid := to_le_bytes CANBUS_UUID_LEN hash |>);;;
  canserial_notify_rx.

Definition canserial_shutdown : CAN unit :=
  canserial_notify_tx;;;
  canserial_notify_rx.
End board.
