(* ===== verification/UsbCdc.v ===== *)
(** * generic/usb_cdc.c: the console over USB

    The state adds the buffers, the transfer of endpoint 0 and the line settings to [mcu].  The
    controller is the class [UsbBoard]: what each call of one of its functions returns depends
    on the number of calls before it; the state records what it has been given.  [uint_fast8_t]
    is wider than eight bits, as on the 32 bit boards. *)

From S2P Require Import Prelude State Runtime Sched Vlq Crc Command SerialIrq Canserial.

(** ** Standard definitions: usbstd.h, usbstd_cdc.h and usb_cdc.h *)

Definition USB_DIR_IN : Z := 0x80.
Definition USB_REQ_SET_ADDRESS : Z := 0x05.
Definition USB_REQ_GET_DESCRIPTOR : Z := 0x06.
Definition USB_REQ_SET_CONFIGURATION : Z := 0x09.
Definition USB_CDC_REQ_SET_LINE_CODING : Z := 0x20.
Definition USB_CDC_REQ_GET_LINE_CODING : Z := 0x21.
Definition USB_CDC_REQ_SET_CONTROL_LINE_STATE : Z := 0x22.
Definition USB_DT_DEVICE : Z := 0x01.
Definition USB_DT_CONFIG : Z := 0x02.
Definition USB_DT_STRING : Z := 0x03.
Definition USB_DT_INTERFACE : Z := 0x04.
Definition USB_DT_ENDPOINT : Z := 0x05.
Definition USB_CDC_CS_INTERFACE : Z := 0x24.
Definition USB_LANGID_ENGLISH_US : Z := 0x0409.
Definition USB_STR_ID_MANUFACTURER : Z := 1.
Definition USB_STR_ID_PRODUCT : Z := 2.
Definition USB_STR_ID_SERIAL : Z := 3.

Definition USB_CDC_EP0_SIZE : Z := 16.
Definition USB_CDC_EP_ACM_SIZE : Z := 8.
Definition USB_CDC_EP_BULK_OUT_SIZE : Z := 64.
Definition USB_CDC_EP_BULK_IN_SIZE : Z := 64.

Record usb_ctrlrequest := mk_ctrlrequest
  { cr_bRequestType : Z; cr_bRequest : Z; cr_wValue : Z; cr_wIndex : Z; cr_wLength : Z }.

(** Board code.  A call that reads gives the return value and the bytes that were stored. *)
Class UsbBoard := {
  usb_read_bulk_out : nat → Z * list Z;
  usb_send_bulk_in : nat → list Z → Z;
  usb_read_ep0 : nat → Z → Z * list Z;
  (** [None] unless the return value is the size of a request. *)
  usb_read_ep0_setup : nat → option usb_ctrlrequest;
  usb_send_ep0 : nat → list Z → Z;
  usb_send_ep0_progmem : nat → list Z → Z;
  (** The bytes of the descriptor, as [usb_fill_serial] builds it. *)
  usbserial_get_serialid : list Z;
  NEED_PROGMEM : bool;
  CONFIG_USB_VENDOR_ID : Z;
  CONFIG_USB_DEVICE_ID : Z;
  CONFIG_USB_SERIAL_NUMBER_CHIPID : bool;
  USB_HAVE_BOOTLOADER_REQUEST : bool;
  (** The characters of CONFIG_MCU and CONFIG_USB_SERIAL_NUMBER. *)
  USB_STR_PRODUCT : list Z;
  USB_STR_SERIAL : list Z;
  USB_CDC_EP_BULK_IN : Z;
  USB_CDC_EP_BULK_OUT : Z;
  USB_CDC_EP_ACM : Z;
}.

(** ** State *)

(** Where the data of a transfer is: nowhere, in constants of which these bytes follow, or in
    [line_coding] at an offset. *)
Inductive xfer_data := XD_null | XD_bytes (l : list Z) | XD_line (off : nat).

(** What the controller has been told on endpoint 0. *)
Inductive ep0_event :=
| EP_sent (packet : list Z)
| EP_stall
| EP_set_address (addr : Z)
| EP_set_configure
| EP_bootloader_request.

Record usb_data := mk_usb
  { us_mcu : mcu; us_bulk_in_wake : Z; us_transmit_buf : list Z; us_transmit_pos : Z;
    us_bulk_out_wake : Z; us_receive_buf : list Z; us_receive_pos : Z;
    usb_xfer_data : xfer_data; usb_xfer_size : Z; usb_xfer_flags : Z;
    line_coding : list Z; line_control_state : Z; us_ep0_wake : Z;
    us_calls : nat; us_wire : list Z; us_ep0 : list ep0_event }.
#[export] Instance eta_usb_data : Eta usb_data := λ r,
  mk_usb (us_mcu r) (us_bulk_in_wake r) (us_transmit_buf r) (us_transmit_pos r) (us_bulk_out_wake r)
    (us_receive_buf r) (us_receive_pos r) (usb_xfer_data r) (usb_xfer_size r) (usb_xfer_flags r)
    (line_coding r) (line_control_state r) (us_ep0_wake r) (us_calls r) (us_wire r) (us_ep0 r).
Abbreviation USB := (M usb_data).

Definition usb_lift {A} (m : MC A) : USB A := λ u,
  match m (us_mcu u) with
  | Ret a s => Ret a (u <| us_mcu := s |>)
  | Shut r s => Shut r (u <| us_mcu := s |>)
  | Undef => Undef
  | Diverge => Diverge
  end.

Definition usb_notify_bulk_in : USB unit :=
  usb_lift sched_wake_tasks;;;
  modify (λ u, u <| us_bulk_in_wake := 1 |>).
Definition usb_notify_bulk_out : USB unit :=
  usb_lift sched_wake_tasks;;;
  modify (λ u, u <| us_bulk_out_wake := 1 |>).
Definition usb_notify_ep0 : USB unit :=
  usb_lift sched_wake_tasks;;;
  modify (λ u, u <| us_ep0_wake := 1 |>).

(** A call of the controller. *)
Definition usb_call : USB nat :=
  let! u := get in
  modify (λ u, u <| us_calls := S (us_calls u) |>);;;
  mret (us_calls u).
Definition ep0_emit (e : ep0_event) : USB unit := modify (λ u, u <| us_ep0 := us_ep0 u ++ [e] |>).

Definition USB_TX_SIZE : Z := 192.
Definition USB_RX_SIZE : Z := 128.

Section board.
Context {B : Board} {UB : UsbBoard}.

(** ** Sending blocks *)

Definition usb_bulk_in_task : USB unit :=
  let! u := get in
  if negb (nz (us_bulk_in_wake u)) then mret tt
  else
    modify (λ u, u <| us_bulk_in_wake := 0 |>);;;
    let tpos := us_transmit_pos u in
    if negb (nz tpos) then mret tt
    else
      let max_tpos := if USB_CDC_EP_BULK_IN_SIZE <? tpos then USB_CDC_EP_BULK_IN_SIZE else tpos in
      let! data := deref (bytes_at (us_transmit_buf u) 0 max_tpos) in
      let! n := usb_call in
      let ret := usb_send_bulk_in n data in
      if ret <=? 0 then mret tt
      else
        modify (λ u, u <| us_wire := us_wire u ++ take (Z.to_nat ret) data |>);;;
        let needcopy := tpos - ret in
        (when nz needcopy do
           (modify (λ u, u <| us_transmit_buf := memmove 0 (Z.to_nat ret) (Z.to_nat needcopy) (us_transmit_buf u) |>);;;
            usb_notify_bulk_in));;;
        modify (λ u, u <| us_transmit_pos := u8 needcopy |>).

Definition usb_console_sendf (sizeof_int : Z) (ce : command_encoder) (args : list va_arg) : USB unit :=
  let! u := get in
  let tpos := us_transmit_pos u in
  if USB_TX_SIZE <? tpos + ce_max_size ce then mret tt
  else
    let! '(msglen, block) := usb_lift (command_encode_and_frame sizeof_int ce args) in
    let! buf := deref (put_at (us_transmit_buf u) tpos block) in
    modify (λ u, u <| us_transmit_buf := buf |> <| us_transmit_pos := u8 (tpos + msglen) |>);;;
    usb_notify_bulk_in.

(** ** Reading blocks *)

Definition usb_bulk_out_task (command_index : list command_parser) : USB unit :=
  let! u := get in
  if negb (nz (us_bulk_out_wake u)) then mret tt
  else
    modify (λ u, u <| us_bulk_out_wake := 0 |>);;;
    let rpos := us_receive_pos u in
    let! rpos :=
      (if rpos + USB_CDC_EP_BULK_OUT_SIZE <=? USB_RX_SIZE then
         let! n := usb_call in
         let '(ret, data) := usb_read_bulk_out n in
         let! buf := deref (put_at (us_receive_buf u) rpos data) in
         modify (λ u, u <| us_receive_buf := buf |>);;;
         if 0 <? ret then
           usb_notify_bulk_out;;;
           mret (rpos + ret)
         else mret rpos
       else
         usb_notify_bulk_out;;;
         mret rpos) in
    let! u := get in
    let! '(ret, pop_count) := usb_lift (command_find_and_dispatch command_index (take (Z.to_nat rpos) (us_receive_buf u))) in
    let! rpos :=
      (if nz ret then
         let needcopy := rpos - pop_count in
         (when nz needcopy do
            (modify (λ u, u <| us_receive_buf := memmove 0 (Z.to_nat pop_count) (Z.to_nat needcopy) (us_receive_buf u) |>);;;
             usb_notify_bulk_out));;;
         mret needcopy
       else mret rpos) in
    modify (λ u, u <| us_receive_pos := u8 rpos |>).

(** ** Descriptors *)

(** [cpu_to_le16] in a packed struct. *)
Definition le16 (x : Z) : list Z := to_le_bytes 2 x.

Definition string_descriptor (chars : list Z) : list Z :=
  [u8 (2 + 2 * Z.of_nat (length chars)); USB_DT_STRING] ++ (chars ≫= le16).
Definition cdc_string_langids : list Z := string_descriptor [USB_LANGID_ENGLISH_US].
(** "Klipper" *)
Definition cdc_string_manufacturer : list Z := string_descriptor [75; 108; 105; 112; 112; 101; 114].
Definition cdc_string_product : list Z := string_descriptor USB_STR_PRODUCT.
Definition cdc_string_serial : list Z := string_descriptor USB_STR_SERIAL.

Definition cdc_device_descriptor : list Z :=
  [18; USB_DT_DEVICE] ++ le16 0x0200 ++ [2; 0; 0; USB_CDC_EP0_SIZE] ++ le16 CONFIG_USB_VENDOR_ID ++
  le16 CONFIG_USB_DEVICE_ID ++ le16 0x0100 ++ [USB_STR_ID_MANUFACTURER; USB_STR_ID_PRODUCT; USB_STR_ID_SERIAL; 1].

Definition interface_descriptor (number endpoints class subclass protocol : Z) : list Z :=
  [9; USB_DT_INTERFACE; number; 0; endpoints; class; subclass; protocol; 0].
Definition endpoint_descriptor (address attributes size interval : Z) : list Z :=
  [7; USB_DT_ENDPOINT; address; attributes] ++ le16 size ++ [interval].
Definition cdc_config_descriptor : list Z :=
  let parts :=
    interface_descriptor 0 1 2 2 1 ++
    ([5; USB_CDC_CS_INTERFACE; 0x00] ++ le16 0x0110) ++
    [4; USB_CDC_CS_INTERFACE; 0x02; 0x06] ++
    [5; USB_CDC_CS_INTERFACE; 0x06; 0; 1] ++
    endpoint_descriptor (Z.lor USB_CDC_EP_ACM USB_DIR_IN) 3 USB_CDC_EP_ACM_SIZE 255 ++
    interface_descriptor 1 2 0x0A 0 0 ++
    endpoint_descriptor USB_CDC_EP_BULK_OUT 2 USB_CDC_EP_BULK_OUT_SIZE 0 ++
    endpoint_descriptor (Z.lor USB_CDC_EP_BULK_IN USB_DIR_IN) 2 USB_CDC_EP_BULK_IN_SIZE 0 in
  [9; USB_DT_CONFIG] ++ le16 (9 + Z.of_nat (length parts)) ++ [2; 1; 0; 0xC0; 50] ++ parts.

(** struct descriptor_s; [size] is the length of [desc]. *)
Record descriptor_s := mk_descriptor { ds_wValue : Z; ds_wIndex : Z; ds_desc : list Z }.
Definition cdc_descriptors : list descriptor_s :=
  [mk_descriptor (Z.shiftl USB_DT_DEVICE 8) 0 cdc_device_descriptor;
   mk_descriptor (Z.shiftl USB_DT_CONFIG 8) 0 cdc_config_descriptor;
   mk_descriptor (Z.shiftl USB_DT_STRING 8) 0 cdc_string_langids;
   mk_descriptor (Z.lor (Z.shiftl USB_DT_STRING 8) USB_STR_ID_MANUFACTURER) USB_LANGID_ENGLISH_US cdc_string_manufacturer;
   mk_descriptor (Z.lor (Z.shiftl USB_DT_STRING 8) USB_STR_ID_PRODUCT) USB_LANGID_ENGLISH_US cdc_string_product] ++
  (if CONFIG_USB_SERIAL_NUMBER_CHIPID then []
   else [mk_descriptor (Z.lor (Z.shiftl USB_DT_STRING 8) USB_STR_ID_SERIAL) USB_LANGID_ENGLISH_US cdc_string_serial]).

(** The digit of half byte [i] of a chip id. *)
Definition serial_digit (id : list Z) (i : nat) : option Z :=
  b ← id !! (i / 2)%nat;
  let c := if Nat.odd i then Z.land b 0x0f else Z.shiftr b 4 in
  Some (if c <? 10 then c + 48 else c - 10 + 65).
(** The bytes of the descriptor; reading past the end of the id is undefined. *)
Definition usb_fill_serial (strlen : nat) (id : list Z) : option (list Z) :=
  chars ← mapM (serial_digit id) (seq 0 strlen);
  Some (string_descriptor chars).

(** ** Endpoint 0 *)

Definition UX_READ : Z := 1.
Definition UX_SEND : Z := 2.
Definition UX_SEND_PROGMEM : Z := 4.
Definition UX_SEND_ZLP : Z := 8.

Definition usb_do_stall : USB unit :=
  ep0_emit EP_stall;;;
  modify (λ u, u <| usb_xfer_flags := 0 |>).

(** The next [n] bytes of a transfer. *)
Definition data_at (d : xfer_data) (n : Z) : USB (list Z) :=
  if n <=? 0 then mret []
  else
    let! u := get in
    match d with
    | XD_null => undef
    | XD_bytes l => deref (bytes_at l 0 n)
    | XD_line off => deref (bytes_at (line_coding u) (Z.of_nat off) n)
    end.
(** [data += n] *)
Definition data_next (d : xfer_data) (n : Z) : xfer_data :=
  match d with
  | XD_null => XD_null
  | XD_bytes l => XD_bytes (drop (Z.to_nat n) l)
  | XD_line off => XD_line (off + Z.to_nat n)
  end.
(** Bytes stored at the place of a transfer; nothing can be stored in constants. *)
Definition store_at (d : xfer_data) (bytes : list Z) : USB unit :=
  match bytes, d with
  | [], _ => mret tt
  | _, XD_line off =>
      let! u := get in
      let! l := deref (put_at (line_coding u) (Z.of_nat off) bytes) in
      modify (λ u, u <| line_coding := l |>)
  | _, _ => undef
  end.

(** One call of the controller for a packet of [xs] bytes. *)
Definition xfer_packet (d : xfer_data) (xs flags : Z) : USB Z :=
  if has flags UX_READ then
    let! n := usb_call in
    let '(ret, bytes) := usb_read_ep0 n xs in
    store_at d bytes;;;
    mret ret
  else
    let! data := data_at d xs in
    let! n := usb_call in
    let ret := if NEED_PROGMEM && has flags UX_SEND_PROGMEM then usb_send_ep0_progmem n data else usb_send_ep0 n data in
    (when ret =? xs do ep0_emit (EP_sent data));;;
    mret ret.

Fixpoint xfer_loop (fuel : nat) (d : xfer_data) (size flags : Z) : USB unit :=
  match fuel with
  | O => diverge
  | S fuel =>
      let xs := if USB_CDC_EP0_SIZE <? size then USB_CDC_EP0_SIZE else size in
      let! ret := xfer_packet d xs flags in
      if ret =? xs then
        let d := data_next d xs in
        let size := size - xs in
        if negb (nz size) then
          if has flags UX_READ then xfer_loop fuel d size UX_SEND
          else if (xs =? USB_CDC_EP0_SIZE) && has flags UX_SEND_ZLP then xfer_loop fuel d size flags
          else
            modify (λ u, u <| usb_xfer_flags := 0 |>);;;
            usb_notify_ep0
        else xfer_loop fuel d size flags
      else if ret =? -1 then
        modify (λ u, u <| usb_xfer_data := d |> <| usb_xfer_size := u8 size |> <| usb_xfer_flags := u8 flags |>)
      else usb_do_stall
  end.
(** At most 255 bytes are 16 packets, and one more ends the transfer. *)
Definition usb_do_xfer (d : xfer_data) (size flags : Z) : USB unit := xfer_loop 18 d size flags.

(** The last matching entry of the table. *)
Definition find_descriptor (req : usb_ctrlrequest) : option (list Z) :=
  foldl (λ found d, if (ds_wValue d =? cr_wValue req) && (ds_wIndex d =? cr_wIndex req) then Some (ds_desc d) else found)
    None cdc_descriptors.

Definition usb_req_get_descriptor (req : usb_ctrlrequest) : USB unit :=
  if negb (cr_bRequestType req =? USB_DIR_IN) then usb_do_stall
  else
    let desc := (λ l, (l, Z.of_nat (length l), if NEED_PROGMEM then UX_SEND_PROGMEM else UX_SEND)) <$> find_descriptor req in
    let desc :=
      if CONFIG_USB_SERIAL_NUMBER_CHIPID &&
         (cr_wValue req =? Z.lor (Z.shiftl USB_DT_STRING 8) USB_STR_ID_SERIAL) && (cr_wIndex req =? USB_LANGID_ENGLISH_US)
      then Some (usbserial_get_serialid, default 0 (usbserial_get_serialid !! 0%nat), UX_SEND) else desc in
    match desc with
    | None => usb_do_stall
    | Some (l, size, flags) =>
        if cr_wLength req <? size then usb_do_xfer (XD_bytes l) (cr_wLength req) flags
        else if size <? cr_wLength req then usb_do_xfer (XD_bytes l) size (Z.lor flags UX_SEND_ZLP)
        else usb_do_xfer (XD_bytes l) size flags
    end.

Definition usb_req_set_address (req : usb_ctrlrequest) : USB unit :=
  if nz (cr_bRequestType req) || nz (cr_wIndex req) || nz (cr_wLength req) then usb_do_stall
  else ep0_emit (EP_set_address (cr_wValue req)).

Definition usb_req_set_configuration (req : usb_ctrlrequest) : USB unit :=
  if nz (cr_bRequestType req) || negb (cr_wValue req =? 1) || nz (cr_wIndex req) || nz (cr_wLength req) then usb_do_stall
  else
    ep0_emit EP_set_configure;;;
    usb_notify_bulk_in;;;
    usb_notify_bulk_out;;;
    usb_do_xfer XD_null 0 UX_SEND.

(** sizeof(struct usb_cdc_line_coding) *)
Definition LINE_CODING_SIZE : Z := 7.
Definition dwDTERate (line_coding : list Z) : Z := le_bytes (take 4 line_coding).

Definition check_reboot : USB unit :=
  let! u := get in
  when USB_HAVE_BOOTLOADER_REQUEST && (dwDTERate (line_coding u) =? 1200) && negb (has (line_control_state u) 0x01)
  do ep0_emit EP_bootloader_request.

Definition usb_req_set_line_coding (req : usb_ctrlrequest) : USB unit :=
  if negb (cr_bRequestType req =? 0x21) || nz (cr_wValue req) || nz (cr_wIndex req) || negb (cr_wLength req =? LINE_CODING_SIZE)
  then usb_do_stall
  else
    usb_do_xfer (XD_line 0) LINE_CODING_SIZE UX_READ;;;
    check_reboot.

Definition usb_req_get_line_coding (req : usb_ctrlrequest) : USB unit :=
  if negb (cr_bRequestType req =? 0xa1) || nz (cr_wValue req) || nz (cr_wIndex req) || (cr_wLength req <? LINE_CODING_SIZE)
  then usb_do_stall
  else usb_do_xfer (XD_line 0) LINE_CODING_SIZE UX_SEND.

Definition usb_req_set_line (req : usb_ctrlrequest) : USB unit :=
  if negb (cr_bRequestType req =? 0x21) || nz (cr_wIndex req) || nz (cr_wLength req) then usb_do_stall
  else
    modify (λ u, u <| line_control_state := u8 (cr_wValue req) |>);;;
    usb_do_xfer XD_null 0 UX_SEND;;;
    check_reboot.

Definition usb_state_ready : USB unit :=
  let! n := usb_call in
  match usb_read_ep0_setup n with
  | None => mret tt
  | Some req =>
      let r := cr_bRequest req in
      if r =? USB_REQ_GET_DESCRIPTOR then usb_req_get_descriptor req
      else if r =? USB_REQ_SET_ADDRESS then usb_req_set_address req
      else if r =? USB_REQ_SET_CONFIGURATION then usb_req_set_configuration req
      else if r =? USB_CDC_REQ_SET_LINE_CODING then usb_req_set_line_coding req
      else if r =? USB_CDC_REQ_GET_LINE_CODING then usb_req_get_line_coding req
      else if r =? USB_CDC_REQ_SET_CONTROL_LINE_STATE then usb_req_set_line req
      else usb_do_stall
  end.

Definition usb_ep0_task : USB unit :=
  let! u := get in
  if negb (nz (us_ep0_wake u)) then mret tt
  else
    modify (λ u, u <| us_ep0_wake := 0 |>);;;
    if nz (usb_xfer_flags u) then usb_do_xfer (usb_xfer_data u) (usb_xfer_size u) (usb_xfer_flags u)
    else usb_state_ready.

Definition usb_shutdown : USB unit :=
  usb_notify_bulk_in;;;
  usb_notify_bulk_out;;;
  usb_notify_ep0.
End board.
