(* ===== verification/Buses.v ===== *)
(** * The buses: spicmds.c and spi_software.c, i2ccmds.c with initial_pins.c, and sdiocmds.c *)

From S2P Require Import Prelude State Runtime Sched Basecmd.

(** * spicmds.c and spi_software.c: messages on an SPI bus

    A data buffer is passed to a transfer as the list of its bytes; the result is what
    the buffer holds afterwards. *)

Definition SF_HAVE_PIN : Z := 1.
Definition SF_SOFTWARE : Z := 2.
Definition SF_HARDWARE : Z := 4.
Definition SF_CS_ACTIVE_HIGH : Z := 8.

Section spicmds.
Context {B : Board}.

(** ** spi_software.c *)

Definition spi_software_prepare (ss : addr) : MC unit :=
  let! o := load (T := spi_software) ss in
  gpio_out_write (ss_sclk o) (Z.land (ss_mode o) 2).

(** The loop over the bits of one byte, [n] of them still to go. *)
Fixpoint soft_bits (n : nat) (o : spi_software) (outbuf inbuf : Z) : MC Z :=
  match n with
  | O => mret inbuf
  | S n =>
      if has (ss_mode o) 1 then
        gpio_out_toggle (ss_sclk o);;;
        gpio_out_write (ss_mosi o) (Z.land outbuf 0x80);;;
        let outbuf := u8 (Z.shiftl outbuf 1) in
        gpio_out_toggle (ss_sclk o);;;
        let! v := gpio_in_read (ss_miso o) in
        soft_bits n o outbuf (Z.lor (u8 (Z.shiftl inbuf 1)) v)
      else
        gpio_out_write (ss_mosi o) (Z.land outbuf 0x80);;;
        let outbuf := u8 (Z.shiftl outbuf 1) in
        gpio_out_toggle (ss_sclk o);;;
        let! v := gpio_in_read (ss_miso o) in
        gpio_out_toggle (ss_sclk o);;;
        soft_bits n o outbuf (Z.lor (u8 (Z.shiftl inbuf 1)) v)
  end.

(** The [while (len--)] loop over the bytes of the buffer. *)
Fixpoint soft_bytes (o : spi_software) (receive_data : bool) (data : list Z) : MC (list Z) :=
  match data with
  | [] => mret []
  | b :: data =>
      let! inbuf := soft_bits 8 o b 0 in
      let! rest := soft_bytes o receive_data data in
      mret ((if receive_data then inbuf else b) :: rest)
  end.
Definition spi_software_transfer (ss : addr) (receive_data : bool) (data : list Z) : MC (list Z) :=
  let! o := load (T := spi_software) ss in
  soft_bytes o receive_data data.

(** ** spicmds.c *)

Definition command_config_spi (args : list Z) : MC unit :=
  let! a0 := arg args 0 in
  let! spi := oid_alloc a0 command_config_spi_t (sizeof_object command_config_spi_t) 0 in
  let! a2 := arg args 2 in
  let cs_active_high := uint_fast8 a2 in
  let! a1 := arg args 1 in
  let! pin := gpio_out_setup a1 (b2z (negb (nz cs_active_high))) in
  upd_obj spi (λ o, o <| sp_pin := pin |>
    <| sp_flags := Z.lor (sp_flags o)
         (Z.lor SF_HAVE_PIN (if nz cs_active_high then SF_CS_ACTIVE_HIGH else 0)) |>).

Definition command_config_spi_without_cs (args : list Z) : MC unit :=
  let! a0 := arg args 0 in
  let! _ := oid_alloc a0 command_config_spi_t (sizeof_object command_config_spi_t) 0 in
  mret tt.

Definition spidev_oid_lookup (oid : Z) : MC addr := oid_lookup oid command_config_spi_t.

Definition command_spi_set_bus (args : list Z) : MC unit :=
  let! a0 := arg args 0 in
  let! spi := spidev_oid_lookup a0 in
  let! a2 := arg args 2 in
  let mode := u8 a2 in
  let! o := load (T := spidev_s) spi in
  (when (3 <? mode) || has (sp_flags o) (Z.lor SF_SOFTWARE SF_HARDWARE) do
     shutdown "Invalid spi config");;;
  let! a1 := arg args 1 in
  let! a3 := arg args 3 in
  let! config := spi_setup a1 mode a3 in
  upd_obj spi (λ o, o <| sp_bus := config |> <| sp_flags := Z.lor (sp_flags o) SF_HARDWARE |>).

Definition spidev_set_software_bus (spi ss : addr) : MC unit :=
  let! o := load (T := spidev_s) spi in
  (when has (sp_flags o) (Z.lor SF_SOFTWARE SF_HARDWARE) do shutdown "Invalid spi config");;;
  upd_obj spi (λ o, o <| sp_bus := SB_soft ss |> <| sp_flags := Z.lor (sp_flags o) SF_SOFTWARE |>).

Definition command_spi_set_software_bus (args : list Z) : MC unit :=
  let! a4 := arg args 4 in
  let mode := u8 a4 in
  (when 3 <? mode do shutdown "Invalid spi config");;;
  let! a0 := arg args 0 in
  let! spi := spidev_oid_lookup a0 in
  let! ss := alloc_chunk sizeof_spi_software in
  store ss (mk_spi_software 0 0 0 0);;;
  let! a1 := arg args 1 in
  let! miso := gpio_in_setup a1 1 in
  upd_obj ss (λ o, o <| ss_miso := miso |>);;;
  let! a2 := arg args 2 in
  let! mosi := gpio_out_setup a2 0 in
  upd_obj ss (λ o, o <| ss_mosi := mosi |>);;;
  let! a3 := arg args 3 in
  let! sclk := gpio_out_setup a3 0 in
  upd_obj ss (λ o, o <| ss_sclk := sclk |> <| ss_mode := mode |>);;;
  spidev_set_software_bus spi ss.

Definition spidev_have_cs_pin (o : spidev_s) : Z := Z.land (sp_flags o) SF_HAVE_PIN.
Definition spidev_get_cs_pin (o : spidev_s) : Z := sp_pin o.

(** [data] is the whole array [data_len] counts in. *)
Definition spidev_transfer (spi : addr) (receive_data : bool) (data_len : Z) (data : list Z)
    : MC (list Z) :=
  let data_len := u8 data_len in
  let! o := load (T := spidev_s) spi in
  let flags := sp_flags o in
  if negb (has flags (Z.lor SF_SOFTWARE SF_HARDWARE)) then mret data
  else if Z.of_nat (length data) <? data_len then undef
  else
    let buf := take (Z.to_nat data_len) data in
    let soft := CONFIG_HAVE_GPIO_BITBANGING && has flags SF_SOFTWARE in
    (if soft then
       let! ss := deref (match sp_bus o with SB_soft ss => Some ss | _ => None end) in
       spi_software_prepare ss
     else spi_prepare (sp_bus o));;;
    (when has flags SF_HAVE_PIN do
       gpio_out_write (sp_pin o) (b2z (has flags SF_CS_ACTIVE_HIGH)));;;
    let! buf :=
      (if soft then
         let! ss := deref (match sp_bus o with SB_soft ss => Some ss | _ => None end) in
         spi_software_transfer ss receive_data buf
       else spi_transfer (sp_bus o) receive_data buf) in
    (when has flags SF_HAVE_PIN do
       gpio_out_write (sp_pin o) (b2z (negb (has flags SF_CS_ACTIVE_HIGH))));;;
    mret (buf ++ drop (Z.to_nat data_len) data).

Definition command_spi_transfer (args : list Z) : MC unit :=
  let! a0 := arg args 0 in
  let oid := u8 a0 in
  let! spi := spidev_oid_lookup oid in
  let! a1 := arg args 1 in
  let data_len := u8 a1 in
  let! a2 := arg args 2 in
  let! data := read_ptr a2 (Z.to_nat data_len) in
  let! data := spidev_transfer spi true data_len data in
  write_ptr a2 data;;;
  command_sendf "spi_transfer_response oid=%c response=%*s" [A_int oid; A_buf data].

Definition command_spi_send (args : list Z) : MC unit :=
  let! a0 := arg args 0 in
  let! spi := spidev_oid_lookup a0 in
  let! a1 := arg args 1 in
  let data_len := u8 a1 in
  let! a2 := arg args 2 in
  let! data := read_ptr a2 (Z.to_nat data_len) in
  let! _ := spidev_transfer spi false data_len data in
  mret tt.

Definition command_config_spi_shutdown (args : list Z) : MC unit :=
  let! a1 := arg args 1 in
  let! spi := spidev_oid_lookup a1 in
  let! a2 := arg args 2 in
  let shutdown_msg_len := u8 a2 in
  let! a0 := arg args 0 in
  let! sd := oid_alloc a0 command_config_spi_shutdown_t
               (sizeof_object command_config_spi_shutdown_t + shutdown_msg_len)
               (Z.to_nat shutdown_msg_len) in
  upd_obj sd (λ o, o <| sd_spi := spi |> <| sd_shutdown_msg_len := shutdown_msg_len |>);;;
  let! a3 := arg args 3 in
  let! shutdown_msg := read_ptr a3 (Z.to_nat shutdown_msg_len) in
  upd_obj sd (λ o, o <| sd_shutdown_msg := shutdown_msg |>).

Definition spidev_shutdown : MC unit :=
  foreach_oid command_config_spi_t (λ _ spi,
    let! o := load (T := spidev_s) spi in
    when has (sp_flags o) SF_HAVE_PIN do
      gpio_out_write (sp_pin o) (b2z (negb (has (sp_flags o) SF_CS_ACTIVE_HIGH))));;;
  foreach_oid command_config_spi_shutdown_t (λ _ a,
    let! sd := load (T := spidev_shutdown_s) a in
    let! _ := spidev_transfer (sd_spi sd) false (sd_shutdown_msg_len sd) (sd_shutdown_msg sd) in
    mret tt).
End spicmds.

(** * i2ccmds.c: messages on an I2C bus, and initial_pins.c *)

Section i2ccmds.
Context {B : Board}.

Definition command_config_i2c (args : list Z) : MC unit :=
  let! a3 := arg args 3 in
  let addr := u8 (Z.land a3 0x7f) in
  let! a0 := arg args 0 in
  let! i2c := oid_alloc a0 command_config_i2c_t (sizeof_object command_config_i2c_t) 0 in
  let! a1 := arg args 1 in
  let! a2 := arg args 2 in
  let! config := i2c_setup a1 a2 addr in
  upd_obj i2c (λ o, o <| id_config := Some config |>).

Definition i2cdev_oid_lookup (oid : Z) : MC addr := oid_lookup oid command_config_i2c_t.

Definition command_i2c_write (args : list Z) : MC unit :=
  let! a0 := arg args 0 in
  let oid := u8 a0 in
  let! i2c := oid_lookup oid command_config_i2c_t in
  let! a1 := arg args 1 in
  let data_len := u8 a1 in
  let! a2 := arg args 2 in
  let! data := read_ptr a2 (Z.to_nat data_len) in
  let! o := load (T := i2cdev_s) i2c in
  i2c_write (id_config o) data.

Definition command_i2c_read (args : list Z) : MC unit :=
  let! a0 := arg args 0 in
  let oid := u8 a0 in
  let! i2c := oid_lookup oid command_config_i2c_t in
  let! a1 := arg args 1 in
  let reg_len := u8 a1 in
  let! a2 := arg args 2 in
  let! reg := read_ptr a2 (Z.to_nat reg_len) in
  let! a3 := arg args 3 in
  let data_len := u8 a3 in
  let! o := load (T := i2cdev_s) i2c in
  let! data := i2c_read (id_config o) reg (Z.to_nat data_len) in
  command_sendf "i2c_read_response oid=%c response=%*s" [A_int oid; A_buf data].

(** [receive_data[i] &= ~clear[i]; receive_data[i] |= set[i]]. *)
Definition modify_bits (data clear set : list Z) : list Z :=
  zip_with (λ (d : Z) (cs : Z * Z), Z.lor (Z.land d (u8 (Z.lnot cs.1))) cs.2) data (zip clear set).

Definition command_i2c_modify_bits (args : list Z) : MC unit :=
  let! a0 := arg args 0 in
  let oid := u8 a0 in
  let! i2c := oid_lookup oid command_config_i2c_t in
  let! a1 := arg args 1 in
  let reg_len := u8 a1 in
  let! a2 := arg args 2 in
  let! reg := read_ptr a2 (Z.to_nat reg_len) in
  let! clear_set_len := arg args 3 in
  (when negb (clear_set_len mod 2 =? 0) do shutdown "i2c_modify_bits: Odd number of bits!");;;
  let data_len := u8 (clear_set_len / 2) in
  let! a4 := arg args 4 in
  let! clear_set := read_ptr a4 (Z.to_nat (2 * data_len)) in
  let! o := load (T := i2cdev_s) i2c in
  let! data := i2c_read (id_config o) reg (Z.to_nat data_len) in
  let data := modify_bits data (take (Z.to_nat data_len) clear_set) (drop (Z.to_nat data_len) clear_set) in
  i2c_write (id_config o) (take (Z.to_nat (u8 (reg_len + data_len))) (reg ++ data)).
End i2ccmds.

(** ** initial_pins.c *)

Section initial_pins.
Context {B : Board}.

Definition IP_OUT_HIGH : Z := 1.

Fixpoint setup_pins (l : list (Z * Z)) : MC unit :=
  match l with
  | [] => mret tt
  | (pin, flags) :: l =>
      let! _ := gpio_out_setup pin (Z.land flags IP_OUT_HIGH) in
      setup_pins l
  end.
(** [sizeof] of a string literal counts the final NUL. *)
Definition initial_pins_setup : MC unit :=
  if (Z.of_nat (String.length CONFIG_INITIAL_PINS) + 1 <=? 1) then mret tt
  else setup_pins initial_pins.
End initial_pins.

(** * sdiocmds.c: messages on an SDIO bus *)

Definition TIMEOUT_MSEC : Z := 500.

Section sdiocmds.
Context {B : Board}.

Definition command_config_sdio (args : list Z) : MC unit :=
  let! a0 := arg args 0 in
  let! a := oid_alloc a0 command_config_sdio_t (sizeof_object command_config_sdio_t) 0 in
  let! a1 := arg args 1 in
  upd_obj a (λ o, o <| sx_blocksize := u32 a1 |> <| sx_speed := 400000 |>).

Definition sdiodev_oid_lookup (oid : Z) : MC addr := oid_lookup oid command_config_sdio_t.

Definition command_sdio_set_bus (args : list Z) : MC unit :=
  let! a0 := arg args 0 in
  let! a := sdiodev_oid_lookup a0 in
  let! a1 := arg args 1 in
  let! config := sdio_setup a1 in
  upd_obj a (λ o, o <| sx_config := Some config |>).

Definition command_sdio_set_speed (args : list Z) : MC unit :=
  let! a0 := arg args 0 in
  let! a := sdiodev_oid_lookup a0 in
  let! a1 := arg args 1 in
  upd_obj a (λ o, o <| sx_speed := u32 a1 |>);;;
  let! o := load (T := sdiodev_s) a in
  sdio_set_speed (sx_config o) (sx_speed o).

Definition command_sdio_send_command (args : list Z) : MC unit :=
  let! a0 := arg args 0 in
  let oid := u8 a0 in
  let! a1 := arg args 1 in
  let! a2 := arg args 2 in
  let! a3 := arg args 3 in
  let! a := sdiodev_oid_lookup oid in
  let! o := load (T := sdiodev_s) a in
  let! '(err, response) := sdio_send_command (sx_config o) (u8 a1) (u32 a2) (u8 a3) in
  command_sendf "sdio_send_command_response oid=%c error=%c response=%*s"
    [A_int oid; A_int err; A_buf response].

(** [TIMEOUT_MSEC*sdio->speed/1000] in [uint32_t] *)
Definition sdio_timeout (speed : Z) : Z := u32 (TIMEOUT_MSEC * speed) / 1000.

(** What [sdio_read_data] and [sdio_write_data] have in common: [move] transfers the block;
    the result is the error code and [data_len]. *)
Definition sdio_transfer (a : addr) (read cmd argument : Z) (move : sdiodev_s → MC Z) : MC (Z * Z) :=
  let! o := load (T := sdiodev_s) a in
  let timeout := sdio_timeout (sx_speed o) in
  let! err := sdio_prepare_data_transfer (sx_config o) read 1 (sx_blocksize o) timeout in
  if err =? 0 then
    let! '(err, _) := sdio_send_command (sx_config o) cmd argument 1 in
    if err =? 0 then
      if sx_blocksize o <=? 4096 then
        let! err := move o in
        mret (err, sx_blocksize o)
      else mret (err, 0)
    else mret (err, 0)
  else mret (err, 0).

Definition command_sdio_read_data (args : list Z) : MC unit :=
  let! a0 := arg args 0 in
  let oid := u8 a0 in
  let! a1 := arg args 1 in
  let! a2 := arg args 2 in
  let! a := sdiodev_oid_lookup oid in
  let! '(err, data_len) := sdio_transfer a 1 (u8 a1) (u32 a2) (λ o,
    let! '(err, data) := sdio_read_data (sx_config o) (Z.to_nat (sx_blocksize o)) in
    let! buf := write_array (sx_data_buffer o) 0 data in
    store a (o <| sx_data_buffer := buf |>);;;
    mret err) in
  command_sendf "sdio_read_data_response oid=%c error=%c read=%u"
    [A_int oid; A_int err; A_int data_len].

Definition command_sdio_write_data (args : list Z) : MC unit :=
  let! a0 := arg args 0 in
  let oid := u8 a0 in
  let! a1 := arg args 1 in
  let! a2 := arg args 2 in
  let! a := sdiodev_oid_lookup oid in
  let! '(err, data_len) := sdio_transfer a 0 (u8 a1) (u32 a2) (λ o,
    let! data := read_array (sx_data_buffer o) 0 (Z.to_nat (sx_blocksize o)) in
    sdio_write_data (sx_config o) data) in
  command_sendf "sdio_write_data_response oid=%c error=%c write=%u"
    [A_int oid; A_int err; A_int data_len].

Definition command_sdio_read_data_buffer (args : list Z) : MC unit :=
  let! a0 := arg args 0 in
  let oid := u8 a0 in
  let! a1 := arg args 1 in
  let offset := u32 a1 in
  let! a2 := arg args 2 in
  let len := u8 a2 in
  let! a := sdiodev_oid_lookup oid in
  let! o := load (T := sdiodev_s) a in
  let len := if 4096 <? u32 (offset + len) then 0 else len in
  let! data := read_array (sx_data_buffer o) offset (Z.to_nat len) in
  command_sendf "sdio_read_data_buffer_response oid=%c data=%*s" [A_int oid; A_buf data].

Definition command_sdio_write_data_buffer (args : list Z) : MC unit :=
  let! a0 := arg args 0 in
  let oid := u8 a0 in
  let! a1 := arg args 1 in
  let offset := u32 a1 in
  let! a2 := arg args 2 in
  let write_data_len := u8 a2 in
  let! a3 := arg args 3 in
  let! a := sdiodev_oid_lookup oid in
  let! o := load (T := sdiodev_s) a in
  when u32 (offset + write_data_len) <=? 4096 do
    (let! data := read_ptr a3 (Z.to_nat write_data_len) in
     let! buf := write_array (sx_data_buffer o) offset data in
     store a (o <| sx_data_buffer := buf |>)).
End sdiocmds.
