(* ===== verification/Tmcuart.v ===== *)
(** * tmcuart.c: single wire UART of TMC stepper drivers *)

From S2P Require Import Prelude State Runtime Sched Basecmd Trsync.

Definition TU_LINE_HIGH : Z := 1.
Definition TU_ACTIVE : Z := 2.
Definition TU_READ_SYNC : Z := 4.
Definition TU_REPORT : Z := 8.
Definition TU_PULLUP : Z := 16.
Definition TU_SINGLE_WIRE : Z := 32.

(** DIV_ROUND_CLOSEST of compiler.h on int operands: C division truncates. *)
Definition DIV_ROUND_CLOSEST (x divisor : Z) : Z := Z.quot (x + Z.quot divisor 2) divisor.

Section tmcuart.
Context {B : Board}.

Definition tmcuart_reset_line (a : addr) : MC unit :=
  let! t := load (T := tmcuart_s) a in
  (if has (tu_flags t) TU_SINGLE_WIRE then gpio_out_reset (tu_tx_pin t) 1
   else gpio_out_write (tu_tx_pin t) 1);;;
  store a (t <| tu_flags := Z.lor (Z.land (tu_flags t) (Z.lor TU_PULLUP TU_SINGLE_WIRE)) TU_LINE_HIGH |>).

Definition tmcuart_finalize (a : addr) : MC Z :=
  tmcuart_reset_line a;;;
  upd_obj a (λ t : tmcuart_s, t <| tu_flags := Z.lor (tu_flags t) TU_REPORT |>);;;
  sched_wake_task tmcuart_wake;;;
  mret SF_DONE.

Definition tmcuart_read_event (timer : tid) : MC Z :=
  let! a := container_of timer in
  let! t := load (T := tmcuart_s) a in
  let! v := gpio_in_read (tu_rx_pin t) in
  let pos := tu_pos t in
  let mask := u8 (Z.shiftl 1 (Z.land pos 0x07)) in
  let! data := deref (tu_data t !! Z.to_nat (Z.shiftr pos 3)) in
  let data := if nz v then Z.lor data mask else Z.land data (Z.lnot mask) in
  let t := t <| tu_data := <[Z.to_nat (Z.shiftr pos 3) := data]> (tu_data t) |> in
  store a t;;;
  let pos := u8 (pos + 1) in
  if tu_read_count t <=? pos then tmcuart_finalize a
  else
    store a (t <| tu_pos := pos |>);;;
    upd_timer timer (λ x, x <| t_waketime := u32 (t_waketime x + tu_bit_time t) |>);;;
    mret SF_RESCHEDULE.

(** The end of [tmcuart_read_sync_event], reached when no data starts yet. *)
Definition read_sync_wait (timer : tid) (a : addr) : MC Z :=
  let! t := load (T := tmcuart_s) a in
  let pos := tu_pos t in
  store a (t <| tu_pos := u8 (pos + 1) |>);;;
  if 64 <=? pos then
    upd_obj a (λ t : tmcuart_s, t <| tu_read_count := 0 |>);;;
    tmcuart_finalize a
  else
    upd_timer timer (λ x, x <| t_waketime := u32 (t_waketime x + tu_bit_time t) |>);;;
    mret SF_RESCHEDULE.

Definition tmcuart_read_sync_event (timer : tid) : MC Z :=
  let! a := container_of timer in
  let! t := load (T := tmcuart_s) a in
  let! v := gpio_in_read (tu_rx_pin t) in
  if nz v then
    store a (t <| tu_flags := Z.lor (tu_flags t) TU_READ_SYNC |>);;;
    read_sync_wait timer a
  else if has (tu_flags t) TU_READ_SYNC then
    store a (t <| tu_pos := 0 |>);;;
    upd_timer timer (λ x, x <| t_func := F_tmcuart_read_event |>);;;
    tmcuart_read_event timer
  else read_sync_wait timer a.

Definition tmcuart_send_finish_event (timer : tid) : MC Z :=
  let! a := container_of timer in
  let! t := load (T := tmcuart_s) a in
  if negb (nz (tu_read_count t)) then tmcuart_finalize a
  else
    (when has (tu_flags t) TU_SINGLE_WIRE do
       gpio_in_reset (tu_rx_pin t) (Z.land (tu_flags t) TU_PULLUP));;;
    store a (t <| tu_pos := 0 |>);;;
    upd_timer timer (λ x, x <| t_func := F_tmcuart_read_sync_event |>
                            <| t_waketime := u32 (t_waketime x + tu_bit_time t * 4) |>);;;
    mret SF_RESCHEDULE.

(** Bit [pos] of the buffer. *)
Definition data_bit (data : list Z) (pos : Z) : MC Z :=
  let! d := deref (data !! Z.to_nat (Z.shiftr pos 3)) in
  mret (Z.land (Z.shiftr d (Z.land pos 0x07)) 0x01).

(** The [for (;;)] of [tmcuart_send_event]: [None] when all bits are out, otherwise the
    position of the next toggle; and the ticks until then. *)
Fixpoint next_toggle (fuel : nat) (t : tmcuart_s) (line_state pos next : Z) : MC (option Z * Z) :=
  match fuel with
  | O => diverge
  | S fuel =>
      let pos := u8 (pos + 1) in
      if tu_write_count t <=? pos then mret (None, next)
      else
        let! bit := data_bit (tu_data t) pos in
        if negb (bit =? line_state) then mret (Some pos, next)
        else next_toggle fuel t line_state pos (u32 (next + tu_bit_time t))
  end.

(** [pos] has 8 bits: 256 rounds bound the loop. *)
Definition tmcuart_send_event (timer : tid) : MC Z :=
  let! a := container_of timer in
  let! t := load (T := tmcuart_s) a in
  gpio_out_toggle_noirq (tu_tx_pin t);;;
  let t := t <| tu_flags := Z.lxor (tu_flags t) TU_LINE_HIGH |> in
  store a t;;;
  let line_state := Z.land (tu_flags t) TU_LINE_HIGH in
  let! '(pos, next) := next_toggle 256 t line_state (tu_pos t) (tu_bit_time t) in
  match pos with
  | None =>
      upd_timer timer (λ x, x <| t_func := F_tmcuart_send_finish_event |>
                              <| t_waketime := u32 (t_waketime x + next) |>);;;
      mret SF_RESCHEDULE
  | Some pos =>
      store a (t <| tu_pos := pos |>);;;
      upd_timer timer (λ x, x <| t_waketime := u32 (t_waketime x + next) |>);;;
      mret SF_RESCHEDULE
  end.

Definition tmcuart_send_sync_event (timer : tid) : MC Z :=
  let! a := container_of timer in
  let! t := load (T := tmcuart_s) a in
  gpio_out_toggle_noirq (tu_tx_pin t);;;
  let! cur := timer_read_time in
  let t := t <| tu_flags := Z.lxor (tu_flags t) TU_LINE_HIGH |>
             <| tu_pos := u8 (tu_pos t + 1) |> in
  let! x := get_timer timer in
  let offset := u32 (cur - t_waketime x) in
  if tu_pos t =? 1 then
    store a (t <| tu_bit_time := offset |>);;;
    upd_timer timer (λ x, x <| t_waketime := u32 (t_waketime x + tu_cfg_bit_time t) |>);;;
    mret SF_RESCHEDULE
  else if 5 <=? tu_pos t then
    let diff := i32 (u32 (offset - tu_bit_time t)) in
    let bit_time := u32 (tu_cfg_bit_time t + DIV_ROUND_CLOSEST diff 4) in
    store a (t <| tu_bit_time := bit_time |>);;;
    upd_timer timer (λ x, x <| t_func := F_tmcuart_send_event |>
                            <| t_waketime := u32 (t_waketime x + u32 (diff + bit_time)) |>);;;
    mret SF_RESCHEDULE
  else
    store a t;;;
    upd_timer timer (λ x, x <| t_waketime := u32 (t_waketime x + tu_cfg_bit_time t) |>);;;
    mret SF_RESCHEDULE.

Definition command_config_tmcuart (args : list Z) : MC unit :=
  let! a0 := arg args 0 in
  let! a := oid_alloc a0 command_config_tmcuart_t (sizeof_object command_config_tmcuart_t) 0 in
  let! a2 := arg args 2 in
  let pull_up := u8 a2 in
  let! a1 := arg args 1 in
  let! a3 := arg args 3 in
  let rx_pin := u32 a1 in
  let tx_pin := u32 a3 in
  let! rx := gpio_in_setup rx_pin (b2z (nz pull_up)) in
  upd_obj a (λ t, t <| tu_rx_pin := rx |>);;;
  let! tx := gpio_out_setup tx_pin 1 in
  let! a4 := arg args 4 in
  upd_obj a (λ t, t <| tu_tx_pin := tx |> <| tu_cfg_bit_time := u32 a4 |>
    <| tu_flags := Z.lor (Z.lor TU_LINE_HIGH (if nz pull_up then TU_PULLUP else 0))
                         (if rx_pin =? tx_pin then TU_SINGLE_WIRE else 0) |>).

Definition command_tmcuart_send (args : list Z) : MC unit :=
  let! a0 := arg args 0 in
  let! a := oid_lookup a0 command_config_tmcuart_t in
  let! t := load (T := tmcuart_s) a in
  if has (tu_flags t) TU_ACTIVE then mret tt
  else
    let! a1 := arg args 1 in
    let! a2 := arg args 2 in
    let! a3 := arg args 3 in
    let write_len := u8 a1 in
    let read_len := u8 a3 in
    (when (10 <? write_len) || (10 <? read_len) do shutdown "tmcuart data too large");;;
    let! write := read_ptr a2 (Z.to_nat write_len) in
    let data := write ++ drop (Z.to_nat write_len) (tu_data t) in
    let t := t <| tu_data := data |> <| tu_pos := 0 |>
               <| tu_flags := Z.lor (Z.land (tu_flags t)
                    (Z.lor (Z.lor TU_LINE_HIGH TU_PULLUP) TU_SINGLE_WIRE)) TU_ACTIVE |>
               <| tu_write_count := u8 (write_len * 8) |> <| tu_read_count := u8 (read_len * 8) |> in
    let! d0 := deref (data !! 0%nat) in
    (if (1 <=? write_len) && (Z.land d0 0x3f =? 0x2a) then
       store a t;;;
       upd_timer (T_member a M_time) (λ x, x <| t_func := F_tmcuart_send_sync_event |>)
     else
       store a (t <| tu_bit_time := tu_cfg_bit_time t |>);;;
       upd_timer (T_member a M_time) (λ x, x <| t_func := F_tmcuart_send_event |>));;;
    irq_disable;;;
    let! now := timer_read_time in
    upd_timer (T_member a M_time) (λ x, x <| t_waketime := u32 (now + timer_from_us 200) |>);;;
    sched_add_timer (T_member a M_time);;;
    irq_enable.

(** The body of the loop of [tmcuart_task]. *)
Definition tmcuart_task_body (oid : Z) (a : addr) : MC unit :=
  let! t := load (T := tmcuart_s) a in
  if negb (has (tu_flags t) TU_REPORT) then mret tt
  else
    irq_disable;;;
    store a (t <| tu_flags := Z.land (tu_flags t) (Z.lnot TU_REPORT) |>);;;
    irq_enable;;;
    command_sendf "tmcuart_response oid=%c read=%*s"
      [A_int oid; A_buf (take (Z.to_nat (tu_read_count t / 8)) (tu_data t))].

Definition tmcuart_task : MC unit :=
  let! w := sched_check_wake tmcuart_wake in
  if negb w then mret tt
  else foreach_oid command_config_tmcuart_t tmcuart_task_body.

Definition tmcuart_shutdown : MC unit :=
  foreach_oid command_config_tmcuart_t (λ _ a, tmcuart_reset_line a).
End tmcuart.
