(* ===== verification/Sensors.v ===== *)
(** * The sensors: sensor_adxl345.c, sensor_mpu9250.c, sensor_angle.c and thermocouple.c *)

From S2P Require Import Prelude State Runtime Sched Basecmd Trsync Buses.

(** * sensor_adxl345.c: accelerometer measurements over SPI *)

Definition AX_HAVE_START : Z := 1.
Definition AX_RUNNING : Z := 2.
Definition AX_PENDING : Z := 4.

Definition AR_POWER_CTL : Z := 0x2D.
Definition AR_DATAX0 : Z := 0x32.
Definition AR_FIFO_STATUS : Z := 0x39.
Definition AM_READ : Z := 0x80.
Definition AM_MULTI : Z := 0x40.
Definition SET_FIFO_CTL : Z := 0x90.

(** The chip's reply to a data query, decoded: the five bytes for the report and
    [fifo_status]. *)
Definition adxl_glitch (hi : Z) : bool := has hi 0xf0 && negb (Z.land hi 0xf0 =? 0xf0).
Definition adxl_decode (msg : list Z) : option (list Z * Z) :=
  match msg with
  | [m0; m1; m2; m3; m4; m5; m6; m7; m8] =>
      let fifo_status := Z.land m8 (Z.lnot 0x80) in
      if adxl_glitch m2 || adxl_glitch m4 || adxl_glitch m6 ||
         negb (m7 =? SET_FIFO_CTL) || (32 <? fifo_status)
      then Some ([0xff; 0xff; 0xff; 0xff; 0xff], 0)
      else Some ([m1; m3; m5; u8 (Z.lor (Z.land m2 0x1f) (Z.shiftl m6 5));
                  u8 (Z.lor (Z.land m4 0x1f) (Z.land (Z.shiftl m6 2) 0x60))], fifo_status)
  | _ => None
  end.

Section adxl345.
Context {B : Board}.

Definition adxl345_event (t : tid) : MC Z :=
  let! a := container_of t in
  upd_obj a (λ ax, ax <| ax_flags := Z.lor (ax_flags ax) AX_PENDING |>);;;
  sched_wake_task adxl345_wake;;;
  mret SF_DONE.

Definition command_config_adxl345 (args : list Z) : MC unit :=
  let! a0 := arg args 0 in
  let! a := oid_alloc a0 command_config_adxl345_t (sizeof_object command_config_adxl345_t) 0 in
  upd_timer (T_member a M_time) (λ x, x <| t_func := F_adxl345_event |>);;;
  let! a1 := arg args 1 in
  let! spi := spidev_oid_lookup a1 in
  upd_obj a (λ ax, ax <| ax_spi := spi |>).

Definition adxl_report (a : addr) (oid : Z) : MC unit :=
  let! ax := load (T := adxl345) a in
  let! data := read_array (ax_data ax) 0 (Z.to_nat (ax_data_count ax)) in
  command_sendf "adxl345_data oid=%c sequence=%hu data=%*s"
    [A_int oid; A_int (ax_sequence ax); A_buf data];;;
  store a (ax <| ax_data_count := 0 |> <| ax_sequence := u16 (ax_sequence ax + 1) |>).

Definition adxl_status (a : addr) (oid time1 time2 fifo : Z) : MC unit :=
  let! ax := load (T := adxl345) a in
  command_sendf "adxl345_status oid=%c clock=%u query_ticks=%u next_sequence=%hu buffered=%c fifo=%c limit_count=%hu"
    [A_int oid; A_int time1; A_int (u32 (time2 - time1)); A_int (ax_sequence ax);
     A_int (ax_data_count ax); A_int fifo; A_int (ax_limit_count ax)].

Definition adxl_reschedule_timer (a : addr) : MC unit :=
  irq_disable;;;
  let! now := timer_read_time in
  let! ax := load (T := adxl345) a in
  upd_timer (T_member a M_time) (λ x, x <| t_waketime := u32 (now + ax_rest_ticks ax) |>);;;
  sched_add_timer (T_member a M_time);;;
  irq_enable.

Definition adxl_query (a : addr) (oid : Z) : MC unit :=
  let! ax := load (T := adxl345) a in
  let! msg := spidev_transfer (ax_spi ax) true 9
                [Z.lor (Z.lor AR_DATAX0 AM_READ) AM_MULTI; 0; 0; 0; 0; 0; 0; 0; 0] in
  let! '(d, fifo_status) := deref (adxl_decode msg) in
  let! data := write_array (ax_data ax) (ax_data_count ax) d in
  let count := u8 (ax_data_count ax + 5) in
  store a (ax <| ax_data := data |> <| ax_data_count := count |>);;;
  (when 50 <? count + 5 do adxl_report a oid);;;
  (when 31 <=? fifo_status do
     upd_obj a (λ ax, ax <| ax_limit_count := u16 (ax_limit_count ax + 1) |>));;;
  if (1 <? fifo_status) && (fifo_status <=? 32) then sched_wake_task adxl345_wake
  else
    let! ax := load (T := adxl345) a in
    when has (ax_flags ax) AX_RUNNING do
      (sched_del_timer (T_member a M_time);;;
       upd_obj a (λ ax, ax <| ax_flags := Z.land (ax_flags ax) (Z.lnot AX_PENDING) |>);;;
       adxl_reschedule_timer a).

Definition adxl_start (a : addr) (oid : Z) : MC unit :=
  sched_del_timer (T_member a M_time);;;
  upd_obj a (λ ax, ax <| ax_flags := AX_RUNNING |>);;;
  let! ax := load (T := adxl345) a in
  let! _ := spidev_transfer (ax_spi ax) false 2 [AR_POWER_CTL; 0x08] in
  adxl_reschedule_timer a.

(** The loop that drains the fifo; the result is the last [msg[1]]. *)
Fixpoint adxl_drain (n : nat) (a : addr) (oid msg1 : Z) : MC Z :=
  match n with
  | O => mret msg1
  | S n =>
      let! ax := load (T := adxl345) a in
      let! msg := spidev_transfer (ax_spi ax) true 2 [Z.lor AR_FIFO_STATUS AM_READ; 0x00] in
      let! msg1 := deref (msg !! 1%nat) in
      let fifo_status := Z.land msg1 (Z.lnot 0x80) in
      if negb (nz fifo_status) then mret msg1
      else
        (when fifo_status <=? 32 do adxl_query a oid);;;
        adxl_drain n a oid msg1
  end.

Definition adxl_stop (a : addr) (oid : Z) : MC unit :=
  let oid := u8 oid in
  sched_del_timer (T_member a M_time);;;
  upd_obj a (λ ax, ax <| ax_flags := 0 |>);;;
  let! end1_time := timer_read_time in
  let! ax := load (T := adxl345) a in
  let! _ := spidev_transfer (ax_spi ax) false 2 [AR_POWER_CTL; 0x00] in
  let! end2_time := timer_read_time in
  let! msg1 := adxl_drain 33 a oid 0 in
  let! ax := load (T := adxl345) a in
  (when nz (ax_data_count ax) do adxl_report a oid);;;
  adxl_status a oid end1_time end2_time msg1.

Definition command_query_adxl345 (args : list Z) : MC unit :=
  let! a0 := arg args 0 in
  let! a := oid_lookup a0 command_config_adxl345_t in
  let! a2 := arg args 2 in
  if negb (nz a2) then adxl_stop a a0
  else
    sched_del_timer (T_member a M_time);;;
    let! a1 := arg args 1 in
    upd_timer (T_member a M_time) (λ x, x <| t_waketime := u32 a1 |>);;;
    upd_obj a (λ ax, ax <| ax_rest_ticks := u32 a2 |> <| ax_flags := AX_HAVE_START |>
                        <| ax_sequence := 0 |> <| ax_limit_count := 0 |> <| ax_data_count := 0 |>);;;
    sched_add_timer (T_member a M_time).

Definition command_query_adxl345_status (args : list Z) : MC unit :=
  let! a0 := arg args 0 in
  let! a := oid_lookup a0 command_config_adxl345_t in
  let! time1 := timer_read_time in
  let! ax := load (T := adxl345) a in
  let! msg := spidev_transfer (ax_spi ax) true 2 [Z.lor AR_FIFO_STATUS AM_READ; 0x00] in
  let! time2 := timer_read_time in
  let! msg1 := deref (msg !! 1%nat) in
  adxl_status a (uint_fast8 a0) time1 time2 msg1.

(** The body of the loop of [adxl345_task]. *)
Definition adxl345_task_body (oid : Z) (a : addr) : MC unit :=
  let! ax := load (T := adxl345) a in
  let flags := ax_flags ax in
  if negb (has flags AX_PENDING) then mret tt
  else if has flags AX_HAVE_START then adxl_start a oid
  else adxl_query a oid.

Definition adxl345_task : MC unit :=
  let! w := sched_check_wake adxl345_wake in
  if negb w then mret tt
  else foreach_oid command_config_adxl345_t adxl345_task_body.
End adxl345.

(** * sensor_mpu9250.c: accelerometer measurements over I2C *)

Definition AR_FIFO_EN : Z := 0x23.
Definition AR_USER_CTRL : Z := 0x6A.
Definition AR_FIFO_COUNT_H : Z := 0x72.
Definition AR_FIFO : Z := 0x74.
Definition AR_INT_STATUS : Z := 0x3A.
Definition SET_ENABLE_FIFO : Z := 0x08.
Definition SET_DISABLE_FIFO : Z := 0x00.
Definition SET_USER_FIFO_RESET : Z := 0x04.
Definition SET_USER_FIFO_EN : Z := 0x40.
Definition FIFO_OVERFLOW_INT : Z := 0x10.
Definition BYTES_PER_FIFO_ENTRY : Z := 6.

Section mpu9250.
Context {B : Board}.

(** [mp->i2c->i2c_config] *)
Definition mp_config (a : addr) : MC (option i2c_config) :=
  let! mp := load (T := mpu9250) a in
  let! i2c := load (T := i2cdev_s) (mp_i2c mp) in
  mret (id_config i2c).

Definition get_fifo_status (a : addr) : MC Z :=
  let! config := mp_config a in
  let! msg := i2c_read config [AR_FIFO_COUNT_H] 2 in
  let! m0 := deref (msg !! 0%nat) in
  let! m1 := deref (msg !! 1%nat) in
  let bytes_to_read := u16 (Z.lor (Z.shiftl (Z.land 0x1F m0) 8) m1) in
  let! mp := load (T := mpu9250) a in
  (when mp_fifo_max mp <? bytes_to_read do store a (mp <| mp_fifo_max := bytes_to_read |>));;;
  mret bytes_to_read.

Definition mpu9250_event (t : tid) : MC Z :=
  let! a := container_of t in
  upd_obj a (λ mp, mp <| mp_flags := Z.lor (mp_flags mp) AX_PENDING |>);;;
  sched_wake_task mpu9250_wake;;;
  mret SF_DONE.

Definition command_config_mpu9250 (args : list Z) : MC unit :=
  let! a0 := arg args 0 in
  let! a := oid_alloc a0 command_config_mpu9250_t (sizeof_object command_config_mpu9250_t) 0 in
  upd_timer (T_member a M_time) (λ x, x <| t_func := F_mpu9250_event |>);;;
  let! a1 := arg args 1 in
  let! i2c := i2cdev_oid_lookup a1 in
  upd_obj a (λ mp, mp <| mp_i2c := i2c |>).

Definition mp9250_report (a : addr) (oid : Z) : MC unit :=
  let! mp := load (T := mpu9250) a in
  let! data := read_array (mp_data mp) 0 (Z.to_nat (mp_data_count mp)) in
  command_sendf "mpu9250_data oid=%c sequence=%hu data=%*s"
    [A_int oid; A_int (mp_sequence mp); A_buf data];;;
  store a (mp <| mp_data_count := 0 |> <| mp_sequence := u16 (mp_sequence mp + 1) |>).

Definition mp9250_status (a : addr) (oid time1 time2 fifo : Z) : MC unit :=
  let! mp := load (T := mpu9250) a in
  command_sendf "mpu9250_status oid=%c clock=%u query_ticks=%u next_sequence=%hu buffered=%c fifo=%u limit_count=%hu"
    [A_int oid; A_int time1; A_int (u32 (time2 - time1)); A_int (mp_sequence mp);
     A_int (mp_data_count mp); A_int (u16 fifo); A_int (mp_limit_count mp)].

Definition mp9250_reschedule_timer (a : addr) : MC unit :=
  irq_disable;;;
  let! now := timer_read_time in
  let! mp := load (T := mpu9250) a in
  upd_timer (T_member a M_time) (λ x, x <| t_waketime := u32 (now + mp_rest_ticks mp) |>);;;
  sched_add_timer (T_member a M_time);;;
  irq_enable.

Definition mp9250_query (a : addr) (oid : Z) : MC unit :=
  let! mp := load (T := mpu9250) a in
  let data_space := u8 (48 - mp_data_count mp) in
  (when mp_fifo_pkts_bytes mp <? data_space do
     (let! status := get_fifo_status a in
      upd_obj a (λ mp : mpu9250, mp <| mp_fifo_pkts_bytes :=
        status / BYTES_PER_FIFO_ENTRY * BYTES_PER_FIFO_ENTRY |>)));;;
  let! mp := load (T := mpu9250) a in
  (when data_space <=? mp_fifo_pkts_bytes mp do
     (let! config := mp_config a in
      let! d := i2c_read config [AR_FIFO] (Z.to_nat data_space) in
      let! data := write_array (mp_data mp) (mp_data_count mp) d in
      store a (mp <| mp_data := data |> <| mp_data_count := u8 (mp_data_count mp + data_space) |>
                  <| mp_fifo_pkts_bytes := u16 (mp_fifo_pkts_bytes mp - data_space) |>);;;
      mp9250_report a oid));;;
  let! mp := load (T := mpu9250) a in
  if data_space <? mp_fifo_pkts_bytes mp then sched_wake_task mpu9250_wake
  else when has (mp_flags mp) AX_RUNNING do
    (sched_del_timer (T_member a M_time);;;
     upd_obj a (λ mp : mpu9250, mp <| mp_flags := Z.land (mp_flags mp) (Z.lnot AX_PENDING) |>);;;
     mp9250_reschedule_timer a).

Definition mp9250_start (a : addr) (oid : Z) : MC unit :=
  sched_del_timer (T_member a M_time);;;
  upd_obj a (λ mp : mpu9250, mp <| mp_flags := AX_RUNNING |>);;;
  let! config := mp_config a in
  i2c_write config [AR_FIFO_EN; SET_DISABLE_FIFO];;;
  i2c_write config [AR_USER_CTRL; SET_USER_FIFO_RESET];;;
  i2c_write config [AR_USER_CTRL; SET_USER_FIFO_EN];;;
  let! _ := i2c_read config [AR_INT_STATUS] 1 in
  i2c_write config [AR_FIFO_EN; SET_ENABLE_FIFO];;;
  mp9250_reschedule_timer a.

Definition mp9250_stop (a : addr) (oid : Z) : MC unit :=
  let oid := u8 oid in
  sched_del_timer (T_member a M_time);;;
  upd_obj a (λ mp : mpu9250, mp <| mp_flags := 0 |>);;;
  let! end1_time := timer_read_time in
  let! config := mp_config a in
  i2c_write config [AR_FIFO_EN; SET_DISABLE_FIFO];;;
  let! end2_time := timer_read_time in
  let! int_msg := i2c_read config [AR_INT_STATUS] 1 in
  let! int_msg := deref (int_msg !! 0%nat) in
  (when has int_msg FIFO_OVERFLOW_INT do
     upd_obj a (λ mp : mpu9250, mp <| mp_limit_count := u16 (mp_limit_count mp + 1) |>));;;
  let! mp := load (T := mpu9250) a in
  (when 0 <? mp_data_count mp do mp9250_report a oid);;;
  let! bytes_to_read := get_fifo_status a in
  mp9250_status a oid end1_time end2_time (bytes_to_read / BYTES_PER_FIFO_ENTRY).

Definition command_query_mpu9250 (args : list Z) : MC unit :=
  let! a0 := arg args 0 in
  let! a := oid_lookup a0 command_config_mpu9250_t in
  let! a2 := arg args 2 in
  if negb (nz a2) then mp9250_stop a a0
  else
    sched_del_timer (T_member a M_time);;;
    let! a1 := arg args 1 in
    upd_timer (T_member a M_time) (λ x, x <| t_waketime := u32 a1 |>);;;
    upd_obj a (λ mp : mpu9250,
      mp <| mp_rest_ticks := u32 a2 |> <| mp_flags := AX_HAVE_START |> <| mp_sequence := 0 |>
         <| mp_limit_count := 0 |> <| mp_data_count := 0 |> <| mp_fifo_max := 0 |>
         <| mp_fifo_pkts_bytes := 0 |>);;;
    sched_add_timer (T_member a M_time).

Definition command_query_mpu9250_status (args : list Z) : MC unit :=
  let! a0 := arg args 0 in
  let! a := oid_lookup a0 command_config_mpu9250_t in
  let! time1 := timer_read_time in
  let! config := mp_config a in
  let! _ := i2c_read config [AR_FIFO_COUNT_H] 2 in
  let! time2 := timer_read_time in
  let! mp := load (T := mpu9250) a in
  mp9250_status a (uint_fast8 a0) time1 time2 (mp_fifo_pkts_bytes mp / BYTES_PER_FIFO_ENTRY).

(** The body of the loop of [mpu9250_task]. *)
Definition mpu9250_task_body (oid : Z) (a : addr) : MC unit :=
  let! mp := load (T := mpu9250) a in
  let flags := mp_flags mp in
  if negb (has flags AX_PENDING) then mret tt
  else if has flags AX_HAVE_START then mp9250_start a oid
  else mp9250_query a oid.

Definition mpu9250_task : MC unit :=
  let! w := sched_check_wake mpu9250_wake in
  if negb w then mret tt
  else foreach_oid command_config_mpu9250_t mpu9250_task_body.
End mpu9250.

(** * sensor_angle.c: magnetic angle sensors over SPI

    The busy wait [udelay] takes its fuel as an argument. *)

Definition SA_CHIP_A1333 : Z := 0.
Definition SA_CHIP_AS5047D : Z := 1.
Definition SA_CHIP_TLE5012B : Z := 2.
Definition SA_CHIP_MAX : Z := 3.
Definition TCODE_ERROR : Z := 0xff.
Definition SE_OVERFLOW : Z := 0.
Definition SE_SCHEDULE : Z := 1.
Definition SE_SPI_TIME : Z := 2.
Definition SE_CRC : Z := 3.
Definition SE_DUP : Z := 4.
Definition SE_NO_ANGLE : Z := 5.
Definition SA_PENDING : Z := 4.
Definition TLE_READ_LATCH : Z := 0x84.
Definition TLE_REG_AVAL : Z := 0x02.

(** The eight rounds of [crc8]. *)
Fixpoint crc8_loop (n : nat) (crc : Z) : Z :=
  match n with
  | O => crc
  | S n => crc8_loop n (u8 (if has crc 0x80 then Z.lxor (Z.shiftl crc 1) 0x1d else Z.shiftl crc 1))
  end.
Definition crc8 (crc data : Z) : Z := crc8_loop 8 (Z.lxor crc data).

Section angle.
Context {B : Board}.

Definition MAX_SPI_READ_TIME : Z := timer_from_us 50.

Definition angle_event (t : tid) : MC Z :=
  let! a := container_of t in
  let! sa := load (T := spi_angle) a in
  (if has (sa_flags sa) SA_PENDING
   then store a (sa <| sa_overflow := u8 (sa_overflow sa + 1) |>)
   else store a (sa <| sa_flags := Z.lor (sa_flags sa) SA_PENDING |>));;;
  sched_wake_task angle_wake;;;
  upd_timer t (λ x, x <| t_waketime := u32 (t_waketime x + sa_rest_ticks sa) |>);;;
  mret SF_RESCHEDULE.

Definition command_config_spi_angle (args : list Z) : MC unit :=
  let! a2 := arg args 2 in
  let chip_type := u8 a2 in
  (when SA_CHIP_MAX <? chip_type do shutdown "Invalid spi_angle chip type");;;
  let! a0 := arg args 0 in
  let! a := oid_alloc a0 command_config_spi_angle_t (sizeof_object command_config_spi_angle_t) 0 in
  upd_timer (T_member a M_time) (λ x, x <| t_func := F_angle_event |>);;;
  let! a1 := arg args 1 in
  let! spi := spidev_oid_lookup a1 in
  upd_obj a (λ sa : spi_angle, sa <| sa_spi := spi |>);;;
  let! o := load (T := spidev_s) spi in
  (when negb (nz (spidev_have_cs_pin o)) do shutdown "angle sensor requires cs pin");;;
  upd_obj a (λ sa : spi_angle, sa <| sa_chip_type := chip_type |>).

Definition angle_report (a : addr) (oid : Z) : MC unit :=
  let! sa := load (T := spi_angle) a in
  let! data := read_array (sa_data sa) 0 (Z.to_nat (sa_data_count sa)) in
  command_sendf "spi_angle_data oid=%c sequence=%hu data=%*s"
    [A_int oid; A_int (sa_sequence sa); A_buf data];;;
  store a (sa <| sa_data_count := 0 |> <| sa_sequence := u16 (sa_sequence sa + 1) |>).

Definition angle_check_report (a : addr) (oid : Z) : MC unit :=
  let! sa := load (T := spi_angle) a in
  when 48 <? sa_data_count sa + 3 do angle_report a oid.

Definition angle_add (a : addr) (tcode data : Z) : MC unit :=
  let! sa := load (T := spi_angle) a in
  let! l := write_array (sa_data sa) (sa_data_count sa) [u8 tcode; u8 data; u8 (Z.shiftr data 8)] in
  store a (sa <| sa_data := l |> <| sa_data_count := u8 (sa_data_count sa + 3) |>).

Definition angle_add_error (a : addr) (error_code : Z) : MC unit := angle_add a TCODE_ERROR error_code.

(** Shifting by 32 or more is undefined in C. *)
Definition angle_add_data (a : addr) (stime mtime angle : Z) : MC unit :=
  let tdiff := u32 (mtime - stime) in
  let! sa := load (T := spi_angle) a in
  let! tdiff :=
    (if nz (sa_time_shift sa) then
       if 32 <=? sa_time_shift sa then undef
       else mret (Z.shiftr (u32 (tdiff + Z.shiftl 1 (sa_time_shift sa - 1))) (sa_time_shift sa))
     else mret tdiff) in
  if TCODE_ERROR <=? tdiff then angle_add_error a SE_SCHEDULE
  else angle_add a tdiff angle.

Definition msg_at (msg : list Z) (i : nat) : MC Z := deref (msg !! i).

Definition a1333_query (a : addr) (stime : Z) : MC unit :=
  let! mtime1 := timer_read_time in
  let! sa := load (T := spi_angle) a in
  let! msg := spidev_transfer (sa_spi sa) true 2 [0x32; 0x00] in
  let! mtime2 := timer_read_time in
  let! m0 := msg_at msg 0 in
  let! m1 := msg_at msg 1 in
  if MAX_SPI_READ_TIME <? u32 (mtime2 - mtime1) then angle_add_error a SE_SPI_TIME
  else if has m0 0x80 then angle_add_error a SE_CRC
  else angle_add_data a stime mtime1 (uint_fast16 (Z.lor (Z.shiftl m0 9) (Z.shiftl m1 1))).

(** The folded parity of the two reply bytes. *)
Definition as5047d_parity (m0 m1 : Z) : Z :=
  let p := Z.lxor m0 m1 in
  let p := Z.lxor p (Z.shiftr p 4) in
  let p := Z.lxor p (Z.shiftr p 2) in
  Z.lxor p (Z.shiftr p 1).

Definition as5047d_query (a : addr) (stime : Z) : MC unit :=
  let! mtime1 := timer_read_time in
  let! sa := load (T := spi_angle) a in
  let! _ := spidev_transfer (sa_spi sa) false 2 [0x7F; 0xFE] in
  let! mtime2 := timer_read_time in
  if MAX_SPI_READ_TIME <? u32 (mtime2 - mtime1) then angle_add_error a SE_SPI_TIME
  else
    let! msg := spidev_transfer (sa_spi sa) true 2 [0xC0; 0x00] in
    let! m0 := msg_at msg 0 in
    let! m1 := msg_at msg 1 in
    if has (as5047d_parity m0 m1) 1 then angle_add_error a SE_CRC
    else if has m0 0x40 then angle_add_error a SE_NO_ANGLE
    else angle_add_data a stime mtime2 (uint_fast16 (Z.lor (Z.shiftl m0 10) (Z.shiftl m1 2))).

Fixpoint udelay_loop (fuel : nat) (end_time : Z) : MC unit :=
  match fuel with
  | O => diverge
  | S fuel =>
      let! now := timer_read_time in
      if negb (timer_is_before end_time now) then udelay_loop fuel end_time else mret tt
  end.
Definition udelay (fuel : nat) (usecs : Z) : MC unit :=
  let! now := timer_read_time in
  udelay_loop fuel (u32 (now + timer_from_us usecs)).

(** Latch the data of the tle5012b: the clock at the rising edge of its chip select. *)
Definition tle5012b_latch (fuel : nat) (spi : addr) : MC Z :=
  let! o := load (T := spidev_s) spi in
  let cs_pin := spidev_get_cs_pin o in
  gpio_out_write cs_pin 0;;;
  udelay fuel 1;;;
  irq_disable;;;
  gpio_out_write cs_pin 1;;;
  let! mtime := timer_read_time in
  irq_enable;;;
  mret mtime.

Definition tle5012b_query (fuel : nat) (a : addr) (stime : Z) : MC unit :=
  let! sa := load (T := spi_angle) a in
  let! mtime := tle5012b_latch fuel (sa_spi sa) in
  let! msg := spidev_transfer (sa_spi sa) true 10
                [TLE_READ_LATCH; Z.lor (Z.shiftl TLE_REG_AVAL 4) 0x03; 0; 0; 0; 0; 0; 0; 0; 0] in
  let crc := foldl crc8 0x05 (take 6 (drop 2 msg)) in
  let! m2 := msg_at msg 2 in
  let! m3 := msg_at msg 3 in
  let! m6 := msg_at msg 6 in
  let! m8 := msg_at msg 8 in
  let! m9 := msg_at msg 9 in
  if negb (Z.land (Z.lnot crc) 0xff =? m9) then angle_add_error a SE_CRC
  else if negb (has m8 (Z.shiftl 1 4)) then angle_add_error a SE_NO_ANGLE
  else if negb (has m2 0x80) then angle_add_error a SE_DUP
  else if timer_from_us (32 * 32 * 1000000 / 750000) <? u32 (mtime - stime)
       then angle_add_error a SE_SCHEDULE
  else angle_add a (Z.land (Z.shiftr m6 1) 0x3f) (uint_fast16 (Z.lor (Z.shiftl m2 9) (Z.shiftl m3 1))).

Definition command_query_spi_angle (args : list Z) : MC unit :=
  let! a0 := arg args 0 in
  let oid := u8 a0 in
  let! a := oid_lookup oid command_config_spi_angle_t in
  sched_del_timer (T_member a M_time);;;
  upd_obj a (λ sa : spi_angle, sa <| sa_flags := 0 |>);;;
  let! a2 := arg args 2 in
  if negb (nz a2) then
    let! sa := load (T := spi_angle) a in
    (when nz (sa_data_count sa) do angle_report a oid);;;
    let! sa := load (T := spi_angle) a in
    command_sendf "spi_angle_end oid=%c sequence=%hu" [A_int oid; A_int (sa_sequence sa)]
  else
    let! a1 := arg args 1 in
    upd_timer (T_member a M_time) (λ x, x <| t_waketime := u32 a1 |>);;;
    let! a3 := arg args 3 in
    upd_obj a (λ sa : spi_angle, sa <| sa_rest_ticks := u32 a2 |> <| sa_sequence := 0 |>
                                    <| sa_data_count := 0 |> <| sa_time_shift := u8 a3 |>);;;
    sched_add_timer (T_member a M_time).

Definition command_spi_angle_transfer (fuel : nat) (args : list Z) : MC unit :=
  let! a0 := arg args 0 in
  let oid := u8 a0 in
  let! a := oid_lookup oid command_config_spi_angle_t in
  let! a1 := arg args 1 in
  let data_len := u8 a1 in
  let! a2 := arg args 2 in
  let! data := read_ptr a2 (Z.to_nat data_len) in
  let! sa := load (T := spi_angle) a in
  let chip := sa_chip_type sa in
  let! '(mtime, data_len, data) :=
    (if chip =? SA_CHIP_TLE5012B then
       let! mtime := tle5012b_latch fuel (sa_spi sa) in
       let! data := spidev_transfer (sa_spi sa) true data_len data in
       mret (mtime, data_len, data)
     else
       let! mtime1 := timer_read_time in
       let! data := spidev_transfer (sa_spi sa) true data_len data in
       let! mtime2 := timer_read_time in
       let data_len := if MAX_SPI_READ_TIME <? u32 (mtime2 - mtime1) then 0 else data_len in
       mret (if chip =? SA_CHIP_AS5047D then mtime2 else mtime1, data_len, data)) in
  write_ptr a2 data;;;
  command_sendf "spi_angle_transfer_response oid=%c clock=%u response=%*s"
    [A_int oid; A_int mtime; A_buf (take (Z.to_nat data_len) data)].

(** The [while (overflow--)] loop. *)
Fixpoint add_overflows (n : nat) (a : addr) (oid : Z) : MC unit :=
  match n with
  | O => mret tt
  | S n =>
      angle_add_error a SE_OVERFLOW;;;
      angle_check_report a oid;;;
      add_overflows n a oid
  end.

(** The body of the loop of [spi_angle_task]. *)
Definition spi_angle_task_body (fuel : nat) (oid : Z) (a : addr) : MC unit :=
  let! sa := load (T := spi_angle) a in
  if negb (has (sa_flags sa) SA_PENDING) then mret tt
  else
    irq_disable;;;
    let! x := get_timer (T_member a M_time) in
    let stime := t_waketime x in
    let overflow := sa_overflow sa in
    store a (sa <| sa_flags := 0 |> <| sa_overflow := 0 |>);;;
    irq_enable;;;
    let stime := u32 (stime - sa_rest_ticks sa) in
    add_overflows (Z.to_nat overflow) a oid;;;
    let chip := sa_chip_type sa in
    (if chip =? SA_CHIP_A1333 then a1333_query a stime
     else if chip =? SA_CHIP_AS5047D then as5047d_query a stime
     else when chip =? SA_CHIP_TLE5012B do tle5012b_query fuel a stime);;;
    angle_check_report a oid.

Definition spi_angle_task (fuel : nat) : MC unit :=
  let! w := sched_check_wake angle_wake in
  if negb w then mret tt
  else foreach_oid command_config_spi_angle_t (spi_angle_task_body fuel).
End angle.

(** * thermocouple.c: SPI thermocouple chips *)

Definition TS_CHIP_MAX31855 : Z := 0.
Definition TS_CHIP_MAX31856 : Z := 1.
Definition TS_CHIP_MAX31865 : Z := 2.
Definition TS_CHIP_MAX6675 : Z := 3.
Definition TS_PENDING : Z := 1.
Definition MAX31856_LTCBH_REG : Z := 0x0C.
Definition MAX31856_SR_REG : Z := 0x0F.
Definition MAX31865_RTDMSB_REG : Z := 0x01.
Definition MAX31865_FAULTSTAT_REG : Z := 0x07.

(** [be32_to_cpu] of the value the first four bytes have in memory. *)
Definition be32 (msg : list Z) : MC Z :=
  deref (match msg with
         | b0 :: b1 :: b2 :: b3 :: _ => Some (b0 * 2 ^ 24 + b1 * 2 ^ 16 + b2 * 2 ^ 8 + b3)
         | _ => None
         end).
Definition be16 (msg : list Z) : MC Z :=
  deref (match msg with b0 :: b1 :: _ => Some (b0 * 2 ^ 8 + b1) | _ => None end).

Section thermocouple.
Context {B : Board}.

Definition thermocouple_event (t : tid) : MC Z :=
  let! a := container_of t in
  sched_wake_task thermocouple_wake;;;
  let! spi := load (T := thermocouple_spi) a in
  store a (spi <| tc_flags := Z.lor (tc_flags spi) TS_PENDING |>);;;
  upd_timer t (λ x, x <| t_waketime := u32 (t_waketime x + tc_rest_time spi) |>);;;
  mret SF_RESCHEDULE.

Definition command_config_thermocouple (args : list Z) : MC unit :=
  let! a2 := arg args 2 in
  let chip_type := u8 a2 in
  (when TS_CHIP_MAX6675 <? chip_type do shutdown "Invalid thermocouple chip type");;;
  let! a0 := arg args 0 in
  let! a := oid_alloc a0 command_config_thermocouple_t
              (sizeof_object command_config_thermocouple_t) 0 in
  upd_timer (T_member a M_time) (λ x, x <| t_func := F_thermocouple_event |>);;;
  let! a1 := arg args 1 in
  let! spi := spidev_oid_lookup a1 in
  upd_obj a (λ o, o <| tc_spi := spi |> <| tc_chip_type := chip_type |>).

Definition command_query_thermocouple (args : list Z) : MC unit :=
  let! a0 := arg args 0 in
  let! a := oid_lookup a0 command_config_thermocouple_t in
  sched_del_timer (T_member a M_time);;;
  let! a1 := arg args 1 in
  upd_timer (T_member a M_time) (λ x, x <| t_waketime := u32 a1 |>);;;
  let! a2 := arg args 2 in
  upd_obj a (λ o, o <| tc_rest_time := u32 a2 |>);;;
  if negb (nz (u32 a2)) then mret tt
  else
    let! a3 := arg args 3 in
    let! a4 := arg args 4 in
    let! a5 := arg args 5 in
    upd_obj a (λ o, o <| tc_min_value := u32 a3 |> <| tc_max_value := u32 a4 |>
                      <| tc_max_invalid := u8 a5 |> <| tc_invalid_count := 0 |>);;;
    sched_add_timer (T_member a M_time).

Definition thermocouple_respond (a : addr) (next_begin_time value fault oid : Z) : MC unit :=
  let fault := u8 fault in
  command_sendf "thermocouple_result oid=%c next_clock=%u value=%u fault=%c"
    [A_int oid; A_int next_begin_time; A_int value; A_int fault];;;
  let! spi := load (T := thermocouple_spi) a in
  if nz fault || (value <? tc_min_value spi) || (tc_max_value spi <? value) then
    let spi := spi <| tc_invalid_count := u8 (tc_invalid_count spi + 1) |> in
    store a spi;;;
    if tc_invalid_count spi <? tc_max_invalid spi then mret tt
    else
      sched_try_shutdown "Thermocouple reader fault";;;
      store a (spi <| tc_invalid_count := 0 |>)
  else store a (spi <| tc_invalid_count := 0 |>).

Definition thermocouple_handle_max31855 (a : addr) (next_begin_time oid : Z) : MC unit :=
  let! spi := load (T := thermocouple_spi) a in
  let! msg := spidev_transfer (tc_spi spi) true 4 [0x00; 0x00; 0x00; 0x00] in
  let! value := be32 msg in
  thermocouple_respond a next_begin_time value (Z.land value 0x07) oid.

Definition thermocouple_handle_max31856 (a : addr) (next_begin_time oid : Z) : MC unit :=
  let! spi := load (T := thermocouple_spi) a in
  let! msg := spidev_transfer (tc_spi spi) true 4 [MAX31856_LTCBH_REG; 0x00; 0x00; 0x00] in
  let! value := be32 msg in
  let value := Z.land value 0x00ffffff in
  let msg := <[0%nat := MAX31856_SR_REG]> (<[1%nat := 0x00]> msg) in
  let! msg := spidev_transfer (tc_spi spi) true 2 msg in
  let! fault := deref (msg !! 1%nat) in
  thermocouple_respond a next_begin_time value fault oid.

Definition thermocouple_handle_max31865 (a : addr) (next_begin_time oid : Z) : MC unit :=
  let! spi := load (T := thermocouple_spi) a in
  let! msg := spidev_transfer (tc_spi spi) true 3 [MAX31865_RTDMSB_REG; 0x00; 0x00; 0x00] in
  let! value := be32 msg in
  let value := Z.land (Z.shiftr value 8) 0xffff in
  let msg := <[0%nat := MAX31865_FAULTSTAT_REG]> (<[1%nat := 0x00]> msg) in
  let! msg := spidev_transfer (tc_spi spi) true 2 msg in
  let! m1 := deref (msg !! 1%nat) in
  let fault := u8 (Z.lor (Z.land m1 (Z.lnot 0x03)) (Z.land value 0x0001)) in
  thermocouple_respond a next_begin_time value fault oid.

Definition thermocouple_handle_max6675 (a : addr) (next_begin_time oid : Z) : MC unit :=
  let! spi := load (T := thermocouple_spi) a in
  let! msg := spidev_transfer (tc_spi spi) true 2 [0x00; 0x00] in
  let! value := be16 msg in
  thermocouple_respond a next_begin_time value (Z.land value 0x06) oid.

(** The [switch] on the chip type. *)
Definition thermocouple_handle (chip_type : Z) : addr → Z → Z → MC unit :=
  if chip_type =? TS_CHIP_MAX31855 then thermocouple_handle_max31855
  else if chip_type =? TS_CHIP_MAX31856 then thermocouple_handle_max31856
  else if chip_type =? TS_CHIP_MAX31865 then thermocouple_handle_max31865
  else if chip_type =? TS_CHIP_MAX6675 then thermocouple_handle_max6675
  else λ _ _ _, mret tt.

(** The body of the loop of [thermocouple_task]. *)
Definition thermocouple_task_body (oid : Z) (a : addr) : MC unit :=
  let! spi := load (T := thermocouple_spi) a in
  if negb (has (tc_flags spi) TS_PENDING) then mret tt
  else
    irq_disable;;;
    let! x := get_timer (T_member a M_time) in
    let next_begin_time := t_waketime x in
    store a (spi <| tc_flags := Z.land (tc_flags spi) (Z.lnot TS_PENDING) |>);;;
    irq_enable;;;
    thermocouple_handle (tc_chip_type spi) a next_begin_time oid.

Definition thermocouple_task : MC unit :=
  let! w := sched_check_wake thermocouple_wake in
  if negb w then mret tt
  else foreach_oid command_config_thermocouple_t thermocouple_task_body.
End thermocouple.
