(* ===== verification/Lcd.v ===== *)
(** * lcd_hd44780.c and lcd_st7920.c: display controllers

    The busy loops take their fuel as an argument; [irq_poll] lets pending interrupts run. *)

From S2P Require Import Prelude State Runtime Sched Basecmd.

Section lcd.
Context {B : Board}.

(** ** Timing helpers (the same in both files) *)

Definition lcd_nsecs_to_ticks (ns : Z) : Z := timer_from_us (u32 (ns * 1000)) / 1000000.

Fixpoint ndelay_loop (fuel : nat) (end_time : Z) : MC unit :=
  match fuel with
  | O => diverge
  | S fuel =>
      let! now := timer_read_time in
      if timer_is_before now end_time then ndelay_loop fuel end_time else mret tt
  end.
Definition ndelay (fuel : nat) (nsecs : Z) : MC unit :=
  if CONFIG_MACH_AVR then mret tt
  else
    let! now := timer_read_time in
    ndelay_loop fuel (u32 (now + lcd_nsecs_to_ticks nsecs)).

(** [while (timer_read_time() - last < ticks) irq_poll();] *)
Fixpoint elapsed_loop (fuel : nat) (last ticks : Z) : MC unit :=
  match fuel with
  | O => diverge
  | S fuel =>
      let! now := timer_read_time in
      if u32 (now - last) <? ticks then elapsed_loop fuel last ticks else mret tt
  end.

(** ** lcd_hd44780.c *)

Definition toggle_if (b : bool) (pin : Z) : MC unit := when b do gpio_out_toggle pin.

Definition hd44780_xmit_bits (fuel : nat) (toggle e d4 d5 d6 d7 : Z) : MC unit :=
  let toggle := u8 toggle in
  gpio_out_toggle e;;;
  toggle_if (has toggle 0x10) d4;;;
  toggle_if (has toggle 0x20) d5;;;
  toggle_if (has toggle 0x40) d6;;;
  toggle_if (has toggle 0x80) d7;;;
  ndelay fuel 230;;;
  gpio_out_toggle e.

Definition hd44780_xmit_byte (fuel : nat) (a : addr) (data : Z) : MC unit :=
  let! h := load (T := hd44780) a in
  let bits toggle := hd44780_xmit_bits fuel toggle (hd_e h) (hd_d4 h) (hd_d5 h) (hd_d6 h) (hd_d7 h) in
  bits (Z.lxor (hd_last h) data);;;
  let last := u8 (Z.shiftl data 4) in
  upd_obj a (λ h : hd44780, h <| hd_last := last |>);;;
  ndelay fuel (500 - 230);;;
  bits (Z.lxor data last).

(** The [while (len--)] loop; the result is the final [last_cmd_time]. *)
Fixpoint hd44780_bytes (fuel : nat) (a : addr) (last_cmd_time cmd_wait_ticks : Z) (data : list Z) : MC Z :=
  match data with
  | [] => mret last_cmd_time
  | b :: data =>
      elapsed_loop fuel last_cmd_time cmd_wait_ticks;;;
      hd44780_xmit_byte fuel a b;;;
      let! now := timer_read_time in
      hd44780_bytes fuel a now cmd_wait_ticks data
  end.
Definition hd44780_xmit (fuel : nat) (a : addr) (data : list Z) : MC unit :=
  let! h := load (T := hd44780) a in
  let! last_cmd_time := hd44780_bytes fuel a (hd_last_cmd_time h) (hd_cmd_wait_ticks h) data in
  upd_obj a (λ h : hd44780, h <| hd_last_cmd_time := last_cmd_time |>).

Definition command_config_hd44780 (fuel : nat) (args : list Z) : MC unit :=
  let! a0 := arg args 0 in
  let! a := oid_alloc a0 command_config_hd44780_t (sizeof_object command_config_hd44780_t) 0 in
  let! a1 := arg args 1 in
  let! rs := gpio_out_setup a1 0 in
  upd_obj a (λ h : hd44780, h <| hd_rs := rs |>);;;
  let! a2 := arg args 2 in
  let! e := gpio_out_setup a2 0 in
  upd_obj a (λ h : hd44780, h <| hd_e := e |>);;;
  let! a3 := arg args 3 in
  let! d4 := gpio_out_setup a3 0 in
  upd_obj a (λ h : hd44780, h <| hd_d4 := d4 |>);;;
  let! a4 := arg args 4 in
  let! d5 := gpio_out_setup a4 0 in
  upd_obj a (λ h : hd44780, h <| hd_d5 := d5 |>);;;
  let! a5 := arg args 5 in
  let! d6 := gpio_out_setup a5 0 in
  upd_obj a (λ h : hd44780, h <| hd_d6 := d6 |>);;;
  let! a6 := arg args 6 in
  let! d7 := gpio_out_setup a6 0 in
  upd_obj a (λ h : hd44780, h <| hd_d7 := d7 |>);;;
  let! a7 := arg args 7 in
  if negb CONFIG_HAVE_STRICT_TIMING then
    upd_obj a (λ h : hd44780, h <| hd_cmd_wait_ticks := u32 a7 |>)
  else
    irq_disable;;;
    let! start := timer_read_time in
    hd44780_xmit_byte fuel a 0;;;
    let! end_time := timer_read_time in
    irq_enable;;;
    let diff := u32 (end_time - start) in
    when diff <? u32 a7 do
      upd_obj a (λ h : hd44780, h <| hd_cmd_wait_ticks := u32 a7 - diff |>).

Definition hd44780_send (fuel : nat) (rs_level : Z) (args : list Z) : MC unit :=
  let! a0 := arg args 0 in
  let! a := oid_lookup a0 command_config_hd44780_t in
  let! h := load (T := hd44780) a in
  gpio_out_write (hd_rs h) rs_level;;;
  let! a1 := arg args 1 in
  let len := u8 a1 in
  let! a2 := arg args 2 in
  let! data := read_ptr a2 (Z.to_nat len) in
  hd44780_xmit fuel a data.
Definition command_hd44780_send_cmds (fuel : nat) : list Z → MC unit := hd44780_send fuel 0.
Definition command_hd44780_send_data (fuel : nat) : list Z → MC unit := hd44780_send fuel 1.

Definition hd44780_shutdown : MC unit :=
  foreach_oid command_config_hd44780_t (λ _ a,
    let! h := load (T := hd44780) a in
    gpio_out_write (hd_rs h) 0;;;
    gpio_out_write (hd_e h) 0;;;
    gpio_out_write (hd_d4 h) 0;;;
    gpio_out_write (hd_d5 h) 0;;;
    gpio_out_write (hd_d6 h) 0;;;
    gpio_out_write (hd_d7 h) 0;;;
    store a (h <| hd_last := 0 |>)).

(** ** lcd_st7920.c *)

Definition SYNC_CMD : Z := 0xf8.
Definition SYNC_DATA : Z := 0xfa.

(** The loop over the bits, [n] of them still to go. *)
Fixpoint st7920_bits (n : nat) (fuel : nat) (sclk sid data : Z) : MC unit :=
  match n with
  | O => mret tt
  | S n =>
      let! data :=
        (if has data 0x80 then
           gpio_out_toggle sid;;;
           mret (u8 (Z.lnot data))
         else mret data) in
      ndelay fuel 200;;;
      gpio_out_toggle sclk;;;
      ndelay fuel 200;;;
      let data := u8 (Z.shiftl data 1) in
      gpio_out_toggle sclk;;;
      st7920_bits n fuel sclk sid data
  end.
Definition st7920_xmit_byte (fuel : nat) (a : addr) (data : Z) : MC unit :=
  let! s := load (T := st7920) a in
  st7920_bits 8 fuel (lc_sclk s) (lc_sid s) (u8 data).

(** The two halves of a command byte, with the wait in between; the new [last_cmd_time]. *)
Definition st7920_cmd (fuel : nat) (a : addr) (last_cmd_time wait_ticks cmd : Z) : MC Z :=
  st7920_xmit_byte fuel a (Z.land cmd 0xf0);;;
  elapsed_loop fuel last_cmd_time wait_ticks;;;
  st7920_xmit_byte fuel a (Z.shiftl cmd 4);;;
  timer_read_time.
Fixpoint st7920_cmds (fuel : nat) (a : addr) (last_cmd_time wait_ticks : Z) (cmds : list Z) : MC Z :=
  match cmds with
  | [] => mret last_cmd_time
  | cmd :: cmds =>
      let! last_cmd_time := st7920_cmd fuel a last_cmd_time wait_ticks cmd in
      st7920_cmds fuel a last_cmd_time wait_ticks cmds
  end.
Definition st7920_xmit (fuel : nat) (a : addr) (cmds : list Z) : MC unit :=
  match cmds with
  | [] => mret tt
  | cmd :: cmds =>
      let! s := load (T := st7920) a in
      let! last_cmd_time := st7920_cmd fuel a (lc_last_cmd_time s) (lc_sync_wait_ticks s) cmd in
      let! last_cmd_time := st7920_cmds fuel a last_cmd_time (lc_cmd_wait_ticks s) cmds in
      upd_obj a (λ s : st7920, s <| lc_last_cmd_time := last_cmd_time |>)
  end.

Definition command_config_st7920 (fuel : nat) (args : list Z) : MC unit :=
  let! a0 := arg args 0 in
  let! a := oid_alloc a0 command_config_st7920_t (sizeof_object command_config_st7920_t) 0 in
  let! a2 := arg args 2 in
  let! sclk := gpio_out_setup a2 0 in
  upd_obj a (λ s : st7920, s <| lc_sclk := sclk |>);;;
  let! a3 := arg args 3 in
  let! sid := gpio_out_setup a3 0 in
  upd_obj a (λ s : st7920, s <| lc_sid := sid |>);;;
  let! a1 := arg args 1 in
  let! _ := gpio_out_setup a1 1 in
  let! a4 := arg args 4 in
  let! a5 := arg args 5 in
  if negb CONFIG_HAVE_STRICT_TIMING then
    upd_obj a (λ s : st7920, s <| lc_sync_wait_ticks := u32 a4 |> <| lc_cmd_wait_ticks := u32 a5 |>)
  else
    st7920_xmit_byte fuel a SYNC_CMD;;;
    st7920_xmit_byte fuel a 0x20;;;
    irq_disable;;;
    let! start := timer_read_time in
    st7920_xmit_byte fuel a 0x00;;;
    let! end_time := timer_read_time in
    irq_enable;;;
    upd_obj a (λ s : st7920, s <| lc_last_cmd_time := end_time |>);;;
    let diff := u32 (end_time - start) in
    (when diff <? u32 a4 do upd_obj a (λ s : st7920, s <| lc_sync_wait_ticks := u32 a4 - diff |>));;;
    when diff <? u32 a5 do upd_obj a (λ s : st7920, s <| lc_cmd_wait_ticks := u32 a5 - diff |>).

Definition st7920_send (fuel : nat) (sync : Z) (args : list Z) : MC unit :=
  let! a0 := arg args 0 in
  let! a := oid_lookup a0 command_config_st7920_t in
  st7920_xmit_byte fuel a sync;;;
  let! a1 := arg args 1 in
  let len := u8 a1 in
  let! a2 := arg args 2 in
  let! data := read_ptr a2 (Z.to_nat len) in
  st7920_xmit fuel a data.
Definition command_st7920_send_cmds (fuel : nat) : list Z → MC unit := st7920_send fuel SYNC_CMD.
Definition command_st7920_send_data (fuel : nat) : list Z → MC unit := st7920_send fuel SYNC_DATA.

Definition st7920_shutdown : MC unit :=
  foreach_oid command_config_st7920_t (λ _ a,
    let! s := load (T := st7920) a in
    gpio_out_write (lc_sclk s) 0;;;
    gpio_out_write (lc_sid s) 0).
End lcd.
