(* ===== verification/Double.v ===== *)
(** * The type double of the host, IEEE 754 binary64

    The operations are those of the Standard Library's specification of floating point
    arithmetic, at the precision of binary64 and rounding to nearest even. *)

From Stdlib Require Import SpecFloat.
From S2P Require Import Prelude.

Abbreviation double := spec_float.

Definition dadd : double → double → double := SFadd 53 1024.
Definition dsub : double → double → double := SFsub 53 1024.
Definition dmul : double → double → double := SFmul 53 1024.
Definition ddiv : double → double → double := SFdiv 53 1024.
Definition dsqrt : double → double := SFsqrt 53 1024.
Definition dneg : double → double := SFopp.
Definition dabs : double → double := SFabs.
Definition dlt : double → double → bool := SFltb.
Definition dle : double → double → bool := SFleb.
Definition deq : double → double → bool := SFeqb.

(** Conversion of an integer to [double]. *)
Definition dint (z : Z) : double := binary_normalize 53 1024 z 0 false.
(** The decimal constant [n / 10^k]: both are exact for the constants of the sources, so the
    quotient is the double next to the decimal. *)
Definition dec (n k : Z) : double := ddiv (dint n) (dint (10 ^ k)).

(** Rounding towards zero, [None] for an infinity or NaN. *)
Definition dtrunc (x : double) : option Z :=
  match x with
  | S754_zero _ => Some 0
  | S754_finite s m e =>
      let v := if 0 <=? e then Z.pos m * 2 ^ e else Z.pos m / 2 ^ (- e) in
      Some (if s then - v else v)
  | _ => None
  end.

(** [ceil]. *)
Definition dceil (x : double) : double :=
  match dtrunc x with
  | Some z => if dlt (dint z) x then dint (z + 1) else dint z
  | None => x
  end.

(** [if (x)]: neither of the zeros. *)
Definition dnz (x : double) : bool := negb (deq x (dint 0)).

(** pollreactor.h *)
Definition PR_NOW : double := dint 0.
Definition PR_NEVER : double := dint 9999999999999999.

(** What the operating system and the platform decide: [os_write n] tells whether the [n]th
    system call, a write, succeeds; [os_monotonic n] is the time the [n]th call returns, and
    [os_toint x] the integer of a conversion whose value does not fit, which C leaves open. *)
Class HostOS := {
  os_write : nat → bool;
  os_monotonic : nat → double;
  os_toint : double → Z;
}.

(** [(int64_t)x] and [(uint64_t)x]. *)
Definition to_int64 `{HostOS} (x : double) : Z :=
  match dtrunc x with
  | Some z => if (- 2 ^ 63 <=? z) && (z <? 2 ^ 63) then z else os_toint x
  | None => os_toint x
  end.
Definition to_uint64 `{HostOS} (x : double) : Z :=
  match dtrunc x with
  | Some z => if (0 <=? z) && (z <? 2 ^ 64) then z else u64 (os_toint x)
  | None => u64 (os_toint x)
  end.

(** [(int32_t)x] *)
Definition to_int32 `{HostOS} (x : double) : Z :=
  match dtrunc x with
  | Some z => if (- 2 ^ 31 <=? z) && (z <? 2 ^ 31) then z else i32 (os_toint x)
  | None => i32 (os_toint x)
  end.

(** ** Order *)

Lemma pos_compare_cont_eq p q : Pos.compare_cont Eq p q = Pos.compare p q.
Proof. done. Qed.

(** Position of a number in the order of doubles, NaN apart: its sign and class, exponent and
    mantissa. *)
Definition dkey (x : double) : option (Z * Z * Z) :=
  match x with
  | S754_nan => None
  | S754_infinity s => Some (if s then -2 else 2, 0, 0)
  | S754_zero _ => Some (0, 0, 0)
  | S754_finite false m e => Some (1, e, Z.pos m)
  | S754_finite true m e => Some (-1, - e, - Z.pos m)
  end.
Definition key_lt (a b : Z * Z * Z) : Prop :=
  let '(a1, a2, a3) := a in
  let '(b1, b2, b3) := b in
  a1 < b1 ∨ a1 = b1 ∧ (a2 < b2 ∨ a2 = b2 ∧ a3 < b3).

Lemma dlt_key x y :
  dlt x y = true ↔ ∃ a b, dkey x = Some a ∧ dkey y = Some b ∧ key_lt a b.
Proof.
  unfold dlt, SFltb, SFcompare.
  destruct x as [s|s| |[] m e], y as [s'|s'| |[] m' e']; cbn [dkey]; rewrite ?pos_compare_cont_eq.
  all: try match goal with |- context [?a ?= ?b] => destruct (Z.compare_spec a b); subst end.
  all: try match goal with |- context [(?a ?= ?b)%positive] => destruct (Pos.compare_spec a b); subst end.
  all: try destruct s; try destruct s'; cbn [CompOpp].
  all: split; intros HH; try done.
  all: try (eexists _, _; split; [done|]; split; [done|]; unfold key_lt; lia).
  all: destruct HH as (? & ? & ? & ? & ?); simplify_eq; unfold key_lt in *; lia.
Qed.

Ltac destruct_keys := repeat match goal with k : (Z * Z * Z)%type |- _ => destruct k as [[? ?] ?] end.
#[export] Instance dlt_trans : Transitive (λ x y, dlt x y = true).
Proof.
  intros x y z. rewrite !dlt_key. intros (a & b & Ha & Hb & H1) (b' & c & Hb' & Hc & H2). simplify_eq.
  exists a, c. split_and!; [done..|]. destruct_keys. cbn in *. lia.
Qed.
Lemma dlt_irrefl x : dlt x x = false.
Proof.
  destruct (dlt x x) eqn:H; [|done]. apply dlt_key in H as (a & b & Ha & Hb & Hlt). simplify_eq.
  destruct_keys. cbn in Hlt. lia.
Qed.

(** Proofs do not compute with doubles, except by [vm_compute]. *)
#[global] Opaque dadd dsub dmul ddiv dsqrt dint dec.
