(* ===== verification/DoubleSpec.v ===== *)
(** * Rounding of doubles

    Sums, differences and products are correctly rounded: the result is not below any double
    that the exact result is not below, and not above any double that it is not above.  The
    exact value of a finite double is an integer multiple of a power of two, so the facts are
    about integers. *)

From Stdlib Require Import SpecFloat.
From S2P Require Import Prelude Double.

Definition finite (x : double) : Prop :=
  match x with
  | S754_zero _ => True
  | S754_finite _ m e => bounded 53 1024 m e = true
  | _ => False
  end.

(** The value of a double, times 2^3000. *)
Definition dz (x : double) : Z :=
  match x with
  | S754_finite s m e => cond_Zopp s (Z.pos m) * 2 ^ (e + 3000)
  | _ => 0
  end.

Lemma digits_bounds m : 2 ^ (Z.pos (digits2_pos m) - 1) ≤ Z.pos m < 2 ^ Z.pos (digits2_pos m).
Proof.
  induction m as [m IH|m IH|]; cbn [digits2_pos]; [..|done].
  all: rewrite Pos2Z.inj_succ; replace (Z.succ (Z.pos (digits2_pos m)) - 1) with (Z.pos (digits2_pos m) - 1 + 1) by lia.
  all: rewrite <- Z.add_1_r, !Z.pow_add_r by lia; lia.
Qed.
Lemma digits_le m n : 0 ≤ n → Z.pos (digits2_pos m) ≤ n ↔ Z.pos m < 2 ^ n.
Proof.
  intros Hn. pose proof (digits_bounds m) as [H1 H2]. split; intros H.
  - eapply Z.lt_le_trans; [exact H2|]. apply Z.pow_le_mono_r; lia.
  - destruct (Z.le_gt_cases (Z.pos (digits2_pos m)) n) as [|Hgt]; [done|].
    assert (2 ^ n ≤ 2 ^ (Z.pos (digits2_pos m) - 1)) by (apply Z.pow_le_mono_r; lia). lia.
Qed.

(** Either the mantissa has all its bits, or the exponent is the lowest one. *)
Lemma bounded_iff m e :
  bounded 53 1024 m e = true ↔ -1074 ≤ e ≤ 971 ∧ Z.pos m < 2 ^ 53 ∧ (e = -1074 ∨ 2 ^ 52 ≤ Z.pos m).
Proof.
  unfold bounded, canonical_mantissa, fexp, emin. rewrite andb_true_iff, Z.eqb_eq, Z.leb_le.
  pose proof (digits_le m 53 ltac:(lia)) as H1. pose proof (digits_le m 52 ltac:(lia)) as H2.
  pose proof (Pos2Z.is_pos (digits2_pos m)). lia.
Qed.

Lemma pow_split a b : 0 ≤ a ≤ b → 2 ^ b = 2 ^ a * 2 ^ (b - a).
Proof. intros. rewrite <- Z.pow_add_r by lia. f_equal. lia. Qed.
Lemma pow2_pos a : 0 ≤ a → 0 < 2 ^ a.
Proof. intros. apply Z.pow_pos_nonneg; lia. Qed.

(** ** Order *)

Lemma magnitude_lt m e m' e' :
  bounded 53 1024 m e = true → bounded 53 1024 m' e' = true → e < e' →
  Z.pos m * 2 ^ (e + 3000) < Z.pos m' * 2 ^ (e' + 3000).
Proof.
  rewrite !bounded_iff. intros (He & Hm & _) (He' & _ & [?|Hm']) Hlt; [lia|].
  assert (2 ^ (e + 3000 + 1) ≤ 2 ^ (e' + 3000)) as Hp by (apply Z.pow_le_mono_r; lia).
  rewrite Z.pow_add_r in Hp by lia. pose proof (pow2_pos (e + 3000) ltac:(lia)) as H0.
  set (P := 2 ^ (e + 3000)) in *. set (Q := 2 ^ (e' + 3000)) in *. clearbody P Q. nia.
Qed.

Lemma dz_sign s m e : dz (S754_finite s m e) = cond_Zopp s (Z.pos m * 2 ^ (e + 3000)).
Proof. destruct s; cbn [dz cond_Zopp]; lia. Qed.

Lemma dcompare_dz x y : finite x → finite y → SFcompare x y = Some (dz x ?= dz y).
Proof.
  assert (∀ m e, bounded 53 1024 m e = true → 0 < Z.pos m * 2 ^ (e + 3000)) as Hpos.
  { intros m e [? _]%bounded_iff. pose proof (pow2_pos (e + 3000) ltac:(lia)). lia. }
  assert (∀ m e m' e', bounded 53 1024 m e = true → bounded 53 1024 m' e' = true →
    (Z.pos m * 2 ^ (e + 3000) ?= Z.pos m' * 2 ^ (e' + 3000)) =
    match e ?= e' with Eq => Pos.compare m m' | c => c end) as Hcmp.
  { intros m e m' e' H H'. destruct (Z.compare_spec e e') as [->|Hlt|Hlt].
    - pose proof (proj1 (bounded_iff _ _) H). rewrite <- Zmult_compare_compat_r by (apply Z.lt_gt, pow2_pos; lia). done.
    - by apply Z.compare_lt_iff, magnitude_lt.
    - by apply Z.compare_gt_iff, magnitude_lt. }
  destruct x as [s| | |s m e], y as [s'| | |s' m' e']; try done; intros Hx Hy; cbn [SFcompare].
  all: rewrite ?dz_sign; cbn [dz]; cbn [finite] in *.
  - destruct s'; cbn [cond_Zopp]; pose proof (Hpos _ _ Hy); symmetry; f_equal; [apply Z.compare_gt_iff|apply Z.compare_lt_iff]; lia.
  - destruct s; cbn [cond_Zopp]; pose proof (Hpos _ _ Hx); symmetry; f_equal; [apply Z.compare_lt_iff|apply Z.compare_gt_iff]; lia.
  - f_equal. pose proof (Hpos _ _ Hx). pose proof (Hpos _ _ Hy).
    destruct s, s'; cbn [cond_Zopp]; symmetry.
    + rewrite Z.compare_opp, Hcmp by done.
      rewrite (Z.compare_antisym e e'), (Pos.compare_antisym m m'). by destruct (e ?= e').
    + apply Z.compare_lt_iff. lia.
    + apply Z.compare_gt_iff. lia.
    + by apply Hcmp.
Qed.
Lemma dlt_dz x y : finite x → finite y → dlt x y = true ↔ dz x < dz y.
Proof. intros Hx Hy. unfold dlt, SFltb. rewrite dcompare_dz by done. destruct (Z.compare_spec (dz x) (dz y)); split; try done; lia. Qed.
Lemma dle_dz x y : finite x → finite y → dle x y = true ↔ dz x ≤ dz y.
Proof. intros Hx Hy. unfold dle, SFleb. rewrite dcompare_dz by done. destruct (Z.compare_spec (dz x) (dz y)); split; try done; lia. Qed.

(** ** Rounding *)

Definition exact (r : shr_record) : Prop := shr_r r = false ∧ shr_s r = false.
Definition shifted (n : Z) (r r' : shr_record) : Prop :=
  shr_m r' = shr_m r / 2 ^ n ∧ (exact r → (2 ^ n | shr_m r) → exact r').

Lemma shifted_trans a b r r' r'' : 0 ≤ a → 0 ≤ b → shifted a r r' → shifted b r' r'' → shifted (a + b) r r''.
Proof.
  intros Ha Hb [H1 E1] [H2 E2]. pose proof (pow2_pos a Ha). pose proof (pow2_pos b Hb).
  unfold shifted. rewrite Z.pow_add_r by done. split; [by rewrite H2, H1, Zdiv_Zdiv by lia|].
  intros He [k Hk]. assert (shr_m r = k * 2 ^ b * 2 ^ a) as Hm by lia.
  apply E2; [apply E1; [done|]|]; [by exists (k * 2 ^ b)|]. rewrite H1, Hm, Z.div_mul by lia. by exists k.
Qed.
Lemma shr_1_shifted r : 0 ≤ shr_m r → shifted 1 r (shr_1 r).
Proof.
  destruct r as [m r s]. cbn [shr_m]. intros Hm. unfold shifted, exact.
  destruct m as [|[m|m|]|]; try done; cbn [shr_1 shr_m shr_r shr_s]; change (2 ^ 1) with 2.
  - split; [done|]. intros [-> ->]. done.
  - split; [rewrite Pos2Z.inj_xI; apply (Z.div_unique _ _ _ 1); lia|]. intros [-> ->] [k Hk]. lia.
  - split; [rewrite Pos2Z.inj_xO; apply (Z.div_unique _ _ _ 0); lia|]. by intros [-> ->].
  - split; [done|]. intros _ [k Hk]. lia.
Qed.
Lemma iter_shr_shifted p r : 0 ≤ shr_m r → shifted (Z.pos p) r (SpecFloat.iter_pos shr_1 p r).
Proof.
  revert r. induction p as [p IH|p IH|]; intros r Hr; cbn [SpecFloat.iter_pos].
  all: assert (∀ n r', 0 ≤ n → shifted n r r' → 0 ≤ shr_m r') as Hnn
    by (intros n r' Hn [-> _]; apply Z.div_pos; [done|by apply pow2_pos]).
  - pose proof (shr_1_shifted r Hr) as H1. pose proof (IH _ (Hnn 1 _ ltac:(lia) H1)) as H2.
    assert (shifted (1 + Z.pos p) r (SpecFloat.iter_pos shr_1 p (shr_1 r))) as H3 by (by apply (shifted_trans _ _ _ (shr_1 r))).
    replace (Z.pos p~1) with (1 + Z.pos p + Z.pos p) by lia.
    apply (shifted_trans _ _ _ (SpecFloat.iter_pos shr_1 p (shr_1 r))); [lia|lia|done|]. apply IH, (Hnn (1 + Z.pos p) _ ltac:(lia) H3).
  - pose proof (IH r Hr) as H1. replace (Z.pos p~0) with (Z.pos p + Z.pos p) by lia.
    apply (shifted_trans _ _ _ (SpecFloat.iter_pos shr_1 p r)); [lia|lia|done|]. apply IH, (Hnn (Z.pos p) _ ltac:(lia) H1).
  - by apply shr_1_shifted.
Qed.
Lemma shr_shifted r e n : 0 ≤ shr_m r → 0 ≤ n → shifted n r (shr r e n).1 ∧ (shr r e n).2 = e + n.
Proof.
  intros Hr Hn. destruct n as [|n|]; [..|done]; cbn [shr fst snd].
  - split; [|lia]. split; [by rewrite Z.pow_0_r, Z.div_1_r|done].
  - split; [by apply iter_shr_shifted|done].
Qed.

Lemma round_up_down m l : round_nearest_even m l = m ∨ round_nearest_even m l = m + 1 ∧ l ≠ loc_Exact.
Proof. destruct l as [|[]]; cbn [round_nearest_even]; [by left| |by left|by right]. destruct (Z.even m); [by left|by right]. Qed.
Lemma exact_loc r : exact r → loc_of_shr_record r = loc_Exact.
Proof. destruct r as [m r s]. by intros [[= ->] [= ->]]. Qed.

(** A double with mantissa [m1], at most 2^53, and exponent [e]. *)
Definition pack (s : bool) (m1 e : Z) : double :=
  if m1 =? 0 then S754_zero s
  else if m1 =? 2 ^ 53 then if e + 1 <=? 971 then S754_finite s (2 ^ 52)%positive (e + 1) else S754_infinity s
  else if e <=? 971 then S754_finite s (Z.to_pos m1) e else S754_infinity s.

Lemma pack_shr s m1 e :
  0 ≤ m1 ≤ 2 ^ 53 → -1074 ≤ e → 
  match shr_fexp 53 1024 m1 e loc_Exact with
  | (r, e'') =>
      match shr_m r with
      | Z0 => S754_zero s
      | Zpos m => if e'' <=? 1024 - 53 then S754_finite s m e'' else S754_infinity s
      | _ => S754_nan
      end
  end = pack s m1 e.
Proof.
  intros Hm He. unfold pack, shr_fexp. cbn [shr_record_of_loc]. destruct m1 as [|m|m]; [|cbn [Zdigits2]|lia].
  - cbn [Z.eqb Zdigits2 Z.add]. unfold fexp, emin. assert (Z.max (e - 53) (3 - 1024 - 53) - e ≤ 0) as Hn by lia.
    destruct (Z.max _ _ - e); [done|lia|done].
  - change (Z.pos m =? 0) with false. cbn iota. unfold fexp, emin. pose proof (digits_le m 53 ltac:(lia)) as Hd.
    pose proof (digits_le m 54 ltac:(lia)) as Hd4. destruct (Z.eqb_spec (Z.pos m) (2 ^ 53)) as [Hmax|Hlt].
    + assert (m = 9007199254740992%positive) as -> by lia. change (Z.pos (digits2_pos 9007199254740992)) with 54.
      replace (Z.max (54 + e - 53) (3 - 1024 - 53) - e) with 1 by lia. done.
    + assert (Z.max (Z.pos (digits2_pos m) + e - 53) (3 - 1024 - 53) - e ≤ 0) as Hn by lia.
      by destruct (Z.max _ _ - e); [|lia|].
Qed.

Section aux.
Context (s : bool) (mx : positive) (ex : Z).
Let E := fexp 53 1024 (Z.pos (digits2_pos mx) + ex).
Let q := Z.pos mx / 2 ^ (E - ex).
Context (Hex : ex ≤ E).

Lemma quotient_bounds : -1074 ≤ E ∧ 0 ≤ q < 2 ^ 53 ∧ (E = -1074 ∨ 2 ^ 52 ≤ q).
Proof.
  pose proof (digits_bounds mx) as [H1 H2]. set (d := Z.pos (digits2_pos mx)) in *. pose proof (pow2_pos (E - ex) ltac:(lia)) as Hp.
  assert (E = Z.max (d + ex - 53) (-1074)) as HE by done. split; [lia|]. split; [split|].
  - apply Z.div_pos; lia.
  - apply Z.div_lt_upper_bound; [done|]. eapply Z.lt_le_trans; [exact H2|]. rewrite <- Z.pow_add_r by lia. apply Z.pow_le_mono_r; lia.
  - destruct (Z.eq_dec E (-1074)) as [|Hne]; [by left|right]. apply Z.div_le_lower_bound; [done|].
    etrans; [|exact H1]. rewrite <- Z.pow_add_r by lia. apply Z.pow_le_mono_r; lia.
Qed.

Lemma round_aux_pack :
  ∃ m1, binary_round_aux 53 1024 s (Z.pos mx) ex loc_Exact = pack s m1 E ∧
    (m1 = q ∨ m1 = q + 1 ∧ ¬ (2 ^ (E - ex) | Z.pos mx)).
Proof.
  destruct quotient_bounds as (HE & Hq & _). unfold binary_round_aux. unfold shr_fexp at 1. cbn [Zdigits2].
  fold E. cbn [shr_record_of_loc]. set (r0 := {| shr_m := Z.pos mx; shr_r := false; shr_s := false |}).
  destruct (shr_shifted r0 ex (E - ex) ltac:(done) ltac:(lia)) as [[Hm Hx] He]. destruct (shr r0 ex (E - ex)) as [r e']. cbn [fst snd] in *.
  replace e' with E by lia. cbn [shr_m r0] in Hm. fold q in Hm. rewrite Hm.
  exists (round_nearest_even q (loc_of_shr_record r)). split.
  - apply pack_shr; [|done]. destruct (round_up_down q (loc_of_shr_record r)) as [->|[-> _]]; lia.
  - destruct (round_up_down q (loc_of_shr_record r)) as [->|[-> Hl]]; [by left|right]. split; [done|].
    intros Hd. apply Hl, exact_loc, Hx; done.
Qed.
End aux.

Lemma finite_dneg y : finite y → finite (dneg y).
Proof. by destruct y. Qed.
Lemma dz_dneg y : dz (dneg y) = - dz y.
Proof. destruct y as [| | |[]]; cbn [dz dneg SFopp negb cond_Zopp]; lia. Qed.

(** [r] is next to the value [v / 2^(3000 + k)]. *)
Definition near (k v : Z) (r : double) : Prop :=
  match r with
  | S754_nan => False
  | S754_infinity s => ∀ y, finite y → if s then v < dz y * 2 ^ k else dz y * 2 ^ k < v
  | _ => finite r ∧ ∀ y, finite y → (dz y * 2 ^ k ≤ v → dz y ≤ dz r) ∧ (v ≤ dz y * 2 ^ k → dz r ≤ dz y)
  end.

Lemma finite_cases y :
  finite y → dz y ≤ 0 ∨ ∃ m e, dz y = Z.pos m * 2 ^ (e + 3000) ∧ bounded 53 1024 m e = true.
Proof.
  destruct y as [| | |[] m e]; try done; intros Hy.
  - by left.
  - left. rewrite dz_sign. cbn [cond_Zopp]. pose proof (Z.pow_nonneg 2 (e + 3000)). lia.
  - right. exists m, e. by rewrite dz_sign.
Qed.
Lemma finite_below y : finite y → dz y < 2 ^ 53 * 2 ^ (971 + 3000).
Proof.
  intros Hy. pose proof (pow2_pos (971 + 3000) ltac:(lia)).
  destruct (finite_cases y Hy) as [H'|(m & e & -> & Hb)]; [set (Q := 2 ^ (971 + 3000)) in *; clearbody Q; lia|].
  apply bounded_iff in Hb as (He & Hm & _). assert (2 ^ (e + 3000) ≤ 2 ^ (971 + 3000)) by (apply Z.pow_le_mono_r; lia).
  pose proof (pow2_pos (e + 3000) ltac:(lia)). set (P := 2 ^ (e + 3000)) in *. set (Q := 2 ^ (971 + 3000)) in *.
  clearbody P Q. nia.
Qed.

Lemma pack_value s m1 e :
  0 ≤ m1 ≤ 2 ^ 53 → -1074 ≤ e → (e = -1074 ∨ 2 ^ 52 ≤ m1) →
  (finite (pack s m1 e) ∧ dz (pack s m1 e) = cond_Zopp s (m1 * 2 ^ (e + 3000))) ∨
  pack s m1 e = S754_infinity s ∧ 2 ^ 53 * 2 ^ (971 + 3000) ≤ m1 * 2 ^ (e + 3000).
Proof.
  intros Hm He Hc. unfold pack. destruct (Z.eqb_spec m1 0) as [->|Hm0].
  { left. split; [done|]. rewrite Z.mul_0_l. by destruct s. }
  destruct (Z.eqb_spec m1 (2 ^ 53)) as [->|Hmax].
  - replace (e + 3000) with (e + 1 + 3000 - 1) by lia.
    assert (2 ^ (e + 1 + 3000) = 2 * 2 ^ (e + 1 + 3000 - 1)) as Hp
      by (rewrite (pow_split 1 (e + 1 + 3000)) by lia; by rewrite Z.pow_1_r).
    destruct (Z.leb_spec (e + 1) 971) as [Hle|Hgt].
    + left. split; [apply bounded_iff; lia|]. rewrite dz_sign. f_equal. rewrite Hp. lia.
    + right. split; [done|]. apply Z.mul_le_mono_nonneg_l; [done|]. apply Z.pow_le_mono_r; lia.
  - destruct (Z.leb_spec e 971) as [Hle|Hgt].
    + left. split; [apply bounded_iff; lia|]. rewrite dz_sign. do 2 f_equal. lia.
    + right. split; [done|]. assert (2 ^ (971 + 3000 + 1) ≤ 2 ^ (e + 3000)) as Hp by (apply Z.pow_le_mono_r; lia).
      rewrite Z.pow_add_r in Hp by lia. pose proof (pow2_pos (971 + 3000) ltac:(lia)).
      set (P := 2 ^ (e + 3000)) in *. set (Q := 2 ^ (971 + 3000)) in *. clearbody P Q. nia.
Qed.

Section near.
Context (mx : positive) (ex k : Z).
Let E := fexp 53 1024 (Z.pos (digits2_pos mx) + ex).
Let q := Z.pos mx / 2 ^ (E - ex).
Context (Hex : ex ≤ E) (Hk : 0 ≤ k) (Hlow : 0 ≤ ex + 3000).

(** Doubles are multiples of 2^E, or too small to matter. *)
Lemma double_grid y :
  finite y → (∃ t, dz y = t * 2 ^ (E + 3000)) ∨ dz y < q * 2 ^ (E + 3000).
Proof.
  intros Hy. destruct (quotient_bounds mx ex Hex) as (HE & Hq & HqE). fold E q in HE, Hq, HqE.
  assert (∀ m e, bounded 53 1024 m e = true → E ≤ e → Z.pos m * 2 ^ (e + 3000) = Z.pos m * 2 ^ (e - E) * 2 ^ (E + 3000)) as Hmul.
  { intros m e [? _]%bounded_iff Hle. rewrite (pow_split (E + 3000) (e + 3000)) by lia.
    replace (e + 3000 - (E + 3000)) with (e - E) by lia. ring. }
  assert (∀ m e, bounded 53 1024 m e = true → e < E → Z.pos m * 2 ^ (e + 3000) < q * 2 ^ (E + 3000)) as Hsmall.
  { intros m e (He & Hm & _)%bounded_iff Hlt. assert (2 ^ (e + 3000 + 1) ≤ 2 ^ (E + 3000)) as Hp by (apply Z.pow_le_mono_r; lia).
    rewrite Z.pow_add_r in Hp by lia. pose proof (pow2_pos (e + 3000) ltac:(lia)).
    set (P := 2 ^ (e + 3000)) in *. set (Q := 2 ^ (E + 3000)) in *. clearbody P Q. destruct HqE; [lia|nia]. }
  destruct y as [| | |[] m e]; try done; cbn [finite] in Hy.
  - left. by exists 0.
  - rewrite dz_sign. cbn [cond_Zopp]. destruct (Z.le_gt_cases E e) as [Hle|Hlt].
    + left. exists (- (Z.pos m * 2 ^ (e - E))). rewrite (Hmul m e Hy Hle). ring.
    + right. pose proof (Hsmall m e Hy Hlt). apply bounded_iff in Hy. pose proof (pow2_pos (e + 3000) ltac:(lia)).
      assert (0 < Z.pos m * 2 ^ (e + 3000)) by lia. lia.
  - rewrite dz_sign. cbn [cond_Zopp]. destruct (Z.le_gt_cases E e) as [Hle|Hlt].
    + left. exists (Z.pos m * 2 ^ (e - E)). by apply Hmul.
    + right. by apply Hsmall.
Qed.
Let V := Z.pos mx * 2 ^ (ex + 3000 + k).
Let G := 2 ^ (E + 3000).
Let u := 2 ^ (ex + 3000 + k).
Let D := 2 ^ (E - ex).

Lemma scale_G : G * 2 ^ k = D * u ∧ 0 < G ∧ 0 < u ∧ 0 < D ∧ 0 < 2 ^ k.
Proof.
  unfold G, D, u. rewrite <- !Z.pow_add_r by lia. replace (E + 3000 + k) with (E - ex + (ex + 3000 + k)) by lia.
  split_and!; try apply pow2_pos; lia.
Qed.

(** What lies below the exact value lies below its quotient, and what lies above it above. *)
Lemma below_quotient y : finite y → dz y * 2 ^ k ≤ V → dz y ≤ q * G.
Proof.
  intros Hy Hle. destruct scale_G as (Hs & H1 & H2 & H3 & H4). destruct (double_grid y Hy) as [[t Ht]|Hlt]; [|fold G in Hlt; lia].
  fold G in Ht. rewrite Ht in *. apply Z.mul_le_mono_nonneg_r; [lia|]. unfold q. fold D. apply Z.div_le_lower_bound; [done|].
  unfold V in Hle. fold u in Hle. assert (D * t * u ≤ Z.pos mx * u) as Hm by nia. nia.
Qed.
Lemma above_quotient y m1 :
  finite y → V ≤ dz y * 2 ^ k → m1 = q ∨ m1 = q + 1 ∧ ¬ (D | Z.pos mx) → m1 * G ≤ dz y.
Proof.
  intros Hy Hle Hm1. destruct scale_G as (Hs & H1 & H2 & H3 & H4). unfold V in Hle. fold u in Hle.
  assert (D * q ≤ Z.pos mx) as Hq by apply (Z.mul_div_le (Z.pos mx) D H3). destruct (double_grid y Hy) as [[t Ht]|Hlt].
  - fold G in Ht. rewrite Ht in *. apply Z.mul_le_mono_nonneg_r; [lia|]. assert (Z.pos mx ≤ D * t) as Hx by nia.
    destruct Hm1 as [->|[-> Hnd]].
    + unfold q. fold D. apply Z.div_le_upper_bound; lia.
    + assert (Z.pos mx ≠ D * t) by (intros Heq; apply Hnd; exists t; lia). enough (q < t) by lia. apply Z.div_lt_upper_bound; lia.
  - fold G in Hlt. exfalso. assert (dz y * 2 ^ k < q * G * 2 ^ k) by (by apply Zmult_lt_compat_r).
    rewrite <- Z.mul_assoc, Hs in *. assert (D * q * u ≤ Z.pos mx * u) by (apply Z.mul_le_mono_nonneg_r; lia). lia.
Qed.

Lemma round_aux_near s : near k (cond_Zopp s V) (binary_round_aux 53 1024 s (Z.pos mx) ex loc_Exact).
Proof.
  destruct (quotient_bounds mx ex Hex) as (HE & Hq & HqE). fold E q in HE, Hq, HqE.
  destruct (round_aux_pack s mx ex Hex) as (m1 & -> & Hm1). fold E q D in Hm1. fold E.
  destruct (pack_value s m1 E) as [[Hf Hv]|[-> Hbig]]; [lia|done|lia|..].
  - assert (q * G ≤ m1 * G) as Hqm by (destruct scale_G as (_ & ? & _); nia).
    unfold near. destruct (pack s m1 E) as [|?| |]; try done; (split; [done|]); intros y Hy; rewrite Hv; fold G.
    all: pose proof (below_quotient y Hy) as Hb; pose proof (above_quotient y m1 Hy) as Ha.
    all: pose proof (below_quotient _ (finite_dneg y Hy)) as Hb'; pose proof (above_quotient _ m1 (finite_dneg y Hy)) as Ha'.
    all: rewrite dz_dneg in Hb', Ha'; destruct s; cbn [cond_Zopp]; split; intros H.
    1,5: enough (m1 * G ≤ - dz y) by lia; apply Ha'; [lia|done].
    1,4: specialize (Hb' ltac:(lia)); lia.
    1,3: specialize (Hb ltac:(lia)); lia.
    all: apply Ha; [lia|done].
  - unfold near. intros y Hy. destruct s; cbn [cond_Zopp].
    + destruct (Z.lt_ge_cases (- V) (dz y * 2 ^ k)) as [|Hge]; [done|exfalso].
      pose proof (above_quotient _ m1 (finite_dneg y Hy) ltac:(rewrite dz_dneg; lia) Hm1) as Ha. unfold G in Ha.
      exact (Zle_not_lt _ _ (Z.le_trans _ _ _ Hbig Ha) (finite_below _ (finite_dneg y Hy))).
    + destruct (Z.lt_ge_cases (dz y * 2 ^ k) V) as [|Hge]; [done|exfalso].
      pose proof (above_quotient y m1 Hy Hge Hm1) as Ha. unfold G in Ha.
      exact (Zle_not_lt _ _ (Z.le_trans _ _ _ Hbig Ha) (finite_below _ Hy)).
Qed.
End near.

(** ** The operations *)

Lemma near_refl x : finite x → near 0 (dz x) x.
Proof. destruct x; try done; intros Hx; (split; [done|]); intros y _; rewrite Z.pow_0_r, Z.mul_1_r; done. Qed.

Lemma iter_xO m d :
  Z.pos (Pos.iter xO m d) = Z.pos m * 2 ^ Z.pos d ∧
  Z.pos (digits2_pos (Pos.iter xO m d)) = Z.pos (digits2_pos m) + Z.pos d.
Proof.
  induction d as [|d [IH1 IH2]] using Pos.peano_ind; [cbn [Pos.iter digits2_pos]; lia|].
  rewrite Pos.iter_succ. cbn [digits2_pos]. rewrite Pos2Z.inj_xO, IH1, !Pos2Z.inj_succ, IH2, Z.pow_succ_r by lia. lia.
Qed.
Lemma shl_align_value m e e' :
  let '(mz, ez) := shl_align m e e' in
  ez = Z.min e e' ∧ Z.pos mz = Z.pos m * 2 ^ (e - ez) ∧ Z.pos (digits2_pos mz) + ez = Z.pos (digits2_pos m) + e.
Proof.
  unfold shl_align. destruct (e' - e) as [|d|d] eqn:Hd.
  - rewrite Z.sub_diag, Z.pow_0_r. lia.
  - rewrite Z.sub_diag, Z.pow_0_r. lia.
  - destruct (iter_xO m d) as [-> ->]. replace (e - e') with (Z.pos d) by lia. lia.
Qed.

Lemma binary_round_near s m e : -1074 ≤ e → near 0 (cond_Zopp s (Z.pos m * 2 ^ (e + 3000))) (binary_round 53 1024 s m e).
Proof.
  intros He. unfold binary_round. pose proof (shl_align_value m e (fexp 53 1024 (Z.pos (digits2_pos m) + e))) as H.
  destruct (shl_align m e _) as [mz ez]. destruct H as (Hez & Hv & Hd).
  assert (-1074 ≤ fexp 53 1024 (Z.pos (digits2_pos m) + e)) by (unfold fexp, emin; lia).
  replace (Z.pos m * 2 ^ (e + 3000)) with (Z.pos mz * 2 ^ (ez + 3000 + 0)).
  - apply round_aux_near; [rewrite Hd; lia|lia|lia].
  - rewrite Hv, <- Z.mul_assoc, <- Z.pow_add_r by lia. do 2 f_equal. lia.
Qed.
Lemma binary_normalize_near m e : -1074 ≤ e → near 0 (m * 2 ^ (e + 3000)) (binary_normalize 53 1024 m e false).
Proof.
  intros He. destruct m as [|m|m]; cbn [binary_normalize].
  - rewrite Z.mul_0_l. by apply (near_refl (S754_zero false)).
  - by apply (binary_round_near false).
  - rewrite <- Pos2Z.opp_pos, Z.mul_opp_l. by apply (binary_round_near true).
Qed.

Lemma aligned_value s m e ez :
  ez ≤ e → -3000 ≤ ez → cond_Zopp s (Z.pos (shl_align m e ez).1) * 2 ^ (ez + 3000) = dz (S754_finite s m e).
Proof.
  intros He Hez. pose proof (shl_align_value m e ez) as H. destruct (shl_align m e ez) as [mz ez']. destruct H as (-> & Hv & _).
  cbn [fst]. rewrite dz_sign, Hv. replace (Z.min e ez) with ez by lia. rewrite (pow_split (ez + 3000) (e + 3000)) by lia.
  replace (e + 3000 - (ez + 3000)) with (e - ez) by lia. destruct s; cbn [cond_Zopp]; ring.
Qed.

#[local] Transparent dadd dsub dmul.
Lemma dadd_near x y : finite x → finite y → near 0 (dz x + dz y) (dadd x y).
Proof.
  destruct x as [sx| | |sx mx ex], y as [sy| | |sy my ey]; try done; intros Hx Hy; unfold dadd; cbn [SFadd].
  - destruct sx, sy; [apply (near_refl (S754_zero true))|apply (near_refl (S754_zero false))..]; done.
  - by apply near_refl.
  - rewrite Z.add_0_r. by apply near_refl.
  - cbn [finite] in *. apply bounded_iff in Hx as [? _], Hy as [? _]. set (ez := Z.min ex ey).
    rewrite <- (aligned_value sx mx ex ez), <- (aligned_value sy my ey ez), <- Z.mul_add_distr_r by lia.
    apply binary_normalize_near. lia.
Qed.
Lemma dsub_near x y : finite x → finite y → near 0 (dz x - dz y) (dsub x y).
Proof.
  destruct x as [sx| | |sx mx ex], y as [sy| | |sy my ey]; try done; intros Hx Hy; unfold dsub; cbn [SFsub].
  - destruct sx, sy; [apply (near_refl (S754_zero false))|apply (near_refl (S754_zero true))|apply (near_refl (S754_zero false))..]; done.
  - replace (dz (S754_zero sx) - dz (S754_finite sy my ey)) with (dz (dneg (S754_finite sy my ey))) by (rewrite dz_dneg; cbn; lia).
    by apply near_refl.
  - rewrite Z.sub_0_r. by apply near_refl.
  - cbn [finite] in *. apply bounded_iff in Hx as [? _], Hy as [? _]. set (ez := Z.min ex ey).
    rewrite <- (aligned_value sx mx ex ez), <- (aligned_value sy my ey ez), <- Z.mul_sub_distr_r by lia.
    apply binary_normalize_near. lia.
Qed.
Lemma dmul_near x y : finite x → finite y → near 3000 (dz x * dz y) (dmul x y).
Proof.
  assert (∀ s, near 3000 0 (S754_zero s)) as H0.
  { intros s. split; [done|]. intros y0 _. pose proof (pow2_pos 3000 ltac:(lia)) as Hp. cbn [dz].
    set (P := 2 ^ 3000) in *. clearbody P. nia. }
  destruct x as [sx| | |sx mx ex], y as [sy| | |sy my ey]; try done; intros Hx Hy; unfold dmul; cbn [SFmul].
  - rewrite Z.mul_0_r. by apply H0.
  - by apply H0.
  - rewrite Z.mul_0_r. by apply H0.
  - cbn [finite] in *. apply bounded_iff in Hx as (? & Hx & Hmx), Hy as (? & Hy & Hmy).
    replace (dz (S754_finite sx mx ex) * dz (S754_finite sy my ey))
      with (cond_Zopp (xorb sx sy) (Z.pos (mx * my) * 2 ^ (ex + ey + 3000 + 3000))).
    2: { rewrite !dz_sign. replace (ex + ey + 3000 + 3000) with (ex + 3000 + (ey + 3000)) by lia.
         rewrite Z.pow_add_r, Pos2Z.inj_mul by lia. destruct sx, sy; cbn [xorb cond_Zopp]; ring. }
    apply round_aux_near; [|lia|lia]. unfold fexp, emin.
    enough (ex = -1074 ∧ ey ≤ 0 ∨ ey = -1074 ∧ ex ≤ 0 ∨ 53 ≤ Z.pos (digits2_pos (mx * my))) by lia.
    assert (2 ^ 52 ≤ Z.pos mx ∨ 2 ^ 52 ≤ Z.pos my → 53 ≤ Z.pos (digits2_pos (mx * my))) as Hd.
    { intros Hm. pose proof (digits_le (mx * my) 52 ltac:(lia)) as Hd. rewrite Pos2Z.inj_mul in Hd. nia. }
    destruct Hmx as [->|Hmx]; [destruct Hmy as [->|Hmy]|]; [lia|right; right; apply Hd; by right..|].
    right; right; apply Hd; by left.
Qed.
#[local] Opaque dadd dsub dmul.

(** ** Bounds *)

Lemma near_ge k v r y : near k v r → finite y → dz y * 2 ^ k ≤ v → r = S754_infinity false ∨ finite r ∧ dz y ≤ dz r.
Proof.
  destruct r as [|[]| |]; cbn [near]; try done; intros H Hy Hle.
  - right. destruct H as [Hf H]. split; [done|]. by apply (H y Hy).
  - specialize (H y Hy). lia.
  - by left.
  - right. destruct H as [Hf H]. split; [done|]. by apply (H y Hy).
Qed.
Lemma near_le k v r y : near k v r → finite y → v ≤ dz y * 2 ^ k → r = S754_infinity true ∨ finite r ∧ dz r ≤ dz y.
Proof.
  destruct r as [|[]| |]; cbn [near]; try done; intros H Hy Hle.
  - right. destruct H as [Hf H]. split; [done|]. by apply (H y Hy).
  - by left.
  - specialize (H y Hy). lia.
  - right. destruct H as [Hf H]. split; [done|]. by apply (H y Hy).
Qed.
Lemma near_between k v r a b :
  near k v r → finite a → finite b → dz a * 2 ^ k ≤ v ≤ dz b * 2 ^ k → finite r ∧ dz a ≤ dz r ≤ dz b.
Proof.
  intros H Ha Hb [H1 H2]. destruct (near_ge _ _ _ _ H Ha H1) as [->|[Hf ?]], (near_le _ _ _ _ H Hb H2) as [?|[? ?]]; done || (subst; done).
Qed.
Lemma between_0 v a b : dz a ≤ v ≤ dz b → dz a * 2 ^ 0 ≤ v ≤ dz b * 2 ^ 0.
Proof. rewrite Z.pow_0_r. lia. Qed.

(** The multiples of 2^-31 below 2^22 are doubles. *)
Definition UNIT : Z := 2 ^ 2969.
Lemma UNIT_pos : 0 < UNIT.
Proof. apply pow2_pos. lia. Qed.
Lemma tick n : 0 ≤ n < 2 ^ 53 → ∃ y, finite y ∧ dz y = n * UNIT.
Proof.
  intros Hn. destruct n as [|n|n]; [by exists (S754_zero false)| |lia].
  pose proof (digits_bounds n) as [H1 H2]. pose proof (proj2 (digits_le n 53 ltac:(lia)) ltac:(lia)) as Hd.
  set (d := Z.pos (digits2_pos n)) in *. assert (0 < d) by done. pose proof (pow2_pos (53 - d) ltac:(lia)) as Hp.
  assert (2 ^ 52 = 2 ^ (d - 1) * 2 ^ (53 - d)) as E1 by (rewrite <- Z.pow_add_r by lia; f_equal; lia).
  assert (2 ^ 53 = 2 ^ d * 2 ^ (53 - d)) as E2 by (rewrite <- Z.pow_add_r by lia; f_equal; lia).
  assert (2 ^ 52 ≤ Z.pos n * 2 ^ (53 - d) < 2 ^ 53) as Hm.
  { rewrite E1, E2. split; [by apply Z.mul_le_mono_nonneg_r; [lia|]|by apply Zmult_lt_compat_r]. }
  destruct (pack_value false (Z.pos n * 2 ^ (53 - d)) (-31 - (53 - d))) as [[Hf Hv]|[_ Hbig]]; [lia|lia|right; apply Hm|..].
  - exists (pack false (Z.pos n * 2 ^ (53 - d)) (-31 - (53 - d))). split; [done|]. rewrite Hv. cbn [cond_Zopp].
    rewrite <- Z.mul_assoc, <- Z.pow_add_r by lia. unfold UNIT. do 2 f_equal. lia.
  - exfalso. assert (2 ^ (-31 - (53 - d) + 3000) ≤ 2 ^ (971 + 3000 - 1)) as Hle by (apply Z.pow_le_mono_r; lia).
    assert (2 ^ (971 + 3000) = 2 * 2 ^ (971 + 3000 - 1)) as E3 by (rewrite <- Z.pow_succ_r by lia; f_equal; lia).
    pose proof (pow2_pos (971 + 3000 - 1) ltac:(lia)). rewrite E3 in Hbig.
    set (P := 2 ^ (-31 - (53 - d) + 3000)) in *. set (Q := 2 ^ (971 + 3000 - 1)) in *.
    set (k := Z.pos n * 2 ^ (53 - d)) in *. clearbody P Q k. clear -Hm Hle Hbig H0. nia.
Qed.

(** There is a double in every interval of this length. *)
Lemma tick_above v : 0 ≤ v < (2 ^ 53 - 1) * UNIT → ∃ y, finite y ∧ v < dz y ≤ v + UNIT ∧ dz y = (v / UNIT + 1) * UNIT.
Proof.
  intros Hv. pose proof UNIT_pos as HU. assert (0 ≤ v / UNIT < 2 ^ 53 - 1) as Hq.
  { split; [apply Z.div_pos; lia|]. apply Z.div_lt_upper_bound; [done|]. rewrite Z.mul_comm; apply Hv. }
  destruct (tick (v / UNIT + 1)) as (y & Hf & Hy); [lia|]. exists y. split; [done|]. split; [|done].
  rewrite Hy. pose proof (Z.div_mod v UNIT ltac:(lia)). pose proof (Z.mod_pos_bound v UNIT HU). nia.
Qed.
Lemma tick_below v : 0 < v < (2 ^ 53 - 1) * UNIT → ∃ y, finite y ∧ v - UNIT ≤ dz y < v ∧ 0 ≤ dz y.
Proof.
  intros Hv. pose proof UNIT_pos as HU. assert (0 ≤ (v - 1) / UNIT < 2 ^ 53 - 1) as Hq.
  { split; [apply Z.div_pos; lia|]. apply Z.div_lt_upper_bound; [done|]. rewrite Z.mul_comm. lia. }
  destruct (tick ((v - 1) / UNIT)) as (y & Hf & Hy); [lia|]. exists y. split; [done|].
  rewrite Hy. pose proof (Z.div_mod (v - 1) UNIT ltac:(lia)). pose proof (Z.mod_pos_bound (v - 1) UNIT HU). nia.
Qed.

(** ** Representations

    Every double of the machine is a valid one; the operations keep that. *)

Definition valid (x : double) : Prop := valid_binary 53 1024 x = true.
Lemma finite_valid x : finite x → valid x.
Proof. by destruct x. Qed.
Lemma near_valid k v x : near k v x → valid x.
Proof. destruct x; try done. by intros [? _]. Qed.

Lemma pack_valid s m1 e : 0 ≤ m1 ≤ 2 ^ 53 → -1074 ≤ e → (e = -1074 ∨ 2 ^ 52 ≤ m1) → valid (pack s m1 e).
Proof. intros H1 H2 H3. destruct (pack_value s m1 e H1 H2 H3) as [[Hf _]|[-> _]]; [by apply finite_valid|done]. Qed.

Lemma round_aux_loc s m ex l (E := fexp 53 1024 (Zdigits2 m + ex)) :
  0 ≤ m → ex ≤ E →
  ∃ m1, binary_round_aux 53 1024 s m ex l =
    match shr_fexp 53 1024 m1 E loc_Exact with
    | (r, e'') => match shr_m r with
                  | Z0 => S754_zero s
                  | Zpos m => if e'' <=? 1024 - 53 then S754_finite s m e'' else S754_infinity s
                  | _ => S754_nan
                  end
    end ∧ m / 2 ^ (E - ex) ≤ m1 ≤ m / 2 ^ (E - ex) + 1.
Proof.
  intros Hm Hex. unfold binary_round_aux. unfold shr_fexp at 1. fold E.
  assert (shr_m (shr_record_of_loc m l) = m) as Hs by (by destruct l as [|[]]).
  destruct (shr_shifted (shr_record_of_loc m l) ex (E - ex) ltac:(lia) ltac:(lia)) as [[Hq _] He].
  destruct (shr (shr_record_of_loc m l) ex (E - ex)) as [r e']. cbn [fst snd] in *. rewrite Hs in Hq.
  replace e' with E by lia. exists (round_nearest_even (shr_m r) (loc_of_shr_record r)). split; [done|].
  rewrite <- Hq. destruct (round_up_down (shr_m r) (loc_of_shr_record r)) as [->|[-> _]]; lia.
Qed.
Lemma round_aux_valid s m ex l :
  0 ≤ m → ex ≤ fexp 53 1024 (Zdigits2 m + ex) → valid (binary_round_aux 53 1024 s m ex l).
Proof.
  intros Hm Hex. destruct (round_aux_loc s m ex l Hm Hex) as (m1 & -> & Hb). destruct m as [|m|m]; [..|done].
  - cbn [Zdigits2 Z.add] in *. rewrite Z.div_0_l in Hb by (apply Z.pow_nonzero; lia).
    rewrite Z.add_0_l in *. assert (fexp 53 1024 ex = -1074) as -> by (unfold fexp, emin in *; lia).
    rewrite pack_shr by lia. apply pack_valid; lia.
  - cbn [Zdigits2] in *. destruct (quotient_bounds m ex Hex) as (HE & Hq & Hc).
    rewrite pack_shr by lia. apply pack_valid; lia.
Qed.

#[local] Transparent dadd dsub dmul ddiv.
Lemma valid_cases x : valid x → finite x ∨ x = S754_nan ∨ ∃ s, x = S754_infinity s.
Proof. destruct x; try (by left). { right; right; by eexists. } right; by left. Qed.
Ltac special_values :=
  repeat match goal with b : bool |- _ => destruct b | z : spec_float |- _ => destruct z end.
Lemma dadd_valid x y : valid x → valid y → valid (dadd x y).
Proof.
  intros [Hx|[->|[s ->]]]%valid_cases [Hy|[->|[s' ->]]]%valid_cases; try (by eapply near_valid, dadd_near).
  all: by special_values.
Qed.
Lemma dsub_valid x y : valid x → valid y → valid (dsub x y).
Proof.
  intros [Hx|[->|[s ->]]]%valid_cases [Hy|[->|[s' ->]]]%valid_cases; try (by eapply near_valid, dsub_near).
  all: by special_values.
Qed.
Lemma dmul_valid x y : valid x → valid y → valid (dmul x y).
Proof.
  intros [Hx|[->|[s ->]]]%valid_cases [Hy|[->|[s' ->]]]%valid_cases; try (by eapply near_valid, dmul_near).
  all: by special_values.
Qed.
Lemma ddiv_valid x y : valid x → valid y → valid (ddiv x y).
Proof.
  intros [Hx|[->|[s ->]]]%valid_cases [Hy|[->|[s' ->]]]%valid_cases.
  2-9: by special_values.
  destruct x as [| | |sx m1 e1], y as [| | |sy m2 e2]; try done. unfold ddiv. cbn [SFdiv].
  unfold SFdiv_core_binary. cbn [Zdigits2]. set (d1 := Z.pos (digits2_pos m1)). set (d2 := Z.pos (digits2_pos m2)).
  set (F := fexp 53 1024 (d1 + e1 - (d2 + e2))). set (e' := Z.min F (e1 - e2)). set (sh := e1 - e2 - e').
  assert (0 ≤ sh) as Hsh by lia.
  assert (match sh with Z0 => Z.pos m1 | Z.pos _ => Z.shiftl (Z.pos m1) sh | Z.neg _ => 0 end = Z.pos m1 * 2 ^ sh) as ->.
  { destruct sh; [by rewrite Z.pow_0_r, Z.mul_1_r|by apply Z.shiftl_mul_pow2|lia]. }
  pose proof (Z.div_mod (Z.pos m1 * 2 ^ sh) (Z.pos m2) ltac:(lia)) as Hdm. unfold Z.div, Z.modulo in Hdm.
  destruct (Z.div_eucl (Z.pos m1 * 2 ^ sh) (Z.pos m2)) as [q r] eqn:Hqr.
  assert (q = Z.pos m1 * 2 ^ sh / Z.pos m2) as Hq by (unfold Z.div; by rewrite Hqr).
  pose proof (pow2_pos sh Hsh) as Hp. apply round_aux_valid; [rewrite Hq; apply Z.div_pos; lia|].
  pose proof (digits_bounds m1) as [A1 A2]. pose proof (digits_bounds m2) as [B1 B2]. fold d1 in A1, A2. fold d2 in B1, B2.
  (* the quotient has at least d1 + sh - d2 digits *)
  assert (d1 + sh - d2 ≤ Zdigits2 q) as Hd.
  { destruct (Z.le_gt_cases (d1 + sh - d2) 0) as [Hle|Hgt]; [destruct q; cbn [Zdigits2]; lia|].
    assert (2 ^ (d1 + sh - d2 - 1) ≤ q) as Hlow.
    { rewrite Hq. apply Z.div_le_lower_bound; [lia|]. etrans; [apply Z.mul_le_mono_nonneg_r; [apply Z.pow_nonneg; lia|apply Z.lt_le_incl, B2]|].
      rewrite <- Z.pow_add_r by lia. etrans; [|apply Z.mul_le_mono_nonneg_r; [lia|exact A1]]. rewrite <- Z.pow_add_r by lia.
      apply Z.pow_le_mono_r; lia. }
    pose proof (pow2_pos (d1 + sh - d2 - 1) ltac:(lia)). destruct q as [|q|q]; [lia| |lia]. cbn [Zdigits2].
    destruct (Z.le_gt_cases (d1 + sh - d2) (Z.pos (digits2_pos q))) as [|Hlt]; [done|exfalso].
    pose proof (proj1 (digits_le q (d1 + sh - d2 - 1) ltac:(lia)) ltac:(lia)). lia. }
  unfold e', F, fexp, emin in *. lia.
Qed.
#[local] Opaque dadd dsub dmul ddiv.
Lemma dneg_valid x : valid x → valid (dneg x).
Proof. by destruct x. Qed.

(** Between two finite doubles lie only finite ones. *)
Lemma dlt_between x y z : valid y → finite x → finite z → dlt x y = true → dlt y z = true → finite y.
Proof. intros Hv Hx Hz H1 H2. destruct y as [|[]| |]; try done; [by destruct x as [| | |[]]|by destruct z as [| | |[]]]. Qed.

#[local] Transparent dsqrt.
Lemma dsqrt_valid x : valid x → valid (dsqrt x).
Proof.
  intros Hv. destruct x as [| | |[] m e]; try done; [by destruct s|]. unfold dsqrt. cbn [SFsqrt]. unfold SFsqrt_core_binary.
  cbn [Zdigits2]. set (d := Z.pos (digits2_pos m)). set (F := fexp 53 1024 (Z.div2 (d + e + 1))).
  set (e' := Z.min F (Z.div2 e)). set (sh := e - 2 * e').
  pose proof (Z.div2_div e) as De. pose proof (Z.div_mod e 2 ltac:(lia)). pose proof (Z.mod_pos_bound e 2 ltac:(lia)).
  assert (0 ≤ sh) as Hsh by lia.
  assert (match sh with Z0 => Z.pos m | Z.pos _ => Z.shiftl (Z.pos m) sh | Z.neg _ => 0 end = Z.pos m * 2 ^ sh) as ->.
  { destruct sh; [by rewrite Z.pow_0_r, Z.mul_1_r|by apply Z.shiftl_mul_pow2|lia]. }
  pose proof (pow2_pos sh Hsh) as Hp. pose proof (Z.sqrtrem_spec (Z.pos m * 2 ^ sh) ltac:(lia)) as Hs.
  pose proof (Z.sqrtrem_sqrt (Z.pos m * 2 ^ sh)) as Hq. destruct (Z.sqrtrem (Z.pos m * 2 ^ sh)) as [q r]. cbn [fst] in Hq.
  assert (0 ≤ q) as Hq0 by (rewrite Hq; apply Z.sqrt_nonneg). apply round_aux_valid; [done|].
  pose proof (digits_bounds m) as [A1 _]. fold d in A1. assert (0 < d) by done.
  set (j := (d + sh - 1) / 2). pose proof (Z.div_mod (d + sh - 1) 2 ltac:(lia)). pose proof (Z.mod_pos_bound (d + sh - 1) 2 ltac:(lia)).
  fold j in H2. assert (2 ^ j ≤ q) as Hj.
  { rewrite Hq. apply Z.sqrt_le_square; [lia|apply Z.pow_nonneg; lia|]. rewrite <- Z.pow_add_r by lia.
    etrans; [|apply Z.mul_le_mono_nonneg_r; [lia|exact A1]]. rewrite <- Z.pow_add_r by lia. apply Z.pow_le_mono_r; lia. }
  pose proof (pow2_pos j ltac:(lia)). destruct q as [|q|q]; [lia| |lia]. cbn [Zdigits2].
  assert (j + 1 ≤ Z.pos (digits2_pos q)) as Hd.
  { destruct (Z.le_gt_cases (j + 1) (Z.pos (digits2_pos q))) as [|Hlt]; [done|exfalso].
    pose proof (proj1 (digits_le q j ltac:(lia)) ltac:(lia)). lia. }
  pose proof (Z.div2_div (d + e + 1)) as Dd. pose proof (Z.div_mod (d + e + 1) 2 ltac:(lia)). pose proof (Z.mod_pos_bound (d + e + 1) 2 ltac:(lia)).
  unfold e', F, fexp, emin in *. lia.
Qed.
#[local] Opaque dsqrt.

Lemma dz_zero s : dz (S754_zero s) = 0.
Proof. done. Qed.
Lemma UNIT_eq : UNIT = 2 ^ 2969.
Proof. done. Qed.
#[global] Opaque dz UNIT.
