(* ===== verification/Trapq.v ===== *)
(** * trapq.c: the queue of trapezoidal moves

    A [struct move] is an entry of the list [moves], which starts with the head sentinel and
    ends with the tail sentinel; a pointer to it is its index.  Going past an end of the list
    is undefined.  Expressions are evaluated as they are written, without fused operations. *)

From S2P Require Import Prelude Double.

(** ** Data *)

Record coord := mk_coord { c_x : double; c_y : double; c_z : double }.
#[export] Instance eta_coord : Eta coord := λ r, mk_coord (c_x r) (c_y r) (c_z r).

Record move := mk_move
  { tm_print_time : double; tm_move_t : double; tm_start_v : double; tm_half_accel : double;
    tm_start_pos : coord; tm_axes_r : coord }.
#[export] Instance eta_move : Eta move := λ r,
  mk_move (tm_print_time r) (tm_move_t r) (tm_start_v r) (tm_half_accel r) (tm_start_pos r) (tm_axes_r r).

Record trapq := mk_trapq { tq_moves : list move; tq_history : list move }.
#[export] Instance eta_trapq : Eta trapq := λ r, mk_trapq (tq_moves r) (tq_history r).

Record pull_move := mk_pull_move
  { pm_print_time : double; pm_move_t : double; pm_start_v : double; pm_accel : double;
    pm_start : coord; pm_r : coord }.

Notation TQ := (M trapq).

Definition coord_zero : coord := mk_coord (dint 0) (dint 0) (dint 0).
(** [move_alloc] clears the memory. *)
Definition zero_move : move := mk_move (dint 0) (dint 0) (dint 0) (dint 0) coord_zero coord_zero.

Definition move_get_distance (m : move) (move_time : double) : double :=
  dmul (dadd (tm_start_v m) (dmul (tm_half_accel m) move_time)) move_time.

Definition move_get_coord (m : move) (move_time : double) : coord :=
  let move_dist := move_get_distance m move_time in
  mk_coord (dadd (c_x (tm_start_pos m)) (dmul (c_x (tm_axes_r m)) move_dist))
           (dadd (c_y (tm_start_pos m)) (dmul (c_y (tm_axes_r m)) move_dist))
           (dadd (c_z (tm_start_pos m)) (dmul (c_z (tm_axes_r m)) move_dist)).

(** [print_time + move_t] *)
Definition move_end (m : move) : double := dadd (tm_print_time m) (tm_move_t m).

(** 9999999999999999.9: the double next to it. *)
Definition NEVER_TIME : double := dint 10000000000000000.

Definition trapq_alloc : trapq :=
  mk_trapq [zero_move; zero_move <| tm_print_time := NEVER_TIME |> <| tm_move_t := NEVER_TIME |>] [].

(** ** The queue *)

(** The index of the tail sentinel. *)
Definition tail_sentinel : TQ nat :=
  let! tq := get in
  if (length (tq_moves tq) =? 0)%nat then undef else mret (length (tq_moves tq) - 1)%nat.
Definition move_at (i : nat) : TQ move :=
  let! tq := get in
  deref (tq_moves tq !! i).
(** [list_prev_entry] *)
Definition prev_entry (i : nat) : TQ nat := match i with O => undef | S i => mret i end.
Definition upd_move (i : nat) (f : move → move) : TQ unit :=
  modify (λ tq, tq <| tq_moves := alter f i (tq_moves tq) |>).
(** [list_add_before] entry [i]. *)
Definition add_before (i : nat) (m : move) : TQ unit :=
  modify (λ tq, tq <| tq_moves := take i (tq_moves tq) ++ m :: drop i (tq_moves tq) |>).

Definition trapq_check_sentinels : TQ unit :=
  let! tail := tail_sentinel in
  let! t := move_at tail in
  if dnz (tm_print_time t) then mret tt
  else
    let! p := prev_entry tail in
    if (p =? 0)%nat then upd_move tail (λ t, t <| tm_print_time := NEVER_TIME |>)
    else
      let! m := move_at p in
      upd_move tail (λ t, t <| tm_print_time := move_end m |>
                            <| tm_start_pos := move_get_coord m (tm_move_t m) |>).

Definition MAX_NULL_MOVE : double := dint 1.

(** The move that fills the time between [prev] and [m]. *)
Definition null_move (prev m : move) : move :=
  let print_time :=
    if negb (dnz (tm_print_time prev)) && dlt MAX_NULL_MOVE (tm_print_time m)
    then dsub (tm_print_time m) MAX_NULL_MOVE else move_end prev in
  zero_move <| tm_start_pos := tm_start_pos m |> <| tm_print_time := print_time |>
            <| tm_move_t := dsub (tm_print_time m) print_time |>.

Definition trapq_add_move (m : move) : TQ unit :=
  let! tail := tail_sentinel in
  let! p := prev_entry tail in
  let! prev := move_at p in
  let! tail :=
    (if dlt (move_end prev) (tm_print_time m) then
       add_before tail (null_move prev m);;;
       mret (S tail)
     else mret tail) in
  add_before tail m;;;
  upd_move (S tail) (λ t, t <| tm_print_time := dint 0 |>).

(** One phase of [trapq_append]: the start of the next phase. *)
Definition append_phase (phase_t start_v half_accel : double) (axes_r : coord) (st : double * coord) : TQ (double * coord) :=
  let '(print_time, start_pos) := st in
  if dnz phase_t then
    let m := mk_move print_time phase_t start_v half_accel start_pos axes_r in
    trapq_add_move m;;;
    mret (dadd print_time phase_t, move_get_coord m phase_t)
  else mret st.

Definition trapq_append (print_time accel_t cruise_t decel_t : double) (start_pos axes_r : coord)
    (start_v cruise_v accel : double) : TQ unit :=
  let! st := append_phase accel_t start_v (dmul (dec 5 1) accel) axes_r (print_time, start_pos) in
  let! st := append_phase cruise_t cruise_v (dint 0) axes_r st in
  let! _ := append_phase decel_t cruise_v (dmul (dneg (dec 5 1)) accel) axes_r st in
  mret tt.

Definition EXPIRE_TIME : double := dint 30.

(** A move that has a velocity is kept in the history. *)
Definition moves_something (m : move) : bool := dnz (tm_start_v m) || dnz (tm_half_accel m).

Fixpoint finalize_loop (fuel : nat) (print_time : double) : TQ unit :=
  match fuel with
  | O => diverge
  | S fuel =>
      let! tail := tail_sentinel in
      if (tail =? 1)%nat then upd_move tail (λ t, t <| tm_print_time := NEVER_TIME |>)
      else
        let! m := move_at 1 in
        if dlt print_time (move_end m) then mret tt
        else
          modify (λ tq, tq <| tq_moves := delete 1%nat (tq_moves tq) |>
                           <| tq_history := if moves_something m then m :: tq_history tq else tq_history tq |>);;;
          finalize_loop fuel print_time
  end.

(** The oldest moves are at the end of the history. *)
Fixpoint drop_expired (l : list move) (expire_time : double) : list move :=
  match l with
  | [] => []
  | m :: l =>
      match drop_expired l expire_time with
      | [] => if dlt expire_time (move_end m) then [m] else []
      | l => m :: l
      end
  end.
Definition expire_history : TQ unit :=
  modify (λ tq,
    match tq_history tq with
    | [] => tq
    | latest :: l => tq <| tq_history := latest :: drop_expired l (dsub (move_end latest) EXPIRE_TIME) |>
    end).

Definition trapq_finalize_moves (print_time : double) : TQ unit :=
  let! tq := get in
  finalize_loop (length (tq_moves tq)) print_time;;;
  expire_history.

(** The moves of the history that were interrupted at [print_time]. *)
Fixpoint prune_history (l : list move) (print_time : double) : list move :=
  match l with
  | [] => []
  | m :: l' =>
      if dlt (tm_print_time m) print_time then
        (if dlt print_time (move_end m) then m <| tm_move_t := dsub print_time (tm_print_time m) |> else m) :: l'
      else prune_history l' print_time
  end.
Definition trapq_set_position (print_time : double) (pos : coord) : TQ unit :=
  trapq_finalize_moves NEVER_TIME;;;
  modify (λ tq, tq <| tq_history :=
    (zero_move <| tm_print_time := print_time |> <| tm_start_pos := pos |>) :: prune_history (tq_history tq) print_time |>).

Definition pull (m : move) : pull_move :=
  mk_pull_move (tm_print_time m) (tm_move_t m) (tm_start_v m) (dmul (dint 2) (tm_half_accel m)) (tm_start_pos m) (tm_axes_r m).
(** The entries copied to [p]. *)
Fixpoint extract_moves (l : list move) (max : nat) (start_time end_time : double) : list pull_move :=
  match l with
  | [] => []
  | m :: l =>
      if dle (move_end m) start_time then []
      else match max with
           | O => []
           | S max' =>
               if dle end_time (tm_print_time m) then extract_moves l max start_time end_time
               else pull m :: extract_moves l max' start_time end_time
           end
  end.
Definition trapq_extract_old (max : nat) (start_time end_time : double) : TQ (list pull_move) :=
  let! tq := get in
  mret (extract_moves (tq_history tq) max start_time end_time).
