(* ===== verification/Kinematics.v ===== *)
(** * kin_*.c: the position of a stepper from the position of the tool

    A [calc_position_cb] gets a move as its list and its index, because the pressure advance of
    the extruder and the input shaper look at the moves around it; [None] is a walk past an end
    of the list, or a call through a null pointer.  The functions of the mathematics library
    are the class [Libm]; [sqrt] is the correctly rounded one of IEEE 754. *)

From Stdlib Require Import SpecFloat.
From S2P Require Import Prelude Double Trapq.

Class Libm := { m_sin : double → double; m_cos : double → double; m_atan2 : double → double → double }.

(** 3.14159265358979323846 *)
Definition M_PI : double := S754_finite false 7074237752028440 (-51).

Definition AF_X : Z := 1.
Definition AF_Y : Z := 2.
Definition AF_Z : Z := 4.

(** ** Data *)

Inductive axis := X | Y | Z'.
#[export] Instance axis_eq_dec : EqDecision axis.
Proof. solve_decision. Defined.
Definition coord_axis (a : axis) (c : coord) : double :=
  match a with X => c_x c | Y => c_y c | Z' => c_z c end.
Definition axis_flag (a : axis) : Z := match a with X => AF_X | Y => AF_Y | Z' => AF_Z end.

(** The fields of struct stepper_kinematics; [sc] and [tq] belong to the solver. *)
Record stepper_kinematics := mk_sk
  { sk_step_dist : double; sk_commanded_pos : double; sk_last_flush_time : double;
    sk_last_move_time : double; sk_active_flags : Z; sk_pre_active : double; sk_post_active : double }.
#[export] Instance eta_stepper_kinematics : Eta stepper_kinematics := λ r,
  mk_sk (sk_step_dist r) (sk_commanded_pos r) (sk_last_flush_time r) (sk_last_move_time r)
    (sk_active_flags r) (sk_pre_active r) (sk_post_active r).
Definition sk_zero (active_flags : Z) : stepper_kinematics :=
  mk_sk (dint 0) (dint 0) (dint 0) (dint 0) active_flags (dint 0) (dint 0).

(** The structs that start with a stepper_kinematics, by their callback. *)
Inductive kin :=
| K_null
| K_cart (a : axis)
| K_cart_reverse (a : axis)
| K_corexy (plus : bool)
| K_corexz (plus : bool)
| K_delta (arm2 tower_x tower_y : double)
| K_deltesian (arm2 arm_x : double)
| K_extruder (pressure_advance half_smooth_time inv_half_smooth_time2 : double)
| K_polar_radius
| K_polar_angle
| K_rotary (cos sin shoulder_radius shoulder_height upper_arm2 lower_arm2 : double)
| K_winch (anchor : coord).
Record kin_stepper := mk_kin_stepper { s_sk : stepper_kinematics; s_kin : kin }.
#[export] Instance eta_kin_stepper : Eta kin_stepper := λ r, mk_kin_stepper (s_sk r) (s_kin r).

(** ** Allocation *)

(** [char axis]: 120 is 'x', and so on. *)
Definition axis_of (c : Z) : option axis :=
  if c =? 120 then Some X else if c =? 121 then Some Y else if c =? 122 then Some Z' else None.
Definition cartesian_stepper_alloc (c : Z) : kin_stepper :=
  match axis_of c with
  | Some a => mk_kin_stepper (sk_zero (axis_flag a)) (K_cart a)
  | None => mk_kin_stepper (sk_zero 0) K_null
  end.
Definition cartesian_reverse_stepper_alloc (c : Z) : kin_stepper :=
  match axis_of c with
  | Some a => mk_kin_stepper (sk_zero (axis_flag a)) (K_cart_reverse a)
  | None => mk_kin_stepper (sk_zero 0) K_null
  end.
(** 43 is '+' and 45 is '-'. *)
Definition corexy_stepper_alloc (type : Z) : kin_stepper :=
  mk_kin_stepper (sk_zero (Z.lor AF_X AF_Y)) (if type =? 43 then K_corexy true else if type =? 45 then K_corexy false else K_null).
Definition corexz_stepper_alloc (type : Z) : kin_stepper :=
  mk_kin_stepper (sk_zero (Z.lor AF_X AF_Z)) (if type =? 43 then K_corexz true else if type =? 45 then K_corexz false else K_null).
Definition delta_stepper_alloc (arm2 tower_x tower_y : double) : kin_stepper :=
  mk_kin_stepper (sk_zero (Z.lor (Z.lor AF_X AF_Y) AF_Z)) (K_delta arm2 tower_x tower_y).
Definition deltesian_stepper_alloc (arm2 arm_x : double) : kin_stepper :=
  mk_kin_stepper (sk_zero (Z.lor AF_X AF_Z)) (K_deltesian arm2 arm_x).
Definition extruder_stepper_alloc : kin_stepper :=
  mk_kin_stepper (sk_zero AF_X) (K_extruder (dint 0) (dint 0) (dint 0)).
(** 114 is 'r' and 97 is 'a'. *)
Definition polar_stepper_alloc (type : Z) : kin_stepper :=
  mk_kin_stepper (sk_zero (Z.lor AF_X AF_Y))
    (if type =? 114 then K_polar_radius else if type =? 97 then K_polar_angle else K_null).
Definition rotary_delta_stepper_alloc `{Libm} (shoulder_radius shoulder_height angle upper_arm lower_arm : double) : kin_stepper :=
  mk_kin_stepper (sk_zero (Z.lor (Z.lor AF_X AF_Y) AF_Z))
    (K_rotary (m_cos angle) (m_sin angle) shoulder_radius shoulder_height
       (dmul upper_arm upper_arm) (dmul lower_arm lower_arm)).
Definition winch_stepper_alloc (anchor : coord) : kin_stepper :=
  mk_kin_stepper (sk_zero (Z.lor (Z.lor AF_X AF_Y) AF_Z)) (K_winch anchor).

(** ** Pressure advance *)

Definition one_third : double := ddiv (dint 1) (dint 3).

Definition extruder_integrate (base start_v half_accel start end_ : double) : double :=
  let half_v := dmul (dec 5 1) start_v in
  let sixth_a := dmul one_third half_accel in
  let si := dmul start (dadd base (dmul start (dadd half_v (dmul start sixth_a)))) in
  let ei := dmul end_ (dadd base (dmul end_ (dadd half_v (dmul end_ sixth_a)))) in
  dsub ei si.

Definition extruder_integrate_time (base start_v half_accel start end_ : double) : double :=
  let half_b := dmul (dec 5 1) base in
  let third_v := dmul one_third start_v in
  let eighth_a := dmul (dec 25 2) half_accel in
  let si := dmul (dmul start start) (dadd half_b (dmul start (dadd third_v (dmul start eighth_a)))) in
  let ei := dmul (dmul end_ end_) (dadd half_b (dmul end_ (dadd third_v (dmul end_ eighth_a)))) in
  dsub ei si.

Definition pa_move_integrate (m : move) (pressure_advance base start end_ time_offset : double) : double :=
  let start := if dlt start (dint 0) then dint 0 else start in
  let end_ := if dlt (tm_move_t m) end_ then tm_move_t m else end_ in
  let can_pressure_advance := dnz (c_y (tm_axes_r m)) in
  let pressure_advance := if can_pressure_advance then pressure_advance else dint 0 in
  let base := dadd base (dmul pressure_advance (tm_start_v m)) in
  let start_v := dadd (tm_start_v m) (dmul (dmul pressure_advance (dint 2)) (tm_half_accel m)) in
  let ha := tm_half_accel m in
  let iext := extruder_integrate base start_v ha start end_ in
  let wgt_ext := extruder_integrate_time base start_v ha start end_ in
  dsub wgt_ext (dmul time_offset iext).

(** The loop over the moves before entry [i]. *)
Fixpoint pa_previous (l : list move) (i : nat) (pressure_advance start_base start res : double) : option double :=
  if dlt start (dint 0) then
    match i with
    | O => None
    | S i =>
        prev ← l !! i;
        let start := dadd start (tm_move_t prev) in
        let base := dsub (c_x (tm_start_pos prev)) start_base in
        pa_previous l i pressure_advance start_base start
          (dadd res (pa_move_integrate prev pressure_advance base start (tm_move_t prev) start))
    end
  else Some res.
(** The loop over the moves after [m]; [l] are the entries behind it. *)
Fixpoint pa_future (m : move) (l : list move) (pressure_advance start_base end_ res : double) : option double :=
  if dlt (tm_move_t m) end_ then
    match l with
    | [] => None
    | m' :: l =>
        let end_ := dsub end_ (tm_move_t m) in
        let base := dsub (c_x (tm_start_pos m')) start_base in
        pa_future m' l pressure_advance start_base end_
          (dsub res (pa_move_integrate m' pressure_advance base (dint 0) end_ end_))
    end
  else Some res.

Definition pa_range_integrate (l : list move) (i : nat) (move_time pressure_advance hst : double) : option double :=
  m ← l !! i;
  let start := dsub move_time hst in
  let end_ := dadd move_time hst in
  let start_base := c_x (tm_start_pos m) in
  let res := dadd (dint 0) (pa_move_integrate m pressure_advance (dint 0) start move_time start) in
  let res := dsub res (pa_move_integrate m pressure_advance (dint 0) move_time end_ end_) in
  res ← pa_previous l i pressure_advance start_base start res;
  pa_future m (drop (S i) l) pressure_advance start_base end_ res.

Definition extruder_calc_position (pressure_advance hst inv_hst2 : double) (l : list move) (i : nat) (move_time : double)
    : option double :=
  m ← l !! i;
  if dnz hst then
    area ← pa_range_integrate l i move_time pressure_advance hst;
    Some (dadd (c_x (tm_start_pos m)) (dmul area inv_hst2))
  else Some (dadd (c_x (tm_start_pos m)) (move_get_distance m move_time)).

Definition extruder_set_pressure_advance (s : kin_stepper) (pressure_advance smooth_time : double) : option kin_stepper :=
  match s_kin s with
  | K_extruder old_pa _ old_inv =>
      let hst := dmul smooth_time (dec 5 1) in
      let sk := (s_sk s) <| sk_pre_active := hst |> <| sk_post_active := hst |> in
      Some (if dnz hst then mk_kin_stepper sk (K_extruder pressure_advance hst (ddiv (dint 1) (dmul hst hst)))
            else mk_kin_stepper sk (K_extruder old_pa hst old_inv))
  | _ => None
  end.

(** ** The callbacks *)

Definition rotary_two_arm_calc `{Libm} (dx dy upper_arm2 lower_arm2 : double) : double :=
  let inv_dy := ddiv (dint 1) dy in
  let c1 := dmul (dmul (dec 5 1) inv_dy) (dsub (dadd (dadd (dmul dx dx) (dmul dy dy)) upper_arm2) lower_arm2) in
  let c2 := dmul dx inv_dy in
  let scale := dadd (dmul c2 c2) (dint 1) in
  let scaled_elbow_x := dadd (dmul c1 c2) (dsqrt (dsub (dmul scale upper_arm2) (dmul c1 c1))) in
  let scaled_elbow_y := dsub (dmul c1 scale) (dmul c2 scaled_elbow_x) in
  m_atan2 scaled_elbow_y scaled_elbow_x.

Definition cart_stepper_calc_position (a : axis) (m : move) (move_time : double) : double :=
  coord_axis a (move_get_coord m move_time).
Definition cart_reverse_stepper_calc_position (a : axis) (m : move) (move_time : double) : double :=
  dneg (coord_axis a (move_get_coord m move_time)).
Definition corexy_stepper_plus_calc_position (m : move) (move_time : double) : double :=
  let c := move_get_coord m move_time in
  dadd (c_x c) (c_y c).
Definition corexy_stepper_minus_calc_position (m : move) (move_time : double) : double :=
  let c := move_get_coord m move_time in
  dsub (c_x c) (c_y c).
Definition corexz_stepper_plus_calc_position (m : move) (move_time : double) : double :=
  let c := move_get_coord m move_time in
  dadd (c_x c) (c_z c).
Definition corexz_stepper_minus_calc_position (m : move) (move_time : double) : double :=
  let c := move_get_coord m move_time in
  dsub (c_x c) (c_z c).
Definition delta_stepper_calc_position (arm2 tower_x tower_y : double) (m : move) (move_time : double) : double :=
  let c := move_get_coord m move_time in
  let dx := dsub tower_x (c_x c) in
  let dy := dsub tower_y (c_y c) in
  dadd (dsqrt (dsub (dsub arm2 (dmul dx dx)) (dmul dy dy))) (c_z c).
Definition deltesian_stepper_calc_position (arm2 arm_x : double) (m : move) (move_time : double) : double :=
  let c := move_get_coord m move_time in
  let dx := dsub (c_x c) arm_x in
  dadd (dsqrt (dsub arm2 (dmul dx dx))) (c_z c).
Definition polar_stepper_radius_calc_position (m : move) (move_time : double) : double :=
  let c := move_get_coord m move_time in
  dsqrt (dadd (dmul (c_x c) (c_x c)) (dmul (c_y c) (c_y c))).
Definition polar_stepper_angle_calc_position `{Libm} (sk : stepper_kinematics) (m : move) (move_time : double) : double :=
  let c := move_get_coord m move_time in
  let angle := m_atan2 (c_y c) (c_x c) in
  if dlt M_PI (dsub angle (sk_commanded_pos sk)) then dsub angle (dmul (dint 2) M_PI)
  else if dlt (dsub angle (sk_commanded_pos sk)) (dneg M_PI) then dadd angle (dmul (dint 2) M_PI)
  else angle.
Definition rotary_stepper_calc_position `{Libm} (cos sin shoulder_radius shoulder_height upper_arm2 lower_arm2 : double)
    (m : move) (move_time : double) : double :=
  let c := move_get_coord m move_time in
  let sjz := dsub (dmul (c_y c) cos) (dmul (c_x c) sin) in
  let sjx := dsub (dadd (dmul (c_x c) cos) (dmul (c_y c) sin)) shoulder_radius in
  let sjy := dsub (c_z c) shoulder_height in
  rotary_two_arm_calc sjx sjy upper_arm2 (dsub lower_arm2 (dmul sjz sjz)).
Definition winch_stepper_calc_position (anchor : coord) (m : move) (move_time : double) : double :=
  let c := move_get_coord m move_time in
  let dx := dsub (c_x anchor) (c_x c) in
  let dy := dsub (c_y anchor) (c_y c) in
  let dz := dsub (c_z anchor) (c_z c) in
  dsqrt (dadd (dadd (dmul dx dx) (dmul dy dy)) (dmul dz dz)).

(** The call through the pointer [calc_position_cb]. *)
Definition calc_position_cb `{Libm} (s : kin_stepper) (l : list move) (i : nat) (move_time : double) : option double :=
  m ← l !! i;
  match s_kin s with
  | K_null => None
  | K_cart a => Some (cart_stepper_calc_position a m move_time)
  | K_cart_reverse a => Some (cart_reverse_stepper_calc_position a m move_time)
  | K_corexy true => Some (corexy_stepper_plus_calc_position m move_time)
  | K_corexy false => Some (corexy_stepper_minus_calc_position m move_time)
  | K_corexz true => Some (corexz_stepper_plus_calc_position m move_time)
  | K_corexz false => Some (corexz_stepper_minus_calc_position m move_time)
  | K_delta arm2 tower_x tower_y => Some (delta_stepper_calc_position arm2 tower_x tower_y m move_time)
  | K_deltesian arm2 arm_x => Some (deltesian_stepper_calc_position arm2 arm_x m move_time)
  | K_extruder pressure_advance hst inv_hst2 => extruder_calc_position pressure_advance hst inv_hst2 l i move_time
  | K_polar_radius => Some (polar_stepper_radius_calc_position m move_time)
  | K_polar_angle => Some (polar_stepper_angle_calc_position (s_sk s) m move_time)
  | K_rotary cos sin shoulder_radius shoulder_height upper_arm2 lower_arm2 =>
      Some (rotary_stepper_calc_position cos sin shoulder_radius shoulder_height upper_arm2 lower_arm2 m move_time)
  | K_winch anchor => Some (winch_stepper_calc_position anchor m move_time)
  end.

Definition polar_stepper_angle_post_fixup (sk : stepper_kinematics) : stepper_kinematics :=
  if dlt (sk_commanded_pos sk) (dneg M_PI) then sk <| sk_commanded_pos := dadd (sk_commanded_pos sk) (dmul (dint 2) M_PI) |>
  else if dlt M_PI (sk_commanded_pos sk) then sk <| sk_commanded_pos := dsub (sk_commanded_pos sk) (dmul (dint 2) M_PI) |>
  else sk.

(** ** Input shaping *)

(** struct shaper_pulses: the five pulses as pairs of [t] and [a]. *)
Record shaper_pulses := mk_pulses { sp_num_pulses : Z; sp_pulses : list (double * double) }.
#[export] Instance eta_shaper_pulses : Eta shaper_pulses := λ r, mk_pulses (sp_num_pulses r) (sp_pulses r).

(** The pulses in use. *)
Definition sp_used (sp : shaper_pulses) : list (double * double) := take (Z.to_nat (sp_num_pulses sp)) (sp_pulses sp).

Definition shift_pulses (sp : shaper_pulses) : shaper_pulses :=
  let ts := foldl (λ ts p, dadd ts (dmul p.2 p.1)) (dint 0) (sp_used sp) in
  let n := Z.to_nat (sp_num_pulses sp) in
  sp <| sp_pulses := ((λ p, (dsub p.1 ts, p.2)) <$> sp_used sp) ++ drop n (sp_pulses sp) |>.

(** The arrays [a] and [t] have at least [n] entries; reading past their end is undefined. *)
Definition init_shaper (n : Z) (a t : list double) (sp : shaper_pulses) : option (Z * shaper_pulses) :=
  if (n <? 0) || (5 <? n) then Some (-1, sp <| sp_num_pulses := 0 |>)
  else if (length a <? Z.to_nat n)%nat || (length t <? Z.to_nat n)%nat then None
  else
    let a := take (Z.to_nat n) a in
    let t := take (Z.to_nat n) t in
    let sum_a := foldl dadd (dint 0) a in
    let inv_a := ddiv (dint 1) sum_a in
    let pulses := zip_with (λ a t, (dneg t, dmul a inv_a)) a t in
    Some (0, shift_pulses (mk_pulses n (reverse pulses ++ drop (Z.to_nat n) (sp_pulses sp)))).

Definition get_axis_position (m : move) (a : axis) (move_time : double) : double :=
  dadd (coord_axis a (tm_start_pos m)) (dmul (coord_axis a (tm_axes_r m)) (move_get_distance m move_time)).

(** The loop to the moves before entry [i]: the entry and the time in it. *)
Fixpoint seek_back (l : list move) (i : nat) (time : double) : option (nat * double) :=
  if dlt time (dint 0) then
    match i with
    | O => None
    | S i => m ← l !! i; seek_back l i (dadd time (tm_move_t m))
    end
  else Some (i, time).
(** The loop to the moves after [m]. *)
Fixpoint seek_forward (m : move) (l : list move) (time : double) : option (move * double) :=
  if dlt (tm_move_t m) time then
    match l with
    | [] => None
    | m' :: l => seek_forward m' l (dsub time (tm_move_t m))
    end
  else Some (m, time).
Definition get_axis_position_across_moves (l : list move) (i : nat) (a : axis) (time : double) : option double :=
  '(i, time) ← seek_back l i time;
  m ← l !! i;
  '(m, time) ← seek_forward m (drop (S i) l) time;
  Some (get_axis_position m a time).

Fixpoint convolve (l : list move) (i : nat) (a : axis) (move_time : double) (ps : list (double * double)) (res : double)
    : option double :=
  match ps with
  | [] => Some res
  | (t, w) :: ps =>
      p ← get_axis_position_across_moves l i a (dadd move_time t);
      convolve l i a move_time ps (dadd res (dmul w p))
  end.
Definition calc_position (l : list move) (i : nat) (a : axis) (move_time : double) (sp : shaper_pulses) : option double :=
  convolve l i a move_time (sp_used sp) (dint 0).

Definition DUMMY_T : double := dint 500.

Inductive shaper_callback := shaper_x | shaper_y | shaper_xy.
(** struct input_shaper; the stepper it wraps is not an input shaper itself. *)
Record input_shaper := mk_shaper
  { is_sk : stepper_kinematics; is_cb : option shaper_callback; is_orig : option kin_stepper; is_m : move;
    is_sx : shaper_pulses; is_sy : shaper_pulses }.
#[export] Instance eta_input_shaper : Eta input_shaper := λ r,
  mk_shaper (is_sk r) (is_cb r) (is_orig r) (is_m r) (is_sx r) (is_sy r).

Definition input_shaper_alloc : input_shaper :=
  let none := mk_pulses 0 (replicate 5 (dint 0, dint 0)) in
  mk_shaper (sk_zero 0) None None (zero_move <| tm_move_t := dmul (dint 2) DUMMY_T |>) none none.

Section shaper.
Context `{Libm}.

(** The wrapped callback on the move [is->m], which is in no list. *)
Definition orig_at_dummy (orig : kin_stepper) (sh : input_shaper) : option (double * input_shaper) :=
  p ← calc_position_cb orig [is_m sh] 0 DUMMY_T;
  Some (p, sh).
Definition set_pos_x (x : double) (sh : input_shaper) : input_shaper :=
  sh <| is_m := (is_m sh) <| tm_start_pos := (tm_start_pos (is_m sh)) <| c_x := x |> |> |>.
Definition set_pos_y (y : double) (sh : input_shaper) : input_shaper :=
  sh <| is_m := (is_m sh) <| tm_start_pos := (tm_start_pos (is_m sh)) <| c_y := y |> |> |>.

Definition shaper_x_calc_position (sh : input_shaper) (l : list move) (i : nat) (move_time : double)
    : option (double * input_shaper) :=
  orig ← is_orig sh;
  if negb (nz (sp_num_pulses (is_sx sh))) then p ← calc_position_cb orig l i move_time; Some (p, sh)
  else
    x ← calc_position l i X move_time (is_sx sh);
    orig_at_dummy orig (set_pos_x x sh).
Definition shaper_y_calc_position (sh : input_shaper) (l : list move) (i : nat) (move_time : double)
    : option (double * input_shaper) :=
  orig ← is_orig sh;
  if negb (nz (sp_num_pulses (is_sy sh))) then p ← calc_position_cb orig l i move_time; Some (p, sh)
  else
    y ← calc_position l i Y move_time (is_sy sh);
    orig_at_dummy orig (set_pos_y y sh).
Definition shaper_xy_calc_position (sh : input_shaper) (l : list move) (i : nat) (move_time : double)
    : option (double * input_shaper) :=
  orig ← is_orig sh;
  if negb (nz (sp_num_pulses (is_sx sh))) && negb (nz (sp_num_pulses (is_sy sh))) then
    p ← calc_position_cb orig l i move_time; Some (p, sh)
  else
    m ← l !! i;
    let sh := sh <| is_m := (is_m sh) <| tm_start_pos := move_get_coord m move_time |> |> in
    sh ← (if nz (sp_num_pulses (is_sx sh)) then
            x ← calc_position l i X move_time (is_sx sh); Some (set_pos_x x sh)
          else Some sh);
    sh ← (if nz (sp_num_pulses (is_sy sh)) then
            y ← calc_position l i Y move_time (is_sy sh); Some (set_pos_y y sh)
          else Some sh);
    orig_at_dummy orig sh.
End shaper.

Definition input_shaper_set_sk (sh : input_shaper) (orig : kin_stepper) : Z * input_shaper :=
  let flags := sk_active_flags (s_sk orig) in
  let set cb := (0, sh <| is_cb := Some cb |> <| is_sk := (is_sk sh) <| sk_active_flags := flags |> |>
                       <| is_orig := Some orig |>) in
  if flags =? AF_X then set shaper_x
  else if flags =? AF_Y then set shaper_y
  else if has flags (Z.lor AF_X AF_Y) then set shaper_xy
  else (-1, sh).

(** The last and the first pulse of a shaper with pulses. *)
Definition last_t (sp : shaper_pulses) : option double := fst <$> sp_pulses sp !! Z.to_nat (sp_num_pulses sp - 1).
Definition first_t (sp : shaper_pulses) : option double := fst <$> sp_pulses sp !! 0%nat.
(** [a > b ? a : b] *)
Definition larger (a b : double) : double := if dlt b a then a else b.

Definition shaper_note_generation_time (sh : input_shaper) : option input_shaper :=
  '(pre, post) ← (if has (sk_active_flags (is_sk sh)) AF_X && nz (sp_num_pulses (is_sx sh)) then
                    pre ← last_t (is_sx sh); f ← first_t (is_sx sh); Some (pre, dneg f)
                  else Some (dint 0, dint 0));
  '(pre, post) ← (if has (sk_active_flags (is_sk sh)) AF_Y && nz (sp_num_pulses (is_sy sh)) then
                    l ← last_t (is_sy sh); f ← first_t (is_sy sh); Some (larger l pre, larger (dneg f) post)
                  else Some (pre, post));
  Some (sh <| is_sk := (is_sk sh) <| sk_pre_active := pre |> <| sk_post_active := post |> |>).

Definition input_shaper_set_shaper_params (sh : input_shaper) (c n : Z) (a t : list double) : option (Z * input_shaper) :=
  if negb (c =? 120) && negb (c =? 121) then Some (-1, sh)
  else
    orig ← is_orig sh;
    let sp := if c =? 120 then is_sx sh else is_sy sh in
    '(status, sp) ← (if has (sk_active_flags (s_sk orig)) (if c =? 120 then AF_X else AF_Y) then init_shaper n a t sp
                     else Some (0, sp <| sp_num_pulses := 0 |>));
    let sh := if c =? 120 then sh <| is_sx := sp |> else sh <| is_sy := sp |> in
    sh ← shaper_note_generation_time sh;
    Some (status, sh).

Definition input_shaper_get_step_generation_window (n : Z) (a t : list double) (sp : shaper_pulses) : option double :=
  '(_, sp) ← init_shaper n a t sp;
  if negb (nz (sp_num_pulses sp)) then Some (dint 0)
  else
    f ← first_t sp;
    l ← last_t sp;
    Some (larger l (dneg f)).
