(* ===== verification/Msgblock.v ===== *)
(** * klippy/chelper/msgblock.c: the host side of the message protocol

    Host code works on plain buffers; [None] is a read or write outside of one.
    [encode_int], [parse_int] and the step of the checksum are the functions of Vlq.v,
    whose text msgblock.c repeats. *)

From S2P Require Import Prelude State Vlq Command Double.

(** ** Serial protocol helpers *)

Definition msgblock_crc16_ccitt (buf : list Z) (len : Z) : Z :=
  fold_left crc16_step (take (Z.to_nat (u8 len)) buf) 0xffff.

(** Label [error] of [msgblock_check]: its result and the new [*need_sync]. *)
Definition msgblock_error (buf : list Z) : Z * Z :=
  match memchr buf MESSAGE_SYNC with
  | Some n => (- (Z.of_nat n + 1), 0)
  | None => (- Z.of_nat (length buf), 1)
  end.

Definition msgblock_check (need_sync : Z) (buf : list Z) : option (Z * Z) :=
  let buf_len := Z.of_nat (length buf) in
  if buf_len <? MESSAGE_MIN then Some (0, need_sync)
  else if nz need_sync then Some (msgblock_error buf)
  else
    msglen ← buf !! Z.to_nat MESSAGE_POS_LEN;
    if (msglen <? MESSAGE_MIN) || (MESSAGE_MAX <? msglen) then Some (msgblock_error buf)
    else
      msgseq ← buf !! Z.to_nat MESSAGE_POS_SEQ;
      if negb (Z.land msgseq (Z.lnot MESSAGE_SEQ_MASK) =? MESSAGE_DEST)
      then Some (msgblock_error buf)
      else if buf_len <? msglen then Some (0, need_sync)
      else
        sync ← buf !! Z.to_nat (msglen - MESSAGE_TRAILER_SYNC);
        if negb (sync =? MESSAGE_SYNC) then Some (msgblock_error buf)
        else
          hi ← buf !! Z.to_nat (msglen - MESSAGE_TRAILER_CRC);
          lo ← buf !! Z.to_nat (msglen - MESSAGE_TRAILER_CRC + 1);
          let msgcrc := u16 (Z.lor (Z.shiftl hi 8) lo) in
          let crc := msgblock_crc16_ccitt buf (msglen - MESSAGE_TRAILER_SIZE) in
          if negb (crc =? msgcrc) then Some (msgblock_error buf)
          else Some (msglen, need_sync).

(** The loop of [msgblock_decode] from position [p]: the values stored and the final
    position, or [inl] the values stored before [return -1]. *)
Fixpoint decode_loop (data_len : nat) (msg : list Z) (p end_ : nat) : option (list Z + list Z * nat) :=
  match data_len with
  | O => Some (inr ([], p))
  | S data_len =>
      if (end_ <=? p)%nat then Some (inl [])
      else
        '(v, p) ← parse_int msg p;
        r ← decode_loop data_len msg p end_;
        match r with
        | inl l => Some (inl (v :: l))
        | inr (l, p) => Some (inr (v :: l, p))
        end
  end.
(** The return value and the contents of [data]. *)
Definition msgblock_decode (data_len : nat) (msg : list Z) (msg_len : Z) : option (Z * list Z) :=
  let end_ := Z.to_nat (msg_len - MESSAGE_TRAILER_SIZE) in
  r ← decode_loop data_len msg (Z.to_nat MESSAGE_HEADER_SIZE) end_;
  match r with
  | inl l => Some (-1, l)
  | inr (l, p) => Some (if (p =? end_)%nat then 0 else -1, l)
  end.

(** ** Command queues *)

(** struct queue_message, without the clocks and times serialqueue.c keeps in it. *)
Record queue_message := mk_qm { qm_len : Z; qm_msg : list Z }.

Definition message_alloc : queue_message := mk_qm 0 (replicate (Z.to_nat MESSAGE_MAX) 0).

(** [bytes] stored from position [p]. *)
Definition store_bytes (msg : list Z) (p : nat) (bytes : list Z) : option (list Z) :=
  if (p + length bytes <=? length msg)%nat
  then Some (take p msg ++ bytes ++ drop (p + length bytes) msg) else None.

Definition message_fill (data : list Z) : option queue_message :=
  msg ← store_bytes (qm_msg message_alloc) 0 data;
  Some (mk_qm (Z.of_nat (length data)) msg).

(** The loop of [message_alloc_and_encode]: the final position, [None] at label [fail]. *)
Fixpoint encode_loop (msg : list Z) (p : nat) (data : list Z) : option (list Z * option nat) :=
  match data with
  | [] => Some (msg, Some p)
  | v :: data =>
      let out := encode_int v in
      msg ← store_bytes msg p out;
      let p := (p + length out)%nat in
      if (Z.to_nat MESSAGE_PAYLOAD_MAX <? p)%nat then Some (msg, None)
      else encode_loop msg p data
  end.
Definition message_alloc_and_encode (data : list Z) : option queue_message :=
  '(msg, p) ← encode_loop (qm_msg message_alloc) 0 data;
  Some (mk_qm (from_option Z.of_nat 0 p) msg).

(** ** Clock estimation *)

Record clock_estimate := mk_ce
  { ce_last_clock : Z; ce_conv_clock : Z; ce_conv_time : double; ce_est_freq : double }.

Definition clock_from_clock32 (last_clock clock32 : Z) : Z :=
  u64 (last_clock + i32 (clock32 - last_clock)).

Definition i64 (x : Z) : Z := let y := x mod 2 ^ 64 in if y <? 2 ^ 63 then y else y - 2 ^ 64.

Definition clock_to_time (ce : clock_estimate) (clock : Z) : double :=
  dadd (ce_conv_time ce) (ddiv (dint (i64 (clock - ce_conv_clock ce))) (ce_est_freq ce)).

Definition clock_from_time `{HostOS} (ce : clock_estimate) (time : double) : Z :=
  u64 (to_int64 (dadd (dmul (dsub time (ce_conv_time ce)) (ce_est_freq ce)) (dec 5 1)) + ce_conv_clock ce).
