(* ===== verification/StepCompress.v ===== *)
(** * klippy/chelper/stepcompress.c: compression of step times into moves

    The host turns a list of step clocks into [queue_step] commands (interval, count, add).
    Signed overflow is undefined in C: [int32s] guards every [int32_t] operation that could
    overflow.  Floating point is binary64 (Double.v). *)

From S2P Require Import Prelude State Vlq Command Double Msgblock.

Definition ERROR_RET : Z := -989898989.
Definition CHECK_LINES : bool := true.
Definition QUEUE_START_SIZE : Z := 1024.
Definition QUADRATIC_DEV : Z := 11.
(** [3<<28] *)
Definition CLOCK_DIFF_MAX : Z := Z.shiftl 3 28.
Definition UINT64_MAX : Z := 2 ^ 64 - 1.
Definition MAX_CLOCK : Z := 0x7fffffffffffffff.

(** ** Data *)

Record step_move := mk_step_move { mv_interval : Z; mv_count : Z; mv_add : Z }.

Record history_steps := mk_history
  { hs_first_clock : Z; hs_last_clock : Z; hs_start_position : Z; hs_step_count : Z;
    hs_interval : Z; hs_add : Z }.

(** A [queue_message] with its two clocks; [message_alloc] clears them. *)
Record host_message := mk_host_message { hm_msg : queue_message; hm_min_clock : Z; hm_req_clock : Z }.

(** struct stepcompress: [sc_queue] is the array from [queue] to [queue_end], [sc_pos] and
    [sc_next] are the indices of [queue_pos] and [queue_next]. *)
Record stepcompress := mk_sc
  { sc_queue : list Z; sc_pos : nat; sc_next : nat; sc_max_error : Z; sc_last_step_clock : Z;
    sc_msg_queue : list host_message; sc_oid : Z; sc_queue_step_msgtag : Z;
    sc_set_next_step_dir_msgtag : Z; sc_sdir : Z; sc_invert_sdir : Z; sc_next_step_clock : Z;
    sc_next_step_dir : Z; sc_last_position : Z; sc_history_list : list history_steps;
    sc_mcu_time_offset : double; sc_mcu_freq : double; sc_last_step_print_time : double }.
#[export] Instance eta_stepcompress : Eta stepcompress := λ r,
  mk_sc (sc_queue r) (sc_pos r) (sc_next r) (sc_max_error r) (sc_last_step_clock r)
    (sc_msg_queue r) (sc_oid r) (sc_queue_step_msgtag r) (sc_set_next_step_dir_msgtag r)
    (sc_sdir r) (sc_invert_sdir r) (sc_next_step_clock r) (sc_next_step_dir r)
    (sc_last_position r) (sc_history_list r) (sc_mcu_time_offset r) (sc_mcu_freq r)
    (sc_last_step_print_time r).

(** [HISTORY_EXPIRE] and [SDS_FILTER_TIME]. *)
Definition HISTORY_EXPIRE : double := dint 30.
Definition SDS_FILTER_TIME : double := dec 750 6.

Notation HC := (M stepcompress).

(** [int32_t] results in range. *)
Definition in_int32 (x : Z) : bool := (-2147483648 <=? x) && (x <? 2147483648).
Definition int32s (l : list Z) : HC unit := if forallb in_int32 l then mret tt else undef.

(** ** Step compression *)

Definition idiv_up (n d : Z) : HC Z :=
  if 0 <=? n then int32s [n + d; n + d - 1];;; mret (Z.quot (n + d - 1) d) else mret (Z.quot n d).
Definition idiv_down (n d : Z) : HC Z :=
  if 0 <=? n then mret (Z.quot n d) else int32s [n - d; n - d + 1];;; mret (Z.quot (n - d + 1) d).

Definition queue_at (i : nat) : HC Z :=
  let! sc := get in
  deref (sc_queue sc !! i).

(** The minimum and maximum acceptable time of the step at [pos]. *)
Definition minmax_point (pos : nat) : HC (Z * Z) :=
  let! sc := get in
  let lsc := u32 (sc_last_step_clock sc) in
  let! q := queue_at pos in
  let point := u32 (q - lsc) in
  let! prevpoint :=
    (if (sc_pos sc <? pos)%nat then
       let! q := queue_at (pos - 1) in
       mret (u32 (q - lsc))
     else mret 0) in
  let max_error := u32 (point - prevpoint) / 2 in
  let max_error := if sc_max_error sc <? max_error then sc_max_error sc else max_error in
  mret (i32 (point - max_error), i32 point).

Definition addfactor_of (count : Z) : Z := Z.quot (count * (count - 1)) 2.

(** How the inner loop of [compress_bisect_add] ends: at the end of the queue, or at a point
    that the sequence cannot reach. *)
Inductive run_end :=
| Covered (interval count : Z)
| Blocked (nextmin nextmax interval nextcount minp maxp : Z).

Fixpoint longest_run (fuel : nat) (qlast : nat) (add nextmin nextmax interval nextcount : Z) : HC run_end :=
  match fuel with
  | O => diverge
  | S fuel =>
      let nextcount := nextcount + 1 in
      let! sc := get in
      let pos := (sc_pos sc + Z.to_nat (nextcount - 1))%nat in
      if (qlast <=? pos)%nat then mret (Covered interval (nextcount - 1))
      else
        let! '(minp, maxp) := minmax_point pos in
        int32s [nextcount * (nextcount - 1)];;;
        let nextaddfactor := addfactor_of nextcount in
        let c := add * nextaddfactor in
        int32s [c; nextmin * nextcount; minp - c];;;
        let! nextmin := (if nextmin * nextcount <? minp - c then idiv_up (minp - c) nextcount else mret nextmin) in
        int32s [nextmax * nextcount; maxp - c];;;
        let! nextmax := (if maxp - c <? nextmax * nextcount then idiv_down (maxp - c) nextcount else mret nextmax) in
        if nextmax <? nextmin then mret (Blocked nextmin nextmax interval nextcount minp maxp)
        else longest_run fuel qlast add nextmin nextmax nextmax nextcount
  end.

(** The variables of the outer loop. *)
Record bisect := mk_bisect
  { bs_add : Z; bs_minadd : Z; bs_maxadd : Z; bs_outer_min : Z; bs_outer_max : Z;
    bs_bestinterval : Z; bs_bestcount : Z; bs_bestadd : Z; bs_bestreach : Z;
    bs_zerointerval : Z; bs_zerocount : Z }.
#[export] Instance eta_bisect : Eta bisect := λ r,
  mk_bisect (bs_add r) (bs_minadd r) (bs_maxadd r) (bs_outer_min r) (bs_outer_max r)
    (bs_bestinterval r) (bs_bestcount r) (bs_bestadd r) (bs_bestreach r)
    (bs_zerointerval r) (bs_zerocount r).

(** The conversion to the fields of [struct step_move]. *)
Definition to_step_move (interval count add : Z) : step_move :=
  mk_step_move (u32 interval) (u16 count) (i16 add).

(** After the outer loop. *)
Definition best_move (b : bisect) : step_move :=
  if bs_bestcount b <=? bs_zerocount b + Z.quot (bs_zerocount b) 16
  then to_step_move (bs_zerointerval b) (bs_zerocount b) 0
  else to_step_move (bs_bestinterval b) (bs_bestcount b) (bs_bestadd b).

(** "Check if this is the best sequence found so far"; the flag tells to leave the loop. *)
Definition update_best (b : bisect) (interval count reach : Z) : bisect * bool :=
  if (bs_bestreach b <? reach) || ((reach =? bs_bestreach b) && (bs_bestinterval b <? interval)) then
    let b := b <| bs_bestinterval := interval |> <| bs_bestcount := count |>
               <| bs_bestadd := bs_add b |> <| bs_bestreach := reach |> in
    let b := if bs_add b =? 0
             then b <| bs_zerointerval := interval |> <| bs_zerocount := count |> else b in
    (b, 0x200 <? count)
  else (b, false).

(** The three steps that narrow the range of [add]. *)
Definition narrow_side (b : bisect) (nextreach minp nextmin nextmax : Z) : bisect :=
  if nextreach <? minp
  then b <| bs_minadd := bs_add b + 1 |> <| bs_outer_max := nextmax |>
  else b <| bs_maxadd := bs_add b - 1 |> <| bs_outer_min := nextmin |>.
Definition narrow_error (b : bisect) (count : Z) : HC bisect :=
  if 1 <? count then
    let! sc := get in
    int32s [count * count];;;
    let errdelta := i32 (u32 (sc_max_error sc * QUADRATIC_DEV) / (count * count)) in
    int32s [bs_add b - errdelta; bs_add b + errdelta];;;
    let b := if bs_minadd b <? bs_add b - errdelta then b <| bs_minadd := bs_add b - errdelta |> else b in
    mret (if bs_add b + errdelta <? bs_maxadd b then b <| bs_maxadd := bs_add b + errdelta |> else b)
  else mret b.
Definition narrow_next (b : bisect) (nextcount minp maxp : Z) : HC bisect :=
  let nextaddfactor := addfactor_of nextcount in
  let c := bs_outer_max b * nextcount in
  int32s [c; bs_minadd b * nextaddfactor; minp - c];;;
  let! minadd := (if bs_minadd b * nextaddfactor <? minp - c
                  then idiv_up (minp - c) nextaddfactor else mret (bs_minadd b)) in
  let c := bs_outer_min b * nextcount in
  int32s [c; bs_maxadd b * nextaddfactor; maxp - c];;;
  let! maxadd := (if maxp - c <? bs_maxadd b * nextaddfactor
                  then idiv_down (maxp - c) nextaddfactor else mret (bs_maxadd b)) in
  mret (b <| bs_minadd := minadd |> <| bs_maxadd := maxadd |>).

Fixpoint bisect_loop (fuel run_fuel : nat) (qlast : nat) (b : bisect) : HC step_move :=
  match fuel with
  | O => diverge
  | S fuel =>
      let! e := longest_run run_fuel qlast (bs_add b) (bs_outer_min b) (bs_outer_max b) (bs_outer_max b) 1 in
      match e with
      | Covered interval count => mret (to_step_move interval count (bs_add b))
      | Blocked nextmin nextmax interval nextcount minp maxp =>
          let count := nextcount - 1 in
          let addfactor := addfactor_of count in
          let reach := bs_add b * addfactor + interval * count in
          int32s [bs_add b * addfactor; interval * count; reach];;;
          let '(b, stop) := update_best b interval count reach in
          if (stop : bool) then mret (best_move b)
          else
            let nextaddfactor := addfactor_of nextcount in
            let nextreach := bs_add b * nextaddfactor + interval * nextcount in
            int32s [bs_add b * nextaddfactor; interval * nextcount; nextreach];;;
            let! b := narrow_error (narrow_side b nextreach minp nextmin nextmax) count in
            let! b := narrow_next b nextcount minp maxp in
            if bs_maxadd b <? bs_minadd b then mret (best_move b)
            else
              int32s [bs_maxadd b - bs_minadd b];;;
              bisect_loop fuel run_fuel qlast
                (b <| bs_add := bs_maxadd b - Z.quot (bs_maxadd b - bs_minadd b) 4 |>)
      end
  end.

(** The outer loop narrows a range of 65536 values of [add] by one at least. *)
Definition BISECT_FUEL : nat := Z.to_nat 65537.

Definition compress_bisect_add : HC step_move :=
  let! sc := get in
  let qlast := if (sc_pos sc + Z.to_nat 65535 <? sc_next sc)%nat
               then (sc_pos sc + Z.to_nat 65535)%nat else sc_next sc in
  let! '(minp, maxp) := minmax_point (sc_pos sc) in
  bisect_loop BISECT_FUEL (S (qlast - sc_pos sc)) qlast
    (mk_bisect 0 (-0x8000) 0x7fff minp maxp 0 1 1 (-2147483648) 0 0).

(** ** Step compress checking *)

(** The loop over the points of a move, [n] of them to go. *)
Fixpoint check_points (n : nat) (pos : nat) (add interval p : Z) : HC Z :=
  match n with
  | O => mret 0
  | S n =>
      let! '(minp, maxp) := minmax_point pos in
      let p := u32 (p + interval) in
      if (p <? u32 minp) || (u32 maxp <? p) then mret ERROR_RET
      else if 0x80000000 <=? interval then mret ERROR_RET
      else check_points n (S pos) add (u32 (interval + add)) p
  end.
Definition check_line (move : step_move) : HC Z :=
  if negb CHECK_LINES then mret 0
  else if negb (nz (mv_count move)) ||
          (negb (nz (mv_interval move)) && negb (nz (mv_add move)) && (1 <? mv_count move)) ||
          (0x80000000 <=? mv_interval move)
  then mret ERROR_RET
  else
    let! sc := get in
    check_points (Z.to_nat (mv_count move)) (sc_pos sc) (mv_add move) (mv_interval move) 0.

(** ** Step compress interface *)

Definition stepcompress_alloc (oid : Z) : stepcompress :=
  mk_sc [] 0 0 0 0 [] (u32 oid) 0 0 (-1) 0 0 0 0 [] (dint 0) (dint 0) (dint 0).

Definition stepcompress_fill (max_error queue_step_msgtag set_next_step_dir_msgtag : Z) : HC unit :=
  modify (λ sc, sc <| sc_max_error := max_error |> <| sc_queue_step_msgtag := queue_step_msgtag |>
                   <| sc_set_next_step_dir_msgtag := set_next_step_dir_msgtag |>).

Definition stepcompress_set_invert_sdir (invert_sdir : Z) : HC unit :=
  let invert_sdir := b2z (nz invert_sdir) in
  let! sc := get in
  when negb (invert_sdir =? sc_invert_sdir sc) do
    (modify (λ sc, sc <| sc_invert_sdir := invert_sdir |>);;;
     when 0 <=? sc_sdir sc do modify (λ sc, sc <| sc_sdir := Z.lxor (sc_sdir sc) 1 |>)).

(** [free_history] takes entries off the end, the oldest ones, while they are old enough. *)
Fixpoint drop_history (l : list history_steps) (end_clock : Z) : list history_steps :=
  match l with
  | [] => []
  | hs :: l =>
      match drop_history l end_clock with
      | [] => if end_clock <? hs_last_clock hs then [hs] else []
      | l => hs :: l
      end
  end.
Definition free_history (end_clock : Z) : HC unit :=
  modify (λ sc, sc <| sc_history_list := drop_history (sc_history_list sc) end_clock |>).

Definition stepcompress_get_oid : HC Z := gets sc_oid.
Definition stepcompress_get_step_dir : HC Z := gets sc_next_step_dir.

Section host.
Context {OS : HostOS}.

Definition calc_last_step_print_time : HC unit :=
  let! sc := get in
  let lsc := dint (sc_last_step_clock sc) in
  modify (λ sc, sc <| sc_last_step_print_time :=
    dadd (sc_mcu_time_offset sc) (ddiv (dsub lsc (dec 5 1)) (sc_mcu_freq sc)) |>);;;
  when dlt (dmul (sc_mcu_freq sc) HISTORY_EXPIRE) lsc do
    free_history (to_uint64 (dsub lsc (dmul (sc_mcu_freq sc) HISTORY_EXPIRE))).

Definition stepcompress_set_time (time_offset mcu_freq : double) : HC unit :=
  modify (λ sc, sc <| sc_mcu_time_offset := time_offset |> <| sc_mcu_freq := mcu_freq |>);;;
  calc_last_step_print_time.

Definition add_message (data : list Z) (min_clock req_clock : Z) : HC unit :=
  let! qm := deref (message_alloc_and_encode data) in
  modify (λ sc, sc <| sc_msg_queue := sc_msg_queue sc ++ [mk_host_message qm min_clock req_clock] |>).

Definition add_move (first_clock : Z) (move : step_move) : HC unit :=
  let! sc := get in
  int32s [mv_count move * (mv_count move - 1); mv_add move * addfactor_of (mv_count move)];;;
  let ticks := u32 (mv_add move * addfactor_of (mv_count move) + mv_interval move * (mv_count move - 1)) in
  let last_clock := u64 (first_clock + ticks) in
  let req_clock := if (mv_count move =? 1) && (u64 (sc_last_step_clock sc + CLOCK_DIFF_MAX) <=? first_clock)
                   then first_clock else sc_last_step_clock sc in
  add_message [u32 (sc_queue_step_msgtag sc); sc_oid sc; mv_interval move; mv_count move; u32 (mv_add move)]
    (sc_last_step_clock sc) req_clock;;;
  let step_count := if nz (sc_sdir sc) then mv_count move else - mv_count move in
  modify (λ sc, sc <| sc_last_step_clock := last_clock |>
    <| sc_last_position := sc_last_position sc + step_count |>
    <| sc_history_list := mk_history first_clock last_clock (sc_last_position sc) step_count
                            (i32 (mv_interval move)) (mv_add move) :: sc_history_list sc |>).

(** The [while] loop of [queue_flush]; a non-zero result is returned at once, without the
    update of the print time. *)
Fixpoint flush_loop (fuel : nat) (move_clock : Z) : HC Z :=
  match fuel with
  | O => diverge
  | S fuel =>
      let! sc := get in
      if negb (sc_last_step_clock sc <? move_clock) then mret 0
      else
        let! move := compress_bisect_add in
        let! ret := check_line move in
        if nz ret then mret ret
        else
          add_move (u64 (sc_last_step_clock sc + mv_interval move)) move;;;
          let pos := (sc_pos sc + Z.to_nat (mv_count move))%nat in
          if (sc_next sc <=? pos)%nat then
            modify (λ sc, sc <| sc_pos := 0%nat |> <| sc_next := 0%nat |>);;;
            mret 0
          else
            modify (λ sc, sc <| sc_pos := pos |>);;;
            flush_loop fuel move_clock
  end.
Definition queue_flush (move_clock : Z) : HC Z :=
  let! sc := get in
  if (sc_next sc <=? sc_pos sc)%nat then mret 0
  else
    let! ret := flush_loop (S (sc_next sc - sc_pos sc)) move_clock in
    if nz ret then mret ret
    else
      calc_last_step_print_time;;;
      mret 0.

Definition stepcompress_flush_far (abs_step_clock : Z) : HC Z :=
  let! sc := get in
  add_move abs_step_clock (mk_step_move (u32 (abs_step_clock - sc_last_step_clock sc)) 1 0);;;
  calc_last_step_print_time;;;
  mret 0.

Definition set_next_step_dir (sdir : Z) : HC Z :=
  let! sc := get in
  if sc_sdir sc =? sdir then mret 0
  else
    let! ret := queue_flush UINT64_MAX in
    if nz ret then mret ret
    else
      modify (λ sc, sc <| sc_sdir := sdir |>);;;
      let! sc := get in
      add_message [u32 (sc_set_next_step_dir_msgtag sc); sc_oid sc; u32 (Z.lxor sdir (sc_invert_sdir sc))]
        0 (sc_last_step_clock sc);;;
      mret 0.

(** [*sc->queue_next++ = step_clock] *)
Definition queue_push (step_clock : Z) : HC unit :=
  let! sc := get in
  if (sc_next sc <? length (sc_queue sc))%nat then
    modify (λ sc, sc <| sc_queue := <[sc_next sc := u32 step_clock]> (sc_queue sc) |>
                     <| sc_next := S (sc_next sc) |>)
  else undef.

Definition queue_append_far : HC Z :=
  let! sc := get in
  let step_clock := sc_next_step_clock sc in
  modify (λ sc, sc <| sc_next_step_clock := 0 |>);;;
  let! ret := queue_flush (u64 (step_clock - CLOCK_DIFF_MAX + 1)) in
  if nz ret then mret ret
  else
    let! sc := get in
    if u64 (sc_last_step_clock sc + CLOCK_DIFF_MAX) <=? step_clock
    then stepcompress_flush_far step_clock
    else
      queue_push step_clock;;;
      mret 0.

(** The size of the new array: [alloc] is doubled until it exceeds [in_use]. *)
Fixpoint grow (fuel : nat) (alloc in_use : Z) : HC Z :=
  match fuel with
  | O => diverge
  | S fuel =>
      if alloc <=? in_use then
        int32s [alloc * 2];;;
        grow fuel (alloc * 2) in_use
      else mret alloc
  end.

(** [realloc] leaves the new part of the array undetermined; it is written before it is
    read, so that its contents do not matter. *)
Definition make_room : HC unit :=
  let! sc := get in
  let in_use := (sc_next sc - sc_pos sc)%nat in
  let used := take in_use (drop (sc_pos sc) (sc_queue sc)) in
  let! queue :=
    (if (0 <? sc_pos sc)%nat then mret (used ++ drop in_use (sc_queue sc))
     else
       let alloc := Z.of_nat (length (sc_queue sc)) in
       let alloc := if alloc =? 0 then QUEUE_START_SIZE else alloc in
       let! alloc := grow 32 alloc (Z.of_nat in_use) in
       mret (sc_queue sc ++ replicate (Z.to_nat alloc - length (sc_queue sc)) 0)) in
  modify (λ sc, sc <| sc_queue := queue |> <| sc_pos := 0%nat |> <| sc_next := in_use |>).

Definition queue_append_extend : HC Z :=
  let! sc := get in
  let! ret :=
    (if (Z.to_nat (65535 + 2000) <? sc_next sc - sc_pos sc)%nat then
       let! q := queue_at (sc_next sc - Z.to_nat 65535) in
       let flush := u32 (q - u32 (sc_last_step_clock sc)) in
       queue_flush (u64 (sc_last_step_clock sc + flush))
     else mret 0) in
  if nz ret then mret ret
  else
    let! sc := get in
    (when (length (sc_queue sc) <=? sc_next sc)%nat do make_room);;;
    let! sc := get in
    queue_push (sc_next_step_clock sc);;;
    modify (λ sc, sc <| sc_next_step_clock := 0 |>);;;
    mret 0.

Definition queue_append : HC Z :=
  let! sc := get in
  let! ret := (if negb (sc_next_step_dir sc =? sc_sdir sc)
               then set_next_step_dir (sc_next_step_dir sc) else mret 0) in
  if nz ret then mret ret
  else
    let! sc := get in
    if u64 (sc_last_step_clock sc + CLOCK_DIFF_MAX) <=? sc_next_step_clock sc then queue_append_far
    else if (length (sc_queue sc) <=? sc_next sc)%nat then queue_append_extend
    else
      queue_push (sc_next_step_clock sc);;;
      modify (λ sc, sc <| sc_next_step_clock := 0 |>);;;
      mret 0.

(** Two steps closer than [SDS_FILTER_TIME]. *)
Definition sds_filter (mcu_freq : double) (ticks : Z) : bool :=
  dlt (dint ticks) (dmul SDS_FILTER_TIME mcu_freq).

Definition stepcompress_append (sdir : Z) (print_time step_time : double) : HC Z :=
  let! sc := get in
  let offset := dsub print_time (sc_last_step_print_time sc) in
  let rel_sc := dmul (dadd step_time offset) (sc_mcu_freq sc) in
  let step_clock := u64 (sc_last_step_clock sc + to_uint64 rel_sc) in
  let store_next :=
    modify (λ sc, sc <| sc_next_step_clock := step_clock |> <| sc_next_step_dir := sdir |>);;;
    mret 0 in
  if nz (sc_next_step_clock sc) then
    if negb (sdir =? sc_next_step_dir sc) && sds_filter (sc_mcu_freq sc) (i64 (step_clock - sc_next_step_clock sc)) then
      modify (λ sc, sc <| sc_next_step_clock := 0 |> <| sc_next_step_dir := sdir |>);;;
      mret 0
    else
      let! ret := queue_append in
      if nz ret then mret ret else store_next
  else store_next.

Definition stepcompress_commit : HC Z :=
  let! sc := get in
  if nz (sc_next_step_clock sc) then queue_append else mret 0.

Definition stepcompress_flush (move_clock : Z) : HC Z :=
  let! sc := get in
  let! ret := (if nz (sc_next_step_clock sc) && (sc_next_step_clock sc <=? move_clock)
               then queue_append else mret 0) in
  if nz ret then mret ret else queue_flush move_clock.

Definition stepcompress_reset (last_step_clock : Z) : HC Z :=
  let! ret := stepcompress_flush UINT64_MAX in
  if nz ret then mret ret
  else
    modify (λ sc, sc <| sc_last_step_clock := last_step_clock |> <| sc_sdir := -1 |>);;;
    calc_last_step_print_time;;;
    mret 0.

Definition stepcompress_set_last_position (clock last_position : Z) : HC Z :=
  let! ret := stepcompress_flush UINT64_MAX in
  if nz ret then mret ret
  else
    modify (λ sc, sc <| sc_last_position := last_position |>
                     <| sc_history_list := mk_history clock clock last_position 0 0 0 :: sc_history_list sc |>);;;
    mret 0.

(** The number of steps of a move with [interval] and [add] after [ticks]: the quadratic
    formula in floating point. *)
Definition quadratic_offset (add interval ticks : Z) : Z :=
  let a := dmul (dec 5 1) (dint add) in
  let b := dsub (dint interval) (dmul (dec 5 1) (dint add)) in
  let c := dint (- ticks) in
  to_int32 (ddiv (dsub (dsqrt (dsub (dmul b b) (dmul (dmul (dint 4) a) c))) b) (dmul (dint 2) a)).

(** The search for the move that was active at [clock]. *)
Fixpoint find_position (l : list history_steps) (clock last_position : Z) : HC Z :=
  match l with
  | [] => mret last_position
  | hs :: l =>
      if clock <? hs_first_clock hs then find_position l clock (hs_start_position hs)
      else if hs_last_clock hs <=? clock then mret (hs_start_position hs + hs_step_count hs)
      else
        let ticks := i32 (clock - hs_first_clock hs) + hs_interval hs in
        int32s [ticks; - ticks];;;
        let! offset :=
          (if hs_add hs =? 0 then
             if hs_interval hs =? 0 then undef else mret (Z.quot ticks (hs_interval hs))
           else mret (quadratic_offset (hs_add hs) (hs_interval hs) ticks)) in
        mret (if hs_step_count hs <? 0 then hs_start_position hs - offset
              else hs_start_position hs + offset)
  end.
Definition stepcompress_find_past_position (clock : Z) : HC Z :=
  let! sc := get in
  find_position (sc_history_list sc) clock (sc_last_position sc).

Definition stepcompress_queue_msg (data : list Z) : HC Z :=
  let! ret := stepcompress_flush UINT64_MAX in
  if nz ret then mret ret
  else
    let! sc := get in
    add_message data 0 (sc_last_step_clock sc);;;
    mret 0.
End host.

(** The entries copied to [p], newest first, [max] at most. *)
Fixpoint extract_history (l : list history_steps) (max : nat) (start_clock end_clock : Z) : list history_steps :=
  match l, max with
  | [], _ => []
  | hs :: l, _ =>
      if hs_last_clock hs <=? start_clock then []
      else match max with
           | O => []
           | S max' =>
               if end_clock <=? hs_first_clock hs then extract_history l max start_clock end_clock
               else hs :: extract_history l max' start_clock end_clock
           end
  end.
Definition stepcompress_extract_old (max : nat) (start_clock end_clock : Z) : HC (list history_steps) :=
  let! sc := get in
  mret (extract_history (sc_history_list sc) max start_clock end_clock).

(** ** Step compress synchronization *)

(** struct steppersync with its stepcompress objects; the batches handed to
    [serialqueue_send_batch] are results. *)
Record steppersync := mk_ss { ss_sc_list : list stepcompress; ss_move_clocks : list Z }.
#[export] Instance eta_steppersync : Eta steppersync := λ r, mk_ss (ss_sc_list r) (ss_move_clocks r).

Definition steppersync_alloc (sc_list : list stepcompress) (move_num : nat) : steppersync :=
  mk_ss sc_list (replicate move_num 0).

Definition clock_or_max (mc : list Z) (i : nat) : Z := default UINT64_MAX (mc !! i).

(** The loop of [heap_replace]; writing outside of the heap is undefined. *)
Fixpoint sift (fuel : nat) (mc : list Z) (pos : nat) (req_clock : Z) : M steppersync (list Z) :=
  match fuel with
  | O => diverge
  | S fuel =>
      if (length mc <=? pos)%nat then undef
      else
        let child1_pos := (2 * pos + 1)%nat in
        let child2_pos := (2 * pos + 2)%nat in
        let child2_clock := clock_or_max mc child2_pos in
        let child1_clock := clock_or_max mc child1_pos in
        if (req_clock <=? child1_clock) && (req_clock <=? child2_clock) then mret (<[pos := req_clock]> mc)
        else if child1_clock <? child2_clock then sift fuel (<[pos := child1_clock]> mc) child1_pos req_clock
        else sift fuel (<[pos := child2_clock]> mc) child2_pos req_clock
  end.
Definition heap_replace (req_clock : Z) : M steppersync unit :=
  let! ss := get in
  let! mc := sift (S (length (ss_move_clocks ss))) (ss_move_clocks ss) 0 req_clock in
  modify (λ ss, ss <| ss_move_clocks := mc |>).

(** The index of the object whose first message has the lowest [req_clock], and that
    message. *)
Fixpoint lowest (l : list stepcompress) (i : nat) (best : option (nat * host_message)) (req_clock : Z) :
    option (nat * host_message) :=
  match l with
  | [] => best
  | sc :: l =>
      match sc_msg_queue sc with
      | m :: _ => if hm_req_clock m <? req_clock then lowest l (S i) (Some (i, m)) (hm_req_clock m)
                  else lowest l (S i) best req_clock
      | [] => lowest l (S i) best req_clock
      end
  end.

(** The [for (;;)] of [steppersync_flush]; the messages of the batch in order. *)
Fixpoint batch_loop (fuel : nat) (move_clock : Z) : M steppersync (list host_message) :=
  match fuel with
  | O => diverge
  | S fuel =>
      let! ss := get in
      match lowest (ss_sc_list ss) 0 None MAX_CLOCK with
      | None => mret []
      | Some (i, qm) =>
          if nz (hm_min_clock qm) && (move_clock <? hm_req_clock qm) then mret []
          else
            let! next_avail := deref (ss_move_clocks ss !! 0%nat) in
            (when nz (hm_min_clock qm) do heap_replace (hm_min_clock qm));;;
            modify (λ ss, ss <| ss_sc_list := alter (λ sc, sc <| sc_msg_queue := tail (sc_msg_queue sc) |>) i
                                                (ss_sc_list ss) |>);;;
            let! rest := batch_loop fuel move_clock in
            mret (mk_host_message (hm_msg qm) next_avail (hm_req_clock qm) :: rest)
      end
  end.

Section flush.
Context {OS : HostOS}.

Fixpoint set_time_all (l : list stepcompress) (time_offset mcu_freq : double) : result unit (list stepcompress) :=
  match l with
  | [] => Ret [] tt
  | sc :: l =>
      match stepcompress_set_time time_offset mcu_freq sc, set_time_all l time_offset mcu_freq with
      | Ret _ sc', Ret l' _ => Ret (sc' :: l') tt
      | Undef, _ | _, Undef => Undef
      | _, _ => Diverge
      end
  end.
Definition steppersync_set_time (time_offset mcu_freq : double) : M steppersync unit := λ ss,
  match set_time_all (ss_sc_list ss) time_offset mcu_freq with
  | Ret l _ => Ret tt (ss <| ss_sc_list := l |>)
  | Shut r _ => Shut r ss
  | Undef => Undef
  | Diverge => Diverge
  end.

(** [stepcompress_flush] of each object in turn; the first error stops. *)
Fixpoint flush_all (l : list stepcompress) (move_clock : Z) : result unit (Z * list stepcompress) :=
  match l with
  | [] => Ret (0, []) tt
  | sc :: l =>
      match stepcompress_flush move_clock sc with
      | Ret ret sc' =>
          if nz ret then Ret (ret, sc' :: l) tt
          else match flush_all l move_clock with
               | Ret (ret, l') _ => Ret (ret, sc' :: l') tt
               | Shut r _ => Shut r tt
               | Undef => Undef
               | Diverge => Diverge
               end
      | Shut r _ => Shut r tt
      | Undef => Undef
      | Diverge => Diverge
      end
  end.

Definition total_messages (l : list stepcompress) : nat := length (l ≫= sc_msg_queue).

(** The return code and the batch that is sent. *)
Definition steppersync_flush (move_clock : Z) : M steppersync (Z * list host_message) := λ ss,
  match flush_all (ss_sc_list ss) move_clock with
  | Ret (ret, l) _ =>
      let ss := ss <| ss_sc_list := l |> in
      if nz ret then Ret (ret, []) ss
      else (let! batch := batch_loop (S (total_messages l)) move_clock in mret (0, batch)) ss
  | Shut r _ => Shut r ss
  | Undef => Undef
  | Diverge => Diverge
  end.
End flush.
