(* ===== verification/Itersolve.v ===== *)
(** * itersolve.c: step times from moves

    The solver looks for the times at which the position of a stepper crosses the next step.
    It hands the steps to a queue: the class [StepQueue] has the three functions of
    stepcompress.c that it calls.  One object of the state is what a call can reach: the
    stepper, its queue and its list of moves. *)

From S2P Require Import Prelude State Double Msgblock StepCompress Trapq Kinematics.

Class StepQueue (Q : Type) := {
  queue_get_step_dir : M Q Z;
  queue_append_step : Z → double → double → M Q Z;
  queue_commit : M Q Z;
}.
#[export] Instance stepcompress_queue `{HostOS} : StepQueue stepcompress := {|
  queue_get_step_dir := stepcompress_get_step_dir;
  queue_append_step := stepcompress_append;
  queue_commit := stepcompress_commit;
|}.

(** A stepper, or an input shaper around one. *)
Inductive solver_kin := SK_plain (s : kin_stepper) | SK_shaper (sh : input_shaper).
Definition k_sk (k : solver_kin) : stepper_kinematics :=
  match k with SK_plain s => s_sk s | SK_shaper sh => is_sk sh end.
Definition upd_sk (f : stepper_kinematics → stepper_kinematics) (k : solver_kin) : solver_kin :=
  match k with
  | SK_plain s => SK_plain (s <| s_sk := f (s_sk s) |>)
  | SK_shaper sh => SK_shaper (sh <| is_sk := f (is_sk sh) |>)
  end.

Record solver (Q : Type) := mk_solver { so_k : solver_kin; so_q : Q; so_tq : option trapq }.
Arguments mk_solver {Q}.
Arguments so_k {Q}.
Arguments so_q {Q}.
Arguments so_tq {Q}.
#[export] Instance eta_solver {Q} : Eta (solver Q) := λ r, mk_solver (so_k r) (so_q r) (so_tq r).

(** The callback of the stepper. *)
Definition k_calc_position `{Libm} (k : solver_kin) (l : list move) (i : nat) (move_time : double)
    : option (double * solver_kin) :=
  match k with
  | SK_plain s => p ← calc_position_cb s l i move_time; Some (p, k)
  | SK_shaper sh =>
      cb ← is_cb sh;
      '(p, sh) ← match cb with
                 | shaper_x => shaper_x_calc_position sh l i move_time
                 | shaper_y => shaper_y_calc_position sh l i move_time
                 | shaper_xy => shaper_xy_calc_position sh l i move_time
                 end;
      Some (p, SK_shaper sh)
  end.
(** [post_cb], which only the angle of a polar printer has. *)
Definition k_post (k : solver_kin) : solver_kin :=
  match k with
  | SK_plain (mk_kin_stepper sk K_polar_angle) => SK_plain (mk_kin_stepper (polar_stepper_angle_post_fixup sk) K_polar_angle)
  | _ => k
  end.

(** ** The search for the next step *)

Definition SEEK_TIME_RESET : double := dec 1 4.
(** .000000001 and .000000010 *)
Definition NANO : double := dec 1 9.
Definition TEN_NANO : double := dec 1 8.

(** The local variables of the loop. *)
Record search := mk_search
  { se_old_time : double; se_old_position : double; se_time : double; se_position : double;
    se_sdir : bool; se_is_dir_change : bool; se_have_bracket : bool; se_check_oscillate : bool;
    se_target : double; se_last_time : double; se_low_time : double; se_high_time : double }.
#[export] Instance eta_search : Eta search := λ r,
  mk_search (se_old_time r) (se_old_position r) (se_time r) (se_position r) (se_sdir r)
    (se_is_dir_change r) (se_have_bracket r) (se_check_oscillate r) (se_target r)
    (se_last_time r) (se_low_time r) (se_high_time r).

(** [if (t > end) t = end] *)
Definition clip (end_ t : double) : double := if dlt end_ t then end_ else t.

Definition start_search (start end_ commanded_pos half_step : double) (sdir : bool) : search :=
  mk_search start commanded_pos start commanded_pos sdir false false false
    (dadd commanded_pos (if sdir then half_step else dneg half_step))
    start start (clip end_ (dadd start SEEK_TIME_RESET)).

(** The time of the next guess; [None] when there are no more steps. *)
Definition next_guess (end_ : double) (se : search) : option (double * search) :=
  let guess_dist := dsub (se_position se) (se_target se) in
  let og_dist := dsub (se_old_position se) (se_target se) in
  let next_time := ddiv (dsub (dmul (se_old_time se) guess_dist) (dmul (se_time se) og_dist)) (dsub guess_dist og_dist) in
  if dlt (se_low_time se) next_time && dlt next_time (se_high_time se) then Some (next_time, se)
  else if se_have_bracket se then
    Some (dmul (dadd (se_low_time se) (se_high_time se)) (dec 5 1), se <| se_check_oscillate := false |>)
  else if dle end_ (se_time se) then None
  else Some (se_high_time se,
             se <| se_high_time := clip end_ (dsub (dmul (dint 2) (se_high_time se)) (se_last_time se)) |>).

(** [target] one step further. *)
Definition step_target (half_step : double) (sdir : bool) (target : double) : double :=
  if sdir then dadd (dadd target half_step) half_step else dsub (dsub target half_step) half_step.

(** What the position of a guess tells: the step is found, or the search goes on, and whether
    the pending step can no longer be rolled back. *)
Inductive verdict := Found (se : search) | Again (commit : bool) (se : search).

Definition update_bounds (half_step guess_dist : double) (se : search) : search * double :=
  let rel_dist := if se_sdir se then guess_dist else dneg guess_dist in
  if dlt (dint 0) rel_dist then
    let past := se_have_bracket se && dle (se_old_time se) (se_low_time se) in
    let se := if past && se_check_oscillate se
              then se <| se_old_time := se_time se |> <| se_old_position := se_position se |> else se in
    let se := if past then se <| se_check_oscillate := true |> else se in
    (se <| se_high_time := se_time se |> <| se_have_bracket := true |>, rel_dist)
  else if dlt rel_dist (dneg (dadd (dadd half_step half_step) TEN_NANO)) then
    let sdir := negb (se_sdir se) in
    (se <| se_sdir := sdir |> <| se_target := step_target half_step sdir (se_target se) |>
        <| se_low_time := se_last_time se |> <| se_high_time := se_time se |>
        <| se_is_dir_change := true |> <| se_have_bracket := true |> <| se_check_oscillate := false |>, rel_dist)
  else (se <| se_low_time := se_time se |>, rel_dist).

Definition judge (half_step : double) (se : search) : verdict :=
  let guess_dist := dsub (se_position se) (se_target se) in
  if dlt NANO (dabs guess_dist) then
    let '(se, rel_dist) := update_bounds half_step guess_dist se in
    if negb (se_have_bracket se) || dlt NANO (dsub (se_high_time se) (se_low_time se)) then
      Again (negb (se_is_dir_change se) && dle (dneg half_step) rel_dist) se
    else Found se
  else Found se.

(** The search for the step after the one at [se_time se]. *)
Definition next_search (half_step end_ : double) (se : search) : search :=
  let delta := dmul (dec 15 1) (dsub (se_time se) (se_last_time se)) in
  let delta := if dlt delta NANO then NANO else delta in
  let delta := if se_is_dir_change se && dlt SEEK_TIME_RESET delta then SEEK_TIME_RESET else delta in
  se <| se_target := step_target half_step (se_sdir se) (se_target se) |>
     <| se_last_time := se_time se |> <| se_low_time := se_time se |>
     <| se_high_time := clip end_ (dadd (se_time se) delta) |>
     <| se_is_dir_change := false |> <| se_have_bracket := false |> <| se_check_oscillate := false |>.

Section solver.
Context `{LM : Libm} {Q : Type} `{SQ : StepQueue Q}.
Notation MS := (M (solver Q)).

(** A call of the queue. *)
Definition on_steps {A} (m : M Q A) : MS A := λ so,
  match m (so_q so) with
  | Ret a q => Ret a (so <| so_q := q |>)
  | Shut r q => Shut r (so <| so_q := q |>)
  | Undef => Undef
  | Diverge => Diverge
  end.
Definition calc_position_at (i : nat) (move_time : double) : MS double := λ so,
  match tq ← so_tq so; k_calc_position (so_k so) (tq_moves tq) i move_time with
  | Some (p, k) => Ret p (so <| so_k := k |>)
  | None => Undef
  end.
Definition set_sk (f : stepper_kinematics → stepper_kinematics) : MS unit :=
  modify (λ so, so <| so_k := upd_sk f (so_k so) |>).

(** A round of the [for (;;)]: [inl] the search that goes on, [inr] the end, with an error of
    the queue or none. *)
Definition search_round (i : nat) (print_time half_step end_ : double) (se : search) : MS (search + option Z * search) :=
  match next_guess end_ se with
  | None => mret (inr (None, se))
  | Some (next_time, se) =>
      let! position := calc_position_at i next_time in
      let se := se <| se_old_time := se_time se |> <| se_old_position := se_position se |>
                   <| se_time := next_time |> <| se_position := position |> in
      match judge half_step se with
      | Again commit se =>
          (if commit then (let! _ := on_steps queue_commit in mret tt) else mret tt);;;
          mret (inl se)
      | Found se =>
          let! ret := on_steps (queue_append_step (b2z (se_sdir se)) print_time (se_time se)) in
          if nz ret then mret (inr (Some ret, se)) else mret (inl (next_search half_step end_ se))
      end
  end.
Fixpoint search_loop (patience : nat) (i : nat) (print_time half_step end_ : double) (se : search) : MS (option Z * search) :=
  match patience with
  | O => diverge
  | S patience =>
      let! r := search_round i print_time half_step end_ se in
      match r with
      | inl se => search_loop patience i print_time half_step end_ se
      | inr r => mret r
      end
  end.

(** The part of a move that is searched, in the time of the move. *)
Definition range_start (m : move) (abs_start : double) : double :=
  let start := dsub abs_start (tm_print_time m) in
  if dlt start (dint 0) then dint 0 else start.
Definition range_end (m : move) (abs_end : double) : double := clip (tm_move_t m) (dsub abs_end (tm_print_time m)).

Definition get_moves : MS (list move) :=
  let! so := get in
  let! tq := deref (so_tq so) in
  mret (tq_moves tq).

Definition itersolve_gen_steps_range (patience : nat) (i : nat) (abs_start abs_end : double) : MS Z :=
  let! l := get_moves in
  let! m := deref (l !! i) in
  let! so := get in
  let sk := k_sk (so_k so) in
  let half_step := dmul (dec 5 1) (sk_step_dist sk) in
  let start := range_start m abs_start in
  let end_ := range_end m abs_end in
  let! dir := on_steps queue_get_step_dir in
  let! '(ret, se) := search_loop patience i (tm_print_time m) half_step end_
                       (start_search start end_ (sk_commanded_pos sk) half_step (nz dir)) in
  match ret with
  | Some ret => mret ret
  | None =>
      set_sk (λ sk, sk <| sk_commanded_pos := dsub (se_target se) (if se_sdir se then half_step else dneg half_step) |>);;;
      modify (λ so, so <| so_k := k_post (so_k so) |>);;;
      mret 0
  end.

(** ** The interface *)

Definition check_active (sk : stepper_kinematics) (m : move) : bool :=
  let af := sk_active_flags sk in
  has af AF_X && dnz (c_x (tm_axes_r m)) || has af AF_Y && dnz (c_y (tm_axes_r m)) ||
  has af AF_Z && dnz (c_z (tm_axes_r m)).

(** [trapq_check_sentinels] of the moves of the stepper. *)
Definition check_sentinels : MS unit := λ so,
  match so_tq so with
  | None => Undef
  | Some tq =>
      match trapq_check_sentinels tq with
      | Ret _ tq => Ret tt (so <| so_tq := Some tq |>)
      | Shut r _ => Shut r so
      | Undef => Undef
      | Diverge => Diverge
      end
  end.

(** The first move, from index [i], that ends after [t]. *)
Fixpoint skip_until (l : list move) (i : nat) (t : double) : option nat :=
  match l with
  | [] => None
  | m :: l => if dle (move_end m) t then skip_until l (S i) t else Some i
  end.

(** The search back for the move to start with: from [pm], over at most [skip_count - 1] more. *)
Fixpoint back_up (l : list move) (skip_count pm : nat) (abs_start : double) : option nat :=
  match skip_count with
  | O => None
  | S skip_count =>
      m ← l !! pm;
      if negb (skip_count =? 0)%nat && dlt abs_start (tm_print_time m) then
        match pm with O => None | S pm => back_up l skip_count pm abs_start end
      else Some pm
  end.

(** The [do]-[while] over the moves from [pm] up to the one before [i]. *)
Fixpoint gen_before (patience : nat) (n pm : nat) (abs_start flush_time : double) : MS Z :=
  match n with
  | O => mret 0
  | S n =>
      let! ret := itersolve_gen_steps_range patience pm abs_start flush_time in
      if nz ret then mret ret else gen_before patience n (S pm) abs_start flush_time
  end.

(** The round for the move [m] with index [i]: [inr] is the return value, [inl] what the next
    round starts with. *)
Definition gen_move (patience : nat) (l : list move) (i : nat) (m : move) (last_flush_time flush_time : double)
    (force_steps_time : double) (skip_count : nat) : MS (double * nat + Z) :=
  let! so := get in
  let sk := k_sk (so_k so) in
  let move_start := tm_print_time m in
  let end_ := dadd move_start (tm_move_t m) in
  if check_active sk m then
    let! ret :=
      (if negb (skip_count =? 0)%nat && dnz (sk_pre_active sk) then
         let abs_start := dsub move_start (sk_pre_active sk) in
         let abs_start := if dlt abs_start last_flush_time then last_flush_time else abs_start in
         let abs_start := if dlt abs_start force_steps_time then force_steps_time else abs_start in
         match i with
         | O => undef
         | S p =>
             let! pm := deref (back_up l skip_count p abs_start) in
             gen_before patience (i - pm) pm abs_start flush_time
         end
       else mret 0) in
    if nz ret then mret (inr ret)
    else
      let! ret := itersolve_gen_steps_range patience i last_flush_time flush_time in
      if nz ret then mret (inr ret)
      else if dle flush_time end_ then
        set_sk (λ sk, sk <| sk_last_move_time := flush_time |>);;;
        mret (inr 0)
      else
        set_sk (λ sk, sk <| sk_last_move_time := end_ |>);;;
        mret (inl (dadd end_ (sk_post_active sk), 0%nat))
  else
    let! r :=
      (if dlt move_start force_steps_time then
         let abs_end := if dlt flush_time force_steps_time then flush_time else force_steps_time in
         let! ret := itersolve_gen_steps_range patience i last_flush_time abs_end in
         mret (if nz ret then inr ret else inl 1%nat)
       else mret (inl (S skip_count))) in
    match r with
    | inr ret => mret (inr ret)
    | inl skip_count =>
        if dle (dadd flush_time (sk_pre_active sk)) end_ then mret (inr 0)
        else mret (inl (force_steps_time, skip_count))
    end.
(** The [for (;;)] over the moves [rest], which start at index [i]. *)
Fixpoint gen_moves (patience : nat) (l rest : list move) (i : nat) (last_flush_time flush_time : double)
    (force_steps_time : double) (skip_count : nat) : MS Z :=
  match rest with
  | [] => undef
  | m :: rest =>
      let! r := gen_move patience l i m last_flush_time flush_time force_steps_time skip_count in
      match r with
      | inr ret => mret ret
      | inl (force_steps_time, skip_count) =>
          gen_moves patience l rest (S i) last_flush_time flush_time force_steps_time skip_count
      end
  end.

Definition itersolve_generate_steps (patience : nat) (flush_time : double) : MS Z :=
  let! so := get in
  let last_flush_time := sk_last_flush_time (k_sk (so_k so)) in
  set_sk (λ sk, sk <| sk_last_flush_time := flush_time |>);;;
  match so_tq so with
  | None => mret 0
  | Some _ =>
      check_sentinels;;;
      let! l := get_moves in
      let! i := deref (skip_until l 0 last_flush_time) in
      let! so := get in
      let sk := k_sk (so_k so) in
      gen_moves patience l (drop i l) i last_flush_time flush_time
        (dadd (sk_last_move_time sk) (sk_post_active sk)) 0
  end.

(** The [for (;;)] of [itersolve_check_active]. *)
Fixpoint active_time (sk : stepper_kinematics) (l : list move) (flush_time : double) : option double :=
  match l with
  | [] => None
  | m :: l =>
      if check_active sk m then Some (tm_print_time m)
      else if dle flush_time (move_end m) then Some (dint 0)
      else active_time sk l flush_time
  end.
Definition itersolve_check_active (flush_time : double) : MS double :=
  let! so := get in
  match so_tq so with
  | None => mret (dint 0)
  | Some _ =>
      check_sentinels;;;
      let! l := get_moves in
      let! i := deref (skip_until l 0 (sk_last_flush_time (k_sk (so_k so)))) in
      deref (active_time (k_sk (so_k so)) (drop i l) flush_time)
  end.

Definition itersolve_is_active_axis (c : Z) : MS Z :=
  let! so := get in
  if (c <? 120) || (122 <? c) then mret 0
  else mret (b2z (has (sk_active_flags (k_sk (so_k so))) (Z.shiftl AF_X (c - 120)))).
Definition itersolve_set_trapq (tq : option trapq) : MS unit := modify (λ so, so <| so_tq := tq |>).
Definition itersolve_set_stepcompress (q : Q) (step_dist : double) : MS unit :=
  modify (λ so, so <| so_q := q |>);;;
  set_sk (λ sk, sk <| sk_step_dist := step_dist |>).
(** The callback on a move that stays at a place, which is in no list. *)
Definition itersolve_calc_position_from_coord (pos : coord) : MS double := λ so,
  let m := zero_move <| tm_start_pos := pos |> <| tm_move_t := dint 1000 |> in
  match k_calc_position (so_k so) [m] 0 (dint 500) with
  | Some (p, k) => Ret p (so <| so_k := k |>)
  | None => Undef
  end.
Definition itersolve_set_position (pos : coord) : MS unit :=
  let! p := itersolve_calc_position_from_coord pos in
  set_sk (λ sk, sk <| sk_commanded_pos := p |>).
Definition itersolve_get_commanded_pos : MS double := gets (λ so, sk_commanded_pos (k_sk (so_k so))).
End solver.
