(* ===== verification/Pollreactor.v ===== *)
(** * klippy/chelper/pollreactor.c: the event loop of the host's background thread

    A reactor has timers, of which [next_timer] is the earliest, and file descriptors.  The
    callbacks run on the state [S] of the caller, which holds the reactor as its field [pr];
    [poll] and the clock are inputs. *)

From S2P Require Import Prelude Double.

Record pollreactor := mk_pr
  { pr_timers : list double; pr_next_timer : double; pr_must_exit : bool }.
#[export] Instance eta_pollreactor : Eta pollreactor := λ r,
  mk_pr (pr_timers r) (pr_next_timer r) (pr_must_exit r).

Definition pollreactor_alloc (num_timers : nat) : pollreactor :=
  mk_pr (replicate num_timers PR_NEVER) PR_NEVER false.

(** The waketime; the callback itself is an argument of [pollreactor_check_timers]. *)
Definition pollreactor_add_timer (r : pollreactor) (pos : nat) : pollreactor :=
  r <| pr_timers := <[pos := PR_NEVER]> (pr_timers r) |>.

Definition pollreactor_get_timer (r : pollreactor) (pos : nat) : option double :=
  pr_timers r !! pos.

Definition pollreactor_update_timer (r : pollreactor) (pos : nat) (waketime : double) : pollreactor :=
  r <| pr_timers := <[pos := waketime]> (pr_timers r) |>
    <| pr_next_timer := if dlt waketime (pr_next_timer r) then waketime else pr_next_timer r |>.

Definition pollreactor_do_exit (r : pollreactor) : pollreactor := r <| pr_must_exit := true |>.
Definition pollreactor_is_exit (r : pollreactor) : bool := pr_must_exit r.

(** The result of [poll]: an error, or which file descriptors have events. *)
Inductive poll_result := PollError | PollEvents (revents : list bool).

Section reactor.
Context `{OS : HostOS} {S : Type} (pr : S → pollreactor) `{!Setter pr}.
Implicit Types callbacks : list (double → M S double).

(** The loop over the timers from number [i]; the flag is [busy]. *)
Fixpoint run_timers callbacks (i : nat) (eventtime : double) (busy : bool) : M S bool :=
  match callbacks with
  | [] => mret busy
  | callback :: callbacks =>
      let! r := gets pr in
      let! t := deref (pr_timers r !! i) in
      let! '(t, busy) :=
        (if dle t eventtime then
           let! t := callback eventtime in
           modify (upd pr (λ r, r <| pr_timers := <[i := t]> (pr_timers r) |>));;;
           mret (t, true)
         else mret (t, busy)) in
      modify (upd pr (λ r, if dlt t (pr_next_timer r) then r <| pr_next_timer := t |> else r));;;
      run_timers callbacks (Datatypes.S i) eventtime busy
  end.

(** Milliseconds to sleep. *)
Definition pollreactor_check_timers callbacks (eventtime : double) (busy : bool) : M S Z :=
  let! r := gets pr in
  let! busy :=
    (if dle (pr_next_timer r) eventtime then
       modify (upd pr (λ r, r <| pr_next_timer := PR_NEVER |>));;;
       run_timers callbacks 0 eventtime busy
     else mret busy) in
  if (busy : bool) then mret 0
  else
    let! r := gets pr in
    let timeout := dceil (dmul (dsub (pr_next_timer r) eventtime) (dint 1000)) in
    if dlt timeout (dint 1) then mret 1
    else if dlt (dint 1000) timeout then mret 1000
    else mret (to_int64 timeout).

Fixpoint run_fds (fd_callbacks : list (double → M S unit)) (revents : list bool) (eventtime : double)
    : M S unit :=
  match fd_callbacks, revents with
  | callback :: fd_callbacks, b :: revents =>
      (when b do callback eventtime);;;
      run_fds fd_callbacks revents eventtime
  | _, _ => mret tt
  end.

(** [pollreactor_run] on the results of its calls of [poll], each with the time after it;
    the list of timeouts passed to [poll].  It goes on while there are results and
    [must_exit] is not set. *)
Fixpoint pollreactor_run callbacks fd_callbacks (eventtime : double) (busy : bool)
    (polls : list (poll_result * double)) : M S (list Z) :=
  match polls with
  | [] => mret []
  | (ret, now) :: polls =>
      let! r := gets pr in
      if pr_must_exit r then mret []
      else
        let! timeout := pollreactor_check_timers callbacks eventtime busy in
        let! busy :=
          (match ret with
           | PollError => modify (upd pr pollreactor_do_exit);;; mret false
           | PollEvents revents =>
               if existsb id revents then run_fds fd_callbacks revents now;;; mret true
               else mret false
           end) in
        let! ts := pollreactor_run callbacks fd_callbacks now busy polls in
        mret (timeout :: ts)
  end.
End reactor.
