(* ===== verification/Serialqueue.v ===== *)
(** * klippy/chelper/serialqueue.c: the host's command queues and retransmission

    A serialqueue sends commands in numbered blocks, keeps the blocks until they are
    acknowledged and sends them again when a timeout or a nak tells that some were lost.  Each
    function that holds the lock is one program on the state [serialqueue]; what the
    background thread and the callers of the interface do is a sequence of such programs. *)

From S2P Require Import Prelude State Vlq Command Double Msgblock StepCompress Pollreactor.

Definition SQPT_RETRANSMIT : nat := 0.
Definition SQPT_COMMAND : nat := 1.
Definition SQPT_NUM : nat := 2.
(** The characters u, c and f. *)
Definition SQT_UART : Z := 117.
Definition SQT_CAN : Z := 99.
Definition SQT_DEBUGFILE : Z := 102.
Definition MIN_RTO : double := dec 25 3.
Definition MAX_RTO : double := dint 5.
Definition MAX_PENDING_BLOCKS : Z := 12.
Definition MIN_REQTIME_DELTA : double := dec 250 3.
Definition MIN_BACKGROUND_DELTA : double := dec 5 3.
Definition DEBUG_QUEUE_SENT : nat := 100.
Definition DEBUG_QUEUE_RECEIVE : nat := 100.
Definition BACKGROUND_PRIORITY_CLOCK : Z := 0x7fffffff00000000.
Definition INPUT_BUF_SIZE : Z := 4096.

(** ** Data *)

(** The union of struct queue_message. *)
Inductive qm_union :=
| Clocks (min_clock req_clock : Z)
| Times (sent_time receive_time : double).
Record message := mk_msg { m_qm : queue_message; m_union : qm_union; m_notify_id : Z }.
#[export] Instance eta_message : Eta message := λ r, mk_msg (m_qm r) (m_union r) (m_notify_id r).

Definition m_len (m : message) : Z := qm_len (m_qm m).
(** [memcpy(.., qm->msg, qm->len)]. *)
Definition m_bytes (m : message) : list Z := take (Z.to_nat (m_len m)) (qm_msg (m_qm m)).
(** Reading one member of the union after the other was written has no meaning. *)
Definition m_min_clock (m : message) : option Z :=
  match m_union m with Clocks c _ => Some c | Times _ _ => None end.
Definition m_req_clock (m : message) : option Z :=
  match m_union m with Clocks _ c => Some c | Times _ _ => None end.
Definition m_receive_time (m : message) : option double :=
  match m_union m with Clocks _ _ => None | Times _ t => Some t end.

(** A message just allocated, with its clocks. *)
Definition queued (qm : queue_message) (min_clock req_clock notify_id : Z) : message :=
  mk_msg qm (Clocks min_clock req_clock) notify_id.

Record command_queue := mk_cq { cq_upcoming : list message; cq_ready : list message }.
#[export] Instance eta_command_queue : Eta command_queue := λ r, mk_cq (cq_upcoming r) (cq_ready r).
Definition cq_is_empty (cq : command_queue) : bool :=
  match cq_ready cq, cq_upcoming cq with [], [] => true | _, _ => false end.

(** A struct fastreader is known by its address; the prefix holds [prefix_len] bytes. *)
Record fastreader := mk_fr { fr_addr : Z; fr_prefix : list Z }.

(** What a [write] on the serial file descriptor sends. *)
Inductive wire_write := WSerial (data : list Z) | WCan (can_id : Z) (data : list Z).

(** struct serialqueue.  [sq_input] is [input_buf] up to [input_pos]; [sq_cqs] has the command
    queues by address; [sq_pipe] counts the bytes in the pipe, [sq_calls] the system calls made
    so far, and [sq_wire] lists what was written. *)
Record serialqueue := mk_sq
  { sq_pr : pollreactor; sq_fd_type : Z; sq_client_id : Z; sq_input : list Z; sq_need_sync : Z;
    sq_receive_waiting : bool; sq_receive_window : Z; sq_bittime_adjust : double;
    sq_idle_time : double; sq_ce : clock_estimate; sq_last_receive_sent_time : double;
    sq_send_seq : Z; sq_receive_seq : Z; sq_ignore_nak_seq : Z; sq_last_ack_seq : Z;
    sq_retransmit_seq : Z; sq_rtt_sample_seq : Z; sq_sent_queue : list message;
    sq_srtt : double; sq_rttvar : double; sq_rto : double;
    sq_cqs : gmap Z command_queue; sq_pending_queues : list Z;
    sq_ready_bytes : Z; sq_upcoming_bytes : Z; sq_need_ack_bytes : Z; sq_last_ack_bytes : Z;
    sq_need_kick_clock : Z; sq_notify_queue : list message; sq_receive_queue : list message;
    sq_fast_readers : list fastreader; sq_old_sent : list message; sq_old_receive : list message;
    sq_bytes_write : Z; sq_bytes_read : Z; sq_bytes_retransmit : Z; sq_bytes_invalid : Z;
    sq_pipe : Z; sq_calls : nat; sq_wire : list wire_write }.
#[export] Instance eta_serialqueue : Eta serialqueue := λ r,
  mk_sq (sq_pr r) (sq_fd_type r) (sq_client_id r) (sq_input r) (sq_need_sync r)
    (sq_receive_waiting r) (sq_receive_window r) (sq_bittime_adjust r)
    (sq_idle_time r) (sq_ce r) (sq_last_receive_sent_time r)
    (sq_send_seq r) (sq_receive_seq r) (sq_ignore_nak_seq r) (sq_last_ack_seq r)
    (sq_retransmit_seq r) (sq_rtt_sample_seq r) (sq_sent_queue r)
    (sq_srtt r) (sq_rttvar r) (sq_rto r)
    (sq_cqs r) (sq_pending_queues r)
    (sq_ready_bytes r) (sq_upcoming_bytes r) (sq_need_ack_bytes r) (sq_last_ack_bytes r)
    (sq_need_kick_clock r) (sq_notify_queue r) (sq_receive_queue r)
    (sq_fast_readers r) (sq_old_sent r) (sq_old_receive r)
    (sq_bytes_write r) (sq_bytes_read r) (sq_bytes_retransmit r) (sq_bytes_invalid r)
    (sq_pipe r) (sq_calls r) (sq_wire r).

Abbreviation SQ := (M serialqueue).

(** An [int] result: overflow is undefined. *)
Definition int32 {S} (x : Z) : M S Z := if in_int32 x then mret x else undef.
Definition set_timer (pos : nat) (waketime : double) : SQ unit :=
  modify (upd sq_pr (λ r, pollreactor_update_timer r pos waketime)).

(** ** Helpers *)

Definition debug_queue_alloc (root : list message) (count : nat) : list message :=
  replicate count (queued message_alloc 0 0 0) ++ root.
(** The oldest message is freed. *)
Definition debug_queue_add (root : list message) (qm : message) : list message :=
  drop 1 (root ++ [qm]).

Definition check_wake_receive : SQ unit :=
  modify (λ sq, if sq_receive_waiting sq then sq <| sq_receive_waiting := false |> else sq).

Definition kick_bg_thread : SQ unit := modify (upd sq_pipe (Z.add 1)).

Definition CANBUS_PACKET_BITS : Z := (1 + 11 + 3 + 4) + (16 + 2 + 7 + 3).
Definition CANBUS_IFS_BITS : Z := 4.

Definition calculate_bittime (sq : serialqueue) (bytes : Z) : double :=
  if sq_fd_type sq =? SQT_CAN then
    let pkts := u32 (DIV_ROUND_UP bytes 8) in
    let bits := u32 (bytes * 8 + pkts * CANBUS_PACKET_BITS - CANBUS_IFS_BITS) in
    dmul (sq_bittime_adjust sq) (dint bits)
  else dmul (sq_bittime_adjust sq) (dint bytes).

(** ** Acknowledgements *)

(** The loop of [update_receive_seq] over the sent queue. *)
Fixpoint ack_loop (sent : list message) (rseq sent_seq : Z) : SQ unit :=
  match sent with
  | [] => modify (λ sq, sq <| sq_send_seq := rseq |> <| sq_last_receive_sent_time := dint 0 |>)
  | m :: sent =>
      let! sq := get in
      let! n := int32 (sq_need_ack_bytes sq - m_len m) in
      modify (λ sq, sq <| sq_need_ack_bytes := n |> <| sq_sent_queue := sent |>
                       <| sq_old_sent := debug_queue_add (sq_old_sent sq) m |>);;;
      let sent_seq := u64 (sent_seq + 1) in
      if rseq =? sent_seq then
        let! t := deref (m_receive_time m) in
        modify (λ sq, sq <| sq_last_receive_sent_time := t |> <| sq_last_ack_bytes := m_len m |>)
      else ack_loop sent rseq sent_seq
  end.

(** The estimate of the round trip time. *)
Definition update_rtt (eventtime : double) (sq : serialqueue) : serialqueue :=
  let delta := dsub eventtime (sq_last_receive_sent_time sq) in
  let '(rttvar, srtt) :=
    if negb (dnz (sq_srtt sq)) then (ddiv delta (dint 2), dmul delta (dint 10))
    else (ddiv (dadd (dmul (dint 3) (sq_rttvar sq)) (dabs (dsub (sq_srtt sq) delta))) (dint 4),
          ddiv (dadd (dmul (dint 7) (sq_srtt sq)) delta) (dint 8)) in
  let rttvar4 := dmul rttvar (dint 4) in
  let rttvar4 := if dlt rttvar4 (dec 1 3) then dec 1 3 else rttvar4 in
  let rto := dadd srtt rttvar4 in
  let rto := if dlt rto MIN_RTO then MIN_RTO else if dlt MAX_RTO rto then MAX_RTO else rto in
  sq <| sq_rttvar := rttvar |> <| sq_srtt := srtt |> <| sq_rto := rto |> <| sq_rtt_sample_seq := 0 |>.

Definition update_receive_seq (eventtime : double) (rseq : Z) : SQ unit :=
  let! sq := get in
  ack_loop (sq_sent_queue sq) rseq (sq_receive_seq sq);;;
  modify (λ sq, sq <| sq_receive_seq := rseq |>);;;
  set_timer SQPT_COMMAND PR_NOW;;;
  let! sq := get in
  (when nz (sq_rtt_sample_seq sq) && (sq_rtt_sample_seq sq <? rseq) && dnz (sq_last_receive_sent_time sq) do
     modify (update_rtt eventtime));;;
  let! sq := get in
  match sq_sent_queue sq with
  | [] => set_timer SQPT_RETRANSMIT PR_NEVER
  | sent :: _ =>
      let nr := dadd (dadd eventtime (sq_rto sq)) (calculate_bittime sq (m_len sent)) in
      set_timer SQPT_RETRANSMIT nr
  end.

Definition handle_rseq (receive_seq seq_byte : Z) : Z :=
  Z.lor (Z.land receive_seq (Z.lnot MESSAGE_SEQ_MASK)) (Z.land seq_byte MESSAGE_SEQ_MASK).

(** The loop over the notify queue; the flag is [must_wake]. *)
Fixpoint notify_loop (notify : list message) (wake_seq : Z) (eventtime : double) (must_wake : bool) : SQ bool :=
  match notify with
  | [] => mret must_wake
  | qm :: notify =>
      let! seq := deref (m_req_clock qm) in
      if wake_seq <? seq then mret must_wake
      else
        modify (λ sq, sq <| sq_notify_queue := notify |>
                  <| sq_receive_queue := sq_receive_queue sq ++
                       [mk_msg (mk_qm 0 (qm_msg (m_qm qm)))
                               (Times (sq_last_receive_sent_time sq) eventtime) (m_notify_id qm)] |>);;;
        notify_loop notify wake_seq eventtime true
  end.

(** The first registered reader whose prefix the message in [buf] starts with. *)
Definition find_fastreader (readers : list fastreader) (buf : list Z) (len : Z) : option fastreader :=
  snd <$> list_find (λ fr, Z.of_nat (length (fr_prefix fr)) + MESSAGE_MIN ≤ len ∧
    take (length (fr_prefix fr)) (drop (Z.to_nat MESSAGE_HEADER_SIZE) buf) = fr_prefix fr) readers.

Section os.
Context `{OS : HostOS}.

Definition get_monotonic : SQ double :=
  let! sq := get in
  modify (λ sq, sq <| sq_calls := S (sq_calls sq) |>);;;
  mret (os_monotonic (sq_calls sq)).

(** What becomes of the message itself; the result is the new [must_wake]. *)
Definition process_message (rseq len : Z) (must_wake : bool) : SQ bool :=
  let! sq := get in
  if len =? MESSAGE_MIN then
    (if sq_last_ack_seq sq <? rseq then modify (λ sq, sq <| sq_last_ack_seq := rseq |>)
     else if (sq_ignore_nak_seq sq <? rseq) && negb (bool_decide (sq_sent_queue sq = []))
     then set_timer SQPT_RETRANSMIT PR_NOW
     else mret tt);;;
    mret must_wake
  else
    let! qm := deref (message_fill (take (Z.to_nat len) (sq_input sq))) in
    let sent_time := if sq_retransmit_seq sq <? rseq then sq_last_receive_sent_time sq else dint 0 in
    let! now := get_monotonic in
    let receive_time := dsub now (calculate_bittime sq len) in
    modify (λ sq, sq <| sq_receive_queue := sq_receive_queue sq ++ [mk_msg qm (Times sent_time receive_time) 0] |>);;;
    mret true.

(** [handle_message]: the fastreader whose callback is then invoked without the lock. *)
Definition handle_message (eventtime : double) (len : Z) : SQ (option fastreader) :=
  let! sq := get in
  let! seq_byte := deref (sq_input sq !! Z.to_nat MESSAGE_POS_SEQ) in
  let rseq := handle_rseq (sq_receive_seq sq) seq_byte in
  let rseq := if rseq <? sq_receive_seq sq then u64 (rseq + (MESSAGE_SEQ_MASK + 1)) else rseq in
  if negb (rseq =? sq_receive_seq sq) && (sq_send_seq sq <? rseq) && negb (sq_receive_seq sq =? 1) then
    modify (upd sq_bytes_invalid (λ n, u32 (n + len)));;;
    mret None
  else
    (when negb (rseq =? sq_receive_seq sq) do update_receive_seq eventtime rseq);;;
    modify (upd sq_bytes_read (λ n, u32 (n + len)));;;
    let! sq := get in
    let wake_seq := u64 (rseq - 1 - (if MESSAGE_MIN <? len then 1 else 0)) in
    let! must_wake := notify_loop (sq_notify_queue sq) wake_seq eventtime false in
    let! must_wake := process_message rseq len must_wake in
    (when must_wake do check_wake_receive);;;
    let! sq := get in
    mret (find_fastreader (sq_fast_readers sq) (sq_input sq) len).

(** ** Input *)

Inductive read_result := ReadError | ReadData (data : list Z) | ReadCan (can_id : Z) (data : list Z).

(** The [read] of [input_event]; the flag tells that there is new input.  [ReadData []] is the
    end of the file. *)
Definition read_input (r : read_result) : SQ bool :=
  let! sq := get in
  match r with
  | ReadError | ReadData [] =>
      modify (upd sq_pr pollreactor_do_exit);;;
      mret false
  | ReadCan can_id data =>
      if negb (can_id =? sq_client_id sq + 1) then mret false
      else if INPUT_BUF_SIZE <? Z.of_nat (length (sq_input sq) + length data) then undef
      else
        modify (λ sq, sq <| sq_input := sq_input sq ++ data |>);;;
        mret true
  | ReadData data =>
      modify (λ sq, sq <| sq_input := sq_input sq ++ data |>);;;
      mret true
  end.

(** One round of the loop of [input_event] up to the callback: [None] when more data is
    needed, else the length consumed and the callback to run. *)
Definition input_round (eventtime : double) : SQ (option (Z * option fastreader)) :=
  let! sq := get in
  let! '(len, need_sync) := deref (msgblock_check (sq_need_sync sq) (sq_input sq)) in
  modify (λ sq, sq <| sq_need_sync := need_sync |>);;;
  if len =? 0 then mret None
  else if 0 <? len then
    let! fr := handle_message eventtime len in
    mret (Some (len, fr))
  else
    modify (upd sq_bytes_invalid (λ n, u32 (n - len)));;;
    mret (Some (- len, None)).
Definition consume_input (len : Z) : SQ unit :=
  modify (λ sq, sq <| sq_input := drop (Z.to_nat len) (sq_input sq) |>).

Section input.
(** The state of the program, the queue in it, and the callbacks of the fastreaders. *)
Context {S : Type} (on_queue : ∀ A, SQ A → M S A) (call : fastreader → list Z → Z → M S unit).

#[local] Arguments on_queue {A} _.
Fixpoint input_loop (fuel : nat) (eventtime : double) : M S unit :=
  match fuel with
  | O => diverge
  | Datatypes.S fuel =>
      let! r := on_queue (input_round eventtime) in
      match r with
      | None => mret tt
      | Some (len, fr) =>
          let! buf := on_queue (gets sq_input) in
          (match fr with Some fr => call fr buf len | None => mret tt end);;;
          on_queue (consume_input len);;;
          input_loop fuel eventtime
      end
  end.
(** Every round consumes a byte at least. *)
Definition input_event (r : read_result) (eventtime : double) : M S unit :=
  let! more := on_queue (read_input r) in
  if (more : bool) then
    let! buf := on_queue (gets sq_input) in
    input_loop (Datatypes.S (length buf)) eventtime
  else mret tt.
End input.

Definition kick_event (eventtime : double) : SQ unit :=
  modify (upd sq_pipe (λ n, Z.max 0 (n - 4096)));;;
  set_timer SQPT_COMMAND PR_NOW.

(** ** Output *)

(** A [write] that the system refuses sends nothing.  What the device loses of a write that it
    accepts is up to the link. *)
Definition sys_write (w : wire_write) : SQ bool :=
  let! sq := get in
  let ok := os_write (sq_calls sq) in
  modify (λ sq, sq <| sq_calls := S (sq_calls sq) |>
                   <| sq_wire := if ok then sq_wire sq ++ [w] else sq_wire sq |>);;;
  mret ok.

(** The loop of [do_write] over CAN frames; [fuel] is the number of bytes. *)
Fixpoint can_write (fuel : nat) (client_id : Z) (buf : list Z) : SQ unit :=
  match buf, fuel with
  | [], _ => mret tt
  | _, O => diverge
  | _, S fuel =>
      let size := if (8 <? length buf)%nat then 8%nat else length buf in
      let! ok := sys_write (WCan client_id (take size buf)) in
      if (ok : bool) then can_write fuel client_id (drop size buf) else mret tt
  end.

Definition do_write (buf : list Z) : SQ unit :=
  let! sq := get in
  if negb (sq_fd_type sq =? SQT_CAN) then
    let! ok := sys_write (WSerial buf) in
    mret tt
  else can_write (length buf) (sq_client_id sq) buf.

(** A buffer of [size] bytes on the stack holds what was put into it. *)
Definition fits (size : Z) (buf : list Z) : SQ unit :=
  if Z.of_nat (length buf) <=? size then mret tt else undef.

Definition RETRANSMIT_BUF_SIZE : Z := MESSAGE_MAX * MAX_PENDING_BLOCKS + 1.
Definition COMMAND_BUF_SIZE : Z := MESSAGE_MAX * MAX_PENDING_BLOCKS.

(** The loop of [retransmit_event] over the sent queue. *)
Fixpoint retransmit_loop (sent : list message) (buf : list Z) (first_buflen : Z) : SQ (list Z * Z) :=
  match sent with
  | [] => mret (buf, first_buflen)
  | qm :: sent =>
      let buf := buf ++ m_bytes qm in
      fits RETRANSMIT_BUF_SIZE buf;;;
      retransmit_loop sent buf (if nz first_buflen then first_buflen else m_len qm + 1)
  end.

(** [tcflush] drops output that the device did not send yet: the link. *)
Definition retransmit_event (eventtime : double) : SQ double :=
  let! sq := get in
  let! '(buf, first_buflen) := retransmit_loop (sq_sent_queue sq) [MESSAGE_SYNC] 0 in
  let buflen := Z.of_nat (length buf) in
  do_write buf;;;
  modify (upd sq_bytes_retransmit (λ n, u32 (n + buflen)));;;
  let! sq := get in
  let! t := deref (pollreactor_get_timer (sq_pr sq) SQPT_RETRANSMIT) in
  (if deq t PR_NOW then
     modify (λ sq, sq <| sq_ignore_nak_seq :=
       if sq_receive_seq sq <? sq_retransmit_seq sq then sq_retransmit_seq sq else sq_receive_seq sq |>)
   else
     modify (λ sq,
       let rto := dmul (sq_rto sq) (dint 2) in
       sq <| sq_rto := if dlt MAX_RTO rto then MAX_RTO else rto |>
          <| sq_ignore_nak_seq := sq_send_seq sq |>));;;
  modify (λ sq, sq <| sq_retransmit_seq := sq_send_seq sq |> <| sq_rtt_sample_seq := 0 |>
                   <| sq_idle_time := dadd eventtime (calculate_bittime sq buflen) |>);;;
  let! sq := get in
  mret (dadd (dadd eventtime (sq_rto sq)) (calculate_bittime sq first_buflen)).

(** The search for the ready message with the lowest [req_clock]: the queue it is in. *)
Fixpoint find_ready (pending : list Z) (min_clock : Z) (best : option (Z * message)) : SQ (option (Z * message)) :=
  match pending with
  | [] => mret best
  | q :: pending =>
      let! sq := get in
      let! cq := deref (sq_cqs sq !! q) in
      match cq_ready cq with
      | [] => find_ready pending min_clock best
      | m :: _ =>
          let! req_clock := deref (m_req_clock m) in
          if req_clock <? min_clock then find_ready pending req_clock (Some (q, m))
          else find_ready pending min_clock best
      end
  end.

(** Take the first ready message [qm] off the queue [q]. *)
Definition take_ready (q : Z) (qm : message) : SQ unit :=
  let! sq := get in
  let! cq := deref (sq_cqs sq !! q) in
  let cq := cq <| cq_ready := drop 1 (cq_ready cq) |> in
  let! ready_bytes := int32 (sq_ready_bytes sq - m_len qm) in
  modify (λ sq, sq <| sq_cqs := <[q := cq]> (sq_cqs sq) |>
                   <| sq_pending_queues := if cq_is_empty cq
                        then filter (λ i, i ≠ q) (sq_pending_queues sq) else sq_pending_queues sq |>
                   <| sq_ready_bytes := ready_bytes |>
                   <| sq_notify_queue := if nz (m_notify_id qm)
                        then sq_notify_queue sq ++
                          [qm <| m_union := Clocks (default 0 (m_min_clock qm)) (sq_send_seq sq) |>]
                        else sq_notify_queue sq |>).

(** The loop of [build_and_send_command]: the payload of the block. *)
Fixpoint build_loop (fuel : nat) (payload : list Z) : SQ (list Z) :=
  let! sq := get in
  if sq_ready_bytes sq =? 0 then mret payload
  else
    match fuel with
    | O => diverge
    | S fuel =>
        let! best := find_ready (sq_pending_queues sq) MAX_CLOCK None in
        let! '(q, qm) := deref best in
        if MESSAGE_MAX - MESSAGE_TRAILER_SIZE <? MESSAGE_HEADER_SIZE + Z.of_nat (length payload) + m_len qm
        then mret payload
        else
          take_ready q qm;;;
          build_loop fuel (payload ++ m_bytes qm)
    end.

(** All messages on the command queues. *)
Definition queued_messages (sq : serialqueue) : list message :=
  flat_map (λ q, match sq_cqs sq !! q with Some cq => cq_ready cq ++ cq_upcoming cq | None => [] end)
    (sq_pending_queues sq).

(** The header and the trailer around the payload. *)
Definition build_block (send_seq : Z) (payload : list Z) : list Z :=
  let len := MESSAGE_HEADER_SIZE + Z.of_nat (length payload) + MESSAGE_TRAILER_SIZE in
  let head := [u8 len; u8 (Z.lor MESSAGE_DEST (Z.land send_seq MESSAGE_SEQ_MASK))] ++ payload in
  let crc := msgblock_crc16_ccitt head (len - MESSAGE_TRAILER_SIZE) in
  head ++ [u8 (Z.shiftr crc 8); u8 (Z.land crc 0xff); MESSAGE_SYNC].

Definition latest (eventtime idle_time : double) : double :=
  if dlt idle_time eventtime then eventtime else idle_time.

Definition build_and_send_command (pending : Z) (eventtime : double) : SQ (list Z) :=
  let! sq := get in
  let! payload := build_loop (S (length (queued_messages sq))) [] in
  let! sq := get in
  let block := build_block (sq_send_seq sq) payload in
  let len := Z.of_nat (length block) in
  let idletime := dadd (latest eventtime (sq_idle_time sq)) (calculate_bittime sq (pending + len)) in
  let! out := deref (message_fill block) in
  (when bool_decide (sq_sent_queue sq = []) do
     set_timer SQPT_RETRANSMIT (dadd idletime (sq_rto sq)));;;
  let! need_ack_bytes := int32 (sq_need_ack_bytes sq + len) in
  modify (λ sq, sq <| sq_rtt_sample_seq := if nz (sq_rtt_sample_seq sq) then sq_rtt_sample_seq sq else sq_send_seq sq |>
                   <| sq_send_seq := u64 (sq_send_seq sq + 1) |>
                   <| sq_need_ack_bytes := need_ack_bytes |>
                   <| sq_sent_queue := sq_sent_queue sq ++ [mk_msg out (Times eventtime idletime) 0] |>);;;
  mret block.

(** The messages of the upcoming queue of [q] whose time has come are ready; the result is
    the new [min_stalled_clock]. *)
Fixpoint move_ready (q : Z) (upcoming : list message) (ack_clock min_stalled_clock : Z) : SQ Z :=
  match upcoming with
  | [] => mret min_stalled_clock
  | qm :: upcoming =>
      let! min_clock := deref (m_min_clock qm) in
      if ack_clock <? min_clock then
        mret (if min_clock <? min_stalled_clock then min_clock else min_stalled_clock)
      else
        let! sq := get in
        let! upcoming_bytes := int32 (sq_upcoming_bytes sq - m_len qm) in
        let! ready_bytes := int32 (sq_ready_bytes sq + m_len qm) in
        modify (λ sq, sq <| sq_cqs := alter (λ cq, mk_cq upcoming (cq_ready cq ++ [qm])) q (sq_cqs sq) |>
                         <| sq_upcoming_bytes := upcoming_bytes |> <| sq_ready_bytes := ready_bytes |>);;;
        move_ready q upcoming ack_clock min_stalled_clock
  end.

(** The loop of [check_send_command] over the queues: the new [min_stalled_clock] and
    [min_ready_clock]. *)
Fixpoint check_queues (queues : list Z) (ack_clock : Z) (bgtime : double)
    (min_stalled_clock min_ready_clock : Z) : SQ (Z * Z) :=
  match queues with
  | [] => mret (min_stalled_clock, min_ready_clock)
  | q :: queues =>
      let! sq := get in
      let! cq := deref (sq_cqs sq !! q) in
      let! min_stalled_clock := move_ready q (cq_upcoming cq) ack_clock min_stalled_clock in
      let! sq := get in
      let! cq := deref (sq_cqs sq !! q) in
      match cq_ready cq with
      | [] => check_queues queues ack_clock bgtime min_stalled_clock min_ready_clock
      | qm :: _ =>
          let! req_clock := deref (m_req_clock qm) in
          let req_clock :=
            if req_clock =? BACKGROUND_PRIORITY_CLOCK
            then clock_from_time (sq_ce sq) (dadd bgtime (dadd MIN_REQTIME_DELTA MIN_BACKGROUND_DELTA))
            else req_clock in
          check_queues queues ack_clock bgtime min_stalled_clock
            (if req_clock <? min_ready_clock then req_clock else min_ready_clock)
      end
  end.

(** The two tests at the start of [check_send_command]. *)
Definition window_full (sq : serialqueue) : bool :=
  (MAX_PENDING_BLOCKS <=? u64 (sq_send_seq sq - sq_receive_seq sq)) && negb (sq_receive_seq sq =? 2 ^ 64 - 1)
  || (sq_receive_seq sq <? sq_send_seq sq) && nz (sq_receive_window sq) &&
     (sq_receive_window sq <? sq_need_ack_bytes sq + MESSAGE_MAX +
        (if sq_last_ack_seq sq <? sq_receive_seq sq then sq_last_ack_bytes sq else 0)).

Definition check_send_command (pending : Z) (eventtime : double) : SQ double :=
  let! sq := get in
  if window_full sq then mret PR_NEVER
  else
    let idletime := dadd (latest eventtime (sq_idle_time sq)) (calculate_bittime sq (pending + MESSAGE_MIN)) in
    let ack_clock := clock_from_time (sq_ce sq) idletime in
    let bgtime := if nz pending then idletime else sq_idle_time sq in
    let! '(min_stalled_clock, min_ready_clock) :=
      check_queues (sq_pending_queues sq) ack_clock bgtime MAX_CLOCK MAX_CLOCK in
    let! sq := get in
    if MESSAGE_PAYLOAD_MAX <=? sq_ready_bytes sq then mret PR_NOW
    else if negb (dnz (ce_est_freq (sq_ce sq))) then
      if nz (sq_ready_bytes sq) then mret PR_NOW
      else
        modify (λ sq, sq <| sq_need_kick_clock := MAX_CLOCK |>);;;
        mret PR_NEVER
    else
      let reqclock_delta := to_uint64 (dmul MIN_REQTIME_DELTA (ce_est_freq (sq_ce sq))) in
      if min_ready_clock <=? u64 (ack_clock + reqclock_delta) then mret PR_NOW
      else
        let wantclock := u64 (min_ready_clock - reqclock_delta) in
        let wantclock := if min_stalled_clock <? wantclock then min_stalled_clock else wantclock in
        modify (λ sq, sq <| sq_need_kick_clock := wantclock |>);;;
        mret (dadd idletime (ddiv (dint (u64 (wantclock - ack_clock))) (ce_est_freq (sq_ce sq)))).

(** Write the blocks collected in [buf]. *)
Definition flush_blocks (buf : list Z) (eventtime : double) : SQ (list Z) :=
  if bool_decide (buf = []) then mret buf
  else
    let buflen := Z.of_nat (length buf) in
    do_write buf;;;
    modify (λ sq, sq <| sq_bytes_write := u32 (sq_bytes_write sq + buflen) |>
                     <| sq_idle_time := dadd (latest eventtime (sq_idle_time sq)) (calculate_bittime sq buflen) |>);;;
    mret [].

Fixpoint command_loop (fuel : nat) (buf : list Z) (eventtime : double) : SQ double :=
  match fuel with
  | O => diverge
  | S fuel =>
      let! waketime := check_send_command (Z.of_nat (length buf)) eventtime in
      let now := deq waketime PR_NOW in
      let! buf :=
        (if negb now || (COMMAND_BUF_SIZE <? Z.of_nat (length buf) + MESSAGE_MAX)
         then flush_blocks buf eventtime else mret buf) in
      if negb now then mret waketime
      else
        let! block := build_and_send_command (Z.of_nat (length buf)) eventtime in
        fits COMMAND_BUF_SIZE (buf ++ block);;;
        command_loop fuel (buf ++ block) eventtime
  end.

(** At most [MAX_PENDING_BLOCKS] blocks are sent, or with a debug file, where nothing is
    acknowledged, a block for every message. *)
Definition command_event (eventtime : double) : SQ double :=
  let! sq := get in
  command_loop (Z.to_nat MAX_PENDING_BLOCKS + 2 + length (queued_messages sq)) [] eventtime.
End os.

(** ** Interface *)

(** Failures of [pipe] and of the thread library apart. *)
Definition serialqueue_alloc (serial_fd_type client_id : Z) : serialqueue :=
  let pr := pollreactor_add_timer (pollreactor_add_timer (pollreactor_alloc SQPT_NUM) SQPT_RETRANSMIT) SQPT_COMMAND in
  let debugfile := serial_fd_type =? SQT_DEBUGFILE in
  let zero := dint 0 in
  mk_sq pr serial_fd_type client_id [] 0 false 0 zero zero (mk_ce 0 0 zero zero) zero
    1 (if debugfile then 2 ^ 64 - 1 else 1) 0 0 0 0 [] zero zero (if debugfile then PR_NEVER else MIN_RTO)
    ∅ [] 0 0 0 0 MAX_CLOCK [] [] []
    (debug_queue_alloc [] DEBUG_QUEUE_SENT) (debug_queue_alloc [] DEBUG_QUEUE_RECEIVE)
    0 0 0 0 0 0 [].

(** [background_thread] after the reactor has ended. *)
Definition background_thread_exit : SQ unit := check_wake_receive.

Definition serialqueue_exit : SQ unit :=
  modify (upd sq_pr pollreactor_do_exit);;;
  kick_bg_thread.

Definition serialqueue_alloc_commandqueue (addr : Z) : SQ unit :=
  modify (λ sq, sq <| sq_cqs := <[addr := mk_cq [] []]> (sq_cqs sq) |>).

(** The result tells whether the queue was freed. *)
Definition serialqueue_free_commandqueue (addr : Z) : SQ bool :=
  let! sq := get in
  let! cq := deref (sq_cqs sq !! addr) in
  if negb (cq_is_empty cq) then mret false
  else
    modify (λ sq, sq <| sq_cqs := delete addr (sq_cqs sq) |>);;;
    mret true.

Definition serialqueue_add_fastreader (fr : fastreader) : SQ unit :=
  modify (λ sq, sq <| sq_fast_readers := sq_fast_readers sq ++ [fr] |>).
Definition serialqueue_rm_fastreader (addr : Z) : SQ unit :=
  modify (λ sq, sq <| sq_fast_readers := filter (λ fr, fr_addr fr ≠ addr) (sq_fast_readers sq) |>).

(** The first loop of [serialqueue_send_batch]: the messages with [min_clock] set, and their
    total length. *)
Fixpoint prepare_batch (msgs : list message) (len : Z) : SQ (list message * Z) :=
  match msgs with
  | [] => mret ([], len)
  | qm :: msgs =>
      let! min_clock := deref (m_min_clock qm) in
      let! req_clock := deref (m_req_clock qm) in
      let min_clock := if (u64 (min_clock + 2 ^ 31) <? req_clock) && negb (req_clock =? BACKGROUND_PRIORITY_CLOCK)
                       then u64 (req_clock - 2 ^ 31) else min_clock in
      let! len := int32 (len + m_len qm) in
      let! '(msgs, len) := prepare_batch msgs len in
      mret (qm <| m_union := Clocks min_clock req_clock |> :: msgs, len)
  end.

Definition serialqueue_send_batch (q : Z) (msgs : list message) : SQ unit :=
  let! '(msgs, len) := prepare_batch msgs 0 in
  if len =? 0 then mret tt
  else
    let! qm := deref (head msgs) in
    let! first_clock := deref (m_min_clock qm) in
    let! sq := get in
    let! cq := deref (sq_cqs sq !! q) in
    let! upcoming_bytes := int32 (sq_upcoming_bytes sq + len) in
    modify (λ sq, sq <| sq_pending_queues := if cq_is_empty cq
                          then sq_pending_queues sq ++ [q] else sq_pending_queues sq |>
                     <| sq_cqs := <[q := cq <| cq_upcoming := cq_upcoming cq ++ msgs |>]> (sq_cqs sq) |>
                     <| sq_upcoming_bytes := upcoming_bytes |>);;;
    when first_clock <? sq_need_kick_clock sq do
      (modify (λ sq, sq <| sq_need_kick_clock := 0 |>);;;
       kick_bg_thread).

Definition serialqueue_send_one (q : Z) (qm : message) : SQ unit := serialqueue_send_batch q [qm].

Definition serialqueue_send (q : Z) (msg : list Z) (min_clock req_clock notify_id : Z) : SQ unit :=
  let! qm := deref (message_fill msg) in
  serialqueue_send_one q (queued qm min_clock req_clock notify_id).

(** struct pull_queue_message: [pqm_msg] holds [len] bytes. *)
Record pull_queue_message := mk_pqm
  { pqm_msg : list Z; pqm_len : Z; pqm_sent_time : double; pqm_receive_time : double; pqm_notify_id : Z }.

Inductive pull_result := PullWait | PullExit | PullMessage (pqm : pull_queue_message).

Definition to_pull (qm : message) : option pull_queue_message :=
  match m_union qm with
  | Times sent_time receive_time =>
      Some (mk_pqm (m_bytes qm) (m_len qm) sent_time receive_time (m_notify_id qm))
  | Clocks _ _ => None
  end.

(** [serialqueue_pull] up to its return or to [pthread_cond_wait] ([PullWait]), after which it
    starts over. *)
Definition serialqueue_pull : SQ pull_result :=
  let! sq := get in
  match sq_receive_queue sq with
  | [] =>
      if pollreactor_is_exit (sq_pr sq) then mret PullExit
      else
        modify (λ sq, sq <| sq_receive_waiting := true |>);;;
        mret PullWait
  | qm :: rest =>
      let! pqm := deref (to_pull qm) in
      modify (λ sq, sq <| sq_receive_queue := rest |>
                       <| sq_old_receive := if nz (m_len qm) then debug_queue_add (sq_old_receive sq) qm
                                            else sq_old_receive sq |>);;;
      mret (PullMessage pqm)
  end.

Definition serialqueue_set_wire_frequency (frequency : double) : SQ unit :=
  modify (λ sq, sq <| sq_bittime_adjust :=
    if sq_fd_type sq =? SQT_CAN then ddiv (dint 1) frequency else ddiv (dint 10) frequency |>).
Definition serialqueue_set_receive_window (receive_window : Z) : SQ unit :=
  modify (λ sq, sq <| sq_receive_window := receive_window |>).
Definition serialqueue_set_clock_est (est_freq conv_time : double) (conv_clock last_clock : Z) : SQ unit :=
  modify (λ sq, sq <| sq_ce := mk_ce last_clock conv_clock conv_time est_freq |>).
Definition serialqueue_get_clock_est : SQ clock_estimate := gets sq_ce.

(** The walk of [serialqueue_extract_old] over the old debug list: the bytes, [sent_time] and
    [receive_time] of the entries that it fills. *)
Fixpoint extract_loop (current : list message) (max : nat) : option (list (list Z * double * double)) :=
  match current with
  | [] => Some []
  | qm :: current =>
      if nz (m_len qm) && (0 <? max)%nat then
        match m_union qm with
        | Times sent_time receive_time =>
            rest ← extract_loop current (max - 1);
            Some ((m_bytes qm, sent_time, receive_time) :: rest)
        | Clocks _ _ => None
        end
      else extract_loop current max
  end.
Definition serialqueue_extract_old (sentq : bool) (max : nat) : SQ (list (list Z * double * double)) :=
  let! sq := get in
  let current := if sentq then sq_old_sent sq else sq_old_receive sq in
  modify (λ sq, if sentq then sq <| sq_old_sent := debug_queue_alloc [] DEBUG_QUEUE_SENT |>
                else sq <| sq_old_receive := debug_queue_alloc [] DEBUG_QUEUE_RECEIVE |>);;;
  deref (extract_loop current max).
