(* ===== verification/Trdispatch.v ===== *)
(** * klippy/chelper/trdispatch.c: homing with several micro-controllers

    The host watches the trsync objects of several micro-controllers: a report that one has
    triggered is passed on to all of them, and reports that all is well extend the time until
    the others give up.  [handle_trsync_state] is the callback of a fastreader; it runs in the
    thread of the queue that received the report and holds the lock of the [trdispatch], so
    handlers run one after the other. *)

From S2P Require Import Prelude State Vlq Crc Command Double Msgblock StepCompress Pollreactor Serialqueue.

(** struct trdispatch_mcu; queues are named by their address. *)
Record trdispatch_mcu := mk_tdm
  { tdm_fr : fastreader; tdm_sq : Z; tdm_cq : Z;
    tdm_trsync_oid : Z; tdm_set_timeout_msgtag : Z; tdm_trigger_msgtag : Z;
    tdm_last_status_clock : Z; tdm_expire_clock : Z; tdm_expire_ticks : Z; tdm_min_extend_ticks : Z;
    tdm_ce : clock_estimate }.
#[export] Instance eta_trdispatch_mcu : Eta trdispatch_mcu := λ r,
  mk_tdm (tdm_fr r) (tdm_sq r) (tdm_cq r) (tdm_trsync_oid r) (tdm_set_timeout_msgtag r) (tdm_trigger_msgtag r)
    (tdm_last_status_clock r) (tdm_expire_clock r) (tdm_expire_ticks r) (tdm_min_extend_ticks r) (tdm_ce r).

(** struct trdispatch. *)
Record trdispatch := mk_td
  { td_tdm_list : list trdispatch_mcu; td_is_active : Z; td_can_trigger : Z; td_dispatch_reason : Z }.
#[export] Instance eta_trdispatch : Eta trdispatch := λ r,
  mk_td (td_tdm_list r) (td_is_active r) (td_can_trigger r) (td_dispatch_reason r).

(** The serial queues of the host, by address, and the object of one homing group. *)
Record host := mk_host { h_sqs : gmap Z serialqueue; h_td : trdispatch }.
#[export] Instance eta_host : Eta host := λ r, mk_host (h_sqs r) (h_td r).
Abbreviation MH := (M host).

(** A call of serialqueue.c on one of the queues. *)
Definition on_sq (sq_addr : Z) (A : Type) (m : SQ A) : MH A := λ h,
  match h_sqs h !! sq_addr with
  | None => Undef
  | Some sq =>
      match m sq with
      | Ret a sq' => Ret a (h <| h_sqs := <[sq_addr := sq']> (h_sqs h) |>)
      | Shut r sq' => Shut r (h <| h_sqs := <[sq_addr := sq']> (h_sqs h) |>)
      | Undef => Undef
      | Diverge => Diverge
      end
  end.
#[global] Arguments on_sq sq_addr {A} m.

(** The [i]th member of the group. *)
Definition get_tdm (i : nat) : MH trdispatch_mcu :=
  let! h := get in
  deref (td_tdm_list (h_td h) !! i).
Definition upd_tdm (i : nat) (f : trdispatch_mcu → trdispatch_mcu) : MH unit :=
  modify (λ h, h <| h_td; td_tdm_list := alter f i (td_tdm_list (h_td h)) |>).

(** ** Messages *)

Definition send_trsync_trigger (tdm : trdispatch_mcu) : MH unit :=
  let! h := get in
  let msg := [tdm_trigger_msgtag tdm; tdm_trsync_oid tdm; td_dispatch_reason (h_td h)] in
  let! qm := deref (message_alloc_and_encode msg) in
  on_sq (tdm_sq tdm) (serialqueue_send_one (tdm_cq tdm) (mk_msg qm (Clocks 0 0) 0)).

Definition send_trsync_set_timeout (tdm : trdispatch_mcu) : MH unit :=
  let msg := [tdm_set_timeout_msgtag tdm; tdm_trsync_oid tdm; u32 (tdm_expire_clock tdm)] in
  let! qm := deref (message_alloc_and_encode msg) in
  on_sq (tdm_sq tdm) (serialqueue_send_one (tdm_cq tdm) (mk_msg qm (Clocks 0 (tdm_expire_clock tdm)) 0)).

(** ** Reports *)

Fixpoint trigger_loop (ms : list trdispatch_mcu) : MH unit :=
  match ms with
  | [] => mret tt
  | m :: ms => send_trsync_trigger m;;; trigger_loop ms
  end.

Definition status_time (m : trdispatch_mcu) : double := clock_to_time (tdm_ce m) (tdm_last_status_clock m).

(** [min_time], [next_min_time] and [min_tdm] after the loop over the members from number [i]. *)
Fixpoint min_loop (ms : list trdispatch_mcu) (i : nat) (min_time next_min_time : double) (min_tdm : option nat)
    : double * double * option nat :=
  match ms with
  | [] => (min_time, next_min_time, min_tdm)
  | m :: ms =>
      let status_time := status_time m in
      if dlt status_time next_min_time then
        if dlt status_time min_time then min_loop ms (S i) status_time min_time (Some i)
        else min_loop ms (S i) min_time status_time min_tdm
      else min_loop ms (S i) min_time next_min_time min_tdm
  end.

Section os.
Context `{OS : HostOS}.

(** The timeout of member [i].  The comparison is unsigned: [min_extend_ticks] is a uint64_t. *)
Definition extend_timeout (i : nat) (status_time : double) : MH unit :=
  let! m := get_tdm i in
  let expire := u64 (clock_from_time (tdm_ce m) status_time + tdm_expire_ticks m) in
  when tdm_min_extend_ticks m <=? u64 (i64 (expire - tdm_expire_clock m)) do
    (upd_tdm i (λ m, m <| tdm_expire_clock := expire |>);;;
     let! m := get_tdm i in
     send_trsync_set_timeout m).
Fixpoint timeout_loop (n i : nat) (min_time next_min_time : double) (min_tdm : option nat) : MH unit :=
  match n with
  | O => mret tt
  | S n =>
      extend_timeout i (if bool_decide (Some i = min_tdm) then next_min_time else min_time);;;
      timeout_loop n (S i) min_time next_min_time min_tdm
  end.

(** The members' timeouts after a report that all is well. *)
Definition extend_timeouts : MH unit :=
  let! h := get in
  let ms := td_tdm_list (h_td h) in
  let '(min_time, next_min_time, min_tdm) := min_loop ms 0 PR_NEVER PR_NEVER None in
  let next_min_time := if deq next_min_time PR_NEVER then min_time else next_min_time in
  timeout_loop (length ms) 0 min_time next_min_time min_tdm.

(** The callback of member [i]. *)
Definition handle_trsync_state (i : nat) (data : list Z) (len : Z) : MH unit :=
  let! tdm := get_tdm i in
  let! '(ret, fields) := deref (msgblock_decode 5 data len) in
  if nz ret then mret tt
  else
    let! oid := deref (fields !! 1%nat) in
    if negb (oid =? tdm_trsync_oid tdm) then mret tt
    else
      let! can_trigger := deref (fields !! 2%nat) in
      let! clock := deref (fields !! 4%nat) in
      let! h := get in
      if negb (nz (td_can_trigger (h_td h))) then mret tt
      else if negb (nz can_trigger) then
        modify (λ h, h <| h_td; td_can_trigger := 0 |>);;;
        trigger_loop (td_tdm_list (h_td h))
      else
        let! ce := on_sq (tdm_sq tdm) serialqueue_get_clock_est in
        upd_tdm i (λ tdm, tdm <| tdm_ce := ce |>
                              <| tdm_last_status_clock := clock_from_clock32 (ce_last_clock ce) clock |>);;;
        extend_timeouts.

(** ** The interface *)

Fixpoint add_readers (ms : list trdispatch_mcu) : MH unit :=
  match ms with
  | [] => mret tt
  | m :: ms => on_sq (tdm_sq m) (serialqueue_add_fastreader (tdm_fr m));;; add_readers ms
  end.
Definition trdispatch_start (dispatch_reason : Z) : MH unit :=
  let! h := get in
  if nz (td_is_active (h_td h)) || bool_decide (td_tdm_list (h_td h) = []) then mret tt
  else
    modify (λ h, h <| h_td; td_dispatch_reason := dispatch_reason |>
                   <| h_td; td_is_active := 1 |> <| h_td; td_can_trigger := 1 |>);;;
    add_readers (td_tdm_list (h_td h)).

Fixpoint rm_readers (ms : list trdispatch_mcu) : MH unit :=
  match ms with
  | [] => mret tt
  | m :: ms => on_sq (tdm_sq m) (serialqueue_rm_fastreader (fr_addr (tdm_fr m)));;; rm_readers ms
  end.
Definition trdispatch_stop : MH unit :=
  let! h := get in
  if negb (nz (td_is_active (h_td h))) then mret tt
  else
    modify (λ h, h <| h_td; td_is_active := 0 |>);;;
    rm_readers (td_tdm_list (h_td h)).

Definition trdispatch_alloc : trdispatch := mk_td [] 0 0 0.

(** [fr_addr] is the address of the new object's fastreader. *)
Definition trdispatch_mcu_alloc (fr_addr sq cq trsync_oid set_timeout_msgtag trigger_msgtag state_msgtag : Z) : MH unit :=
  let! dummy := deref (message_alloc_and_encode [state_msgtag; trsync_oid]) in
  let fr := mk_fr fr_addr (take (Z.to_nat (qm_len dummy)) (qm_msg dummy)) in
  let tdm := mk_tdm fr sq cq trsync_oid set_timeout_msgtag trigger_msgtag 0 0 0 0 (mk_ce 0 0 (dint 0) (dint 0)) in
  modify (λ h, h <| h_td; td_tdm_list := td_tdm_list (h_td h) ++ [tdm] |>).

Definition trdispatch_mcu_setup (i : nat) (last_status_clock expire_clock expire_ticks min_extend_ticks : Z) : MH unit :=
  let! tdm := get_tdm i in
  let! ce := on_sq (tdm_sq tdm) serialqueue_get_clock_est in
  upd_tdm i (λ tdm, tdm <| tdm_last_status_clock := last_status_clock |> <| tdm_expire_clock := expire_clock |>
                        <| tdm_expire_ticks := expire_ticks |> <| tdm_min_extend_ticks := min_extend_ticks |>
                        <| tdm_ce := ce |>).

(** The callback that a fastreader names. *)
Definition call_reader (fr : fastreader) (data : list Z) (len : Z) : MH unit :=
  let! h := get in
  match list_find (λ m, fr_addr (tdm_fr m) = fr_addr fr) (td_tdm_list (h_td h)) with
  | Some (i, _) => handle_trsync_state i data len
  | None => mret tt
  end.
(** Input on one of the queues. *)
Definition host_input (sq_addr : Z) (r : read_result) (eventtime : double) : MH unit :=
  input_event (λ A, on_sq sq_addr (A := A)) call_reader r eventtime.
End os.
