(* ===== verification/Firmware.v ===== *)
(** * The firmware: call tables, tasks, commands and the main loop

    The tables that the build collects from DECL_COMMAND, DECL_TASK and DECL_SHUTDOWN, in
    the order of the sources in src/Makefile, and the machine that runs them: timer
    interrupts, commands, task passes and shutdowns are the steps of a relation. *)

From S2P Require Import Prelude State Runtime Sched Vlq Crc Command Basecmd Trsync Stepper Endstop Outputs.
From S2P Require Import Inputs Buses Sensors Tmcuart Lcd.

Section firmware.
Context {B : Board}.

(** The function a timer's [func] designates. *)
Definition timer_call (f : tfunc) (t : tid) : MC Z :=
  match f with
  | F_null => undef
  | F_periodic_event => periodic_event
  | F_sentinel_event => sentinel_event
  | F_deleted_event => deleted_event
  | F_stepper_event_full => stepper_event_full t
  | F_endstop_event => endstop_event t
  | F_endstop_oversample_event => endstop_oversample_event t
  | F_trsync_report_event => trsync_report_event t
  | F_trsync_expire_event => trsync_expire_event signal_callback t
  | F_digital_toggle_event => digital_toggle_event t
  | F_digital_load_event => digital_load_event t
  | F_pwm_event => pwm_event t
  | F_pwm_end_event => pwm_end_event t
  | F_analog_in_event => analog_in_event t
  | F_buttons_event => buttons_event t
  | F_counter_event => counter_event t
  | F_thermocouple_event => thermocouple_event t
  | F_tmcuart_read_event => tmcuart_read_event t
  | F_tmcuart_read_sync_event => tmcuart_read_sync_event t
  | F_tmcuart_send_finish_event => tmcuart_send_finish_event t
  | F_tmcuart_send_event => tmcuart_send_event t
  | F_tmcuart_send_sync_event => tmcuart_send_sync_event t
  | F_adxl345_event => adxl345_event t
  | F_mpu9250_event => mpu9250_event t
  | F_angle_event => angle_event t
  end.

(** ** DECL_COMMAND *)

Definition decl (func : list Z → MC unit) (types : list param_type) : command_parser :=
  mk_parser 0 types func.
Definition decl_in_shutdown (func : list Z → MC unit) (types : list param_type) : command_parser :=
  mk_parser HF_IN_SHUTDOWN types func.

Definition fmt_c := PT_byte.
Definition fmt_u := PT_uint32.
Definition fmt_hu := PT_uint16.
Definition fmt_hi := PT_int16.
Definition fmt_s := PT_buffer.

Definition basecmd_commands : list command_parser :=
  [ decl command_allocate_oids [fmt_c];
    decl_in_shutdown command_get_config [];
    decl command_finalize_config [fmt_u];
    decl_in_shutdown command_get_clock [];
    decl_in_shutdown command_get_uptime [];
    decl_in_shutdown command_emergency_stop [];
    decl_in_shutdown command_clear_shutdown [];
    decl_in_shutdown command_identify [fmt_u; fmt_c] ].
Definition debugcmds_commands : list command_parser :=
  [ decl_in_shutdown command_debug_read [fmt_c; fmt_u];
    decl_in_shutdown command_debug_ping [fmt_s];
    decl_in_shutdown command_debug_nop [] ].
Definition gpiocmds_commands : list command_parser :=
  [ decl command_config_digital_out [fmt_c; fmt_u; fmt_c; fmt_c; fmt_u];
    decl command_set_digital_out_pwm_cycle [fmt_c; fmt_u];
    decl command_queue_digital_out [fmt_c; fmt_u; fmt_u];
    decl command_update_digital_out [fmt_c; fmt_c];
    decl command_set_digital_out [fmt_u; fmt_c] ].
Definition stepper_commands : list command_parser :=
  [ decl command_config_stepper [fmt_c; fmt_c; fmt_c; fmt_c; fmt_u];
    decl command_queue_step [fmt_c; fmt_u; fmt_hu; fmt_hi];
    decl command_set_next_step_dir [fmt_c; fmt_c];
    decl command_reset_step_clock [fmt_c; fmt_u];
    decl command_stepper_get_position [fmt_c];
    decl command_stepper_stop_on_trigger [fmt_c; fmt_c] ].
Definition endstop_commands : list command_parser :=
  [ decl command_config_endstop [fmt_c; fmt_c; fmt_c];
    decl command_endstop_home [fmt_c; fmt_u; fmt_u; fmt_c; fmt_u; fmt_c; fmt_c; fmt_c];
    decl command_endstop_query_state [fmt_c] ].
Definition trsync_commands : list command_parser :=
  [ decl command_config_trsync [fmt_c];
    decl command_trsync_start [fmt_c; fmt_u; fmt_u; fmt_c];
    decl command_trsync_set_timeout [fmt_c; fmt_u];
    decl (command_trsync_trigger signal_callback) [fmt_c; fmt_c] ].
Definition adccmds_commands : list command_parser :=
  [ decl command_config_analog_in [fmt_c; fmt_u];
    decl command_query_analog_in [fmt_c; fmt_u; fmt_u; fmt_c; fmt_u; fmt_hu; fmt_hu; fmt_c] ].
Definition pwmcmds_commands : list command_parser :=
  [ decl command_config_pwm_out [fmt_c; fmt_u; fmt_u; fmt_hu; fmt_hu; fmt_u];
    decl command_queue_pwm_out [fmt_c; fmt_u; fmt_hu];
    decl command_set_pwm_out [fmt_u; fmt_u; fmt_hu] ].
Definition buttons_commands : list command_parser :=
  [ decl command_config_buttons [fmt_c; fmt_c];
    decl command_buttons_add [fmt_c; fmt_c; fmt_u; fmt_c];
    decl command_buttons_query [fmt_c; fmt_u; fmt_u; fmt_c; fmt_c];
    decl command_buttons_ack [fmt_c; fmt_c] ].
Definition counter_commands : list command_parser :=
  [ decl command_config_counter [fmt_c; fmt_u; fmt_c];
    decl command_query_counter [fmt_c; fmt_u; fmt_u; fmt_u] ].

Definition spicmds_commands : list command_parser :=
  [ decl command_config_spi [fmt_c; fmt_u; fmt_c];
    decl command_config_spi_without_cs [fmt_c];
    decl command_spi_set_bus [fmt_c; fmt_u; fmt_u; fmt_u];
    decl command_spi_transfer [fmt_c; fmt_s];
    decl command_spi_send [fmt_c; fmt_s];
    decl command_config_spi_shutdown [fmt_c; fmt_c; fmt_s] ].
Definition thermocouple_commands : list command_parser :=
  [ decl command_config_thermocouple [fmt_c; fmt_c; fmt_c];
    decl command_query_thermocouple [fmt_c; fmt_u; fmt_u; fmt_u; fmt_u; fmt_c] ].
Definition spi_software_commands : list command_parser :=
  [ decl command_spi_set_software_bus [fmt_c; fmt_u; fmt_u; fmt_u; fmt_u; fmt_u] ].
Definition tmcuart_commands : list command_parser :=
  [ decl command_config_tmcuart [fmt_c; fmt_u; fmt_c; fmt_u; fmt_u];
    decl command_tmcuart_send [fmt_c; fmt_s; fmt_c] ].
(** The fuel of the busy loops of [send_data]. *)
Definition neopixel_commands (reset_fuel fuel : nat) : list command_parser :=
  [ decl command_config_neopixel [fmt_c; fmt_u; fmt_hu; fmt_u; fmt_u];
    decl command_neopixel_update [fmt_c; fmt_hu; fmt_s];
    decl (command_neopixel_send reset_fuel fuel) [fmt_c] ].

Definition sdiocmds_commands : list command_parser :=
  [ decl command_config_sdio [fmt_c; fmt_u];
    decl command_sdio_set_bus [fmt_c; fmt_u];
    decl command_sdio_set_speed [fmt_c; fmt_u];
    decl command_sdio_send_command [fmt_c; fmt_c; fmt_u; fmt_c];
    decl command_sdio_read_data [fmt_c; fmt_c; fmt_u];
    decl command_sdio_write_data [fmt_c; fmt_c; fmt_u];
    decl command_sdio_read_data_buffer [fmt_c; fmt_u; fmt_c];
    decl command_sdio_write_data_buffer [fmt_c; fmt_u; fmt_s] ].
Definition i2ccmds_commands : list command_parser :=
  [ decl command_config_i2c [fmt_c; fmt_u; fmt_u; fmt_u];
    decl command_i2c_write [fmt_c; fmt_s];
    decl command_i2c_read [fmt_c; fmt_s; fmt_u];
    decl command_i2c_modify_bits [fmt_c; fmt_s; fmt_s] ].
Definition adxl345_commands : list command_parser :=
  [ decl command_config_adxl345 [fmt_c; fmt_c];
    decl command_query_adxl345 [fmt_c; fmt_u; fmt_u];
    decl command_query_adxl345_status [fmt_c] ].
Definition angle_commands (fuel : nat) : list command_parser :=
  [ decl command_config_spi_angle [fmt_c; fmt_c; fmt_c];
    decl command_query_spi_angle [fmt_c; fmt_u; fmt_u; fmt_c];
    decl (command_spi_angle_transfer fuel) [fmt_c; fmt_s] ].
Definition mpu9250_commands : list command_parser :=
  [ decl command_config_mpu9250 [fmt_c; fmt_c];
    decl command_query_mpu9250 [fmt_c; fmt_u; fmt_u];
    decl command_query_mpu9250_status [fmt_c] ].
Definition lcd_commands (fuel : nat) : list command_parser :=
  [ decl (command_config_st7920 fuel) [fmt_c; fmt_u; fmt_u; fmt_u; fmt_u; fmt_u];
    decl (command_st7920_send_cmds fuel) [fmt_c; fmt_s];
    decl (command_st7920_send_data fuel) [fmt_c; fmt_s];
    decl (command_config_hd44780 fuel) [fmt_c; fmt_u; fmt_u; fmt_u; fmt_u; fmt_u; fmt_u; fmt_u];
    decl (command_hd44780_send_cmds fuel) [fmt_c; fmt_s];
    decl (command_hd44780_send_data fuel) [fmt_c; fmt_s] ].

(** [config_reset] of basecmd.c is a command where the board declares it. *)
Definition pru_commands : list command_parser :=
  if CONFIG_MACH_PRU then [decl_in_shutdown config_reset []] else [].

(** [reset_fuel] and [fuel] bound the busy loops. *)
Definition commands (reset_fuel fuel : nat) : list command_parser :=
  basecmd_commands ++ debugcmds_commands ++ gpiocmds_commands ++ stepper_commands ++
  endstop_commands ++ trsync_commands ++ adccmds_commands ++ spicmds_commands ++
  thermocouple_commands ++ sdiocmds_commands ++ i2ccmds_commands ++ pwmcmds_commands ++
  spi_software_commands ++ adxl345_commands ++ angle_commands fuel ++ mpu9250_commands ++
  lcd_commands fuel ++ buttons_commands ++ tmcuart_commands ++
  neopixel_commands reset_fuel fuel ++ counter_commands ++ pru_commands.

(** ** DECL_TASK, DECL_SHUTDOWN and DECL_INIT *)

Definition run_all (l : list (MC unit)) : MC unit := foldr (λ m k, m;;; k) (mret tt) l.

Definition ctr_run_taskfuncs (fuel : nat) : MC unit :=
  run_all [trsync_task; analog_in_task; thermocouple_task; adxl345_task; spi_angle_task fuel;
           mpu9250_task; buttons_task; tmcuart_task; counter_task; timer_task].
Definition ctr_run_shutdownfuncs : MC unit :=
  run_all [sendf_shutdown; move_reset; digital_out_shutdown; stepper_shutdown;
           trsync_shutdown; analog_in_shutdown; spidev_shutdown; pwm_shutdown;
           st7920_shutdown; hd44780_shutdown; tmcuart_shutdown].
Definition ctr_run_initfuncs : MC unit := run_all [alloc_init; initial_pins_setup].

(** The [do .. while] of [run_tasks]: [irq_wait] lets one interrupt run. *)
Fixpoint idle_loop (fuel : nat) (irq_wait : MC unit) : MC unit :=
  match fuel with
  | O => diverge
  | S fuel =>
      irq_wait;;;
      let! s := get in
      if tasks_status (sched s) =? TS_REQUESTED then mret tt else idle_loop fuel irq_wait
  end.

(** One round of the [for (;;)] of [run_tasks]: [start] is the clock at its beginning, the
    result the one of the next round; [fuel] bounds the interrupts taken while asleep and
    the busy loops of the tasks. *)
Definition run_tasks_pass (fuel : nat) (irq_wait : MC unit) (start : Z) : MC Z :=
  let! s := get in
  let! start :=
    (if negb (tasks_status (sched s) =? TS_REQUESTED) then
       let! now := timer_read_time in
       irq_disable;;;
       let! s := get in
       (when negb (tasks_status (sched s) =? TS_REQUESTED) do
          (modify (λ s, s <| sched; tasks_status := TS_IDLE |>);;;
           idle_loop fuel irq_wait));;;
       irq_enable;;;
       let! now2 := timer_read_time in
       mret (u32 (u32 (start - now) + now2))
     else mret start) in
  modify (λ s, s <| sched; tasks_status := TS_RUNNING |>);;;
  ctr_run_taskfuncs fuel;;;
  let! cur := timer_read_time in
  stats_update start cur;;;
  mret cur.

(** ** The machine

    What can happen between two points of [sched_main]: a timer interrupt, a command
    from the host or a round over the tasks, asleep in which only timers run.  Each either
    completes or ends in the [longjmp] to [sched_main], which runs the shutdown handlers. *)

Inductive action :=
| Act_timer
| Act_command (cp : command_parser) (args : list Z)
| Act_tasks (fuel : nat) (start : Z).

Definition timer_interrupt : MC unit :=
  let! _ := sched_timer_dispatch timer_call stepper_event in
  mret tt.

Definition run_action (a : action) : MC unit :=
  match a with
  | Act_timer => timer_interrupt
  | Act_command cp args =>
      let! sd := sched_is_shutdown in
      if sd && negb (has (cp_flags cp) HF_IN_SHUTDOWN) then sched_report_shutdown
      else cp_func cp args
  | Act_tasks fuel start =>
      let! _ := run_tasks_pass fuel timer_interrupt start in
      mret tt
  end.

(** [sched_main] up to its [setjmp]. *)
Definition sched_main_start : MC unit :=
  ctr_run_initfuncs;;;
  command_sendf "starting" [];;;
  irq_disable.

(** [sched_main] after a [longjmp]: a shutdown inside the handlers jumps again. *)
Fixpoint handle_shutdown (fuel : nat) (reason : string) : MC unit := λ s,
  match fuel with
  | O => Diverge
  | S fuel =>
      match run_shutdown ctr_run_shutdownfuncs reason s with
      | Shut r s' => handle_shutdown fuel r s'
      | x => x
      end
  end.

(** The host can only send commands of the table. *)
Definition admissible (a : action) : Prop :=
  match a with
  | Act_command cp _ => ∃ reset_fuel fuel, cp ∈ commands reset_fuel fuel
  | _ => True
  end.

Inductive step (s : mcu) : action → mcu → Prop :=
| step_done a s' : admissible a → run_action a s = Ret tt s' → step s a s'
| step_shutdown a r s1 fuel s' :
    admissible a → run_action a s = Shut r s1 → handle_shutdown fuel r s1 = Ret tt s' → step s a s'.

(** A run of the machine with the actions that happened, in order. *)
Inductive runs (init : mcu) : list action → mcu → Prop :=
| runs_nil : runs init [] init
| runs_snoc acts s a s' : runs init acts s → step s a s' → runs init (acts ++ [a]) s'.
End firmware.
