(* ===== verification/StepperSpec.v ===== *)
(** * Step generation: timing, position and stopping

    Proved against the timer service of TimerService.v. *)

From S2P Require Import Prelude State Runtime Bench Sched TimerQueue SchedSpec TimerService Basecmd.
From S2P Require Import BasecmdSpec PoolSpec Trsync Stepper.

(** Operations on moves leave everything else alone. *)
Record pool_frame (s s' : mcu) : Prop := {
  pf_sched : sched s' = sched s;
  pf_cmd : cmd s' = cmd s;
  pf_signals : signals s' = signals s;
  pf_wakes : wakes s' = wakes s;
  pf_trace : trace s' = trace s;
  pf_base : base s' = (base s) <| move_free_list := move_free_list (base s') |>;
}.
#[export] Instance pool_frame_preorder : PreOrder pool_frame.
Proof.
  split; [intros s; split; try done; by destruct (base s)|].
  intros s1 s2 s3 [? ? ? ? ? H1] [? ? ? ? ? H2]. split; try congruence.
  rewrite H2, H1. by destruct (base s1).
Qed.

Section free.
Context {B : Board}.

Lemma wp_free_moves fuel a o l f s :
  objects s !! a = Some (O_stepper o) → mq_rep (moves s) (st_mq o) l → free_rep s f →
  NoDup (l ++ f) → (length l < fuel)%nat →
  wp (free_moves fuel a) s
    (λ _ s', ∃ mq', mq_first mq' = 0 ∧
       objects s' = <[a := O_stepper (o <| st_mq := mq' |>)]> (objects s) ∧
       free_rep s' (rev l ++ f) ∧ (∀ b, b ∉ l → moves s' !! b = moves s !! b) ∧ pool_frame s s')
    no_shut.
Proof.
  revert o l f s. induction fuel as [|fuel IH]; intros o l f s Ho Hmq Hf Hnd Hfu; [lia|].
  cbn [free_moves]. wstep. eapply (wp_load a o); [done|].
  rewrite (move_queue_empty_rep _ _ _ Hmq). destruct l as [|m l].
  { rewrite bool_decide_eq_true_2 by done. wstep. exists (st_mq o). split; [apply Hmq|].
    split; [|by split]. rewrite insert_id; [done|]. rewrite Ho. by destruct o. }
  rewrite bool_decide_eq_false_2 by done.
  destruct (mq_pop_eq _ _ _ _ Hmq) as (mh' & Hpop & Hmq').
  wstep. eapply wp_of_eq; [exact Hpop|]. cbn beta iota. do 2 wstep.
  destruct Hmq as [(Hfst & Hm0 & nm & Hnm & _) _ _].
  apply NoDup_cons in Hnd as [Hm Hnd]. rewrite elem_of_app in Hm.
  unfold move_free. wstep. wstep. wstep. wstep. eapply wp_upd_node; [exact Hnm|]. wstep. cbn beta.
  eapply wp_use; [eapply (IH (o <| st_mq := mh' |>) l (m :: f))|].
  - cbn. by rewrite lookup_insert_eq.
  - cbn. eapply mq_rep_ext; [|exact Hmq']. intros b Hb. rewrite lookup_insert_ne; [done|].
    intros ->. tauto.
  - apply (free_rep_push (upd objects <[a := O_stepper (o <| st_mq := mh' |>)]> s) f m nm);
      [exact Hf|tauto|done].
  - rewrite <- Permutation_middle. apply NoDup_cons. by rewrite elem_of_app.
  - cbn in Hfu. lia.
  - intros [] s' (mq' & Hq' & Hobj & Hfr & Hmv & Hpf). exists mq'. split; [done|].
    split; [rewrite Hobj; cbn; by rewrite insert_insert_eq|].
    split; [cbn; by rewrite <- app_assoc|]. split.
    + intros b [Hbm Hb]%not_elem_of_cons. rewrite Hmv by done. cbn. by rewrite lookup_insert_ne.
    + etransitivity; [|exact Hpf]. by split.
Qed.
End free.

(** ** Position *)

Section position.
Context {B : Board}.

(** Steps of the loaded move that are still to be taken. *)
Definition steps_left (o : stepper) : Z :=
  if HAVE_SINGLE_SCHEDULE && has (st_flags o) SF_SINGLE_SCHED then st_count o else st_count o / 2.

(** [position] encodes the place [pend] reached at the end of the loaded move: biased when
    the motor moves forward, biased and negated when it moves backward. *)
Definition pos_enc (o : stepper) (fwd : bool) (pend : Z) : Prop :=
  st_position o = u32 (if fwd then POSITION_BIAS + pend else - (POSITION_BIAS + pend)).

(** The place of the motor now. *)
Definition pos_now (o : stepper) (fwd : bool) (pend : Z) : Z :=
  if fwd then pend - steps_left o else pend + steps_left o.

Lemma land_pow2 x n : 0 ≤ n → Z.land x (2 ^ n) = if Z.testbit x n then 2 ^ n else 0.
Proof.
  intros Hn. apply Z.bits_inj'. intros i Hi. rewrite Z.land_spec, Z.pow2_bits_eqb by done.
  destruct (Z.eqb_spec n i) as [->|Hne].
  - destruct (Z.testbit x i); cbn; [by rewrite Z.pow2_bits_true|by rewrite Z.bits_0].
  - rewrite andb_false_r. destruct (Z.testbit x n); [by rewrite Z.pow2_bits_false|by rewrite Z.bits_0].
Qed.

Lemma top_bit x : 0 ≤ x < 4294967296 → has x 0x80000000 = (2147483648 <=? x).
Proof.
  intros Hx. unfold has, nz. change 0x80000000 with (2 ^ 31). rewrite land_pow2 by lia.
  rewrite Z.testbit_odd, Z.shiftr_div_pow2 by lia. change (2 ^ 31) with 2147483648.
  destruct (Z.leb_spec 2147483648 x) as [Hle|Hlt].
  - replace (x / 2147483648) with 1; [done|]. apply Z.div_unique with (x - 2147483648); lia.
  - rewrite Z.div_small by lia. done.
Qed.

Lemma stepper_get_position_eq o fwd pend :
  pos_enc o fwd pend → - POSITION_BIAS < pos_now o fwd pend < POSITION_BIAS →
  stepper_get_position o = POSITION_BIAS + pos_now o fwd pend.
Proof.
  unfold stepper_get_position, pos_enc, pos_now, steps_left, POSITION_BIAS. intros -> Hr.
  set (n := if (HAVE_SINGLE_SCHEDULE && has (st_flags o) SF_SINGLE_SCHED)%bool
            then st_count o else st_count o / 2) in *.
  assert ((if (HAVE_SINGLE_SCHEDULE && has (st_flags o) SF_SINGLE_SCHED)%bool
    then u32 (u32 (if fwd then 0x40000000 + pend else - (0x40000000 + pend)) - st_count o)
    else u32 (u32 (if fwd then 0x40000000 + pend else - (0x40000000 + pend)) - st_count o / 2)) =
    u32 ((if fwd then 0x40000000 + pend else - (0x40000000 + pend)) - n)) as ->.
  { subst n. destruct (HAVE_SINGLE_SCHEDULE && _)%bool; apply u32_sub_l. }
  clearbody n. rewrite top_bit by apply u32_range. destruct fwd.
  - rewrite u32_small by lia. destruct (Z.leb_spec 2147483648 (0x40000000 + pend - n)); lia.
  - replace (u32 (- (0x40000000 + pend) - n)) with (4294967296 - (0x40000000 + (pend + n))) by zmod.
    rewrite (proj2 (Z.leb_le _ _)) by lia. zmod.
Qed.
End position.

(** ** Stopping *)

Section stop.
Context {B : Board} {TS : TimerService}.

(** What [stepper_stop] makes of the object. *)
Definition stop_stepper (o : stepper) (mq : move_queue_head) : stepper :=
  let o := o <| st_next_step_time := 0 |> in
  o <| st_position := u32 (- stepper_get_position o) |> <| st_count := 0 |>
    <| st_flags := Z.lor (Z.land (st_flags o) (Z.lor SF_INVERT_STEP SF_SINGLE_SCHED)) SF_NEED_RESET |>
    <| st_mq := mq |>.

Lemma without_absent t (q : list entry) : t ∉ (without t q).*1.
Proof.
  unfold without. intros ([u w] & -> & [_ Hin]%list_elem_of_In%List.filter_In)%list_elem_of_fmap.
  cbn in Hin. by rewrite bool_decide_eq_true_2 in Hin.
Qed.

Definition stop_post (s : mcu) lo q P a o l f (s' : mcu) : Prop :=
  tq s' lo (without (T_member a M_time) q) P ∧
  (∃ mq', mq_first mq' = 0 ∧ objects s' = <[a := O_stepper (stop_stepper o mq')]> (objects s)) ∧
  free_rep s' (rev l ++ f) ∧ (∀ b, b ∉ l → moves s' !! b = moves s !! b) ∧
  signals s' = signals s ∧ wakes s' = wakes s ∧
  (∀ u, is_Some (timers (sched s) !! u) → user_timer u → is_Some (timers (sched s') !! u)).

Lemma wp_stepper_stop s lo q P a o x l f reason :
  tq s lo q P → objects s !! a = Some (O_stepper o) →
  timers (sched s) !! T_member a M_time = Some x →
  mq_rep (moves s) (st_mq o) l → free_rep s f → NoDup (l ++ f) →
  wp (stepper_stop a reason) s (λ _ s', stop_post s lo q P a o l f s') no_shut.
Proof.
  intros Hq Ho Hx Hmq Hf Hnd. unfold stepper_stop. wstep.
  eapply wp_use; [by apply tq_del|]. intros [] s1 (Hq1 & Hfr & Hud & _). cbn beta.
  pose proof (Hud (T_member a M_time)) as Hx1. rewrite Hx in Hx1. feed Hx1; [done|]. cbn in Hx1.
  destruct (timers (sched s1) !! T_member a M_time) as [x1|] eqn:Hx1'; [|done].
  wstep. wstep. wstep. eapply (wp_load a o); [cbn; by rewrite (f_objects _ _ Hfr)|].
  repeat wstep.
  eapply (wp_conseq _ _ (λ _ s2, objects s2 = <[a := O_stepper (stop_stepper o (st_mq o))]> (objects s) ∧
    moves s2 = moves s ∧ base s2 = base s ∧ signals s2 = signals s ∧ wakes s2 = wakes s ∧
    sched s2 = sched (upd sched (upd timers <[T_member a M_time := x1 <| t_waketime := 0 |>]>) s1))).
  { destruct Hfr. apply wp_when; intros _; [wstep|]; cbn; split_and!; try done;
      f_equal; try done; by destruct o. }
  intros [] s2 (Ho2 & Hm2 & Hb2 & Hs2 & Hw2 & Hsch). wstep. wstep.
  eapply wp_use; [eapply (wp_free_moves _ a (stop_stepper o (st_mq o)) l f)|].
  - rewrite Ho2. by rewrite lookup_insert_eq.
  - by rewrite Hm2.
  - destruct Hf as [Hf ?]. split; [by rewrite Hm2, Hb2|done].
  - done.
  - rewrite Hm2. apply Nat.lt_succ_r, NoDup_size; [by apply NoDup_app in Hnd as [? _]|].
    intros b Hb. by apply (mlist_lookup _ _ _ b (mq_list _ _ _ Hmq)).
  - intros [] s' (mq' & Hm' & Hobj & Hfr' & Hmv & [Hps ? Hpsig Hpw ? ?]). split.
    { eapply tq_ext; [..|apply (tq_write s1 lo _ P (T_member a M_time)
          (x1 <| t_waketime := 0 |>) Hq1 I), without_absent];
        rewrite Hps, Hsch; done. }
    split.
    { exists mq'. split; [done|]. rewrite Hobj, Ho2, insert_insert_eq. by destruct o. }
    split; [done|]. split; [intros b Hb; rewrite Hmv by done; by rewrite Hm2|].
    split; [congruence|]. split; [congruence|]. intros u Hu Hus. rewrite Hps, Hsch. cbn.
    destruct (decide (u = T_member a M_time)) as [->|?]; [rewrite lookup_insert_eq; eauto|].
    rewrite lookup_insert_ne by done. destruct Hu as [y Hy]. specialize (Hud u).
    rewrite Hy in Hud. feed Hud; [by destruct u|]. by destruct (timers (sched s1) !! u).
Qed.
End stop.

(** ** Loading a move *)

Section load.
Context {B : Board}.

Definition single (o : stepper) : bool := HAVE_SINGLE_SCHEDULE && has (st_flags o) SF_SINGLE_SCHED.

(** The direction after a move: [MF_DIR] reverses it. *)
Definition next_dir (fwd : bool) (d : stepper_move) : bool := xorb fwd (has (sm_flags d) MF_DIR).

(** What [stepper_load_next] makes of the object and of the wake time. *)
Definition load_stepper (o : stepper) (d : stepper_move) (mq : move_queue_head) : stepper :=
  let o := o <| st_mq := mq |> <| st_add := sm_add d |>
             <| st_interval := u32 (sm_interval d + sm_add d) |> in
  let o := if single o
           then o <| st_flags := if HAVE_AVR_OPTIMIZATION
                                 then if nz (sm_add d) then Z.lor (st_flags o) SF_HAVE_ADD
                                      else Z.land (st_flags o) (Z.lnot SF_HAVE_ADD)
                                 else st_flags o |> <| st_count := sm_count d |>
           else o <| st_next_step_time := u32 (st_next_step_time o + sm_interval d) |>
                  <| st_count := u32 (sm_count d * 2) |> in
  o <| st_position := u32 ((if has (sm_flags d) MF_DIR then - st_position o else st_position o)
                           + sm_count d) |>.
Definition load_waketime (o : stepper) (w : Z) (d : stepper_move) : Z :=
  u32 ((if single o then w else st_next_step_time o) + sm_interval d).

Definition load_post (s : mcu) a o x m l d f (s' : mcu) : Prop :=
  (∃ mq', mq_rep (moves s') mq' l ∧
     objects s' = <[a := O_stepper (load_stepper o d mq')]> (objects s)) ∧
  timers (sched s') =
    <[T_member a M_time := x <| t_waketime := load_waketime o (t_waketime x) d |>]> (timers (sched s)) ∧
  free_rep s' (m :: f) ∧ (∀ b, b ≠ m → moves s' !! b = moves s !! b) ∧
  trace s' = (if has (sm_flags d) MF_DIR then [EvToggle (st_dir_pin o)] else []) ++ trace s ∧
  hw_reads s' = hw_reads s.

Lemma wp_stepper_load_next s a o x m l nm d f :
  objects s !! a = Some (O_stepper o) → timers (sched s) !! T_member a M_time = Some x →
  mq_rep (moves s) (st_mq o) (m :: l) → moves s !! m = Some nm → n_data nm = MD_stepper d →
  free_rep s f → m ∉ f →
  wp (stepper_load_next a) s (λ r s', r = SF_RESCHEDULE ∧ load_post s a o x m l d f s') no_shut.
Proof.
  intros Ho Hx Hmq Hnm Hd Hf Hmf. unfold stepper_load_next. wstep. eapply (wp_load a o); [done|].
  rewrite (move_queue_empty_rep _ _ _ Hmq), bool_decide_eq_false_2 by done.
  destruct (mq_pop_eq _ _ _ _ Hmq) as (mh' & Hpop & Hmq').
  destruct Hmq as [(_ & Hm0 & _) Hnd _]. apply NoDup_cons in Hnd as [Hml _].
  wstep. eapply wp_of_eq; [exact Hpop|]. cbn beta iota. unfold get_stepper_move. do 3 wstep.
  rewrite Hd. do 2 wstep. cbn zeta.
  set (o1 := o <| st_mq := mh' |> <| st_add := sm_add d |>
               <| st_interval := u32 (sm_interval d + sm_add d) |>).
  set (s1 := upd sched (upd timers <[T_member a M_time :=
               x <| t_waketime := load_waketime o (t_waketime x) d |>]>) s).
  set (o2 := (load_stepper o d mh') <| st_position := st_position o |>).
  eapply (wp_conseq _ _ (λ o' s', o' = o2 ∧ s' = s1)).
  { subst o2 s1. unfold load_stepper, load_waketime, single. fold o1.
    destruct (HAVE_SINGLE_SCHEDULE && has (st_flags o1) SF_SINGLE_SCHED)%bool eqn:Hs;
      repeat wstep; (split; [by destruct o|]); unfold o1 in Hs; cbn in Hs; by rewrite Hs. }
  intros o' s' [-> ->]. cbn beta. wstep.
  eapply (wp_conseq _ _ (λ _ s', objects s' = <[a := O_stepper (load_stepper o d mh')]> (objects s) ∧
    moves s' = moves s ∧ base s' = base s ∧ sched s' = sched s1 ∧ hw_reads s' = hw_reads s ∧
    trace s' = (if has (sm_flags d) MF_DIR then [EvToggle (st_dir_pin o)] else []) ++ trace s)).
  { subst o2 s1. unfold load_stepper. destruct (has (sm_flags d) MF_DIR), (single o1) eqn:Hs;
      repeat wstep; fold o1; rewrite Hs; by split_and!. }
  intros [] s2 (Ho2 & Hm2 & Hb2 & Hs2 & Hh2 & Ht2). unfold move_free. do 4 wstep.
  eapply wp_upd_node; [rewrite Hm2; exact Hnm|]. do 2 wstep. split; [done|].
  split; [exists mh'; split; [|done]|].
  - cbn. rewrite Hm2. eapply mq_rep_ext; [|exact Hmq']. intros b Hb. rewrite lookup_insert_ne; [done|].
    by intros ->.
  - split; [cbn; by rewrite Hs2|]. split; [|split; [|done]].
    + apply (free_rep_push s2); [|done|done]. destruct Hf as [Hf ?]. split; [by rewrite Hm2, Hb2|done].
    + intros b Hb. cbn. by rewrite lookup_insert_ne, Hm2.
Qed.

(** Loading a move advances the encoded position by its steps. *)
Lemma load_position o d mq fwd pend :
  pos_enc o fwd pend →
  pos_enc (load_stepper o d mq) (next_dir fwd d)
    (if next_dir fwd d then pend + sm_count d else pend - sm_count d).
Proof.
  unfold pos_enc, load_stepper, next_dir. intros Hp.
  destruct (single _); cbn; rewrite Hp; destruct fwd, (has (sm_flags d) MF_DIR); cbn [xorb];
    rewrite ?u32_add_l; rewrite <- ?(u32_add_l (- u32 _)); zmod.
Qed.
End load.

(** ** Step times *)

(** The time of step [n] of a move that starts at [w]. *)
Definition step_time (w interval add n : Z) : Z := w + n * interval + add * (n * (n - 1) / 2).

Lemma tri_succ n : (n + 1) * n / 2 = n * (n - 1) / 2 + n.
Proof.
  replace ((n + 1) * n) with (n * (n - 1) + n * 2) by lia. by rewrite Z.div_add by lia.
Qed.

Lemma step_time_succ w i a n : step_time w i a (n + 1) = step_time w i a n + (i + n * a).
Proof.
  unfold step_time. replace ((n + 1) * (n + 1 - 1)) with ((n + 1) * n) by lia. rewrite tri_succ. lia.
Qed.

Section timing.
Context {B : Board}.

(** [k] calls of the event function, each of which asks to be called again. *)
Fixpoint repeat_event (event : tid → MC Z) (t : tid) (k : nat) : MC unit :=
  match k with
  | O => mret tt
  | S k =>
      let! r := event t in
      if r =? SF_RESCHEDULE then repeat_event event t k else undef
  end.

Lemma repeat_event_S event t k s (Q : unit → mcu → Prop) :
  wp (repeat_event event t k) s (λ _ s', wp (event t) s' (λ r s'', r = SF_RESCHEDULE ∧ Q tt s'') no_shut)
    no_shut →
  wp (repeat_event event t (S k)) s Q no_shut.
Proof.
  revert s. induction k as [|k IH]; intros s Hk; cbn [repeat_event] in *.
  - unfold wp in Hk at 1. cbn in Hk. wstep. eapply wp_use; [exact Hk|].
    intros r s' [-> HQ]. by apply wp_ret.
  - wstep. unfold wp in Hk at 1. unfold mbind, M_bind in Hk. unfold wp at 1.
    destruct (event t s) as [r s1| | |]; try done. destruct (r =? SF_RESCHEDULE); [|done].
    cbn [repeat_event] in IH. by apply IH.
Qed.

(** Only the object and the timer of the stepper at [a] differ, and the trace. *)
Definition same_rest (a : addr) (s s' : mcu) : Prop :=
  moves s' = moves s ∧ base s' = base s ∧ signals s' = signals s ∧ cmd s' = cmd s ∧
  (∀ b, b ≠ a → objects s' !! b = objects s !! b) ∧
  (∀ u, u ≠ T_member a M_time → timers (sched s') !! u = timers (sched s) !! u).

Definition edge_state (s : mcu) a o x (k : Z) (s' : mcu) : Prop :=
  objects s' !! a = Some (O_stepper (o <| st_count := st_count o - k |>
                                       <| st_interval := u32 (st_interval o + k * st_add o) |>)) ∧
  timers (sched s') !! T_member a M_time =
    Some (x <| t_waketime := u32 (step_time (t_waketime x) (st_interval o) (st_add o) k) |>) ∧
  trace s' = replicate (Z.to_nat k) (EvToggle (st_step_pin o)) ++ trace s ∧ same_rest a s s'.

Lemma edge_run s a o x k :
  objects s !! a = Some (O_stepper o) → timers (sched s) !! T_member a M_time = Some x →
  0 ≤ st_interval o < 2 ^ 32 → 0 ≤ t_waketime x < 2 ^ 32 →
  Z.of_nat k < st_count o < 2 ^ 32 →
  wp (repeat_event stepper_event_edge (T_member a M_time) k) s
    (λ _ s', edge_state s a o x (Z.of_nat k) s') no_shut.
Proof.
  intros Ho Hx Hi Hw Hk. induction k as [|k IH].
  - cbn [repeat_event]. wstep. change (Z.of_nat 0) with 0. unfold edge_state, step_time.
    rewrite Z.sub_0_r, !Z.mul_0_l, Zdiv_0_l, Z.mul_0_r, !Z.add_0_r, !u32_small by done. split; [rewrite Ho; by destruct o|].
    split; [rewrite Hx; by destruct x|]. by split_and!.
  - apply repeat_event_S. eapply wp_use; [apply IH; lia|].
    intros [] s1 (Ho1 & Hx1 & Ht1 & Hm1 & Hb1 & Hs1 & Hc1 & Hoo & Htt). unfold stepper_event_edge.
    wstep. cbn [container_of]. wstep. wstep. eapply wp_load; [exact Ho1|]. wstep. wstep. cbn zeta.
    assert (u32 (st_count o - Z.of_nat k - 1) = st_count o - Z.of_nat (S k)) as Hcnt.
    { rewrite u32_small; unfold_word; lia. }
    cbn [st_count upd]. rewrite Hcnt. unfold nz. rewrite (proj2 (Z.eqb_neq _ _)) by lia. cbn [negb].
    wstep. wstep. wstep. wstep. wstep. split; [done|]. unfold edge_state, same_rest. cbn.
    rewrite !lookup_insert_eq. split_and!; try done.
    + rewrite u32_add_l. replace (st_interval o + Z.of_nat k * st_add o + st_add o)
        with (st_interval o + Z.of_nat (S k) * st_add o) by lia. done.
    + rewrite u32_add_l, u32_add_r, <- step_time_succ. replace (Z.of_nat k + 1) with (Z.of_nat (S k)) by lia.
      done.
    + rewrite Ht1, !Nat2Z.id. done.
    + intros b Hb. rewrite lookup_insert_ne by done. by apply Hoo.
    + intros u Hu. rewrite lookup_insert_ne by done. by apply Htt.
Qed.
End timing.

(** ** One event *)

Section event.
Context {B : Board}.

(** A configured stepper [o] at [a] with timer [x] and queued moves [l]; [f] is the free
    list of the pool. *)
Record stepper_ok (s : mcu) (a : addr) (o : stepper) (x : timer) (l f : list addr) : Prop := {
  so_obj : objects s !! a = Some (O_stepper o);
  so_timer : timers (sched s) !! T_member a M_time = Some x;
  so_queue : mq_rep (moves s) (st_mq o) l;
  so_free : free_rep s f;
  so_nodup : NoDup (l ++ f);
  so_moves m : m ∈ l → ∃ n d, moves s !! m = Some n ∧ n_data n = MD_stepper d;
}.

(** The stepper is still well formed, and the moves it does not hold any more are free. *)
Definition conserves (a : addr) (l f : list addr) (s' : mcu) : Prop :=
  ∃ o' x' l' f', stepper_ok s' a o' x' l' f' ∧ l' ++ f' ≡ₚ l ++ f.

Lemma stepper_ok_upd s s' a o x l f o' x' :
  stepper_ok s a o x l f → moves s' = moves s → base s' = base s →
  objects s' !! a = Some (O_stepper o') → timers (sched s') !! T_member a M_time = Some x' →
  st_mq o' = st_mq o → stepper_ok s' a o' x' l f.
Proof.
  intros [Ho Hx Hq [Hf Hfn] Hn Hm] Hmv Hb Ho' Hx' Hmq. split; try done.
  - by rewrite Hmv, Hmq.
  - split; [by rewrite Hmv, Hb|done].
  - by rewrite Hmv.
Qed.

Lemma load_next_event s a o x l f :
  stepper_ok s a o x l f →
  wp (stepper_load_next a) s
    (λ r s', conserves a l f s' ∧ (r = SF_DONE ∧ l = [] ∨ r = SF_RESCHEDULE) ∧
       (∃ o', objects s' !! a = Some (O_stepper o') ∧ st_step_pin o' = st_step_pin o))
    no_shut.
Proof.
  intros Hok. destruct (Hok) as [Ho Hx Hq Hf Hn Hm]. destruct l as [|m l].
  - unfold stepper_load_next. wstep. eapply (wp_load a o); [done|].
    rewrite (move_queue_empty_rep _ _ _ Hq), bool_decide_eq_true_2 by done. do 3 wstep. split_and!.
    + exists (o <| st_count := 0 |>), x, [], f. split; [|done].
      eapply stepper_ok_upd; try done. cbn. by rewrite lookup_insert_eq.
    + by left.
    + eexists. cbn. rewrite lookup_insert_eq. by split.
  - destruct (Hm m) as (nm & d & Hnm & Hd); [by left|]. cbn in Hn. apply NoDup_cons in Hn as [Hml Hn].
    rewrite elem_of_app in Hml.
    eapply wp_use; [eapply (wp_stepper_load_next s a o x m l nm d f); try done; tauto|].
    intros r s' (-> & (mq' & Hmq' & Ho') & Ht' & Hf' & Hmv & _). split_and!.
    + eexists (load_stepper o d mq'), _, l, (m :: f). split.
      * split; try done.
        -- rewrite Ho'. by rewrite lookup_insert_eq.
        -- rewrite Ht'. by rewrite lookup_insert_eq.
        -- by unfold load_stepper; destruct (single _).
        -- rewrite <- Permutation_middle. apply NoDup_cons. by rewrite elem_of_app.
        -- intros b Hb. rewrite Hmv by (intros ->; tauto). apply Hm. by right.
      * by rewrite <- Permutation_middle.
    + by right.
    + eexists. rewrite Ho', lookup_insert_eq. split; [done|].
      unfold load_stepper. by destruct (single _).
Qed.

Lemma conserves_timer a l f s t g :
  t = T_member a M_time → conserves a l f s →
  wp (upd_timer t g) s (λ _ s', conserves a l f s' ∧
    ∃ x, timers (sched s) !! t = Some x ∧ timers (sched s') !! t = Some (g x)) no_shut.
Proof.
  intros -> (o' & x' & l' & f' & Hok & Hp). eapply wp_upd_timer; [apply Hok|]. split.
  - exists o', (g x'), l', f'. split; [|done]. eapply stepper_ok_upd; try done; [apply Hok|].
    cbn. by rewrite lookup_insert_eq.
  - exists x'. split; [apply Hok|]. cbn. by rewrite lookup_insert_eq.
Qed.

(** A step pulse lasts: the next edge is not before the clock read by the event plus
    [step_pulse_ticks]. *)
Definition min_pulse (s : mcu) (a : addr) (o : stepper) (s' : mcu) : Prop :=
  ∃ x', timers (sched s') !! T_member a M_time = Some x' ∧
    timer_is_before (t_waketime x')
      (u32 (u32 (clock_at (hw_reads s)) + st_step_pulse_ticks o)) = false.

Definition full_post s a o l f (r : Z) (s' : mcu) : Prop :=
  conserves a l f s' ∧ (r = SF_DONE ∧ l = [] ∨ r = SF_RESCHEDULE ∧ min_pulse s a o s').

Lemma wp_reschedule_min s s1 a o l f :
  conserves a l f s1 →
  wp (reschedule_min (T_member a M_time) (u32 (u32 (clock_at (hw_reads s)) + st_step_pulse_ticks o)))
    s1 (full_post s a o l f) no_shut.
Proof.
  intros Hc. unfold reschedule_min. wstep. eapply wp_use; [by eapply conserves_timer|].
  intros [] s2 (Hc2 & x & Hx & Hx2). wstep. split; [done|]. right. split; [done|].
  eexists. split; [exact Hx2|]. apply timer_is_before_irrefl.
Qed.

Lemma wp_stepper_event_full s a o x l f :
  stepper_ok s a o x l f →
  wp (stepper_event_full (T_member a M_time)) s (full_post s a o l f) no_shut.
Proof.
  intros Hok. unfold stepper_event_full. wstep. cbn [container_of]. wstep. wstep.
  eapply (wp_load a o); [apply Hok|]. wstep. wstep. wstep. wstep. wstep. wstep. cbn zeta.
  cbn [hw_reads upd]. set (mint := u32 (u32 (clock_at (hw_reads s)) + st_step_pulse_ticks o)).
  set (o1 := o <| st_count := _ |>). set (s1 := upd objects _ _).
  assert (stepper_ok s1 a o1 x l f) as Hok1.
  { eapply stepper_ok_upd; try done; [cbn; by rewrite lookup_insert_eq|apply Hok]. }
  destruct (nz (Z.land (st_count o1) 1)); [apply wp_reschedule_min; by exists o1, x, l, f|].
  destruct (nz (st_count o1)).
  - wstep. wstep. cbn zeta. set (s2 := upd objects _ s1). set (o2 := o1 <| st_next_step_time := _ |> <| st_interval := _ |>).
    assert (conserves a l f s2) as Hc2.
    { exists o2, x, l, f. split; [|done]. eapply stepper_ok_upd; try done; [|apply Hok1].
      cbn. by rewrite lookup_insert_eq. }
    destruct (timer_is_before (st_next_step_time o2) mint) eqn:Hb; [by apply wp_reschedule_min|].
    wstep. eapply wp_use; [by eapply conserves_timer|]. intros [] s3 (Hc3 & x3 & Hx3 & Hx3').
    wstep. split; [done|]. right. split; [done|]. eexists. by split.
  - wstep. eapply wp_use; [by eapply load_next_event|]. intros r s2 (Hc2 & Hr & _). cbn beta.
    destruct (Hc2) as (o' & x' & l' & f' & Hok' & Hp). wstep. eapply wp_get_timer; [apply Hok'|].
    destruct Hr as [[-> ->]| ->]; cbn [Z.eqb SF_DONE SF_RESCHEDULE orb].
    + wstep. split; [done|]. by left.
    + destruct (timer_is_before (t_waketime x') mint) eqn:Hb; cbn [negb]; [by apply wp_reschedule_min|].
      wstep. split; [done|]. right. split; [done|]. exists x'. split; [apply Hok'|done].
Qed.
End event.

(** ** Step times in double scheduling mode *)

Section full.
Context {B : Board}.

Definition full_state (s : mcu) a o (k : Z) (s' : mcu) : Prop :=
  objects s' !! a = Some (O_stepper (o <| st_count := st_count o - 2 * k |>
    <| st_next_step_time := u32 (step_time (st_next_step_time o) (st_interval o) (st_add o) k) |>
    <| st_interval := u32 (st_interval o + k * st_add o) |>)) ∧
  is_Some (timers (sched s') !! T_member a M_time) ∧
  trace s' = replicate (2 * Z.to_nat k) (EvToggle (st_step_pin o)) ++ trace s ∧ same_rest a s s'.

Lemma odd_nz n : nz (Z.land n 1) = Z.odd n.
Proof. rewrite <- Z.bit0_odd. change 1 with (2 ^ 0) at 1. unfold nz. rewrite land_pow2 by lia. by destruct (Z.testbit n 0). Qed.

(** The step edge: the object only counts down, the timer moves. *)
Lemma full_step_edge s a o x :
  objects s !! a = Some (O_stepper o) → timers (sched s) !! T_member a M_time = Some x →
  0 < st_count o < 2 ^ 32 → Z.even (st_count o) = true →
  wp (stepper_event_full (T_member a M_time)) s
    (λ r s', r = SF_RESCHEDULE ∧ objects s' !! a = Some (O_stepper (o <| st_count := st_count o - 1 |>)) ∧
       is_Some (timers (sched s') !! T_member a M_time) ∧
       trace s' = EvToggle (st_step_pin o) :: trace s ∧ same_rest a s s') no_shut.
Proof.
  intros Ho Hx Hc He. unfold stepper_event_full. wstep. cbn [container_of]. do 2 wstep.
  eapply (wp_load a o); [done|]. do 6 wstep. cbn zeta. rewrite odd_nz. cbn [st_count upd].
  rewrite u32_small by (unfold_word; lia). rewrite Z.odd_sub, <- Z.negb_even, He. cbn [negb xorb Z.odd].
  unfold reschedule_min. do 2 wstep. wstep. unfold same_rest. cbn. rewrite !lookup_insert_eq.
  split_and!; try done.
  - intros b Hb. by rewrite lookup_insert_ne.
  - intros u Hu. by rewrite lookup_insert_ne.
Qed.

(** The unstep edge: the next step time follows, whatever the clock shows. *)
Lemma full_unstep_edge s a o x :
  objects s !! a = Some (O_stepper o) → timers (sched s) !! T_member a M_time = Some x →
  1 < st_count o < 2 ^ 32 → Z.odd (st_count o) = true →
  wp (stepper_event_full (T_member a M_time)) s
    (λ r s', r = SF_RESCHEDULE ∧
       objects s' !! a = Some (O_stepper (o <| st_count := st_count o - 1 |>
         <| st_next_step_time := u32 (st_next_step_time o + st_interval o) |>
         <| st_interval := u32 (st_interval o + st_add o) |>)) ∧
       is_Some (timers (sched s') !! T_member a M_time) ∧
       trace s' = EvToggle (st_step_pin o) :: trace s ∧ same_rest a s s') no_shut.
Proof.
  intros Ho Hx Hc He. unfold stepper_event_full. wstep. cbn [container_of]. do 2 wstep.
  eapply (wp_load a o); [done|]. do 6 wstep. cbn zeta. rewrite odd_nz. cbn [st_count upd].
  rewrite u32_small by (unfold_word; lia). rewrite Z.odd_sub, He. cbn [xorb Z.odd].
  unfold nz. rewrite (proj2 (Z.eqb_neq _ _)) by lia. cbn [negb]. do 2 wstep. unfold reschedule_min.
  destruct (timer_is_before _ _); do 3 wstep; unfold same_rest; cbn; rewrite !lookup_insert_eq;
    split_and!; try done; intros b Hb; by rewrite !lookup_insert_ne.
Qed.

Lemma same_rest_trans a s1 s2 s3 : same_rest a s1 s2 → same_rest a s2 s3 → same_rest a s1 s3.
Proof.
  intros (?&?&?&?&Ho12&Ht12) (?&?&?&?&Ho23&Ht23). split_and!; try congruence.
  - intros b Hb. by rewrite Ho23, Ho12.
  - intros u Hu. by rewrite Ht23, Ht12.
Qed.

Lemma full_run s a o x k :
  objects s !! a = Some (O_stepper o) → timers (sched s) !! T_member a M_time = Some x →
  0 ≤ st_interval o < 2 ^ 32 → 0 ≤ st_next_step_time o < 2 ^ 32 →
  2 * Z.of_nat k < st_count o < 2 ^ 32 → Z.even (st_count o) = true →
  wp (repeat_event stepper_event_full (T_member a M_time) (2 * k)) s
    (λ _ s', full_state s a o (Z.of_nat k) s') no_shut.
Proof.
  intros Ho Hx Hi Hw Hk He. induction k as [|k IH].
  - change (2 * 0)%nat with 0%nat. cbn [repeat_event]. wstep. change (Z.of_nat 0) with 0. unfold full_state, step_time.
    rewrite Z.sub_0_r, !Z.mul_0_l, Zdiv_0_l, Z.mul_0_r, !Z.add_0_r, !u32_small by done.
    split; [rewrite Ho; by destruct o|]. split; [by eauto|]. by split_and!.
  - replace (2 * S k)%nat with (S (S (2 * k))) by lia. do 2 apply repeat_event_S.
    eapply wp_use; [apply IH; lia|]. intros [] s1 (Ho1 & [x1 Hx1] & Ht1 & Hr1).
    eapply wp_use; [eapply full_step_edge; [exact Ho1|exact Hx1|cbn; lia|]|].
    { cbn. rewrite Z.even_sub, He, Z.even_mul. done. }
    intros r s2 (-> & Ho2 & [x2 Hx2] & Ht2 & Hr2). split; [done|].
    eapply wp_use; [eapply full_unstep_edge; [exact Ho2|exact Hx2|cbn; lia|]|].
    { cbn. rewrite !Z.odd_sub, Z.odd_mul, <- Z.negb_even, He. done. }
    intros r s3 (-> & Ho3 & [x3 Hx3] & Ht3 & Hr3). split; [done|]. unfold full_state.
    split; [|split; [by eauto|]; split].
    + rewrite Ho3. cbn. rewrite !u32_add_l, !u32_add_r, <- step_time_succ.
      replace (Z.of_nat k + 1) with (Z.of_nat (S k)) by lia.
      replace (st_interval o + Z.of_nat k * st_add o + st_add o)
        with (st_interval o + Z.of_nat (S k) * st_add o) by lia.
      replace (st_count o - 2 * Z.of_nat k - 1 - 1) with (st_count o - 2 * Z.of_nat (S k)) by lia. done.
    + rewrite Ht3, Ht2, Ht1, !Nat2Z.id. cbn. by replace (k + S (k + 0))%nat with (S (k + (k + 0))) by lia.
    + by do 2 (eapply same_rest_trans; [eassumption|]).
Qed.
End full.
