(* ===== verification/StepperProps.v ===== *)
(** * Correctness of step generation *)

From S2P Require Import Prelude State Runtime Bench Sched TimerQueue SchedSpec TimerService Basecmd.
From S2P Require Import BasecmdSpec PoolSpec OidSpec Trsync Stepper StepperSpec.

(** ** Step times modulo the clock *)

Lemma step_time_u32 w i a n : u32 (step_time (u32 w) (u32 i) a n) = u32 (step_time w i a n).
Proof.
  unfold step_time. generalize (n * (n - 1) / 2). intros t.
  replace (u32 w + n * u32 i + a * t) with (u32 w + (n * u32 i + a * t)) by lia.
  rewrite u32_add_l, Z.add_comm, <- Z.add_assoc, <- u32_add_l.
  replace (u32 (n * u32 i)) with (u32 (n * i)) by (unfold u32; by rewrite Zmult_mod_idemp_r).
  rewrite u32_add_l. f_equal. lia.
Qed.

Lemma step_time_shift w i a n : step_time (w + i) (i + a) a n = step_time w i a (n + 1).
Proof.
  unfold step_time. replace ((n + 1) * (n + 1 - 1)) with ((n + 1) * n) by lia. rewrite tri_succ. lia.
Qed.

Section times.
Context {B : Board}.

(** Load the next move, then run [k] events. *)
Definition load_and_run (event : tid → MC Z) (a : addr) (k : nat) : MC unit :=
  let! _ := stepper_load_next a in
  repeat_event event (T_member a M_time) k.

(** C31: A move loaded on a stepper that steps on both edges: after k steps the pin was toggled
    k times, the wake time is the start plus the closed form sum of the intervals interval +
    i*add, the steps left are count - k, and stepper_get_position reports the position advanced
    by k in the direction of the move. *)
Theorem edge_step_times s a o x m l f nm d k fwd p :
  stepper_ok s a o x (m :: l) f → moves s !! m = Some nm → n_data nm = MD_stepper d →
  HAVE_AVR_OPTIMIZATION = false → single o = true → pos_enc o fwd p →
  Z.of_nat k < sm_count d < 2 ^ 16 →
  - POSITION_BIAS < p - Z.of_nat k → p + Z.of_nat k < POSITION_BIAS →
  wp (load_and_run stepper_event_edge a k) s
    (λ _ s', ∃ o' x', objects s' !! a = Some (O_stepper o') ∧
       timers (sched s') !! T_member a M_time = Some x' ∧
       t_waketime x' = u32 (step_time (t_waketime x) (sm_interval d) (sm_add d) (Z.of_nat k + 1)) ∧
       st_count o' = sm_count d - Z.of_nat k ∧
       stepper_get_position o' = POSITION_BIAS +
         (if next_dir fwd d then p + Z.of_nat k else p - Z.of_nat k) ∧
       trace s' = replicate k (EvToggle (st_step_pin o)) ++
         (if has (sm_flags d) MF_DIR then [EvToggle (st_dir_pin o)] else []) ++ trace s)
    no_shut.
Proof.
  intros Hok Hnm Hd Havr Hs Hp Hk Hlo Hhi. destruct (Hok) as [Ho Hx Hq Hf Hn Hm].
  unfold load_and_run. wstep.
  eapply wp_use; [eapply (wp_stepper_load_next s a o x m l nm d f); try done|].
  { cbn in Hn. apply NoDup_cons in Hn as [Hn _]. rewrite elem_of_app in Hn. tauto. }
  intros r s1 (_ & (mq' & _ & Ho1) & Ht1 & _ & _ & Htr1 & _). cbn beta.
  set (o1 := load_stepper o d mq') in *.
  assert (single o1 = true ∧ st_count o1 = sm_count d ∧ st_add o1 = sm_add d ∧
    st_interval o1 = u32 (sm_interval d + sm_add d) ∧ st_step_pin o1 = st_step_pin o)
    as (Hs1 & Hc1 & Ha1 & Hi1 & Hp1).
  { subst o1. unfold load_stepper. rewrite Havr.
    destruct (single (o <| st_mq := _ |> <| st_add := _ |> <| st_interval := _ |>)) eqn:Hs';
      change (single o = false) in Hs' || clear Hs'; [by split_and!|congruence]. }
  eapply wp_use; [eapply (edge_run s1 a o1)|].
  - rewrite Ho1. by rewrite lookup_insert_eq.
  - rewrite Ht1. by rewrite lookup_insert_eq.
  - rewrite Hi1. apply u32_range.
  - apply u32_range.
  - rewrite Hc1. change (2 ^ 16) with 65536 in Hk. change (2 ^ 32) with 4294967296. lia.
  - intros [] s2 (Ho2 & Ht2 & Htr2 & _). eexists _, _. split; [exact Ho2|]. split; [exact Ht2|].
    cbn [t_waketime st_count upd]. rewrite Hc1, Ha1, Hi1. unfold load_waketime. rewrite Hs.
    split; [by rewrite step_time_u32, step_time_shift|]. split; [done|].
    split; [|by rewrite Htr2, Nat2Z.id, Htr1, Hp1].
    set (o2 := o1 <| st_count := _ |> <| st_interval := _ |>).
    assert (steps_left o2 = sm_count d - Z.of_nat k) as Hleft.
    { unfold steps_left. change (_ && _) with (single o1). by rewrite Hs1. }
    assert (pos_enc o2 (next_dir fwd d)
      (if next_dir fwd d then p + sm_count d else p - sm_count d)) as Henc
      by exact (load_position o d mq' fwd p Hp).
    rewrite (stepper_get_position_eq _ _ _ Henc); unfold pos_now; rewrite Hleft;
      destruct (next_dir fwd d); lia.
Qed.

(** The same for a stepper that needs a step and an unstep: after 2k events of
    stepper_event_full the pin was toggled 2k times, next_step_time is the closed form of k+1
    intervals, 2*(count-k) half steps are left and the reported position advanced by k. *)
Theorem full_step_times s a o x m l f nm d k fwd p :
  stepper_ok s a o x (m :: l) f → moves s !! m = Some nm → n_data nm = MD_stepper d →
  single o = false → pos_enc o fwd p → Z.of_nat k < sm_count d < 2 ^ 16 →
  - POSITION_BIAS < p - Z.of_nat k → p + Z.of_nat k < POSITION_BIAS →
  wp (load_and_run stepper_event_full a (2 * k)) s
    (λ _ s', ∃ o', objects s' !! a = Some (O_stepper o') ∧
       st_next_step_time o' =
         u32 (step_time (st_next_step_time o) (sm_interval d) (sm_add d) (Z.of_nat k + 1)) ∧
       st_count o' = 2 * (sm_count d - Z.of_nat k) ∧
       stepper_get_position o' = POSITION_BIAS +
         (if next_dir fwd d then p + Z.of_nat k else p - Z.of_nat k) ∧
       trace s' = replicate (2 * k) (EvToggle (st_step_pin o)) ++
         (if has (sm_flags d) MF_DIR then [EvToggle (st_dir_pin o)] else []) ++ trace s)
    no_shut.
Proof.
  intros Hok Hnm Hd Hs Hp Hk Hlo Hhi. destruct (Hok) as [Ho Hx Hq Hf Hn Hm].
  change (2 ^ 16) with 65536 in Hk. unfold load_and_run. wstep.
  eapply wp_use; [eapply (wp_stepper_load_next s a o x m l nm d f); try done|].
  { cbn in Hn. apply NoDup_cons in Hn as [Hn _]. rewrite elem_of_app in Hn. tauto. }
  intros r s1 (_ & (mq' & _ & Ho1) & Ht1 & _ & _ & Htr1 & _). cbn beta.
  set (o1 := load_stepper o d mq') in *.
  assert (single o1 = false ∧ st_count o1 = 2 * sm_count d ∧ st_add o1 = sm_add d ∧
    st_interval o1 = u32 (sm_interval d + sm_add d) ∧ st_step_pin o1 = st_step_pin o ∧
    st_next_step_time o1 = u32 (st_next_step_time o + sm_interval d))
    as (Hs1 & Hc1 & Ha1 & Hi1 & Hp1 & Hn1).
  { subst o1. unfold load_stepper.
    destruct (single (o <| st_mq := _ |> <| st_add := _ |> <| st_interval := _ |>)) eqn:Hs';
      [change (single o = true) in Hs'; congruence|].
    split_and!; try done. cbn. rewrite u32_small; lia. }
  eapply wp_use; [eapply (full_run s1 a o1)|].
  - rewrite Ho1. by rewrite lookup_insert_eq.
  - rewrite Ht1. by rewrite lookup_insert_eq.
  - rewrite Hi1. apply u32_range.
  - rewrite Hn1. apply u32_range.
  - rewrite Hc1. change (2 ^ 32) with 4294967296. lia.
  - rewrite Hc1. by rewrite Z.even_mul.
  - intros [] s2 (Ho2 & _ & Htr2 & _). eexists. split; [exact Ho2|].
    cbn [st_next_step_time st_count upd]. rewrite Hc1, Ha1, Hi1, Hn1.
    split; [by rewrite step_time_u32, step_time_shift|]. split; [lia|].
    split; [|by rewrite Htr2, Nat2Z.id, Htr1, Hp1].
    set (o2 := o1 <| st_count := _ |> <| st_next_step_time := _ |> <| st_interval := _ |>).
    assert (steps_left o2 = sm_count d - Z.of_nat k) as Hleft.
    { unfold steps_left. change (_ && _) with (single o1). rewrite Hs1. cbn.
      replace (2 * sm_count d - 2 * Z.of_nat k) with ((sm_count d - Z.of_nat k) * 2) by lia.
      by rewrite Z.div_mul. }
    assert (pos_enc o2 (next_dir fwd d)
      (if next_dir fwd d then p + sm_count d else p - sm_count d)) as Henc
      by exact (load_position o d mq' fwd p Hp).
    rewrite (stepper_get_position_eq _ _ _ Henc); unfold pos_now; rewrite Hleft;
      destruct (next_dir fwd d); lia.
Qed.

(** A rescheduled event of stepper_event_full is never due earlier than step_pulse_ticks after
    the clock read when the step pin was toggled, so no pulse is shorter than configured; the
    moves are conserved. *)
Theorem stepper_event_full_min_pulse s a o x l f :
  stepper_ok s a o x l f →
  wp (stepper_event_full (T_member a M_time)) s
    (λ r s', conserves a l f s' ∧
       (r = SF_DONE ∧ l = [] ∨
        r = SF_RESCHEDULE ∧ ∃ x', timers (sched s') !! T_member a M_time = Some x' ∧
          timer_is_before (t_waketime x')
            (u32 (u32 (clock_at (hw_reads s)) + st_step_pulse_ticks o)) = false))
    no_shut.
Proof. apply wp_stepper_event_full. Qed.
End times.

(** ** Moves are never lost *)

Section moves.
Context {B : Board}.

Lemma conserves_store s a o x l f o' :
  stepper_ok s a o x l f → st_mq o' = st_mq o →
  conserves a l f (upd objects <[a := O_stepper o']> s).
Proof.
  intros Hok Hmq. exists o', x, l, f. split; [|done]. eapply stepper_ok_upd; try done; [|apply Hok].
  cbn. by rewrite lookup_insert_eq.
Qed.

Lemma stepper_ok_emit s a o x l f e :
  stepper_ok s a o x l f → stepper_ok (s <| trace := e |>) a o x l f.
Proof. intros Hok. eapply stepper_ok_upd; try done; apply Hok. Qed.

Lemma conserves_emit s a l f e : conserves a l f s → conserves a l f (s <| trace := e |>).
Proof. intros (o & x & l' & f' & Hok & Hp). exists o, x, l', f'. split; [|done]. by apply stepper_ok_emit. Qed.

Definition event_post a l f (r : Z) (s' : mcu) : Prop :=
  conserves a l f s' ∧ (r = SF_DONE ∧ l = [] ∨ r = SF_RESCHEDULE).

Lemma wp_stepper_event_edge s a o x l f :
  stepper_ok s a o x l f →
  wp (stepper_event_edge (T_member a M_time)) s (event_post a l f) no_shut.
Proof.
  intros Hok. unfold stepper_event_edge. wstep. cbn [container_of]. do 2 wstep.
  eapply (wp_load a o); [apply Hok|]. do 2 wstep. cbn zeta. set (s1 := upd trace _ s).
  assert (stepper_ok s1 a o x l f) as Hok1 by by apply stepper_ok_emit.
  destruct (nz _); [|eapply wp_use; [by eapply load_next_event|]; intros r s' (? & ? & _); by split].
  wstep. eapply wp_upd_timer; [apply Hok1|]. do 3 wstep. split; [|by right].
  eapply (conserves_store _ a o); [|done]. eapply (stepper_ok_upd s1); try done; [apply Hok1|].
  cbn. by rewrite lookup_insert_eq.
Qed.

Lemma wp_stepper_event_avr s a o x l f :
  stepper_ok s a o x l f →
  wp (stepper_event_avr (T_member a M_time)) s (event_post a l f) no_shut.
Proof.
  intros Hok. unfold stepper_event_avr. wstep. cbn [container_of]. do 2 wstep.
  eapply (wp_load a o); [apply Hok|]. do 2 wstep. cbn zeta. set (s1 := upd trace _ s).
  assert (stepper_ok s1 a o x l f) as Hok1 by by apply stepper_ok_emit.
  destruct (nz _).
  - wstep. eapply wp_upd_timer; [apply Hok1|]. do 5 wstep. split; [|by right].
    eapply (conserves_store _ a o); [|done]. apply stepper_ok_emit.
    eapply (stepper_ok_upd s1); try done; [apply Hok1|]. cbn. by rewrite lookup_insert_eq.
  - wstep. eapply wp_use; [by eapply load_next_event|]. intros r s' (Hc & Hr & (o' & Ho' & _)). cbn beta.
    wstep. eapply (wp_load a o'); [done|]. do 3 wstep. split; [by apply conserves_emit|done].
Qed.

(** C32: Every event of a stepper preserves its invariant (object, timer, linked queue of
    stepper moves, free list, all disjoint) and loses or duplicates no move: the moves queued
    and free afterwards are a permutation of those before; the timer ends only when no move is
    left. *)
Theorem stepper_event_conserves s a o x l f :
  stepper_ok s a o x l f →
  wp (stepper_event (T_member a M_time)) s
    (λ r s', (∃ o' x' l' f', stepper_ok s' a o' x' l' f' ∧ l' ++ f' ≡ₚ l ++ f) ∧
       (r = SF_DONE ∧ l = [] ∨ r = SF_RESCHEDULE))
    no_shut.
Proof.
  intros Hok. unfold stepper_event. destruct HAVE_EDGE_OPTIMIZATION; [by eapply wp_stepper_event_edge|].
  destruct HAVE_AVR_OPTIMIZATION; [by eapply wp_stepper_event_avr|].
  eapply wp_use; [by eapply wp_stepper_event_full|]. intros r s' [Hc Hr]. split; [done|]. tauto.
Qed.
End moves.

(** ** Stopping *)

Section stop.
Context {B : Board}.

(** stepper_stop in the middle of a move: the timer of the stepper leaves the queue, all its
    queued moves return to the free list, no step is left, a reset of the step clock is
    required, and the position reported afterwards is the one the motor had reached. *)
Theorem stepper_stop_halts s lo q P a o x l f fwd pend reason :
  sched_queue s lo q P → stepper_ok s a o x l f → pos_enc o fwd pend →
  - POSITION_BIAS < pos_now o fwd pend < POSITION_BIAS →
  wp (stepper_stop a reason) s
    (λ _ s', sched_queue s' lo (without (T_member a M_time) q) P ∧
       (∃ o', objects s' !! a = Some (O_stepper o') ∧ st_count o' = 0 ∧
          mq_rep (moves s') (st_mq o') [] ∧ has (st_flags o') SF_NEED_RESET = true ∧
          pos_enc o' false (pos_now o fwd pend) ∧
          stepper_get_position o' = POSITION_BIAS + pos_now o fwd pend) ∧
       free_rep s' (rev l ++ f) ∧
       (∀ b, b ≠ a → objects s' !! b = objects s !! b))
    no_shut.
Proof.
  intros Hq Hok Hp Hr. destruct (Hok) as [Ho Hx Hmq Hf Hn Hm].
  eapply wp_use; [eapply (wp_stepper_stop (TS := sched_service)); done|].
  intros [] s' (Hq' & (mq' & Hm0 & Ho') & Hf' & _). split; [done|].
  assert (pos_enc (stop_stepper o mq') false (pos_now o fwd pend)) as Hp'.
  { unfold pos_enc, stop_stepper. cbn. f_equal.
    rewrite (stepper_get_position_eq (o <| st_next_step_time := 0 |>) fwd pend); done. }
  split; [|split; [done|]; intros b Hb; rewrite Ho'; by rewrite lookup_insert_ne].
  exists (stop_stepper o mq'). split; [by rewrite Ho', lookup_insert_eq|]. split; [done|].
  split; [by split; [|constructor|]|]. split.
  { cbn. apply has_true. rewrite Z.land_lor_distr_l. rewrite <- Z.land_assoc.
    change (Z.land (Z.lor SF_INVERT_STEP SF_SINGLE_SCHED) SF_NEED_RESET) with 0.
    by rewrite Z.land_0_r. }
  split; [done|]. assert (steps_left (stop_stepper o mq') = 0) as Hl.
  { unfold steps_left, stop_stepper. cbn. by destruct (HAVE_SINGLE_SCHEDULE && _)%bool. }
  assert (pos_now (stop_stepper o mq') false (pos_now o fwd pend) = pos_now o fwd pend) as Hn'
    by (unfold pos_now at 1; rewrite Hl; lia).
  rewrite (stepper_get_position_eq _ _ _ Hp'); by rewrite Hn'.
Qed.
End stop.

(** ** Queueing *)

Section queueing.
Context {B : Board}.

(** The direction of the motor after the moves [ds]. *)
Definition dir_after (fwd : bool) (ds : list stepper_move) : bool := foldl next_dir fwd ds.

(** [ds] are the contents of the queued moves [l]. *)
Definition move_datas (s : mcu) (l : list addr) (ds : list stepper_move) : Prop :=
  Forall2 (λ m d, ∃ n, moves s !! m = Some n ∧ n_data n = MD_stepper d) l ds.

Lemma has_pow2 x n : 0 ≤ n → has x (2 ^ n) = Z.testbit x n.
Proof.
  intros Hn. unfold has, nz. rewrite land_pow2 by done.
  pose proof (Z.pow_pos_nonneg 2 n ltac:(lia) Hn).
  destruct (Z.testbit x n); [|done]. by rewrite (proj2 (Z.eqb_neq _ _)) by lia.
Qed.

Lemma has_lxor x m n : 0 ≤ m → 0 ≤ n →
  has (Z.lxor x (2 ^ m)) (2 ^ n) = xorb (has x (2 ^ n)) (m =? n).
Proof. intros Hm Hn. rewrite !has_pow2, Z.lxor_spec, Z.pow2_bits_eqb by done. done. Qed.

Lemma wp_move_alloc s m f :
  free_rep s (m :: f) →
  wp move_alloc s
    (λ r s', r = m ∧ free_rep s' f ∧ moves s' = moves s ∧ objects s' = objects s ∧
       sched s' = sched s) no_shut.
Proof.
  intros [(Hf & Hm & n & Hn & Hl) Hnd]. unfold move_alloc. repeat wstep. cbn.
  rewrite Hf, (proj2 (Z.eqb_neq _ _) Hm). repeat wstep. apply NoDup_cons in Hnd as [_ Hnd]. by split_and!.
Qed.

Lemma move_datas_ext s s' l ds :
  (∀ m, m ∈ l → n_data <$> moves s' !! m = n_data <$> moves s !! m) →
  move_datas s l ds → move_datas s' l ds.
Proof.
  intros Hext H. induction H as [|m d l ds (n & Hn & Hd) _ IH]; [constructor|]. constructor.
  - specialize (Hext m). rewrite Hn in Hext. feed Hext; [by left|]. cbn in Hext.
    destruct (moves s' !! m) as [n'|]; [|done]. injection Hext as Hext. exists n'. split; congruence.
  - apply IH. intros k Hk. apply Hext. by right.
Qed.

Lemma free_rep_ext s s' f :
  free_rep s f → move_free_list (base s') = move_free_list (base s) →
  (∀ m, m ∈ f → moves s' !! m = moves s !! m) → free_rep s' f.
Proof.
  intros [Hf Hn] Hb Hm. split; [|done]. rewrite Hb. eapply mlist_ext; [|exact Hf].
  intros a n Ha Hn'. exists n. by rewrite Hm.
Qed.

(** The contents of the move that [queue_step] makes. *)
Definition new_move (o : stepper) (interval count add : Z) : stepper_move :=
  mk_stepper_move (u32 interval) (i16 add) (u16 count)
    (if eqb (has (st_flags o) SF_LAST_DIR) (has (st_flags o) SF_NEXT_DIR) then 0 else MF_DIR).

Lemma new_move_dir fwd ds o interval count add :
  has (st_flags o) SF_LAST_DIR = dir_after fwd ds →
  dir_after fwd (ds ++ [new_move o interval count add]) = has (st_flags o) SF_NEXT_DIR.
Proof.
  intros Hd. unfold dir_after. rewrite foldl_snoc. fold (dir_after fwd ds). unfold next_dir, new_move.
  rewrite <- Hd. cbn. by destruct (has (st_flags o) SF_LAST_DIR), (has (st_flags o) SF_NEXT_DIR).
Qed.

(** The flags after the direction change was queued. *)
Lemma new_flags_dir o :
  let flags := if negb (eqb (has (st_flags o) SF_LAST_DIR) (has (st_flags o) SF_NEXT_DIR))
               then Z.lxor (st_flags o) SF_LAST_DIR else st_flags o in
  has flags SF_LAST_DIR = has (st_flags o) SF_NEXT_DIR ∧
  has flags SF_NEXT_DIR = has (st_flags o) SF_NEXT_DIR.
Proof.
  cbn zeta. pose proof (has_lxor (st_flags o) 0 0 ltac:(done) ltac:(done)) as H0.
  pose proof (has_lxor (st_flags o) 0 1 ltac:(done) ltac:(done)) as H1.
  change (2 ^ 0) with SF_LAST_DIR in *. change (2 ^ 1) with SF_NEXT_DIR in *. cbn [Z.eqb] in *.
  destruct (has (st_flags o) SF_LAST_DIR) eqn:Hl, (has (st_flags o) SF_NEXT_DIR) eqn:Hn;
    cbn [eqb negb xorb] in *; rewrite ?H0, ?H1, ?Hl, ?Hn; done.
Qed.

(** The object after a move was put at the end of its queue. *)
Lemma wp_push_move s a o x l m nm f flags d :
  stepper_ok s a o x l f → m ∉ l ++ f → m ≠ 0 → moves s !! m = Some nm → n_data nm = MD_stepper d →
  wp (let! '(_, mq) := move_queue_push m (st_mq o) in
      store a (o <| st_flags := flags |> <| st_mq := mq |>)) s
    (λ _ s', ∃ mq', stepper_ok s' a (o <| st_flags := flags |> <| st_mq := mq' |>) x (l ++ [m]) f ∧
       (∀ b, n_data <$> moves s' !! b = n_data <$> moves s !! b)) no_shut.
Proof.
  intros [Ho Hx Hq Hf Hn Hm] Hml Hm0 Hnm Hd. rewrite elem_of_app in Hml. wstep.
  eapply wp_use; [eapply wp_move_queue_push; try done; tauto|].
  intros [r mq'] s1 (Hq1 & _ & Hd1 & Hout & Hdata & Hs1). cbn beta iota. wstep. exists mq'.
  apply NoDup_app in Hn as (Hn1 & Hn2 & Hn3). split; [|done]. split; cbn.
  - by rewrite lookup_insert_eq.
  - by rewrite Hs1.
  - done.
  - eapply free_rep_ext; [done|by rewrite Hs1|]. intros b Hb. cbn. apply Hout.
    + intros ?. by apply (Hn2 b).
    + intros ->. tauto.
  - apply NoDup_app. split; [|split; [|done]].
    + apply NoDup_app. split; [done|]. split; [|apply NoDup_singleton].
      intros b Hb ->%list_elem_of_singleton. tauto.
    + intros b [Hb| ->%list_elem_of_singleton]%elem_of_app; [by apply Hn2|tauto].
  - intros b Hb. specialize (Hdata b). apply elem_of_app in Hb as [Hb| ->%list_elem_of_singleton].
    + destruct (Hm b Hb) as (n & d' & Hb1 & Hb2). rewrite Hb1 in Hdata. cbn in Hdata.
      destruct (moves s1 !! b) as [n'|]; [|done]. injection Hdata as Hdata. exists n', d'. split; congruence.
    + rewrite Hnm in Hdata. cbn in Hdata.
      destruct (moves s1 !! m) as [n'|]; [|done]. injection Hdata as Hdata. exists n', d. split; congruence.
Qed.

(** queue_step on a running stepper takes the first free move, appends it behind the queued
    moves with the given interval, count and add, and sets its direction flag so that after all
    queued moves the motor turns in the direction last requested by set_next_step_dir. *)
Theorem queue_step_appends s a0 interval count add a o x l m f fwd ds :
  oid_lookup a0 command_config_stepper_t s = Ret a s → stepper_ok s a o x l (m :: f) →
  st_count o ≠ 0 → u16 count ≠ 0 → move_datas s l ds →
  has (st_flags o) SF_LAST_DIR = dir_after fwd ds →
  wp (command_queue_step [a0; interval; count; add]) s
    (λ _ s', ∃ o', stepper_ok s' a o' x (l ++ [m]) f ∧
       move_datas s' (l ++ [m]) (ds ++ [new_move o interval count add]) ∧
       dir_after fwd (ds ++ [new_move o interval count add]) = has (st_flags o) SF_NEXT_DIR ∧
       has (st_flags o') SF_LAST_DIR = has (st_flags o) SF_NEXT_DIR ∧
       has (st_flags o') SF_NEXT_DIR = has (st_flags o) SF_NEXT_DIR)
    no_shut.
Proof.
  intros Hoid Hok Hc Hcnt Hds Hdir. destruct (Hok) as [Ho Hx Hq Hf Hn Hm].
  pose proof Hf as [(_ & Hm0 & nm & Hnm & _) _].
  rewrite <- Permutation_middle in Hn. apply NoDup_cons in Hn as [Hml Hn].
  unfold command_queue_step, arg. cbn [lookup list_lookup]. do 2 wstep.
  unfold stepper_oid_lookup. wstep. eapply wp_of_eq; [exact Hoid|]. wstep.
  eapply wp_use; [by apply (wp_move_alloc s m f)|]. intros m' s1 (-> & Hf1 & Hm1 & Ho1 & Hs1). cbn beta.
  do 5 wstep. unfold set_stepper_move. eapply wp_upd_node; [by rewrite Hm1|]. wstep.
  rewrite (proj2 (Z.eqb_neq _ _) Hcnt). do 6 wstep. eapply (wp_load a o); [cbn; by rewrite Ho1|].
  wstep. eapply wp_upd_node; [cbn; by rewrite lookup_insert_eq|]. wstep.
  unfold nz. rewrite (proj2 (Z.eqb_neq _ _) Hc). cbn [negb]. set (s2 := upd moves _ _).
  set (d := new_move o interval count add).
  assert (moves s2 = <[m := nm <| n_data := MD_stepper d |>]> (moves s)) as Hm2.
  { subst s2 d. unfold new_move. cbn. rewrite insert_insert_eq, Hm1.
    destruct (eqb (has (st_flags o) SF_LAST_DIR) (has (st_flags o) SF_NEXT_DIR)); by destruct nm. }
  assert (∀ b, b ∈ l ++ f → moves s2 !! b = moves s !! b) as Hm3.
  { intros b Hb. rewrite Hm2, lookup_insert_ne; [done|]. by intros ->. }
  assert (stepper_ok s2 a o x l f) as Hok2.
  { split; try done; cbn; rewrite ?Ho1, ?Hs1; try done.
    - eapply mq_rep_ext; [|exact Hq]. intros b Hb. apply Hm3, elem_of_app. by left.
    - eapply free_rep_ext; [exact Hf1|done|]. intros b Hb. rewrite Hm3, Hm1; [done|].
      apply elem_of_app. by right.
    - intros b Hb. rewrite Hm3 by (apply elem_of_app; by left). by apply Hm. }
  eapply wp_use; [eapply (wp_push_move s2 a o x l m (nm <| n_data := MD_stepper d |>) f); try done|].
  { rewrite Hm2. by rewrite lookup_insert_eq. }
  intros [] s3 (mq' & Hok3 & Hdata). wstep. eexists. split.
  { eapply stepper_ok_upd; [exact Hok3|done|done|apply Hok3|apply Hok3|done]. }
  split; [|split; [by apply new_move_dir|exact (new_flags_dir o)]].
  apply Forall2_app.
  - eapply (move_datas_ext s); [|done]. intros b Hb. cbn. rewrite Hdata, Hm3; [done|].
    apply elem_of_app. by left.
  - constructor; [|constructor]. specialize (Hdata m). rewrite Hm2, lookup_insert_eq in Hdata. cbn in Hdata.
    destruct (moves s3 !! m) as [n'|] eqn:Hn'; [|done]. injection Hdata as Hdata. by exists n'.
Qed.
End queueing.
