(* ===== verification/TrsyncSpec.v ===== *)
(** * Triggers stop every registered stepper, once *)

From S2P Require Import Prelude State Runtime Bench Sched TimerQueue SchedSpec TimerService Basecmd.
From S2P Require Import BasecmdSpec PoolSpec Trsync Stepper StepperSpec StepperProps.

(** The signals [l] hang on the list that starts at [p], each ready to stop its stepper. *)
Fixpoint slist (sg : gmap addr trsync_signal) (p : addr) (l : list addr) : Prop :=
  match l with
  | [] => p = 0
  | a :: l => p = a ∧ a ≠ 0 ∧ ∃ g, sg !! a = Some g ∧ sg_func g = Some SG_stepper_stop ∧
                slist sg (sg_next g) l
  end.

Lemma slist_ext sg sg' p l : (∀ a, a ∈ l → sg' !! a = sg !! a) → slist sg p l → slist sg' p l.
Proof.
  revert p. induction l as [|a l IH]; [done|]. intros p Hext (-> & Ha & g & Hg & Hf & Hl).
  split; [done|]. split; [done|]. exists g. rewrite Hext by by left. split; [done|]. split; [done|].
  apply IH; [|done]. intros b Hb. apply Hext. by right.
Qed.

(** Steppers with their queued moves, all separate and separate from the free list. *)
Record fleet (s : mcu) (L : list (addr * list addr)) (f : list addr) : Prop := {
  fl_each a l : (a, l) ∈ L → ∃ o x, objects s !! a = Some (O_stepper o) ∧
    timers (sched s) !! T_member a M_time = Some x ∧ mq_rep (moves s) (st_mq o) l;
  fl_addrs : NoDup (L.*1);
  fl_moves : NoDup (concat (L.*2) ++ f);
  fl_free : free_rep s f;
}.

(** The stepper at [a] takes no more steps until its clock is reset. *)
Definition halted (s : mcu) (a : addr) : Prop :=
  ∃ o, objects s !! a = Some (O_stepper o) ∧ st_count o = 0 ∧ mq_first (st_mq o) = 0 ∧
    has (st_flags o) SF_NEED_RESET = true.

(** The timers of the steppers in [l] taken off a queue. *)
Definition without_all (l : list addr) (q : list entry) : list entry :=
  foldl (λ q a, without (T_member a M_time) q) q l.

Lemma need_reset_set x : has (Z.lor x SF_NEED_RESET) SF_NEED_RESET = true.
Proof.
  change SF_NEED_RESET with (2 ^ 3). rewrite has_pow2, Z.lor_spec, Z.pow2_bits_true by done. apply orb_true_r.
Qed.

Section trigger.
Context {B : Board} {TS : TimerService}.

(** Stopping the first stepper of a fleet leaves the others as they are. *)
Lemma wp_stop_first s lo q P a l L f reason :
  tq s lo q P → fleet s ((a, l) :: L) f →
  wp (stepper_stop a reason) s
    (λ _ s', tq s' lo (without (T_member a M_time) q) P ∧ fleet s' L (rev l ++ f) ∧ halted s' a ∧
       (∀ b, b ≠ a → objects s' !! b = objects s !! b) ∧ signals s' = signals s ∧ wakes s' = wakes s)
    no_shut.
Proof.
  intros Hq [Heach Had Hmv Hf]. cbn in Had, Hmv. rewrite <- app_assoc in Hmv.
  destruct (Heach a l) as (o & x & Ho & Hx & Hmq); [by left|].
  apply NoDup_cons in Had as [Ha Had]. pose proof (NoDup_app l (concat L.*2 ++ f)) as [Hsep _].
  destruct (Hsep Hmv) as (Hl & Hdis & Hrest).
  eapply wp_use; [eapply wp_stepper_stop; try done|].
  { apply NoDup_app. split; [done|]. split; [|by apply NoDup_app in Hrest as (_ & _ & ?)].
    intros b Hb Hbf. apply (Hdis b Hb), elem_of_app. by right. }
  intros [] s' (Hq' & (mq' & Hm0 & Ho') & Hf' & Hmoves & Hsg & Hwk & Hts). split; [done|].
  split; [|split; [|split; [|done]]].
  - split; try done.
    + intros b lb Hb. destruct (Heach b lb) as (ob & xb & Hob & Hxb & Hqb); [by right|].
      assert (b ≠ a) as Hba by (intros ->; apply Ha; by apply (list_elem_of_fmap_2' fst _ (a, lb))).
      destruct (Hts (T_member b M_time)) as [x' Hx']; [by rewrite Hxb|done|].
      exists ob, x'. split; [by rewrite Ho', lookup_insert_ne|]. split; [done|].
      eapply mq_rep_ext; [|exact Hqb]. intros m Hm. apply Hmoves. intros Hml.
      apply (Hdis m Hml), elem_of_app. left. apply list_elem_of_In, in_concat. exists lb.
      rewrite <- !list_elem_of_In. split; [|done]. by apply (list_elem_of_fmap_2' snd _ (b, lb)).
    + rewrite (Permutation_app_comm (rev l)), <- Permutation_rev, app_assoc, Permutation_app_comm. done.
  - exists (stop_stepper o mq'). rewrite Ho', lookup_insert_eq. split; [done|]. split; [done|].
    split; [done|]. apply need_reset_set.
  - intros b Hb. by rewrite Ho', lookup_insert_ne.
Qed.

Definition fired (s : mcu) ts o (l : list addr) lo q P (s' : mcu) : Prop :=
  tq s' lo (without_all l q) P ∧ (∀ a, a ∈ l → halted s' a) ∧
  objects s' !! ts = Some (O_trsync (o <| ts_signals := 0 |>)) ∧
  (∀ b, b ∉ l → b ≠ ts → objects s' !! b = objects s !! b) ∧
  (∀ a, a ∈ l → signals s' !! a = Some (mk_signal 0 None)) ∧
  (∀ a, a ∉ l → signals s' !! a = signals s !! a).

Lemma wp_dispatch_signals fuel s ts o L f lo q P reason :
  tq s lo q P → objects s !! ts = Some (O_trsync o) → slist (signals s) (ts_signals o) (L.*1) →
  fleet s L f → (length L < fuel)%nat →
  wp (dispatch_signals signal_callback fuel ts reason) s
    (λ _ s', fired s ts o (L.*1) lo q P s') no_shut.
Proof.
  revert s o L f q. induction fuel as [|fuel IH]; intros s o L f q Hq Ho Hsl Hfl Hfu; [lia|].
  cbn [dispatch_signals]. wstep. eapply (wp_load ts o); [done|]. destruct L as [|[a l] L].
  { cbn in Hsl. rewrite Hsl. cbn [Z.eqb]. wstep. split; [done|]. split; [by intros a ?%elem_of_nil|].
    split; [rewrite Ho; by destruct o; cbn in *; subst|]. split; [done|].
    split; [by intros a ?%elem_of_nil|done]. }
  destruct Hsl as (Hts & Ha0 & g & Hg & Hgf & Hsl).
  change (slist (signals s) (sg_next g) (L.*1)) in Hsl. cbn in Hts, Ha0, Hg. rewrite Hts.
  rewrite (proj2 (Z.eqb_neq _ _) Ha0). do 5 wstep. eapply wp_upd_signal; [exact Hg|]. wstep.
  eapply wp_upd_signal; [cbn; by rewrite lookup_insert_eq|]. wstep. rewrite Hgf. do 2 wstep.
  cbn [signal_callback].
  set (o1 := o <| ts_signals := sg_next g |>). set (s1 := upd signals _ _).
  assert (fleet s1 ((a, l) :: L) f) as Hfl1.
  { destruct Hfl as [Heach Had Hmv Hf]. split; try done. intros b lb Hb.
    destruct (Heach b lb Hb) as (ob & xb & Hob & Hxb & Hqb). exists ob, xb. split; [|done].
    cbn. rewrite lookup_insert_ne; [done|]. intros ->. congruence. }
  assert (a ≠ ts ∧ a ∉ L.*1) as [Hats HaL].
  { destruct Hfl as [Heach Had _ _]. cbn in Had. apply NoDup_cons in Had as [? _]. split; [|done].
    destruct (Heach a l) as (oa & ? & Hoa & _); [by left|]. intros ->. congruence. }
  eapply wp_use; [apply (wp_stop_first s1 lo q P a l L f); [|done]|].
  { by eapply tq_ext; [..|exact Hq]. }
  intros [] s2 (Hq2 & Hfl2 & Hh2 & Hob2 & Hsg2 & _). cbn beta.
  eapply wp_use; [eapply (IH s2 o1 L (rev l ++ f)); try done|].
  - rewrite Hob2 by done. cbn. by rewrite lookup_insert_eq.
  - rewrite Hsg2. eapply slist_ext; [|exact Hsl]. intros b Hb. cbn.
    rewrite !lookup_insert_ne; [done|by intros ->..].
  - cbn in Hfu. lia.
  - intros [] s' (Hq' & Hh' & Ho' & Hobj & Hsgl & Hsg'). split; [done|]. split; [|split; [done|split; [|split]]].
    + intros b [->|Hb]%elem_of_cons; [|by apply Hh'].
      destruct Hh2 as (oa & Hoa & Hrest). exists oa. split; [|done]. by rewrite Hobj.
    + intros b Hb Hbt. cbn in Hb. apply not_elem_of_cons in Hb as [Hba Hb].
      rewrite Hobj, Hob2 by done. cbn. by rewrite lookup_insert_ne.
    + intros b [->|Hb]%elem_of_cons; [|by apply Hsgl].
      rewrite Hsg', Hsg2 by done. cbn. by rewrite lookup_insert_eq.
    + intros b Hb. cbn in Hb. apply not_elem_of_cons in Hb as [Hba Hb].
      rewrite Hsg', Hsg2 by done. cbn. by rewrite !lookup_insert_ne.
Qed.
End trigger.

Lemma slist_lookup sg p l a : slist sg p l → a ∈ l → is_Some (sg !! a).
Proof.
  revert p. induction l as [|b l IH]; intros p; [by intros _ ?%elem_of_nil|].
  intros (-> & _ & g & Hg & _ & Hl) [->|Ha]%elem_of_cons; [by eauto|]. by eapply IH.
Qed.

(** The trsync object after a trigger with [reason]. *)
Definition triggered (o : trsync) (reason : Z) : trsync :=
  o <| ts_signals := 0 |> <| ts_trigger_reason := u8 reason |>
    <| ts_flags := u8 (Z.lor (Z.land (ts_flags o) (Z.lnot TSF_CAN_TRIGGER)) TSF_REPORT) |>.

Lemma triggered_flags o reason :
  has (ts_flags (triggered o reason)) TSF_CAN_TRIGGER = false ∧
  has (ts_flags (triggered o reason)) TSF_REPORT = true.
Proof.
  unfold triggered. cbn. unfold u8. change TSF_CAN_TRIGGER with (2 ^ 0). change TSF_REPORT with (2 ^ 2).
  rewrite !has_pow2, !Z.mod_pow2_bits_low, !Z.lor_spec, !Z.land_spec, Z.lnot_spec by lia.
  rewrite !Z.pow2_bits_eqb by lia. cbn. by rewrite andb_false_r, orb_true_r.
Qed.

Section once.
Context {B : Board} {TS : TimerService}.

(** A trsync that cannot trigger ignores the trigger. *)
Lemma trigger_ignored callback s ts o reason :
  objects s !! ts = Some (O_trsync o) → has (ts_flags o) TSF_CAN_TRIGGER = false →
  trsync_do_trigger callback ts reason s = Ret tt s.
Proof.
  intros Ho Hf. unfold trsync_do_trigger.
  assert (load (T := trsync) ts s = Ret o s) as Hl by by apply load_eq.
  rewrite (bind_ret_eq _ _ _ _ _ Hl).
  by rewrite Hf.
Qed.

Definition trigger_post (s : mcu) ts o l lo q P reason (s' : mcu) : Prop :=
  tq s' lo (without_all l q) P ∧ (∀ a, a ∈ l → halted s' a) ∧
  objects s' !! ts = Some (O_trsync (triggered o reason)) ∧
  (∀ a, a ∈ l → signals s' !! a = Some (mk_signal 0 None)) ∧
  wakes s' trsync_wake = 1 ∧ tasks_status (sched s') = TS_REQUESTED.

Lemma wp_trsync_do_trigger s ts o L f lo q P reason :
  tq s lo q P → objects s !! ts = Some (O_trsync o) → has (ts_flags o) TSF_CAN_TRIGGER = true →
  slist (signals s) (ts_signals o) (L.*1) → fleet s L f →
  wp (trsync_do_trigger signal_callback ts reason) s
    (λ _ s', trigger_post s ts o (L.*1) lo q P reason s') no_shut.
Proof.
  intros Hq Ho Hcan Hsl Hfl. unfold trsync_do_trigger. wstep. eapply (wp_load ts o); [done|].
  rewrite Hcan. cbn [negb]. do 5 wstep. set (o1 := o <| ts_trigger_reason := _ |> <| ts_flags := _ |>).
  set (s1 := upd objects _ s).
  eapply wp_use; [eapply (wp_dispatch_signals _ s1 ts o1 L f lo q P)|].
  - by eapply tq_ext; [..|exact Hq].
  - cbn. by rewrite lookup_insert_eq.
  - done.
  - destruct Hfl as [Heach Had Hmv Hf]. split; try done. intros b lb Hb.
    destruct (Heach b lb Hb) as (ob & xb & Hob & Hxb & Hqb). exists ob, xb. split; [|done].
    cbn. rewrite lookup_insert_ne; [done|]. intros ->. congruence.
  - apply Nat.lt_succ_r. rewrite <- (length_fmap fst L). apply NoDup_size; [apply Hfl|].
    intros a. by eapply slist_lookup.
  - intros [] s2 (Hq2 & Hh2 & Ho2 & _ & Hsg2 & _). do 3 wstep. split; [by eapply tq_ext; [..|exact Hq2]|].
    split; [done|]. split; [exact Ho2|]. split; [done|]. split; [|done].
    cbn. by rewrite decide_True.
Qed.
End once.

Section theorems.
Context {B : Board}.

(** C3: When a trsync object that can trigger is triggered, every stepper on its signal list is
    halted (no step left, empty move queue, reset needed), the timers of exactly these steppers
    leave the timer queue, the reason is latched with a report requested, and every later
    trigger of the object changes nothing. *)
Theorem trsync_trigger_stops_all s ts o L f lo q P reason :
  sched_queue s lo q P → objects s !! ts = Some (O_trsync o) →
  has (ts_flags o) TSF_CAN_TRIGGER = true →
  slist (signals s) (ts_signals o) (L.*1) → fleet s L f →
  wp (trsync_do_trigger signal_callback ts reason) s
    (λ _ s', sched_queue s' lo (without_all (L.*1) q) P ∧ (∀ a, a ∈ L.*1 → halted s' a) ∧
       objects s' !! ts = Some (O_trsync (triggered o reason)) ∧
       wakes s' trsync_wake = 1 ∧
       (∀ reason', trsync_do_trigger signal_callback ts reason' s' = Ret tt s'))
    no_shut.
Proof.
  intros Hq Ho Hcan Hsl Hfl.
  eapply wp_use; [by apply (wp_trsync_do_trigger (TS := sched_service) s ts o L f lo q P)|].
  intros [] s' (Hq' & Hh & Ho' & _ & Hw & _). split_and!; try done.
  intros r. eapply trigger_ignored; [done|]. apply triggered_flags.
Qed.
End theorems.
