(* ===== verification/EndstopSpec.v ===== *)
(** * End stops trigger after [sample_count] consecutive matching samples *)

From S2P Require Import Prelude State Runtime Bench Sched TimerQueue SchedSpec TimerService Basecmd.
From S2P Require Import BasecmdSpec PoolSpec Trsync Stepper Endstop Firmware StepperSpec StepperProps.
From S2P Require Import TrsyncSpec.

(** ** The abstract sampler

    Between polls an end stop rests, or it has seen [hits] matching samples in a row. *)

Inductive sampler := Resting | Sampling (hits : Z).

(** One sample; [None] is the trigger. *)
Definition sample (count hits : Z) (matches : bool) : option sampler :=
  if matches then if hits + 1 =? count then None else Some (Sampling (hits + 1)) else Some Resting.

(** One poll: a resting end stop that sees a match samples again at once. *)
Definition poll_spec (count : Z) (m : sampler) (first second : bool) : option sampler :=
  match m with
  | Resting => if first then sample count 0 second else Some Resting
  | Sampling hits => sample count hits first
  end.

(** [n] matching polls in a row from rest do not trigger before the last of [count]. *)
Lemma poll_spec_run count n :
  0 < count → 0 ≤ n < count →
  poll_spec count (if n =? 0 then Resting else Sampling n) true true =
    (if n + 1 =? count then None else Some (Sampling (n + 1))).
Proof. intros Hc Hn. destruct (Z.eqb_spec n 0) as [->|?]; done. Qed.

(** Run an [upd_timer] on the timer [x]. *)
Ltac run_upd_timer x Hx :=
  match goal with
  | |- context [mbind ?k (upd_timer ?t ?g) ?st] =>
      rewrite (bind_ret_eq (upd_timer t g) k st tt _ (upd_timer_eq st t x g Hx)); cbn beta
  end.

Section endstop.
Context {B : Board}.

(** The scheduler calls the function of the timer. *)
Definition poll (t : tid) : MC Z :=
  let! x := get_timer t in
  timer_call (t_func x) t.

(** The level of the pin that read number [n] finds is the wanted one. *)
Definition pin_matches (e : endstop) (n : nat) : bool :=
  negb (no_match (b2z (pin_at (es_pin e) n)) (es_flags e)).

Record es_rep (s : mcu) (a : addr) (e : endstop) (x : timer) (m : sampler) : Prop := {
  er_obj : objects s !! a = Some (O_endstop e);
  er_timer : timers (sched s) !! T_member a M_time = Some x;
  er_count : 0 < es_sample_count e < 256;
  er_mode : match m with
            | Resting => t_func x = F_endstop_event ∧ es_trigger_count e = es_sample_count e
            | Sampling h => t_func x = F_endstop_oversample_event ∧ 0 ≤ h < es_sample_count e ∧
                            es_trigger_count e = es_sample_count e - h
            end;
}.

(** What a poll keeps of the configuration. *)
Definition same_config (e e' : endstop) : Prop :=
  es_pin e' = es_pin e ∧ es_flags e' = es_flags e ∧ es_sample_count e' = es_sample_count e ∧
  es_sample_time e' = es_sample_time e ∧ es_rest_time e' = es_rest_time e ∧ es_ts e' = es_ts e ∧
  es_trigger_reason e' = es_trigger_reason e.

(** Only the end stop at [a] and its timer differ. *)
Definition es_frame (a : addr) (s s' : mcu) : Prop :=
  moves s' = moves s ∧ base s' = base s ∧ signals s' = signals s ∧
  (∀ b, b ≠ a → objects s' !! b = objects s !! b) ∧
  timer_list (sched s') = timer_list (sched s) ∧ last_insert (sched s') = last_insert (sched s) ∧
  (∀ u, u ≠ T_member a M_time → timers (sched s') !! u = timers (sched s) !! u).

(** The outcome of a poll that does not trigger, or the trigger that remains to be run. *)
Definition poll_post (s : mcu) a e x (n : option sampler) (run : result mcu Z) : Prop :=
  match n with
  | Some m' => ∃ s' e' x', run = Ret SF_RESCHEDULE s' ∧ es_rep s' a e' x' m' ∧
                 same_config e e' ∧ es_frame a s s'
  | None => ∃ s1 e1 f, es_frame a s s1 ∧ objects s1 !! a = Some (O_endstop e1) ∧ same_config e e1 ∧
              timers (sched s1) !! T_member a M_time = Some (x <| t_func := f |>) ∧
              run = (trsync_do_trigger signal_callback (es_ts e) (es_trigger_reason e);;; mret SF_DONE) s1
  end.

Lemma oversample_poll s a e x h :
  objects s !! a = Some (O_endstop e) → timers (sched s) !! T_member a M_time = Some x →
  0 < es_sample_count e < 256 → t_func x = F_endstop_oversample_event → 0 ≤ h < es_sample_count e →
  es_trigger_count e = es_sample_count e - h →
  poll_post s a e x (sample (es_sample_count e) h (pin_matches e (hw_reads s)))
    (endstop_oversample_event (T_member a M_time) s).
Proof.
  intros Ho Hx Hc Hf Hh Ht. unfold endstop_oversample_event. cbn [container_of].
  assert (load (T := endstop) a s = Ret e s) as Hl by by apply load_eq.
  rewrite (bind_ret_eq _ _ _ a s) by done. rewrite (bind_ret_eq _ _ _ _ _ Hl).
  set (s1 := s <| hw_reads := S (hw_reads s) |>).
  rewrite (bind_ret_eq (gpio_in_read (es_pin e)) _ s (b2z (pin_at (es_pin e) (hw_reads s))) s1) by done.
  unfold sample, pin_matches. destruct (no_match _ _) eqn:Hm; cbn [negb].
  - rewrite (bind_ret_eq _ _ _ _ _ (upd_timer_eq s1 _ x _ Hx)). eexists _, _, _. split; [reflexivity|].
    unfold es_frame. split.
    { split; cbn; [by rewrite lookup_insert_eq|by rewrite lookup_insert_eq|done|done]. }
    split; [done|]. cbn. split_and!; try done.
    + intros b Hb. by rewrite lookup_insert_ne.
    + intros u Hu. by rewrite lookup_insert_ne.
  - rewrite Ht, u8_small by lia. unfold nz.
    destruct (Z.eqb_spec (h + 1) (es_sample_count e)) as [He|He].
    + rewrite (proj2 (Z.eqb_eq _ _)) by lia. cbn [negb]. exists s1, e, (t_func x).
      split_and!; try done. etransitivity; [exact Hx|]. by destruct x.
    + rewrite (proj2 (Z.eqb_neq _ _)) by lia. cbn [negb]. set (e1 := e <| es_trigger_count := _ |>).
      rewrite (bind_ret_eq (store a e1) _ s1 tt (upd objects <[a := O_endstop e1]> s1)) by done.
      cbn beta.
      run_upd_timer x Hx. eexists _, _, _.
      split; [reflexivity|]. unfold es_frame. split.
      { split; [cbn; by rewrite lookup_insert_eq|cbn; by rewrite lookup_insert_eq|done|].
        split; [done|]. unfold e1. cbn [es_trigger_count es_sample_count upd]. lia. }
      split; [done|]. cbn. split_and!; try done.
      * intros b Hb. by rewrite lookup_insert_ne.
      * intros u Hu. by rewrite lookup_insert_ne.
Qed.

Lemma es_frame_trans a s1 s2 s3 : es_frame a s1 s2 → es_frame a s2 s3 → es_frame a s1 s3.
Proof.
  intros (?&?&?&Ho1&?&?&Ht1) (?&?&?&Ho2&?&?&Ht2). split_and!; try congruence.
  - intros b Hb. by rewrite Ho2, Ho1.
  - intros u Hu. by rewrite Ht2, Ht1.
Qed.

Lemma poll_refines s a e x m :
  es_rep s a e x m →
  poll_post s a e x (poll_spec (es_sample_count e) m (pin_matches e (hw_reads s))
                       (pin_matches e (S (hw_reads s))))
    (poll (T_member a M_time) s).
Proof.
  intros [Ho Hx Hc Hm]. unfold poll. rewrite (bind_ret_eq _ _ _ _ _ (get_timer_eq _ _ _ Hx)).
  destruct m as [|h]; cbn [poll_spec]; destruct Hm as [Hf Hm]; rewrite Hf; cbn [timer_call].
  2:{ destruct Hm. by eapply oversample_poll. }
  unfold endstop_event. cbn [container_of].
  assert (load (T := endstop) a s = Ret e s) as Hl by by apply load_eq.
  rewrite (bind_ret_eq _ _ _ a s) by done. rewrite (bind_ret_eq _ _ _ _ _ Hl).
  set (s1 := s <| hw_reads := S (hw_reads s) |>).
  rewrite (bind_ret_eq (gpio_in_read (es_pin e)) _ s (b2z (pin_at (es_pin e) (hw_reads s))) s1) by done.
  rewrite (bind_ret_eq _ _ _ _ _ (get_timer_eq s1 _ _ Hx)). cbn zeta.
  unfold pin_matches at 1. destruct (no_match _ _) eqn:Hn; cbn [negb].
  - rewrite (bind_ret_eq _ _ _ _ _ (upd_timer_eq s1 _ x _ Hx)). eexists _, e, _. split; [reflexivity|].
    unfold es_frame. split; [split; cbn; [done|by rewrite lookup_insert_eq|done|done]|].
    split; [done|]. cbn. split_and!; try done. intros u Hu. by rewrite lookup_insert_ne.
  - set (e1 := e <| es_nextwake := _ |>).
    rewrite (bind_ret_eq (store a e1) _ s1 tt (upd objects <[a := O_endstop e1]> s1)) by done.
      cbn beta.
    run_upd_timer x Hx. set (s2 := upd sched _ _).
    assert (es_frame a s s2) as Hfr.
    { split_and!; try done; cbn; [intros b Hb|intros u Hu]; by rewrite lookup_insert_ne. }
    pose proof (oversample_poll s2 a e1 (x <| t_func := F_endstop_oversample_event |>) 0) as Hos.
    cbn -[sample] in Hos. rewrite !lookup_insert_eq in Hos. specialize (Hos eq_refl eq_refl Hc eq_refl).
    feed Hos; [lia|]. feed Hos; [lia|]. fold s2 in Hos.
    change (pin_matches e1 (S (hw_reads s))) with (pin_matches e (S (hw_reads s))) in Hos.
    destruct (sample _ _ _) as [m'|].
    + destruct Hos as (s' & e' & x' & Hr & Hrep & Hcfg & Hfr'). exists s', e', x'.
      split; [exact Hr|]. split; [done|]. split; [done|]. by eapply es_frame_trans.
    + destruct Hos as (s' & e' & f & Hfr' & Ho' & Hcfg & Hx' & Hr). exists s', e', f.
      split; [by eapply es_frame_trans|]. by split_and!.
Qed.

(** ** Counting samples *)

Lemma pin_matches_config e e' n : same_config e e' → pin_matches e' n = pin_matches e n.
Proof. intros (Hp & Hf & _). unfold pin_matches. by rewrite Hp, Hf. Qed.

Lemma same_config_trans e1 e2 e3 : same_config e1 e2 → same_config e2 e3 → same_config e1 e3.
Proof. unfold same_config. intros (?&?&?&?&?&?&?) (?&?&?&?&?&?&?). split_and!; congruence. Qed.

(** After [k] matching polls the sampler counts [k] hits. *)
Lemma polls_count s a e x k :
  es_rep s a e x Resting → Z.of_nat k < es_sample_count e → (∀ n, pin_matches e n = true) →
  wp (repeat_event poll (T_member a M_time) k) s
    (λ _ s', ∃ e' x', es_rep s' a e' x' (if Z.of_nat k =? 0 then Resting else Sampling (Z.of_nat k)) ∧
       same_config e e' ∧ es_frame a s s') no_shut.
Proof.
  intros Hrep Hk Hall. induction k as [|k IH].
  - cbn [repeat_event]. wstep. exists e, x. split; [done|]. by split; split_and!.
  - apply repeat_event_S. eapply wp_use; [apply IH; lia|]. intros [] s1 (e1 & x1 & Hrep1 & Hcfg & Hfr).
    pose proof (poll_refines _ _ _ _ _ Hrep1) as Hp. pose proof Hcfg as (_ & _ & Hsc & _).
    rewrite !(pin_matches_config e e1), !Hall, Hsc in Hp by done.
    rewrite poll_spec_run in Hp by lia. rewrite (proj2 (Z.eqb_neq _ _)) in Hp by lia.
    destruct Hp as (s2 & e2 & x2 & Hr & Hrep2 & Hcfg2 & Hfr2). eapply wp_of_eq; [exact Hr|].
    split; [done|]. exists e2, x2. rewrite (proj2 (Z.eqb_neq _ _)) by lia.
    replace (Z.of_nat (S k)) with (Z.of_nat k + 1) by lia. split; [done|].
    split; [by eapply same_config_trans|by eapply es_frame_trans].
Qed.
End endstop.

Section trigger.
Context {B : Board}.

(** Changing a timer's function leaves the queue alone. *)
Lemma queue_func s lo q P t x f :
  sched_queue s lo q P → timers (sched s) !! t = Some x →
  sched_queue (upd sched (upd timers <[t := x <| t_func := f |>]>) s) lo q P.
Proof.
  intros (q0 & [Hl Ho] & Hq & Hlo) Hx. exists q0. split; [|done]. split; [|done].
  destruct Hl as [Hc Hh Hnd Hw (y & Hy & Hyw) Hli Hdel [z Hz]].
  assert (∀ u v, timers (sched s) !! u = Some v →
    ∃ v', <[t := x <| t_func := f |>]> (timers (sched s)) !! u = Some v' ∧ t_next v' = t_next v ∧
      t_waketime v' = t_waketime v) as Hk.
  { intros u v Hu. destruct (decide (t = u)) as [<-|?].
    - rewrite lookup_insert_eq. eexists. split; [done|]. by rewrite Hx in Hu; injection Hu as <-.
    - rewrite lookup_insert_ne by done. by exists v. }
  split; cbn; try done.
  - eapply chain_ext; [|exact Hc]. intros u v _ Hu. destruct (Hk u v Hu) as (v' & ? & ? & _). by exists v'.
  - intros u w Hu. destruct (Hw u w Hu) as (v & Hv & Hvw).
    destruct (Hk u v Hv) as (v' & ? & _ & ?). exists v'. split; congruence.
  - destruct (Hk _ _ Hy) as (v' & ? & _ & ?). exists v'. split; congruence.
  - destruct (Hk _ _ Hz) as (v' & ? & _). by exists v'.
Qed.

Lemma fleet_ext s s' L f :
  moves s' = moves s → base s' = base s →
  (∀ a l, (a, l) ∈ L → objects s' !! a = objects s !! a ∧
     timers (sched s') !! T_member a M_time = timers (sched s) !! T_member a M_time) →
  fleet s L f → fleet s' L f.
Proof.
  intros Hm Hb Hext [Heach Had Hmv [Hf Hfn]]. split; try done.
  - intros a l Ha. destruct (Hext a l Ha) as [Ho Ht]. rewrite Ho, Ht, Hm. by apply Heach.
  - split; [by rewrite Hm, Hb|done].
Qed.

(** C5: The end stop poll that completes the required run of samples triggers the trsync of the
    end stop: it ends its own timer (SF_DONE), halts all the steppers of the trsync, takes
    their timers off the queue and latches the trigger reason of the end stop. *)
Theorem endstop_poll_triggers s a e x m ts o L f lo q P :
  es_rep s a e x m →
  poll_spec (es_sample_count e) m (pin_matches e (hw_reads s)) (pin_matches e (S (hw_reads s))) = None →
  es_ts e = ts → objects s !! ts = Some (O_trsync o) → has (ts_flags o) TSF_CAN_TRIGGER = true →
  slist (signals s) (ts_signals o) (L.*1) → fleet s L f → sched_queue s lo q P →
  wp (poll (T_member a M_time)) s
    (λ r s', r = SF_DONE ∧ (∀ b, b ∈ L.*1 → halted s' b) ∧
       sched_queue s' lo (without_all (L.*1) q) P ∧
       objects s' !! ts = Some (O_trsync (triggered o (es_trigger_reason e))))
    no_shut.
Proof.
  intros Hrep Hspec Hts Ho Hcan Hsl Hfl Hq. pose proof (poll_refines _ _ _ _ _ Hrep) as Hp.
  rewrite Hspec in Hp. unfold poll_post in Hp. rewrite Hts in Hp. destruct Hrep as [He Hx _ _].
  destruct Hp as (s1 & e1 & g & (Hm1 & Hb1 & Hs1 & Ho1 & Htl & Hli & Ht1) & _ & _ & Hx1 & Hr).
  assert (ts ≠ a) as Htsa by congruence. unfold wp. rewrite Hr. fold (wp (trsync_do_trigger
    signal_callback ts (es_trigger_reason e);;; mret SF_DONE) s1
    (λ r s', r = SF_DONE ∧ (∀ b, b ∈ L.*1 → halted s' b) ∧
       sched_queue s' lo (without_all (L.*1) q) P ∧
       objects s' !! ts = Some (O_trsync (triggered o (es_trigger_reason e)))) no_shut).
  wstep. eapply wp_use; [eapply (wp_trsync_do_trigger (TS := sched_service) s1 ts o L f lo q P)|].
  - eapply (tq_ext (TimerService := sched_service)); [..|by apply (queue_func s lo q P (T_member a M_time) x g)]; try done.
    apply map_eq. intros u. cbn. destruct (decide (u = T_member a M_time)) as [->|?].
    + by rewrite Hx1, lookup_insert_eq.
    + by rewrite Ht1, lookup_insert_ne.
  - by rewrite Ho1.
  - done.
  - by rewrite Hs1.
  - eapply fleet_ext; [done|done| |exact Hfl]. intros b l Hb.
    destruct (fl_each _ _ _ Hfl b l Hb) as (ob & xb & Hob & _). assert (b ≠ a) by congruence.
    split; [by apply Ho1|]. apply Ht1. congruence.
  - intros [] s' (Hq' & Hh & Ho' & _). wstep. by split_and!.
Qed.

(** With the pin at the wanted level all along, k polls from rest leave the end stop
    untriggered, and the next poll triggers exactly when k + 1 is the configured sample count.
    *)
Theorem endstop_needs_all_samples s a e x k o :
  es_rep s a e x Resting → objects s !! es_ts e = Some (O_trsync o) →
  (∀ n, pin_matches e n = true) → Z.of_nat k < es_sample_count e →
  wp (repeat_event poll (T_member a M_time) k) s
    (λ _ s', ∃ e' x' m, es_rep s' a e' x' m ∧ objects s' !! es_ts e = Some (O_trsync o) ∧
       (poll_spec (es_sample_count e') m (pin_matches e' (hw_reads s'))
          (pin_matches e' (S (hw_reads s'))) = None ↔ Z.of_nat k + 1 = es_sample_count e))
    no_shut.
Proof.
  intros Hrep Ho Hall Hk. eapply wp_use; [by eapply polls_count|].
  intros [] s' (e' & x' & Hrep' & Hcfg & Hfr). eexists e', x', _. split; [exact Hrep'|]. split.
  - destruct Hfr as (_ & _ & _ & Hobj & _). rewrite Hobj; [done|]. destruct Hrep. congruence.
  - rewrite !(pin_matches_config e e'), !Hall by done. destruct Hcfg as (_ & _ & -> & _).
    rewrite poll_spec_run by lia. destruct (Z.eqb_spec (Z.of_nat k + 1) (es_sample_count e)); done.
Qed.

(** A poll of the end stop refines the two state sampler (Resting, Sampling n): a mismatch
    returns to rest, a match counts, and as long as the sampler does not trigger, the poll
    reschedules itself and changes only the end stop and its timer. *)
Theorem endstop_poll_refines s a e x m m' :
  es_rep s a e x m →
  poll_spec (es_sample_count e) m (pin_matches e (hw_reads s)) (pin_matches e (S (hw_reads s))) = Some m' →
  ∃ s' e' x', poll (T_member a M_time) s = Ret SF_RESCHEDULE s' ∧ es_rep s' a e' x' m' ∧
    same_config e e' ∧ es_frame a s s'.
Proof. intros Hrep Hs. pose proof (poll_refines _ _ _ _ _ Hrep) as Hp. by rewrite Hs in Hp. Qed.
End trigger.
