(* ===== verification/InputsSpec.v ===== *)
(** * Debouncing and counting of pins, and the range check of the analog inputs *)

From S2P Require Import Prelude State Runtime Bench Sched SchedSpec Basecmd Trsync Stepper Inputs StepperSpec.
From S2P Require Import StepperProps.

(** * Buttons: debouncing and acknowledgement; pulse counters *)

(** ** Debouncing *)

(** The value of [pressed] after a poll that read [status]. *)
Definition debounce (pressed last_pressed status : Z) : Z :=
  let diff := Z.lxor status pressed in
  let debounced := u8 (Z.lnot (Z.lxor status last_pressed)) in
  if nz diff && has diff debounced
  then Z.lor (Z.land pressed (Z.lnot debounced)) (Z.land status debounced)
  else pressed.

Lemma debounce_bit pressed last_pressed status i :
  0 ≤ i < 8 →
  Z.testbit (debounce pressed last_pressed status) i =
    if eqb (Z.testbit status i) (Z.testbit last_pressed i)
    then Z.testbit status i else Z.testbit pressed i.
Proof.
  intros Hi. unfold debounce. set (deb := u8 _).
  assert (Z.testbit deb i = eqb (Z.testbit status i) (Z.testbit last_pressed i)) as Hdeb.
  { subst deb. unfold u8. rewrite Z.mod_pow2_bits_low, Z.lnot_spec, Z.lxor_spec by lia.
    by destruct (Z.testbit status i), (Z.testbit last_pressed i). }
  destruct (nz (Z.lxor status pressed) && has (Z.lxor status pressed) deb)%bool eqn:Hb.
  - rewrite Z.lor_spec, !Z.land_spec, Z.lnot_spec, Hdeb by lia.
    by destruct (Z.testbit status i), (Z.testbit last_pressed i), (Z.testbit pressed i).
  - assert (Z.land (Z.lxor status pressed) deb = 0) as H0.
    { apply andb_false_iff in Hb as [Hb|Hb]; [|by apply has_false].
      unfold nz in Hb. bool_to_prop. by rewrite Hb. }
    assert (Z.testbit (Z.land (Z.lxor status pressed) deb) i = false) as Hz by by rewrite H0, Z.bits_0.
    rewrite Z.land_spec, Z.lxor_spec, Hdeb in Hz.
    by destruct (Z.testbit status i), (Z.testbit last_pressed i), (Z.testbit pressed i).
Qed.

Section buttons.
Context {B : Board}.

(** The level of pin number [i] found by a poll that starts with read [n]. *)
Definition pin_level (pins : list Z) (n : nat) (i : Z) : bool :=
  match pins !! Z.to_nat i with Some pin => pin_at pin (n + Z.to_nat i) | None => false end.

Lemma read_pins_eq pins k bit status s :
  (k ≤ length pins)%nat →
  ∃ st, read_pins pins k bit status s = Ret st (s <| hw_reads := (hw_reads s + k)%nat |>).
Proof.
  revert pins bit status s. induction k as [|k IH]; intros pins bit status s Hk.
  - exists status. rewrite Nat.add_0_r. by destruct s.
  - destruct pins as [|pin pins]; cbn in Hk; [lia|]. cbn [read_pins].
    rewrite (bind_ret_eq (gpio_in_read pin) _ s _ (s <| hw_reads := S (hw_reads s) |>) eq_refl).
    destruct (IH pins (u8 (Z.shiftl bit 1))
      (if nz (b2z (pin_at pin (hw_reads s))) then Z.lor status bit else status)
      (s <| hw_reads := S (hw_reads s) |>)) as [st Hst]; [lia|].
    exists st. rewrite Hst. cbn. by rewrite Nat.add_succ_r.
Qed.

Lemma read_pins_bits pins k j status s st s' :
  (k ≤ length pins)%nat → 0 ≤ j → j + Z.of_nat k ≤ 8 →
  (∀ i, j ≤ i → Z.testbit status i = false) →
  read_pins pins k (2 ^ j) status s = Ret st s' →
  ∀ i, 0 ≤ i → Z.testbit st i =
    if (j <=? i) && (i <? j + Z.of_nat k) then pin_level pins (hw_reads s) (i - j)
    else Z.testbit status i.
Proof.
  revert pins j status s. induction k as [|k IH]; intros pins j status s Hk Hj Hjk Hst Hr i Hi.
  - cbn in Hr. injection Hr as <- <-. destruct (Z.leb_spec j i), (Z.ltb_spec i (j + Z.of_nat 0)); cbn; try done; lia.
  - destruct pins as [|pin pins]; cbn in Hk; [lia|]. cbn [read_pins] in Hr.
    rewrite (bind_ret_eq (gpio_in_read pin) _ s _ (s <| hw_reads := S (hw_reads s) |>) eq_refl) in Hr.
    set (b := pin_at pin (hw_reads s)) in Hr.
    set (st1 := if nz (b2z b) then Z.lor status (2 ^ j) else status) in Hr.
    assert (∀ i, 0 ≤ i → Z.testbit st1 i = if i =? j then b else Z.testbit status i) as Hst1.
    { intros i' Hi'. subst st1. destruct b; cbn.
      - rewrite Z.lor_spec, Z.pow2_bits_eqb, (Z.eqb_sym j) by lia.
        destruct (Z.eqb_spec i' j); [by rewrite orb_true_r|by rewrite orb_false_r].
      - destruct (Z.eqb_spec i' j) as [->|?]; [|done]. apply Hst. lia. }
    destruct k as [|k].
    { cbn in Hr. injection Hr as <- <-. rewrite Hst1 by done. unfold pin_level.
      destruct (Z.eqb_spec i j) as [->|?].
      - rewrite (proj2 (Z.leb_le _ _)), (proj2 (Z.ltb_lt _ _)), Z.sub_diag by lia. cbn. by rewrite Nat.add_0_r.
      - destruct (Z.leb_spec j i), (Z.ltb_spec i (j + Z.of_nat 1)); cbn; try done; lia. }
    replace (u8 (Z.shiftl (2 ^ j) 1)) with (2 ^ (j + 1)) in Hr.
    2:{ rewrite Z.shiftl_mul_pow2, <- Z.pow_add_r by lia. symmetry. apply u8_small.
        split; [apply Z.pow_nonneg; lia|]. change 256 with (2 ^ 8). apply Z.pow_lt_mono_r; lia. }
    assert (∀ i, j + 1 ≤ i → Z.testbit st1 i = false) as Hst2.
    { intros i' Hi'. rewrite Hst1 by lia. destruct (Z.eqb_spec i' j); [lia|]. apply Hst. lia. }
    rewrite (IH pins (j + 1) st1 _ ltac:(lia) ltac:(lia) ltac:(lia) Hst2 Hr i Hi).
    rewrite Hst1 by done. cbn [hw_reads upd]. unfold pin_level.
    destruct (Z.eqb_spec i j) as [->|Hne].
    + rewrite (proj2 (Z.leb_gt (j + 1) j)), (proj2 (Z.leb_le j j)) by lia. cbn [andb].
      rewrite (proj2 (Z.ltb_lt j _)), Z.sub_diag by lia. cbn. by rewrite Nat.add_0_r.
    + replace (j + 1 + Z.of_nat (S k)) with (j + Z.of_nat (S (S k))) by lia.
      destruct (Z.leb_spec (j + 1) i), (Z.leb_spec j i); try lia; [|done].
      destruct (i <? j + Z.of_nat (S (S k))); [|done]. cbn [andb].
      replace (Z.to_nat (i - j)) with (S (Z.to_nat (i - (j + 1)))) by lia. cbn [lookup list_lookup].
      destruct (pins !! _); [|done]. f_equal. lia.
Qed.

(** ** One poll *)

(** The levels of all pins as bits. *)
Definition poll_status (b : buttons) (n : nat) (status : Z) : Prop :=
  ∀ i, 0 ≤ i → Z.testbit status i = if i <? bt_button_count b then pin_level (bt_pins b) n i else false.

(** The queue of reports gets the new value when it changed and there is room. *)
Definition report (b : buttons) (pressed : Z) : list Z * Z :=
  if (bt_report_count b <? 8) && negb (pressed =? bt_pressed b)
  then (<[Z.to_nat (bt_report_count b) := pressed]> (bt_reports b), u8 (bt_report_count b + 1))
  else (bt_reports b, bt_report_count b).

Lemma debounce_changed pressed last_pressed status :
  (nz (Z.lxor status pressed) &&
   has (Z.lxor status pressed) (u8 (Z.lnot (Z.lxor status last_pressed))))%bool =
  negb (debounce pressed last_pressed status =? pressed).
Proof.
  unfold debounce. set (deb := u8 _). destruct (nz _ && has _ deb)%bool eqn:Hb; [|by rewrite Z.eqb_refl].
  apply andb_prop in Hb as [_ Hb]. apply has_true in Hb. symmetry. apply negb_true_iff, Z.eqb_neq.
  intros Heq. apply Hb. apply Z.bits_inj'. intros i Hi. rewrite Z.bits_0, Z.land_spec, Z.lxor_spec.
  apply (f_equal (λ z, Z.testbit z i)) in Heq.
  rewrite Z.lor_spec, !Z.land_spec, Z.lnot_spec in Heq by done.
  by destruct (Z.testbit status i), (Z.testbit pressed i), (Z.testbit deb i).
Qed.

(** A buttons poll changes the reported state of a button only when the last two polls agree on
    it, and queues a report when the state changed and the queue of eight has room, waking the
    task. *)
Theorem buttons_event_debounces s a b x :
  objects s !! a = Some (O_buttons b) → timers (sched s) !! T_member a M_time = Some x →
  0 ≤ bt_button_count b ≤ 8 → Z.of_nat (length (bt_pins b)) = bt_button_count b →
  wp (buttons_event (T_member a M_time)) s
    (λ r s', r = SF_RESCHEDULE ∧ ∃ b' status, objects s' !! a = Some (O_buttons b') ∧
       poll_status b (hw_reads s) status ∧ bt_last_pressed b' = status ∧
       (∀ i, 0 ≤ i < 8 → Z.testbit (bt_pressed b') i =
          if eqb (Z.testbit status i) (Z.testbit (bt_last_pressed b) i)
          then Z.testbit status i else Z.testbit (bt_pressed b) i) ∧
       (bt_reports b', bt_report_count b') = report b (bt_pressed b') ∧
       (bt_report_count b' ≠ bt_report_count b → wakes s' buttons_wake = 1))
    no_shut.
Proof.
  intros Ho Hx Hbc Hlen. unfold buttons_event. cbn [container_of]. do 3 wstep.
  eapply (wp_load a b); [done|].
  destruct (read_pins_eq (bt_pins b) (Z.to_nat (bt_button_count b)) 1 0 s) as [st Hst]; [lia|].
  pose proof (read_pins_bits (bt_pins b) (Z.to_nat (bt_button_count b)) 0 0 s st _ ltac:(lia) ltac:(lia) ltac:(lia)
    ltac:(intros; apply Z.bits_0) Hst) as Hbits.
  wstep. eapply wp_of_eq; [exact Hst|]. cbn beta zeta. set (s1 := s <| hw_reads := _ |>).
  pose proof (debounce_changed (bt_pressed b) (bt_last_pressed b) st) as Hch.
  set (pr := debounce (bt_pressed b) (bt_last_pressed b) st) in *.
  wstep. eapply (wp_conseq _ _ (λ b1 s2, bt_pressed b1 = pr ∧
    (bt_reports b1, bt_report_count b1) = report b pr ∧ objects s2 = objects s ∧
    timers (sched s2) = timers (sched s) ∧
    (bt_report_count b1 ≠ bt_report_count b → wakes s2 buttons_wake = 1))).
  { unfold report. destruct (nz (Z.lxor st (bt_pressed b))) eqn:Hd; [destruct (has _ _) eqn:Hh|].
    - unfold add_report. cbn [bt_report_count upd]. cbn in Hch. rewrite <- Hch.
      assert (pr = Z.lor (Z.land (bt_pressed b) (Z.lnot (u8 (Z.lnot (Z.lxor st (bt_last_pressed b))))))
        (Z.land st (u8 (Z.lnot (Z.lxor st (bt_last_pressed b)))))) as ->.
      { subst pr. unfold debounce. by rewrite Hd, Hh. }
      destruct (bt_report_count b <? 8); [|by wstep]. repeat wstep. by split_and!.
    - wstep. cbn in Hch. rewrite <- Hch, andb_false_r. subst pr. unfold debounce. by rewrite Hd, Hh.
    - wstep. cbn in Hch. rewrite <- Hch, andb_false_r. subst pr. unfold debounce. by rewrite Hd. }
  intros b1 s2 (Hp & Hr & Ho2 & Ht2 & Hw2). cbn beta.
  wstep. eapply (wp_conseq _ _ (λ b2 s3, (∃ rs, b2 = b1 <| bt_last_pressed := st |>
      <| bt_retransmit_state := rs |>) ∧ objects s3 = objects s ∧
    timers (sched s3) = timers (sched s) ∧
    (bt_report_count b1 ≠ bt_report_count b → wakes s3 buttons_wake = 1))).
  { destruct (has (bt_retransmit_state _) BF_NO_RETRANSMIT); cbn [negb];
      [wstep; split; [exists (bt_retransmit_state b1); by destruct b1|done]|].
    wstep. apply wp_when; intros _; repeat wstep; (split; [by eexists|]); by split_and!. }
  intros b2 s3 ([rs ->] & Ho3 & Ht3 & Hw3). do 3 wstep.
  eapply wp_upd_timer; [cbn; rewrite Ht3; exact Hx|]. wstep. split; [done|]. eexists _, st.
  split; [cbn; by rewrite lookup_insert_eq|]. split; [|split; [done|split; [|split; [|done]]]].
  - intros i Hi. rewrite Hbits by done. rewrite Z2Nat.id, Z.sub_0_r, Z.bits_0 by lia.
    by rewrite (proj2 (Z.leb_le 0 i)) by lia.
  - intros i Hi. cbn. rewrite Hp. by apply debounce_bit.
  - cbn. by rewrite Hp.
Qed.

(** ** Acknowledgement *)

Lemma shift_reports_length n i c l : length (shift_reports n i c l) = length l.
Proof. revert i l. induction n; intros i l; cbn; [done|]. by rewrite IHn, length_insert. Qed.

Lemma shift_reports_lookup n i c l j :
  (i + n + c ≤ length l)%nat →
  shift_reports n i c l !! j =
    if (decide (i ≤ j < i + n)%nat) then l !! (j + c)%nat else l !! j.
Proof.
  revert i l. induction n as [|n IH]; intros i l Hl; cbn [shift_reports].
  { rewrite decide_False by lia. done. }
  rewrite IH by (rewrite ?length_insert; lia).
  destruct (lookup_lt_is_Some_2 l (i + c)) as [v Hv]; [lia|]. rewrite Hv. cbn [default].
  destruct (decide (S i ≤ j < S i + n)%nat).
  - rewrite decide_True by lia. by rewrite list_lookup_insert_ne by lia.
  - destruct (decide (j = i)) as [->|?].
    + rewrite decide_True, list_lookup_insert_eq by lia. done.
    + rewrite decide_False, list_lookup_insert_ne by lia. done.
Qed.

(** buttons_ack with a count drops exactly the oldest count reports of the pending ones,
    keeping the order of the rest, and stops retransmission when none is left. *)
Theorem buttons_ack_drops_acked s a0 a count b :
  oid_lookup a0 command_config_buttons_t s = Ret a s → objects s !! a = Some (O_buttons b) →
  0 ≤ count < 256 → 0 ≤ bt_report_count b ≤ 8 → length (bt_reports b) = 8%nat →
  wp (command_buttons_ack [a0; count]) s
    (λ _ s', ∃ b', objects s' !! a = Some (O_buttons b') ∧
       take (Z.to_nat (bt_report_count b')) (bt_reports b') =
         drop (Z.to_nat count) (take (Z.to_nat (bt_report_count b)) (bt_reports b)) ∧
       bt_ack_count b' = u8 (bt_ack_count b + count) ∧
       (bt_report_count b' = 0 → 0 < bt_report_count b → bt_retransmit_state b' = BF_ACKED))
    no_shut.
Proof.
  intros Hoid Ho Hc Hrc Hlen. unfold command_buttons_ack, arg. cbn [lookup list_lookup]. do 3 wstep.
  eapply wp_of_eq; [exact Hoid|]. do 3 wstep. cbn zeta. rewrite u8_small by done.
  eapply (wp_upd_obj a b); [done|]. do 3 wstep.
  eapply (wp_load a (b <| bt_ack_count := _ |>)); [cbn; by rewrite lookup_insert_eq|].
  cbn [bt_report_count upd]. wstep. destruct (Z.leb_spec (bt_report_count b) count).
  - wstep. wstep. eexists. cbn. rewrite lookup_insert_eq. split; [done|]. cbn. split; [|done].
    rewrite drop_ge; [done|]. rewrite length_take. lia.
  - wstep. wstep. cbn zeta. rewrite u8_small by lia. eexists. cbn. rewrite lookup_insert_eq.
    split; [done|]. cbn. split; [|split; [done|lia]].
    apply list_eq. intros j. destruct (decide (j < Z.to_nat (bt_report_count b - count))%nat).
    + rewrite lookup_take_lt by lia. rewrite shift_reports_lookup, decide_True by lia.
      rewrite lookup_drop, lookup_take_lt by lia. by rewrite Nat.add_comm.
    + rewrite lookup_take_ge by lia. symmetry. apply lookup_ge_None_2.
      rewrite length_drop, length_take. lia.
Qed.
End buttons.

(** ** Pulse counters *)

Section counter.
Context {B : Board}.

(** A counter poll increments the count exactly when the pin level differs from its parity, so
    the parity of the count always is the level of the last poll, and requests a report once
    the sample time has passed. *)
Theorem counter_event_counts_edges s a c x :
  objects s !! a = Some (O_counter c) → timers (sched s) !! T_member a M_time = Some x →
  0 ≤ ct_count c < 2 ^ 32 →
  wp (counter_event (T_member a M_time)) s
    (λ r s', r = SF_RESCHEDULE ∧ ∃ c' x', objects s' !! a = Some (O_counter c') ∧
       timers (sched s') !! T_member a M_time = Some x' ∧
       t_waketime x' = u32 (t_waketime x + ct_poll_ticks c) ∧
       let value := b2z (pin_at (ct_pin c) (hw_reads s)) in
       Z.land (ct_count c') 1 = value ∧
       ct_count c' = u32 (ct_count c + b2z (negb (Z.land (ct_count c) 1 =? value))) ∧
       (timer_is_before (ct_next_sample_time c) (t_waketime x) = true →
          has (ct_flags c') CF_PENDING = true ∧ wakes s' counter_wake = 1))
    no_shut.
Proof.
  intros Ho Hx Hc. unfold counter_event. cbn [container_of]. do 3 wstep. eapply (wp_load a c); [done|].
  do 4 wstep. set (v := pin_at _ _).
  set (c1 := if negb (Z.land (ct_count c) 1 =? b2z v) then _ else c).
  assert (Z.land (ct_count c1) 1 = b2z v ∧
    ct_count c1 = u32 (ct_count c + b2z (negb (Z.land (ct_count c) 1 =? b2z v))) ∧
    ct_next_sample_time c1 = ct_next_sample_time c ∧ ct_poll_ticks c1 = ct_poll_ticks c)
    as (Hv & Hcnt & Hn & Hpt).
  { subst c1. rewrite !land_1. change (2 ^ 32) with 4294967296 in Hc.
    destruct (Z.eqb_spec (ct_count c mod 2) (b2z v)) as [He|He]; cbn [negb].
    - split; [done|]. rewrite Z.add_0_r, u32_small by done. done.
    - split; [|done]. cbn [ct_count upd]. unfold u32. change (2 ^ 32) with 4294967296.
      destruct v; cbn [b2z] in *; Z.to_euclidean_division_equations; lia. }
  do 3 wstep. rewrite Hn. eapply (wp_conseq _ _ (λ _ s2, ∃ c2, objects s2 !! a = Some (O_counter c2) ∧
    ct_count c2 = ct_count c1 ∧ timers (sched s2) = timers (sched s) ∧
    (timer_is_before (ct_next_sample_time c) (t_waketime x) = true →
       has (ct_flags c2) CF_PENDING = true ∧ wakes s2 counter_wake = 1))).
  { apply wp_when; intros Hb.
    - repeat wstep. eexists. cbn. rewrite lookup_insert_eq. split; [done|]. split; [done|]. split; [done|].
      intros _. cbn. split; [|by rewrite decide_True]. change CF_PENDING with (2 ^ 0).
      rewrite has_pow2, Z.lor_spec, Z.pow2_bits_true by done. apply orb_true_r.
    - exists c1. cbn. rewrite lookup_insert_eq. by rewrite Hb. }
  intros [] s2 (c2 & Ho2 & Hc2 & Ht2 & Hp2). wstep. eapply wp_upd_timer; [rewrite Ht2; exact Hx|]. wstep.
  split; [done|]. eexists c2, _. split; [done|]. split; [cbn; by rewrite lookup_insert_eq|].
  cbn [t_waketime upd]. rewrite Hpt, Hc2. by split_and!.
Qed.
End counter.

(** * Analog inputs: a report is the sum of its samples *)

Section adc.
Context {B : Board}.

(** The sum of [k] samples of [pin]; each event first asks whether the converter is ready,
    then reads it, from hardware read [n] on. *)
Fixpoint sum_samples (pin : Z) (n k : nat) : Z :=
  match k with
  | O => 0
  | S k => sum_samples pin n k + u16 (adc_value_at pin (n + 2 * k + 1))
  end.

(** The converter is always ready. *)
Definition adc_ready (pin : Z) : Prop := ∀ n, u32 (adc_delay_at pin n) = 0.

(** [k] samples of a report were taken since state [s]. *)
Definition sampled (s : mcu) a o x (k : nat) (s' : mcu) : Prop :=
  objects s' !! a = Some (O_analog_in
    (o <| ai_value := u16 (sum_samples (ai_pin o) (hw_reads s) k) |> <| ai_state := Z.of_nat k |>)) ∧
  timers (sched s') !! T_member a M_time =
    Some (x <| t_waketime := u32 (t_waketime x + Z.of_nat k * ai_sample_time o) |>) ∧
  hw_reads s' = (hw_reads s + 2 * k)%nat ∧ shutdown_status (sched s') = shutdown_status (sched s).

(** The sample of one event, before the report is complete. *)
Definition next_value (o : analog_in) (n : nat) : Z :=
  if ai_sample_count o <=? ai_state o then u16 (adc_value_at (ai_pin o) n)
  else u16 (u16 (adc_value_at (ai_pin o) n) + ai_value o).
Definition next_state (o : analog_in) : Z :=
  if ai_sample_count o <=? ai_state o then 1 else u8 (ai_state o + 1).

Lemma adc_event_sample s a o x :
  objects s !! a = Some (O_analog_in o) → timers (sched s) !! T_member a M_time = Some x →
  adc_ready (ai_pin o) → next_state o < ai_sample_count o →
  analog_in_event (T_member a M_time) s = Ret SF_RESCHEDULE
    (upd sched (upd timers <[T_member a M_time :=
        x <| t_waketime := u32 (t_waketime x + ai_sample_time o) |>]>)
      (upd objects <[a := O_analog_in (o <| ai_value := next_value o (S (hw_reads s)) |>
                                         <| ai_state := next_state o |>)]>
        (s <| hw_reads := S (S (hw_reads s)) |>))).
Proof.
  intros Ho Hx Hr Hst. destruct (wp_returns (analog_in_event (T_member a M_time)) s
    (λ r s', r = SF_RESCHEDULE ∧ s' = upd sched (upd timers <[T_member a M_time :=
        x <| t_waketime := u32 (t_waketime x + ai_sample_time o) |>]>)
      (upd objects <[a := O_analog_in (o <| ai_value := next_value o (S (hw_reads s)) |>
                                         <| ai_state := next_state o |>)]>
        (s <| hw_reads := S (S (hw_reads s)) |>)))) as (r & s' & Heq & -> & ->); [|done].
  unfold analog_in_event. cbn [container_of]. do 3 wstep. eapply (wp_load a o); [done|].
  wstep. eapply wp_of_eq; [reflexivity|]. rewrite Hr. cbn [nz Z.eqb negb].
  wstep. eapply wp_of_eq; [reflexivity|]. cbn [hw_reads upd].
  assert ((if ai_sample_count o <=? ai_state o then (0, u16 (adc_value_at (ai_pin o) (S (hw_reads s))))
           else (ai_state o, u16 (u16 (adc_value_at (ai_pin o) (S (hw_reads s))) + ai_value o))) =
          (if ai_sample_count o <=? ai_state o then 0 else ai_state o, next_value o (S (hw_reads s)))) as ->.
  { unfold next_value. by destruct (ai_sample_count o <=? ai_state o). }
  cbn beta iota zeta. assert (u8 ((if ai_sample_count o <=? ai_state o then 0 else ai_state o) + 1) = next_state o)
    as ->. { unfold next_state. by destruct (ai_sample_count o <=? ai_state o). }
  do 2 wstep. cbn [ai_state ai_sample_count upd]. rewrite (proj2 (Z.ltb_lt _ _)) by done.
  wstep. eapply (wp_upd_timer _ x); [exact Hx|]. wstep. done.
Qed.

Lemma u16_add_r x y : u16 (x + u16 y) = u16 (x + y).
Proof. apply Zplus_mod_idemp_r. Qed.

(** The first k samples of an ADC report accumulate exactly the sum (modulo 2^16) of the k
    values read, with the timer advanced by sample_time for each. *)
Theorem analog_in_sums_samples s a o x k :
  objects s !! a = Some (O_analog_in o) → timers (sched s) !! T_member a M_time = Some x →
  adc_ready (ai_pin o) → ai_sample_count o < 256 → ai_sample_count o ≤ ai_state o →
  0 < Z.of_nat k < ai_sample_count o →
  wp (repeat_event analog_in_event (T_member a M_time) k) s
    (λ _ s', sampled s a o x k s') no_shut.
Proof.
  intros Ho Hx Hr Hsc Hst Hk. destruct k as [|k]; [lia|]. induction k as [|k IH].
  - apply repeat_event_S. cbn [repeat_event]. wstep. eapply wp_of_eq.
    { apply adc_event_sample; [done|done|done|]. unfold next_state. rewrite (proj2 (Z.leb_le _ _)) by done. lia. }
    split; [done|]. unfold sampled. cbn [objects sched timers hw_reads shutdown_status upd].
    rewrite !lookup_insert_eq. unfold next_state, next_value. rewrite (proj2 (Z.leb_le _ _)) by done.
    split_and!; try done.
    + cbn [sum_samples]. replace (hw_reads s + 2 * 0 + 1)%nat with (S (hw_reads s)) by lia.
      rewrite Z.add_0_l. by rewrite (u16_small (u16 _)) by apply u16_range.
    + by rewrite Z.mul_1_l.
    + lia.
  - apply repeat_event_S. eapply wp_use; [apply IH; lia|].
    intros [] s1 (Ho1 & Hx1 & Hh1 & Hs1). eapply wp_of_eq.
    { eapply adc_event_sample; [exact Ho1|exact Hx1|done|]. unfold next_state. cbn [ai_state ai_sample_count upd].
      rewrite (proj2 (Z.leb_gt _ _)), u8_small by lia. lia. }
    split; [done|]. unfold sampled. cbn [objects sched timers hw_reads shutdown_status upd].
    rewrite !lookup_insert_eq. unfold next_state, next_value. cbn [ai_state ai_sample_count ai_pin ai_value upd].
    rewrite !(proj2 (Z.leb_gt _ _)), u8_small by lia. split_and!; try done.
    + rewrite u16_add_r, Hh1. replace (S (hw_reads s + 2 * S k)) with (hw_reads s + 2 * S k + 1)%nat by lia.
      rewrite (Z.add_comm (u16 _)). change (sum_samples (ai_pin o) (hw_reads s) (S k) + u16 _)
        with (sum_samples (ai_pin o) (hw_reads s) (S (S k))).
      replace (Z.of_nat (S k) + 1) with (Z.of_nat (S (S k))) by lia. done.
    + cbn [t_waketime ai_sample_time upd]. rewrite u32_add_l.
      replace (t_waketime x + Z.of_nat (S k) * ai_sample_time o + ai_sample_time o)
        with (t_waketime x + Z.of_nat (S (S k)) * ai_sample_time o) by lia. done.
    + rewrite Hh1. lia.
Qed.

(** ** The last sample of a report *)

Definition in_range (o : analog_in) (v : Z) : bool := (ai_min_value o <=? v) && (v <=? ai_max_value o).

(** The sample that completes a report checks the range: the count of consecutive out of range
    reports is reset by a good one, and a machine that runs is shut down exactly when
    range_check_count consecutive reports are out of range; otherwise the task is woken and the
    next report scheduled. *)
Theorem analog_in_range_check s a o x :
  objects s !! a = Some (O_analog_in o) → timers (sched s) !! T_member a M_time = Some x →
  adc_ready (ai_pin o) → ai_sample_count o ≤ next_state o →
  let v := next_value o (S (hw_reads s)) in
  let bad := u8 (ai_invalid_count o + 1) in
  wp (analog_in_event (T_member a M_time)) s
    (λ r s', r = SF_RESCHEDULE ∧ wakes s' analog_wake = 1 ∧
       ∃ o', objects s' !! a = Some (O_analog_in o') ∧ ai_value o' = v ∧ ai_state o' = next_state o ∧
         ai_invalid_count o' = (if in_range o v then 0 else
                                if ai_range_check_count o <=? bad then 0 else bad) ∧
         ai_next_begin_time o' = u32 (ai_next_begin_time o + ai_rest_time o) ∧
         (in_range o v = true ∨ bad < ai_range_check_count o ∨ shutdown_status (sched s) ≠ 0))
    (λ r s', r = "ADC out of range" ∧ in_range o v = false ∧ ai_range_check_count o ≤ bad ∧
       shutdown_status (sched s) = 0).
Proof.
  intros Ho Hx Hr Hst v bad. unfold analog_in_event. cbn [container_of]. do 3 wstep.
  eapply (wp_load a o); [done|]. wstep. eapply wp_of_eq; [reflexivity|]. rewrite Hr. cbn [nz Z.eqb negb].
  wstep. eapply wp_of_eq; [reflexivity|]. cbn [hw_reads upd].
  assert ((if ai_sample_count o <=? ai_state o then (0, u16 (adc_value_at (ai_pin o) (S (hw_reads s))))
           else (ai_state o, u16 (u16 (adc_value_at (ai_pin o) (S (hw_reads s))) + ai_value o))) =
          (if ai_sample_count o <=? ai_state o then 0 else ai_state o, v)) as ->.
  { subst v. unfold next_value. by destruct (ai_sample_count o <=? ai_state o). }
  cbn beta iota zeta. assert (u8 ((if ai_sample_count o <=? ai_state o then 0 else ai_state o) + 1) = next_state o)
    as ->. { unfold next_state. by destruct (ai_sample_count o <=? ai_state o). }
  set (o1 := o <| ai_value := v |> <| ai_state := next_state o |>). set (s1 := upd hw_reads _ _).
  do 2 wstep. cbn [ai_state ai_sample_count upd]. rewrite (proj2 (Z.ltb_ge _ _)) by done. wstep.
  eapply (wp_conseq _ _ (λ o2 s2, o2 = o1 <| ai_invalid_count := if in_range o v then 0 else
      if ai_range_check_count o <=? bad then 0 else bad |> ∧ sched s2 = sched s ∧
    (in_range o v = true ∨ bad < ai_range_check_count o ∨ shutdown_status (sched s) ≠ 0))).
  { change ((ai_min_value o1 <=? ai_value o1) && (ai_value o1 <=? ai_max_value o1)) with (in_range o v).
    destruct (in_range o v) eqn:Hir; [wstep; split_and!; try done; by left|]. do 2 wstep.
    change (ai_range_check_count (o1 <| ai_invalid_count := u8 (ai_invalid_count o1 + 1) |>))
      with (ai_range_check_count o).
    change (ai_invalid_count (o1 <| ai_invalid_count := u8 (ai_invalid_count o1 + 1) |>)) with bad.
    destruct (Z.leb_spec (ai_range_check_count o) bad).
    - wstep. unfold sched_try_shutdown. do 2 wstep. apply wp_when; intros Hb; unfold nz in Hb; bool_to_prop.
      + unfold sched_shutdown. repeat wstep. by split_and!.
      + wstep. split_and!; try done. right. right. exact Hb.
    - wstep. split_and!; try done. right. by left. }
  intros o2 s2 (-> & Hs2 & Hor). repeat wstep.
  eapply (wp_upd_timer _ x); [cbn; rewrite Hs2; exact Hx|]. wstep. split; [done|].
  split; [cbn; by rewrite ?decide_True|]. eexists. split; [cbn; by rewrite lookup_insert_eq|]. by split_and!.
Qed.
End adc.
