(* ===== verification/OutputSpec.v ===== *)
(** * Outputs stay within their time limit; analog inputs add up their samples *)

From S2P Require Import Prelude State Runtime Bench Sched SchedSpec Basecmd BasecmdSpec PoolSpec Trsync.
From S2P Require Import Stepper Outputs Inputs StepperSpec StepperProps.

(** ** Taking a move from a queue and freeing it *)

Section pop.
Context {B : Board}.

(** The state after the first move [m] of a queue was popped and freed. *)
Definition popped (s : mcu) (m : addr) (nm : move_node) : mcu :=
  s <| moves := <[m := nm <| n_next := move_free_list (base s) |>]> (moves s) |>
    <| base; move_free_list := m |>.

Lemma popped_ok s m nm l f mh :
  moves s !! m = Some nm → free_rep s f → NoDup ((m :: l) ++ f) → m ≠ 0 →
  mq_rep (moves s) mh l →
  free_rep (popped s m nm) (m :: f) ∧ mq_rep (moves (popped s m nm)) mh l ∧
  ∀ b, b ≠ m → moves (popped s m nm) !! b = moves s !! b.
Proof.
  intros Hm Hf Hn Hm0 Hq. cbn in Hn. apply NoDup_cons in Hn as [Hml _]. rewrite elem_of_app in Hml.
  split; [apply free_rep_push; tauto|]. split.
  - cbn. eapply mq_rep_ext; [|exact Hq]. intros b Hb. rewrite lookup_insert_ne; [done|]. intros ->. tauto.
  - intros b Hb. cbn. by rewrite lookup_insert_ne.
Qed.
End pop.

(** ** Hardware PWM *)

Section pwm.
Context {B : Board}.

Record pwm_ok (s : mcu) (a : addr) (p : pwm_out_s) (x : timer) (l f : list addr) : Prop := {
  pw_obj : objects s !! a = Some (O_pwm_out p);
  pw_timer : timers (sched s) !! T_member a M_time = Some x;
  pw_queue : mq_rep (moves s) (po_mq p) l;
  pw_free : free_rep s f;
  pw_nodup : NoDup (l ++ f);
  pw_moves m : m ∈ l → ∃ n d, moves s !! m = Some n ∧ n_data n = MD_pwm d;
}.

(** A value other than the default may only stay for [max_duration]. *)
Definition limited (p : pwm_out_s) (value : Z) : Prop :=
  value ≠ po_default_value p ∧ po_max_duration p ≠ 0.

Definition pwm_post (s : mcu) a p x m l f d (r : Z) (s' : mcu) : Prop :=
  trace s' = EvPwmWrite (po_pin p) (conv (gt_pwm_val gpio_h) (pm_value d)) :: trace s ∧
  (∃ mq', objects s' !! a = Some (O_pwm_out (p <| po_mq := mq' |>)) ∧ mq_rep (moves s') mq' l) ∧
  free_rep s' (m :: f) ∧
  (r = SF_DONE ∧ l = [] ∧ ¬ limited p (pm_value d) ∨
   r = SF_RESCHEDULE ∧ ∃ x', timers (sched s') !! T_member a M_time = Some x' ∧
     (limited p (pm_value d) →
      timer_is_before (u32 (t_waketime x + po_max_duration p)) (t_waketime x') = false)).

(** A PWM event writes the value of its move and frees the move; when the value differs from
    the default and max_duration is set, the timer is woken again within max_duration (for the
    next move or to enforce the limit), and a next move scheduled later than the limit shuts
    the machine down. *)
Theorem pwm_event_limits s a p x m l f nm d :
  pwm_ok s a p x (m :: l) f → moves s !! m = Some nm → n_data nm = MD_pwm d →
  wp (pwm_event (T_member a M_time)) s (pwm_post s a p x m l f d)
    (λ r _, r = "Scheduled pwm event will exceed max_duration" ∧ limited p (pm_value d) ∧ l ≠ []).
Proof.
  intros [Ho Hx Hq Hf Hn Hm] Hnm Hd. unfold pwm_event. cbn [container_of]. do 3 wstep.
  eapply (wp_load a p); [done|]. destruct (mq_pop_eq _ _ _ _ Hq) as (mh' & Hpop & Hq').
  destruct (Hq) as [(_ & Hm0 & _) _ _]. wstep. eapply wp_of_eq; [exact Hpop|]. cbn beta iota.
  unfold get_pwm_move, move_free, gpio_pwm_write. repeat wstep. rewrite Hd. repeat wstep. set (s1 := upd base _ _).
  destruct (popped_ok s m nm l f mh') as (Hf1 & Hq1 & Hm1); try done.
  change (free_rep s1 (m :: f)) in Hf1. change (mq_rep (moves s1) mh' l) in Hq1.
  change (∀ b, b ≠ m → moves s1 !! b = moves s !! b) in Hm1.
  assert (objects s1 !! a = Some (O_pwm_out (p <| po_mq := mh' |>))) as Ho1 by (cbn; by rewrite lookup_insert_eq).
  assert (trace s1 = EvPwmWrite (po_pin p) (conv (gt_pwm_val gpio_h) (pm_value d)) :: trace s) as Ht1 by done.
  assert (timers (sched s1) !! T_member a M_time = Some x) as Hx1 by exact Hx.
  clearbody s1. rewrite (move_queue_empty_rep _ _ _ Hq'). destruct l as [|n l].
  - rewrite bool_decide_eq_true_2 by done.
    destruct (Z.eqb_spec (pm_value d) (po_default_value p)) as [He|He]; cbn [orb].
    { wstep. split_and!; try done; [by eauto|]. left. split_and!; try done. by intros []. }
    unfold nz. destruct (Z.eqb_spec (po_max_duration p) 0) as [Hz|Hz]; cbn [negb].
    { wstep. split_and!; try done; [by eauto|]. left. split_and!; try done. by intros []. }
    wstep. eapply wp_upd_timer; [exact Hx1|]. wstep. split_and!; try done; [by eauto|]. right.
    split; [done|]. eexists. cbn. rewrite lookup_insert_eq. split; [done|]. intros _. cbn.
    apply timer_is_before_irrefl.
  - rewrite bool_decide_eq_false_2 by done. destruct (Hm n) as (nn & dn & Hnn & Hdn); [right; by left|].
    assert (n ≠ m) as Hnm'. { intros ->. cbn in Hn. apply NoDup_cons in Hn as [Hn _]. apply Hn. by left. }
    assert (move_queue_first mh' = n) as Hfst by (destruct Hq' as [(? & _) _ _]; done).
    rewrite Hfst. wstep. wstep. eapply (wp_get_node n nn); [by rewrite Hm1|].
    rewrite Hdn. repeat wstep.
    apply wp_when; intros Hb.
    + bool_to_prop. wstep. split; [done|]. split; [|done]. split; [done|]. unfold nz in *. by bool_to_prop.
    + wstep. eapply wp_upd_timer; [exact Hx1|]. wstep. split_and!; try done; [by eauto|]. right.
      split; [done|]. eexists. cbn. rewrite lookup_insert_eq. split; [done|]. cbn. intros [Hv Hmd].
      rewrite (proj2 (Z.eqb_neq _ _) Hv) in Hb. unfold nz in Hb. by rewrite (proj2 (Z.eqb_neq _ _) Hmd) in Hb.
Qed.
End pwm.

(** ** Digital outputs *)

Section digital.
Context {B : Board}.

Record digital_ok (s : mcu) (a : addr) (d : digital_out_s) (x : timer) (l f : list addr) : Prop := {
  dg_obj : objects s !! a = Some (O_digital_out d);
  dg_timer : timers (sched s) !! T_member a M_time = Some x;
  dg_queue : mq_rep (moves s) (do_mq d) l;
  dg_free : free_rep s f;
  dg_nodup : NoDup (l ++ f);
  dg_moves m : m ∈ l → ∃ n e, moves s !! m = Some n ∧ n_data n = MD_digital e;
}.

(** A setting that is not the constant default level may only stay for [max_duration]. *)
Definition dlimited (d : digital_out_s) (on_duration : Z) : bool :=
  nz (do_max_duration d) &&
  ((nz on_duration && negb (do_cycle_time d <=? on_duration)) ||
   negb (eqb (nz on_duration) (has (do_flags d) DF_DEFAULT_ON))).

Lemma load_flags_spec d w on :
  let '(end_time, flags) := load_flags d w on in
  has flags DF_CHECK_END = dlimited d on ∧
  (dlimited d on = true → end_time = u32 (w + do_max_duration d)) ∧
  has flags DF_ON = nz on ∧ has flags DF_TOGGLING = nz on && negb (do_cycle_time d <=? on) ∧
  0 ≤ flags < 8.
Proof.
  unfold load_flags, dlimited.
  destruct (nz on), (do_cycle_time d <=? on), (has (do_flags d) DF_DEFAULT_ON),
    (nz (do_max_duration d)); cbn; by split_and!.
Qed.

(** The time limit holds for the object: it will be looked at again in time. *)
Definition in_limit (d' : digital_out_s) (limit : Z) : Prop :=
  has (do_flags d') DF_CHECK_END = true ∧ timer_is_before limit (do_end_time d') = false.

Definition digital_post (s : mcu) a d x m l f e (r : Z) (s' : mcu) : Prop :=
  trace s' = EvWrite (do_pin d) (b2z (nz (dm_on_duration e))) :: trace s ∧
  (∃ d', objects s' !! a = Some (O_digital_out d') ∧ mq_rep (moves s') (do_mq d') l ∧
     has (do_flags d') DF_DEFAULT_ON = has (do_flags d) DF_DEFAULT_ON ∧
     (dlimited d (dm_on_duration e) = true →
        in_limit d' (u32 (t_waketime x + do_max_duration d)))) ∧
  free_rep s' (m :: f) ∧
  (r = SF_DONE → l = [] ∧ dlimited d (dm_on_duration e) = false).

(** The flags that [digital_load_event] stores. *)
Lemma stored_flags flags old k :
  0 ≤ flags < 8 → 0 ≤ k < 3 →
  has (Z.lor flags (Z.land old DF_DEFAULT_ON)) (2 ^ k) = has flags (2 ^ k) ∧
  has (Z.lor flags (Z.land old DF_DEFAULT_ON)) DF_DEFAULT_ON = has old DF_DEFAULT_ON.
Proof.
  intros Hf Hk. change DF_DEFAULT_ON with (2 ^ 4). rewrite !has_pow2, !Z.lor_spec, !Z.land_spec by lia.
  rewrite !Z.pow2_bits_eqb by lia. rewrite (proj2 (Z.eqb_neq 4 k)), Z.eqb_refl by lia.
  rewrite andb_false_r, orb_false_r, andb_true_r. split; [done|].
  assert (Z.testbit flags 4 = false) as ->; [|done].
  apply Z.bits_above_log2; [lia|]. destruct (decide (flags = 0)) as [->|?]; [done|].
  apply Z.log2_lt_pow2; lia.
Qed.

Lemma wp_load_end s a d flags end_time x t w on (Q : Z → mcu → Prop) E :
  timers (sched s) !! T_member a M_time = Some x → t = T_member a M_time →
  (∀ r s' d', objects s' !! a = Some (O_digital_out d') → moves s' = moves s → base s' = base s →
     trace s' = trace s → do_mq d' = do_mq d → do_flags d' = do_flags d → do_end_time d' = do_end_time d →
     (r = SF_DONE → has flags DF_TOGGLING = false ∧ has flags DF_CHECK_END = false) → Q r s') →
  objects s !! a = Some (O_digital_out d) →
  wp (if negb (has flags DF_TOGGLING) then
        if negb (has flags DF_CHECK_END) then mret SF_DONE
        else
          upd_timer t (λ x, x <| t_waketime := end_time |>);;;
          mret SF_RESCHEDULE
      else
        let waketime := u32 (w + on) in
        if has flags DF_CHECK_END && negb (timer_is_before waketime end_time) then
          upd_timer t (λ x, x <| t_waketime := end_time |>);;;
          mret SF_RESCHEDULE
        else
          upd_timer t (λ x, x <| t_func := F_digital_toggle_event |> <| t_waketime := waketime |>);;;
          store a (d <| do_on_duration := on |>
                     <| do_off_duration := u32 (do_cycle_time d - on) |>);;;
          mret SF_RESCHEDULE) s Q E.
Proof.
  intros Hx -> HQ Ho. destruct (has flags DF_TOGGLING) eqn:Ht; cbn [negb].
  - cbn zeta. destruct (has flags DF_CHECK_END && _)%bool.
    + repeat wstep. eapply HQ; try done.
    + repeat wstep. eapply HQ; [cbn; by rewrite lookup_insert_eq|done..].
  - destruct (has flags DF_CHECK_END) eqn:Hc; cbn [negb]; repeat wstep; eapply HQ; try done.
Qed.

(** The next move decides when the setting ends, within the limit. *)
Lemma wp_next_end s s1 d mh m l end_time flags limit :
  mq_rep (moves s1) mh l → (∀ n, n ∈ l → ∃ nn dn, moves s !! n = Some nn ∧ n_data nn = MD_digital dn) →
  m ∉ l → (∀ b, b ≠ m → moves s1 !! b = moves s !! b) →
  has flags DF_CHECK_END = d → (d = true → end_time = limit) → 0 ≤ flags < 8 →
  wp (if negb (move_queue_empty mh) then
        let! nn := get_digital_move (move_queue_first mh) in
        let wake := dm_waketime nn in
        (when has flags DF_CHECK_END && timer_is_before end_time wake do
           shutdown "Scheduled digital out event will exceed max_duration");;;
        mret (wake, Z.lor flags DF_CHECK_END)
      else mret (end_time, flags)) s1
    (λ r s2, s2 = s1 ∧ has r.2 DF_CHECK_END = (d || negb (bool_decide (l = [])))%bool ∧ 0 ≤ r.2 < 8 ∧
       (d = true → timer_is_before limit r.1 = false))
    (λ r _, r = "Scheduled digital out event will exceed max_duration" ∧ d = true ∧ l ≠ []).
Proof.
  intros Hq Hm Hni Hm1 Hce Het Hfl. rewrite (move_queue_empty_rep _ _ _ Hq). destruct l as [|n l].
  - rewrite bool_decide_eq_true_2 by done. cbn [negb]. wstep. cbn [fst snd]. split_and!; try lia; try done.
    + by rewrite Hce, orb_false_r.
    + intros Hl. rewrite Het by done. apply timer_is_before_irrefl.
  - rewrite bool_decide_eq_false_2 by done. destruct (Hm n) as (nn & dn & Hnn & Hdn); [by left|].
    assert (n ≠ m) as Hnm' by (intros ->; apply Hni; by left).
    assert (move_queue_first mh = n) as -> by (destruct Hq as [(? & _) _ _]; done).
    cbn [negb]. unfold get_digital_move. do 2 wstep. eapply (wp_get_node n nn); [by rewrite Hm1|].
    rewrite Hdn. repeat wstep. apply wp_when; intros Hb.
    + bool_to_prop. wstep. split; [done|]. split; [congruence|done].
    + wstep. cbn [fst snd]. split; [done|]. split; [|split].
      * rewrite orb_true_r. change DF_CHECK_END with (2 ^ 2).
        rewrite has_pow2, Z.lor_spec, Z.pow2_bits_true by done. apply orb_true_r.
      * change 8 with (2 ^ 3) in *. assert (flags = Z.land flags (Z.ones 3)) as Hfl'
          by (rewrite Z.land_ones, Z.mod_small by lia; done).
        split; [apply Z.lor_nonneg; split; [lia|done]|].
        rewrite Hfl'. change DF_CHECK_END with (Z.land DF_CHECK_END (Z.ones 3)).
        rewrite <- Z.land_lor_distr_l, Z.land_ones by lia. apply Z.mod_pos_bound. lia.
      * intros Hl. rewrite Hce, Hl in Hb. cbn in Hb. by rewrite <- Het.
Qed.

(** Loading a digital output setting writes the pin and frees the move; when the setting is
    neither the constant default level nor unlimited, the end time that will be enforced is
    within max_duration, and a next move scheduled later than the limit shuts the machine down.
    *)
Theorem digital_load_event_limits s a d x m l f nm e :
  digital_ok s a d x (m :: l) f → moves s !! m = Some nm → n_data nm = MD_digital e →
  wp (digital_load_event (T_member a M_time)) s (digital_post s a d x m l f e)
    (λ r _, r = "Scheduled digital out event will exceed max_duration" ∧
       dlimited d (dm_on_duration e) = true ∧ l ≠ []).
Proof.
  intros [Ho Hx Hq Hf Hn Hm] Hnm Hd. unfold digital_load_event. cbn [container_of]. do 3 wstep.
  eapply (wp_load a d); [done|]. rewrite (move_queue_empty_rep _ _ _ Hq), bool_decide_eq_false_2 by done.
  repeat wstep. destruct (mq_pop_eq _ _ _ _ Hq) as (mh' & Hpop & Hq').
  destruct (Hq) as [(_ & Hm0 & _) _ _]. eapply wp_of_eq; [exact Hpop|]. cbn beta iota.
  unfold get_digital_move, move_free. repeat wstep. rewrite Hd. repeat wstep. set (s1 := upd base _ _).
  destruct (popped_ok s m nm l f mh') as (Hf1 & Hq1 & Hm1); try done.
  change (free_rep s1 (m :: f)) in Hf1. change (mq_rep (moves s1) mh' l) in Hq1.
  change (∀ b, b ≠ m → moves s1 !! b = moves s !! b) in Hm1.
  assert (trace s1 = EvWrite (do_pin d) (b2z (nz (dm_on_duration e))) :: trace s) as Ht1.
  { cbn. do 2 f_equal. by destruct (nz (dm_on_duration e)); rewrite conv_small. }
  assert (timers (sched s1) !! T_member a M_time = Some x) as Hx1 by exact Hx.
  clearbody s1. pose proof (load_flags_spec (d <| do_mq := mh' |>) (t_waketime x) (dm_on_duration e)) as Hlf.
  destruct (load_flags _ _ _) as [end_time flags]. destruct Hlf as (Hce & Het & _ & _ & Hfl).
  change (dlimited (d <| do_mq := mh' |>)) with (dlimited d) in *. cbn [do_mq do_max_duration upd] in *.
  wstep. eapply wp_conseq; [apply (wp_next_end s s1 (dlimited d (dm_on_duration e)) mh' m l end_time flags
    (u32 (t_waketime x + do_max_duration d))); try done|].
  { intros n Hin. apply Hm. by right. }
  { cbn in Hn. apply NoDup_cons in Hn as [Hn _]. intros ?. apply Hn. set_solver. }
  intros [et fl] s2 (-> & Hfl1 & Hfl2 & Hlim). cbn [fst snd] in *. do 2 wstep.
  eapply wp_load_end; [exact Hx1|done| |cbn; by rewrite lookup_insert_eq].
  intros r s' d' Ho' Hm' Hb' Ht' Hmq' Hfl' Het' Hdone. split; [by rewrite Ht'|]. split.
  { exists d'. rewrite Hmq', Hm'. split; [done|]. split; [done|]. unfold in_limit. rewrite Hfl', Het'. cbn.
    destruct (stored_flags fl (do_flags d) 2 Hfl2 ltac:(lia)) as [Hs1 Hs2].
    split; [exact Hs2|]. intros Hl. split; [|by apply Hlim]. rewrite Hl in Hfl1.
    etransitivity; [exact Hs1|exact Hfl1]. }
  split; [destruct Hf1; split; [by rewrite Hm', Hb'|done]|].
  intros Hr. destruct (Hdone Hr) as [_ Hc]. rewrite Hc in Hfl1. symmetry in Hfl1.
  apply orb_false_elim in Hfl1 as [? Hfl1]. split; [|done].
  apply negb_false_iff, bool_decide_eq_true in Hfl1. done.
Qed.
End digital.
