(* ===== verification/SerialSpec.v ===== *)
(** * The serial console loses no bytes

    The receive buffer is a bounded queue: popping a message keeps every byte that
    arrived behind it, whatever interrupts the copying.  The transmit buffer is a FIFO:
    what was sent and what waits is the sequence of the accepted messages. *)

From S2P Require Import Prelude State Runtime Bench Sched Vlq Crc Command SerialIrq.

(** ** Receiving *)

(** The received bytes not yet processed. *)
Definition rx_contents (c : console) : list Z := take (Z.to_nat (receive_pos c)) (receive_buf c).

Record rx_ok (c : console) : Prop := {
  rx_len : length (receive_buf c) = 192%nat;
  rx_pos : 0 ≤ receive_pos c ≤ 192;
}.

(** What stays the same when bytes arrive. *)
Definition rx_frame (c c' : console) : Prop :=
  transmit_buf c' = transmit_buf c ∧ transmit_pos c' = transmit_pos c ∧
  transmit_max c' = transmit_max c ∧ wire c' = wire c ∧
  irq_off (con_mcu c') = irq_off (con_mcu c) ∧ objects (con_mcu c') = objects (con_mcu c).

Lemma rx_frame_refl c : rx_frame c c.
Proof. by split_and!. Qed.
Lemma rx_frame_trans c1 c2 c3 : rx_frame c1 c2 → rx_frame c2 c3 → rx_frame c1 c3.
Proof. unfold rx_frame. intros (?&?&?&?&?&?) (?&?&?&?&?&?). split_and!; congruence. Qed.

(** The bounded queue. *)
Definition rx_push (l : list Z) (bytes : list Z) : list Z := take 192 (l ++ map u8 bytes).

Lemma take_snoc {A} (l : list A) n x : l !! n = Some x → take (S n) l = take n l ++ [x].
Proof. apply take_S_r. Qed.

Lemma rx_byte_ok c d :
  rx_ok c →
  ∃ c', serial_rx_byte d c = Ret tt c' ∧ rx_ok c' ∧ rx_contents c' = rx_push (rx_contents c) [d] ∧
    rx_frame c c' ∧ receive_pos c ≤ receive_pos c' ∧
    take (Z.to_nat (receive_pos c)) (receive_buf c') = rx_contents c.
Proof.
  intros [Hl Hp]. unfold serial_rx_byte.
  set (c1 := if d =? MESSAGE_SYNC
             then c <| con_mcu := (con_mcu c) <| sched; tasks_status := TS_REQUESTED |> |> else c).
  assert ((when d =? MESSAGE_SYNC do lift sched_wake_tasks) c = Ret tt c1) as Hw.
  { subst c1. by destruct (d =? MESSAGE_SYNC). }
  assert (receive_buf c1 = receive_buf c ∧ receive_pos c1 = receive_pos c ∧ rx_frame c c1) as (Hb & Hr & Hfr).
  { subst c1. destruct (d =? MESSAGE_SYNC); by split_and!. }
  rewrite (bind_ret_eq _ _ _ _ _ Hw). rewrite (bind_ret_eq get _ c1 c1 c1) by done.
  change RX_BUFFER_SIZE with 192. rewrite Hr. clearbody c1. destruct (Z.leb_spec 192 (receive_pos c)).
  - exists c1. split; [done|]. unfold rx_contents, rx_push. rewrite Hb, Hr.
    split; [by split; rewrite ?Hb, ?Hr|]. split; [|by split_and!].
    rewrite take_app_le; [|rewrite length_take; lia]. by rewrite take_take, Nat.min_r by lia.
  - eexists. split; [reflexivity|]. unfold rx_contents, rx_push. cbn [receive_buf receive_pos upd].
    rewrite Hb, Hr, u8_small by lia.
    split; [split; cbn; rewrite ?length_insert, ?Hb, ?Hr, ?u8_small by lia; lia|]. split; [|split_and!].
    + replace (Z.to_nat (receive_pos c + 1)) with (S (Z.to_nat (receive_pos c))) by lia.
      rewrite (take_snoc _ _ (u8 d)) by (rewrite list_lookup_insert_eq by lia; done).
      rewrite take_insert_ge by lia. rewrite (take_ge (_ ++ _)); [done|].
      rewrite length_app, length_take. cbn. lia.
    + destruct Hfr as (?&?&?&?&?&?). by split_and!.
    + lia.
    + by rewrite take_insert_ge by lia.
Qed.

Lemma rx_push_app l b1 b2 : rx_push (rx_push l b1) b2 = rx_push l (b1 ++ b2).
Proof.
  unfold rx_push. rewrite map_app, app_assoc. set (m := l ++ map u8 b1).
  destruct (decide (length m ≤ 192)%nat).
  - by rewrite (take_ge m) by done.
  - rewrite (take_app_le m (map u8 b2)) by lia. rewrite take_app_le by (rewrite length_take; lia).
    by rewrite take_take, Nat.min_l by lia.
Qed.

Lemma rx_bytes_ok c l :
  rx_ok c →
  ∃ c', rx_bytes l c = Ret tt c' ∧ rx_ok c' ∧ rx_contents c' = rx_push (rx_contents c) l ∧
    rx_frame c c' ∧ receive_pos c ≤ receive_pos c' ∧
    take (Z.to_nat (receive_pos c)) (receive_buf c') = rx_contents c.
Proof.
  revert c. induction l as [|d l IH]; intros c Hok; cbn [rx_bytes].
  - exists c. split; [done|]. split; [done|]. split; [|split; [apply rx_frame_refl|done]].
    unfold rx_push. cbn. rewrite app_nil_r, take_ge; [done|]. unfold rx_contents. rewrite length_take.
    destruct Hok. lia.
  - destruct (rx_byte_ok c d Hok) as (c1 & H1 & Hok1 & Hc1 & Hf1 & Hp1 & Ht1).
    destruct (IH c1 Hok1) as (c2 & H2 & Hok2 & Hc2 & Hf2 & Hp2 & Ht2). exists c2.
    rewrite (bind_ret_eq _ _ _ _ _ H1). split; [done|]. split; [done|].
    split; [by rewrite Hc2, Hc1, rx_push_app|]. split; [by eapply rx_frame_trans|]. split; [lia|].
    apply (f_equal (take (Z.to_nat (receive_pos c)))) in Ht2. unfold rx_contents in Ht2.
    rewrite !take_take, !Nat.min_l in Ht2 by lia. by rewrite Ht2.
Qed.

(** ** Popping a message while bytes arrive

    [L] is the logical contents, of which [copied] bytes were already moved down by [len]. *)

Record buf_inv (buf : list Z) (pos : Z) (L : list Z) (len copied : nat) : Prop := {
  bi_size : length buf = 192%nat;
  bi_fits : (length L ≤ 192)%nat;
  bi_pos : pos = Z.of_nat (length L);
  bi_len : (copied + len ≤ length L)%nat;
  bi_done j : (j < copied)%nat → buf !! j = L !! (j + len)%nat;
  bi_rest j : (copied + len ≤ j < length L)%nat → buf !! j = L !! j;
}.
Abbreviation pop_inv c := (buf_inv (receive_buf c) (receive_pos c)).

Lemma buf_inv_start buf pos len :
  length buf = 192%nat → 0 ≤ pos ≤ 192 → (len ≤ Z.to_nat pos)%nat → buf_inv buf pos (take (Z.to_nat pos) buf) len 0.
Proof.
  intros Hl Hp Hn. assert (length (take (Z.to_nat pos) buf) = Z.to_nat pos) as E by (rewrite length_take; lia).
  split; rewrite ?E; try lia. intros j Hj. by rewrite lookup_take_lt by lia.
Qed.

(** More bytes arrive behind the contents. *)
Lemma buf_inv_grow buf pos L len copied buf' pos' more :
  buf_inv buf pos L len copied → length buf' = 192%nat → (length (L ++ more) ≤ 192)%nat →
  pos' = Z.of_nat (length (L ++ more)) → (∀ j, (j < length L)%nat → buf' !! j = buf !! j) →
  (∀ j, (length L ≤ j < length (L ++ more))%nat → buf' !! j = (L ++ more) !! j) →
  buf_inv buf' pos' (L ++ more) len copied.
Proof.
  intros [Hs Hf Hp Hn Hd Hr] Hs' Hf' Hp' Hsame Hnew. rewrite length_app in *. split; rewrite ?length_app; try done; try lia.
  - intros j Hj. rewrite Hsame, Hd by lia. by rewrite lookup_app_l by lia.
  - intros j Hj. destruct (decide (j < length L)%nat); [|apply Hnew; lia].
    rewrite Hsame, Hr by lia. by rewrite lookup_app_l by lia.
Qed.

(** Everything is moved. *)
Lemma buf_inv_end buf pos L len : buf_inv buf pos L len (length L - len) → take (length L - len) buf = drop len L.
Proof.
  intros [Hs Hf Hp Hn Hd Hr]. apply list_eq. intros j. destruct (decide (j < length L - len)%nat).
  - rewrite lookup_take_lt, Hd, lookup_drop by lia. f_equal. lia.
  - rewrite lookup_take_ge by lia. symmetry. apply lookup_ge_None_2. rewrite length_drop. lia.
Qed.

Lemma rx_push_length l b : (length l ≤ 192)%nat → (length l ≤ length (rx_push l b) ≤ 192)%nat.
Proof. intros Hl. unfold rx_push. rewrite length_take, length_app. lia. Qed.
Lemma rx_push_lookup l b j : (j < length l)%nat → (length l ≤ 192)%nat → rx_push l b !! j = l !! j.
Proof. intros Hj Hl. unfold rx_push. rewrite lookup_take_lt by lia. by rewrite lookup_app_l. Qed.

Lemma rx_push_grows L b : (length L ≤ 192)%nat → ∃ more, rx_push L b = L ++ more.
Proof.
  intros HL. exists (take (192 - length L) (map u8 b)). unfold rx_push.
  by rewrite take_app, (take_ge L) by lia.
Qed.

Lemma pop_inv_rx c L len copied l :
  pop_inv c L len copied →
  ∃ c', rx_bytes l c = Ret tt c' ∧ pop_inv c' (rx_push L l) len copied ∧ rx_frame c c'.
Proof.
  intros Hi. pose proof Hi as [Hs Hf Hp Hn _ _].
  assert (rx_ok c) as Hok by (split; [done|lia]).
  destruct (rx_bytes_ok c l Hok) as (c' & He & Hok' & Hc & Hfr & Hpp & Ht). exists c'. split; [done|]. split; [|done].
  destruct (Hok') as [Hbl' Hpos'].
  assert (length (rx_contents c) = length L) as HlL by (unfold rx_contents; rewrite length_take; lia).
  assert (length (rx_push L l) = length (rx_push (rx_contents c) l)) as HpL.
  { unfold rx_push. by rewrite !length_take, !length_app, HlL. }
  assert (receive_pos c' = Z.of_nat (length (rx_push L l))) as Hp'.
  { rewrite HpL, <- Hc. unfold rx_contents. rewrite length_take. lia. }
  destruct (rx_push_grows L l Hf) as [more Hm]. pose proof (rx_push_length L l Hf) as HLl.
  rewrite Hm in *. eapply buf_inv_grow; [exact Hi|done|lia|done|..].
  - intros j Hj. apply (f_equal (.!! j)) in Ht. unfold rx_contents in Ht. by rewrite !lookup_take_lt in Ht by lia.
  - intros j Hj. apply (f_equal (.!! j)) in Hc. unfold rx_contents in Hc at 1. rewrite lookup_take_lt in Hc by lia.
    rewrite Hc, <- Hm. unfold rx_push. rewrite <- Hm in Hj. unfold rx_push in Hj. rewrite length_take in Hj.
    rewrite !lookup_take_lt by lia. by rewrite !lookup_app_r, HlL by lia.
Qed.

Lemma memmove_lookup dst src n buf j :
  (dst ≤ src)%nat → (src + n ≤ length buf)%nat →
  memmove dst src n buf !! j =
    if decide (dst ≤ j < dst + n)%nat then buf !! (j - dst + src)%nat else buf !! j.
Proof.
  intros Hds Hn. unfold memmove.
  assert (length (take dst buf) = dst) as Hl1 by (rewrite length_take; lia).
  assert (length (take n (drop src buf)) = n) as Hl2 by (rewrite length_take, length_drop; lia).
  case_decide.
  - rewrite lookup_app_r, lookup_app_l, lookup_take_lt, lookup_drop by lia. rewrite Hl1. f_equal. lia.
  - destruct (decide (j < dst)%nat).
    + by rewrite lookup_app_l, lookup_take_lt by lia.
    + rewrite !lookup_app_r, lookup_drop, Hl1, Hl2 by lia. f_equal. lia.
Qed.

Lemma memmove_length dst src n buf :
  (dst ≤ src)%nat → (src + n ≤ length buf)%nat → length (memmove dst src n buf) = length buf.
Proof. intros. unfold memmove. rewrite !length_app, !length_take, !length_drop. lia. Qed.

(** The copy of one iteration. *)
Lemma buf_inv_move buf pos L len copied need :
  buf_inv buf pos L len copied → (copied ≤ need)%nat → (need + len ≤ length L)%nat →
  buf_inv (memmove copied (copied + len) (need - copied) buf) pos L len need.
Proof.
  intros [Hs Hf Hp Hl Hd Hr] Hn Hnl. split; try done.
  - rewrite memmove_length; lia.
  - intros j Hj. rewrite memmove_lookup by lia. case_decide.
    + rewrite Hr by lia. f_equal. lia.
    + apply Hd. lia.
  - intros j Hj. rewrite memmove_lookup by lia. rewrite decide_False by lia. apply Hr. lia.
Qed.

Lemma rx_push_same L b : (length L ≤ 192)%nat → length (rx_push L b) = length L → rx_push L b = L.
Proof.
  intros Hl Hs. unfold rx_push in *. rewrite length_take, length_app in Hs.
  destruct (decide (length L = 192)%nat).
  - rewrite take_app_le, take_ge by lia. done.
  - assert (length (map u8 b) = 0)%nat as H0 by lia. apply nil_length_inv in H0. rewrite H0, app_nil_r.
    by rewrite take_ge by lia.
Qed.

(** The bytes that arrive in each iteration. *)
Definition arrivals (rx : list (list Z * list Z)) : list (list Z) := (λ p, p.1 ++ p.2) <$> rx.

(** The middle of an iteration: the copy. *)
Lemma pop_copy c L len copied rpos :
  pop_inv c L len copied → (copied + len ≤ rpos ≤ length L)%nat →
  let need := Z.of_nat rpos - Z.of_nat len in
  ∃ c', (if nz need then
           modify (λ c, c <| receive_buf := memmove (Z.to_nat (Z.of_nat copied))
                              (Z.to_nat (Z.of_nat copied + Z.of_nat len))
                              (Z.to_nat (need - Z.of_nat copied)) (receive_buf c) |>);;;
           lift sched_wake_tasks;;;
           mret need
         else mret (Z.of_nat copied)) c = Ret need c' ∧ pop_inv c' L len (rpos - len).
Proof.
  intros Hi Hr need. subst need. unfold nz. destruct (Z.eqb_spec (Z.of_nat rpos - Z.of_nat len) 0); cbn [negb].
  - exists c. replace copied with 0%nat in * by lia. replace (rpos - len)%nat with 0%nat by lia.
    split; [|done]. unfold mret, M_ret. f_equal. lia.
  - eexists. split; [reflexivity|]. cbn [receive_buf receive_pos upd].
    replace (Z.to_nat (Z.of_nat rpos - Z.of_nat len - Z.of_nat copied)) with (rpos - len - copied)%nat by lia.
    replace (Z.to_nat (Z.of_nat copied + Z.of_nat len)) with (copied + len)%nat by lia. rewrite Nat2Z.id.
    apply buf_inv_move; [done|lia|lia].
Qed.

Lemma pop_loop_ok fuel rx len copied c L :
  pop_inv c L len copied → (193 ≤ fuel + length L)%nat →
  ∃ c' k, pop_loop fuel rx (Z.of_nat len) (Z.of_nat copied) c = Ret tt c' ∧ rx_ok c' ∧
    rx_contents c' = drop len (rx_push L (concat (take k (arrivals rx)))).
Proof.
  revert rx copied c L. induction fuel as [|fuel IH]; intros rx copied c L Hi Hf.
  { destruct Hi. lia. }
  cbn [pop_loop]. rewrite (bind_ret_eq (gets receive_pos) _ c (receive_pos c) c) by done.
  set (b1 := from_option fst [] (head rx)). set (b2 := from_option snd [] (head rx)).
  assert (length L ≤ 192 ∧ receive_pos c = Z.of_nat (length L))%nat as [HL Hpos]
    by (destruct Hi; lia). rewrite Hpos.
  destruct (pop_inv_rx c L len copied b1 Hi) as (c1 & H1 & Hi1 & _).
  pose proof (rx_push_length L b1 HL) as HL1. set (L1 := rx_push L b1) in *.
  rewrite (bind_ret_eq _ _ _ _ _ H1). cbn zeta.
  destruct (pop_copy c1 L1 len copied (length L) Hi1) as (c2 & H2 & Hi2); [destruct Hi; lia|].
  rewrite (bind_ret_eq _ _ _ _ _ H2).
  destruct (pop_inv_rx c2 L1 len _ b2 Hi2) as (c3 & H3 & Hi3 & _).
  rewrite (bind_ret_eq _ _ _ _ _ H3). pose proof (rx_push_length L1 b2 ltac:(lia)) as HL2.
  assert (rx_push L1 b2 = rx_push L (concat (take 1 (arrivals rx)))) as Harr.
  { subst L1 b1 b2. rewrite rx_push_app. by destruct rx as [|[x1 x2] rx]; cbn; rewrite ?app_nil_r. }
  set (L2 := rx_push L1 b2) in *.
  rewrite (bind_ret_eq (lift irq_save) _ c3 (irq_off (con_mcu c3))
             (c3 <| con_mcu := (con_mcu c3) <| irq_off := true |> |>)) by done.
  rewrite (bind_ret_eq get _ _ _ _ eq_refl). cbn [receive_pos upd].
  assert (receive_pos c3 = Z.of_nat (length L2)) as Hp3 by (destruct Hi3; lia).
  rewrite Hp3. destruct (Z.eqb_spec (Z.of_nat (length L)) (Z.of_nat (length L2))) as [Heq|Hne]; cbn [negb].
  - eexists. exists 1%nat. split; [reflexivity|].
    assert (L2 = L) as HLL.
    { subst L2 L1. rewrite rx_push_app in *. apply rx_push_same; lia. }
    rewrite <- Harr, HLL in *. split.
    { split; cbn; [apply Hi3|]. destruct Hi. rewrite u8_small by lia. lia. }
    unfold rx_contents. cbn. rewrite u8_small by (destruct Hi; lia).
    replace (Z.to_nat (Z.of_nat (length L) - Z.of_nat len)) with (length L - len)%nat by lia. by eapply buf_inv_end.
  - rewrite (bind_ret_eq (lift (irq_restore _)) _ _ tt _ eq_refl).
    replace (Z.of_nat (length L) - Z.of_nat len) with (Z.of_nat (length L - len)) by (destruct Hi; lia).
    set (c4 := c3 <| con_mcu := _ |> <| con_mcu := _ |>).
    destruct (IH (tail rx) (length L - len)%nat c4 L2) as (c' & k & Hc & Hok & Hcont).
    { exact Hi3. }
    { lia. }
    exists c'. exists (S k). split; [exact Hc|]. split; [done|]. rewrite Hcont, Harr, rx_push_app.
    do 2 f_equal. destruct rx as [|[x1 x2] rx]; cbn; [by rewrite take_nil|]. by rewrite app_nil_r.
Qed.

(** console_pop_input, interrupted by any pattern of received bytes, terminates and loses no
    byte behind the popped block: the buffer is the queue of the old contents and the bytes
    that arrived, bounded to 192, without its first len bytes. *)
Theorem console_pop_keeps_bytes rx len c :
  rx_ok c → 0 ≤ len ≤ receive_pos c →
  ∃ c' k, console_pop_input rx len c = Ret tt c' ∧ rx_ok c' ∧
    rx_contents c' =
      drop (Z.to_nat len) (take 192 (rx_contents c ++ map u8 (concat (take k (arrivals rx))))).
Proof.
  intros Hok Hlen. unfold console_pop_input. destruct (Hok) as [Hbl Hpos].
  assert (length (rx_contents c) = Z.to_nat (receive_pos c)) as Hl
    by (unfold rx_contents; rewrite length_take; lia).
  destruct (pop_loop_ok 194 rx (Z.to_nat len) 0 c (rx_contents c)) as (c' & k & H & Hok' & Hc).
  - apply buf_inv_start; [done|lia|lia].
  - lia.
  - exists c', k. rewrite Z2Nat.id in H by lia. done.
Qed.

(** ** Transmitting *)

(** The bytes that wait to be sent. *)
Definition tx_pending (c : console) : list Z :=
  take (Z.to_nat (transmit_max c - transmit_pos c)) (drop (Z.to_nat (transmit_pos c)) (transmit_buf c)).

Record tx_ok (c : console) : Prop := {
  tx_len : length (transmit_buf c) = 96%nat;
  tx_pos : 0 ≤ transmit_pos c ≤ transmit_max c ∧ transmit_max c ≤ 96;
}.

(** Everything handed to the wire, sent or waiting. *)
Definition tx_stream (c : console) : list Z := wire c ++ tx_pending c.

Lemma tx_isrs_ok n c :
  tx_ok c →
  ∃ c', tx_isrs n c = Ret tt c' ∧ tx_ok c' ∧ tx_stream c' = tx_stream c ∧
    transmit_max c' = transmit_max c ∧ transmit_pos c ≤ transmit_pos c' ∧
    transmit_buf c' = transmit_buf c ∧ con_mcu c' = con_mcu c.
Proof.
  revert c. induction n as [|n IH]; intros c Hok; cbn [tx_isrs]; [exists c; by split_and!|].
  destruct (Hok) as [Hl Hp]. unfold serial_get_tx_byte.
  destruct (Z.leb_spec (transmit_max c) (transmit_pos c)) as [Hle|Hlt].
  - rewrite (bind_ret_eq _ _ c None c).
    2:{ rewrite (bind_ret_eq get _ c c c) by done. by rewrite (proj2 (Z.leb_le _ _)). }
    rewrite (bind_ret_eq _ _ c tt c) by done. by apply IH.
  - destruct (lookup_lt_is_Some_2 (transmit_buf c) (Z.to_nat (transmit_pos c))) as [d Hd]; [lia|].
    set (c1 := c <| transmit_pos := u8 (transmit_pos c + 1) |>).
    rewrite (bind_ret_eq _ _ c (Some d) c1).
    2:{ rewrite (bind_ret_eq get _ c c c) by done. rewrite (proj2 (Z.leb_gt _ _)) by done.
        rewrite Hd. by rewrite (bind_ret_eq (deref (Some d)) _ c d c). }
    set (c2 := c1 <| wire := wire c ++ [d] |>). rewrite (bind_ret_eq _ _ c1 tt c2) by done.
    assert (u8 (transmit_pos c + 1) = transmit_pos c + 1) as Hu by (apply u8_small; lia).
    assert (tx_ok c2) as Hok2.
    { split; [done|]. subst c2 c1. cbn [transmit_pos transmit_max upd]. rewrite Hu. lia. }
    assert (tx_stream c2 = tx_stream c) as Hs2.
    { unfold tx_stream, tx_pending. subst c2 c1. cbn [wire transmit_pos transmit_max transmit_buf upd].
      rewrite Hu, <- app_assoc. f_equal.
      replace (Z.to_nat (transmit_max c - transmit_pos c)) with
        (S (Z.to_nat (transmit_max c - (transmit_pos c + 1)))) by lia.
      rewrite (drop_S _ _ _ Hd). cbn. do 2 f_equal. replace (Z.to_nat (transmit_pos c + 1)) with
        (S (Z.to_nat (transmit_pos c))) by lia. done. }
    destruct (IH c2 Hok2) as (c' & Hr & Hok' & Hs' & Hm' & Hp' & Hb' & Hmcu). exists c'.
    split; [exact Hr|]. split; [done|]. split; [congruence|]. split; [done|]. split; [|by split].
    subst c2 c1. cbn [transmit_pos upd] in Hp'. lia.
Qed.

Section send.
Context {B : Board}.
Variables (sizeof_int : Z) (ce : command_encoder) (args : list va_arg) (msglen : Z) (block : list Z).

(** The message that is encoded fits the size announced for it. *)
Definition fits_max_size (s : mcu) : Prop :=
  command_encode_and_frame sizeof_int ce args s = Ret (msglen, block) s ∧
  Z.of_nat (length block) = msglen ∧ msglen ≤ ce_max_size ce.

Lemma send_at_ok c :
  tx_ok c → fits_max_size (con_mcu c) → transmit_max c + ce_max_size ce ≤ 96 →
  ∃ c', send_at sizeof_int (transmit_max c) ce args c = Ret tt c' ∧ tx_ok c' ∧
    tx_stream c' = tx_stream c ++ block.
Proof.
  intros [Hl Hp] (He & Hb & Hm) Hr. unfold send_at.
  rewrite (bind_ret_eq _ _ c (msglen, block) c).
  2:{ unfold lift. rewrite He. by destruct c. }
  unfold write_at. set (c1 := c <| transmit_buf := take (Z.to_nat (transmit_max c)) (transmit_buf c) ++ block ++
      drop (Z.to_nat (transmit_max c) + length block) (transmit_buf c) |>).
  rewrite (bind_ret_eq _ _ c tt c1).
  2:{ rewrite (bind_ret_eq get _ c c c) by done. rewrite (proj2 (Z.ltb_ge _ _)) by lia. done. }
  eexists. split; [reflexivity|]. unfold tx_stream, tx_pending. subst c1.
  cbn [wire transmit_pos transmit_max transmit_buf upd]. rewrite u8_small by lia. split.
  { split; cbn; rewrite ?u8_small by lia; [|lia]. rewrite !length_app, length_take, length_drop. lia. }
  rewrite <- app_assoc. f_equal. apply list_eq. intros j.
  set (tm := Z.to_nat (transmit_max c)). set (tp := Z.to_nat (transmit_pos c)).
  assert (length (take tm (transmit_buf c)) = tm) as Hlt by (rewrite length_take; lia).
  assert (length (take (Z.to_nat (transmit_max c - transmit_pos c)) (drop tp (transmit_buf c))) = (tm - tp)%nat)
    as Hlp by (rewrite length_take, length_drop; lia).
  destruct (decide (j < tm - tp)%nat).
  - rewrite lookup_take_lt, lookup_drop, lookup_app_l, lookup_take_lt by lia.
    rewrite lookup_app_l, lookup_take_lt, lookup_drop by lia. done.
  - rewrite (lookup_app_r (take _ (drop _ _))), Hlp by lia.
    destruct (decide (j < tm - tp + length block)%nat).
    + rewrite lookup_take_lt, lookup_drop, lookup_app_r, Hlt, lookup_app_l by lia. f_equal. lia.
    + rewrite lookup_take_ge by lia. symmetry. apply lookup_ge_None_2. lia.
Qed.

(** console_sendf, with transmit interrupts running in between, keeps the transmit buffer well
    formed and the output stream a FIFO: the block of the message is appended completely, or
    dropped completely when it does not fit. *)
Theorem console_sendf_fifo tx1 c :
  tx_ok c → fits_max_size (con_mcu c) → 0 ≤ ce_max_size ce →
  ∃ c', console_sendf tx1 sizeof_int ce args c = Ret tt c' ∧ tx_ok c' ∧
    (tx_stream c' = tx_stream c ++ block ∨
     tx_stream c' = tx_stream c ∧ 96 < transmit_max c - transmit_pos c + ce_max_size ce).
Proof.
  intros Hok Hfit Hms. unfold console_sendf. rewrite (bind_ret_eq get _ c c c) by done.
  set (empty := transmit_max c <=? transmit_pos c).
  set (c0 := if empty then c <| transmit_max := 0 |> <| transmit_pos := 0 |> else c).
  rewrite (bind_ret_eq _ _ c (transmit_pos c0, transmit_max c0) c0) by (subst c0; by destruct empty).
  assert (tx_ok c0 ∧ tx_stream c0 = tx_stream c ∧ con_mcu c0 = con_mcu c ∧
    transmit_max c0 - transmit_pos c0 = transmit_max c - transmit_pos c) as (Hok0 & Hs0 & Hm0 & Hd0).
  { subst c0 empty. destruct (Hok) as [Hl Hp]. destruct (Z.leb_spec (transmit_max c) (transmit_pos c)); [|done].
    split; [split; [done|cbn; lia]|]. unfold tx_stream, tx_pending. cbn [wire transmit_max transmit_pos upd].
    replace (transmit_max c - transmit_pos c) with 0 by lia. done. }
  clearbody c0. cbn beta iota zeta.
  destruct (tx_isrs_ok tx1 c0 Hok0) as (c1 & H1 & Hok1 & Hs1 & Hmx1 & Hp1 & Hb1 & Hm1).
  rewrite (bind_ret_eq _ _ _ _ _ H1). change TX_BUFFER_SIZE with 96.
  assert (fits_max_size (con_mcu c1)) as Hfit1 by (rewrite Hm1, Hm0; done).
  destruct (Z.ltb_spec 96 (transmit_max c0 + ce_max_size ce)) as [Hlt|Hge].
  - destruct (Z.ltb_spec 96 (transmit_max c0 + ce_max_size ce - transmit_pos c0)) as [Hlt2|Hge2].
    { exists c1. split; [done|]. split; [done|]. right. split; [congruence|lia]. }
    set (c2 := c1 <| transmit_max := 0 |>).
    rewrite (bind_ret_eq _ _ c1 tt c2) by done.
    rewrite (bind_ret_eq (gets transmit_pos) _ c2 (transmit_pos c1) c2) by done. cbn zeta.
    set (c3 := c2 <| transmit_buf := memmove 0 (Z.to_nat (transmit_pos c1))
        (Z.to_nat (transmit_max c0 - transmit_pos c1)) (transmit_buf c2) |>
      <| transmit_pos := 0 |> <| transmit_max := transmit_max c0 - transmit_pos c1 |>).
    rewrite (bind_ret_eq _ _ c2 tt c3) by done. destruct (Hok1) as [Hl1 Hpp1].
    assert (tx_ok c3) as Hok3.
    { split; [|cbn; lia]. cbn -[memmove]. rewrite memmove_length; [done|lia|lia]. }
    assert (tx_stream c3 = tx_stream c1) as Hs3.
    { unfold tx_stream, tx_pending. subst c3 c2. cbn [wire transmit_buf transmit_pos transmit_max upd].
      f_equal. rewrite Hmx1, Z.sub_0_r. unfold memmove. change (Z.to_nat 0) with 0%nat.
      rewrite drop_0, take_0. cbn [app]. rewrite take_app_le by (rewrite length_take, length_drop; lia).
      by rewrite take_take, Nat.min_id. }
    destruct (send_at_ok c3 Hok3) as (c' & H' & Hok' & Hs'); [exact Hfit1|cbn; lia|].
    exists c'. split; [exact H'|]. split; [done|]. left. rewrite Hs', Hs3, Hs1, Hs0. done.
  - rewrite <- Hmx1. destruct (send_at_ok c1 Hok1) as (c' & H' & Hok' & Hs'); [exact Hfit1|lia|].
    exists c'. split; [exact H'|]. split; [done|]. left. rewrite Hs', Hs1, Hs0. done.
Qed.
End send.
