(* ===== verification/CanserialSpec.v ===== *)
(** * The console over CAN

    Node ids are unique while the nodes see the same admin messages; the transmit buffer is a
    FIFO of frames of at most 8 bytes; and the receive buffer takes a frame completely or not at
    all and loses nothing when a message is popped. *)

From S2P Require Import Prelude State Runtime Sched Vlq Crc Command SerialIrq Canserial SerialSpec.

Lemma wp_can_lift {A} (m : MC A) c (Q : A → canbus_data → Prop) E :
  wp m (can_mcu c) (λ a s, Q a (c <| can_mcu := s |>)) (λ r s, E r (c <| can_mcu := s |>)) → wp (can_lift m) c Q E.
Proof. unfold wp, can_lift. by destruct (m (can_mcu c)). Qed.

Section spec.
Context {B : Board} {CB : CanBoard}.

(** ** Node ids *)

(** The id of a node after an admin message. *)
Definition id_after (uuid : list Z) (id : Z) (msg : canbus_msg) : Z :=
  if (8 <=? cm_dlc msg) && bool_decide (head (cm_data msg) = Some CANBUS_CMD_SET_KLIPPER_NODEID) then
    let newid := can_decode_nodeid (default 0 (cm_data msg !! 7%nat)) in
    if bool_decide (take CANBUS_UUID_LEN (drop 1 (cm_data msg)) = uuid) then newid
    else if newid =? id then 0 else id
  else id.

(** The hardware takes the answer within [patience] tries. *)
Definition hw_answers (patience : nat) (c : canbus_data) : Prop :=
  ∀ msg, ∃ k, (k < patience)%nat ∧ 0 ≤ canhw_send (can_sends c + k)%nat msg.

Lemma wp_canbus_send msg c (Q : Z → canbus_data → Prop) E :
  let ret := canhw_send (can_sends c) msg in
  Q ret (c <| can_sends := S (can_sends c) |>
           <| can_wire := if 0 <? ret then can_wire c ++ [msg] else can_wire c |>) →
  wp (canbus_send msg) c Q E.
Proof. intros ret HQ. unfold canbus_send. do 5 hstep. exact HQ. Qed.

(** What sending leaves alone. *)
Definition same_node (c c' : canbus_data) : Prop :=
  can_assigned_id c' = can_assigned_id c ∧ can_uuid c' = can_uuid c ∧ can_filter c' = can_filter c ∧
  can_admin_pull_pos c' = can_admin_pull_pos c ∧ can_admin_push_pos c' = can_admin_push_pos c ∧
  can_admin_queue c' = can_admin_queue c ∧ can_receive_pos c' = can_receive_pos c ∧
  can_receive_buf c' = can_receive_buf c.

Lemma wp_send_retry patience msg c k :
  (k < patience)%nat → 0 ≤ canhw_send (can_sends c + k)%nat msg →
  wp (send_retry patience msg) c (λ _ c', same_node c c') no_shut.
Proof.
  revert patience c. induction k as [|k IH]; intros [|patience] c Hk Hs; [lia| |lia|]; cbn [send_retry]; hstep;
    apply wp_canbus_send.
  - rewrite Nat.add_0_r in Hs. rewrite (proj2 (Z.leb_le _ _)) by done. hstep. by split_and!.
  - destruct (Z.leb_spec 0 (canhw_send (can_sends c) msg)); [hstep; by split_and!|].
    set (c1 := upd can_wire _ _). eapply wp_conseq; [apply (IH patience c1); [lia|]|].
    + unfold c1. cbn. by rewrite <- Nat.add_succ_r.
    + intros [] c' (H1 & H2 & H3 & H4 & H5 & H6 & H7 & H8). by split_and!.
Qed.

(** An admin message either returns or shuts the machine down, which it does exactly when the
    node loses its id. *)
Lemma wp_can_process_admin patience msg c :
  hw_answers patience c → length (cm_data msg) = 8%nat → Forall is_byte (cm_data msg) →
  wp (can_process_admin patience msg) c
    (λ _ c', can_assigned_id c' = id_after (can_uuid c) (can_assigned_id c) msg ∧ can_uuid c' = can_uuid c ∧
       (can_assigned_id c ≠ 0 → can_assigned_id c' ≠ 0))
    (λ r c', r = "Another CAN node assigned this ID"%string ∧ can_assigned_id c' = 0 ∧ can_filter c' = 0 ∧
       can_uuid c' = can_uuid c ∧ id_after (can_uuid c) (can_assigned_id c) msg = 0).
Proof.
  intros Hhw Hlen Hby. destruct msg as [id dlc data]. cbn [cm_data] in Hlen, Hby.
  destruct data as [|cmd data]; [done|]. unfold can_process_admin, id_after. cbn [cm_dlc cm_data head].
  destruct (nz dlc) eqn:Hd; cbn [negb].
  2:{ hstep. unfold nz in Hd. apply negb_false_iff, Z.eqb_eq in Hd as ->. done. }
  hstep. eapply (wp_deref_eq _ cmd); [done|]. unfold CANBUS_CMD_QUERY_UNASSIGNED, CANBUS_CMD_SET_KLIPPER_NODEID, CANBUS_CMD_REQUEST_BOOTLOADER.
  destruct (Z.eqb_spec cmd 0) as [->|H0]; [|destruct (Z.eqb_spec cmd 1) as [->|H1]; [|destruct (Z.eqb_spec cmd 2) as [->|H2]]].
  - rewrite andb_false_r. unfold can_process_query_unassigned. do 2 hstep.
    destruct (nz (can_assigned_id c)); [by hstep|]. set (msg := mk_canmsg _ _ _).
    destruct (Hhw msg) as (k & Hk & Hs). eapply wp_use; [by eapply wp_send_retry|].
    intros [] c' (H1 & H2 & _). by rewrite H1.
  - rewrite bool_decide_eq_true_2, andb_true_r by done. unfold can_process_set_klipper_nodeid. cbn [cm_dlc cm_data].
    destruct (Z.ltb_spec dlc 8) as [Hlt|Hge]; [rewrite (proj2 (Z.leb_gt _ _)) by done; by hstep|].
    rewrite (proj2 (Z.leb_le _ _)) by done.
    destruct (lookup_lt_is_Some_2 (1 :: data) 7) as [nid Hn]; [lia|].
    hstep. eapply wp_deref_eq; [exact Hn|]. rewrite Hn. change (default 0 (Some nid)) with nid. do 2 hstep. unfold can_check_uuid. cbn [cm_dlc cm_data].
    rewrite (proj2 (Z.leb_le 7 dlc)) by lia. cbn [andb]. set (newid := can_decode_nodeid nid).
    destruct (bool_decide _); cbn [andb].
    + destruct (Z.eqb_spec newid (can_assigned_id c)) as [Hid|]; cbn [negb]; hstep; [by split_and!|]. hstep.
      hstep. unfold canbus_set_filter. hstep. split_and!; [done..|]. intros _. cbn. unfold newid.
      pose proof (Forall_lookup_1 _ _ _ _ Hby Hn) as Hb. unfold is_byte in Hb. unfold can_decode_nodeid.
      rewrite Z.shiftl_mul_pow2 by lia. rewrite u32_small by lia. lia.
    + destruct (Z.eqb_spec newid (can_assigned_id c)); hstep; [|done].
      unfold can_id_conflict, canbus_set_filter. do 4 hstep. apply wp_can_lift. by unfold wp, shutdown.
  - rewrite andb_false_r. unfold can_process_request_bootloader. do 2 hstep. destruct (_ || _); hstep; done.
  - rewrite (bool_decide_eq_false_2 (Some cmd = Some 1)), andb_false_r by congruence. by hstep.
Qed.

(** Two nodes do not have the same id. *)
Definition distinct_ids (c1 c2 : canbus_data) : Prop := can_assigned_id c1 = can_assigned_id c2 → can_assigned_id c1 = 0.

(** How a node ends. *)
Definition ended (m : CAN unit) (c c' : canbus_data) : Prop := m c = Ret tt c' ∨ ∃ r, m c = Shut r c'.

Lemma id_after_distinct uuid1 uuid2 id1 id2 msg :
  uuid1 ≠ uuid2 → (id1 = id2 → id1 = 0) →
  id_after uuid1 id1 msg = id_after uuid2 id2 msg → id_after uuid1 id1 msg = 0.
Proof.
  intros Hu Hd. unfold id_after. destruct (_ && _); [|done]. cbv zeta. set (newid := can_decode_nodeid _).
  do 2 case_bool_decide; try congruence; destruct (Z.eqb_spec newid id1), (Z.eqb_spec newid id2); lia.
Qed.

(** C24: Two CAN nodes with different uuids never have the same node id: if they have not
    before an admin message that both process, they have not afterwards, whatever the message;
    and a node that had an id and returns from it still has one, because it loses its id only
    with a shutdown. *)
Theorem can_node_ids_unique patience msg c1 c2 :
  can_uuid c1 ≠ can_uuid c2 → distinct_ids c1 c2 → hw_answers patience c1 → hw_answers patience c2 →
  length (cm_data msg) = 8%nat → Forall is_byte (cm_data msg) →
  ∃ c1' c2', ended (can_process_admin patience msg) c1 c1' ∧ ended (can_process_admin patience msg) c2 c2' ∧
    distinct_ids c1' c2' ∧ can_uuid c1' ≠ can_uuid c2' ∧
    ∀ c', can_process_admin patience msg c1 = Ret tt c' → can_assigned_id c1 ≠ 0 → can_assigned_id c' ≠ 0.
Proof.
  intros Hu Hd Hh1 Hh2 Hl Hby.
  assert (∀ c, hw_answers patience c → ∃ c', ended (can_process_admin patience msg) c c' ∧
    can_assigned_id c' = id_after (can_uuid c) (can_assigned_id c) msg ∧ can_uuid c' = can_uuid c) as Hend.
  { intros c Hh. pose proof (wp_can_process_admin patience msg c Hh Hl Hby) as Hw. unfold wp in Hw. unfold ended.
    destruct (can_process_admin patience msg c) as [[] c'|r c'| |]; [|destruct Hw as (_ & H1 & _ & H2 & H3)|done..].
    - exists c'. split; [by left|]. by destruct Hw as (H1 & H2 & _).
    - exists c'. split; [right; by eexists|]. by rewrite H3. }
  destruct (Hend c1 Hh1) as (c1' & He1 & Hi1 & Hu1). destruct (Hend c2 Hh2) as (c2' & He2 & Hi2 & Hu2).
  exists c1', c2'. split; [done|]. split; [done|]. split; [|split; [congruence|]].
  - unfold distinct_ids. rewrite Hi1, Hi2. by apply id_after_distinct.
  - intros c' Hr H0. pose proof (wp_can_process_admin patience msg c1 Hh1 Hl Hby) as Hw. unfold wp in Hw. rewrite Hr in Hw.
    by apply Hw.
Qed.

(** ** Transmission *)

(** The bytes of a buffer from [a] to [b]. *)
Definition slice (buf : list Z) (a b : Z) : list Z := take (Z.to_nat (b - a)) (drop (Z.to_nat a) buf).
Lemma slice_app buf a b c : 0 ≤ a ≤ b → b ≤ c → slice buf a b ++ slice buf b c = slice buf a c.
Proof.
  intros Hab Hbc. unfold slice. replace (Z.to_nat (c - a)) with (Z.to_nat (b - a) + Z.to_nat (c - b))%nat by lia.
  rewrite <- take_take_drop, drop_drop. do 3 f_equal. lia.
Qed.

Definition can_pending (c : canbus_data) : list Z := slice (can_transmit_buf c) (can_transmit_pos c) (can_transmit_max c).
Record can_tx_ok (c : canbus_data) : Prop := {
  cto_len : length (can_transmit_buf c) = 96%nat;
  cto_pos : 0 ≤ can_transmit_pos c ≤ can_transmit_max c ∧ can_transmit_max c ≤ 96 }.

(** A frame with data of the node [id]. *)
Definition data_frame (id : Z) (f : canbus_msg) : Prop :=
  cm_id f = id ∧ cm_dlc f = Z.of_nat (length (cm_data f)) ∧ (1 ≤ length (cm_data f) ≤ 8)%nat.

Lemma wp_tx_loop fuel id tpos tmax c :
  length (can_transmit_buf c) = 96%nat → 0 ≤ tpos ≤ tmax → tmax ≤ 96 → tmax - tpos ≤ 8 * (Z.of_nat fuel - 1) →
  wp (tx_loop fuel id tpos tmax) c
    (λ tpos' c', ∃ frames n, tpos ≤ tpos' ≤ tmax ∧
       c' = c <| can_sends := n |> <| can_wire := can_wire c ++ frames |> ∧ Forall (data_frame id) frames ∧
       concat (cm_data <$> frames) = slice (can_transmit_buf c) tpos tpos' ∧
       (tpos' = tmax ∨ ∃ k f, n = S k ∧ data_frame id f ∧ canhw_send k f ≤ 0)) no_shut.
Proof.
  revert tpos c. induction fuel as [|fuel IH]; intros tpos c Hl Hp Hm Hf; [lia|]. cbn [tx_loop].
  destruct (Z.leb_spec (tmax - tpos) 0) as [Hz|Hnz].
  { hstep. exists [], (can_sends c). rewrite app_nil_r. split; [lia|]. split; [by destruct c|]. split; [constructor|].
    split; [|left; lia]. unfold slice. by rewrite Z.sub_diag. }
  set (now := if 8 <? tmax - tpos then 8 else tmax - tpos).
  assert (1 ≤ now ≤ 8 ∧ now ≤ tmax - tpos ∧ (now = 8 ∨ now = tmax - tpos)) as Hnow by (unfold now; destruct (Z.ltb_spec 8 (tmax - tpos)); lia).
  do 3 hstep. set (data := slice (can_transmit_buf c) tpos (tpos + now)).
  assert (length data = Z.to_nat now) as Hdl by (unfold data, slice; rewrite length_take, length_drop; lia).
  eapply (wp_deref_eq _ data).
  { unfold bytes_at. rewrite (proj2 (Z.ltb_ge _ _)) by lia. unfold data, slice. do 2 f_equal. lia. }
  set (f := mk_canmsg id now data).
  assert (data_frame id f) as Hdf by (unfold data_frame, f; cbn; rewrite Hdl; lia).
  hstep. apply wp_canbus_send. cbv zeta. destruct (Z.leb_spec (canhw_send (can_sends c) f) 0) as [Hr|Hr].
  - hstep. rewrite (proj2 (Z.ltb_ge _ _)) by done. exists [], (S (can_sends c)). rewrite app_nil_r. split; [lia|].
    split; [done|]. split; [constructor|]. split; [unfold slice; by rewrite Z.sub_diag|]. right. by exists (can_sends c), f.
  - rewrite (proj2 (Z.ltb_lt _ _)) by done. eapply wp_conseq; [apply IH; [done|lia|lia|lia]|].
    intros tpos' c' (frames & n & Hp' & -> & Hfr & Hc & Hend). exists (f :: frames), n. split; [lia|].
    split; [cbn; by rewrite <- app_assoc|]. split; [by constructor|]. split; [|done].
    cbn [fmap list_fmap concat cm_data f]. rewrite Hc. apply slice_app; lia.
Qed.

(** canserial_tx_task sends the bytes of the transmit buffer in frames of 1 to 8 bytes, in
    order and each once; what the hardware refuses stays in the buffer. *)
Theorem canserial_tx_fifo c :
  can_tx_ok c → can_tx_wake c ≠ 0 → 0 < can_assigned_id c < 2 ^ 32 - 1 →
  ∃ c' frames, canserial_tx_task c = Ret tt c' ∧ can_tx_ok c' ∧ can_wire c' = can_wire c ++ frames ∧
    Forall (data_frame (can_assigned_id c + 1)) frames ∧
    concat (cm_data <$> frames) ++ can_pending c' = can_pending c ∧
    (can_pending c' = [] ∨ ∃ k f, data_frame (can_assigned_id c + 1) f ∧ canhw_send k f ≤ 0).
Proof.
  intros [Hl Hp] Hw Hid.
  assert (wp canserial_tx_task c (λ _ c', ∃ frames, can_tx_ok c' ∧ can_wire c' = can_wire c ++ frames ∧
    Forall (data_frame (can_assigned_id c + 1)) frames ∧ concat (cm_data <$> frames) ++ can_pending c' = can_pending c ∧
    (can_pending c' = [] ∨ ∃ k f, data_frame (can_assigned_id c + 1) f ∧ canhw_send k f ≤ 0)) no_shut) as H.
  { unfold canserial_tx_task, check_tx_wake. do 3 hstep.
    assert (nz (can_tx_wake c) = true) as -> by (unfold nz; by apply negb_true_iff, Z.eqb_neq). cbn [negb].
    do 3 hstep. cbn [negb]. do 2 hstep.
    set (c1 := c <| can_tx_wake := 0 |>). change (can_assigned_id c1) with (can_assigned_id c).
    assert (nz (can_assigned_id c) = true) as -> by (unfold nz; apply negb_true_iff, Z.eqb_neq; lia). cbn [negb].
    rewrite u32_small by lia. hstep. eapply wp_conseq; [apply wp_tx_loop; [done|cbn; lia|cbn; lia|cbn; lia]|].
    intros tpos' c' (frames & n & Hp' & -> & Hfr & Hc & Hend). hstep. exists frames. cbn in Hp'.
    split; [split; cbn; rewrite ?u8_small by lia; [done|lia]|]. split; [done|]. split; [done|].
    unfold can_pending. cbn [can_transmit_buf can_transmit_pos can_transmit_max upd]. rewrite u8_small by lia. split.
    - rewrite Hc. apply slice_app; cbn; lia.
    - destruct Hend as [-> | (k & f & _ & Hf & Hs)]; [left; unfold slice; cbn; by rewrite Z.sub_diag|right; by exists k, f]. }
  destruct (wp_returns _ _ _ H) as ([] & c' & Hrun & frames & H1). by exists c', frames.
Qed.

(** The contents of the buffer with a block put behind them. *)
Lemma slice_put buf a m block :
  0 ≤ a ≤ m → m + Z.of_nat (length block) ≤ Z.of_nat (length buf) →
  slice (take (Z.to_nat m) buf ++ block ++ drop (Z.to_nat m + length block) buf) a (m + Z.of_nat (length block)) =
    slice buf a m ++ block.
Proof.
  intros Ha Hm. set (buf' := take (Z.to_nat m) buf ++ _). rewrite <- (slice_app buf' a m) by lia.
  assert (length (take (Z.to_nat m) buf) = Z.to_nat m) as Hl by (rewrite length_take; lia). unfold slice, buf'. f_equal.
  - rewrite !take_drop_commute. replace (Z.to_nat a + Z.to_nat (m - a))%nat with (Z.to_nat m) by lia.
    by rewrite take_app_length'.
  - rewrite drop_app_length' by done. apply take_app_length'. lia.
Qed.

Section sendf.
Context (sizeof_int : Z) (ce : command_encoder) (args : list va_arg) (msglen : Z) (block : list Z).

Lemma wp_can_send_at c :
  can_tx_ok c → command_encode_and_frame sizeof_int ce args (can_mcu c) = Ret (msglen, block) (can_mcu c) →
  Z.of_nat (length block) = msglen → can_transmit_max c + msglen ≤ 96 →
  wp (can_send_at sizeof_int (can_transmit_max c) ce args) c
    (λ _ c', can_tx_ok c' ∧ can_wire c' = can_wire c ∧ can_pending c' = can_pending c ++ block ∧ can_tx_wake c' = 1) no_shut.
Proof.
  intros [Hl Hp] He Hb Hfit. unfold can_send_at. hstep. apply wp_can_lift. unfold wp at 1. rewrite He.
  replace (c <| can_mcu := can_mcu c |>) with c by (by destruct c). do 3 hstep.
  eapply wp_deref_eq; [unfold put_at; by rewrite (proj2 (Z.ltb_ge _ _)) by lia|].
  do 2 hstep. unfold canserial_notify_tx. hstep. apply wp_can_lift. unfold wp at 1, sched_wake_tasks, modify at 1. hstep.
  rewrite u8_small by lia. split; [split; cbn; [rewrite !length_app, length_take, length_drop; lia|lia]|].
  split; [done|]. split; [|done]. unfold can_pending. cbn [can_transmit_buf can_transmit_pos can_transmit_max upd].
  rewrite <- Hb. apply slice_put; lia.
Qed.

(** [console_sendf] appends the block of the message completely, or drops it completely when it
    does not fit. *)
Theorem can_console_sendf_fifo c :
  can_tx_ok c → command_encode_and_frame sizeof_int ce args (can_mcu c) = Ret (msglen, block) (can_mcu c) →
  Z.of_nat (length block) = msglen → msglen ≤ ce_max_size ce →
  wp (can_console_sendf sizeof_int ce args) c (λ _ c', can_tx_ok c' ∧ can_wire c' = can_wire c ∧
    (can_pending c' = can_pending c ++ block ∧ can_tx_wake c' = 1 ∨
     can_pending c' = can_pending c ∧ 96 < can_transmit_max c - can_transmit_pos c + ce_max_size ce)) no_shut.
Proof.
  intros [Hl Hp] He Hb Hm. unfold can_console_sendf. do 3 hstep.
  eapply (wp_conseq _ _ (λ r c1, can_tx_ok c1 ∧ can_mcu c1 = can_mcu c ∧ can_wire c1 = can_wire c ∧
    can_pending c1 = can_pending c ∧ r = (can_transmit_pos c1, can_transmit_max c1) ∧
    can_transmit_max c1 - can_transmit_pos c1 = can_transmit_max c - can_transmit_pos c)).
  { destruct (Z.leb_spec (can_transmit_max c) (can_transmit_pos c)); repeat hstep.
    - split; [split; cbn; [done|lia]|]. split_and!; try done; [|cbn; lia]. unfold can_pending, slice. cbn.
      by replace (can_transmit_max c - can_transmit_pos c) with 0 by lia.
    - by split_and!; [split; [done|lia]|..]. }
  intros [tpos tmax] c1 ([Hl1 Hp1] & Hmc & Hwr & Hpd & [= -> ->] & Hd). change TX_BUFFER_SIZE with 96.
  assert (∀ c2, can_tx_ok c2 → can_mcu c2 = can_mcu c1 → can_wire c2 = can_wire c1 → can_pending c2 = can_pending c1 →
    can_transmit_max c2 + ce_max_size ce ≤ 96 → wp (can_send_at sizeof_int (can_transmit_max c2) ce args) c2
      (λ _ c', can_tx_ok c' ∧ can_wire c' = can_wire c ∧
        (can_pending c' = can_pending c ++ block ∧ can_tx_wake c' = 1 ∨
         can_pending c' = can_pending c ∧ 96 < can_transmit_max c - can_transmit_pos c + ce_max_size ce)) no_shut) as Hsend.
  { intros c2 Hok2 E1 E2 E3 Hfit. eapply wp_conseq; [apply wp_can_send_at; [done|by rewrite E1, Hmc|done|lia]|].
    intros [] c' (H1 & H2 & H3 & H4). split; [done|]. split; [congruence|]. left. split; [congruence|done]. }
  destruct (Z.ltb_spec 96 (can_transmit_max c1 + ce_max_size ce)) as [Hlt|Hge].
  - destruct (Z.ltb_spec 96 (can_transmit_max c1 + ce_max_size ce - can_transmit_pos c1)) as [Hlt2|Hge2].
    { hstep. split; [by split|]. split; [done|]. right. split; [done|lia]. }
    do 2 hstep. set (c2 := upd can_transmit_max _ _). apply (Hsend c2); try done.
    + split; cbn -[memmove]; [rewrite memmove_length; lia|lia].
    + unfold can_pending, slice, c2. cbn [can_transmit_buf can_transmit_pos can_transmit_max upd]. rewrite Z.sub_0_r.
      unfold memmove. change (Z.to_nat 0) with 0%nat. rewrite drop_0, take_0. cbn [app].
      rewrite take_app_le by (rewrite length_take, length_drop; lia). by rewrite take_take, Nat.min_id.
    + cbn. lia.
  - apply (Hsend c1); [by split|done..].
Qed.
End sendf.
End spec.

(** * Reception over CAN

    The receive buffer is a bounded queue of bytes that takes a frame completely or not at all;
    popping a message keeps every byte that arrived behind it, whatever frames arrive meanwhile. *)

Section spec.
Context {B : Board} {CB : CanBoard}.

Record can_rx_ok (c : canbus_data) : Prop := {
  cro_size : length (can_receive_buf c) = 192%nat;
  cro_pos : 0 ≤ can_receive_pos c ≤ 192 }.
Definition can_contents (c : canbus_data) : list Z := take (Z.to_nat (can_receive_pos c)) (can_receive_buf c).

(** A frame as the hardware delivers it. *)
Definition hw_frame (msg : canbus_msg) : Prop := length (cm_data msg) = 8%nat ∧ 0 ≤ cm_dlc msg.
Definition frame_data (msg : canbus_msg) : list Z := take (Z.to_nat (CANMSG_DATA_LEN msg)) (cm_data msg).
Lemma frame_data_length msg : hw_frame msg → Z.of_nat (length (frame_data msg)) = CANMSG_DATA_LEN msg ∧ 0 ≤ CANMSG_DATA_LEN msg ≤ 8.
Proof.
  intros [Hl Hd]. unfold frame_data, CANMSG_DATA_LEN. rewrite length_take, Hl. destruct (Z.ltb_spec 8 (cm_dlc msg)); lia.
Qed.

(** The queue of node [id]. *)
Definition can_push (id : Z) (L : list Z) (msg : canbus_msg) : list Z :=
  if bool_decide (id ≠ 0 ∧ cm_id msg = id ∧ (length L + length (frame_data msg) ≤ 192)%nat) then L ++ frame_data msg else L.

Abbreviation can_inv c := (buf_inv (can_receive_buf c) (can_receive_pos c)).

Lemma wp_process_data msg c L len copied :
  can_inv c L len copied → hw_frame msg →
  wp (canserial_process_data msg) c
    (λ _ c', can_inv c' (can_push (can_assigned_id c) L msg) len copied ∧ can_assigned_id c' = can_assigned_id c) no_shut.
Proof.
  intros Hi Hhw. pose proof Hi as [Hs Hf Hp Hn _ _]. destruct (frame_data_length msg Hhw) as [Hfl Hfb].
  assert (∀ c1, can_receive_buf c1 = can_receive_buf c → can_receive_pos c1 = can_receive_pos c →
    can_assigned_id c1 = can_assigned_id c → can_push (can_assigned_id c) L msg = L →
    can_inv c1 (can_push (can_assigned_id c) L msg) len copied ∧ can_assigned_id c1 = can_assigned_id c) as Hsame.
  { intros c1 E1 E2 E3 E4. by rewrite E1, E2, E4. }
  unfold canserial_process_data. do 2 hstep. destruct (nz (can_assigned_id c) && (cm_id msg =? can_assigned_id c)) eqn:Hid.
  - apply andb_true_iff in Hid as [Hnz Hid]. unfold nz in Hnz. apply negb_true_iff, Z.eqb_neq in Hnz. apply Z.eqb_eq in Hid.
    rewrite Hp. change RX_BUFFER_SIZE with 192. rewrite u32_small by lia.
    destruct (Z.ltb_spec (192 - Z.of_nat (length L)) (CANMSG_DATA_LEN msg)) as [Hlt|Hge].
    { hstep. apply Hsame; try done. unfold can_push. rewrite bool_decide_eq_false_2; [done|]. lia. }
    fold (frame_data msg). hstep. eapply wp_deref_eq.
    { unfold put_at. by rewrite (proj2 (Z.ltb_ge _ _)) by lia. }
    do 2 hstep. unfold canserial_notify_rx. hstep. apply wp_can_lift. unfold wp at 1, sched_wake_tasks, modify at 1. hstep.
    split; [|done]. cbn [can_receive_buf can_receive_pos upd]. rewrite u8_small by lia.
    unfold can_push. rewrite bool_decide_eq_true_2 by lia. rewrite Nat2Z.id. set (data := frame_data msg) in *.
    assert (length (take (length L) (can_receive_buf c)) = length L) as Hlt by (rewrite length_take; lia).
    eapply buf_inv_grow; [exact Hi| |rewrite length_app; lia|rewrite length_app; lia|..].
    + rewrite !length_app, length_drop. lia.
    + intros j Hj. rewrite lookup_app_l, lookup_take_lt by lia. done.
    + intros j Hj. rewrite length_app in Hj. rewrite lookup_app_r, Hlt, lookup_app_l by lia.
      by rewrite lookup_app_r by lia.
  - assert (can_push (can_assigned_id c) L msg = L) as Hpush.
    { unfold can_push. rewrite bool_decide_eq_false_2; [done|]. intros (H0 & H1 & _). rewrite H1, Z.eqb_refl, andb_true_r in Hid.
      unfold nz in Hid. by apply negb_false_iff, Z.eqb_eq in Hid. }
    destruct (_ || _); [|hstep; by apply Hsame]. destruct (_ <=? _); [hstep; by apply Hsame|].
    do 2 hstep. unfold canserial_notify_rx. hstep. apply wp_can_lift. unfold wp at 1, sched_wake_tasks, modify at 1. hstep.
    by apply Hsame.
Qed.

Lemma wp_rx_frames frames c L len copied :
  can_inv c L len copied → Forall hw_frame frames →
  wp (rx_frames frames) c
    (λ _ c', can_inv c' (foldl (can_push (can_assigned_id c)) L frames) len copied ∧ can_assigned_id c' = can_assigned_id c) no_shut.
Proof.
  revert c L. induction frames as [|msg frames IH]; intros c L Hi Hhw; cbn [rx_frames foldl]; [by hstep|].
  apply Forall_cons in Hhw as [Hm Hhw]. hstep. eapply wp_conseq; [by apply wp_process_data|].
  intros [] c1 [Hi1 E1]. eapply wp_conseq; [by apply IH|]. intros [] c2. rewrite E1. done.
Qed.

(** ** Popping a message *)

Definition can_arrivals (rx : list (list canbus_msg * list canbus_msg)) : list (list canbus_msg) := (λ p, p.1 ++ p.2) <$> rx.

Lemma can_push_grows id L frames : ∃ more, foldl (can_push id) L frames = L ++ more.
Proof.
  revert L. induction frames as [|msg frames IH]; intros L; cbn; [exists []; by rewrite app_nil_r|].
  destruct (IH (can_push id L msg)) as [more ->]. unfold can_push. case_bool_decide; [|eauto]. rewrite <- app_assoc. eauto.
Qed.

(** The middle of an iteration: the copy. *)
Lemma wp_can_copy c L len copied rpos :
  can_inv c L len copied → (copied + len ≤ rpos ≤ length L)%nat →
  let need := Z.of_nat rpos - Z.of_nat len in
  wp (if nz need then
        modify (λ c, c <| can_receive_buf := memmove (Z.to_nat (Z.of_nat copied)) (Z.to_nat (Z.of_nat copied + Z.of_nat len))
                                               (Z.to_nat (need - Z.of_nat copied)) (can_receive_buf c) |>);;;
        canserial_notify_rx;;;
        mret need
      else mret (Z.of_nat copied)) c
    (λ r c', r = Z.of_nat (rpos - len) ∧ can_inv c' L len (rpos - len) ∧ can_assigned_id c' = can_assigned_id c) no_shut.
Proof.
  intros Hi Hr need. subst need. unfold nz. destruct (Z.eqb_spec (Z.of_nat rpos - Z.of_nat len) 0); cbn [negb].
  - hstep. replace copied with 0%nat in * by lia. replace (rpos - len)%nat with 0%nat by lia. done.
  - do 3 hstep. unfold canserial_notify_rx. hstep. apply wp_can_lift. unfold wp at 1, sched_wake_tasks, modify at 1. do 2 hstep.
    split; [lia|]. split; [|done]. cbn [can_receive_buf can_receive_pos upd].
    replace (Z.to_nat (Z.of_nat rpos - Z.of_nat len - Z.of_nat copied)) with (rpos - len - copied)%nat by lia.
    replace (Z.to_nat (Z.of_nat copied + Z.of_nat len)) with (copied + len)%nat by lia. rewrite Nat2Z.id.
    apply buf_inv_move; [done|lia|lia].
Qed.

Lemma wp_can_pop_loop fuel rx len copied c L :
  can_inv c L len copied → Forall (λ p, Forall hw_frame (p.1 ++ p.2)) rx → (193 ≤ fuel + length L)%nat →
  wp (can_pop_loop fuel rx (Z.of_nat len) (Z.of_nat copied)) c
    (λ _ c', can_rx_ok c' ∧ can_assigned_id c' = can_assigned_id c ∧ ∃ k,
       can_contents c' = drop len (foldl (can_push (can_assigned_id c)) L (concat (take k (can_arrivals rx))))) no_shut.
Proof.
  revert rx copied c L. induction fuel as [|fuel IH]; intros rx copied c L Hi Hrx Hf.
  { destruct Hi. lia. }
  cbn [can_pop_loop]. do 2 hstep. set (b1 := from_option fst [] (head rx)). set (b2 := from_option snd [] (head rx)).
  assert (Forall hw_frame b1 ∧ Forall hw_frame b2) as [Hb1 Hb2].
  { destruct Hrx as [|[x1 x2] rx [H1 H2]%Forall_app _]; [by split|done]. }
  pose proof Hi as [_ HL Hpos Hlen _ _]. rewrite Hpos. hstep. eapply wp_conseq; [by apply wp_rx_frames|].
  intros [] c1 [Hi1 E1]. destruct (can_push_grows (can_assigned_id c) L b1) as [more1 Hm1]. rewrite Hm1 in Hi1.
  hstep. eapply wp_conseq; [apply (wp_can_copy c1 (L ++ more1) len copied (length L)); [done|rewrite length_app; lia]|].
  intros r c2 (-> & Hi2 & E2). hstep. eapply wp_conseq; [by apply wp_rx_frames|]. intros [] c3 [Hi3 E3].
  rewrite E2, E1, <- Hm1, <- foldl_app in Hi3.
  assert (b1 ++ b2 = concat (take 1 (can_arrivals rx))) as Harr.
  { subst b1 b2. by destruct rx as [|[x1 x2] rx]; cbn; rewrite ?app_nil_r. }
  rewrite Harr in Hi3. set (L2 := foldl (can_push (can_assigned_id c)) L (concat (take 1 (can_arrivals rx)))) in *.
  destruct (can_push_grows (can_assigned_id c) L (concat (take 1 (can_arrivals rx)))) as [more Hmore].
  fold L2 in Hmore. hstep. apply wp_can_lift. eapply wp_of_eq; [reflexivity|]. do 2 hstep.
  cbn [can_receive_pos upd]. rewrite (bi_pos _ _ _ _ _ Hi3).
  destruct (Z.eqb_spec (Z.of_nat (length L)) (Z.of_nat (length L2))) as [Heq|Hne]; cbn [negb].
  - assert (L2 = L) as HLL.
    { apply (f_equal length) in Hmore as Hl. rewrite length_app in Hl. destruct more; [etrans; [exact Hmore|apply app_nil_r]|]. cbn in Hl. lia. }
    do 2 hstep. apply wp_can_lift. eapply wp_of_eq; [reflexivity|]. cbn [can_receive_pos upd].
    rewrite u8_small by lia. rewrite HLL in Hi3. split; [split; cbn; [apply Hi3|lia]|]. split; [cbn; congruence|]. exists 1%nat.
    fold L2. rewrite HLL. unfold can_contents. cbn [can_receive_buf can_receive_pos upd].
    replace (Z.to_nat (Z.of_nat (length L) - Z.of_nat len)) with (length L - len)%nat by lia. by eapply buf_inv_end.
  - hstep. apply wp_can_lift. eapply wp_of_eq; [reflexivity|]. set (c4 := upd can_mcu _ _).
    assert (length L2 = length L + length more)%nat as Hl2 by (rewrite Hmore; apply length_app).
    eapply wp_conseq; [apply (IH (tail rx) (length L - len)%nat c4 L2); [exact Hi3|by destruct Hrx|lia]|].
    assert (can_assigned_id c4 = can_assigned_id c) as E4 by (unfold c4; cbn; congruence). rewrite E4.
    intros [] c' (Hok & E' & k & Hc). split; [done|]. split; [done|]. exists (S k). rewrite Hc. f_equal. unfold L2.
    rewrite <- foldl_app. do 2 f_equal. destruct rx as [|[x1 x2] rx]; cbn; [by rewrite take_nil|]. by rewrite app_nil_r.
Qed.

(** console_pop_input of the CAN console, interrupted by any frames, ends and loses no byte
    behind the popped message: the buffer is the old contents and the frames that arrived, each
    taken completely or not at all, without its first len bytes. *)
Theorem can_pop_keeps_bytes rx len c :
  can_rx_ok c → 0 ≤ len ≤ can_receive_pos c → Forall (λ p, Forall hw_frame (p.1 ++ p.2)) rx →
  ∃ c' k, can_console_pop_input rx len c = Ret tt c' ∧ can_rx_ok c' ∧
    can_contents c' = drop (Z.to_nat len)
      (foldl (can_push (can_assigned_id c)) (can_contents c) (concat (take k (can_arrivals rx)))).
Proof.
  intros [Hs Hp] Hl Hrx. unfold can_console_pop_input. rewrite <- (Z2Nat.id len) by lia.
  pose proof (buf_inv_start (can_receive_buf c) (can_receive_pos c) (Z.to_nat len) Hs Hp ltac:(lia)) as Hi.
  destruct (wp_returns _ _ _ (wp_can_pop_loop 194 rx (Z.to_nat len) 0 c _ Hi Hrx ltac:(lia))) as ([] & c' & Hrun & Hok & _ & k & Hc).
  exists c', k. rewrite Nat2Z.id. split; [exact Hrun|]. split; [done|exact Hc].
Qed.
End spec.
