(* ===== verification/UsbCdcSpec.v ===== *)
(** * The console over USB

    Endpoint 0 sends exactly the packets of a control transfer, over any number of retries; the
    bulk endpoints are a FIFO of the framed messages and lose no received byte; and a receive
    buffer that has no room for a packet always gives up some bytes. *)

From S2P Require Import Prelude State Runtime Bench Sched Vlq Crc Command CommandSpec SerialIrq Canserial SerialSpec UsbCdc.

Lemma wp_usb_lift {A} (m : MC A) u (Q : A → usb_data → Prop) E :
  wp m (us_mcu u) (λ a s, Q a (u <| us_mcu := s |>)) (λ r s, E r (u <| us_mcu := s |>)) → wp (usb_lift m) u Q E.
Proof. unfold wp, usb_lift. by destruct (m (us_mcu u)). Qed.

(** The machine after [sched_wake_tasks]. *)
Definition woken (s : mcu) : mcu := s <| sched; tasks_status := TS_REQUESTED |>.
Lemma wp_notify_bulk_in u (Q : unit → usb_data → Prop) E :
  Q tt (u <| us_mcu := woken (us_mcu u) |> <| us_bulk_in_wake := 1 |>) → wp usb_notify_bulk_in u Q E.
Proof. intros HQ. unfold usb_notify_bulk_in. hstep. apply wp_usb_lift. exact HQ. Qed.
Lemma wp_notify_bulk_out u (Q : unit → usb_data → Prop) E :
  Q tt (u <| us_mcu := woken (us_mcu u) |> <| us_bulk_out_wake := 1 |>) → wp usb_notify_bulk_out u Q E.
Proof. intros HQ. unfold usb_notify_bulk_out. hstep. apply wp_usb_lift. exact HQ. Qed.
Lemma wp_notify_ep0 u (Q : unit → usb_data → Prop) E :
  Q tt (u <| us_mcu := woken (us_mcu u) |> <| us_ep0_wake := 1 |>) → wp usb_notify_ep0 u Q E.
Proof. intros HQ. unfold usb_notify_ep0. hstep. apply wp_usb_lift. exact HQ. Qed.
Lemma wp_usb_call u (Q : nat → usb_data → Prop) E :
  Q (us_calls u) (u <| us_calls := S (us_calls u) |>) → wp usb_call u Q E.
Proof. intros HQ. unfold usb_call. do 4 hstep. exact HQ. Qed.

(** What the board promises: the controller takes no more bytes than it is given and delivers
    packets of at most 64 bytes, and the serial number is a descriptor. *)
Class LawfulUsb `{UsbBoard} : Prop := {
  send_bulk_bound n data : usb_send_bulk_in n data ≤ Z.of_nat (length data);
  (** [bLength] of the serial number *)
  serialid_length : usbserial_get_serialid !! 0%nat = Some (Z.of_nat (length usbserial_get_serialid));
  read_bulk_packet n :
    let '(ret, data) := usb_read_bulk_out n in
    if 0 <? ret then Z.of_nat (length data) = ret ∧ ret ≤ 64 ∧ Forall is_byte data else data = [];
}.

(** ** Sending *)

Definition usb_pending (u : usb_data) : list Z := take (Z.to_nat (us_transmit_pos u)) (us_transmit_buf u).
Record usb_tx_ok (u : usb_data) : Prop := {
  uto_len : length (us_transmit_buf u) = 192%nat;
  uto_pos : 0 ≤ us_transmit_pos u ≤ 192 }.

(** Moving the rest of a buffer to its front. *)
Lemma take_memmove buf a n :
  (a + n ≤ length buf)%nat → take n (memmove 0 a n buf) = take n (drop a buf) ∧ length (memmove 0 a n buf) = length buf.
Proof.
  intros H. split; [|apply memmove_length; lia]. unfold memmove. rewrite take_0. cbn [app]. apply take_app_length'. rewrite length_take, length_drop. lia.
Qed.
Lemma nz_true z : z ≠ 0 → nz z = true.
Proof. intros H. unfold nz. by apply negb_true_iff, Z.eqb_neq. Qed.

Section spec.
Context {B : Board} `{LU : LawfulUsb}.

(** [usb_bulk_in_task] hands the bytes of the transmit buffer to the controller in order and
    each once: what was sent followed by what waits does not change, and the task runs again
    while bytes wait behind a packet that was taken. *)
Theorem usb_bulk_in_fifo u :
  usb_tx_ok u → us_bulk_in_wake u ≠ 0 →
  ∃ u', usb_bulk_in_task u = Ret tt u' ∧ usb_tx_ok u' ∧ us_wire u' ++ usb_pending u' = us_wire u ++ usb_pending u ∧
    (usb_pending u' = usb_pending u ∨ (length (usb_pending u') < length (usb_pending u))%nat ∧
       (usb_pending u' ≠ [] → us_bulk_in_wake u' = 1)).
Proof.
  intros [Hl Hp] Hw.
  enough (wp usb_bulk_in_task u (λ _ u', usb_tx_ok u' ∧ us_wire u' ++ usb_pending u' = us_wire u ++ usb_pending u ∧
    (usb_pending u' = usb_pending u ∨ (length (usb_pending u') < length (usb_pending u))%nat ∧
       (usb_pending u' ≠ [] → us_bulk_in_wake u' = 1))) no_shut) as H'.
  { destruct (wp_returns _ _ _ H') as ([] & u' & Hr & H1). by exists u'. }
  unfold usb_bulk_in_task. do 2 hstep. rewrite (nz_true _ Hw). cbn [negb]. do 2 hstep.
  destruct (nz (us_transmit_pos u)) eqn:Hz; cbn [negb].
  2: { hstep. by split; [split|split; [|left]]. }
  unfold nz in Hz. apply negb_true_iff, Z.eqb_neq in Hz. unfold USB_CDC_EP_BULK_IN_SIZE.
  set (n := if 64 <? us_transmit_pos u then 64 else us_transmit_pos u).
  assert (0 < n ≤ us_transmit_pos u) as Hn by (unfold n; destruct (Z.ltb_spec 64 (us_transmit_pos u)); lia).
  hstep. eapply (wp_deref_eq _ (take (Z.to_nat n) (us_transmit_buf u))).
  { unfold bytes_at. rewrite (proj2 (Z.ltb_ge _ _)) by lia. by rewrite drop_0. }
  set (data := take (Z.to_nat n) _). assert (Z.of_nat (length data) = n) as Hd by (unfold data; rewrite length_take; lia).
  hstep. apply wp_usb_call. cbv zeta. cbn [us_calls upd eta_expand eta_usb_data].
  pose proof (send_bulk_bound (us_calls u) data) as Hb. set (ret := usb_send_bulk_in (us_calls u) data) in *.
  destruct (Z.leb_spec ret 0) as [Hr|Hr]; [hstep; by split; [split|split; [|left]]|].
  do 2 hstep. cbn [us_transmit_buf us_transmit_pos upd eta_expand eta_usb_data].
  assert (take (Z.to_nat ret) data ++ take (Z.to_nat (us_transmit_pos u - ret)) (drop (Z.to_nat ret) (us_transmit_buf u)) = usb_pending u) as Hcut.
  { unfold data, usb_pending. rewrite take_take, Nat.min_l by lia.
    replace (Z.to_nat (us_transmit_pos u)) with (Z.to_nat ret + Z.to_nat (us_transmit_pos u - ret))%nat by lia. apply take_take_drop. }
  destruct (take_memmove (us_transmit_buf u) (Z.to_nat ret) (Z.to_nat (us_transmit_pos u - ret)) ltac:(lia)) as [Hmt Hml].
  destruct (nz (us_transmit_pos u - ret)) eqn:Hnz; cbn [whenM].
  - do 3 hstep. apply wp_notify_bulk_in. hstep. split; [split; cbn -[memmove]; rewrite ?u8_small by lia; [by rewrite Hml|lia]|].
    unfold usb_pending. cbn -[memmove take]. rewrite u8_small by lia. rewrite Hmt, <- app_assoc. split; [by rewrite Hcut|]. right. split; [|done].
    rewrite !length_take, length_drop. lia.
  - do 2 hstep. unfold nz in Hnz. apply negb_false_iff, Z.eqb_eq in Hnz. split; [split; cbn; rewrite ?u8_small by lia; [done|lia]|].
    unfold usb_pending. cbn -[take]. rewrite u8_small by lia. rewrite Hnz in *. cbn [Z.to_nat take] in *. rewrite app_nil_r in Hcut |- *.
    split; [by rewrite Hcut|]. right. change (Z.to_nat 0) with 0%nat. rewrite take_0. split; [rewrite length_take; cbn; lia|done].
Qed.

(** [console_sendf] appends the block of a message, or drops it when the buffer has no room for
    the size announced. *)
Theorem usb_console_sendf_fifo sizeof_int ce args msglen block u :
  usb_tx_ok u → fits_max_size sizeof_int ce args msglen block (us_mcu u) → 0 ≤ ce_max_size ce →
  ∃ u', usb_console_sendf sizeof_int ce args u = Ret tt u' ∧ usb_tx_ok u' ∧ us_wire u' = us_wire u ∧
    (usb_pending u' = usb_pending u ++ block ∧ us_bulk_in_wake u' = 1 ∨
     usb_pending u' = usb_pending u ∧ 192 < us_transmit_pos u + ce_max_size ce).
Proof.
  intros [Hl Hp] (He & Hb & Hm) Hms.
  enough (wp (usb_console_sendf sizeof_int ce args) u (λ _ u', usb_tx_ok u' ∧ us_wire u' = us_wire u ∧
    (usb_pending u' = usb_pending u ++ block ∧ us_bulk_in_wake u' = 1 ∨
     usb_pending u' = usb_pending u ∧ 192 < us_transmit_pos u + ce_max_size ce)) no_shut) as H'.
  { destruct (wp_returns _ _ _ H') as ([] & u' & Hr & H1). by exists u'. }
  unfold usb_console_sendf, USB_TX_SIZE. do 2 hstep. destruct (Z.ltb_spec 192 (us_transmit_pos u + ce_max_size ce)).
  { hstep. split; [by split|]. split; [done|]. by right. }
  hstep. apply wp_usb_lift. unfold wp at 1. rewrite He. replace (u <| us_mcu := us_mcu u |>) with u by (by destruct u).
  hstep. eapply wp_deref_eq; [unfold put_at; by rewrite (proj2 (Z.ltb_ge _ _)) by lia|]. do 2 hstep. apply wp_notify_bulk_in.
  set (buf := take _ _ ++ _). assert (length buf = 192%nat) as Hbl by (unfold buf; rewrite !length_app, length_take, length_drop; lia).
  split; [split; cbn -[buf]; rewrite ?u8_small by lia; [done|lia]|]. split; [done|]. left. split; [|done].
  unfold usb_pending. cbn -[buf take]. rewrite u8_small by lia. unfold buf. rewrite app_assoc. apply take_app_length'.
  rewrite length_app, length_take. lia.
Qed.

(** ** Receiving *)

Definition usb_contents (u : usb_data) : list Z := take (Z.to_nat (us_receive_pos u)) (us_receive_buf u).
Record usb_rx_ok (u : usb_data) : Prop := {
  uro_len : length (us_receive_buf u) = 128%nat;
  uro_pos : 0 ≤ us_receive_pos u ≤ 128;
  uro_bytes : Forall is_byte (usb_contents u) }.

(** The packet that the next run of the task reads, if there is room for one. *)
Definition next_packet (u : usb_data) : list Z :=
  if us_receive_pos u + USB_CDC_EP_BULK_OUT_SIZE <=? USB_RX_SIZE then (usb_read_bulk_out (us_calls u)).2 else [].

(** Every handler of the table returns or shuts the machine down, on all arguments of its
    declared types. *)
Definition handlers_return (command_index : list command_parser) : Prop :=
  handlers_ok (λ _, True) (λ _ , True) command_index.

Lemma wp_find_and_dispatch command_index buf s :
  handlers_return command_index → Forall is_byte buf →
  wp (command_find_and_dispatch command_index buf) s
    (λ r _, ∃ s1, command_find_block buf s = Ret r s1 ∧ found s buf r s1) (λ _ _, True).
Proof.
  intros Hd Hb. destruct (wp_returns _ _ _ (wp_find_block buf s Hb)) as ([ret pop] & s1 & Hrun & Hf).
  unfold command_find_and_dispatch. wstep. eapply wp_of_eq; [exact Hrun|]. cbv beta iota. wstep. apply wp_when.
  - intros Hr. bool_to_prop. destruct Hf as [Hp Hcase]. destruct Hcase as [(-> & _)|[(-> & _)|(-> & Hfr & Hn & Htr)]]; [lia|lia|].
    wstep. eapply wp_mono; [apply (wp_command_dispatch (λ _, True) (λ _, True) _ _ (next_sequence (cmd s))); try done; lia| |done].
    intros [] s2 _. unfold command_send_ack. do 2 wstep.
    exists s1. split; [done|]. split; [done|]. right; right. done.
  - intros Hr. wstep. by exists s1.
Qed.

(** Reading a packet: the position behind it. *)
Lemma wp_read_packet u :
  usb_rx_ok u →
  wp (if us_receive_pos u + USB_CDC_EP_BULK_OUT_SIZE <=? USB_RX_SIZE then
        let! n := usb_call in
        let '(ret, data) := usb_read_bulk_out n in
        let! buf := deref (put_at (us_receive_buf u) (us_receive_pos u) data) in
        modify (λ u, u <| us_receive_buf := buf |>);;;
        if 0 <? ret then
          usb_notify_bulk_out;;;
          mret (us_receive_pos u + ret)
        else mret (us_receive_pos u)
      else
        usb_notify_bulk_out;;;
        mret (us_receive_pos u)) (u <| us_bulk_out_wake := 0 |>)
    (λ rpos u', us_receive_pos u' = us_receive_pos u ∧ length (us_receive_buf u') = 128%nat ∧ us_receive_pos u ≤ rpos ≤ 128 ∧
       take (Z.to_nat rpos) (us_receive_buf u') = usb_contents u ++ next_packet u ∧ Forall is_byte (next_packet u) ∧
       (next_packet u ≠ [] → us_bulk_out_wake u' = 1) ∧ (us_mcu u' = us_mcu u ∨ us_mcu u' = woken (us_mcu u))) no_shut.
Proof.
  intros [Hl Hp Hby]. unfold next_packet, USB_CDC_EP_BULK_OUT_SIZE, USB_RX_SIZE.
  destruct (Z.leb_spec (us_receive_pos u + 64) 128).
  2: { hstep. apply wp_notify_bulk_out. hstep. rewrite app_nil_r. split_and!; try done; cbn; try lia. by right. }
  hstep. apply wp_usb_call. cbn [us_calls upd eta_expand eta_usb_data]. pose proof (read_bulk_packet (us_calls u)) as Hpk.
  destruct (usb_read_bulk_out (us_calls u)) as [ret data]. cbn [snd].
  assert (Z.of_nat (length data) ≤ 64) as Hd64 by (destruct (Z.ltb_spec 0 ret); [lia|by subst]).
  hstep. eapply wp_deref_eq; [unfold put_at; by rewrite (proj2 (Z.ltb_ge _ _)) by lia|]. do 2 hstep. set (buf := take _ _ ++ _).
  assert (length buf = 128%nat) as Hbl by (unfold buf; rewrite !length_app, length_take, length_drop; lia).
  assert (take (Z.to_nat (us_receive_pos u) + length data) buf = usb_contents u ++ data) as Htk.
  { unfold buf. rewrite app_assoc. apply take_app_length'. unfold usb_contents. rewrite length_app, length_take. lia. }
  destruct (Z.ltb_spec 0 ret) as [Hr|Hr].
  - destruct Hpk as (Hlen & Hmax & Hbd). hstep. apply wp_notify_bulk_out. hstep. split_and!; try done; cbn -[buf take]; try lia; [|by right].
    replace (Z.to_nat (us_receive_pos u + ret)) with (Z.to_nat (us_receive_pos u) + length data)%nat by lia. exact Htk.
  - subst data. hstep. split_and!; try done; cbn -[buf take]; try lia; [|by left]. rewrite <- Htk. f_equal. cbn. lia.
Qed.

Lemma rx_settle u n l :
  length (us_receive_buf u) = 128%nat → 0 ≤ n ≤ 128 → take (Z.to_nat n) (us_receive_buf u) = l → Forall is_byte l →
  usb_rx_ok (u <| us_receive_pos := u8 n |>) ∧ usb_contents (u <| us_receive_pos := u8 n |>) = l.
Proof.
  intros Hl Hn Ht Hb. assert (usb_contents (u <| us_receive_pos := u8 n |>) = l) as Hc.
  { unfold usb_contents. cbn -[take]. by rewrite u8_small by lia. }
  split; [|exact Hc]. split; [exact Hl|cbn; rewrite u8_small by lia; exact Hn|by rewrite Hc].
Qed.

(** C27: usb_bulk_out_task on arbitrary bytes, with handlers that return or shut the machine
    down: it ends, command_find_block looks at the old contents and the packet read, and the
    receive buffer afterwards is exactly these without the bytes that command_find_block
    reported as consumed (one block, or the bytes that cannot be part of one); when there is no
    room for another packet (more than 64 bytes wait) the buffer gets shorter, so the console
    cannot jam; the task runs again while there is a packet or something left behind a block;
    and a handler that shuts the machine down leaves the buffer as it was. *)
Theorem usb_bulk_out_keeps_bytes command_index u :
  handlers_return command_index → usb_rx_ok u → us_bulk_out_wake u ≠ 0 →
  let all := usb_contents u ++ next_packet u in
  wp (usb_bulk_out_task command_index) u
    (λ _ u', usb_rx_ok u' ∧
       ∃ s0 ret pop s1, (s0 = us_mcu u ∨ s0 = woken (us_mcu u)) ∧ command_find_block all s0 = Ret (ret, pop) s1 ∧
       found s0 all (ret, pop) s1 ∧ usb_contents u' = drop (Z.to_nat pop) all ∧
       ((64 < length (usb_contents u))%nat → (length (usb_contents u') < length (usb_contents u))%nat) ∧
       (next_packet u ≠ [] ∨ usb_contents u' ≠ [] ∧ 0 < pop → us_bulk_out_wake u' = 1))
    (λ _ u', usb_rx_ok u' ∧ usb_contents u' = usb_contents u).
Proof.
  intros Hd Hok Hw all. pose proof Hok as [Hl Hp Hby]. unfold usb_bulk_out_task. do 2 hstep. rewrite (nz_true _ Hw). cbn [negb]. do 3 hstep.
  eapply wp_use; [by apply wp_read_packet|]. cbn beta. intros rpos u1 (Hp1 & Hl1 & Hrp & Htk & Hpb & Hwk & Hmcu). do 2 hstep. rewrite Htk. fold all in Htk |- *.
  assert (Z.of_nat (length all) = rpos) as Hall by (rewrite <- Htk, length_take; lia).
  assert (length (usb_contents u) = Z.to_nat (us_receive_pos u)) as Hcl by (unfold usb_contents; rewrite length_take; lia).
  assert (take (Z.to_nat (us_receive_pos u)) (us_receive_buf u1) = usb_contents u) as Hold.
  { assert (take (Z.to_nat (us_receive_pos u)) (take (Z.to_nat rpos) (us_receive_buf u1)) = usb_contents u) as H1.
    { rewrite Htk. apply take_app_length'. lia. }
    by rewrite take_take, Nat.min_l in H1 by lia. }
  assert ((64 < length (usb_contents u))%nat → next_packet u = []) as Hfull.
  { intros H64. unfold next_packet, USB_CDC_EP_BULK_OUT_SIZE, USB_RX_SIZE. by rewrite (proj2 (Z.leb_gt _ _)) by lia. }
  assert (Forall is_byte all) as Hab by (by apply Forall_app_2).
  hstep. apply wp_usb_lift. eapply wp_mono; [by apply wp_find_and_dispatch| |].
  2: { cbn beta. intros r s _. unfold usb_contents at 1 2. cbn -[take]. rewrite Hp1, Hold. split; [|done].
       split; [exact Hl1|cbn; by rewrite Hp1|]. unfold usb_contents. cbn -[take]. by rewrite Hp1, Hold. }
  intros [ret pop] s (s1 & Hfb & Hfound). hstep. pose proof Hfound as [Hpop Hcase].
  assert (ret = 0 ∧ pop = 0 ∧ Z.of_nat (length all) < MESSAGE_MAX ∨ ret ≠ 0 ∧ 0 < pop) as Hr.
  { destruct Hcase as [(-> & -> & _ & ?)|[(-> & ? & _)|(-> & (pl & -> & _) & _)]]; [by left|right|right]; (split; [done|lia]). }
  assert (∀ u', usb_rx_ok u' → usb_contents u' = drop (Z.to_nat pop) all →
    (next_packet u ≠ [] ∨ usb_contents u' ≠ [] ∧ 0 < pop → us_bulk_out_wake u' = 1) →
    usb_rx_ok u' ∧ ∃ s0 ret pop s1, (s0 = us_mcu u ∨ s0 = woken (us_mcu u)) ∧ command_find_block all s0 = Ret (ret, pop) s1 ∧
       found s0 all (ret, pop) s1 ∧ usb_contents u' = drop (Z.to_nat pop) all ∧
       ((64 < length (usb_contents u))%nat → (length (usb_contents u') < length (usb_contents u))%nat) ∧
       (next_packet u ≠ [] ∨ usb_contents u' ≠ [] ∧ 0 < pop → us_bulk_out_wake u' = 1)) as Hfin.
  { intros u' Hok' Hc Hwake. split; [done|]. exists (us_mcu u1), ret, pop, s1. do 4 (split; [done|]). split; [|done].
    intros H64. rewrite Hc, length_drop. destruct Hr as [(_ & _ & Hlt)|[_ Hp0]]; unfold MESSAGE_MAX, all in *; rewrite (Hfull H64), app_nil_r in *; lia. }
  destruct (nz ret) eqn:Hnz.
  - destruct Hr as [(-> & _)|[_ Hp0]]; [done|]. hstep.
    destruct (take_memmove (us_receive_buf u1) (Z.to_nat pop) (Z.to_nat (rpos - pop)) ltac:(lia)) as [Hmt Hml].
    assert (take (Z.to_nat (rpos - pop)) (drop (Z.to_nat pop) (us_receive_buf u1)) = drop (Z.to_nat pop) all) as Hdrop.
    { rewrite <- Htk, take_drop_commute. do 2 f_equal. lia. }
    apply wp_when.
    + intros _. do 2 hstep. apply wp_notify_bulk_out. do 2 hstep. set (u2 := upd us_bulk_out_wake _ _).
      destruct (rx_settle u2 (rpos - pop) (drop (Z.to_nat pop) all)) as [Hok' Hc]; [by rewrite <- Hl1|lia|by rewrite <- Hdrop|by apply Forall_drop|].
      by apply Hfin.
    + intros Hz. unfold nz in Hz. apply negb_false_iff, Z.eqb_eq in Hz. do 2 hstep. set (u2 := upd us_mcu _ _).
      destruct (rx_settle u2 (rpos - pop) []) as [Hok' Hc]; [exact Hl1|lia|by rewrite Hz|done|].
      apply Hfin; [exact Hok'|rewrite Hc; symmetry; apply drop_ge; lia|]. rewrite Hc. intros [Hn|[Hn _]]; [by apply Hwk|done].
  - destruct Hr as [(-> & -> & _)|[Hr0 _]]; [|unfold nz in Hnz; by apply negb_false_iff, Z.eqb_eq in Hnz].
    do 2 hstep. set (u2 := upd us_mcu _ _).
    destruct (rx_settle u2 rpos all) as [Hok' Hc]; [exact Hl1|lia|exact Htk|done|].
    apply Hfin; [exact Hok'|exact Hc|]. intros [Hn|[_ Hn]]; [by apply Hwk|lia].
Qed.
End spec.

(** ** Control transfers *)

(** The packets of a transfer of [l]: full ones of 16 bytes and a last one; an empty packet
    ends a transfer with [zlp] whose last packet is full. *)
Inductive packetized (zlp : bool) : list Z → list (list Z) → Prop :=
| pk_last l : (length l < 16)%nat → packetized zlp l [l]
| pk_full l : length l = 16%nat → packetized zlp l (if zlp then [l; []] else [l])
| pk_more l ps : (16 < length l)%nat → packetized zlp (drop 16 l) ps → packetized zlp l (take 16 l :: ps).

Lemma packetized_exists zlp l : ∃ ps, packetized zlp l ps.
Proof.
  remember (length l) as n eqn:Hn. revert l Hn. induction n as [n IH] using lt_wf_ind. intros l ->.
  destruct (lt_eq_lt_dec (length l) 16) as [[Hlt|Heq]|Hgt]; [eexists; by apply pk_last|eexists; by apply pk_full|].
  destruct (IH (length (drop 16 l)) ltac:(rewrite length_drop; lia) _ eq_refl) as [ps Hps]. eexists. by apply pk_more.
Qed.
Lemma packetized_concat zlp l ps : packetized zlp l ps → concat ps = l.
Proof.
  induction 1 as [l _|l _|l ps _ _ IH]; cbn; [by rewrite app_nil_r|destruct zlp; cbn; by rewrite !app_nil_r|].
  by rewrite IH, take_drop.
Qed.
Lemma packetized_count zlp l ps : packetized zlp l ps → (length ps ≤ length l / 16 + 2)%nat ∧ (0 < length ps)%nat ∧ (length l < 256 → length ps ≤ 17)%nat.
Proof.
  intros Hps. cut ((1 ≤ length ps)%nat ∧ (16 * length ps ≤ length l + 16)%nat).
  { intros [H1 H2]. pose proof (Nat.div_mod_eq (length l) 16). pose proof (Nat.mod_upper_bound (length l) 16). lia. }
  induction Hps as [l _|l Hl|l ps Hl _ IH]; cbn; [lia|destruct zlp; cbn; lia|]. rewrite length_drop in IH. lia.
Qed.

(** The bytes [l] are at the place [d]. *)
Definition holds (u : usb_data) (d : xfer_data) (l : list Z) : Prop :=
  match d with
  | XD_null => l = []
  | XD_bytes b => ∃ post, b = l ++ post
  | XD_line off => ∃ pre post, line_coding u = pre ++ l ++ post ∧ length pre = off
  end.
Lemma holds_take u d l n : holds u d l → (n ≤ length l)%nat → wp (data_at d (Z.of_nat n)) u (λ r u', r = take n l ∧ u' = u) no_shut.
Proof.
  intros Hh Hn. unfold data_at. destruct (Z.leb_spec (Z.of_nat n) 0); [hstep; replace n with 0%nat by lia; by rewrite take_0|].
  do 2 hstep. destruct d as [|b|off]; cbn [holds] in Hh.
  - subst l. cbn in Hn. lia.
  - destruct Hh as [post ->]. eapply wp_deref_eq; [unfold bytes_at; rewrite (proj2 (Z.ltb_ge _ _)) by (rewrite length_app; lia); reflexivity|].
    rewrite drop_0, Nat2Z.id, take_app_le by lia. done.
  - destruct Hh as (pre & post & E & Hpre). eapply wp_deref_eq.
    { unfold bytes_at. rewrite (proj2 (Z.ltb_ge _ _)) by (rewrite E, !length_app; lia). reflexivity. }
    rewrite E, !Nat2Z.id, drop_app_length' by done. rewrite take_app_le by lia. done.
Qed.
Lemma holds_next u d l n : holds u d l → (n ≤ length l)%nat → holds u (data_next d (Z.of_nat n)) (drop n l).
Proof.
  intros Hh Hn. destruct d as [|b|off]; cbn [holds data_next] in *.
  - subst l. by rewrite drop_nil.
  - destruct Hh as [post ->]. exists post. rewrite Nat2Z.id. by rewrite drop_app_le by lia.
  - destruct Hh as (pre & post & E & Hpre). exists (pre ++ take n l), post. rewrite Nat2Z.id. split.
    + rewrite E. rewrite <- (take_drop n l) at 1. by rewrite <- !app_assoc.
    + rewrite length_app, length_take. lia.
Qed.
Lemma holds_same u u' d l : line_coding u' = line_coding u → holds u d l → holds u' d l.
Proof. intros E. destruct d; cbn; by rewrite ?E. Qed.


Lemma packetized_step zlp l ps :
  packetized zlp l ps → ∃ ps', ps = take 16 l :: ps' ∧
    (ps' = [] ∧ (length l ≤ 16)%nat ∧ ¬ (length l = 16%nat ∧ zlp = true) ∨
     packetized zlp (drop 16 l) ps' ∧ ((16 < length l)%nat ∨ length l = 16%nat ∧ zlp = true)).
Proof.
  intros [l' Hl|l' Hl|l' ps' Hl Hps].
  - exists []. rewrite take_ge by lia. split; [done|]. left. split; [done|]. lia.
  - rewrite take_ge by lia. destruct zlp; [exists [[]]|exists []]; (split; [done|]).
    + right. split; [|by right]. rewrite drop_ge by lia. apply pk_last. cbn. lia.
    + left. split; [done|]. split; [lia|]. by intros [_ ?].
  - exists ps'. split; [done|]. right. split; [done|by left].
Qed.

Section ep0.
Context {B : Board} {UB : UsbBoard}.

(** Flags of a transfer to the host, and whether its data is in program memory. *)
Definition sends (flags : Z) : Prop := has flags UX_READ = false ∧ 0 < flags < 256.
Definition in_progmem (flags : Z) : bool := NEED_PROGMEM && has flags UX_SEND_PROGMEM.
(** What the controller answers to the packet [p] in its call number [n]. *)
Definition send_call (pg : bool) (n : nat) (p : list Z) : Z :=
  if pg then usb_send_ep0_progmem n p else usb_send_ep0 n p.

(** The packets [ps] are still to be sent. *)
Definition transfer (pg : bool) (u : usb_data) (ps : list (list Z)) : Prop :=
  (ps = [] → usb_xfer_flags u = 0) ∧
  (ps ≠ [] → sends (usb_xfer_flags u) ∧ in_progmem (usb_xfer_flags u) = pg ∧
     ∃ l, usb_xfer_size u = Z.of_nat (length l) ∧ (length l < 256)%nat ∧
     holds u (usb_xfer_data u) l ∧ packetized (has (usb_xfer_flags u) UX_SEND_ZLP) l ps).

(** The controller answered to the packet [p] in one of its calls between [u] and [u']. *)
Definition answered (pg : bool) (u u' : usb_data) (p : list Z) (ok : Z → Prop) : Prop :=
  ∃ n, (us_calls u ≤ n < us_calls u')%nat ∧ ok (send_call pg n p).
(** The controller got the first [k] packets and was busy when it was given the next one, which
    waits with the rest; or it refused the next one, and the transfer was given up. *)
Definition sent (pg : bool) (u u' : usb_data) (ps : list (list Z)) : Prop :=
  line_coding u' = line_coding u ∧ (us_calls u ≤ us_calls u')%nat ∧ ∃ k, (k ≤ length ps)%nat ∧
    (us_ep0 u' = us_ep0 u ++ (EP_sent <$> take k ps) ∧ transfer pg u' (drop k ps) ∧
       (∀ p, ps !! k = Some p → answered pg u u' p (λ ret, ret = -1)) ∨
     us_ep0 u' = us_ep0 u ++ (EP_sent <$> take k ps) ++ [EP_stall] ∧ usb_xfer_flags u' = 0 ∧
       ∃ p, ps !! k = Some p ∧ answered pg u u' p (λ ret, ret ≠ -1 ∧ ret ≠ Z.of_nat (length p))).

Lemma answered_later pg u u1 u' p ok :
  (us_calls u ≤ us_calls u1)%nat → answered pg u1 u' p ok → answered pg u u' p ok.
Proof. intros Hle (n & Hn & H). exists n. split; [lia|done]. Qed.

(** What was sent before goes in front. *)
Lemma sent_app pg u u1 u' k ps :
  us_ep0 u1 = us_ep0 u ++ (EP_sent <$> take k ps) → line_coding u1 = line_coding u → (us_calls u ≤ us_calls u1)%nat →
  (k ≤ length ps)%nat → sent pg u1 u' (drop k ps) → sent pg u u' ps.
Proof.
  intros He Hl Hc Hk (Hl' & Hc' & j & Hj & H). split; [congruence|]. split; [lia|]. exists (k + j)%nat. rewrite length_drop in Hj. split; [lia|].
  rewrite drop_drop, !lookup_drop in H. rewrite <- (take_take_drop ps k j), fmap_app.
  destruct H as [(H & Ht & Hb)|(H & Hf & p & Hp & Hr)]; [left|right]; (split; [rewrite H, He; by rewrite <- !app_assoc|]); (split; [done|]).
  - intros p Hp. eapply answered_later; [exact Hc|]. by apply Hb.
  - exists p. split; [done|]. by eapply answered_later.
Qed.

Lemma wp_xfer_packet d xs flags l u :
  has flags UX_READ = false → holds u d l → (xs ≤ length l)%nat →
  wp (xfer_packet d (Z.of_nat xs) flags) u
    (λ ret u', line_coding u' = line_coding u ∧ us_calls u' = S (us_calls u) ∧
       ret = send_call (in_progmem flags) (us_calls u) (take xs l) ∧
       us_ep0 u' = us_ep0 u ++ (if ret =? Z.of_nat xs then [EP_sent (take xs l)] else [])) no_shut.
Proof.
  intros Hf Hh Hx. unfold xfer_packet. rewrite Hf. hstep. eapply wp_conseq; [by apply holds_take|]. intros r u1 [-> ->].
  hstep. apply wp_usb_call. fold (in_progmem flags). fold (send_call (in_progmem flags) (us_calls u) (take xs l)). set (ret := send_call _ _ _).
  hstep. apply wp_when; intros Hb; unfold ep0_emit.
  - do 2 hstep. by rewrite Hb.
  - hstep. rewrite Hb, app_nil_r. done.
Qed.

Lemma wp_xfer_send fuel : ∀ d l flags ps u,
  packetized (has flags UX_SEND_ZLP) l ps → (length ps ≤ fuel)%nat → (length l < 256)%nat → holds u d l → sends flags →
  wp (xfer_loop fuel d (Z.of_nat (length l)) flags) u (λ _ u', sent (in_progmem flags) u u' ps) no_shut.
Proof.
  induction fuel as [|fuel IH]; intros d l flags ps u Hps Hf Hl Hh [Hrd Hfl]; destruct (packetized_step _ _ _ Hps) as (ps' & -> & Hnext);
    [cbn in Hf; lia|].
  cbn [xfer_loop]. set (xs := min 16 (length l)).
  assert ((if USB_CDC_EP0_SIZE <? Z.of_nat (length l) then USB_CDC_EP0_SIZE else Z.of_nat (length l)) = Z.of_nat xs) as ->.
  { unfold xs, USB_CDC_EP0_SIZE. destruct (Z.ltb_spec 16 (Z.of_nat (length l))); lia. }
  assert (take xs l = take 16 l) as Htk.
  { unfold xs. destruct (Nat.le_gt_cases 16 (length l)); [by rewrite Nat.min_l by lia|]. by rewrite Nat.min_r, !take_ge by lia. }
  hstep. eapply wp_conseq; [apply (wp_xfer_packet d xs flags l u); [done|done|unfold xs; lia]|]. cbn beta. intros ret u1 (Hlc & Hcalls & Eret & He). rewrite Htk in He, Eret.
  assert (Z.of_nat (length (take 16 l)) = Z.of_nat xs) as Hxs by (rewrite length_take; unfold xs; lia).
  assert (∀ ok : Z → Prop, ok ret → answered (in_progmem flags) u u1 (take 16 l) ok) as Hans
    by (intros ok Ho; exists (us_calls u); split; [lia|by rewrite <- Eret]).
  destruct (Z.eqb_spec ret (Z.of_nat xs)) as [Eq|Hne].
  - assert (holds u1 (data_next d (Z.of_nat xs)) (drop xs l)) as Hh1.
    { apply holds_next; [|unfold xs; lia]. by apply (holds_same u). }
    replace (Z.of_nat (length l) - Z.of_nat xs) with (Z.of_nat (length (drop xs l))) by (rewrite length_drop; unfold xs; lia). rewrite Hrd.
    destruct Hnext as [(-> & Hle & Hz)|(Hps' & Hz)].
    + assert (length (drop xs l) = 0%nat) as -> by (rewrite length_drop; unfold xs; lia). change (negb (nz (Z.of_nat 0))) with true. cbv iota.
      assert ((Z.of_nat xs =? USB_CDC_EP0_SIZE) && has flags UX_SEND_ZLP = false) as ->.
      { destruct (Z.eqb_spec (Z.of_nat xs) USB_CDC_EP0_SIZE) as [Hx|]; [|done]. destruct (has flags UX_SEND_ZLP); [|done].
        destruct Hz. unfold xs, USB_CDC_EP0_SIZE in Hx. split; [lia|done]. }
      do 2 hstep. apply wp_notify_ep0. split; [done|]. split; [cbn; lia|]. exists 1%nat. split; [cbn; lia|]. left. split; [done|]. split; [by split|done].
    + assert (drop xs l = drop 16 l) as Hdr by (unfold xs; by rewrite Nat.min_l by lia). rewrite Hdr in *.
      assert (wp (xfer_loop fuel (data_next d (Z.of_nat xs)) (Z.of_nat (length (drop 16 l))) flags) u1 (λ _ u', sent (in_progmem flags) u u' (take 16 l :: ps')) no_shut) as Hgo.
      { eapply wp_conseq; [apply (IH _ (drop 16 l) flags ps' u1); [done|cbn in Hf; lia|rewrite length_drop; lia|done|done]|].
        intros [] u' Hs. apply (sent_app _ u u1 u' 1); [done|done|lia|cbn; lia|exact Hs]. }
      destruct (nz (Z.of_nat (length (drop 16 l)))) eqn:Hnz; cbn [negb]; [exact Hgo|].
      assert ((Z.of_nat xs =? USB_CDC_EP0_SIZE) && has flags UX_SEND_ZLP = true) as ->; [|exact Hgo].
      unfold nz in Hnz. apply negb_false_iff, Z.eqb_eq in Hnz. rewrite length_drop in Hnz. destruct Hz as [Hz|[Hz ->]]; [lia|].
      rewrite andb_true_r. apply Z.eqb_eq. unfold xs, USB_CDC_EP0_SIZE. lia.
  - rewrite app_nil_r in He. destruct (Z.eqb_spec ret (-1)) as [->|Hne'].
    + hstep. split; [done|]. split; [cbn; lia|]. exists 0%nat. split; [cbn; lia|]. left. split; [by rewrite app_nil_r|]. cbn [drop].
      split; [|intros p [= <-]; destruct (Hans (λ r, r = -1) eq_refl) as (n & Hn & Hr); exists n; by split].
      split; [done|]. intros _. cbn. rewrite !u8_small by lia. split; [done|]. split; [done|]. exists l. split; [done|]. split; [done|]. split; [|exact Hps].
      by apply (holds_same u).
    + unfold usb_do_stall, ep0_emit. do 2 hstep. hstep. split; [done|]. split; [cbn; lia|]. exists 0%nat. split; [cbn; lia|]. right. cbn. rewrite He. split; [done|]. split; [done|].
      exists (take 16 l). split; [done|]. destruct (Hans (λ r, r ≠ -1 ∧ r ≠ Z.of_nat (length (take 16 l)))) as (n & Hn & Hr); [|by exists n].
      by rewrite Hxs.
Qed.

(** ** Retries *)

(** The task of endpoint 0 runs again, [n] times at most, until the transfer ends. *)
Fixpoint usb_resume (n : nat) : USB unit :=
  match n with
  | O => mret tt
  | S n =>
      let! u := get in
      if nz (usb_xfer_flags u) then
        usb_notify_ep0;;;
        usb_ep0_task;;;
        usb_resume n
      else mret tt
  end.

Lemma usb_resume_done n u : usb_xfer_flags u = 0 → usb_resume n u = Ret tt u.
Proof. intros H. destruct n; [done|]. cbn [usb_resume]. unfold mbind at 1, M_bind at 1, get. by rewrite H. Qed.

(** The runs of the task that follow one which sent the first packets. *)
Lemma wp_resume_after pg n u u1 ps :
  sent pg u u1 ps → (∀ ps, transfer pg u1 ps → wp (usb_resume n) u1 (λ _ u', u' = u1 ∨ sent pg u1 u' ps) no_shut) →
  wp (usb_resume n) u1 (λ _ u', sent pg u u' ps) no_shut.
Proof.
  intros Hs Hres. pose proof Hs as (Hlc & Hc & k & Hk & [(He & Ht & Hb)|(He & Hf & Hr)]).
  - eapply wp_conseq; [by apply Hres|]. intros [] u' [->|Hs2]; [exact Hs|]. by apply (sent_app pg u u1 u' k).
  - eapply wp_of_eq; [by apply usb_resume_done|]. exact Hs.
Qed.

Lemma wp_usb_resume pg n : ∀ u ps, transfer pg u ps → wp (usb_resume n) u (λ _ u', u' = u ∨ sent pg u u' ps) no_shut.
Proof.
  induction n as [|n IH]; intros u ps Ht; [cbn [usb_resume]; hstep; by left|].
  destruct ps as [|p ps]; [eapply wp_of_eq; [apply usb_resume_done; by apply Ht|]; by left|]. cbn [usb_resume]. do 2 hstep.
  destruct Ht as [_ Ht]. destruct Ht as ([Hrd Hfl] & Hpg & l & Hs & Hl & Hh & Hps); [done|]. rewrite (nz_true (usb_xfer_flags u)) by lia.
  hstep. apply wp_notify_ep0. hstep. unfold usb_ep0_task. do 2 hstep. cbn [us_ep0_wake upd eta_expand eta_usb_data]. change (negb (nz 1)) with false. cbv iota. do 2 hstep.
  cbn [usb_xfer_flags usb_xfer_data usb_xfer_size upd eta_expand eta_usb_data]. rewrite (nz_true (usb_xfer_flags u)), Hs by lia. unfold usb_do_xfer.
  destruct (packetized_count _ _ _ Hps) as (_ & _ & Hcount). eapply wp_conseq.
  { apply (wp_xfer_send 18 _ l _ (p :: ps)); [exact Hps|lia|exact Hl| |by split]. by apply (holds_same u). }
  rewrite Hpg. intros [] u1 Hsent. eapply wp_conseq; [apply (wp_resume_after pg n u u1 (p :: ps)); [exact Hsent|apply IH]|].
  intros [] u' Hs'. by right.
Qed.

(** ** Descriptors *)

Lemma packetized_shape zlp l ps :
  packetized zlp l ps → ∃ full p, ps = full ++ [p] ∧ Forall (λ q, length q = 16%nat) full ∧ (length p ≤ 16)%nat ∧
    (zlp = true → (length p < 16)%nat).
Proof.
  induction 1 as [l Hl|l Hl|l ps Hl _ (full & p & -> & Hf & Hp & Hz)].
  - exists [], l. split_and!; [done|done|lia|done].
  - destruct zlp; [exists [l], []|exists [], l]; split_and!; try done; cbn; try lia. by constructor.
  - exists (take 16 l :: full), p. split_and!; try done. constructor; [|done]. rewrite length_take. lia.
Qed.

(** The descriptor that a request asks for. *)
Definition descriptor_for (req : usb_ctrlrequest) : option (list Z) :=
  if CONFIG_USB_SERIAL_NUMBER_CHIPID &&
     (cr_wValue req =? Z.lor (Z.shiftl USB_DT_STRING 8) USB_STR_ID_SERIAL) && (cr_wIndex req =? USB_LANGID_ENGLISH_US)
  then Some usbserial_get_serialid else find_descriptor req.

(** Whether it is sent from program memory. *)
Definition descriptor_progmem (req : usb_ctrlrequest) : bool :=
  NEED_PROGMEM && negb (CONFIG_USB_SERIAL_NUMBER_CHIPID &&
    (cr_wValue req =? Z.lor (Z.shiftl USB_DT_STRING 8) USB_STR_ID_SERIAL) && (cr_wIndex req =? USB_LANGID_ENGLISH_US)).

Lemma wp_get_descriptor `{LU : !LawfulUsb} req desc u ps :
  cr_bRequestType req = USB_DIR_IN → descriptor_for req = Some desc → (length desc < 256)%nat → 0 ≤ cr_wLength req →
  packetized (Z.of_nat (length desc) <? cr_wLength req) (take (Z.to_nat (cr_wLength req)) desc) ps →
  wp (usb_req_get_descriptor req) u (λ _ u', sent (descriptor_progmem req) u u' ps) no_shut.
Proof.
  intros Hty Hd Hlen Hw Hps. unfold usb_req_get_descriptor. rewrite Hty, Z.eqb_refl. cbn [negb].
  set (reply := take _ desc) in *.
  assert (∃ flags, (if CONFIG_USB_SERIAL_NUMBER_CHIPID && (cr_wValue req =? Z.lor (Z.shiftl USB_DT_STRING 8) USB_STR_ID_SERIAL) && (cr_wIndex req =? USB_LANGID_ENGLISH_US)
    then Some (usbserial_get_serialid, default 0 (usbserial_get_serialid !! 0%nat), UX_SEND)
    else (λ l, (l, Z.of_nat (length l), if NEED_PROGMEM then UX_SEND_PROGMEM else UX_SEND)) <$> find_descriptor req) =
    Some (desc, Z.of_nat (length desc), flags) ∧ (flags = UX_SEND ∨ flags = UX_SEND_PROGMEM) ∧ in_progmem flags = descriptor_progmem req)
    as (flags & -> & Hfl & Hpg).
  { unfold descriptor_for in Hd. unfold descriptor_progmem, in_progmem. destruct (CONFIG_USB_SERIAL_NUMBER_CHIPID && _ && _).
    - injection Hd as <-. exists UX_SEND. rewrite serialid_length. split; [done|]. split; [by left|]. by destruct NEED_PROGMEM.
    - rewrite Hd. eexists. split; [reflexivity|]. destruct NEED_PROGMEM; [by split; [right|]|by split; [left|]]. }
  assert (sends flags ∧ sends (Z.lor flags UX_SEND_ZLP) ∧ has flags UX_SEND_ZLP = false ∧ has (Z.lor flags UX_SEND_ZLP) UX_SEND_ZLP = true)
    as (Hs1 & Hs2 & Hz1 & Hz2) by (destruct Hfl as [-> | ->]; by vm_compute).
  assert (in_progmem (Z.lor flags UX_SEND_ZLP) = descriptor_progmem req) as Hpg2.
  { rewrite <- Hpg. unfold in_progmem. f_equal. by destruct Hfl as [-> | ->]. }
  destruct (packetized_count _ _ _ Hps) as (_ & _ & Hcount). assert (length reply < 256)%nat as Hrl by (unfold reply; rewrite length_take; lia).
  assert (holds u (XD_bytes desc) reply) as Hh by (exists (drop (Z.to_nat (cr_wLength req)) desc); symmetry; apply take_drop).
  unfold usb_do_xfer. destruct (Z.ltb_spec (cr_wLength req) (Z.of_nat (length desc))) as [Hlt|Hge].
  - rewrite (proj2 (Z.ltb_ge _ _)) in Hps by lia. replace (cr_wLength req) with (Z.of_nat (length reply)) by (unfold reply; rewrite length_take; lia).
    rewrite <- Hpg. apply wp_xfer_send; [by rewrite Hz1|lia|exact Hrl|exact Hh|exact Hs1].
  - replace (Z.of_nat (length desc)) with (Z.of_nat (length reply)) by (unfold reply; rewrite length_take; lia).
    assert (length reply = length desc) as Hrd by (unfold reply; rewrite length_take; lia).
    destruct (Z.ltb_spec (Z.of_nat (length reply)) (cr_wLength req)) as [Hlt|Hge'].
    + rewrite (proj2 (Z.ltb_lt _ _)) in Hps by lia. rewrite <- Hpg2. apply wp_xfer_send; [by rewrite Hz2|lia|exact Hrl|exact Hh|exact Hs2].
    + rewrite (proj2 (Z.ltb_ge _ _)) in Hps by lia. rewrite <- Hpg. apply wp_xfer_send; [by rewrite Hz1|lia|exact Hrl|exact Hh|exact Hs1].
Qed.

(** C28: A GET_DESCRIPTOR request on endpoint 0: the packets that the controller takes, over
    any number of runs of usb_ep0_task, are in order those of the first wLength bytes of the
    descriptor, all but the last of 16 bytes, and the last one is shorter (empty if need be)
    unless exactly wLength bytes are sent. After each run all packets were taken, or the rest
    waits because the controller answered that it is busy with the next one, or the transfer
    has ended with a stall because the controller refused the next one. *)
Theorem usb_descriptor_sent `{LU : !LawfulUsb} req desc u :
  us_ep0_wake u ≠ 0 → usb_xfer_flags u = 0 → usb_read_ep0_setup (us_calls u) = Some req →
  cr_bRequest req = USB_REQ_GET_DESCRIPTOR → cr_bRequestType req = USB_DIR_IN → 0 ≤ cr_wLength req →
  descriptor_for req = Some desc → (length desc < 256)%nat →
  ∃ full p, concat (full ++ [p]) = take (Z.to_nat (cr_wLength req)) desc ∧ Forall (λ q, length q = 16%nat) full ∧
    ((length p < 16)%nat ∨ length (concat (full ++ [p])) = Z.to_nat (cr_wLength req) ∧ length p = 16%nat) ∧
    ∀ n, wp (usb_ep0_task;;; usb_resume n) u (λ _ u', sent (descriptor_progmem req) u u' (full ++ [p])) no_shut.
Proof.
  intros Hw Hf Hset Hreq Hty Hwl Hd Hlen.
  destruct (packetized_exists (Z.of_nat (length desc) <? cr_wLength req) (take (Z.to_nat (cr_wLength req)) desc)) as [ps Hps].
  destruct (packetized_shape _ _ _ Hps) as (full & p & -> & Hfull & Hp & Hz). pose proof (packetized_concat _ _ _ Hps) as Hc.
  exists full, p. split; [exact Hc|]. split; [exact Hfull|]. split.
  { destruct (Z.ltb_spec (Z.of_nat (length desc)) (cr_wLength req)); [left; by apply Hz|]. rewrite Hc, length_take.
    destruct (Nat.eq_dec (length p) 16%nat); [right; lia|left; lia]. }
  intros n. hstep. unfold usb_ep0_task. do 2 hstep. rewrite (nz_true _ Hw). cbn [negb]. do 2 hstep. rewrite Hf. change (nz 0) with false. cbv iota.
  unfold usb_state_ready. hstep. apply wp_usb_call. cbn [us_calls upd eta_expand eta_usb_data]. rewrite Hset, Hreq, Z.eqb_refl.
  eapply wp_conseq; [by apply (wp_get_descriptor req desc _ _ Hty Hd Hlen Hwl Hps)|].
  intros [] u1 (Hlc & Hc' & Hsent).
  apply wp_resume_after; [|intros ps Ht; by apply wp_usb_resume]. split; [exact Hlc|]. split; [cbn in Hc'; lia|].
  destruct Hsent as (k & Hk & [(He & Ht & Hb)|(He & Hf1 & q & Hq & Hr)]); exists k; (split; [done|]); [left|right].
  - split; [exact He|]. split; [exact Ht|]. intros q Hq. eapply answered_later; [|by apply Hb]. cbn. lia.
  - split; [exact He|]. split; [exact Hf1|]. exists q. split; [exact Hq|]. eapply answered_later; [|exact Hr]. cbn. lia.
Qed.

(** A sequence of descriptors by their lengths: the length and the type of each. *)
Fixpoint walk (fuel : nat) (l : list Z) : option (list (Z * Z)) :=
  match fuel, l with
  | _, [] => Some []
  | S fuel, len :: ty :: _ =>
      if (len <? 2) || (Z.of_nat (length l) <? len) then None
      else rest ← walk fuel (drop (Z.to_nat len) l); Some ((len, ty) :: rest)
  | _, _ => None
  end.

Lemma le16_length x : length (le16 x) = 2%nat.
Proof. done. Qed.
Lemma string_descriptor_length chars :
  (length chars ≤ 126)%nat → string_descriptor chars !! 0%nat = Some (Z.of_nat (length (string_descriptor chars))).
Proof.
  intros Hc. unfold string_descriptor. cbn [app lookup list_lookup]. rewrite u8_small by lia. cbn [length].
  assert (length (chars ≫= le16) = 2 * length chars)%nat as ->; [|f_equal; lia].
  clear Hc. induction chars as [|c chars IH]; [done|]. cbn [mbind list_bind length]. rewrite length_app, le16_length. cbn in IH |- *. lia.
Qed.

(** Each descriptor of the table starts with its length, the configuration apart, and the type
    it is found under, and the configuration is a sequence of nine descriptors as long as its [wTotalLength]. *)
Theorem cdc_descriptors_wellformed :
  (length USB_STR_PRODUCT ≤ 126)%nat → (length USB_STR_SERIAL ≤ 126)%nat →
  Forall (λ d, (ds_desc d !! 0%nat = Some (Z.of_nat (length (ds_desc d))) ∨ ds_desc d = cdc_config_descriptor) ∧ ds_desc d !! 1%nat = Some (Z.shiftr (ds_wValue d) 8) ∧
            (length (ds_desc d) < 256)%nat) cdc_descriptors ∧
  walk 10 cdc_config_descriptor = Some [(9, 2); (9, 4); (5, 36); (4, 36); (5, 36); (7, 5); (9, 4); (7, 5); (7, 5)] ∧
  take 2 (drop 2 cdc_config_descriptor) = le16 (Z.of_nat (length cdc_config_descriptor)).
Proof.
  intros Hp Hs. split; [|by split].
  assert (∀ chars v, (length chars ≤ 126)%nat → Z.shiftr v 8 = USB_DT_STRING → let d := mk_descriptor v USB_LANGID_ENGLISH_US (string_descriptor chars) in
    (ds_desc d !! 0%nat = Some (Z.of_nat (length (ds_desc d))) ∨ ds_desc d = cdc_config_descriptor) ∧
    ds_desc d !! 1%nat = Some (Z.shiftr (ds_wValue d) 8) ∧ (length (ds_desc d) < 256)%nat) as Hstr.
  { intros chars v Hc Hv d. pose proof (string_descriptor_length chars Hc) as Hl. split; [left; exact Hl|]. split; [cbn; by rewrite Hv|].
    assert (Some (u8 (2 + 2 * Z.of_nat (length chars))) = Some (Z.of_nat (length (string_descriptor chars)))) as E by exact Hl.
    apply (inj Some) in E. rewrite u8_small in E by lia. unfold d. cbn [ds_desc]. lia. }
  unfold cdc_descriptors. apply Forall_app_2.
  - do 4 (apply Forall_cons_2; [split; [first [left; vm_compute; reflexivity|right; reflexivity]|split; [vm_compute; reflexivity|apply Nat.ltb_lt; vm_compute; reflexivity]]|]). apply Forall_cons_2; [|apply Forall_nil_2]. by apply (Hstr USB_STR_PRODUCT).
  - destruct CONFIG_USB_SERIAL_NUMBER_CHIPID; [apply Forall_nil_2|]. apply Forall_cons_2; [|apply Forall_nil_2]. by apply (Hstr USB_STR_SERIAL).
Qed.
End ep0.
