(* ===== verification/UsbCanbus.v ===== *)
(** * generic/usb_canbus.c: the bridge from USB to CAN

    The host talks to the bridge as to a CAN adapter: every packet of it is a frame, which goes
    to the physical bus, to the node of this micro-controller or to both, and is then echoed;
    frames of the bus wait in a ring of 32 until the host takes them.  The state adds this to
    the CAN console of the local node.  Next to the variables of the code it has logs: the calls
    of the controllers so far, what each of them has taken, and what came in.  Frames that the
    receive interrupt delivers while the ring is drained are an argument of the task.

    The theorems show that every frame of the host reaches its destinations once and in order,
    that frames of the bus are forwarded in order, that work is never left without something to
    resume it, that the task gets everything done when the controllers take what they are given,
    and that control requests touch nothing but their buffers. *)

From S2P Require Import Prelude State Runtime Sched Vlq Crc Command SerialIrq Canserial SerialSpec CanserialSpec UsbCdc UsbCdcSpec.

(** ** State *)

(** Why a packet was sent to the host: a frame of the bus, of the local node, or an echo. *)
Inductive usb_origin := From_bus | From_local | Echo.
#[export] Instance usb_origin_eq : EqDecision usb_origin.
Proof. solve_decision. Defined.

(** The variables that a control transfer can store to. *)
Inductive gs_var := V_host_config | V_device_bittiming | V_device_mode.
(** Where the data of a transfer is. *)
Inductive gs_data := GD_null | GD_bytes (l : list Z) | GD_var (v : gs_var) (off : nat).

Record usbcan_data := mk_usbcan
  { uc_can : canbus_data; uc_wake : Z; host_frame : list Z; host_status : Z;
    notify_local : Z; usb_send_busy : Z; uc_assigned_id : Z;
    uc_pull_pos : Z; uc_push_pos : Z; uc_queue : list canbus_msg;
    gs_xfer_data : gs_data; gs_xfer_size : Z; gs_xfer_flags : Z; gs_ep0_wake : Z;
    host_config : list Z; device_bittiming : list Z; device_mode : list Z;
    uc_calls : nat; uc_hw_calls : nat; uc_hw : list canbus_msg; uc_local : list canbus_msg;
    uc_usb : list (usb_origin * list Z); uc_read : list (Z * list Z); uc_bus : list canbus_msg;
    uc_ep0 : list ep0_event }.
#[export] Instance eta_usbcan_data : Eta usbcan_data := λ r,
  mk_usbcan (uc_can r) (uc_wake r) (host_frame r) (host_status r) (notify_local r) (usb_send_busy r) (uc_assigned_id r)
    (uc_pull_pos r) (uc_push_pos r) (uc_queue r) (gs_xfer_data r) (gs_xfer_size r) (gs_xfer_flags r) (gs_ep0_wake r)
    (host_config r) (device_bittiming r) (device_mode r) (uc_calls r) (uc_hw_calls r) (uc_hw r) (uc_local r)
    (uc_usb r) (uc_read r) (uc_bus r) (uc_ep0 r).
Abbreviation BR := (M usbcan_data).

Definition br_lift {A} (m : CAN A) : BR A := λ b,
  match m (uc_can b) with
  | Ret a c => Ret a (b <| uc_can := c |>)
  | Shut r c => Shut r (b <| uc_can := c |>)
  | Undef => Undef
  | Diverge => Diverge
  end.

Definition USBCAN_QUEUE_SIZE : Z := 32.
Definition HS_TX_ECHO : Z := 1.
Definition HS_TX_HW : Z := 2.
Definition HS_TX_LOCAL : Z := 4.

(** ** struct gs_host_frame *)

Definition le32 (x : Z) : list Z := to_le_bytes 4 x.
(** sizeof(struct gs_host_frame) *)
Definition GS_HOST_FRAME_SIZE : nat := 20.
Definition gs_can_id (f : list Z) : Z := le_bytes (take 4 (drop 4 f)).
Definition gs_can_dlc (f : list Z) : Z := default 0 (f !! 8%nat).
Definition gs_frame_data (f : list Z) : list Z := take 8 (drop 12 f).
(** The frame of a packet of the host, and the packet for a frame of the bus. *)
Definition msg_of_frame (f : list Z) : canbus_msg := mk_canmsg (gs_can_id f) (gs_can_dlc f) (gs_frame_data f).
Definition frame_of_msg (msg : canbus_msg) : list Z :=
  le32 0xffffffff ++ le32 (cm_id msg) ++ [u8 (cm_dlc msg); 0; 0; 0] ++ cm_data msg.

(** The destinations of a frame with this id. *)
Definition route (assigned_id id : Z) : Z :=
  if id =? CANBUS_ID_ADMIN then Z.lor (Z.lor HS_TX_ECHO HS_TX_HW) HS_TX_LOCAL
  else if nz assigned_id && (assigned_id =? id) then Z.lor HS_TX_ECHO HS_TX_LOCAL
  else Z.lor HS_TX_ECHO HS_TX_HW.

(** ** Message sending *)

Definition gs_canbus_notify_tx : BR unit :=
  br_lift (can_lift sched_wake_tasks);;;
  modify (λ b, b <| uc_wake := 1 |>).
Definition gs_usb_notify_bulk_out : BR unit := gs_canbus_notify_tx.
Definition gs_usb_notify_bulk_in : BR unit := gs_canbus_notify_tx.

Section board.
Context {B : Board} {CB : CanBoard} {UB : UsbBoard}.

Definition gs_canbus_process_data (msg : canbus_msg) : BR unit :=
  let! b := get in
  let pushp := uc_push_pos b in
  if USBCAN_QUEUE_SIZE <=? u32 (pushp - uc_pull_pos b) then mret tt
  else if nz (uc_assigned_id b) && (Z.land (cm_id msg) 0xfffffffe =? uc_assigned_id b) then mret tt
  else
    let pos := pushp mod USBCAN_QUEUE_SIZE in
    modify (λ b, b <| uc_queue := <[Z.to_nat pos := msg]> (uc_queue b) |> <| uc_push_pos := u32 (pushp + 1) |>
                   <| uc_bus := uc_bus b ++ [msg] |>);;;
    gs_usb_notify_bulk_out.
(** A burst of receive interrupts. *)
Fixpoint bus_frames (l : list canbus_msg) : BR unit :=
  match l with
  | [] => mret tt
  | msg :: l => gs_canbus_process_data msg;;; bus_frames l
  end.

(** A call of [usb_send_bulk_in]: a negative value says that the endpoint is busy. *)
Definition call_bulk_in (o : usb_origin) (packet : list Z) : BR Z :=
  let! b := get in
  let ret := usb_send_bulk_in (uc_calls b) packet in
  modify (λ b, b <| uc_calls := S (uc_calls b) |>
                 <| uc_usb := if ret <? 0 then uc_usb b else uc_usb b ++ [(o, packet)] |>);;;
  mret ret.
(** A call of [canhw_send]: a negative value says that the controller is busy. *)
Definition call_canhw (msg : canbus_msg) : BR Z :=
  let! b := get in
  let ret := canhw_send (uc_hw_calls b) msg in
  modify (λ b, b <| uc_hw_calls := S (uc_hw_calls b) |>
                 <| uc_hw := if ret <? 0 then uc_hw b else uc_hw b ++ [msg] |>);;;
  mret ret.

Definition send_frame (o : usb_origin) (msg : canbus_msg) : BR Z := call_bulk_in o (frame_of_msg msg).

(** The loop of [drain_hw_queue]; [irqs] are the frames received before each read of
    [push_pos]. *)
Fixpoint drain_loop (fuel : nat) (irqs : list (list canbus_msg)) (pull_pos : Z) : BR unit :=
  match fuel with
  | O => diverge
  | S fuel =>
      bus_frames (from_option id [] (head irqs));;;
      let! b := get in
      if uc_push_pos b =? pull_pos then modify (λ b, b <| usb_send_busy := 0 |>)
      else
        let pos := pull_pos mod USBCAN_QUEUE_SIZE in
        let! msg := deref (uc_queue b !! Z.to_nat pos) in
        let! ret := send_frame From_bus msg in
        if ret <? 0 then modify (λ b, b <| usb_send_busy := 1 |>)
        else
          let pull_pos := u32 (pull_pos + 1) in
          modify (λ b, b <| uc_pull_pos := pull_pos |>);;;
          drain_loop fuel (tail irqs) pull_pos
  end.
(** A round takes a frame, and there are no more than the 32 in the ring and those that
    arrive. *)
Definition drain_hw_queue (irqs : list (list canbus_msg)) : BR unit :=
  let! b := get in
  drain_loop (33 + length (concat irqs)) irqs (uc_pull_pos b).

(** How a round of the loop of [usbcan_task] ends: the next round, [break] or [return]. *)
Inductive round_end := R_next | R_break | R_return.

(** The destinations of the previous host frame; [None] when the controller is busy. *)
Definition tx_host_frame : BR (option Z) :=
  let! b := get in
  let hs := host_status b in
  if has hs (Z.lor HS_TX_HW HS_TX_LOCAL) then
    let msg := msg_of_frame (host_frame b) in
    let! hs :=
      (if has hs HS_TX_LOCAL then
         br_lift (canserial_process_data msg);;;
         let hs := Z.land hs (Z.lnot HS_TX_LOCAL) in
         modify (λ b, b <| uc_local := uc_local b ++ [msg] |> <| host_status := hs |>);;;
         mret hs
       else mret hs) in
    if has hs HS_TX_HW then
      let! ret := call_canhw msg in
      if ret <? 0 then mret None
      else
        let hs := Z.land hs (Z.lnot HS_TX_HW) in
        modify (λ b, b <| host_status := hs |>);;;
        mret (Some hs)
    else mret (Some hs)
  else mret (Some hs).

(** The echo of the previous host frame; [false] when it has to wait. *)
Definition tx_echo (hs : Z) : BR bool :=
  if nz hs then
    let! b := get in
    if nz (usb_send_busy b) then mret false
    else
      let! ret := call_bulk_in Echo (take GS_HOST_FRAME_SIZE (host_frame b)) in
      if ret <? 0 then mret false
      else
        modify (λ b, b <| host_status := 0 |>);;;
        mret true
  else mret true.

(** The next frame from the host; [false] when there is none. *)
Definition read_host_frame : BR bool :=
  let! b := get in
  let '(ret, data) := usb_read_bulk_out (uc_calls b) in
  let! f := deref (put_at (host_frame b) 0 data) in
  modify (λ b, b <| uc_calls := S (uc_calls b) |> <| host_frame := f |>);;;
  if ret <=? 0 then mret false
  else
    modify (λ b, b <| host_status := route (uc_assigned_id b) (gs_can_id f) |>
                   <| uc_read := uc_read b ++ [(uc_assigned_id b, f)] |>);;;
    mret true.

Definition usbcan_round : BR round_end :=
  let! tx := tx_host_frame in
  match tx with
  | None => mret R_break
  | Some hs =>
      let! sent := tx_echo hs in
      if negb sent then mret R_return
      else
        let! more := read_host_frame in
        mret (if (more : bool) then R_next else R_break)
  end.
Fixpoint usbcan_loop (fuel : nat) : BR round_end :=
  match fuel with
  | O => diverge
  | S fuel =>
      let! e := usbcan_round in
      match e with R_next => usbcan_loop fuel | _ => mret e end
  end.

(** [patience] bounds the frames that the host sends while the task runs. *)
Definition usbcan_task (patience : nat) (irqs : list (list canbus_msg)) : BR unit :=
  let! b := get in
  if negb (nz (uc_wake b)) then mret tt
  else
    modify (λ b, b <| uc_wake := 0 |>);;;
    drain_hw_queue irqs;;;
    let! e := usbcan_loop patience in
    match e with
    | R_break =>
        let! b := get in
        when nz (notify_local b) && negb (nz (usb_send_busy b)) do br_lift canserial_notify_tx
    | _ => mret tt
    end.

Definition gs_canbus_send (msg : canbus_msg) : BR Z :=
  let! b := get in
  let! ret := (if nz (usb_send_busy b) then mret (-1) else send_frame From_local msg) in
  if ret <? 0 then
    modify (λ b, b <| notify_local := 1 |>);;;
    mret (-1)
  else
    modify (λ b, b <| notify_local := 0 |>);;;
    mret (cm_dlc msg).

Definition gs_canbus_set_filter (id : Z) : BR unit := modify (λ b, b <| uc_assigned_id := id |>).

(** ** USB descriptors *)

Definition USB_GSUSB_1_VENDOR_ID : Z := 0x1d50.
Definition USB_GSUSB_1_PRODUCT_ID : Z := 0x606f.

Definition gs_device_descriptor : list Z :=
  [18; USB_DT_DEVICE] ++ le16 0x0200 ++ [0; 0; 0; USB_CDC_EP0_SIZE] ++ le16 USB_GSUSB_1_VENDOR_ID ++
  le16 USB_GSUSB_1_PRODUCT_ID ++ le16 0 ++ [USB_STR_ID_MANUFACTURER; USB_STR_ID_PRODUCT; USB_STR_ID_SERIAL; 1].
Definition gs_config_descriptor : list Z :=
  let parts :=
    interface_descriptor 0 2 255 255 255 ++
    endpoint_descriptor USB_CDC_EP_BULK_OUT 2 USB_CDC_EP_BULK_OUT_SIZE 0 ++
    endpoint_descriptor (Z.lor USB_CDC_EP_BULK_IN USB_DIR_IN) 2 USB_CDC_EP_BULK_IN_SIZE 0 in
  [9; USB_DT_CONFIG] ++ le16 (9 + Z.of_nat (length parts)) ++ [1; 1; 0; 0xC0; 50] ++ parts.
Definition usb_descriptors : list descriptor_s :=
  [mk_descriptor (Z.shiftl USB_DT_DEVICE 8) 0 gs_device_descriptor;
   mk_descriptor (Z.shiftl USB_DT_CONFIG 8) 0 gs_config_descriptor;
   mk_descriptor (Z.shiftl USB_DT_STRING 8) 0 (string_descriptor [USB_LANGID_ENGLISH_US]);
   mk_descriptor (Z.lor (Z.shiftl USB_DT_STRING 8) USB_STR_ID_MANUFACTURER) USB_LANGID_ENGLISH_US
     (string_descriptor [75; 108; 105; 112; 112; 101; 114]);
   mk_descriptor (Z.lor (Z.shiftl USB_DT_STRING 8) USB_STR_ID_PRODUCT) USB_LANGID_ENGLISH_US (string_descriptor USB_STR_PRODUCT)] ++
  (if CONFIG_USB_SERIAL_NUMBER_CHIPID then []
   else [mk_descriptor (Z.lor (Z.shiftl USB_DT_STRING 8) USB_STR_ID_SERIAL) USB_LANGID_ENGLISH_US (string_descriptor USB_STR_SERIAL)]).

(** ** Endpoint 0 *)

Definition gs_emit (e : ep0_event) : BR unit := modify (λ b, b <| uc_ep0 := uc_ep0 b ++ [e] |>).
Definition gs_usb_notify_ep0 : BR unit :=
  br_lift (can_lift sched_wake_tasks);;;
  modify (λ b, b <| gs_ep0_wake := 1 |>).
Definition gs_call : BR nat :=
  let! b := get in
  modify (λ b, b <| uc_calls := S (uc_calls b) |>);;;
  mret (uc_calls b).

Definition gs_do_stall : BR unit :=
  gs_emit EP_stall;;;
  modify (λ b, b <| gs_xfer_flags := 0 |>).

Definition gs_var_get (v : gs_var) (b : usbcan_data) : list Z :=
  match v with
  | V_host_config => host_config b
  | V_device_bittiming => device_bittiming b
  | V_device_mode => device_mode b
  end.
Definition gs_var_set (v : gs_var) (l : list Z) (b : usbcan_data) : usbcan_data :=
  match v with
  | V_host_config => b <| host_config := l |>
  | V_device_bittiming => b <| device_bittiming := l |>
  | V_device_mode => b <| device_mode := l |>
  end.
Definition gs_data_at (d : gs_data) (n : Z) : BR (list Z) :=
  if n <=? 0 then mret []
  else
    let! b := get in
    match d with
    | GD_null => undef
    | GD_bytes l => deref (bytes_at l 0 n)
    | GD_var v off => deref (bytes_at (gs_var_get v b) (Z.of_nat off) n)
    end.
Definition gs_data_next (d : gs_data) (n : Z) : gs_data :=
  match d with
  | GD_null => GD_null
  | GD_bytes l => GD_bytes (drop (Z.to_nat n) l)
  | GD_var v off => GD_var v (off + Z.to_nat n)
  end.
Definition gs_store_at (d : gs_data) (bytes : list Z) : BR unit :=
  match bytes, d with
  | [], _ => mret tt
  | _, GD_var v off =>
      let! b := get in
      let! l := deref (put_at (gs_var_get v b) (Z.of_nat off) bytes) in
      modify (gs_var_set v l)
  | _, _ => undef
  end.

Definition gs_xfer_packet (d : gs_data) (xs flags : Z) : BR Z :=
  if has flags UX_READ then
    let! n := gs_call in
    let '(ret, bytes) := usb_read_ep0 n xs in
    gs_store_at d bytes;;;
    mret ret
  else
    let! data := gs_data_at d xs in
    let! n := gs_call in
    let ret := if NEED_PROGMEM && has flags UX_SEND_PROGMEM then usb_send_ep0_progmem n data else usb_send_ep0 n data in
    (when ret =? xs do gs_emit (EP_sent data));;;
    mret ret.
Fixpoint gs_xfer_loop (fuel : nat) (d : gs_data) (size flags : Z) : BR unit :=
  match fuel with
  | O => diverge
  | S fuel =>
      let xs := if USB_CDC_EP0_SIZE <? size then USB_CDC_EP0_SIZE else size in
      let! ret := gs_xfer_packet d xs flags in
      if ret =? xs then
        let d := gs_data_next d xs in
        let size := size - xs in
        if negb (nz size) then
          if has flags UX_READ then gs_xfer_loop fuel d size UX_SEND
          else if (xs =? USB_CDC_EP0_SIZE) && has flags UX_SEND_ZLP then gs_xfer_loop fuel d size flags
          else
            modify (λ b, b <| gs_xfer_flags := 0 |>);;;
            gs_usb_notify_ep0
        else gs_xfer_loop fuel d size flags
      else if ret =? -1 then
        modify (λ b, b <| gs_xfer_data := d |> <| gs_xfer_size := u8 size |> <| gs_xfer_flags := u8 flags |>)
      else gs_do_stall
  end.
Definition gs_do_xfer (d : gs_data) (size flags : Z) : BR unit := gs_xfer_loop 18 d size flags.

Definition gs_find_descriptor (req : usb_ctrlrequest) : option (list Z) :=
  foldl (λ found d, if (ds_wValue d =? cr_wValue req) && (ds_wIndex d =? cr_wIndex req) then Some (ds_desc d) else found)
    None usb_descriptors.
Definition gs_req_get_descriptor (req : usb_ctrlrequest) : BR unit :=
  if negb (cr_bRequestType req =? USB_DIR_IN) then gs_do_stall
  else
    let desc := (λ l, (l, Z.of_nat (length l), if NEED_PROGMEM then UX_SEND_PROGMEM else UX_SEND)) <$> gs_find_descriptor req in
    let desc :=
      if CONFIG_USB_SERIAL_NUMBER_CHIPID &&
         (cr_wValue req =? Z.lor (Z.shiftl USB_DT_STRING 8) USB_STR_ID_SERIAL) && (cr_wIndex req =? USB_LANGID_ENGLISH_US)
      then Some (usbserial_get_serialid, default 0 (usbserial_get_serialid !! 0%nat), UX_SEND) else desc in
    match desc with
    | None => gs_do_stall
    | Some (l, size, flags) =>
        if cr_wLength req <? size then gs_do_xfer (GD_bytes l) (cr_wLength req) flags
        else if size <? cr_wLength req then gs_do_xfer (GD_bytes l) size (Z.lor flags UX_SEND_ZLP)
        else gs_do_xfer (GD_bytes l) size flags
    end.

Definition gs_req_set_address (req : usb_ctrlrequest) : BR unit :=
  if nz (cr_bRequestType req) || nz (cr_wIndex req) || nz (cr_wLength req) then gs_do_stall
  else gs_emit (EP_set_address (cr_wValue req)).
Definition gs_req_set_configuration (req : usb_ctrlrequest) : BR unit :=
  if nz (cr_bRequestType req) || negb (cr_wValue req =? 1) || nz (cr_wIndex req) || nz (cr_wLength req) then gs_do_stall
  else
    gs_emit EP_set_configure;;;
    gs_usb_notify_bulk_in;;;
    gs_usb_notify_bulk_out;;;
    gs_do_xfer GD_null 0 UX_SEND.

Definition GS_USB_BREQ_HOST_FORMAT : Z := 0.
Definition GS_USB_BREQ_BITTIMING : Z := 1.
Definition GS_USB_BREQ_MODE : Z := 2.
Definition GS_USB_BREQ_BT_CONST : Z := 4.
Definition GS_USB_BREQ_DEVICE_CONFIG : Z := 5.
Definition USB_TYPE_MASK : Z := 0x60.
Definition USB_TYPE_STANDARD : Z := 0x00.
Definition USB_TYPE_VENDOR : Z := 0x40.

Definition gs_breq_host_format : BR unit := gs_do_xfer (GD_var V_host_config 0) 4 UX_READ.
(** [reserved1] to [reserved3], [icount], [sw_version] and [hw_version] *)
Definition device_config : list Z := [0; 0; 0; 0] ++ le32 2 ++ le32 1.
Definition gs_breq_device_config : BR unit := gs_do_xfer (GD_bytes device_config) 12 UX_SEND.
Definition bt_const : list Z := [0; 48000000; 1; 16; 1; 8; 4; 1; 1024; 1] ≫= le32.
Definition gs_breq_bt_const : BR unit := gs_do_xfer (GD_bytes bt_const) 40 UX_SEND.
Definition gs_breq_bittiming : BR unit := gs_do_xfer (GD_var V_device_bittiming 0) 20 UX_READ.
Definition gs_breq_mode : BR unit := gs_do_xfer (GD_var V_device_mode 0) 8 UX_READ.

Definition gs_state_ready : BR unit :=
  let! n := gs_call in
  match usb_read_ep0_setup n with
  | None => mret tt
  | Some req =>
      let req_type := Z.land (cr_bRequestType req) USB_TYPE_MASK in
      let r := cr_bRequest req in
      if req_type =? USB_TYPE_STANDARD then
        if r =? USB_REQ_GET_DESCRIPTOR then gs_req_get_descriptor req
        else if r =? USB_REQ_SET_ADDRESS then gs_req_set_address req
        else if r =? USB_REQ_SET_CONFIGURATION then gs_req_set_configuration req
        else gs_do_stall
      else if req_type =? USB_TYPE_VENDOR then
        if r =? GS_USB_BREQ_HOST_FORMAT then gs_breq_host_format
        else if r =? GS_USB_BREQ_DEVICE_CONFIG then gs_breq_device_config
        else if r =? GS_USB_BREQ_BT_CONST then gs_breq_bt_const
        else if r =? GS_USB_BREQ_BITTIMING then gs_breq_bittiming
        else if r =? GS_USB_BREQ_MODE then gs_breq_mode
        else gs_do_stall
      else gs_do_stall
  end.

Definition gs_usb_ep0_task : BR unit :=
  let! b := get in
  if negb (nz (gs_ep0_wake b)) then mret tt
  else
    modify (λ b, b <| gs_ep0_wake := 0 |>);;;
    if nz (gs_xfer_flags b) then gs_do_xfer (gs_xfer_data b) (gs_xfer_size b) (gs_xfer_flags b)
    else gs_state_ready.

Definition gs_usb_shutdown : BR unit :=
  gs_usb_notify_bulk_in;;;
  gs_usb_notify_bulk_out;;;
  gs_usb_notify_ep0.
End board.

(** ** The ring of bus frames *)

Record ring (q : list canbus_msg) (pull push : Z) (L : list canbus_msg) : Prop := {
  rg_size : length q = 32%nat;
  rg_pull : 0 ≤ pull < 4294967296;
  rg_push : push = u32 (pull + Z.of_nat (length L));
  rg_fit : (length L ≤ 32)%nat;
  rg_at i msg : L !! i = Some msg → q !! Z.to_nat ((pull + Z.of_nat i) mod 32) = Some msg }.

Lemma ring_count q pull push L : ring q pull push L → u32 (push - pull) = Z.of_nat (length L).
Proof.
  intros [_ Hp -> Hf _]. rewrite u32_sub_l. replace (pull + Z.of_nat (length L) - pull) with (Z.of_nat (length L)) by lia.
  apply u32_small. lia.
Qed.
Lemma ring_empty q pull push L : ring q pull push L → (push =? pull) = true ↔ L = [].
Proof.
  intros Hr. pose proof (ring_count _ _ _ _ Hr) as Hc. rewrite Z.eqb_eq. split.
  - intros ->. rewrite Z.sub_diag in Hc. change (u32 0) with 0 in Hc. apply length_zero_iff_nil. lia.
  - intros ->. rewrite (rg_push _ _ _ _ Hr). cbn [length]. rewrite Z.add_0_r. apply u32_small, Hr.
Qed.

Lemma u32_mod_32 x : u32 x mod 32 = x mod 32.
Proof. unfold u32. change (2 ^ 32) with (32 * 134217728). rewrite Z.rem_mul_r by lia. rewrite Z.mul_comm, Z_mod_plus_full. apply Z.mod_mod. lia. Qed.
Lemma mod_32_inj p i j : 0 ≤ i < 32 → 0 ≤ j < 32 → (p + i) mod 32 = (p + j) mod 32 → i = j.
Proof. intros Hi Hj H. Z.to_euclidean_division_equations; lia. Qed.

Lemma ring_push q pull push L msg : ring q pull push L → (length L < 32)%nat →
  ring (<[Z.to_nat (push mod 32) := msg]> q) pull (u32 (push + 1)) (L ++ [msg]).
Proof.
  intros [Hs Hp Hpu Hf Ha] Hl. pose proof (Z.mod_pos_bound (pull + Z.of_nat (length L)) 32 ltac:(lia)) as Hb.
  assert (push mod 32 = (pull + Z.of_nat (length L)) mod 32) as -> by (rewrite Hpu; apply u32_mod_32).
  split; [by rewrite length_insert|done|rewrite Hpu, u32_add_l, length_app; cbn [length]; f_equal; lia|rewrite length_app; cbn; lia|].
  intros i m [Hi|[Hi Hm]]%lookup_app_Some.
  - pose proof (lookup_lt_Some _ _ _ Hi). rewrite list_lookup_insert_ne; [by apply Ha|]. intros He.
    pose proof (Z.mod_pos_bound (pull + Z.of_nat i) 32 ltac:(lia)).
    apply Z2Nat.inj in He; [|lia..]. apply mod_32_inj in He; lia.
  - apply list_lookup_singleton_Some in Hm as [Hi0 <-]. replace i with (length L) by lia.
    rewrite list_lookup_insert_eq; [done|]. lia.
Qed.

Lemma ring_pop q pull push msg L : ring q pull push (msg :: L) →
  q !! Z.to_nat (pull mod 32) = Some msg ∧ ring q (u32 (pull + 1)) push L.
Proof.
  intros [Hs Hp Hpu Hf Ha]. split.
  - rewrite <- (Ha 0%nat msg eq_refl). do 2 f_equal. f_equal. lia.
  - cbn [length] in *. split; [done|apply u32_range|rewrite Hpu, u32_add_l; f_equal; lia|lia|].
    intros i m Hi. rewrite <- (Ha (S i) m Hi). do 2 f_equal. rewrite <- u32_mod_32, u32_add_l, u32_mod_32. f_equal. lia.
Qed.

(** ** The invariant of the bridge *)

(** The packets of one origin that the host has been given. *)
Definition packets_of (o : usb_origin) (log : list (usb_origin * list Z)) : list (list Z) :=
  snd <$> filter (λ p, p.1 = o) log.
(** The frames read from the host, with the id of the local node at that time, that a
    destination concerns. *)
Definition addressed (dest : Z) (log : list (Z * list Z)) : list canbus_msg :=
  (λ p, msg_of_frame p.2) <$> filter (λ p, has (route p.1 (gs_can_id p.2)) dest = true) log.
Definition echoes (log : list (Z * list Z)) : list (list Z) := (λ p, take GS_HOST_FRAME_SIZE p.2) <$> log.
Definition if_has {A} (st mask : Z) (x : A) : list A := if has st mask then [x] else [].

Definition status_ok (st : Z) : Prop := st = 0 ∨ st = 1 ∨ st = 3 ∨ st = 5 ∨ st = 7.

(** The log of host frames when [host_frame] is still owed to the destinations of [st]. *)
Record host_inv (f : list Z) (st : Z) (b : usbcan_data) : Prop := {
  hi_status : status_ok st;
  hi_hw : uc_hw b ++ if_has st HS_TX_HW (msg_of_frame f) = addressed HS_TX_HW (uc_read b);
  hi_local : uc_local b ++ if_has st HS_TX_LOCAL (msg_of_frame f) = addressed HS_TX_LOCAL (uc_read b);
  hi_echo : packets_of Echo (uc_usb b) ++ if_has st HS_TX_ECHO (take GS_HOST_FRAME_SIZE f) = echoes (uc_read b) }.

Record bridge_inv (b : usbcan_data) : Prop := {
  bi_can : can_rx_ok (uc_can b);
  bi_frame : length (host_frame b) = 64%nat;
  bi_bytes : Forall is_byte (host_frame b);
  bi_host : host_inv (host_frame b) (host_status b) b;
  bi_bus : ∃ L, ring (uc_queue b) (uc_pull_pos b) (uc_push_pos b) L ∧
    packets_of From_bus (uc_usb b) ++ (frame_of_msg <$> L) = frame_of_msg <$> uc_bus b ∧
    (L ≠ [] → uc_wake b ≠ 0 ∨ usb_send_busy b ≠ 0) }.

Lemma wp_br_lift {A} (m : CAN A) b (Q : A → usbcan_data → Prop) E :
  wp m (uc_can b) (λ a c, Q a (b <| uc_can := c |>)) (λ r c, E r (b <| uc_can := c |>)) → wp (br_lift m) b Q E.
Proof. unfold wp, br_lift. by destruct (m (uc_can b)). Qed.

(** The local node after [sched_wake_tasks]. *)
Definition can_woken (c : canbus_data) : canbus_data := c <| can_mcu := woken (can_mcu c) |>.
Lemma wp_gs_notify_tx b (Q : unit → usbcan_data → Prop) E :
  Q tt (b <| uc_can := can_woken (uc_can b) |> <| uc_wake := 1 |>) → wp gs_canbus_notify_tx b Q E.
Proof. intros HQ. unfold gs_canbus_notify_tx. hstep. apply wp_br_lift, wp_can_lift. exact HQ. Qed.
Lemma can_woken_ok c : can_rx_ok c → can_rx_ok (can_woken c).
Proof. by intros [? ?]. Qed.

Lemma packets_of_app o log log' : packets_of o (log ++ log') = packets_of o log ++ packets_of o log'.
Proof. unfold packets_of. by rewrite filter_app, fmap_app. Qed.
Lemma packets_of_same o p : packets_of o [(o, p)] = [p].
Proof. unfold packets_of. by rewrite filter_cons_True. Qed.
Lemma packets_of_other o o' p : o' ≠ o → packets_of o [(o', p)] = [].
Proof. intros H. unfold packets_of. by rewrite filter_cons_False. Qed.

(** What the traffic of the bus leaves alone. *)
Record keeps_host (b b' : usbcan_data) : Prop := {
  kh_frame : host_frame b' = host_frame b;
  kh_status : host_status b' = host_status b;
  kh_hw : uc_hw b' = uc_hw b;
  kh_local : uc_local b' = uc_local b;
  kh_read : uc_read b' = uc_read b;
  kh_echo : packets_of Echo (uc_usb b') = packets_of Echo (uc_usb b);
  kh_can : can_rx_ok (uc_can b) → can_rx_ok (uc_can b') }.
#[export] Instance keeps_host_preorder : PreOrder keeps_host.
Proof.
  split; [by intros b; split|]. intros b1 b2 b3 [] []. split; try congruence. auto.
Qed.
Lemma keeps_host_inv b b' f st : keeps_host b b' → host_inv f st b → host_inv f st b'.
Proof. intros [_ _ E1 E2 E3 E4 _] [H1 H2 H3 H4]. split; rewrite ?E1, ?E2, ?E3, ?E4; done. Qed.

(** [L] is what waits in the ring, behind what has been forwarded. *)
Definition bus_ring (b : usbcan_data) (L : list canbus_msg) : Prop :=
  ring (uc_queue b) (uc_pull_pos b) (uc_push_pos b) L ∧
  packets_of From_bus (uc_usb b) ++ (frame_of_msg <$> L) = frame_of_msg <$> uc_bus b.

Section spec.
Context {B : Board} {CB : CanBoard} {UB : UsbBoard}.

(** A frame of the bus is appended, or dropped when the ring is full or when it has an id of
    the local node. *)
Lemma wp_gs_process_data msg b L :
  bus_ring b L →
  wp (gs_canbus_process_data msg) b
    (λ _ b', keeps_host b b' ∧ uc_pull_pos b' = uc_pull_pos b ∧ usb_send_busy b' = usb_send_busy b ∧
       notify_local b' = notify_local b ∧ uc_calls b' = uc_calls b ∧
       if bool_decide (length L = 32%nat ∨ uc_assigned_id b ≠ 0 ∧ Z.land (cm_id msg) 0xfffffffe = uc_assigned_id b)
       then b' = b else bus_ring b' (L ++ [msg]) ∧ uc_wake b' = 1) no_shut.
Proof.
  intros [Hr Hb]. unfold gs_canbus_process_data, USBCAN_QUEUE_SIZE. do 2 hstep. rewrite (ring_count _ _ _ _ Hr). pose proof (rg_fit _ _ _ _ Hr).
  destruct (Z.leb_spec 32 (Z.of_nat (length L))); [hstep; rewrite bool_decide_eq_true_2; [done|left; lia]|].
  destruct (nz (uc_assigned_id b) && _) eqn:Ha.
  { hstep. rewrite bool_decide_eq_true_2; [done|right]. unfold nz in Ha. by bool_to_prop. }
  rewrite bool_decide_eq_false_2.
  2: { intros [?|[H1 H2]]; [lia|]. by rewrite (nz_true _ H1), H2, Z.eqb_refl in Ha. }
  do 2 hstep. apply wp_gs_notify_tx. split; [split; try done; apply can_woken_ok|]. do 4 (split; [done|]). split; [|done].
  split; [apply ring_push; [done|lia]|]. change (packets_of From_bus (uc_usb b) ++ (frame_of_msg <$> (L ++ [msg])) = frame_of_msg <$> (uc_bus b ++ [msg])).
  by rewrite !fmap_app, app_assoc, Hb.
Qed.

Lemma wp_bus_frames frames b L :
  bus_ring b L →
  wp (bus_frames frames) b
    (λ _ b', keeps_host b b' ∧ uc_pull_pos b' = uc_pull_pos b ∧ usb_send_busy b' = usb_send_busy b ∧
       notify_local b' = notify_local b ∧ uc_calls b' = uc_calls b ∧
       ∃ more, bus_ring b' (L ++ more) ∧ (length more ≤ length frames)%nat) no_shut.
Proof.
  revert b L. induction frames as [|msg frames IH]; intros b L Hb; cbn [bus_frames length].
  { hstep. do 5 (split; [done|]). exists []. by rewrite app_nil_r. }
  hstep. eapply wp_conseq; [by apply wp_gs_process_data|]. intros [] b1 (K1 & P1 & S1 & N1 & C1 & Hc).
  assert (∃ m1, bus_ring b1 (L ++ m1) ∧ (length m1 ≤ 1)%nat) as (m1 & Hb1 & Hm1).
  { case_bool_decide; [subst; exists []; rewrite app_nil_r; split; [done|cbn; lia]|]. exists [msg]. split; [apply Hc|done]. }
  eapply wp_conseq; [by apply IH|]. intros [] b2 (K2 & P2 & S2 & N2 & C2 & m2 & Hb2 & Hm2).
  split; [by etrans|]. do 4 (split; [congruence|]). exists (m1 ++ m2). rewrite app_assoc, length_app. split; [done|lia].
Qed.

Lemma wp_call_bulk_in o packet b (Q : Z → usbcan_data → Prop) E :
  let ret := usb_send_bulk_in (uc_calls b) packet in
  Q ret (b <| uc_calls := S (uc_calls b) |> <| uc_usb := if ret <? 0 then uc_usb b else uc_usb b ++ [(o, packet)] |>) →
  wp (call_bulk_in o packet) b Q E.
Proof. intros ret HQ. unfold call_bulk_in. do 5 hstep. exact HQ. Qed.

(** The endpoint to the host refused a packet. *)
Definition usb_refused : Prop := ∃ n p, usb_send_bulk_in n p < 0.

Lemma wp_drain_loop fuel irqs b L :
  bus_ring b L → (length L + length (concat irqs) < fuel)%nat →
  wp (drain_loop fuel irqs (uc_pull_pos b)) b
    (λ _ b', keeps_host b b' ∧ notify_local b' = notify_local b ∧ (uc_calls b ≤ uc_calls b')%nat ∧
       ∃ L', bus_ring b' L' ∧ (usb_send_busy b' = 0 ∧ L' = [] ∨ usb_send_busy b' = 1 ∧ usb_refused)) no_shut.
Proof.
  revert irqs b L. induction fuel as [|fuel IH]; intros irqs b L Hb Hf; [lia|]. cbn [drain_loop]. hstep.
  eapply wp_conseq; [by apply wp_bus_frames|]. intros [] b1 (K1 & P1 & S1 & N1 & C1 & more & Hb1 & Hm). do 2 hstep.
  assert (length more + length (concat (tail irqs)) ≤ length (concat irqs))%nat as Hirq.
  { destruct irqs as [|i irqs]; cbn in *; rewrite ?length_app; lia. }
  destruct Hb1 as [Hr Hbus]. rewrite <- P1. destruct (uc_push_pos b1 =? uc_pull_pos b1) eqn:He.
  { apply (ring_empty _ _ _ _ Hr) in He. rewrite He in Hr, Hbus. hstep. split; [etrans; [exact K1|by split]|]. split; [done|]. split; [cbn; lia|].
    exists []. split; [by split|by left]. }
  destruct (L ++ more) as [|msg L1] eqn:HL; [by rewrite (proj2 (ring_empty _ _ _ _ Hr)) in He|].
  destruct (ring_pop _ _ _ _ _ Hr) as [Hq Hr']. unfold USBCAN_QUEUE_SIZE. hstep. eapply wp_deref_eq; [exact Hq|]. unfold send_frame. hstep.
  apply wp_call_bulk_in. cbv zeta. destruct (Z.ltb_spec (usb_send_bulk_in (uc_calls b1) (frame_of_msg msg)) 0) as [Hn|Hn].
  { hstep. split; [etrans; [exact K1|by split]|]. split; [done|]. split; [cbn; lia|]. exists (msg :: L1). split; [by split|].
    right. split; [done|]. by eexists _, _. }
  do 2 hstep. set (b2 := upd uc_pull_pos _ _). change (u32 (uc_pull_pos b1 + 1)) with (uc_pull_pos b2).
  assert (keeps_host b1 b2) as K2.
  { split; try done. cbn -[packets_of]. rewrite packets_of_app, packets_of_other, app_nil_r; done. }
  eapply wp_conseq; [apply (IH (tail irqs) b2 L1)|].
  - split; [exact Hr'|]. cbn -[packets_of]. rewrite packets_of_app, packets_of_same, <- app_assoc. exact Hbus.
  - apply (f_equal length) in HL. rewrite length_app in HL. cbn in HL. lia.
  - intros [] b3 (K3 & N3 & C3 & HL3). split; [by etrans; [|etrans]|]. split; [by rewrite N3|]. split; [cbn in C3; lia|]. exact HL3.
Qed.

Lemma wp_drain_hw_queue irqs b L :
  bus_ring b L →
  wp (drain_hw_queue irqs) b
    (λ _ b', keeps_host b b' ∧ notify_local b' = notify_local b ∧ (uc_calls b ≤ uc_calls b')%nat ∧
       ∃ L', bus_ring b' L' ∧ (usb_send_busy b' = 0 ∧ L' = [] ∨ usb_send_busy b' = 1 ∧ usb_refused)) no_shut.
Proof.
  intros Hb. unfold drain_hw_queue. do 2 hstep. apply (wp_drain_loop _ _ _ L); [done|].
  pose proof (rg_fit _ _ _ _ (proj1 Hb)). lia.
Qed.

(** ** Frames of the host *)

(** What the traffic of the host leaves alone. *)
Record keeps_bus (b b' : usbcan_data) : Prop := {
  kb_queue : uc_queue b' = uc_queue b;
  kb_pull : uc_pull_pos b' = uc_pull_pos b;
  kb_push : uc_push_pos b' = uc_push_pos b;
  kb_bus : uc_bus b' = uc_bus b;
  kb_sent : packets_of From_bus (uc_usb b') = packets_of From_bus (uc_usb b);
  kb_wake : uc_wake b' = uc_wake b;
  kb_busy : usb_send_busy b' = usb_send_busy b;
  kb_notify : notify_local b' = notify_local b;
  kb_calls : (uc_calls b ≤ uc_calls b')%nat }.
#[local] Instance keeps_bus_preorder : PreOrder keeps_bus.
Proof. split; [by intros b; split|]. intros b1 b2 b3 [] []. split; try congruence. lia. Qed.
Lemma keeps_bus_ring b b' L : keeps_bus b b' → bus_ring b L → bus_ring b' L.
Proof. intros [E1 E2 E3 E4 E5 _ _ _ _] [Hr Hb]. split; rewrite ?E1, ?E2, ?E3, ?E4, ?E5; done. Qed.

(** The side of the host in order, the previous frame still owed to the destinations of its
    status. *)
Record hostside_ok (b : usbcan_data) : Prop := {
  ho_can : can_rx_ok (uc_can b);
  ho_frame : length (host_frame b) = 64%nat;
  ho_bytes : Forall is_byte (host_frame b);
  ho_inv : host_inv (host_frame b) (host_status b) b }.
Lemma keeps_host_ok b b' : keeps_host b b' → hostside_ok b → hostside_ok b'.
Proof.
  intros K [H1 H2 H3 H4]. split; [by apply (kh_can _ _ K)|by rewrite (kh_frame _ _ K)..|].
  rewrite (kh_frame _ _ K), (kh_status _ _ K). by eapply keeps_host_inv.
Qed.

(** The bus controller refused a frame. *)
Definition hw_refused : Prop := ∃ n msg, canhw_send n msg < 0.

Lemma wp_local_data msg c :
  can_rx_ok c → hw_frame msg → wp (canserial_process_data msg) c (λ _ c', can_rx_ok c') no_shut.
Proof.
  intros [Hs Hp] Hf. eapply wp_conseq.
  - apply (wp_process_data msg c (can_contents c) 0 0); [|done]. apply buf_inv_start; [done..|lia].
  - intros [] c' [[Hs' Hf' Hp' _ _ _] _]. split; [done|lia].
Qed.
Lemma msg_of_frame_hw f : length f = 64%nat → Forall is_byte f → hw_frame (msg_of_frame f).
Proof.
  intros Hl Hb. split; cbn.
  - unfold gs_frame_data. rewrite length_take, length_drop. lia.
  - unfold gs_can_dlc. destruct (f !! 8%nat) as [x|] eqn:Hx; [|done]. by apply (Forall_lookup_1 _ _ _ _ Hb Hx).
Qed.

(** A destination that is served is no longer owed. *)
Lemma if_has_no {A} st mask (x : A) : has st mask = false → if_has st mask x = [].
Proof. unfold if_has. by intros ->. Qed.
Lemma if_has_yes {A} st mask (x : A) : has st mask = true → if_has st mask x = [x].
Proof. unfold if_has. by intros ->. Qed.

Lemma wp_tx_local st b :
  hostside_ok b → host_status b = st →
  wp (if has st HS_TX_LOCAL then
        br_lift (canserial_process_data (msg_of_frame (host_frame b)));;;
        let hs := Z.land st (Z.lnot HS_TX_LOCAL) in
        modify (λ b0, b0 <| uc_local := uc_local b0 ++ [msg_of_frame (host_frame b)] |> <| host_status := hs |>);;;
        mret hs
      else mret st) b
    (λ hs b', hostside_ok b' ∧ keeps_bus b b' ∧ host_frame b' = host_frame b ∧ host_status b' = hs ∧ has hs HS_TX_LOCAL = false ∧
       (hs = 0 ∨ hs = 1 ∨ hs = 3)) no_shut.
Proof.
  intros [Hc Hf Hb Hi] Hst. destruct (has st HS_TX_LOCAL) eqn:Hl.
  - hstep. apply wp_br_lift. eapply wp_conseq; [by apply wp_local_data, msg_of_frame_hw|]. intros [] c' Hc'. cbv zeta. do 3 hstep.
    destruct Hi as [H1 H2 H3 H4]. rewrite Hst in *. rewrite (if_has_yes st HS_TX_LOCAL) in H3 by done.
    assert (st = 5 ∨ st = 7) as Hs by (destruct H1 as [->|[->|[->|[->| ->]]]]; [discriminate Hl..|by left|by right]).
    split; [|split; [by split|]]; cbn -[Z.land Z.lnot has].
    2: { do 2 (split; [done|]). destruct Hs as [-> | ->]; (split; [done|]); [right; by left|right; by right]. }
    split; cbn -[Z.land Z.lnot has]; try done. destruct Hs as [-> | ->];
      (split; [first [by right; left|by right; right; left]|exact H2|etrans; [apply app_nil_r|exact H3]|exact H4]).
  - hstep. split; [by split|]. split; [done|]. split; [done|]. split; [done|]. split; [done|].
    destruct (hi_status _ _ _ Hi) as [E|[E|[E|[E|E]]]]; rewrite Hst in E; subst st; try rewrite E in Hl; try discriminate Hl; auto.
Qed.

Lemma wp_call_canhw msg b (Q : Z → usbcan_data → Prop) E :
  let ret := canhw_send (uc_hw_calls b) msg in
  Q ret (b <| uc_hw_calls := S (uc_hw_calls b) |> <| uc_hw := if ret <? 0 then uc_hw b else uc_hw b ++ [msg] |>) →
  wp (call_canhw msg) b Q E.
Proof. intros ret HQ. unfold call_canhw. do 5 hstep. exact HQ. Qed.

(** The previous frame goes to its destinations, after which only the echo is owed. *)
Lemma wp_tx_host_frame b :
  hostside_ok b →
  wp tx_host_frame b
    (λ r b', hostside_ok b' ∧ keeps_bus b b' ∧
       match r with Some hs => host_status b' = hs ∧ (hs = 0 ∨ hs = 1) | None => hw_refused end) no_shut.
Proof.
  intros Hok. unfold tx_host_frame. do 2 hstep. cbv zeta. destruct (has (host_status b) (Z.lor HS_TX_HW HS_TX_LOCAL)) eqn:Hh.
  2: { hstep. split; [done|]. split; [done|]. split; [done|].
       destruct (hi_status _ _ _ (ho_inv _ Hok)) as [E|[E|[E|[E|E]]]]; rewrite E in *; [by left|by right|discriminate Hh..]. }
  hstep. eapply wp_conseq; [by apply wp_tx_local|]. intros hs b1 (Hok1 & K1 & Ef & Es & Hnl & Hs). rewrite <- Ef.
  destruct (has hs HS_TX_HW) eqn:Hw.
  2: { hstep. split; [done|]. split; [done|]. split; [done|]. destruct Hs as [->|[->| ->]]; [by left|by right|discriminate Hw]. }
  assert (hs = 3) as -> by (destruct Hs as [->|[->| ->]]; [discriminate Hw..|done]).
  hstep. apply wp_call_canhw. cbv zeta. destruct Hok1 as [Hc Hf Hb Hi]. destruct Hi as [I1 I2 I3 I4]. rewrite Es in *.
  destruct (Z.ltb_spec (canhw_send (uc_hw_calls b1) (msg_of_frame (host_frame b1))) 0) as [Hn|Hn].
  { hstep. split; [split; try done; cbn; rewrite Es; by split|]. split; [etrans; [exact K1|by split]|by eexists _, _]. }
  do 3 hstep. split; [|split; [etrans; [exact K1|by split]|by split; [|right]]].
  split; [done..|]. split; [by right; left|etrans; [apply app_nil_r|exact I2]|exact I3|exact I4].
Qed.

(** The echo follows when it may. *)
Lemma wp_tx_echo hs b :
  hostside_ok b → host_status b = hs → hs = 0 ∨ hs = 1 →
  wp (tx_echo hs) b
    (λ sent b', hostside_ok b' ∧ keeps_bus b b' ∧
       if (sent : bool) then host_status b' = 0 else usb_send_busy b ≠ 0 ∨ usb_refused) no_shut.
Proof.
  intros Hok Es [->| ->]; unfold tx_echo; [change (nz 0) with false|change (nz 1) with true]; cbv iota; [by hstep|].
  do 2 hstep. destruct (nz (usb_send_busy b)) eqn:Hz.
  { hstep. split; [done|]. split; [done|]. left. unfold nz in Hz. by bool_to_prop. }
  hstep. apply wp_call_bulk_in. cbv zeta. set (p := take GS_HOST_FRAME_SIZE (host_frame b)).
  destruct Hok as [Hc Hf Hb [I1 I2 I3 I4]]. rewrite Es in *.
  destruct (Z.ltb_spec (usb_send_bulk_in (uc_calls b) p) 0) as [Hn|Hn].
  { hstep. split; [split; try done; cbn; rewrite Es; by split|]. split; [|right; by eexists _, _]. split; try done. cbn. lia. }
  do 3 hstep. split; [|split; [|done]].
  - split; try done. split; [by left|exact I2|exact I3|]. cbn -[packets_of echoes].
    rewrite packets_of_app, packets_of_same, app_nil_r. exact I4.
  - split; try done; cbn -[packets_of]; [|lia]. rewrite packets_of_app, packets_of_other, app_nil_r; done.
Qed.

Lemma route_cases aid id : route aid id = 3 ∨ route aid id = 5 ∨ route aid id = 7.
Proof. unfold route. destruct (_ =? _); [by right; right|]. destruct (_ && _); [by right; left|by left]. Qed.
Lemma addressed_snoc dest log aid f :
  addressed dest (log ++ [(aid, f)]) = addressed dest log ++ if_has (route aid (gs_can_id f)) dest (msg_of_frame f).
Proof.
  unfold addressed, if_has. rewrite filter_app, fmap_app. f_equal.
  destruct (has (route aid (gs_can_id f)) dest) eqn:H; [by rewrite filter_cons_True|].
  rewrite filter_cons_False; [done|]. intros H'. change (has (route aid (gs_can_id f)) dest = true) in H'. congruence.
Qed.

Context `{LU : !LawfulUsb}.

(** The next frame is owed to its destinations and to the host. *)
Lemma wp_read_host_frame b :
  hostside_ok b → host_status b = 0 →
  wp read_host_frame b
    (λ more b', hostside_ok b' ∧ keeps_bus b b' ∧ (uc_calls b < uc_calls b')%nat ∧
       if (more : bool) then 0 < (usb_read_bulk_out (uc_calls b)).1 else host_status b' = 0) no_shut.
Proof.
  intros [Hc Hf Hb [I1 I2 I3 I4]] Es. unfold read_host_frame. do 2 hstep. pose proof (read_bulk_packet (uc_calls b)) as Hp.
  destruct (usb_read_bulk_out (uc_calls b)) as [ret data]. rewrite Es in *.
  assert ((length data ≤ 64)%nat ∧ Forall is_byte data) as [Hd Hdb] by (destruct (Z.ltb_spec 0 ret); [split; [lia|apply Hp]|subst; split; [cbn; lia|done]]).
  hstep. eapply wp_deref_eq; [unfold put_at; by rewrite (proj2 (Z.ltb_ge _ _)) by lia|]. change (Z.to_nat 0) with 0%nat.
  rewrite take_0, app_nil_l, Nat.add_0_l. set (f := data ++ drop (length data) (host_frame b)).
  assert (length f = 64%nat) as Hfl by (unfold f; rewrite length_app, length_drop; lia).
  assert (Forall is_byte f) as Hfb by (apply Forall_app; split; [done|by apply Forall_drop]).
  do 2 hstep. destruct (Z.leb_spec ret 0) as [Hr|Hr].
  { hstep. split; [|split; [split; try done; cbn; lia|split; [cbn; lia|exact Es]]]. split; try done. cbn. rewrite Es. by split. }
  do 3 hstep. split; [|split; [split; try done; cbn; lia|split; [cbn; lia|done]]]. split; try done.
  rewrite if_has_no, app_nil_r in I2 by done. rewrite if_has_no, app_nil_r in I3 by done. rewrite if_has_no, app_nil_r in I4 by done.
  split; cbn -[addressed echoes packets_of route].
  - unfold status_ok. destruct (route_cases (uc_assigned_id b) (gs_can_id f)) as [->|[->| ->]]; lia.
  - by rewrite addressed_snoc, I2.
  - by rewrite addressed_snoc, I3.
  - unfold echoes in *. rewrite fmap_app, I4. f_equal. apply if_has_yes.
    by destruct (route_cases (uc_assigned_id b) (gs_can_id f)) as [->|[->| ->]].
Qed.

(** A round serves the previous frame and takes the next one; it stops the loop only because a
    controller refused something or the host has sent nothing. *)
Lemma wp_usbcan_round b :
  hostside_ok b →
  wp usbcan_round b
    (λ e b', hostside_ok b' ∧ keeps_bus b b' ∧
       match e with
       | R_next => ∃ n, (uc_calls b ≤ n < uc_calls b')%nat ∧ 0 < (usb_read_bulk_out n).1
       | R_break => host_status b' = 0 ∨ hw_refused
       | R_return => usb_send_busy b ≠ 0 ∨ usb_refused
       end) no_shut.
Proof.
  intros Hok. unfold usbcan_round. hstep. eapply wp_conseq; [by apply wp_tx_host_frame|]. intros [hs|] b1 (Hok1 & K1 & Hr).
  2: { hstep. by split; [|split; [|right]]. }
  destruct Hr as [Es Hs]. hstep. eapply wp_conseq; [by apply wp_tx_echo|]. intros [] b2 (Hok2 & K2 & Hr); cbn [negb].
  2: { hstep. split; [done|]. split; [by etrans|]. by rewrite <- (kb_busy _ _ K1). }
  hstep. eapply wp_conseq; [by apply wp_read_host_frame|]. intros more b3 (Hok3 & K3 & Hc & Hm). hstep.
  split; [done|]. split; [by etrans; [|etrans]|]. destruct more; [|by left]. exists (uc_calls b2). split; [|done].
  pose proof (kb_calls _ _ K1). pose proof (kb_calls _ _ K2). lia.
Qed.

(** The loop ends with everything in order, if it ends. *)
Lemma wp_usbcan_loop fuel b :
  hostside_ok b → usbcan_loop fuel b ≠ Diverge →
  wp (usbcan_loop fuel) b
    (λ e b', hostside_ok b' ∧ keeps_bus b b' ∧
       match e with
       | R_next => False
       | R_break => host_status b' = 0 ∨ hw_refused
       | R_return => usb_send_busy b ≠ 0 ∨ usb_refused
       end) no_shut.
Proof.
  revert b. induction fuel as [|fuel IH]; intros b Hok Hd; [done|]. cbn [usbcan_loop] in *.
  destruct (wp_returns _ _ _ (wp_usbcan_round b Hok)) as (e & b1 & Hr & Hok1 & K1 & He). rewrite (bind_ret_eq _ _ _ _ _ Hr) in Hd.
  hstep. eapply wp_of_eq; [exact Hr|]. destruct e; [|by hstep..].
  eapply wp_conseq; [by apply IH|]. intros e b2 (Hok2 & K2 & He2). split; [done|]. split; [by etrans|].
  by rewrite <- (kb_busy _ _ K1).
Qed.

(** The host sends nothing from call [N] of the controller on. *)
Definition host_quiet (N : nat) : Prop := ∀ n, (N ≤ n)%nat → (usb_read_bulk_out n).1 ≤ 0.
Lemma usbcan_loop_ends N fuel b :
  hostside_ok b → host_quiet N → (N - uc_calls b < fuel)%nat → usbcan_loop fuel b ≠ Diverge.
Proof.
  revert b. induction fuel as [|fuel IH]; intros b Hok Hq Hf; [lia|]. cbn [usbcan_loop].
  destruct (wp_returns _ _ _ (wp_usbcan_round b Hok)) as (e & b1 & Hr & Hok1 & K1 & He). rewrite (bind_ret_eq _ _ _ _ _ Hr).
  destruct e; [|done..]. destruct He as (n & Hn & Hp).
  assert (n < N)%nat by (destruct (Nat.lt_ge_cases n N); [done|]; pose proof (Hq n ltac:(done)); lia). apply IH; [done..|lia].
Qed.

Lemma bridge_inv_split b :
  bridge_inv b ↔ hostside_ok b ∧ ∃ L, bus_ring b L ∧ (L ≠ [] → uc_wake b ≠ 0 ∨ usb_send_busy b ≠ 0).
Proof.
  split.
  - intros [H1 H2 H3 H4 (L & H5 & H6 & H7)]. split; [by split|]. by exists L.
  - intros [[H1 H2 H3 H4] (L & [H5 H6] & H7)]. split; try done. by exists L.
Qed.

(** After the ring has been drained. *)
Record drained (b b1 : usbcan_data) : Prop := {
  dr_host : hostside_ok b1;
  dr_notify : notify_local b1 = notify_local b;
  dr_calls : (uc_calls b ≤ uc_calls b1)%nat;
  dr_ring : ∃ L, bus_ring b1 L ∧ (usb_send_busy b1 = 0 ∧ L = [] ∨ usb_send_busy b1 = 1 ∧ usb_refused) }.
Definition usbcan_rest (patience : nat) : BR unit :=
  let! e := usbcan_loop patience in
  match e with
  | R_break =>
      let! b := get in
      when nz (notify_local b) && negb (nz (usb_send_busy b)) do br_lift canserial_notify_tx
  | _ => mret tt
  end.
Lemma usbcan_task_drains patience irqs b :
  bridge_inv b → uc_wake b ≠ 0 → ∃ b1, usbcan_task patience irqs b = usbcan_rest patience b1 ∧ drained b b1.
Proof.
  intros (Hok & L & Hb & _)%bridge_inv_split Hw. unfold usbcan_task. erewrite bind_ret_eq by done. rewrite (nz_true _ Hw). cbn [negb].
  erewrite bind_ret_eq by done. set (b0 := upd uc_wake _ _).
  assert (hostside_ok b0) as Hok0 by (destruct Hok as [? ? ? [? ? ? ?]]; split; [done..|]; by split).
  destruct (wp_returns _ _ _ (wp_drain_hw_queue irqs b0 L Hb)) as ([] & b1 & Hr & K1 & N1 & C1 & HL). rewrite (bind_ret_eq _ _ _ _ _ Hr).
  exists b1. split; [done|]. split; [by eapply keeps_host_ok|done..].
Qed.

(** It leaves frames of the bus in the ring or a host frame unserved only if a controller
    refused something, and otherwise tells the local node that it can send again. *)
Lemma wp_usbcan_rest patience b b1 :
  drained b b1 → usbcan_loop patience b1 ≠ Diverge →
  wp (usbcan_rest patience) b1
    (λ _ b', bridge_inv b' ∧
       (¬ usb_refused → ¬ hw_refused →
        bus_ring b' [] ∧ host_status b' = 0 ∧ (notify_local b ≠ 0 → can_tx_wake (uc_can b') = 1))) no_shut.
Proof.
  intros [Hok1 N1 C1 (L1 & Hb1 & Hs1)] Hd. unfold usbcan_rest. hstep. eapply wp_conseq; [by apply wp_usbcan_loop|].
  intros e b2 (Hok2 & K2 & He).
  assert (bridge_inv b2 ∧ (¬ usb_refused → bus_ring b2 [] ∧ usb_send_busy b1 = 0)) as [Hinv2 Hend].
  { split; [apply bridge_inv_split; split; [done|]; exists L1; split; [by eapply keeps_bus_ring|]|].
    - intros HL. right. rewrite (kb_busy _ _ K2). destruct Hs1 as [[_ ?]|[-> _]]; done.
    - intros Hr. destruct Hs1 as [[H0 ->]|[_ ?]]; [|done]. split; [by eapply keeps_bus_ring|done]. }
  destruct e; [done| |].
  - do 2 hstep. destruct (nz (notify_local b2) && negb (nz (usb_send_busy b2))) eqn:Hn; cbn [whenM].
    + unfold canserial_notify_tx. apply wp_br_lift. hstep. apply wp_can_lift. unfold wp at 1, sched_wake_tasks, modify at 1. hstep.
      apply bridge_inv_split in Hinv2 as [[H1 H2 H3 [H4 H5 H6 H7]] H8]. split.
      * apply bridge_inv_split. split; [|exact H8]. split; [by destruct H1|done..|by split].
      * intros Hu Hh. destruct (Hend Hu) as [[? ?] _]. split; [by split|]. split; [by destruct He|done].
    + hstep. split; [done|]. intros Hu Hh. destruct (Hend Hu) as [? H0]. split; [done|]. split; [by destruct He|].
      intros Hl. rewrite (kb_notify _ _ K2), N1, (kb_busy _ _ K2), H0 in Hn. by rewrite (nz_true _ Hl) in Hn.
  - hstep. split; [done|]. intros Hu _. destruct (Hend Hu) as [_ H0]. by destruct He.
Qed.

Lemma usbcan_task_inv patience irqs b b' : bridge_inv b → usbcan_task patience irqs b = Ret tt b' → bridge_inv b'.
Proof.
  intros Hi Hr. destruct (Z.eq_dec (uc_wake b) 0) as [Hz|Hz].
  - unfold usbcan_task in Hr. erewrite bind_ret_eq in Hr by done. rewrite Hz in Hr. by injection Hr as <-.
  - destruct (usbcan_task_drains patience irqs b Hi Hz) as (b1 & E & Hd). rewrite E in Hr.
    assert (usbcan_loop patience b1 ≠ Diverge) as Hl by (intros H; unfold usbcan_rest, mbind, M_bind in Hr; by rewrite H in Hr).
    pose proof (wp_usbcan_rest _ _ _ Hd Hl) as Hw. unfold wp in Hw. rewrite Hr in Hw. apply Hw.
Qed.

(** ** Control requests *)

(** What the forwarding of frames depends on. *)
Definition path (b : usbcan_data) :=
  (host_frame b, host_status b, uc_hw b, uc_local b, uc_read b, uc_usb b, (uc_queue b, uc_pull_pos b, uc_push_pos b, uc_bus b, usb_send_busy b)).
Lemma bridge_inv_path b b' :
  path b' = path b → (can_rx_ok (uc_can b) → can_rx_ok (uc_can b')) → (uc_wake b ≠ 0 → uc_wake b' ≠ 0) → bridge_inv b → bridge_inv b'.
Proof.
  unfold path. intros [= E1 E2 E3 E4 E5 E6 E7 E8 E9 E10 E11] Hc Hw [H1 H2 H3 [H4 H5 H6 H7] (L & H8 & H9 & H10)].
  split; [auto|by rewrite E1..|split; by rewrite ?E1, ?E2, ?E3, ?E4, ?E5, ?E6|].
  exists L. rewrite E6, E7, E8, E9, E10, E11. split; [done|]. split; [done|]. intros HL. destruct (H10 HL); auto.
Qed.

Definition var_size (v : gs_var) : nat :=
  match v with V_host_config => 4 | V_device_bittiming => 20 | V_device_mode => 8 end.
Definition vars_ok (b : usbcan_data) : Prop := ∀ v, length (gs_var_get v b) = var_size v.
Lemma vars_ok_same b b' : (∀ v, gs_var_get v b' = gs_var_get v b) → vars_ok b → vars_ok b'.
Proof. intros E Hv v. by rewrite E. Qed.
(** [n] bytes can be taken from a place. *)
Definition avail (d : gs_data) (n : Z) : Prop :=
  match d with
  | GD_null => n ≤ 0
  | GD_bytes l => n ≤ Z.of_nat (length l)
  | GD_var v off => Z.of_nat off + n ≤ Z.of_nat (var_size v)
  end.
Record xfer_ok (d : gs_data) (size flags : Z) : Prop := {
  xo_size : 0 ≤ size ≤ 255;
  xo_flags : 0 ≤ flags < 256;
  xo_avail : avail d size;
  xo_read : has flags UX_READ = true → 0 < size ∧ ∃ v off, d = GD_var v off }.
(** The variables have their sizes, and a transfer that waits stays inside its data. *)
Definition ep0_ok (b : usbcan_data) : Prop :=
  vars_ok b ∧ (gs_xfer_flags b ≠ 0 → xfer_ok (gs_xfer_data b) (gs_xfer_size b) (gs_xfer_flags b)).

(** What control requests need of the board: a read stores no more than it was asked for, and
    the strings fit a descriptor. *)
Class LawfulEp0 : Prop := {
  read_ep0_bound n size : 0 ≤ size → Z.of_nat (length (usb_read_ep0 n size).2) ≤ size;
  setup_length n req : usb_read_ep0_setup n = Some req → 0 ≤ cr_wLength req;
  serialid_small : (length usbserial_get_serialid < 256)%nat;
  product_small : (length USB_STR_PRODUCT ≤ 126)%nat;
  serial_small : (length USB_STR_SERIAL ≤ 126)%nat }.
Context `{LE : !LawfulEp0}.

Lemma wp_gs_call b (Q : nat → usbcan_data → Prop) E :
  Q (uc_calls b) (b <| uc_calls := S (uc_calls b) |>) → wp gs_call b Q E.
Proof. intros HQ. unfold gs_call. do 4 hstep. exact HQ. Qed.

Lemma gs_var_set_get v w l b : gs_var_get w (gs_var_set v l b) = l ∧ v = w ∨ gs_var_get w (gs_var_set v l b) = gs_var_get w b.
Proof. destruct v, w; cbn; auto. Qed.

Lemma wp_gs_store v off bytes b :
  bridge_inv b → vars_ok b → (off + length bytes ≤ var_size v)%nat →
  wp (gs_store_at (GD_var v off) bytes) b (λ _ b', bridge_inv b' ∧ vars_ok b') no_shut.
Proof.
  intros Hi Hv Hl. destruct bytes as [|x bytes]; unfold gs_store_at; [by hstep|].
  do 3 hstep. eapply wp_deref_eq; [unfold put_at; by rewrite (proj2 (Z.ltb_ge _ _)) by (rewrite Hv; lia)|].
  set (l := take _ _ ++ _). hstep. split; [by destruct v; apply (bridge_inv_path b)|].
  intros w. destruct (gs_var_set_get v w l b) as [[-> <-]| ->]; [|apply Hv]. unfold l. rewrite !length_app, length_take, length_drop, Hv. lia.
Qed.

Lemma wp_gs_data_at d n b :
  vars_ok b → avail d n → wp (gs_data_at d n) b (λ data b', b' = b) no_shut.
Proof.
  intros Hv Ha. unfold gs_data_at. destruct (Z.leb_spec n 0); [by hstep|]. do 2 hstep.
  destruct d as [|l|v off]; cbn in Ha; [lia|..]; (eapply wp_deref_eq; [unfold bytes_at; rewrite (proj2 (Z.ltb_ge _ _)); [done|]|done]); [lia|rewrite Hv; lia].
Qed.

Lemma wp_gs_emit e b :
  bridge_inv b → vars_ok b → wp (gs_emit e) b (λ _ b', bridge_inv b' ∧ vars_ok b') no_shut.
Proof. intros Hi Hv. unfold gs_emit. hstep. split; [by apply (bridge_inv_path b)|by apply (vars_ok_same b); [intros []|]]. Qed.

Lemma wp_gs_xfer_packet d size flags b :
  let xs := if USB_CDC_EP0_SIZE <? size then USB_CDC_EP0_SIZE else size in
  bridge_inv b → vars_ok b → xfer_ok d size flags →
  wp (gs_xfer_packet d xs flags) b (λ _ b', bridge_inv b' ∧ vars_ok b') no_shut.
Proof.
  intros xs Hi Hv [Hs Hf Ha Hr]. assert (0 ≤ xs ≤ size) as Hxs by (unfold xs, USB_CDC_EP0_SIZE; destruct (Z.ltb_spec 16 size); lia).
  assert (bridge_inv (b <| uc_calls := S (uc_calls b) |>)) as Hi' by by apply (bridge_inv_path b).
  assert (vars_ok (b <| uc_calls := S (uc_calls b) |>)) as Hv' by (by apply (vars_ok_same b); [intros []|]).
  unfold gs_xfer_packet. destruct (has flags UX_READ).
  - destruct (Hr eq_refl) as (Hs0 & v & off & ->). hstep. apply wp_gs_call. pose proof (read_ep0_bound (uc_calls b) xs ltac:(lia)) as Hb.
    destruct (usb_read_ep0 (uc_calls b) xs) as [ret bytes]. cbn in Hb, Ha. hstep.
    eapply wp_conseq; [apply wp_gs_store; [done..|lia]|]. intros [] b' H. by hstep.
  - hstep. eapply wp_conseq; [apply wp_gs_data_at; [done|]|]; [destruct d; cbn in *; lia|]. intros data _ ->.
    hstep. apply wp_gs_call. cbv zeta. hstep. apply wp_when; intros _; [|by hstep]. eapply wp_conseq; [by apply wp_gs_emit|]. intros [] b' H. by hstep.
Qed.

Lemma ep0_ok_idle b : vars_ok b → gs_xfer_flags b = 0 → ep0_ok b.
Proof. intros Hv Hf. by split. Qed.
Lemma wp_gs_do_stall b : bridge_inv b → vars_ok b → wp gs_do_stall b (λ _ b', bridge_inv b' ∧ ep0_ok b') no_shut.
Proof.
  intros Hi Hv. unfold gs_do_stall. hstep. eapply wp_conseq; [by apply wp_gs_emit|]. intros [] b1 [Hi1 Hv1]. hstep.
  split; [by apply (bridge_inv_path b1)|]. apply ep0_ok_idle; [by apply (vars_ok_same b1); [intros []|]|done].
Qed.

Lemma wp_gs_xfer_loop fuel d size flags b :
  bridge_inv b → vars_ok b → xfer_ok d size flags → size + 16 ≤ 16 * Z.of_nat fuel →
  wp (gs_xfer_loop fuel d size flags) b (λ _ b', bridge_inv b' ∧ ep0_ok b') no_shut.
Proof.
  revert d size flags b. induction fuel as [|fuel IH]; intros d size flags b Hi Hv Hx Hf; [destruct Hx; lia|]. cbn [gs_xfer_loop]. hstep.
  eapply wp_conseq; [by apply wp_gs_xfer_packet|]. intros ret b1 [Hi1 Hv1]. cbv beta.
  set (xs := if USB_CDC_EP0_SIZE <? size then USB_CDC_EP0_SIZE else size). destruct Hx as [Hs Hfl Ha Hr].
  assert (0 ≤ xs ≤ size ∧ (xs = 16 ∧ 16 < size ∨ xs = size ∧ size ≤ 16)) as [Hxs Hxc] by (unfold xs, USB_CDC_EP0_SIZE; destruct (Z.ltb_spec 16 size); lia).
  assert (avail (gs_data_next d xs) (size - xs)) as Ha' by (destruct d; cbn in *; rewrite ?length_drop; lia).
  destruct (Z.eqb_spec ret xs) as [_|Hne].
  - cbv zeta. destruct (nz (size - xs)) eqn:Hz; unfold nz in Hz; bool_to_prop; cbn [negb].
    + apply IH; [done..| |lia]. split; [lia|done..|]. intros H. destruct (Hr H) as (_ & v & off & ->). split; [lia|by eexists _, _].
    + destruct (has flags UX_READ) eqn:Hrd.
      { destruct (Hr eq_refl) as [Hs0 _]. apply IH; [done..| |lia]. split; [lia|done|done|done]. }
      destruct (Z.eqb_spec xs USB_CDC_EP0_SIZE) as [E|_]; [destruct (has flags UX_SEND_ZLP)|]; cbn [andb].
      { unfold USB_CDC_EP0_SIZE in E. apply IH; [done..| |lia]. split; [lia|done|done|]. intros H. congruence. }
      all: do 2 hstep; unfold gs_usb_notify_ep0; hstep; apply wp_br_lift, wp_can_lift; unfold wp at 1, sched_wake_tasks, modify at 1; hstep.
      all: split; [apply (bridge_inv_path b1); [done|by intros [? ?]|done|done]|apply ep0_ok_idle; [by apply (vars_ok_same b1); [intros []|]|done]].
  - destruct (ret =? -1); [|by apply wp_gs_do_stall]. hstep. split; [by apply (bridge_inv_path b1)|]. split; [by apply (vars_ok_same b1); [intros []|]|].
    intros _. cbn. rewrite !u8_small by lia. by split.
Qed.
Lemma wp_gs_do_xfer d size flags b :
  bridge_inv b → vars_ok b → xfer_ok d size flags → wp (gs_do_xfer d size flags) b (λ _ b', bridge_inv b' ∧ ep0_ok b') no_shut.
Proof. intros Hi Hv Hx. apply wp_gs_xfer_loop; [done..|]. destruct Hx. lia. Qed.

Lemma string_descriptor_small chars : (length chars ≤ 126)%nat → (length (string_descriptor chars) < 256)%nat.
Proof.
  intros Hc. pose proof (string_descriptor_length chars Hc) as H.
  assert (u8 (2 + 2 * Z.of_nat (length chars)) = Z.of_nat (length (string_descriptor chars))) as E by (by injection H).
  pose proof (u8_range (2 + 2 * Z.of_nat (length chars))). lia.
Qed.
Lemma usb_descriptors_small : Forall (λ d, length (ds_desc d) < 256)%nat usb_descriptors.
Proof.
  pose proof product_small. pose proof serial_small. unfold usb_descriptors. apply Forall_app. split.
  - repeat (apply Forall_cons; split); [..|done]; cbn [ds_desc]; first [by apply Nat.ltb_lt|apply string_descriptor_small; first [done|by apply Nat.leb_le]].
  - destruct CONFIG_USB_SERIAL_NUMBER_CHIPID; [done|]. apply Forall_singleton. by apply string_descriptor_small.
Qed.
Lemma gs_find_descriptor_small req l : gs_find_descriptor req = Some l → (length l < 256)%nat.
Proof.
  unfold gs_find_descriptor. generalize usb_descriptors_small. generalize usb_descriptors as ds.
  assert (∀ ds acc, (∀ l, acc = Some l → (length l < 256)%nat) → Forall (λ d, length (ds_desc d) < 256)%nat ds →
    foldl (λ found d, if (ds_wValue d =? cr_wValue req) && (ds_wIndex d =? cr_wIndex req) then Some (ds_desc d) else found) acc ds = Some l →
    (length l < 256)%nat) as H; [|intros ds Hd; by apply H].
  induction ds as [|d ds IH]; intros acc Ha Hd Hf; cbn in Hf; [by apply Ha|]. apply Forall_cons in Hd as [Hd Hds].
  eapply IH; [|done|exact Hf]. intros l'. destruct (_ && _); [|apply Ha]. by intros [= <-].
Qed.

Lemma wp_gs_get_descriptor req b :
  bridge_inv b → vars_ok b → 0 ≤ cr_wLength req →
  wp (gs_req_get_descriptor req) b (λ _ b', bridge_inv b' ∧ ep0_ok b') no_shut.
Proof.
  intros Hi Hv Hw. unfold gs_req_get_descriptor. destruct (negb _); [by apply wp_gs_do_stall|]. cbv zeta.
  match goal with |- wp (match ?o with Some _ => _ | None => _ end) _ _ _ => set (found := o) end.
  assert (match found with Some (l, size, flags) => size = Z.of_nat (length l) ∧ (length l < 256)%nat ∧ (flags = 2 ∨ flags = 4) | None => True end) as Hfound.
  { unfold found. destruct (_ && _).
    - rewrite serialid_length. split; [done|]. split; [apply serialid_small|by left].
    - destruct (gs_find_descriptor req) as [l|] eqn:Hf; [|done]. cbn. split; [done|]. split; [by eapply gs_find_descriptor_small|].
      destruct NEED_PROGMEM; [by right|by left]. }
  destruct found as [[[l size] flags]|]; [|by apply wp_gs_do_stall]. destruct Hfound as (-> & Hl & Hfl).
  destruct (Z.ltb_spec (cr_wLength req) (Z.of_nat (length l))); [|destruct (Z.ltb_spec (Z.of_nat (length l)) (cr_wLength req))];
    apply wp_gs_do_xfer; try done; split; cbn [avail]; try lia; destruct Hfl as [-> | ->]; cbn; (lia || done).
Qed.

Lemma wp_gs_send_var v size b :
  bridge_inv b → vars_ok b → 0 < size ≤ Z.of_nat (var_size v) → wp (gs_do_xfer (GD_var v 0) size UX_READ) b (λ _ b', bridge_inv b' ∧ ep0_ok b') no_shut.
Proof.
  intros Hi Hv Hs. assert (var_size v ≤ 20)%nat by (destruct v; cbn; lia).
  apply wp_gs_do_xfer; [done..|]. split; [lia|done|cbn; lia|]. intros _. split; [lia|by eexists _, _].
Qed.
Lemma wp_gs_send_bytes l size b :
  bridge_inv b → vars_ok b → size = Z.of_nat (length l) → 0 ≤ size ≤ 255 → wp (gs_do_xfer (GD_bytes l) size UX_SEND) b (λ _ b', bridge_inv b' ∧ ep0_ok b') no_shut.
Proof. intros Hi Hv -> Hs. apply wp_gs_do_xfer; [done..|]. split; [lia|done|cbn; lia|done]. Qed.
Lemma wp_gs_notify b (Q : unit → usbcan_data → Prop) :
  bridge_inv b → vars_ok b → (∀ b', bridge_inv b' → vars_ok b' → Q tt b') → wp gs_canbus_notify_tx b Q no_shut.
Proof.
  intros Hi Hv HQ. apply wp_gs_notify_tx. apply HQ; [|by apply (vars_ok_same b); [intros []|]].
  apply (bridge_inv_path b); [done|apply can_woken_ok|done|done].
Qed.

Lemma wp_gs_state_ready b :
  bridge_inv b → vars_ok b → gs_xfer_flags b = 0 → wp gs_state_ready b (λ _ b', bridge_inv b' ∧ ep0_ok b') no_shut.
Proof.
  intros Hi Hv Hf. unfold gs_state_ready. hstep. apply wp_gs_call. set (b1 := upd uc_calls _ _).
  assert (bridge_inv b1) as Hi1 by (by apply (bridge_inv_path b)). assert (vars_ok b1) as Hv1 by (by apply (vars_ok_same b); [intros []|]).
  destruct (usb_read_ep0_setup (uc_calls b)) as [req|] eqn:Hset; [|hstep; split; [done|by apply ep0_ok_idle]]. cbv zeta.
  pose proof (setup_length _ _ Hset) as Hw. destruct (_ =? USB_TYPE_STANDARD); [|destruct (_ =? USB_TYPE_VENDOR)].
  - destruct (_ =? USB_REQ_GET_DESCRIPTOR); [by apply wp_gs_get_descriptor|].
    destruct (_ =? USB_REQ_SET_ADDRESS); [|destruct (_ =? USB_REQ_SET_CONFIGURATION); [|by apply wp_gs_do_stall]].
    + unfold gs_req_set_address. destruct (_ || _); [by apply wp_gs_do_stall|]. unfold gs_emit. hstep.
      split; [by apply (bridge_inv_path b1)|]. apply ep0_ok_idle; [by apply (vars_ok_same b1); [intros []|]|done].
    + unfold gs_req_set_configuration. destruct (_ || _); [by apply wp_gs_do_stall|]. hstep.
      eapply wp_conseq; [by apply wp_gs_emit|]. intros [] b2 [Hi2 Hv2]. hstep. apply wp_gs_notify; [done..|]. intros b3 Hi3 Hv3.
      hstep. apply wp_gs_notify; [done..|]. intros b4 Hi4 Hv4. apply wp_gs_do_xfer; [done..|]. by split.
  - destruct (_ =? GS_USB_BREQ_HOST_FORMAT); [by apply wp_gs_send_var|].
    destruct (_ =? GS_USB_BREQ_DEVICE_CONFIG); [by apply wp_gs_send_bytes|].
    destruct (_ =? GS_USB_BREQ_BT_CONST); [by apply wp_gs_send_bytes|].
    destruct (_ =? GS_USB_BREQ_BITTIMING); [by apply wp_gs_send_var|].
    destruct (_ =? GS_USB_BREQ_MODE); [by apply wp_gs_send_var|]. by apply wp_gs_do_stall.
  - by apply wp_gs_do_stall.
Qed.

Lemma wp_gs_ep0_task b : bridge_inv b → ep0_ok b → wp gs_usb_ep0_task b (λ _ b', bridge_inv b' ∧ ep0_ok b') no_shut.
Proof.
  intros Hi [Hv Hx]. unfold gs_usb_ep0_task. do 2 hstep. destruct (negb _); [by hstep|]. do 2 hstep. set (b1 := upd gs_ep0_wake _ _).
  assert (bridge_inv b1) as Hi1 by (by apply (bridge_inv_path b)). assert (vars_ok b1) as Hv1 by (by apply (vars_ok_same b); [intros []|]).
  destruct (nz (gs_xfer_flags b)) eqn:Hz; unfold nz in Hz; bool_to_prop; [apply wp_gs_do_xfer; [done..|by apply Hx]|by apply wp_gs_state_ready].
Qed.

(** ** The bridge as a whole *)

(** A frame of the local node is sent or refused, and then the node will be notified. *)
Lemma wp_gs_canbus_send msg b :
  bridge_inv b →
  wp (gs_canbus_send msg) b
    (λ ret b', bridge_inv b' ∧
       (ret = -1 ∧ notify_local b' = 1 ∧ uc_usb b' = uc_usb b ∨
        ret = cm_dlc msg ∧ notify_local b' = 0 ∧ uc_usb b' = uc_usb b ++ [(From_local, frame_of_msg msg)])) no_shut.
Proof.
  intros Hi. unfold gs_canbus_send. do 3 hstep. destruct (nz (usb_send_busy b)).
  { hstep. change (-1 <? 0) with true. cbv iota. do 3 hstep. split; [by apply (bridge_inv_path b)|by left]. }
  unfold send_frame. apply wp_call_bulk_in. cbv zeta.
  destruct (usb_send_bulk_in (uc_calls b) (frame_of_msg msg) <? 0).
  { do 3 hstep. split; [by apply (bridge_inv_path b)|by left]. }
  do 3 hstep. split; [|by right].
  destruct Hi as [H1 H2 H3 [H4 H5 H6 H7] (L & H8 & H9 & H10)]. split; [done..|split; [done..|]|exists L; split; [done|split; [|done]]];
    cbn -[packets_of]; by rewrite packets_of_app, packets_of_other, app_nil_r.
Qed.

(** What can happen to the bridge: a frame from the bus, an interrupt of a controller, the two
    tasks, the local node sending, getting an id or running its own code, and a shutdown. *)
Inductive bridge_step : usbcan_data → usbcan_data → Prop :=
| BS_frame msg b b' : gs_canbus_process_data msg b = Ret tt b' → bridge_step b b'
| BS_notify b b' : gs_canbus_notify_tx b = Ret tt b' → bridge_step b b'
| BS_notify_ep0 b b' : gs_usb_notify_ep0 b = Ret tt b' → bridge_step b b'
| BS_task patience irqs b b' : usbcan_task patience irqs b = Ret tt b' → bridge_step b b'
| BS_ep0 b b' : gs_usb_ep0_task b = Ret tt b' → bridge_step b b'
| BS_send msg ret b b' : gs_canbus_send msg b = Ret ret b' → bridge_step b b'
| BS_filter id b b' : gs_canbus_set_filter id b = Ret tt b' → bridge_step b b'
| BS_local c b : can_rx_ok c → bridge_step b (b <| uc_can := c |>)
| BS_shutdown b b' : gs_usb_shutdown b = Ret tt b' → bridge_step b b'.

(** The control side, which forwarding leaves alone. *)
Definition ctrl (b : usbcan_data) :=
  (host_config b, device_bittiming b, device_mode b, gs_xfer_data b, gs_xfer_size b, gs_xfer_flags b).
Lemma ep0_ok_ctrl b b' : ctrl b' = ctrl b → ep0_ok b → ep0_ok b'.
Proof.
  unfold ctrl. intros [= E1 E2 E3 E4 E5 E6] [Hv Hx]. split; [|by rewrite E4, E5, E6].
  intros []; cbn; [rewrite E1|rewrite E2|rewrite E3]; [apply (Hv V_host_config)|apply (Hv V_device_bittiming)|apply (Hv V_device_mode)].
Qed.

(** Programs that leave it alone. *)
Definition keeps_ctrl {A} (m : BR A) : Prop := ∀ b a b', m b = Ret a b' → ctrl b' = ctrl b.
Lemma kc_ret {A} (a : A) : keeps_ctrl (mret a).
Proof. by intros b a' b' [= _ <-]. Qed.
Lemma kc_get : keeps_ctrl get.
Proof. by intros b a' b' [= _ <-]. Qed.
Lemma kc_diverge {A} : keeps_ctrl (diverge (A := A)).
Proof. done. Qed.
Lemma kc_modify f : (∀ b, ctrl (f b) = ctrl b) → keeps_ctrl (modify f).
Proof. intros Hf b a b' [= _ <-]. apply Hf. Qed.
Lemma kc_deref {A} (o : option A) : keeps_ctrl (deref o).
Proof. intros b a b' H. by apply deref_inv in H as [_ ->]. Qed.
Lemma kc_lift {A} (m : CAN A) : keeps_ctrl (br_lift m).
Proof. intros b a b' H. unfold br_lift in H. destruct (m (uc_can b)); [|done..]. by injection H as _ <-. Qed.
Lemma kc_bind {A C} (m : BR A) (k : A → BR C) : keeps_ctrl m → (∀ a, keeps_ctrl (k a)) → keeps_ctrl (mbind k m).
Proof. intros Hm Hk b a b' H. apply bind_inv in H as (x & b1 & H1 & H2). by rewrite (Hk _ _ _ _ H2), (Hm _ _ _ H1). Qed.
Lemma kc_when c (m : BR unit) : keeps_ctrl m → keeps_ctrl (whenM c m).
Proof. intros Hm. destruct c; [done|apply kc_ret]. Qed.
Create HintDb kc.
#[local] Hint Resolve kc_ret kc_get kc_diverge kc_deref kc_lift kc_when : kc.
Ltac kc :=
  repeat (cbv zeta; intros;
    lazymatch goal with
    | |- keeps_ctrl (mbind _ _) => apply kc_bind
    | |- keeps_ctrl (modify _) => apply kc_modify; reflexivity
    | |- keeps_ctrl (if ?c then _ else _) => destruct c
    | |- keeps_ctrl (match ?x with _ => _ end) => destruct x
    | |- _ => solve [eauto with kc]
    end).

Lemma kc_process_data msg : keeps_ctrl (gs_canbus_process_data msg).
Proof. unfold gs_canbus_process_data, gs_usb_notify_bulk_out, gs_canbus_notify_tx. kc. Qed.
Lemma kc_bus_frames frames : keeps_ctrl (bus_frames frames).
Proof. induction frames; cbn [bus_frames]; [apply kc_ret|]. apply kc_bind; [apply kc_process_data|done]. Qed.
#[local] Hint Resolve kc_process_data kc_bus_frames : kc.
Lemma kc_call_bulk_in o p : keeps_ctrl (call_bulk_in o p).
Proof. unfold call_bulk_in. kc. Qed.
Lemma kc_call_canhw msg : keeps_ctrl (call_canhw msg).
Proof. unfold call_canhw. kc. Qed.
#[local] Hint Resolve kc_call_bulk_in kc_call_canhw : kc.
Lemma kc_drain_loop fuel irqs pull_pos : keeps_ctrl (drain_loop fuel irqs pull_pos).
Proof. revert irqs pull_pos. induction fuel; cbn [drain_loop]; unfold send_frame; kc. Qed.
Lemma kc_round : keeps_ctrl usbcan_round.
Proof. unfold usbcan_round, tx_host_frame, tx_echo, read_host_frame. kc. Qed.
#[local] Hint Resolve kc_drain_loop kc_round : kc.
Lemma kc_loop fuel : keeps_ctrl (usbcan_loop fuel).
Proof. induction fuel; cbn [usbcan_loop]; kc. Qed.
#[local] Hint Resolve kc_loop : kc.
Lemma kc_task patience irqs : keeps_ctrl (usbcan_task patience irqs).
Proof. unfold usbcan_task, drain_hw_queue. kc. Qed.
Lemma kc_send msg : keeps_ctrl (gs_canbus_send msg).
Proof. unfold gs_canbus_send, send_frame. kc. Qed.
Lemma kc_shutdown : keeps_ctrl gs_usb_shutdown.
Proof. unfold gs_usb_shutdown, gs_usb_notify_bulk_in, gs_usb_notify_bulk_out, gs_canbus_notify_tx, gs_usb_notify_ep0. kc. Qed.

Lemma wp_elim {A} (m : BR A) b a b' Q E : wp m b Q E → m b = Ret a b' → Q a b'.
Proof. unfold wp. intros H Hr. by rewrite Hr in H. Qed.
Lemma bridge_step_inv b b' : bridge_step b b' → bridge_inv b → ep0_ok b → bridge_inv b' ∧ ep0_ok b'.
Proof.
  intros Hs Hi He. destruct Hs as [msg b b' H|b b' H|b b' H|patience irqs b b' H|b b' H|msg ret b b' H|id b b' H|c b H|b b' H].
  - split; [|eapply ep0_ok_ctrl; [by eapply kc_process_data|done]].
    pose proof Hi as (Hok & L & Hb & Hw)%bridge_inv_split. pose proof (wp_elim _ _ _ _ _ _ (wp_gs_process_data msg b L Hb) H) as (K & _ & _ & _ & _ & Hc).
    case_bool_decide; [by subst|]. destruct Hc as [Hb' Hw']. apply bridge_inv_split. split; [by eapply keeps_host_ok|].
    eexists. split; [exact Hb'|]. intros _. left. by rewrite Hw'.
  - injection H as <-. split; [apply (bridge_inv_path b); [done|by intros [? ?]|done..]|by apply (ep0_ok_ctrl b)].
  - injection H as <-. split; [apply (bridge_inv_path b); [done|by intros [? ?]|done..]|by apply (ep0_ok_ctrl b)].
  - split; [by eapply usbcan_task_inv|eapply ep0_ok_ctrl; [by eapply kc_task|done]].
  - exact (wp_elim _ _ _ _ _ _ (wp_gs_ep0_task b Hi He) H).
  - split; [by apply (wp_elim _ _ _ _ _ _ (wp_gs_canbus_send msg b Hi) H)|eapply ep0_ok_ctrl; [by eapply kc_send|done]].
  - injection H as <-. split; [by apply (bridge_inv_path b)|by apply (ep0_ok_ctrl b)].
  - split; [by apply (bridge_inv_path b)|by apply (ep0_ok_ctrl b)].
  - split; [|eapply ep0_ok_ctrl; [by eapply kc_shutdown|done]]. injection H as <-. apply (bridge_inv_path b); [done|by intros [? ?]|done..].
Qed.
Lemma bridge_reachable_inv b b' : rtc bridge_step b b' → bridge_inv b → ep0_ok b → bridge_inv b' ∧ ep0_ok b'.
Proof. induction 1 as [|b1 b2 b3 Hs _ IH]; [done|]. intros Hi He. destruct (bridge_step_inv _ _ Hs Hi He). by apply IH. Qed.

(** The bridge after a reset. *)
Record bridge_init (b : usbcan_data) : Prop := {
  in_can : can_rx_ok (uc_can b);
  in_frame : host_frame b = replicate 64 0;
  in_status : host_status b = 0;
  in_pos : uc_pull_pos b = 0 ∧ uc_push_pos b = 0 ∧ length (uc_queue b) = 32%nat;
  in_vars : vars_ok b ∧ gs_xfer_flags b = 0;
  in_logs : uc_hw b = [] ∧ uc_local b = [] ∧ uc_usb b = [] ∧ uc_read b = [] ∧ uc_bus b = [] }.
Lemma bridge_init_inv b : bridge_init b → bridge_inv b ∧ ep0_ok b.
Proof.
  intros [Hc Hf Hs (Hp1 & Hp2 & Hq) [Hv Hx] (L1 & L2 & L3 & L4 & L5)]. split; [|by apply ep0_ok_idle].
  split; [done|by rewrite Hf, length_replicate|rewrite Hf; apply Forall_replicate; unfold is_byte; lia| |].
  - rewrite Hs. split; rewrite ?L1, ?L2, ?L3, ?L4; [by left|done..].
  - exists []. rewrite Hp1, Hp2, L3, L5. split; [|done]. by split; [done|lia|done|cbn; lia|].
Qed.

(** C26: The USB to CAN bridge after any sequence of bus frames, controller interrupts, runs of
    its two tasks with frames arriving while it drains its ring, sends, id changes and code of
    the local node, and shutdowns: the frames given to the bus, the frames given to the local
    node and the echoes sent to the host are exactly the host frames read so far that are
    routed there, each once and in order, up to the current frame while its status still owes
    it; the bus frames sent to the host followed by those in the ring are exactly the ones
    accepted, in order; and while frames wait in the ring the task is awake or USB was busy. *)
Theorem bridge_delivers init b :
  bridge_init init → rtc bridge_step init b →
  uc_hw b ++ if_has (host_status b) HS_TX_HW (msg_of_frame (host_frame b)) = addressed HS_TX_HW (uc_read b) ∧
  uc_local b ++ if_has (host_status b) HS_TX_LOCAL (msg_of_frame (host_frame b)) = addressed HS_TX_LOCAL (uc_read b) ∧
  packets_of Echo (uc_usb b) ++ if_has (host_status b) HS_TX_ECHO (take GS_HOST_FRAME_SIZE (host_frame b)) = echoes (uc_read b) ∧
  ∃ waiting, ring (uc_queue b) (uc_pull_pos b) (uc_push_pos b) waiting ∧
    packets_of From_bus (uc_usb b) ++ (frame_of_msg <$> waiting) = frame_of_msg <$> uc_bus b ∧
    (waiting ≠ [] → uc_wake b ≠ 0 ∨ usb_send_busy b ≠ 0).
Proof.
  intros Hi Hr. destruct (bridge_init_inv _ Hi) as [H1 H2]. destruct (bridge_reachable_inv _ _ Hr H1 H2) as [[_ _ _ [_ Hw Hl He] Hb] _]. done.
Qed.

(** In every reachable state a run of [usbcan_task] ends once the host has sent what it sends,
    and if the controllers take what they are given it leaves nothing behind: every accepted
    bus frame, every echo and every host frame has been delivered, and a local node that was
    refused before is told to send again. *)
Theorem usbcan_task_completes N init b patience irqs :
  bridge_init init → rtc bridge_step init b → host_quiet N → (N - uc_calls b < patience)%nat →
  ∃ b', usbcan_task patience irqs b = Ret tt b' ∧
    (uc_wake b ≠ 0 → ¬ usb_refused → ¬ hw_refused →
     packets_of From_bus (uc_usb b') = frame_of_msg <$> uc_bus b' ∧ uc_hw b' = addressed HS_TX_HW (uc_read b') ∧
     uc_local b' = addressed HS_TX_LOCAL (uc_read b') ∧ packets_of Echo (uc_usb b') = echoes (uc_read b') ∧
     (notify_local b ≠ 0 → can_tx_wake (uc_can b') = 1)).
Proof.
  intros Hi Hr Hq Hp. destruct (bridge_init_inv _ Hi) as [H1 H2]. destruct (bridge_reachable_inv _ _ Hr H1 H2) as [Hinv _].
  destruct (Z.eq_dec (uc_wake b) 0) as [Hz|Hz].
  { exists b. split; [unfold usbcan_task; erewrite bind_ret_eq by done; by rewrite Hz|done]. }
  destruct (usbcan_task_drains patience irqs b Hinv Hz) as (b1 & E & Hd). rewrite E.
  assert (usbcan_loop patience b1 ≠ Diverge) as Hl by (pose proof (dr_calls _ _ Hd); eapply (usbcan_loop_ends N); [apply Hd|done|lia]).
  destruct (wp_returns _ _ _ (wp_usbcan_rest _ _ _ Hd Hl)) as ([] & b' & Hret & Hinv' & Hend). exists b'. split; [exact Hret|].
  intros _ Hu Hh. destruct (Hend Hu Hh) as ([_ Hb] & Hs & Hn). destruct Hinv' as [_ _ _ [_ Hw' Hl' He'] _]. rewrite Hs in *.
  rewrite if_has_no, app_nil_r in Hw' by done. rewrite if_has_no, app_nil_r in Hl' by done. rewrite if_has_no, app_nil_r in He' by done.
  rewrite app_nil_r in Hb. done.
Qed.

(** In every reachable state a run of [usb_ep0_task] of the bridge answers or stalls whatever
    request or waiting transfer there is within its fuel, keeps the sizes of the three
    variables, and leaves at most a transfer that stays inside its data. *)
Theorem gs_ep0_safe init b :
  bridge_init init → rtc bridge_step init b →
  ∃ b', gs_usb_ep0_task b = Ret tt b' ∧ vars_ok b' ∧
    (gs_xfer_flags b' ≠ 0 → 0 ≤ gs_xfer_size b' ≤ 255 ∧ avail (gs_xfer_data b') (gs_xfer_size b')).
Proof.
  intros Hi Hr. destruct (bridge_init_inv _ Hi) as [H1 H2]. destruct (bridge_reachable_inv _ _ Hr H1 H2) as [Hinv He].
  destruct (wp_returns _ _ _ (wp_gs_ep0_task b Hinv He)) as ([] & b' & Hret & _ & Hv & Hx). exists b'. split; [done|]. split; [done|].
  intros Hf. destruct (Hx Hf). done.
Qed.

(** A bus frame that is sent to the host and comes back in the same format is the same frame.
    *)
Theorem bridge_frame_roundtrip msg :
  0 ≤ cm_id msg < 4294967296 → 0 ≤ cm_dlc msg < 256 → length (cm_data msg) = 8%nat →
  msg_of_frame (frame_of_msg msg) = msg ∧ length (frame_of_msg msg) = GS_HOST_FRAME_SIZE.
Proof.
  intros Hid Hdlc Hl. destruct msg as [id dlc data]. cbn [cm_id cm_dlc cm_data] in *. do 8 (destruct data as [|? data]; [done|]). destruct data; [|done].
  unfold msg_of_frame, frame_of_msg, gs_can_id, gs_can_dlc, gs_frame_data. cbn -[Z.add Z.mul Z.modulo Z.div u8]. split; [|done].
  rewrite u8_small by lia. f_equal. rewrite !Z.div_div by lia. Z.to_euclidean_division_equations; lia.
Qed.
End spec.
