(* ===== verification/BusSpec.v ===== *)
(** * The buses: the software SPI bus is a shift register, and the SDIO buffer

    Bytes go out most significant bit first, one clock pulse per bit, and the byte that
    comes in has the levels sampled on MISO in the same order; in modes 0 and 2 data is
    written before the first clock edge and sampled before the second, in modes 1 and 3
    written after the first and sampled after the second.

    An SDIO block written to the buffer reads back; the range checks and the timeout are
    computed in 32 bits and fail for values near the top of the range. *)

From S2P Require Import Prelude State Runtime Bench Sched Vlq Basecmd Buses.

Section spi.
Context {B : Board}.

(** The events of one bit, in order. *)
Definition bit_wave (o : spi_software) (level : bool) : list event :=
  let data := EvWrite (ss_mosi o) (b2z level) in
  let clock := EvToggle (ss_sclk o) in
  if has (ss_mode o) 1 then [clock; data; clock] else [data; clock; clock].

(** The bits of a byte below bit [n], most significant first. *)
Definition bits_below (n : nat) (b : Z) : list bool :=
  (λ i, Z.testbit b (Z.of_nat i)) <$> rev (seq 0 n).

Definition byte_wave (o : spi_software) (b : Z) : list event := bits_below 8 b ≫= bit_wave o.

(** The number with the given bits, most significant first, below the bits of [acc]. *)
Definition shift_in (acc : Z) (levels : list bool) : Z :=
  fold_left (λ v l, 2 * v + b2z l) levels acc.

(** What MISO reads during [n] reads from read [r] on. *)
Definition miso_levels (o : spi_software) (r n : nat) : list bool := pin_at (ss_miso o) <$> seq r n.

Lemma bits_below_S n b : bits_below (S n) b = Z.testbit b (Z.of_nat n) :: bits_below n b.
Proof. unfold bits_below. by rewrite seq_S, rev_app_distr. Qed.

(** The top bit that goes out and the byte that is left. *)
Lemma byte_top_bit b : 0 ≤ b < 256 → nz (Z.land b 0x80) = Z.testbit b 7.
Proof.
  intros Hb. pose proof (all_below (λ b, Bool.eqb (nz (Z.land b 0x80)) (Z.testbit b 7)) 256 b
    ltac:(by vm_compute) ltac:(lia)) as E. by apply Bool.eqb_prop in E.
Qed.

Lemma land_byte x : 0 ≤ x < 256 → 0 ≤ Z.land x 0x80 < 256 ∧ 0 ≤ Z.land x 0xf0 < 256.
Proof.
  intros Hx. pose proof (all_below (λ x, (0 <=? Z.land x 0x80) && (Z.land x 0x80 <? 256) &&
    (0 <=? Z.land x 0xf0) && (Z.land x 0xf0 <? 256)) 256 x ltac:(by vm_compute) ltac:(lia)) as E.
  cbn beta in E. bool_to_prop. lia.
Qed.

Lemma shift_low v l : 0 ≤ v < 128 → Z.lor (u8 (Z.shiftl v 1)) (b2z l) = 2 * v + b2z l.
Proof.
  intros Hv. pose proof (all_below (λ v, (Z.lor (u8 (Z.shiftl v 1)) 0 =? 2 * v) &&
      (Z.lor (u8 (Z.shiftl v 1)) 1 =? 2 * v + 1)) 128 v ltac:(by vm_compute) ltac:(lia)) as E.
  cbn beta in E. bool_to_prop. destruct l; cbn [b2z]; lia.
Qed.

(** The state after some bits went out. *)
Definition clocked (s : mcu) (n : nat) (l : list event) (s' : mcu) : Prop :=
  s' = s <| hw_reads := (hw_reads s + n)%nat |> <| trace := rev l ++ trace s |>.

Lemma clocked_trans s n l s1 n1 l1 s2 :
  clocked s n l s1 → clocked s1 n1 l1 s2 → clocked s (n + n1) (l ++ l1) s2.
Proof.
  unfold clocked. intros -> ->. cbn. rewrite rev_app_distr, <- app_assoc, Nat.add_assoc. done.
Qed.

(** [n] bits of [outbuf] are still to go; they are its top ones. *)
Lemma soft_bits_ok n o b outbuf inbuf s :
  (n ≤ 8)%nat → 0 ≤ outbuf < 256 → 0 ≤ inbuf < 2 ^ (8 - Z.of_nat n) →
  (∀ i, 0 ≤ i < Z.of_nat n → Z.testbit outbuf (8 - Z.of_nat n + i) = Z.testbit b i) →
  ∃ s', soft_bits n o outbuf inbuf s =
          Ret (shift_in inbuf (miso_levels o (hw_reads s) n)) s' ∧
    clocked s n (bits_below n b ≫= bit_wave o) s'.
Proof.
  revert outbuf inbuf s. induction n as [|n IH]; intros outbuf inbuf s Hn Ho Hi Hb.
  { exists s. split; [done|]. unfold clocked. cbn. rewrite Nat.add_0_r. by destruct s. }
  set (s1 := s <| hw_reads := S (hw_reads s) |>
               <| trace := rev (bit_wave o (Z.testbit b (Z.of_nat n))) ++ trace s |>).
  set (l := pin_at (ss_miso o) (hw_reads s)).
  assert (soft_bits (S n) o outbuf inbuf s =
    soft_bits n o (u8 (Z.shiftl outbuf 1)) (Z.lor (u8 (Z.shiftl inbuf 1)) (b2z l)) s1) as ->.
  { assert (nz (conv (gt_out_val gpio_h) (Z.land outbuf 0x80)) = Z.testbit b (Z.of_nat n)) as Ht.
    { rewrite conv_byte by apply (land_byte outbuf), Ho. rewrite byte_top_bit, <- Hb by lia. f_equal. lia. }
    cbn [soft_bits]. unfold gpio_out_toggle, gpio_out_write. rewrite Ht. unfold s1, bit_wave.
    by destruct (has (ss_mode o) 1). }
  assert (2 ^ (8 - Z.of_nat n) = 2 * 2 ^ (8 - Z.of_nat (S n))) as Hp.
  { rewrite <- Z.pow_succ_r by lia. f_equal. lia. }
  assert (2 ^ (8 - Z.of_nat (S n)) ≤ 2 ^ 7) as Hle by (apply Z.pow_le_mono_r; lia).
  rewrite shift_low by lia.
  destruct (IH (u8 (Z.shiftl outbuf 1)) (2 * inbuf + b2z l) s1) as (s' & -> & Hc).
  - lia.
  - apply u8_range.
  - unfold b2z. destruct l; lia.
  - intros i Hr. unfold u8. rewrite Z.mod_pow2_bits_low by lia. rewrite Z.shiftl_spec by lia.
    rewrite <- Hb by lia. f_equal. lia.
  - exists s'. split; [done|]. rewrite bits_below_S. cbn [mbind list_bind].
    apply (clocked_trans s 1 _ s1 n _ s'); [|done]. unfold clocked, s1. by rewrite Nat.add_1_r.
Qed.

(** The byte shifted in while [8] bits go out from read [r] on. *)
Definition byte_in (o : spi_software) (r : nat) : Z := shift_in 0 (miso_levels o r 8).
Fixpoint bytes_in (o : spi_software) (r n : nat) : list Z :=
  match n with
  | O => []
  | S n => byte_in o r :: bytes_in o (r + 8) n
  end.

Lemma soft_bytes_ok o receive data s :
  Forall is_byte data →
  ∃ s', soft_bytes o receive data s =
          Ret (if (receive : bool) then bytes_in o (hw_reads s) (length data) else data) s' ∧
    clocked s (8 * length data) (data ≫= byte_wave o) s'.
Proof.
  intros Hd. revert s. induction Hd as [|b data Hb Hd IH]; intros s.
  { exists s. split; [by destruct receive|]. unfold clocked. cbn. rewrite Nat.add_0_r. by destruct s. }
  destruct (soft_bits_ok 8 o b b 0 s) as (s1 & E1 & C1); [lia|done|done|done|].
  destruct (IH s1) as (s2 & E2 & C2). exists s2. cbn [soft_bytes].
  rewrite (bind_ret_eq _ _ _ _ _ E1), (bind_ret_eq _ _ _ _ _ E2). split.
  - rewrite C1. cbn [hw_reads upd]. by destruct receive.
  - replace (8 * length (b :: data))%nat with (8 + 8 * length data)%nat by (cbn; lia).
    cbn [mbind list_bind]. by apply (clocked_trans s 8 _ s1).
Qed.

(** A software SPI transfer drives, for every byte, the eight data bits most significant first
    with the clock edges of the configured mode and nothing else, and receives the bytes formed
    by the sampled input bits. *)
Theorem spi_software_shifts ss o receive data s :
  objects s !! ss = Some (O_spi_software o) → Forall is_byte data →
  ∃ s', spi_software_transfer ss receive data s =
          Ret (if (receive : bool) then bytes_in o (hw_reads s) (length data) else data) s' ∧
    hw_reads s' = (hw_reads s + 8 * length data)%nat ∧ objects s' = objects s ∧
    trace s' = rev (data ≫= byte_wave o) ++ trace s.
Proof.
  intros Hss Hd. unfold spi_software_transfer.
  assert (load (T := spi_software) ss s = Ret o s) as Hl by by apply load_eq.
  rewrite (bind_ret_eq _ _ _ _ _ Hl).
  destruct (soft_bytes_ok o receive data s Hd) as (s' & -> & ->). eexists. by split_and!.
Qed.

(** ** Transfers through a device *)

(** The device has no bus, a hardware bus, or a software bus that exists. *)
Definition spi_ok (s : mcu) (spi : addr) : Prop :=
  ∃ o, objects s !! spi = Some (O_spidev o) ∧
    (has (sp_flags o) (Z.lor SF_SOFTWARE SF_HARDWARE) = true →
     if CONFIG_HAVE_GPIO_BITBANGING && has (sp_flags o) SF_SOFTWARE
     then ∃ ss so, sp_bus o = SB_soft ss ∧ objects s !! ss = Some (O_spi_software so)
     else ∃ bus mode rate, sp_bus o = SB_hard bus mode rate).

(** Only pins and clocks were touched. *)
Definition bus_frame (s s' : mcu) (k : nat) : Prop :=
  ∃ n l, (n ≤ k)%nat ∧ s' = s <| hw_reads := (hw_reads s + n)%nat |> <| trace := l ++ trace s |> ∧
    Forall (λ e, match e with EvSend _ _ => False | _ => True end) l.

Lemma bus_frame_refl s k : bus_frame s s k.
Proof. exists 0%nat, []. rewrite Nat.add_0_r. destruct s. split; [lia|]. by split. Qed.
Lemma bus_frame_trans s1 s2 s3 k k' : bus_frame s1 s2 k → bus_frame s2 s3 k' → bus_frame s1 s3 (k + k').
Proof.
  intros (n & l & Hn & -> & Hl) (n' & l' & Hn' & -> & Hl'). exists (n + n')%nat, (l' ++ l).
  split; [lia|]. cbn. rewrite Nat.add_assoc, app_assoc. split; [done|]. by apply Forall_app_2.
Qed.
Lemma bus_frame_emit s e k :
  match e with EvSend _ _ => False | _ => True end → bus_frame s (s <| trace := e :: trace s |>) k.
Proof.
  intros He. exists 0%nat, [e]. rewrite Nat.add_0_r. split; [lia|]. split; [by destruct s|]. by apply Forall_singleton.
Qed.

Lemma shift_in_bound acc l : 0 ≤ acc → acc ≤ shift_in acc l < (acc + 1) * 2 ^ Z.of_nat (length l).
Proof.
  revert acc. induction l as [|b l IH]; intros acc Ha; [cbn; lia|]. unfold shift_in. cbn [fold_left].
  specialize (IH (2 * acc + b2z b)). unfold shift_in in IH. cbn [length]. rewrite Nat2Z.inj_succ, Z.pow_succ_r by lia.
  assert (0 ≤ b2z b ≤ 1) by (destruct b; cbn; lia). pose proof (Z.pow_pos_nonneg 2 (Z.of_nat (length l))). nia.
Qed.
Lemma bytes_in_ok o r n : length (bytes_in o r n) = n ∧ Forall is_byte (bytes_in o r n).
Proof.
  revert r. induction n as [|n IH]; intros r; [by split|]. cbn. destruct (IH (r + 8)%nat) as [Hl Hb].
  split; [by rewrite Hl|]. apply Forall_cons. split; [|done]. unfold is_byte, byte_in.
  pose proof (shift_in_bound 0 (miso_levels o r 8) ltac:(lia)) as H.
  replace (length (miso_levels o r 8)) with 8%nat in H by (unfold miso_levels; by rewrite length_fmap, length_seq).
  cbn in H. lia.
Qed.
Lemma spi_exchange_ok bus data s :
  ∃ r s', spi_exchange bus data s = Ret r s' ∧ length r = length data ∧ Forall is_byte r ∧
    bus_frame s s' (length data).
Proof.
  revert s. induction data as [|b data IH]; intros s; [exists [], s; split_and!; try done; apply bus_frame_refl|].
  cbn [spi_exchange]. destruct (IH (s <| hw_reads := S (hw_reads s) |>)) as (r & s' & E & Hl & Hr & Hf).
  exists (u8 (spi_reply_at bus (hw_reads s) b) :: r), s'. split.
  { unfold next_read, gets, modify, mbind, M_bind in *. cbn in *. by rewrite E. }
  split; [cbn; congruence|]. split; [apply Forall_cons; split; [apply u8_range|done]|].
  apply (bus_frame_trans s (s <| hw_reads := S (hw_reads s) |>) s' 1 (length data)); [|done]. exists 1%nat, []. split; [lia|].
  split; [destruct s; cbn; by rewrite Nat.add_1_r|done].
Qed.

Lemma byte_wave_quiet o b : Forall (λ e, match e with EvSend _ _ => False | _ => True end) (byte_wave o b).
Proof.
  unfold byte_wave. induction (bits_below 8 b) as [|l bs IH]; cbn [mbind list_bind]; [done|].
  apply Forall_app_2; [|done]. unfold bit_wave. destruct (has _ _); by repeat constructor.
Qed.
Lemma waves_quiet o data :
  Forall (λ e, match e with EvSend _ _ => False | _ => True end) (rev (data ≫= byte_wave o)).
Proof.
  apply Forall_rev. induction data as [|b data IH]; [done|]. cbn [mbind list_bind]. apply Forall_app_2; [|done].
  apply byte_wave_quiet.
Qed.

(** The transfer of the software or hardware bus. *)
Lemma bus_transfer_ok s o receive data :
  Forall is_byte data →
  (if CONFIG_HAVE_GPIO_BITBANGING && has (sp_flags o) SF_SOFTWARE
   then ∃ ss so, sp_bus o = SB_soft ss ∧ objects s !! ss = Some (O_spi_software so)
   else ∃ bus mode rate, sp_bus o = SB_hard bus mode rate) →
  ∃ r s', (if CONFIG_HAVE_GPIO_BITBANGING && has (sp_flags o) SF_SOFTWARE then
             let! ss := deref (match sp_bus o with SB_soft ss => Some ss | _ => None end) in
             spi_software_transfer ss receive data
           else spi_transfer (sp_bus o) receive data) s = Ret r s' ∧
    length r = length data ∧ Forall is_byte r ∧ bus_frame s s' (8 * length data).
Proof.
  intros Hd Hbus. destruct (CONFIG_HAVE_GPIO_BITBANGING && has (sp_flags o) SF_SOFTWARE).
  - destruct Hbus as (ss & so & -> & Hss). destruct (soft_bytes_ok so receive data s Hd) as (s' & E & Hc).
    exists (if receive then bytes_in so (hw_reads s) (length data) else data), s'. split.
    { change ((spi_software_transfer ss receive data) s = Ret (if receive then bytes_in so (hw_reads s) (length data) else data) s').
      unfold spi_software_transfer. rewrite (bind_ret_eq _ _ s so s); [done|by apply load_eq]. }
    destruct (bytes_in_ok so (hw_reads s) (length data)) as [Hl Hb].
    split; [by destruct receive|]. split; [by destruct receive|].
    exists (8 * length data)%nat, (rev (data ≫= byte_wave so)). split; [lia|]. split; [done|]. apply waves_quiet.
  - destruct Hbus as (bus & mode & rate & ->). unfold spi_transfer.
    destruct (spi_exchange_ok bus data (s <| trace := EvSpiTransfer bus data :: trace s |>)) as (r & s' & E & Hl & Hr & Hf).
    exists (if receive then r else data), s'. split.
    { unfold emit, modify, mbind, M_bind. cbn. by rewrite E. }
    split; [by destruct receive|]. split; [by destruct receive|].
    destruct (bus_frame_trans s (s <| trace := EvSpiTransfer bus data :: trace s |>) s' 0 (length data)) as (n & l & Hn & Hs & Hq);
      [by apply bus_frame_emit|done|].
    exists n, l. split; [lia|]. by split.
Qed.

(** [spidev_transfer] of a whole buffer. *)
Lemma wp_spidev_transfer s spi receive data E :
  spi_ok s spi → Forall is_byte data → (length data < 256)%nat →
  wp (spidev_transfer spi receive (Z.of_nat (length data)) data) s
    (λ r s', length r = length data ∧ Forall is_byte r ∧ bus_frame s s' (8 * length data)) E.
Proof.
  intros (o & Ho & Hbus) Hd Hl. unfold spidev_transfer. rewrite u8_small by lia. cbv zeta. wstep.
  eapply wp_load; [exact Ho|]. destruct (has (sp_flags o) (Z.lor SF_SOFTWARE SF_HARDWARE)) eqn:Hfl; cbn [negb].
  2:{ wstep. split_and!; try done. apply bus_frame_refl. }
  rewrite Z.ltb_irrefl, Nat2Z.id, drop_ge, firstn_all by lia. specialize (Hbus eq_refl).
  wstep. eapply (wp_conseq _ _ (λ _ s', ∃ k, bus_frame s s' k ∧ k = 0%nat)).
  { destruct (CONFIG_HAVE_GPIO_BITBANGING && has (sp_flags o) SF_SOFTWARE).
    - destruct Hbus as (ss & so & -> & Hss). do 2 wstep. unfold spi_software_prepare. wstep. eapply wp_load; [exact Hss|].
      wstep. exists 0%nat. split; [by apply bus_frame_emit|done].
    - destruct Hbus as (bus & mode & rate & ->). apply wp_modify. exists 0%nat. split; [by apply bus_frame_emit|done]. }
  cbn beta. intros _ s1 (k & Hs1 & ->). wstep.
  eapply (wp_conseq _ _ (λ _ s', bus_frame s s' 0)).
  { apply wp_when; [|done]. intros _. apply wp_modify.
    apply (bus_frame_trans s s1 _ 0 0); [done|by apply bus_frame_emit]. }
  cbn beta. intros _ s2 Hs2. wstep.
  destruct (bus_transfer_ok s2 o receive data Hd) as (r & s3 & Er & Hrl & Hr & Hs3).
  { destruct Hs2 as (n & l & _ & -> & _). exact Hbus. }
  eapply wp_of_eq; [exact Er|]. wstep.
  eapply (wp_conseq _ _ (λ _ s', bus_frame s s' (8 * length data))).
  { apply wp_when; intros _.
    - apply wp_modify. replace (8 * length data)%nat with (0 + 8 * length data + 0)%nat by lia.
      apply (bus_frame_trans s s3 _ _ 0); [by apply (bus_frame_trans s s2)|by apply bus_frame_emit].
    - by apply (bus_frame_trans s s2 s3 0). }
  cbn beta. intros _ s4 Hs4. wstep. rewrite app_nil_r. by split_and!.
Qed.
End spi.

(** ** SDIO *)

Section sdio.
Context {B : Board}.

(** The object with its buffer of the declared size. *)
Definition sdio_at (s : mcu) (oid : Z) (a : addr) (o : sdiodev_s) : Prop :=
  oid_lookup (u8 oid) command_config_sdio_t s = Ret a s ∧
  objects s !! a = Some (O_sdiodev o) ∧ length (sx_data_buffer o) = Z.to_nat 4096.

Lemma splice_length l off (data : list Z) :
  (off + length data ≤ length l)%nat → length (take off l ++ data ++ drop (off + length data) l) = length l.
Proof. intros H. rewrite !length_app, length_take, length_drop. lia. Qed.
Lemma splice_read l off (data : list Z) :
  (off ≤ length l)%nat → take (length data) (drop off (take off l ++ data ++ drop (off + length data) l)) = data.
Proof. intros H. rewrite drop_app_length' by (rewrite length_take; lia). by rewrite take_app_length. Qed.

(** [oid_lookup] depends on the table of ids only. *)
Lemma oid_lookup_base oid type s s' a :
  base s' = base s → oid_lookup oid type s = Ret a s → oid_lookup oid type s' = Ret a s'.
Proof.
  intros Hb. unfold oid_lookup, mbind, M_bind, get, deref. rewrite Hb. destruct (_ <=? _); [done|].
  destruct (option_bind _ _ _ _); [|done]. case_decide; unfold mret, M_ret; [congruence|done].
Qed.

Definition spliced (l : list Z) (off : Z) (data : list Z) : list Z :=
  take (Z.to_nat off) l ++ data ++ drop (Z.to_nat off + length data) l.

(** A block written to the SDIO buffer inside its bounds reads back unchanged, and the size of
    the buffer stays. *)
Theorem sdio_buffer_roundtrip s oid a o off len p data :
  sdio_at s oid a o → 0 ≤ off → 0 < len < 256 → off + len ≤ 4096 →
  read_ptr p (Z.to_nat len) s = Ret data s → length data = Z.to_nat len →
  let buf := spliced (sx_data_buffer o) off data in
  let s1 := upd objects <[a := O_sdiodev (o <| sx_data_buffer := buf |>)]> s in
  command_sdio_write_data_buffer [oid; off; len; p] s = Ret tt s1 ∧
  sdio_at s1 oid a (o <| sx_data_buffer := buf |>) ∧
  command_sdio_read_data_buffer [oid; off; len] s1 =
    command_sendf "sdio_read_data_buffer_response oid=%c data=%*s" [A_int (u8 oid); A_buf data] s1.
Proof.
  intros (Hoid & Ha & Hl) Ho Hn Hs Hp Hd buf s1.
  assert (load (T := sdiodev_s) a s = Ret o s) as L by by apply load_eq.
  assert (load (T := sdiodev_s) a s1 = Ret (o <| sx_data_buffer := buf |>) s1) as L1
    by (apply load_eq, lookup_insert_eq).
  assert (oid_lookup (u8 oid) command_config_sdio_t s1 = Ret a s1) as Hoid1.
  { by apply (oid_lookup_base _ _ s). }
  assert (length buf = Z.to_nat 4096) as Hb.
  { rewrite <- Hl. apply splice_length. lia. }
  assert (u32 (off + len) = off + len ∧ u32 off = off ∧ u8 len = len) as (E1 & E2 & E3).
  { rewrite !u32_small, u8_small; lia. }
  split; [|split; [split_and!; [done|apply lookup_insert_eq|done]|]].
  - unfold command_sdio_write_data_buffer, sdiodev_oid_lookup.
    do 4 (erewrite (bind_ret_eq (arg _ _)) by reflexivity). cbv zeta. rewrite E2, E3, E1.
    rewrite (bind_ret_eq _ _ _ _ _ Hoid), (bind_ret_eq _ _ _ _ _ L), (proj2 (Z.leb_le _ _)) by lia. cbn [whenM].
    rewrite (bind_ret_eq _ _ _ _ _ Hp). unfold write_array.
    rewrite (proj2 (Nat.eqb_neq _ 0)), (proj2 (Z.leb_le 0 off)), (proj2 (Z.leb_le _ _)) by lia. done.
  - unfold command_sdio_read_data_buffer, sdiodev_oid_lookup.
    do 3 (erewrite (bind_ret_eq (arg _ _)) by reflexivity). cbv zeta. rewrite E2, E3, E1.
    rewrite (bind_ret_eq _ _ _ _ _ Hoid1), (bind_ret_eq _ _ _ _ _ L1), (proj2 (Z.ltb_ge _ _)) by lia.
    unfold read_array. cbn [sx_data_buffer upd]. rewrite Hb.
    rewrite (proj2 (Nat.eqb_neq _ 0)), (proj2 (Z.leb_le 0 off)), (proj2 (Z.leb_le _ _)) by lia. cbn [andb].
    rewrite (bind_ret_eq (mret _) _ _ _ _ eq_refl), <- Hd. unfold buf, spliced. by rewrite splice_read by lia.
Qed.

(** sdio_write_data_buffer computes offset + length in 32 bits: for an offset so large that the
    sum wraps, the range check passes and the copy goes outside the 4096 byte buffer. *)
Theorem sdio_write_bound_wraps s oid a o off len p data :
  sdio_at s oid a o → 0 ≤ off < 2 ^ 32 → 0 < len < 256 → 2 ^ 32 ≤ off + len →
  read_ptr p (Z.to_nat len) s = Ret data s → length data = Z.to_nat len →
  command_sdio_write_data_buffer [oid; off; len; p] s = Undef.
Proof.
  intros (Hoid & Ha & Hl) Ho Hn Hs Hp Hd.
  assert (load (T := sdiodev_s) a s = Ret o s) as L by by apply load_eq.
  assert (u32 (off + len) = off + len - 2 ^ 32) as E1.
  { unfold u32. symmetry. apply (Z.mod_unique_pos _ _ 1); lia. }
  unfold command_sdio_write_data_buffer, sdiodev_oid_lookup.
  do 4 (erewrite (bind_ret_eq (arg _ _)) by reflexivity). cbv zeta.
  rewrite (u32_small off), (u8_small len), E1 by lia.
  rewrite (bind_ret_eq _ _ _ _ _ Hoid), (bind_ret_eq _ _ _ _ _ L), (proj2 (Z.leb_le _ _)) by lia. cbn [whenM].
  rewrite (bind_ret_eq _ _ _ _ _ Hp). unfold write_array.
  rewrite (proj2 (Nat.eqb_neq _ 0)), (proj2 (Z.leb_gt (off + _) _)) by lia. by rewrite andb_false_r.
Qed.

(** The timeout of a transfer is half a second of bus clocks exactly for speeds up to 8589934
    Hz; above, the product wraps in 32 bits. *)
Theorem sdio_timeout_exact speed :
  0 ≤ speed < 2 ^ 32 → sdio_timeout speed = speed / 2 ↔ speed ≤ 8589934.
Proof.
  intros Hs. unfold sdio_timeout, TIMEOUT_MSEC, u32. split.
  - intros E. destruct (Z.le_gt_cases speed 8589934) as [|Hgt]; [done|]. exfalso.
    pose proof (Z.mod_pos_bound (500 * speed) (2 ^ 32) ltac:(lia)) as Hb.
    pose proof (Z.div_mod (500 * speed) (2 ^ 32) ltac:(lia)) as Hdm.
    pose proof (Z.mul_div_le ((500 * speed) mod 2 ^ 32) 1000 ltac:(lia)).
    pose proof (Z.div_mod speed 2 ltac:(lia)). pose proof (Z.mod_pos_bound speed 2 ltac:(lia)). lia.
  - intros Hle. rewrite Z.mod_small by lia. replace 1000 with (500 * 2) by lia.
    by rewrite <- Z.div_div, (Z.mul_comm 500), Z.div_mul by lia.
Qed.
End sdio.
