(* ===== verification/WireSpec.v ===== *)
(** * What tmcuart.c and neopixel.c put on their wires *)

From S2P Require Import Prelude State Runtime Bench Sched Basecmd Trsync Tmcuart Outputs.

(** * The TMC UART puts the bits of its buffer on the line

    [tmcuart_send_event] only runs where the line changes: between two events the line
    has the level of every bit in the slots that pass. *)

Section tmcuart_spec.
Context {B : Board}.

(** Bit [j] of a buffer. *)
Definition bit_of (data : list Z) (j : Z) : Z :=
  Z.land (Z.shiftr (default 0 (data !! Z.to_nat (Z.shiftr j 3))) (Z.land j 7)) 1.

(** The line is at bit [pos] of the buffer up to slot [pos + k]. *)
Definition holds_level (t : tmcuart_s) (line pos k : Z) : Prop :=
  ∀ j, pos < j < pos + k → bit_of (tu_data t) j = line.

Lemma data_bit_eq data j s :
  0 ≤ j < 8 * Z.of_nat (length data) → data_bit data j s = Ret (bit_of data j) s.
Proof.
  intros Hj. unfold data_bit, bit_of.
  destruct (lookup_lt_is_Some_2 data (Z.to_nat (Z.shiftr j 3))) as [d Hd].
  { rewrite Z.shiftr_div_pow2 by lia. change (2 ^ 3) with 8.
    enough (j / 8 < Z.of_nat (length data)) by lia. apply Z.div_lt_upper_bound; lia. }
  rewrite Hd. done.
Qed.

(** The loop finds the next slot whose bit differs, after [k] slots. *)
Lemma next_toggle_ok fuel t line pos next s :
  0 ≤ pos < tu_write_count t → tu_write_count t ≤ 80 → length (tu_data t) = 10%nat →
  tu_write_count t - pos ≤ Z.of_nat fuel → 0 ≤ next < 2 ^ 32 →
  ∃ k r, next_toggle fuel t line pos next s =
           Ret (r, u32 (next + (k - 1) * tu_bit_time t)) s ∧ 1 ≤ k ≤ tu_write_count t - pos ∧
    holds_level t line pos k ∧
    (r = None ∧ k = tu_write_count t - pos ∨
     r = Some (pos + k) ∧ k < tu_write_count t - pos ∧ bit_of (tu_data t) (pos + k) ≠ line).
Proof.
  revert pos next. induction fuel as [|fuel IH]; intros pos next Hpos H80 Hl Hf Hn; [lia|].
  cbn [next_toggle]. rewrite u8_small by lia.
  destruct (Z.leb_spec (tu_write_count t) (pos + 1)) as [Hend|Hmore].
  { exists 1, None. split_and!; [|lia|lia| |left; split; [done|lia]].
    - replace (next + (1 - 1) * tu_bit_time t) with next by lia. by rewrite u32_small.
    - intros j Hj. lia. }
  rewrite (bind_ret_eq _ _ _ _ _ (data_bit_eq (tu_data t) (pos + 1) s ltac:(lia))).
  destruct (Z.eqb_spec (bit_of (tu_data t) (pos + 1)) line) as [Heq|Hne]; cbn [negb].
  - destruct (IH (pos + 1) (u32 (next + tu_bit_time t))) as (k & r & E & Hk & Hh & Hr);
      [lia|done|done|lia|apply u32_range|].
    exists (k + 1), r. rewrite E. split_and!; [|lia|lia| |].
    + f_equal. rewrite u32_add_l. f_equal. f_equal. lia.
    + intros j Hj. destruct (decide (j = pos + 1)) as [->|]; [done|]. apply Hh. lia.
    + replace (pos + (k + 1)) with (pos + 1 + k) by lia. destruct Hr as [[-> ->]|(-> & ? & ?)];
        [left; split; [done|lia]|right; split; [done|]; split; [lia|done]].
  - exists 1, (Some (pos + 1)). split_and!; [|lia|lia| |right; split; [done|split; [lia|done]]].
    + replace (next + (1 - 1) * tu_bit_time t) with next by lia. by rewrite u32_small.
    + intros j Hj. lia.
Qed.

(** A transmission is under way: the next toggle brings the line to bit [pos]. *)
Record sending (t : tmcuart_s) : Prop := {
  sd_pos : 0 ≤ tu_pos t < tu_write_count t;
  sd_count : tu_write_count t ≤ 80;
  sd_len : length (tu_data t) = 10%nat;
  sd_bit_time : 0 ≤ tu_bit_time t < 2 ^ 32;
  sd_level : bit_of (tu_data t) (tu_pos t) ≠ Z.land (tu_flags t) TU_LINE_HIGH;
}.

Lemma land_1_range x : Z.land x 1 = 0 ∨ Z.land x 1 = 1.
Proof. rewrite land_1. pose proof (Z.mod_pos_bound x 2). lia. Qed.
Lemma land_1_toggle x : Z.land (Z.lxor x 1) 1 = 1 - Z.land x 1.
Proof.
  rewrite !land_1, !Zmod_odd, <- !Z.bit0_odd, Z.lxor_spec. by destruct (Z.testbit x 0).
Qed.

(** A send event of the bit-banged UART toggles the line once and sleeps for exactly the run of
    bits that have the new level, k bit times for k equal bits, so the waveform carries the
    message; the last run hands over to the finish event. *)
Theorem tmcuart_send_event_levels s a t x :
  objects s !! a = Some (O_tmcuart t) → timers (sched s) !! T_member a M_time = Some x → sending t →
  wp (tmcuart_send_event (T_member a M_time)) s
    (λ r s', r = SF_RESCHEDULE ∧ ∃ t' x' k,
       objects s' !! a = Some (O_tmcuart t') ∧ timers (sched s') !! T_member a M_time = Some x' ∧
       trace s' = EvToggle (tu_tx_pin t) :: trace s ∧ 1 ≤ k ≤ tu_write_count t - tu_pos t ∧
       (∀ j, tu_pos t ≤ j < tu_pos t + k →
          bit_of (tu_data t) j = Z.land (tu_flags t') TU_LINE_HIGH) ∧
       t_waketime x' = u32 (t_waketime x + k * tu_bit_time t) ∧ tu_data t' = tu_data t ∧
       (t_func x' = F_tmcuart_send_finish_event ∧ k = tu_write_count t - tu_pos t ∨
        t_func x' = t_func x ∧ tu_pos t' = tu_pos t + k ∧ sending t'))
    no_shut.
Proof.
  intros Ha Hx [Hp Hc Hlen Hbt Hlv]. unfold tmcuart_send_event. cbn [container_of]. do 3 wstep.
  eapply (wp_load a t); [done|]. repeat wstep.
  set (t1 := t <| tu_flags := Z.lxor (tu_flags t) TU_LINE_HIGH |>).
  set (line := Z.land (tu_flags t1) TU_LINE_HIGH).
  assert (bit_of (tu_data t) (tu_pos t) = line) as Hline.
  { unfold line, t1, TU_LINE_HIGH in *. cbn [tu_flags upd]. rewrite land_1_toggle.
    pose proof (land_1_range (tu_flags t)). unfold bit_of in Hlv |- *.
    match goal with |- Z.land ?y 1 = _ => pose proof (land_1_range y) end. lia. }
  match goal with |- wp (next_toggle _ _ _ _ _) ?s1 _ _ => set (s2 := s1) end.
  destruct (next_toggle_ok 256 t1 line (tu_pos t) (tu_bit_time t) s2) as (k & r & E & Hk & Hh & Hr);
    [done|done|done|cbn in *; lia|done|].
  eapply wp_of_eq; [exact E|]. cbn beta iota. change (tu_write_count t1) with (tu_write_count t) in *.
  assert (∀ j, tu_pos t ≤ j < tu_pos t + k → bit_of (tu_data t) j = line) as Hall.
  { intros j Hj. destruct (decide (j = tu_pos t)) as [->|]; [done|]. apply (Hh j). lia. }
  assert (u32 (t_waketime x + u32 (tu_bit_time t + (k - 1) * tu_bit_time t)) =
          u32 (t_waketime x + k * tu_bit_time t)) as Hw.
  { rewrite u32_add_r. f_equal. lia. }
  destruct Hr as [[-> Hke]|(-> & Hkl & Hne)]; subst s2; repeat wstep; (split; [done|]); cbn.
  - exists t1, (mk_timer (t_next x) F_tmcuart_send_finish_event (u32 (t_waketime x + k * tu_bit_time t))), k.
    rewrite !lookup_insert_eq. split_and!; try done; try lia.
    + rewrite <- Hw. by destruct x.
    + by left.
  - exists (t1 <| tu_pos := tu_pos t + k |>), (mk_timer (t_next x) (t_func x) (u32 (t_waketime x + k * tu_bit_time t))), k.
    rewrite !lookup_insert_eq. split_and!; try done; try lia.
    + rewrite <- Hw. by destruct x.
    + right. split_and!; [done..|]. split; cbn in *; try done. lia.
Qed.
End tmcuart_spec.

(** * Neopixel updates stay inside the LED buffer

    The position of an update arrives as a raw 32-bit word and is added to the length in
    the fast integer types of the machine; the two tests of [command_neopixel_update]
    together still reject every range that does not lie in the buffer. *)

Section neopixel_spec.
Context {B : Board}.

(** The object that [command_config_neopixel] makes. *)
Record np_ok (n : neopixel_s) : Prop := {
  np_size : 0 ≤ np_data_size n < 0x8000;
  np_len : Z.of_nat (length (np_data n)) = np_data_size n;
}.

Lemma has_bit15 x : has x 0x8000 = false → x mod 2 ^ 16 < 2 ^ 15.
Proof.
  intros H. apply has_false in H.
  assert (Z.testbit x 15 = false) as Hb.
  { pose proof (f_equal (λ y, Z.testbit y 15) H) as E. cbn beta in E.
    rewrite Z.land_spec, Z.bits_0 in E. change (Z.testbit 0x8000 15) with true in E.
    by rewrite andb_true_r in E. }
  apply Z.testbit_false in Hb; [|lia]. change (2 ^ 15) with 32768 in *. change (2 ^ 16) with 65536.
  Z.to_euclidean_division_equations. lia.
Qed.

(** The sum in the machine's type is the sum of the integers. *)
Lemma update_sum pos len :
  0 ≤ len < 256 → has (uint_fast16 pos) 0x8000 = false → 
  uint_fast8 len = len ∧ uint_fast16 (uint_fast16 pos + len) = uint_fast16 pos + len ∧ 0 ≤ uint_fast16 pos.
Proof.
  intros Hl Hb. apply has_bit15 in Hb. unfold uint_fast8, uint_fast16 in *. destruct CONFIG_MACH_AVR.
  - pose proof (u16_range pos). rewrite u8_small by lia. split; [done|]. split; [|lia].
    rewrite Z.mod_small in Hb by lia. apply u16_small. lia.
  - pose proof (u32_range pos). rewrite (u32_small len) by lia. split; [done|]. split; [|lia].
    apply u32_small. split; [lia|]. change (2 ^ 16) with 65536 in Hb. change (2 ^ 15) with 32768 in Hb.
    Z.to_euclidean_division_equations. lia.
Qed.

(** neopixel_update writes the bytes at their position only when they lie inside the data of
    the object, leaves the other bytes alone and never writes outside; otherwise it shuts down.
    *)
Theorem neopixel_update_in_bounds s a0 a n pos len p :
  oid_lookup a0 command_config_neopixel_t s = Ret a s → objects s !! a = Some (O_neopixel n) →
  np_ok n → 0 ≤ len < 256 → 0 ≤ p → p + len ≤ Z.of_nat (length (rx_block s)) →
  let q := uint_fast16 pos in
  wp (command_neopixel_update [a0; pos; len; p]) s
    (λ _ s', 0 ≤ q ∧ q + len ≤ np_data_size n ∧
       ∃ n', s' = upd objects <[a := O_neopixel n']> s ∧ np_ok n' ∧ np_data_size n' = np_data_size n ∧
         np_data n' = take (Z.to_nat q) (np_data n) ++
           take (Z.to_nat len) (drop (Z.to_nat p) (rx_block s)) ++
           drop (Z.to_nat (q + len)) (np_data n))
    (λ r s', r = "Invalid neopixel update command" ∧
       (has q 0x8000 = true ∨ np_data_size n < q + len)).
Proof.
  intros Hoid Ha [Hsz Hlen] Hl Hp Hrx q. unfold command_neopixel_update. do 3 wstep.
  eapply wp_of_eq; [exact Hoid|]. do 6 wstep. do 2 wstep.
  fold q. destruct (has q 0x8000) eqn:Hb; cbn [orb].
  { wstep. wstep. split; [done|]. by left. }
  destruct (update_sum pos len Hl Hb) as (Hl8 & Hsum & Hq). fold q in Hsum, Hq. rewrite Hl8, Hsum.
  destruct (Z.ltb_spec (np_data_size n) (q + len)) as [Hlt|Hle].
  { wstep. wstep. split; [done|]. by right. }
  wstep. wstep. unfold read_ptr. do 3 wstep.
  rewrite (proj2 (Z.leb_le 0 p)), (proj2 (Z.leb_le _ _)) by lia. cbn [andb]. wstep.
  rewrite (proj2 (Z.ltb_ge _ _)) by lia. wstep. split; [done|]. split; [done|].
  eexists. split; [done|]. split; [|done]. split; [done|]. cbn [np_data np_data_size upd].
  rewrite !length_app, length_take, length_take, !length_drop. lia.
Qed.
End neopixel_spec.
