(* ===== verification/MsgblockSpec.v ===== *)
(** * Host and micro-controller agree on the protocol, in both directions *)

From S2P Require Import Prelude State Runtime Sched Vlq Crc Command CommandSpec Msgblock.

(** ** Integers *)

Definition is_u32 (v : Z) : Prop := 0 ≤ v < 2 ^ 32.
Definition vlq_bytes (data : list Z) : list Z := concat (encode_int <$> data).

Lemma encode_int_length v : is_u32 v → (1 ≤ length (encode_int v) ≤ 5)%nat.
Proof.
  intros Hv. destruct (encode_int_shape v Hv) as (cs & d & -> & Hl & _). rewrite length_app. cbn. lia.
Qed.

(** Contents of [msg] after the bytes [out] were stored at [p]. *)
Definition patch (msg : list Z) (p : nat) (out : list Z) : list Z :=
  take p msg ++ out ++ drop (p + length out) msg.

Lemma length_patch msg p out :
  (p + length out ≤ length msg)%nat → length (patch msg p out) = length msg.
Proof. intros. unfold patch. rewrite !length_app, length_take, length_drop. lia. Qed.

Lemma patch_patch msg p out out' :
  (p + length out + length out' ≤ length msg)%nat →
  patch (patch msg p out) (p + length out) out' = patch msg p (out ++ out').
Proof.
  intros H. unfold patch. set (a := take p msg ++ out).
  assert (length a = (p + length out)%nat) as Ha by (unfold a; rewrite length_app, length_take; lia).
  rewrite (app_assoc (take p msg) out (drop _ _)). fold a.
  rewrite take_app_length' by done. rewrite drop_app_ge by lia.
  rewrite drop_drop, Ha, length_app. unfold a. rewrite <- !app_assoc.
  do 4 f_equal. lia.
Qed.

Lemma encode_loop_fits msg p data :
  Forall is_u32 data → length msg = 64%nat → (p + length (vlq_bytes data) ≤ 59)%nat →
  encode_loop msg p data =
    Some (patch msg p (vlq_bytes data), Some (p + length (vlq_bytes data))%nat).
Proof.
  intros Hd. revert msg p. induction Hd as [|v data Hv Hd IH]; intros msg p Hm Hp.
  { cbn. unfold patch. cbn. by rewrite Nat.add_0_r, take_drop. }
  change (vlq_bytes (v :: data)) with (encode_int v ++ vlq_bytes data) in *.
  rewrite length_app in Hp. cbn [encode_loop]. unfold store_bytes.
  rewrite (proj2 (Nat.leb_le _ _)) by lia. cbn [mbind option_bind].
  fold (patch msg p (encode_int v)). change (Z.to_nat MESSAGE_PAYLOAD_MAX) with 59%nat.
  rewrite (proj2 (Nat.ltb_ge _ _)) by lia.
  rewrite IH by (rewrite ?length_patch; lia). rewrite patch_patch, length_app by lia.
  by rewrite Nat.add_assoc.
Qed.

(** A request that does not fit into a block; still no write is outside of [msg]. *)
Lemma encode_loop_fails msg p data :
  Forall is_u32 data → length msg = 64%nat → (p ≤ 59 < p + length (vlq_bytes data))%nat →
  ∃ msg', encode_loop msg p data = Some (msg', None) ∧ length msg' = 64%nat.
Proof.
  intros Hd. revert msg p. induction Hd as [|v data Hv Hd IH]; intros msg p Hm Hp.
  { cbn in Hp. lia. }
  change (vlq_bytes (v :: data)) with (encode_int v ++ vlq_bytes data) in *.
  rewrite length_app in Hp. pose proof (encode_int_length v Hv) as Hl.
  cbn [encode_loop]. unfold store_bytes.
  rewrite (proj2 (Nat.leb_le _ _)) by lia. cbn [mbind option_bind].
  fold (patch msg p (encode_int v)). change (Z.to_nat MESSAGE_PAYLOAD_MAX) with 59%nat.
  assert (length (patch msg p (encode_int v)) = 64%nat) by (rewrite length_patch; lia).
  destruct (Nat.ltb_spec 59 (p + length (encode_int v))); [by eexists|].
  apply IH; [done|lia].
Qed.

(** ** Reading the values back *)

(** The payload that a block made by [command_add_frame] carries. *)
Definition payload_of (qm : queue_message) : list Z := take (Z.to_nat (qm_len qm)) (qm_msg qm).

Lemma decode_loop_eq pre data post :
  Forall is_u32 data →
  decode_loop (length data) (pre ++ vlq_bytes data ++ post) (length pre)
      (length pre + length (vlq_bytes data)) =
    Some (inr (data, (length pre + length (vlq_bytes data))%nat)).
Proof.
  intros Hd. revert pre. induction Hd as [|v data Hv Hd IH]; intros pre.
  { cbn. by rewrite Nat.add_0_r. }
  change (vlq_bytes (v :: data)) with (encode_int v ++ vlq_bytes data).
  cbn [length decode_loop]. pose proof (encode_int_length v Hv) as Hl. rewrite length_app.
  rewrite (proj2 (Nat.leb_gt _ _)) by lia.
  rewrite <- (app_assoc (encode_int v)), (parse_encode_int pre v) by done. cbn [mbind option_bind].
  specialize (IH (pre ++ encode_int v)). rewrite length_app, <- !app_assoc, <- Nat.add_assoc in IH.
  by rewrite IH.
Qed.

Lemma vlq_bytes_length data : Forall is_u32 data → (length (vlq_bytes data) ≤ 5 * length data)%nat.
Proof.
  intros Hd. induction Hd as [|v data Hv Hd IH]; [done|].
  change (vlq_bytes (v :: data)) with (encode_int v ++ vlq_bytes data). rewrite length_app. cbn [length].
  pose proof (encode_int_length v Hv). lia.
Qed.

Lemma encode_payload_eq data :
  Forall is_u32 data → (length (vlq_bytes data) ≤ 59)%nat →
  ∃ qm, message_alloc_and_encode data = Some qm ∧
    qm_len qm = Z.of_nat (length (vlq_bytes data)) ∧ payload_of qm = vlq_bytes data.
Proof.
  intros Hd Hle. unfold message_alloc_and_encode. rewrite encode_loop_fits by done.
  cbn [mbind option_bind]. eexists. split; [done|]. cbn [qm_len from_option]. split; [done|].
  unfold payload_of, patch. cbn [qm_len qm_msg]. rewrite Nat2Z.id, take_0, app_nil_l.
  by apply take_app_length'.
Qed.

Lemma encode_too_long data :
  Forall is_u32 data → (59 < length (vlq_bytes data))%nat →
  ∃ qm, message_alloc_and_encode data = Some qm ∧ qm_len qm = 0.
Proof.
  intros Hd Hgt. unfold message_alloc_and_encode.
  destruct (encode_loop_fails (qm_msg message_alloc) 0 data) as (msg' & -> & _); [done|done|lia|].
  by eexists.
Qed.

Lemma encode_payload data qm :
  Forall is_u32 data → message_alloc_and_encode data = Some qm → qm_len qm ≠ 0 →
  qm_len qm = Z.of_nat (length (vlq_bytes data)) ∧ payload_of qm = vlq_bytes data ∧
  (length (vlq_bytes data) ≤ 59)%nat.
Proof.
  intros Hd Hqm Hne. destruct (Nat.leb_spec (length (vlq_bytes data)) 59) as [Hle|Hgt].
  - destruct (encode_payload_eq data Hd Hle) as (qm' & Hqm' & Hl & Hp). by simplify_eq.
  - destruct (encode_too_long data Hd Hgt) as (qm' & Hqm' & Hl). by simplify_eq.
Qed.

Lemma decode_frame data seq :
  Forall is_u32 data → seq_ok seq → (length (vlq_bytes data) ≤ 59)%nat →
  let n := Z.of_nat (length (vlq_bytes data)) + 5 in
  msgblock_decode (length data) (add_frame seq n (vlq_bytes data)) n = Some (0, data).
Proof.
  intros Hd Hseq Hle n. subst n. rewrite frame_eq by (done || lia). unfold msgblock_decode.
  set (L := length (vlq_bytes data)) in *. change (Z.to_nat MESSAGE_HEADER_SIZE) with 2%nat.
  replace (Z.to_nat (Z.of_nat L + 5 - MESSAGE_TRAILER_SIZE)) with (2 + L)%nat
    by (unfold MESSAGE_TRAILER_SIZE; lia).
  pose proof (decode_loop_eq [Z.of_nat L + 5; seq] data) as E. cbn [length] in E. fold L in E.
  rewrite E by done. cbn [mbind option_bind]. by rewrite Nat.eqb_refl.
Qed.

(** message_alloc_and_encode followed by framing and msgblock_decode returns the original 32
    bit values, and the encoder gives up (length 0) exactly when the encoded values exceed the
    payload of a message. *)
Theorem host_encode_decode data seq :
  Forall is_u32 data → seq_ok seq →
  ∃ qm, message_alloc_and_encode data = Some qm ∧
    if (length (vlq_bytes data) <=? 59)%nat then
      payload_of qm = vlq_bytes data ∧
      let n := qm_len qm + 5 in
      msgblock_decode (length data) (add_frame seq n (payload_of qm)) n = Some (0, data)
    else qm_len qm = 0.
Proof.
  intros Hd Hseq. destruct (Nat.leb_spec (length (vlq_bytes data)) 59) as [Hle|Hgt].
  2: by apply encode_too_long.
  destruct (encode_payload_eq data Hd Hle) as (qm & -> & Hl & Hp). exists qm. split; [done|].
  split; [done|]. cbn zeta. rewrite Hp, Hl. by apply decode_frame.
Qed.

(** ** Blocks from the micro-controller *)

Lemma msgblock_crc_eq buf n : 0 ≤ n < 256 → msgblock_crc16_ccitt buf n = crc16_ccitt buf (Z.to_nat n).
Proof. intros Hn. unfold msgblock_crc16_ccitt. by rewrite u8_small. Qed.

(** The host accepts every block that the micro-controller frames. *)
Lemma msgblock_check_accepts payload rest seq :
  (length payload ≤ 59)%nat → seq_ok seq →
  let n := Z.of_nat (length payload) + 5 in
  msgblock_check 0 (add_frame seq n payload ++ rest) = Some (n, 0).
Proof.
  intros Hlen Hseq n. assert (n = Z.of_nat (length payload) + 5) as Hn by done. clearbody n.
  set (buf := add_frame seq n payload ++ rest).
  assert (Z.of_nat (length buf) = n + Z.of_nat (length rest)) as Hbl.
  { unfold buf. rewrite length_app, frame_length by done. lia. }
  set (crc := crc16_ccitt ([n; seq] ++ payload) (2 + length payload)).
  pose proof (frame_trailer payload seq n Hn Hlen Hseq 2 MESSAGE_SYNC rest eq_refl) as Hsy.
  pose proof (frame_trailer payload seq n Hn Hlen Hseq 0 (u8 (Z.shiftr crc 8)) rest eq_refl) as Hhi.
  pose proof (frame_trailer payload seq n Hn Hlen Hseq 1 (u8 crc) rest eq_refl) as Hlo.
  pose proof (frame_len_byte payload seq n Hn Hlen Hseq rest) as H0.
  pose proof (frame_seq_byte payload seq n Hn Hlen Hseq rest) as H1. fold buf in Hsy, Hhi, Hlo, H0, H1.
  unfold msgblock_check, MESSAGE_MIN, MESSAGE_MAX, MESSAGE_TRAILER_SYNC, MESSAGE_TRAILER_CRC,
    MESSAGE_TRAILER_SIZE. rewrite (proj2 (Z.ltb_ge _ 5)) by lia. cbn [nz negb Z.eqb].
  change (Z.to_nat MESSAGE_POS_LEN) with 0%nat. change (Z.to_nat MESSAGE_POS_SEQ) with 1%nat.
  rewrite H0. cbn [mbind option_bind].
  rewrite (proj2 (Z.ltb_ge n 5)), (proj2 (Z.ltb_ge 64 n)) by lia. cbn [orb].
  rewrite H1. cbn [mbind option_bind].
  rewrite (proj2 (seq_test seq ltac:(unfold is_byte, seq_ok in *; lia)) Hseq). cbn [negb].
  rewrite (proj2 (Z.ltb_ge _ n)), msgblock_crc_eq by lia.
  replace (Z.to_nat (n - 1)) with (2 + length payload + 2)%nat by lia.
  replace (Z.to_nat (n - 3)) with (2 + length payload + 0)%nat by lia.
  replace (Z.to_nat (n - 3 + 1)) with (2 + length payload + 1)%nat by lia.
  rewrite Hsy, Hhi, Hlo. cbn [mbind option_bind]. rewrite Z.eqb_refl. cbn [negb].
  rewrite crc_bytes by apply crc16_range. rewrite Nat.add_0_r.
  unfold buf. rewrite frame_crc by done. fold crc. by rewrite Z.eqb_refl.
Qed.

(** The host drops bytes up to and including the next sync byte. *)
Definition resynced (buf : list Z) (ret need_sync : Z) : Prop :=
  ∃ dropped rest, buf = dropped ++ rest ∧ ret = - Z.of_nat (length dropped) ∧ dropped ≠ [] ∧
    (need_sync = 0 ∧ (∃ pre, dropped = pre ++ [MESSAGE_SYNC] ∧ MESSAGE_SYNC ∉ pre) ∨
     need_sync = 1 ∧ rest = [] ∧ MESSAGE_SYNC ∉ dropped).

Lemma msgblock_error_resyncs buf :
  buf ≠ [] → resynced buf (msgblock_error buf).1 (msgblock_error buf).2.
Proof.
  intros Hb. unfold msgblock_error, memchr.
  destruct (list_find (λ b, b = MESSAGE_SYNC) buf) as [[i b]|] eqn:Hf; cbn.
  - apply list_find_Some in Hf as (Hi & -> & Hpre). exists (take (S i) buf), (drop (S i) buf).
    pose proof (lookup_lt_Some _ _ _ Hi) as Hl.
    rewrite take_drop, length_take, Nat.min_l by lia. split; [done|]. split; [lia|].
    rewrite (take_S_r _ _ _ Hi). split; [by destruct (take i buf)|]. left. split; [done|].
    exists (take i buf). split; [done|]. intros [j Hj]%list_elem_of_lookup_1.
    destruct (decide (j < i)%nat) as [Hlt|Hge].
    + rewrite lookup_take_lt in Hj by done. by apply (Hpre j _ Hj).
    + by rewrite lookup_take_ge in Hj by lia.
  - apply list_find_None in Hf. exists buf, []. rewrite app_nil_r. split_and!; [done..|].
    right. split_and!; [done..|]. intros Hin. rewrite Forall_forall in Hf. by apply (Hf MESSAGE_SYNC).
Qed.

(** On arbitrary bytes the host's msgblock_check returns: a positive length only for a
    correctly framed block, 0 only when more data is needed, and a negative number of bytes to
    discard together with the right synchronisation state. *)
Theorem msgblock_check_sound buf need_sync :
  Forall is_byte buf →
  ∃ ret ns, msgblock_check need_sync buf = Some (ret, ns) ∧
    (ret = 0 ∧ ns = need_sync ∧ Z.of_nat (length buf) < 64 ∨
     0 < ret ∧ ns = need_sync ∧ (∃ seq, seq_ok seq ∧ is_frame seq ret buf) ∨
     ret < 0 ∧ resynced buf ret ns).
Proof.
  intros Hb. unfold msgblock_check, MESSAGE_MIN, MESSAGE_MAX.
  change (Z.to_nat MESSAGE_POS_LEN) with 0%nat. change (Z.to_nat MESSAGE_POS_SEQ) with 1%nat.
  destruct (Z.ltb_spec (Z.of_nat (length buf)) 5) as [Hlt|Hmin].
  { eexists _, _. split; [done|]. left. split_and!; [done..|lia]. }
  assert (∃ ret ns, Some (msgblock_error buf) = Some (ret, ns) ∧
    (ret = 0 ∧ ns = need_sync ∧ Z.of_nat (length buf) < 64 ∨
     0 < ret ∧ ns = need_sync ∧ (∃ seq, seq_ok seq ∧ is_frame seq ret buf) ∨
     ret < 0 ∧ resynced buf ret ns)) as Herr.
  { pose proof (msgblock_error_resyncs buf ltac:(by destruct buf)) as Hr.
    destruct (msgblock_error buf) as [ret ns]. exists ret, ns. split; [done|]. right. right.
    split; [|done]. destruct Hr as (d & r & _ & Hret & Hne & _). cbn in Hret.
    destruct d; [done|]. cbn in Hret. lia. }
  destruct (nz need_sync); [exact Herr|].
  assert (∀ i, (i < length buf)%nat → ∃ b, buf !! i = Some b ∧ is_byte b) as Hget.
  { intros i Hi. destruct (lookup_lt_is_Some_2 buf i) as [b Hi']; [lia|].
    exists b. split; [done|]. by eapply Forall_lookup_1 in Hb. }
  destruct (Hget 0%nat) as (n & Hn & Hbn); [lia|]. rewrite Hn. cbn [mbind option_bind].
  destruct (_ || _) eqn:Hr; [exact Herr|]. bool_to_prop.
  destruct (Hget 1%nat) as (seq & Hs & Hbs); [lia|]. rewrite Hs. cbn [mbind option_bind].
  destruct (Z.land seq _ =? _) eqn:Hq; cbn [negb]; [|exact Herr].
  destruct (Z.ltb_spec (Z.of_nat (length buf)) n) as [|Hfull].
  { eexists _, _. split; [done|]. left. split_and!; [done..|lia]. }
  unfold MESSAGE_TRAILER_SYNC, MESSAGE_TRAILER_CRC, MESSAGE_TRAILER_SIZE.
  destruct (Hget (Z.to_nat (n - 1))) as (sy & Hsy & _); [lia|]. rewrite Hsy. cbn [mbind option_bind].
  destruct (Z.eqb_spec sy MESSAGE_SYNC) as [->|]; cbn [negb]; [|exact Herr].
  destruct (Hget (Z.to_nat (n - 3))) as (hi & Hhi & _); [lia|]. rewrite Hhi.
  destruct (Hget (Z.to_nat (n - 3 + 1))) as (lo & Hlo & _); [lia|]. cbn [mbind option_bind]. rewrite Hlo.
  cbn [mbind option_bind]. rewrite msgblock_crc_eq by lia.
  destruct (Z.eqb_spec (crc16_ccitt buf (Z.to_nat (n - 3))) (u16 (Z.lor (Z.shiftl hi 8) lo)))
    as [Hcrc|]; cbn [negb]; [|exact Herr].
  eexists _, _. split; [done|]. right. left. split; [lia|]. split; [done|].
  exists seq. split; [by apply seq_test|by eapply frame_of_checks].
Qed.

(** ** Clocks *)

(** clock_from_clock32 reconstructs a 64 bit clock from its low 32 bits when it is within half
    a period of the last known clock. *)
Theorem clock_from_clock32_extends last_clock clock :
  0 ≤ clock < 2 ^ 64 → 0 ≤ last_clock < 2 ^ 64 → - 2 ^ 31 ≤ clock - last_clock < 2 ^ 31 →
  clock_from_clock32 last_clock (u32 clock) = clock.
Proof.
  intros Hc Hl Hd. unfold clock_from_clock32.
  replace (i32 (u32 clock - last_clock)) with (clock - last_clock).
  - replace (last_clock + (clock - last_clock)) with clock by lia. by apply Z.mod_small.
  - rewrite <- (i32_u32 (u32 clock - last_clock)), u32_sub_l, i32_u32. symmetry. by apply i32_small.
Qed.

(** ** A command of the host reaches its handler *)

Section end_to_end.
Context {B : Board}.

Definition is_int (t : param_type) : bool :=
  match t with PT_uint32 | PT_int32 | PT_uint16 | PT_int16 | PT_byte => true | _ => false end.

Lemma command_parsef_ints pre types args post maxend s :
  Forall is_int types → length args = length types → Forall is_u32 args →
  Z.of_nat (length pre + length (vlq_bytes args)) ≤ maxend →
  command_parsef (pre ++ vlq_bytes args ++ post) (Z.of_nat (length pre)) maxend types s =
    Ret (Z.of_nat (length pre + length (vlq_bytes args)), args) s.
Proof.
  intros Ht. revert pre args. induction Ht as [|t types Hi Ht IH]; intros pre [|v args] Hl Hu Hm;
    cbn in Hl; try lia; cbn [command_parsef].
  { cbn. by rewrite Nat.add_0_r. }
  apply Forall_cons in Hu as [Hv Hu]. injection Hl as Hl.
  change (vlq_bytes (v :: args)) with (encode_int v ++ vlq_bytes args) in *.
  rewrite length_app in *. rewrite (proj2 (Z.ltb_ge maxend _)) by lia.
  specialize (IH (pre ++ encode_int v) args Hl Hu). rewrite length_app, <- app_assoc in IH.
  feed IH; [lia|].
  assert ((let! '(v0, p) := deref (parse_int (pre ++ (encode_int v ++ vlq_bytes args) ++ post)
              (Z.to_nat (Z.of_nat (length pre)))) in
           let! '(p0, args0) := command_parsef (pre ++ (encode_int v ++ vlq_bytes args) ++ post)
              (Z.of_nat p) maxend types in
           mret (p0, v0 :: args0)) s =
          Ret (Z.of_nat (length pre + (length (encode_int v) + length (vlq_bytes args))), v :: args) s)
    as E.
  { rewrite Nat2Z.id, <- (app_assoc (encode_int v)), (parse_encode_int pre v) by done.
    rewrite (bind_ret_eq (deref _) _ s (v, (length pre + length (encode_int v))%nat) s) by done.
    rewrite (bind_ret_eq _ _ _ _ _ IH). cbn. by rewrite Nat.add_assoc. }
  by destruct t.
Qed.

Lemma encode_int_small v : 0 ≤ v < 96 → encode_int v = [v].
Proof.
  intros Hv. pose proof (all_below (λ v, bool_decide (encode_int v = [v])) 96 v
    ltac:(by vm_compute) Hv) as E. by apply bool_decide_eq_true in E.
Qed.

(** C22: A command that the host encodes with message_alloc_and_encode and frames reaches the
    firmware's handler: command_dispatch of the framed block runs exactly the handler with this
    id, on exactly the argument values of the host, for any list of integer parameters. *)
Theorem host_command_reaches_handler command_index cp id args qm seq s :
  message_alloc_and_encode (id :: args) = Some qm → qm_len qm ≠ 0 →
  0 < id < 96 → Forall is_u32 args → command_index !! Z.to_nat id = Some cp →
  Forall is_int (cp_param_types cp) → length args = length (cp_param_types cp) →
  seq_ok seq → shutdown_status (sched s) = 0 →
  let buf := add_frame seq (qm_len qm + 5) (payload_of qm) in
  command_dispatch command_index buf (qm_len qm + 5) s = cp_func cp args (s <| rx_block := buf |>).
Proof.
  intros Hqm Hne Hid Hu Hcp Hti Hl Hseq Hsd buf.
  assert (Forall is_u32 (id :: args)) as Hu' by (constructor; [unfold is_u32; lia|done]).
  destruct (encode_payload _ _ Hu' Hqm Hne) as (Hlen & Hpl & H59).
  pose proof (encode_int_small id ltac:(lia)) as Hone.
  change (vlq_bytes (id :: args)) with (encode_int id ++ vlq_bytes args) in *. rewrite Hone in *.
  unfold buf. rewrite Hpl, Hlen in *. rewrite length_app in *. cbn [length] in *.
  rewrite frame_eq by (rewrite ?length_app; cbn; done || lia).
  set (post := [u8 _; u8 _; MESSAGE_SYNC]). set (n := Z.of_nat (1 + length (vlq_bytes args))) in *.
  set (b := [n + 5; seq] ++ ([id] ++ vlq_bytes args) ++ post).
  unfold command_dispatch. rewrite (bind_ret_eq (modify _) _ s tt (s <| rx_block := b |>)) by done.
  set (s1 := s <| rx_block := b |>).
  assert (length b = (6 + length (vlq_bytes args))%nat) as Hb by (unfold b; rewrite !length_app; cbn; lia).
  destruct (length b) as [|fuel] eqn:Hfuel; [lia|]. cbn [dispatch_loop].
  unfold MESSAGE_HEADER_SIZE, MESSAGE_TRAILER_SIZE. rewrite (proj2 (Z.ltb_lt 2 _)) by lia.
  rewrite (bind_ret_eq _ _ s1 id s1) by done.
  rewrite (bind_ret_eq _ _ s1 cp s1).
  2:{ unfold command_lookup_parser. rewrite (proj2 (Z.eqb_neq id 0)) by lia.
      pose proof (lookup_lt_Some _ _ _ Hcp). rewrite (proj2 (Z.leb_gt _ id)) by lia. cbn [orb].
      unfold deref. by rewrite Hcp. }
  assert (command_parsef b (2 + 1) (n + 5 - 3) (cp_param_types cp) s1 =
          Ret (3 + Z.of_nat (length (vlq_bytes args)), args) s1) as Hparse.
  { pose proof (command_parsef_ints [n + 5; seq; id] (cp_param_types cp) args post (n + 5 - 3) s1
      Hti Hl Hu ltac:(cbn; lia)) as E. cbn [length] in E.
    replace (3 + Z.of_nat (length (vlq_bytes args))) with (Z.of_nat (3 + length (vlq_bytes args))) by lia.
    exact E. }
  rewrite (bind_ret_eq _ _ _ _ _ Hparse).
  rewrite (bind_ret_eq sched_is_shutdown _ s1 false s1);
    [|unfold sched_is_shutdown, gets, s1; cbn; by rewrite Hsd]. cbn [andb].
  unfold mbind, M_bind. destruct (cp_func cp args s1) as [[] s2| | |]; try done.
  destruct fuel; cbn [dispatch_loop]; by rewrite (proj2 (Z.ltb_ge _ _)) by lia.
Qed.
End end_to_end.

(** * Messages from the micro-controller to the host

    The size that the build announces for a message ([max_size], scripts/buildcommands.py)
    bounds what [command_encodef] writes when all parameters are integers, and the host
    decodes what was encoded; with a buffer parameter that is cut the bound is exceeded. *)

(** [max_length] of a parameter type (klippy/msgproto.py). *)
Definition max_length (t : param_type) : Z :=
  match t with
  | PT_uint32 | PT_int32 => 5
  | PT_uint16 | PT_int16 => 3
  | PT_byte => 2
  | PT_string | PT_progmem_buffer | PT_buffer => 64
  end.
Definition params_length (types : list param_type) : Z := foldr Z.add 0 (max_length <$> types).
(** The [max_size] the build gives an encoder. *)
Definition max_size_of (types : list param_type) : Z :=
  Z.min MESSAGE_MAX (MESSAGE_MIN + 1 + params_length types).

(** An argument of a [sendf] of the right width. *)
Definition arg_fits (t : param_type) (z : Z) : Prop :=
  match t with
  | PT_uint16 => 0 ≤ z < 2 ^ 16
  | PT_int16 => - 2 ^ 15 ≤ z < 2 ^ 15
  | PT_byte => 0 ≤ z < 2 ^ 8
  | _ => True
  end.

Lemma va_uint32_fits sizeof_int t z :
  is_int t → arg_fits t z → va_uint32 sizeof_int t z = u32 z.
Proof.
  intros Hi Hf. unfold va_uint32. destruct t; try done; destruct (sizeof_int <? 4); try done; cbn in Hf.
  - rewrite u16_small, u32_small by lia. done.
  - f_equal. unfold i16. zmod.
  - rewrite u16_small, u32_small by lia. done.
Qed.

Lemma encode_int_le2 v : 0 ≤ v < 2 ^ 32 → -4096 ≤ i32 v < 12288 → (length (encode_int v) ≤ 2)%nat.
Proof.
  intros Hv Hw. unfold encode_int. change (Z.shiftl 3 12) with 12288. change (Z.shiftl 1 12) with 4096.
  destruct (_ && _); [cbn; lia|]. rewrite (proj2 (Z.ltb_lt _ _)), (proj2 (Z.leb_le _ _)) by lia. cbn. lia.
Qed.
Lemma encode_int_le3 v : 0 ≤ v < 2 ^ 32 → -524288 ≤ i32 v < 1572864 → (length (encode_int v) ≤ 3)%nat.
Proof.
  intros Hv Hw. unfold encode_int. change (Z.shiftl 3 19) with 1572864. change (Z.shiftl 1 19) with 524288.
  destruct (_ && _); [cbn; lia|]. destruct (_ && _); [cbn; lia|].
  rewrite (proj2 (Z.ltb_lt _ _)), (proj2 (Z.leb_le _ _)) by lia. cbn. lia.
Qed.

Lemma encode_arg_length t z :
  is_int t → arg_fits t z → Z.of_nat (length (encode_int (u32 z))) ≤ max_length t.
Proof.
  intros Hi Hf. pose proof (u32_range z) as Hr.
  pose proof (encode_int_length (u32 z) Hr) as H5.
  destruct t; try done; cbn in Hf |- *; try lia.
  - enough (length (encode_int (u32 z)) ≤ 3)%nat by lia. apply encode_int_le3; [done|]. rewrite i32_u32.
    rewrite i32_small; lia.
  - enough (length (encode_int (u32 z)) ≤ 3)%nat by lia. apply encode_int_le3; [done|]. rewrite i32_u32.
    rewrite i32_small; lia.
  - enough (length (encode_int (u32 z)) ≤ 2)%nat by lia. apply encode_int_le2; [done|]. rewrite i32_u32.
    rewrite i32_small; lia.
Qed.

Section encode.
Context {B : Board}.

Lemma encode_params_ints sizeof_int maxend p types zs s :
  Forall is_int types → Forall2 arg_fits types zs → p + params_length types ≤ maxend →
  encode_params sizeof_int maxend p types (VA_int <$> zs) s = Ret (vlq_bytes (u32 <$> zs)) s ∧
  Z.of_nat (length (vlq_bytes (u32 <$> zs))) ≤ params_length types.
Proof.
  intros Hi Hf. revert p Hi. induction Hf as [|t z types zs Hz Hf IH]; intros p Hi Hp; [done|].
  apply Forall_cons in Hi as [Hit Hi].
  change (params_length (t :: types)) with (max_length t + params_length types) in *.
  pose proof (encode_arg_length t z Hit Hz) as Hl.
  change (vlq_bytes (u32 <$> z :: zs)) with (encode_int (u32 z) ++ vlq_bytes (u32 <$> zs)).
  destruct (IH (p + Z.of_nat (length (encode_int (u32 z)))) Hi ltac:(lia)) as [E Hle].
  assert (0 ≤ params_length types) by lia. assert (0 < max_length t) by (by destruct t).
  rewrite length_app. split; [|lia]. cbn [encode_params fmap list_fmap].
  rewrite (proj2 (Z.ltb_ge maxend p)), va_uint32_fits by (done || lia).
  assert ((let! rest := encode_params sizeof_int maxend
             (p + Z.of_nat (length (encode_int (u32 z)))) types (VA_int <$> zs) in
           mret (encode_int (u32 z) ++ rest)) s =
          Ret (encode_int (u32 z) ++ vlq_bytes (u32 <$> zs)) s) as E'
    by by rewrite (bind_ret_eq _ _ _ _ _ E).
  by destruct t.
Qed.


(** A response with one byte-sized value and a buffer, such as "i2c_read_response oid=%c
    response=%*s", when the buffer is too long for the block. *)
(** C39: A response whose buffer argument is too long for the message is clamped one byte too
    late by command_encodef: the block is one byte longer than max_size, a length of 65 that
    the host rejects. *)
Theorem clamped_buffer_overruns id oid data s :
  0 ≤ oid < 96 → 57 < Z.of_nat (length data) < 2 ^ 31 →
  let types := [PT_byte; PT_buffer] in
  ∃ block, command_encode_and_frame 4 (mk_encoder id (max_size_of types) types)
             [VA_int oid; VA_int (Z.of_nat (length data)); VA_ptr data] s =
           Ret (max_size_of types + 1, block) s ∧
    Z.of_nat (length block) = max_size_of types + 1 ∧
    ∃ ret ns, msgblock_check 0 block = Some (ret, ns) ∧ ret < 0.
Proof.
  intros Hoid Hd types. change (max_size_of types) with 64. change (64 + 1) with 65.
  set (pl := u8 id :: oid :: 57 :: take 57 data).
  assert (length pl = 60%nat) as Hpl by (unfold pl; cbn [length]; rewrite length_take; lia).
  set (block := add_frame (next_sequence (cmd s)) 65 pl).
  assert (length block = 65%nat) as Hb by (unfold block, add_frame; rewrite !length_app, Hpl; done).
  exists block. split; [|split; [lia|]].
  - unfold command_encode_and_frame. rewrite (bind_ret_eq _ _ s (65, pl) s); [done|].
    unfold command_encodef. cbn [ce_max_size ce_msg_id ce_param_types].
    change (64 <=? MESSAGE_MIN) with false. cbn iota.
    change (MESSAGE_HEADER_SIZE + (64 - MESSAGE_MIN)) with 61. change (MESSAGE_HEADER_SIZE + 1) with 3.
    rewrite (bind_ret_eq _ _ s (oid :: 57 :: take 57 data) s).
    + fold pl. by rewrite Hpl.
    + cbn [encode_params types]. change (61 <? 3) with false. cbn iota.
      change (va_uint32 4 PT_byte oid) with (u32 oid).
      rewrite u32_small, (u32_small (Z.of_nat _)), encode_int_small by lia. cbn [length].
      change (3 + Z.of_nat 1) with 4. change (61 <? 4) with false. cbn iota.
      change (61 - 4) with 57. rewrite (proj2 (Z.ltb_lt 57 _)) by lia.
      rewrite (proj2 (Z.ltb_ge _ 57)) by lia. unfold mbind, M_bind, mret, M_ret. cbn [app].
      change (u8 57) with 57. change (Z.to_nat 57) with 57%nat. by rewrite app_nil_r.
  - unfold msgblock_check. rewrite (proj2 (Z.ltb_ge _ MESSAGE_MIN)) by (unfold MESSAGE_MIN; lia).
    cbn [nz negb Z.eqb]. change (block !! Z.to_nat MESSAGE_POS_LEN) with (Some 65).
    cbn [mbind option_bind]. change (_ || _) with true. cbn iota.
    pose proof (msgblock_error_resyncs block ltac:(by destruct block)) as Hr.
    destruct (msgblock_error block) as [ret ns]. exists ret, ns. split; [done|].
    destruct Hr as (d & r & _ & Hret & Hne & _). cbn in Hret. destruct d; [done|]. cbn in Hret. lia.
Qed.
End encode.
