(* ===== verification/BisectSpec.v ===== *)
(** * The bisection of stepcompress.c finds a valid move and never overflows

    The points are given by their bounds [lo k] and [hi k], for the step number [k] of the
    queue.  A move with interval [I] and [add] is valid for [n] steps when each of them is
    inside its bounds; then every intermediate result fits [int32_t]. *)

From S2P Require Import Prelude State StepCompress.

Notation CDM := 805306368.

Lemma addfactor_double k : 0 ≤ k → 2 * addfactor_of k = k * (k - 1).
Proof.
  intros Hk. unfold addfactor_of. destruct (decide (k = 0)) as [->|]; [done|]. rewrite Z.quot_div_nonneg by nia.
  assert ((k * (k - 1)) mod 2 = 0) as Hm.
  { rewrite Z.mul_mod, Zminus_mod by lia. destruct (Z.mod_pos_bound k 2) as [H1 H2]; [lia|].
    assert (k mod 2 = 0 ∨ k mod 2 = 1) as [-> | ->] by lia; done. }
  pose proof (Z.div_mod (k * (k - 1)) 2). lia.
Qed.
Lemma addfactor_succ k : 0 ≤ k → addfactor_of (k + 1) = addfactor_of k + k.
Proof.
  intros Hk. pose proof (addfactor_double k Hk). pose proof (addfactor_double (k + 1) ltac:(lia)). nia.
Qed.
Lemma addfactor_nonneg k : 0 ≤ k → 0 ≤ addfactor_of k.
Proof. intros Hk. pose proof (addfactor_double k Hk). destruct (decide (k = 0)) as [->|]; [done|nia]. Qed.

Lemma wp_int32s l sc (Q : unit → stepcompress → Prop) E :
  Forall (λ x, -2147483648 ≤ x < 2147483648) l → Q tt sc → wp (int32s l) sc Q E.
Proof.
  intros Hl HQ. unfold int32s. assert (forallb in_int32 l = true) as ->; [|done].
  induction Hl as [|x l Hx Hl IH]; [done|]. cbn [forallb]. rewrite IH. unfold in_int32.
  rewrite (proj2 (Z.leb_le _ _)), (proj2 (Z.ltb_lt _ _)) by lia. done.
Qed.
Ltac in_range := repeat (apply Forall_cons_2; [|]); try apply Forall_nil_2.

Lemma wp_idiv_up n d sc (Q : Z → stepcompress → Prop) E :
  0 < d → -2147483648 ≤ n → n + d < 2147483648 →
  (∀ r, d * (r - 1) < n ≤ d * r → Q r sc) → wp (idiv_up n d) sc Q E.
Proof.
  intros Hd Hn Hs HQ. unfold idiv_up. destruct (Z.leb_spec 0 n).
  - apply wp_bind, wp_int32s; [in_range; lia|]. apply wp_ret, HQ. rewrite Z.quot_div_nonneg by lia.
    pose proof (Z.div_mod (n + d - 1) d ltac:(lia)). pose proof (Z.mod_pos_bound (n + d - 1) d Hd). nia.
  - apply wp_ret, HQ. pose proof (Z.quot_rem n d ltac:(lia)). pose proof (Z.rem_bound_pos_neg n d Hd ltac:(lia)). nia.
Qed.
Lemma wp_idiv_down n d sc (Q : Z → stepcompress → Prop) E :
  0 < d → n < 2147483648 → -2147483648 ≤ n - d →
  (∀ r, d * r ≤ n < d * (r + 1) → Q r sc) → wp (idiv_down n d) sc Q E.
Proof.
  intros Hd Hn Hs HQ. unfold idiv_down. destruct (Z.leb_spec 0 n).
  - apply wp_ret, HQ. rewrite Z.quot_div_nonneg by lia.
    pose proof (Z.div_mod n d ltac:(lia)). pose proof (Z.mod_pos_bound n d Hd). nia.
  - apply wp_bind, wp_int32s; [in_range; lia|]. apply wp_ret, HQ.
    pose proof (Z.quot_rem (n - d + 1) d ltac:(lia)). pose proof (Z.rem_bound_pos_neg (n - d + 1) d Hd ltac:(lia)). nia.
Qed.

Section bisect.
Variables (sc : stepcompress) (N : Z) (lo hi : Z → Z).
Hypothesis HN : 1 ≤ N ≤ 46341.
Hypothesis Herr : 0 ≤ sc_max_error sc ∧ sc_max_error sc * N ≤ 2 ^ 28.
Hypothesis Hpoint : ∀ k, 1 ≤ k ≤ N → minmax_point (sc_pos sc + Z.to_nat (k - 1)) sc = Ret (lo k, hi k) sc.
Hypothesis Hhi0 : hi 0 = 0.
Hypothesis Hsep : ∀ k, 1 ≤ k ≤ N → hi (k - 1) < lo k.
Hypothesis Hwide : ∀ k, 1 ≤ k ≤ N → lo k ≤ hi k ≤ lo k + sc_max_error sc.
Hypothesis Hnear : ∀ k, 1 ≤ k ≤ N → hi k < CDM.

(** Time of step [k]. *)
Definition at_step (I a k : Z) : Z := I * k + a * addfactor_of k.
Definition valid (I a n : Z) : Prop := ∀ k, 1 ≤ k ≤ n → lo k ≤ at_step I a k ≤ hi k.
Definition small (a : Z) : Prop := -32768 ≤ a ≤ 32767.

Lemma hi_nonneg k : 0 ≤ k ≤ N → 0 ≤ hi k.
Proof.
  intros Hk. destruct (decide (k = 0)) as [->|]; [lia|]. assert (∀ j, 0 ≤ j → j ≤ N → 0 ≤ hi j) as H; [|apply H; lia].
  apply (natlike_ind (λ j, j ≤ N → 0 ≤ hi j)); [lia|]. intros j Hj IH HjN.
  specialize (Hsep (Z.succ j) ltac:(lia)). specialize (Hwide (Z.succ j) ltac:(lia)).
  replace (Z.succ j - 1) with j in Hsep by lia. lia.
Qed.

Record magnitudes (I a n : Z) : Prop := {
  mag_I : 0 < I < CDM;
  mag_add : - CDM < a * addfactor_of n < CDM;
  mag_slope : - 2 ^ 23 ≤ a * n ≤ 2 ^ 23;
  mag_In : 0 < I * n < 2 * CDM;
  mag_next : I * (n + 1) ≤ 1700000000;
}.

(** Valid moves are flat enough. *)
Lemma valid_magnitudes I a n : 1 ≤ n ≤ N → small a → valid I a n → magnitudes I a n.
Proof.
  intros Hn Ha Hv. unfold small in Ha. pose proof (Hv n ltac:(lia)) as Hn'. pose proof (Hnear n ltac:(lia)) as Hc.
  pose proof (Hv 1 ltac:(lia)) as H1. pose proof (Hsep 1 ltac:(lia)) as Hs1. replace (1 - 1) with 0 in Hs1 by lia.
  pose proof (Hnear 1 ltac:(lia)) as Hc1. unfold at_step in *. change (addfactor_of 1) with 0 in H1.
  assert (0 < I + (n - 1) * a) as Hlast.
  { destruct (decide (n = 1)) as [->|]; [lia|]. pose proof (Hv (n - 1) ltac:(lia)) as Hp. unfold at_step in Hp.
    specialize (Hsep n ltac:(lia)). pose proof (addfactor_succ (n - 1) ltac:(lia)) as Hf.
    replace (n - 1 + 1) with n in Hf by lia. rewrite Hf in Hn'. nia. }
  pose proof (addfactor_double n ltac:(lia)) as Hd. pose proof (addfactor_nonneg n ltac:(lia)) as Hf0.
  assert (0 < I < CDM) as HI by lia.
  set (F := addfactor_of n) in *. set (Y := a * F) in *. set (X := I * n) in *.
  assert (I ≤ X) as HIX by (unfold X; nia).
  assert (- CDM < Y < CDM ∧ 0 < X < 2 * CDM) as [HY HX].
  { destruct (Z.le_gt_cases 0 a) as [Hpos|Hneg].
    - assert (0 ≤ Y) by (unfold Y; nia). lia.
    - assert (- 2 * Y < X).
      { unfold Y, X. replace (-2 * (a * F)) with (- (2 * F) * a) by ring. rewrite Hd. clear -Hlast Hn. nia. }
      assert (Y ≤ 0) by (unfold Y; nia). lia. }
  assert (- 2 ^ 23 ≤ a * n ≤ 2 ^ 23) as Han.
  { destruct (Z.le_gt_cases n 256); [nia|]. assert (2 * Y = (a * n) * (n - 1)) as E.
    { unfold Y. replace (2 * (a * F)) with (a * (2 * F)) by ring. rewrite Hd. ring. }
    clear -HY E H. set (z := a * n) in *. clearbody z Y. nia. }
  split; try done.
  replace (I * (n + 1)) with (X + I) by (unfold X; lia).
  destruct (decide (n = 1)) as [->|]; [lia|]. destruct (Z.le_gt_cases n 100).
  - assert (F ≤ 4950) as HF by (clear -Hd H Hn; nia).
    assert (- 32768 * 4950 ≤ Y) by (unfold Y; clear -HF Hf0 Ha; nia).
    assert (2 * I ≤ X) by (unfold X; clear -HI Hn n0; nia). lia.
  - assert (100 * I ≤ X) by (unfold X; clear -HI H; nia). lia.
Qed.

(** ** The inner loop *)

Definition run_post (omin omax a : Z) (e : run_end) : Prop :=
  match e with
  | Covered v n => n = N ∧ omin ≤ v ≤ omax ∧ valid v a n
  | Blocked nextmin nextmax v m minp maxp =>
      2 ≤ m ≤ N ∧ omin ≤ v ≤ omax ∧ valid v a (m - 1) ∧ minp = lo m ∧ maxp = hi m ∧
      (if at_step v a m <? lo m then nextmax = v else omin ≤ nextmin ≤ v)
  end.

Lemma at_step_succ I a n : 0 ≤ n → at_step I a (n + 1) = I * (n + 1) + a * addfactor_of n + a * n.
Proof. intros Hn. unfold at_step. rewrite addfactor_succ by done. lia. Qed.

Lemma valid_succ I a n :
  0 ≤ n → valid I a n → lo (n + 1) ≤ at_step I a (n + 1) ≤ hi (n + 1) → valid I a (n + 1).
Proof. intros Hn Hv H k Hk. destruct (decide (k = n + 1)) as [->|]; [done|]. apply Hv. lia. Qed.

Lemma wp_longest_run fuel qlast a omin omax nmin nmax n :
  qlast = (sc_pos sc + Z.to_nat N)%nat → 1 ≤ n ≤ N → N - n < Z.of_nat fuel → small a →
  omin ≤ nmin ≤ nmax → nmax ≤ omax → (∀ I, nmin ≤ I ≤ nmax → valid I a n) →
  wp (longest_run fuel qlast a nmin nmax nmax n) sc
    (λ e s', s' = sc ∧ run_post omin omax a e) no_shut.
Proof.
  intros -> Hn Hf Ha. revert nmin nmax n Hn Hf. induction fuel as [|fuel IH]; intros nmin nmax n Hn Hf Hmin Hmax Hv; [lia|].
  cbn [longest_run]. do 2 hstep. replace (n + 1 - 1) with n by lia.
  destruct (Nat.leb_spec (sc_pos sc + Z.to_nat N) (sc_pos sc + Z.to_nat n)).
  { apply wp_ret. split; [done|]. assert (n = N) as -> by lia. split; [done|]. split; [lia|]. apply Hv. lia. }
  assert (n < N) as HnN by lia. apply wp_bind. eapply wp_of_eq.
  { pose proof (Hpoint (n + 1) ltac:(lia)) as Hp. replace (n + 1 - 1) with n in Hp by lia. exact Hp. }
  destruct (valid_magnitudes nmax a n ltac:(lia) Ha (Hv nmax ltac:(lia))) as [MI MF MS MX MN].
  destruct (valid_magnitudes nmin a n ltac:(lia) Ha (Hv nmin ltac:(lia))) as [MI' _ _ MX' MN'].
  pose proof (addfactor_succ n ltac:(lia)) as Hfs.
  pose proof (Hnear (n + 1) ltac:(lia)) as Hc. pose proof (Hwide (n + 1) ltac:(lia)) as Hw.
  pose proof (Hsep (n + 1) ltac:(lia)) as Hs. replace (n + 1 - 1) with n in Hs by lia.
  pose proof (hi_nonneg n ltac:(lia)) as Hh.
  assert (a * addfactor_of (n + 1) = a * addfactor_of n + a * n) as Ec by (rewrite Hfs; ring).
  assert (0 < nmin * (n + 1)) by (clear -MI' Hn; nia). assert (0 < nmax * (n + 1)) by (clear -MI Hn; nia).
  change (2 ^ 23) with 8388608 in *. replace (n + 1 - 1) with n by lia.
  assert (0 ≤ (n + 1) * n ≤ 46341 * 46340) by (clear -HN HnN Hn; nia).
  apply wp_bind, wp_int32s; [in_range; lia|]. cbv zeta. rewrite Ec. set (c := a * addfactor_of n + a * n) in *.
  apply wp_bind, wp_int32s; [in_range; lia|]. apply wp_bind.
  apply (wp_conseq _ _ (λ r s', s' = sc ∧ nmin ≤ r ∧ lo (n + 1) - c ≤ r * (n + 1) ∧
    (nmin < r → (r - 1) * (n + 1) < lo (n + 1) - c))).
  { destruct (Z.ltb_spec (nmin * (n + 1)) (lo (n + 1) - c)) as [Hlt|Hge].
    - apply wp_idiv_up; [lia..|]. intros r Hr. split; [done|]. clear -Hr Hlt Hn. split_and!; nia.
    - apply wp_ret. split_and!; [done|lia..]. }
  cbn beta. intros nmin' s' (-> & Hmin1 & Hmin2 & Hmin3).
  apply wp_bind, wp_int32s; [in_range; lia|]. apply wp_bind.
  apply (wp_conseq _ _ (λ r s', s' = sc ∧ r ≤ nmax ∧ r * (n + 1) ≤ hi (n + 1) - c ∧
    (r < nmax → hi (n + 1) - c < nmax * (n + 1)))).
  { destruct (Z.ltb_spec (hi (n + 1) - c) (nmax * (n + 1))) as [Hlt|Hge].
    - apply wp_idiv_down; [lia..|]. intros r Hr. split; [done|]. clear -Hr Hlt Hn. split_and!; nia.
    - apply wp_ret. split_and!; [done|lia..]. }
  cbn beta. intros nmax' s' (-> & Hmax1 & Hmax2 & Hmax3).
  destruct (Z.ltb_spec nmax' nmin').
  - apply wp_ret. split; [done|]. split; [lia|]. split; [lia|]. replace (n + 1 - 1) with n by lia.
    split; [apply Hv; lia|]. split; [done|]. split; [done|]. rewrite at_step_succ by lia.
    destruct (Z.ltb_spec (nmax * (n + 1) + a * addfactor_of n + a * n) (lo (n + 1))) as [Hr|Hr].
    + destruct (decide (nmax' = nmax)); [done|]. specialize (Hmax3 ltac:(lia)). lia.
    + split; [lia|]. destruct (Z.le_gt_cases nmin' nmax) as [|Hgt]; [done|]. exfalso.
      specialize (Hmin3 ltac:(lia)). clear -Hmin3 Hr Hgt Hn. nia.
  - apply IH; [lia..|]. intros I HI. apply valid_succ; [lia|apply Hv; lia|]. rewrite at_step_succ by lia.
    clear -Hmin2 Hmax2 HI Hn. subst c. nia.
Qed.

(** ** Narrowing the range of [add] *)

(** What the narrowing does not touch. *)
Definition rest (b : bisect) : Z * (Z * Z * Z * Z) * (Z * Z) :=
  (bs_add b, (bs_bestinterval b, bs_bestcount b, bs_bestadd b, bs_bestreach b),
   (bs_zerointerval b, bs_zerocount b)).

(** [b'] has a smaller range without [add] than [b]; [I] is the interval of the last run. *)
Record narrowed (I : Z) (b b' : bisect) : Prop := {
  nw_rest : rest b' = rest b;
  nw_min : bs_minadd b ≤ bs_minadd b' ≤ bs_add b + 1;
  nw_max : bs_add b - 1 ≤ bs_maxadd b' ≤ bs_maxadd b;
  nw_out : bs_add b < bs_minadd b' ∨ bs_maxadd b' < bs_add b;
  nw_outer : lo 1 ≤ bs_outer_min b' ≤ I ∧ I ≤ bs_outer_max b' ≤ hi 1;
}.

Lemma narrow_side_ok b I m nextmin nextmax :
  bs_minadd b ≤ bs_add b ≤ bs_maxadd b → lo 1 ≤ bs_outer_min b → bs_outer_max b ≤ hi 1 →
  bs_outer_min b ≤ I ≤ bs_outer_max b →
  (if at_step I (bs_add b) m <? lo m then nextmax = I else bs_outer_min b ≤ nextmin ≤ I) →
  narrowed I b (narrow_side b (at_step I (bs_add b) m) (lo m) nextmin nextmax).
Proof.
  intros Ha H1 H2 HI Hn. unfold narrow_side. destruct (at_step I (bs_add b) m <? lo m); split; cbn; lia || done.
Qed.

Lemma wp_narrow_error b b1 I n :
  1 ≤ n < N → small (bs_add b) → narrowed I b b1 →
  wp (narrow_error b1 n) sc
    (λ b' s', s' = sc ∧ narrowed I b b' ∧
       ∃ E, 0 ≤ E ∧ (1 < n → E * (n * n) ≤ 11 * sc_max_error sc ∧
         bs_add b - E ≤ bs_minadd b' ∧ bs_maxadd b' ≤ bs_add b + E)) no_shut.
Proof.
  intros Hn Ha [Hr Hmin Hmax Hout Houter]. unfold small in Ha.
  assert (bs_add b1 = bs_add b) as Eadd by (unfold rest in Hr; congruence).
  unfold narrow_error. destruct (Z.ltb_spec 1 n) as [Hn1|Hn1].
  2:{ hstep. split; [done|]. split; [by split|]. exists 0. split; [lia|]. lia. }
  destruct Herr as [He0 He]. change (2 ^ 28) with 268435456 in He.
  assert (4 ≤ n * n ≤ 46340 * 46340) as Hnn by (clear -Hn Hn1 HN; nia).
  assert (sc_max_error sc * 3 ≤ 268435456) as He3 by (clear -He He0 Hn Hn1; nia).
  do 2 hstep. apply wp_bind, wp_int32s; [in_range; lia|]. unfold QUADRATIC_DEV. rewrite u32_small by lia.
  set (E := sc_max_error sc * 11 / (n * n)). cbv zeta.
  assert (0 ≤ E ∧ E * (n * n) ≤ 11 * sc_max_error sc) as [HE0 HE].
  { split; [apply Z.div_pos; lia|]. unfold E. pose proof (Z.mul_div_le (sc_max_error sc * 11) (n * n) ltac:(lia)). lia. }
  assert (E * 4 ≤ 11 * sc_max_error sc) as HE4 by (clear -HE HE0 Hnn; nia).
  rewrite (i32_small E), Eadd by lia. apply wp_bind, wp_int32s; [in_range; lia|]. hstep. split; [done|]. clearbody E. clear -Hr Hmin Hmax Hout Houter HE HE0 Eadd.
  destruct (Z.ltb_spec (bs_minadd b1) (bs_add b - E)); cbn [bs_add bs_maxadd upd]; rewrite ?Eadd;
    destruct (Z.ltb_spec (bs_add b + E) (bs_maxadd b1)); (split; [split; cbn; lia || done|exists E; cbn; lia]).
Qed.

Lemma wp_narrow_next b b2 I n E :
  1 ≤ n < N → -32768 ≤ bs_minadd b → bs_maxadd b ≤ 32767 → small (bs_add b) → valid I (bs_add b) n →
  narrowed I b b2 → 0 ≤ E →
  (1 < n → E * (n * n) ≤ 11 * sc_max_error sc ∧ bs_add b - E ≤ bs_minadd b2 ∧ bs_maxadd b2 ≤ bs_add b + E) →
  wp (narrow_next b2 (n + 1) (lo (n + 1)) (hi (n + 1))) sc
    (λ b' s', s' = sc ∧ rest b' = rest b ∧ bs_minadd b ≤ bs_minadd b' ∧ bs_maxadd b' ≤ bs_maxadd b ∧
       (bs_add b < bs_minadd b' ∨ bs_maxadd b' < bs_add b) ∧
       lo 1 ≤ bs_outer_min b' ≤ bs_outer_max b' ∧ bs_outer_max b' ≤ hi 1) no_shut.
Proof.
  intros Hn Hmin0 Hmax0 Ha Hv [Hr Hmin Hmax Hout Houter] HE0 HE.
  pose proof (valid_magnitudes I (bs_add b) n ltac:(lia) Ha Hv) as [MI MF MS MX MN]. unfold small in Ha.
  pose proof (Hv n ltac:(lia)) as Hvn. unfold at_step in Hvn.
  pose proof (Hnear (n + 1) ltac:(lia)) as Hc. pose proof (Hwide (n + 1) ltac:(lia)) as Hw.
  pose proof (Hsep (n + 1) ltac:(lia)) as Hs. replace (n + 1 - 1) with n in Hs by lia.
  pose proof (Hwide 1 ltac:(lia)) as Hw1. destruct Herr as [He0 He].
  pose proof (Hsep 1 ltac:(lia)) as Hs1. replace (1 - 1) with 0 in Hs1 by lia. rewrite Hhi0 in Hs1.
  change (2 ^ 28) with 268435456 in He. change (2 ^ 23) with 8388608 in MS.
  pose proof (addfactor_succ n ltac:(lia)) as Hfs. pose proof (addfactor_double (n + 1) ltac:(lia)) as Hfd.
  replace (n + 1 - 1) with n in Hfd by lia.
  assert (bs_add b * addfactor_of (n + 1) = bs_add b * addfactor_of n + bs_add b * n) as Ec by (rewrite Hfs; ring).
  assert (sc_max_error sc * (n + 1) ≤ 268435456) as He1 by (clear -He He0 Hn; nia).
  set (F := addfactor_of (n + 1)) in *.
  assert (1 ≤ F ≤ 1073720970) as HF by (clear -Hfd Hn HN; nia).
  assert (0 ≤ bs_outer_max b2 * (n + 1) ≤ I * (n + 1) + sc_max_error sc * (n + 1)) as Hc1.
  { clear -Houter Hw1 Hn Hs1. nia. }
  assert (0 ≤ bs_outer_min b2 * (n + 1) ≤ I * (n + 1)) as Hc2 by (clear -Houter Hn Hs1; nia).
  assert (∀ x, bs_add b - 1 ≤ x ≤ bs_add b + 1 ∨ (1 < n ∧ bs_add b - E ≤ x ≤ bs_add b + E) ∨ (n = 1 ∧ -32769 ≤ x ≤ 32768) →
    -1900000000 ≤ x * F ≤ 1900000000) as Hx.
  { intros x Hx. replace (x * F) with (bs_add b * F + (x - bs_add b) * F) by ring. rewrite Ec.
    destruct Hx as [Hx|[(Hn1 & Hx)|(-> & Hx)]].
    - assert (- F ≤ (x - bs_add b) * F ≤ F) by (clear -Hx HF; nia). lia.
    - destruct (HE Hn1) as [HE1 _]. assert (sc_max_error sc * 3 ≤ 268435456) as He3 by (clear -He1 He0 Hn1; nia).
      assert (4 * (E * F) ≤ 3 * (E * (n * n))) as HEF by (clear -Hfd Hn1 HE0; nia).
      assert (- (E * F) ≤ (x - bs_add b) * F ≤ E * F) by (clear -Hx HF HE0; nia). lia.
    - change F with 1 in *. lia. }
  unfold narrow_next. fold F. cbv zeta.
  assert (-1900000000 ≤ bs_minadd b2 * F ≤ 1900000000) as Hm1.
  { apply Hx. destruct (Z.le_gt_cases n 1); [right; right; lia|]. destruct (HE ltac:(lia)) as (_ & HE2 & _). lia. }
  assert (-1900000000 ≤ bs_maxadd b2 * F ≤ 1900000000) as Hm2.
  { apply Hx. destruct (Z.le_gt_cases n 1); [right; right; lia|]. destruct (HE ltac:(lia)) as (_ & _ & HE3). lia. }
  assert (-2147483648 ≤ hi (n + 1) - bs_outer_min b2 * (n + 1) - F) as Hd.
  { destruct (Z.le_gt_cases n 100) as [Hn100|Hn100].
    - assert (F ≤ 5050) by (clear -Hfd Hn100 Hn; nia). lia.
    - assert (100 * I ≤ I * n) by (clear -MI Hn100; nia). lia. }
  apply wp_bind, wp_int32s; [in_range; lia|]. hstep.
  apply (wp_conseq _ _ (λ r s', s' = sc ∧ bs_minadd b2 ≤ r)).
  { destruct (Z.ltb_spec (bs_minadd b2 * F) (lo (n + 1) - bs_outer_max b2 * (n + 1))) as [Hlt|Hge].
    - apply wp_idiv_up; [lia..|]. intros r Hr'. split; [done|]. clear -Hr' Hlt HF. nia.
    - hstep. split; [done|lia]. }
  cbn beta. intros minadd s' (-> & Hminadd). apply wp_bind, wp_int32s; [in_range; lia|]. hstep.
  apply (wp_conseq _ _ (λ r s', s' = sc ∧ r ≤ bs_maxadd b2)).
  { destruct (Z.ltb_spec (hi (n + 1) - bs_outer_min b2 * (n + 1)) (bs_maxadd b2 * F)) as [Hlt|Hge].
    - apply wp_idiv_down; [lia..|]. intros r Hr'. split; [done|]. clear -Hr' Hlt HF. nia.
    - hstep. split; [done|lia]. }
  cbn beta. intros maxadd s' (-> & Hmaxadd). hstep. split; [done|]. split; [done|]. cbn. lia.
Qed.

(** ** The outer loop *)

Definition good (v c a : Z) : Prop := 1 ≤ c ≤ N ∧ small a ∧ valid v a c.
Definition good_best (b : bisect) : Prop :=
  good (bs_bestinterval b) (bs_bestcount b) (bs_bestadd b) ∧ good (bs_zerointerval b) (bs_zerocount b) 0.
(** Before the first run there is no best sequence yet. *)
Definition fresh (b : bisect) : Prop := bs_add b = 0 ∧ bs_bestreach b = -2147483648.

Definition good_move (m : step_move) : Prop := good (mv_interval m) (mv_count m) (mv_add m).

Lemma good_to_step_move v c a : good v c a → good_move (to_step_move v c a).
Proof.
  intros (Hc & Ha & Hv). pose proof (valid_magnitudes v a c ltac:(lia) Ha Hv) as [MI _ _ _ _].
  unfold good_move, to_step_move. cbn [mv_interval mv_count mv_add]. rewrite u32_small, u16_small by lia.
  assert (i16 a = a) as ->; [|done]. unfold small in Ha. unfold i16. clear -Ha.
  destruct (Z.le_gt_cases 0 a).
  - rewrite Z.mod_small by lia. by rewrite (proj2 (Z.ltb_lt _ _)) by lia.
  - rewrite <- (Z_mod_plus_full _ 1), Z.mod_small by lia. rewrite (proj2 (Z.ltb_ge _ _)); lia.
Qed.
Lemma best_move_good b : good_best b → good_move (best_move b).
Proof. intros [H1 H2]. unfold best_move. destruct (_ <=? _); by apply good_to_step_move. Qed.

Lemma update_best_ok b v c :
  fresh b ∨ good_best b → good v c (bs_add b) → let '(b', _) := update_best b v c (at_step v (bs_add b) c) in
  good_best b' ∧ bs_add b' = bs_add b ∧ bs_minadd b' = bs_minadd b ∧ bs_maxadd b' = bs_maxadd b ∧
  bs_outer_min b' = bs_outer_min b ∧ bs_outer_max b' = bs_outer_max b.
Proof.
  intros Hb Hg. assert (0 ≤ at_step v (bs_add b) c) as Hreach.
  { destruct Hg as (Hc & _ & Hv). pose proof (Hv c ltac:(lia)). pose proof (Hsep c ltac:(lia)).
    pose proof (hi_nonneg (c - 1) ltac:(lia)). lia. }
  unfold update_best. destruct (_ || _) eqn:Hcond.
  - destruct (Z.eqb_spec (bs_add b) 0) as [E0|E0]; cbn [bs_add upd].
    + rewrite (proj2 (Z.eqb_eq _ _)) by exact E0. split_and!; try done. rewrite E0 in Hg. split; cbn [bs_bestinterval bs_bestcount bs_bestadd bs_zerointerval bs_zerocount upd]; by rewrite ?E0.
    + rewrite (proj2 (Z.eqb_neq _ _)) by exact E0. split_and!; try done.
      destruct Hb as [[]|[_ Hz]]; [done|]. split; [done|exact Hz].
  - destruct Hb as [[_ Hf]|Hb]; [|done]. exfalso. rewrite Hf in Hcond. apply orb_false_iff in Hcond as [Hcond _].
    apply Z.ltb_ge in Hcond. lia.
Qed.

Record bisect_ok (b : bisect) : Prop := {
  bo_range : -32768 ≤ bs_minadd b ∧ bs_minadd b ≤ bs_add b ≤ bs_maxadd b ∧ bs_maxadd b ≤ 32767;
  bo_outer : lo 1 ≤ bs_outer_min b ≤ bs_outer_max b ∧ bs_outer_max b ≤ hi 1;
  bo_best : fresh b ∨ good_best b;
}.

Lemma outer_valid b v : bisect_ok b → bs_outer_min b ≤ v ≤ bs_outer_max b → valid v (bs_add b) 1.
Proof.
  intros [_ Ho _] Hv k Hk. assert (k = 1) as -> by lia. unfold at_step. change (addfactor_of 1) with 0. lia.
Qed.

(** Each round tries one [add] of the range and takes it out. *)
Lemma wp_bisect_loop fuel run_fuel qlast b :
  qlast = (sc_pos sc + Z.to_nat N)%nat → N ≤ Z.of_nat run_fuel → bisect_ok b →
  bs_maxadd b - bs_minadd b < Z.of_nat fuel →
  wp (bisect_loop fuel run_fuel qlast b) sc (λ m s', s' = sc ∧ good_move m) no_shut.
Proof.
  intros Hq Hrf. revert b. induction fuel as [|fuel IH]; intros b Hok Hf; [destruct Hok; lia|].
  cbn [bisect_loop]. destruct (Hok) as [Hr Ho Hb]. assert (small (bs_add b)) as Ha by (unfold small; lia).
  hstep. eapply wp_conseq.
  { apply (wp_longest_run run_fuel qlast (bs_add b) (bs_outer_min b) (bs_outer_max b)); try done; try lia.
    intros v Hv. by apply outer_valid. }
  cbn beta. intros [v n|nextmin nextmax v m minp maxp] s' [-> He]; cbn [run_post] in He.
  { hstep. split; [done|]. destruct He as (-> & Hv & Hval). apply good_to_step_move. split; [lia|done]. }
  destruct He as (Hm & Hv & Hval & -> & -> & Hside). assert (∃ n, m = n + 1) as [n ->] by (exists (m - 1); lia).
  replace (n + 1 - 1) with n in * by lia. assert (1 ≤ n < N) as Hn by lia.
  assert (good v n (bs_add b)) as Hg by (split; [lia|done]).
  destruct (valid_magnitudes v (bs_add b) n ltac:(lia) Ha Hval) as [MI MF MS MX MN].
  pose proof (Hval n ltac:(lia)) as Hvn. pose proof (Hnear n ltac:(lia)) as Hnn. pose proof (Hsep n ltac:(lia)) as Hsn.
  pose proof (hi_nonneg (n - 1) ltac:(lia)) as Hh. unfold at_step in Hvn.
  pose proof (addfactor_succ n ltac:(lia)) as Hfs. change (2 ^ 23) with 8388608 in MS.
  cbv zeta. apply wp_bind, wp_int32s; [in_range; lia|].
  pose proof (update_best_ok b v n Hb Hg) as Hu. unfold at_step in Hu. rewrite (Z.add_comm (v * n)) in Hu.
  destruct (update_best b v n _) as [b1 stop] eqn:Eb1. destruct Hu as (Hgb & U1 & U2 & U3 & U4 & U5).
  destruct stop; [hstep; split; [done|by apply best_move_good]|].
  rewrite U1. assert (bs_add b * addfactor_of (n + 1) = bs_add b * addfactor_of n + bs_add b * n) as Ec by (rewrite Hfs; ring).
  assert (0 < v * (n + 1)) by (clear -MI Hn; nia).
  assert (v * (n + 1) = v * n + v) as Ev by ring.
  apply wp_bind, wp_int32s; [in_range; lia|].
  replace (bs_add b * addfactor_of (n + 1) + v * (n + 1)) with (at_step v (bs_add b1) (n + 1)) by (unfold at_step; rewrite U1; ring).
  hstep. eapply wp_conseq.
  { apply (wp_narrow_error b1 _ v n); [done|by rewrite U1|]. apply narrow_side_ok; rewrite ?U1, ?U2, ?U3, ?U4, ?U5; done || lia. }
  cbn beta. intros b2 s' (-> & Hnw & E & HE0 & HE). hstep. eapply wp_conseq.
  { apply (wp_narrow_next b1 b2 v n E); rewrite ?U1, ?U2, ?U3; try done; lia. }
  cbn beta. intros b3 s' (-> & Hrest & Hmin3 & Hmax3 & Hout3 & Houter3).
  assert (good_best b3) as Hgb3.
  { revert Hgb. unfold good_best. unfold rest in Hrest. injection Hrest as _ E1 E2 E3 _ E4 E5. by rewrite E1, E2, E3, E4, E5. }
  assert (bs_add b3 = bs_add b1) as U6 by (unfold rest in Hrest; congruence).
  destruct (Z.ltb_spec (bs_maxadd b3) (bs_minadd b3)) as [Hlt|Hge].
  { hstep. split; [done|by apply best_move_good]. }
  apply wp_bind, wp_int32s; [in_range; lia|]. apply IH.
  - pose proof (Z.quot_pos (bs_maxadd b3 - bs_minadd b3) 4 ltac:(lia) ltac:(lia)) as Hq1.
    assert (Z.quot (bs_maxadd b3 - bs_minadd b3) 4 ≤ bs_maxadd b3 - bs_minadd b3) as Hq2.
    { rewrite Z.quot_div_nonneg by lia. apply Z.div_le_upper_bound; lia. }
    split; [cbn; lia|exact Houter3|]. right. exact Hgb3.
  - cbn [bs_maxadd bs_minadd upd]. lia.
Qed.
End bisect.
