(* ===== verification/StepCompressSpec.v ===== *)
(** * Compressed moves reproduce the requested step times

    [queued sc l] says that the queue holds the steps at the clocks [l].  The steps of a move
    are those of the firmware ([step_time] of StepperSpec.v): each of them is to come at its
    requested clock or earlier by at most the allowed error. *)

From S2P Require Import Prelude State Vlq Command Msgblock MsgblockSpec StepperSpec StepCompress BisectSpec.

(** ** Accuracy *)

(** [t] is an acceptable time for the step requested at [c] after the one at [prev]. *)
Definition allowed (me prev c t : Z) : Prop := c - Z.min me ((c - prev) / 2) ≤ t ≤ c.
Fixpoint accurate (me prev : Z) (cs ts : list Z) : Prop :=
  match cs, ts with
  | [], [] => True
  | c :: cs, t :: ts => allowed me prev c t ∧ accurate me c cs ts
  | _, _ => False
  end.

(** The clocks of the steps of a move after a step at [t], and of a series of moves. *)
Fixpoint move_times (t interval add : Z) (n : nat) : list Z :=
  match n with
  | O => []
  | S n => (t + interval) :: move_times (t + interval) (interval + add) add n
  end.
Definition move_end (t : Z) (m : step_move) : Z := step_time t (mv_interval m) (mv_add m) (mv_count m).
Fixpoint schedule (t : Z) (ms : list step_move) : list Z :=
  match ms with
  | [] => []
  | m :: ms => move_times t (mv_interval m) (mv_add m) (Z.to_nat (mv_count m)) ++ schedule (move_end t m) ms
  end.

Lemma step_time_next t i a n : step_time (t + i) (i + a) a n = step_time t i a (n + 1).
Proof.
  unfold step_time. replace ((n + 1) * (n + 1 - 1)) with (n * (n - 1) + n * 2) by ring. rewrite Z.div_add by lia. ring.
Qed.
Lemma move_times_lookup t i a n k :
  (k < n)%nat → move_times t i a n !! k = Some (step_time t i a (Z.of_nat k + 1)).
Proof.
  revert t i k. induction n as [|n IH]; intros t i k Hk; [lia|]. destruct k as [|k]; cbn [move_times lookup list_lookup].
  - unfold step_time. change (Z.of_nat 0 + 1) with 1. change (1 * (1 - 1) / 2) with 0. f_equal. lia.
  - etransitivity; [apply IH; lia|]. rewrite step_time_next. do 2 f_equal. lia.
Qed.
Lemma length_move_times t i a n : length (move_times t i a n) = n.
Proof. revert t i. induction n as [|n IH]; intros t i; cbn; [done|]. by rewrite IH. Qed.

Lemma accurate_app me prev cs1 ts1 cs2 ts2 :
  accurate me prev cs1 ts1 → accurate me (default prev (last cs1)) cs2 ts2 →
  accurate me prev (cs1 ++ cs2) (ts1 ++ ts2).
Proof.
  revert prev ts1. induction cs1 as [|c cs1 IH]; intros prev [|t ts1]; cbn [accurate app]; [done..|].
  intros [H1 H2] H3. split; [done|]. apply IH; [done|]. revert H3. rewrite last_cons. by destruct (last cs1).
Qed.

(** ** The queue *)

(** The clock of step [k] of the queue, step 0 being the last one sent. *)
Definition clk (lsc : Z) (l : list Z) (k : nat) : Z := (lsc :: l) !!! k.

Fixpoint increasing (prev : Z) (l : list Z) : Prop :=
  match l with [] => True | c :: l => prev < c ∧ increasing c l end.

Record queued (sc : stepcompress) (l : list Z) : Prop := {
  q_space : (sc_pos sc + length l = sc_next sc ∧ sc_next sc ≤ length (sc_queue sc))%nat;
  q_pending : ∀ i c, l !! i = Some c → sc_queue sc !! (sc_pos sc + i)%nat = Some (u32 c);
  q_incr : increasing (sc_last_step_clock sc) l;
  q_near : Forall (λ c, c < sc_last_step_clock sc + CDM ∧ c < 2 ^ 63) l;
  q_clock : 0 ≤ sc_last_step_clock sc < 2 ^ 63;
}.

Lemma clk_S lsc l k c : l !! k = Some c → clk lsc l (S k) = c.
Proof. intros H. unfold clk. change ((lsc :: l) !!! S k) with (l !!! k). by apply list_lookup_total_correct. Qed.
Lemma increasing_clk lsc l k : increasing lsc l → (k < length l)%nat → clk lsc l k < clk lsc l (S k).
Proof.
  revert lsc k. induction l as [|c l IH]; intros lsc k Hi Hk; cbn in Hk; [lia|]. destruct Hi as [H1 H2].
  destruct k as [|k]; [done|]. change (clk lsc (c :: l) (S k)) with (clk c l k).
  change (clk lsc (c :: l) (S (S k))) with (clk c l (S k)). apply IH; [done|lia].
Qed.
Lemma increasing_le lsc l k : increasing lsc l → (k ≤ length l)%nat → lsc ≤ clk lsc l k.
Proof.
  intros Hi. induction k as [|k IH]; intros Hk; [done|]. pose proof (increasing_clk lsc l k Hi ltac:(lia)).
  specialize (IH ltac:(lia)). lia.
Qed.

(** The bounds of step [k] relative to the last step sent. *)
Definition point_hi (sc : stepcompress) (l : list Z) (k : Z) : Z :=
  clk (sc_last_step_clock sc) l (Z.to_nat k) - sc_last_step_clock sc.
Definition point_lo (sc : stepcompress) (l : list Z) (k : Z) : Z :=
  point_hi sc l k - Z.min (sc_max_error sc) ((point_hi sc l k - point_hi sc l (k - 1)) / 2).

Section queue.
Context (sc : stepcompress) (l : list Z) (Hq : queued sc l) (Hme : 0 ≤ sc_max_error sc).
Notation lsc := (sc_last_step_clock sc).
Notation lo := (point_lo sc l).
Notation hi := (point_hi sc l).

Lemma point_hi_0 : hi 0 = 0.
Proof. exact (Z.sub_diag lsc). Qed.
Lemma point_step k : 1 ≤ k ≤ Z.of_nat (length l) → 0 ≤ hi (k - 1) < hi k ∧ hi k < CDM.
Proof.
  intros Hk. destruct Hq as [_ _ Hi Hn _]. unfold point_hi.
  replace (Z.to_nat k) with (S (Z.to_nat (k - 1))) by lia.
  pose proof (increasing_clk lsc l (Z.to_nat (k - 1)) Hi ltac:(lia)).
  pose proof (increasing_le lsc l (Z.to_nat (k - 1)) Hi ltac:(lia)).
  destruct (lookup_lt_is_Some_2 l (Z.to_nat (k - 1))) as [c Hc]; [lia|].
  rewrite (clk_S _ _ _ _ Hc) in *. rewrite Forall_lookup in Hn. specialize (Hn _ _ Hc). lia.
Qed.
Lemma point_bounds k :
  1 ≤ k ≤ Z.of_nat (length l) → hi (k - 1) < lo k ∧ lo k ≤ hi k ≤ lo k + sc_max_error sc.
Proof.
  intros Hk. pose proof (point_step k Hk) as Hs. unfold point_lo.
  pose proof (Z.mul_div_le (hi k - hi (k - 1)) 2 ltac:(lia)). pose proof (Z.div_pos (hi k - hi (k - 1)) 2 ltac:(lia) ltac:(lia)). lia.
Qed.

Lemma minmax_point_eq k :
  1 ≤ k ≤ Z.of_nat (length l) → minmax_point (sc_pos sc + Z.to_nat (k - 1)) sc = Ret (lo k, hi k) sc.
Proof.
  intros Hk. pose proof (point_step k Hk) as Hs. pose proof (point_bounds k Hk) as Hb.
  destruct (lookup_lt_is_Some_2 l (Z.to_nat (k - 1))) as [c Hc]; [lia|].
  assert (hi k = c - lsc) as Ehi.
  { unfold point_hi. replace (Z.to_nat k) with (S (Z.to_nat (k - 1))) by lia. by rewrite (clk_S _ _ _ _ Hc). }
  unfold minmax_point. rewrite (bind_ret_eq get _ sc sc sc eq_refl).
  assert (queue_at (sc_pos sc + Z.to_nat (k - 1)) sc = Ret (u32 c) sc) as E1.
  { unfold queue_at. rewrite (bind_ret_eq get _ sc sc sc eq_refl). by rewrite (q_pending _ _ Hq _ _ Hc). }
  rewrite (bind_ret_eq _ _ _ _ _ E1). cbv zeta. rewrite u32_sub_l, u32_sub_r, <- Ehi, (u32_small (hi k)) by lia.
  assert ((if (sc_pos sc <? sc_pos sc + Z.to_nat (k - 1))%nat then
      let! q := queue_at (sc_pos sc + Z.to_nat (k - 1) - 1) in mret (u32 (q - u32 lsc)) else mret 0) sc
    = Ret (hi (k - 1)) sc) as E2.
  { destruct (Nat.ltb_spec (sc_pos sc) (sc_pos sc + Z.to_nat (k - 1))).
    - destruct (lookup_lt_is_Some_2 l (Z.to_nat (k - 2))) as [c' Hc']; [lia|].
      assert (hi (k - 1) = c' - lsc) as Ehi'.
      { unfold point_hi. replace (Z.to_nat (k - 1)) with (S (Z.to_nat (k - 2))) by lia. by rewrite (clk_S _ _ _ _ Hc'). }
      replace (sc_pos sc + Z.to_nat (k - 1) - 1)%nat with (sc_pos sc + Z.to_nat (k - 2))%nat by lia.
      unfold queue_at, mbind, M_bind, get. rewrite (q_pending _ _ Hq _ _ Hc'). cbn [deref].
      unfold mret, M_ret. rewrite u32_sub_l, u32_sub_r, <- Ehi', u32_small by lia. done.
    - replace (k - 1) with 0 by lia. unfold point_hi. cbn [Z.to_nat]. unfold clk. cbn [lookup_total list_lookup_total].
      by rewrite Z.sub_diag. }
  rewrite (bind_ret_eq _ _ _ _ _ E2), (u32_small (hi k - _)) by lia.
  unfold mret, M_ret. unfold point_lo in *. set (d := (hi k - hi (k - 1)) / 2) in *.
  assert ((if sc_max_error sc <? d then sc_max_error sc else d) = Z.min (sc_max_error sc) d) as ->.
  { destruct (Z.ltb_spec (sc_max_error sc) d); lia. }
  rewrite !i32_small by lia. done.
Qed.

(** ** Valid moves are the accurate ones *)

Lemma accurate_lookup me prev cs t i a :
  accurate me prev cs (move_times t i a (length cs)) ↔
  (∀ k c, cs !! k = Some c → allowed me (clk prev cs k) c (step_time t i a (Z.of_nat k + 1))).
Proof.
  revert prev t i. induction cs as [|c cs IH]; intros prev t i; cbn [length move_times accurate]; [done|].
  rewrite IH. assert (step_time t i a 1 = t + i) as E1.
  { unfold step_time. change (1 * (1 - 1) / 2) with 0. lia. }
  split.
  - intros [H0 H] [|k] c' Hc; [injection Hc as <-; change (Z.of_nat 0 + 1) with 1; by rewrite E1|].
    specialize (H k c' Hc). rewrite step_time_next in H. by replace (Z.of_nat (S k) + 1) with (Z.of_nat k + 1 + 1) by lia.
  - intros H. split; [specialize (H 0%nat c eq_refl); change (Z.of_nat 0 + 1) with 1 in H; by rewrite E1 in H|].
    intros k c' Hc. specialize (H (S k) c' Hc). rewrite step_time_next.
    by replace (Z.of_nat (S k) + 1) with (Z.of_nat k + 1 + 1) in H by lia.
Qed.

Lemma at_step_time t i a k : 0 ≤ k → step_time t i a k = t + at_step i a k.
Proof.
  intros Hk. unfold step_time, at_step, addfactor_of. destruct (decide (k = 0)) as [->|].
  { change (0 * (0 - 1) / 2) with 0. change (Z.quot (0 * (0 - 1)) 2) with 0. lia. }
  rewrite Z.quot_div_nonneg by nia. lia.
Qed.

Lemma clk_take lsc n k : (k ≤ n)%nat → clk lsc (take n l) k = clk lsc l k.
Proof.
  intros Hk. destruct k as [|k]; [done|]. unfold clk. change ((lsc :: ?x) !!! S k) with (x !!! k).
  rewrite !list_lookup_total_alt, lookup_take_lt by lia. done.
Qed.

Lemma accurate_valid i a n :
  0 ≤ n ≤ Z.of_nat (length l) →
  accurate (sc_max_error sc) lsc (take (Z.to_nat n) l) (move_times lsc i a (Z.to_nat n)) ↔ valid lo hi i a n.
Proof.
  intros Hn. replace (Z.to_nat n) with (length (take (Z.to_nat n) l)) at 2 by (rewrite length_take; lia).
  rewrite accurate_lookup. unfold allowed, valid. split.
  - intros H k Hk. destruct (lookup_lt_is_Some_2 l (Z.to_nat (k - 1))) as [c Hc]; [lia|].
    specialize (H (Z.to_nat (k - 1)) c). rewrite lookup_take_lt, clk_take, at_step_time in H by lia.
    specialize (H Hc). unfold point_lo, point_hi. replace (Z.to_nat k) with (S (Z.to_nat (k - 1))) by lia.
    rewrite (clk_S _ _ _ _ Hc). replace (Z.of_nat (Z.to_nat (k - 1)) + 1) with k in H by lia.
    replace (c - lsc - (clk lsc l (Z.to_nat (k - 1)) - lsc)) with (c - clk lsc l (Z.to_nat (k - 1))) by lia. lia.
  - intros H k c Hc. apply lookup_take_Some in Hc as [Hc Hk]. rewrite clk_take, at_step_time by lia.
    specialize (H (Z.of_nat k + 1) ltac:(lia)). unfold point_lo, point_hi in H.
    replace (Z.of_nat k + 1 - 1) with (Z.of_nat k) in H by lia. rewrite Nat2Z.id in H.
    replace (Z.to_nat (Z.of_nat k + 1)) with (S k) in H by lia. rewrite (clk_S _ _ _ _ Hc) in H.
    replace (c - lsc - (clk lsc l k - lsc)) with (c - clk lsc l k) in H by lia. lia.
Qed.

(** ** The final check is exact *)

Lemma check_points_exact n k i a p :
  small a → 0 ≤ k → k + Z.of_nat n ≤ Z.of_nat (length l) → 0 ≤ p ≤ hi k → -32768 ≤ i < 2 ^ 32 →
  check_points n (sc_pos sc + Z.to_nat k) a (u32 i) p sc = Ret 0 sc ∧ 
    (∀ j, 1 ≤ j ≤ Z.of_nat n → lo (k + j) ≤ p + at_step i a j ≤ hi (k + j)) ∨
  check_points n (sc_pos sc + Z.to_nat k) a (u32 i) p sc = Ret ERROR_RET sc ∧
    ¬ (∀ j, 1 ≤ j ≤ Z.of_nat n → lo (k + j) ≤ p + at_step i a j ≤ hi (k + j)).
Proof.
  intros Ha. revert k i p. induction n as [|n IH]; intros k i p Hk Hn Hp Hi; [left; split; [done|lia]|].
  cbn [check_points]. pose proof (point_step (k + 1) ltac:(lia)) as Hs. pose proof (point_bounds (k + 1) ltac:(lia)) as Hb.
  replace (k + 1 - 1) with k in Hs, Hb by lia.
  pose proof (minmax_point_eq (k + 1) ltac:(lia)) as Em. replace (k + 1 - 1) with k in Em by lia.
  rewrite (bind_ret_eq _ _ _ _ _ Em). cbn beta iota zeta. rewrite (u32_small (lo _)), (u32_small (hi _)) by lia.
  assert (at_step i a 1 = i) as E1 by (unfold at_step; change (addfactor_of 1) with 0; lia).
  change (2 ^ 32) with 4294967296 in Hi. unfold small in Ha.
  destruct (Z.ltb_spec (u32 (p + u32 i)) (lo (k + 1))) as [Hlo|Hlo]; cbn [orb].
  { right. split; [done|]. intros H. specialize (H 1 ltac:(lia)). rewrite E1 in H. rewrite u32_add_r, u32_small in Hlo by lia. lia. }
  destruct (Z.ltb_spec (hi (k + 1)) (u32 (p + u32 i))) as [Hhi|Hhi].
  { right. split; [done|]. intros H. specialize (H 1 ltac:(lia)). rewrite E1 in H. rewrite u32_add_r, u32_small in Hhi by lia. lia. }
  destruct (Z.leb_spec 0x80000000 (u32 i)) as [Hbig|Hbig].
  { right. split; [done|]. intros H. specialize (H 1 ltac:(lia)). rewrite E1 in H. rewrite u32_small in Hbig by lia. lia. }
  assert (0 ≤ i ∧ u32 i = i) as [Hi0 Ei].
  { destruct (Z.le_gt_cases 0 i); [split; [done|apply u32_small; lia]|]. exfalso.
    assert (u32 i = i + 2 ^ 32) as E by (unfold u32; symmetry; apply (Z.mod_unique_pos _ _ (-1)); lia). lia. }
  rewrite Ei in *. rewrite (u32_small (p + i)) in * by lia.
  replace (S (sc_pos sc + Z.to_nat k)) with (sc_pos sc + Z.to_nat (k + 1))%nat by lia.
  assert (∀ j, 0 ≤ j → p + at_step i a (j + 1) = p + i + at_step (i + a) a j) as Ej.
  { intros j Hj. unfold at_step. rewrite addfactor_succ by done. ring. }
  destruct (IH (k + 1) (i + a) (p + i)) as [[-> H]|[-> H]]; try lia; [left|right]; (split; [done|]).
  - intros j Hj. destruct (decide (j = 1)) as [->|]; [rewrite E1; lia|]. replace j with (j - 1 + 1) by lia.
    rewrite Ej by lia. replace (k + (j - 1 + 1)) with (k + 1 + (j - 1)) by lia. apply H. lia.
  - intros H'. apply H. intros j Hj. rewrite <- Ej by lia. replace (k + 1 + j) with (k + (j + 1)) by lia. apply H'. lia.
Qed.
End queue.

Section check.
Context (sc : stepcompress) (l : list Z) (Hq : queued sc l) (Hme : 0 ≤ sc_max_error sc).

(** The steps of [m] are accurate for the first steps of the queue. *)
Definition accepted (m : step_move) : Prop :=
  0 < mv_count m ∧
  accurate (sc_max_error sc) (sc_last_step_clock sc) (take (Z.to_nat (mv_count m)) l)
    (move_times (sc_last_step_clock sc) (mv_interval m) (mv_add m) (Z.to_nat (mv_count m))).
Definition move_range (m : step_move) : Prop :=
  0 ≤ mv_interval m < 2 ^ 32 ∧ 0 ≤ mv_count m ≤ Z.of_nat (length l) ∧ -2 ^ 15 ≤ mv_add m < 2 ^ 15.

(** A move with steps has a positive first interval. *)
Lemma accepted_interval m : move_range m → accepted m → 0 < mv_interval m < CDM.
Proof.
  intros (Hi & Hc & Ha) (Hpos & Hacc). apply accurate_valid in Hacc; [|done..|lia].
  specialize (Hacc 1 ltac:(lia)). pose proof (point_bounds sc l Hq Hme 1 ltac:(lia)) as Hb.
  pose proof (point_step sc l Hq 1 ltac:(lia)) as Hs. unfold at_step in Hacc. change (addfactor_of 1) with 0 in Hacc. lia.
Qed.

Lemma check_line_cases m :
  move_range m →
  check_line m sc = Ret 0 sc ∧ accepted m ∨ check_line m sc = Ret ERROR_RET sc ∧ ¬ accepted m.
Proof.
  intros (Hi & Hc & Ha). pose proof (accepted_interval m ltac:(by split)) as Hint. unfold check_line, CHECK_LINES. cbn [negb].
  destruct (_ || _ || _) eqn:Hbad.
  { right. split; [done|]. intros Hacc. specialize (Hint Hacc). destruct Hacc as [Hpos _].
    apply orb_true_iff in Hbad as [[Hbad|Hbad]%orb_true_iff|Hbad]; unfold nz in Hbad.
    - apply negb_true_iff, negb_false_iff, Z.eqb_eq in Hbad. lia.
    - apply andb_true_iff in Hbad as [[Hbad _]%andb_true_iff _]. apply negb_true_iff, negb_false_iff, Z.eqb_eq in Hbad. lia.
    - apply Z.leb_le in Hbad. lia. }
  assert (0 < mv_count m) as Hpos.
  { destruct (decide (mv_count m = 0)) as [E|]; [|lia]. by rewrite E in Hbad. }
  rewrite (bind_ret_eq get _ sc sc sc eq_refl). change (2 ^ 15) with 32768 in Ha.
  pose proof (check_points_exact sc l Hq Hme (Z.to_nat (mv_count m)) 0 (mv_interval m) (mv_add m) 0) as H.
  rewrite point_hi_0, Nat.add_0_r, Z2Nat.id, u32_small in H by lia.
  destruct H as [[E H]|[E H]]; [unfold small; lia|lia..| |].
  - left. split; [done|]. split; [done|]. apply accurate_valid; [done..|lia|]. intros k Hk. exact (H k Hk).
  - right. split; [done|]. intros [_ Hacc]. apply H. apply accurate_valid in Hacc; [|done..|lia].
    intros k Hk. exact (Hacc k Hk).
Qed.

(** check_line accepts exactly the moves that have at least one step and whose steps, in exact
    arithmetic, lie inside the error bounds of the requested steps: the 32 bit wrap-around in
    its sums never hides an error, and it rejects every other move. *)
Theorem check_line_exact m :
  move_range m →
  (accepted m → check_line m sc = Ret 0 sc) ∧ (¬ accepted m → check_line m sc = Ret ERROR_RET sc).
Proof. intros Hm. destruct (check_line_cases m Hm) as [[E H]|[E H]]; by split. Qed.

(** ** The search finds an accepted move *)

Hypothesis Hlen : (1 ≤ length l)%nat ∧ Z.of_nat (length l) ≤ 46341.
Hypothesis Herr : sc_max_error sc * Z.of_nat (length l) ≤ 2 ^ 28.

Lemma good_move_accepted m :
  good_move (Z.of_nat (length l)) (point_lo sc l) (point_hi sc l) m → move_range m ∧ accepted m.
Proof.
  intros (Hc & Ha & Hv). unfold small in Ha.
  pose proof (Hv 1 ltac:(lia)) as H1. unfold at_step in H1. change (addfactor_of 1) with 0 in H1.
  pose proof (point_bounds sc l Hq Hme 1 ltac:(lia)) as Hb. pose proof (point_step sc l Hq 1 ltac:(lia)) as Hs.
  replace (1 - 1) with 0 in * by lia. split; [split_and!; lia|]. split; [lia|]. apply accurate_valid; [done..|lia|done].
Qed.

Lemma wp_compress_bisect_add :
  wp compress_bisect_add sc (λ m s', s' = sc ∧ move_range m ∧ accepted m) no_shut.
Proof.
  unfold compress_bisect_add. do 2 hstep. destruct (q_space _ _ Hq) as [Hsp _].
  rewrite (proj2 (Nat.ltb_ge _ _)) by lia. hstep.
  pose proof (minmax_point_eq sc l Hq Hme 1 ltac:(lia)) as E1. rewrite Nat.add_0_r in E1.
  eapply wp_of_eq; [exact E1|]. cbn beta iota. eapply wp_conseq.
  { apply (wp_bisect_loop sc (Z.of_nat (length l)) (point_lo sc l) (point_hi sc l)).
    - lia.
    - done.
    - intros k Hk. by apply minmax_point_eq.
    - apply point_hi_0.
    - intros k Hk. by apply point_bounds.
    - intros k Hk. by apply point_bounds.
    - intros k Hk. by apply point_step.
    - lia.
    - lia.
    - pose proof (point_bounds sc l Hq Hme 1 ltac:(lia)) as Hb.
      split; [cbn; lia|cbn; lia|left; done].
    - unfold BISECT_FUEL. rewrite Z2Nat.id by lia. cbn [bs_maxadd bs_minadd]. lia. }
  cbn beta. intros m s' [-> Hg]. split; [done|]. by apply good_move_accepted.
Qed.

(** C33: The bisection of compress_bisect_add ends within its 65536 values of add without any
    32 bit overflow, for up to 46341 queued steps whose number times max_error is at most 2^28,
    and returns a move whose steps are all inside the error bounds of the first count requested
    steps. *)
Theorem compress_bisect_add_valid :
  ∃ m, compress_bisect_add sc = Ret m sc ∧ 1 ≤ mv_count m ≤ Z.of_nat (length l) ∧
    accurate (sc_max_error sc) (sc_last_step_clock sc) (take (Z.to_nat (mv_count m)) l)
      (move_times (sc_last_step_clock sc) (mv_interval m) (mv_add m) (Z.to_nat (mv_count m))).
Proof.
  destruct (wp_returns _ _ _ wp_compress_bisect_add) as (m & s' & E & -> & (_ & Hc & _) & Hacc & Ha).
  exists m. split; [done|]. split; [lia|done].
Qed.
End check.
