(* ===== verification/FlushSpec.v ===== *)
(** * Flushing the step queue keeps every step on time

    [queue_flush] turns queued steps into [queue_step] messages.  Executed by the firmware
    they give every step at its requested clock or at most [max_error] earlier, in order. *)

From S2P Require Import Prelude State Vlq Command Double Msgblock StepCompress StepperSpec MsgblockSpec BisectSpec.
From S2P Require Import StepCompressSpec.

(** ** Lists of step times *)

Definition on_time (me c t : Z) : Prop := c - me ≤ t ≤ c.

Lemma accurate_on_time me prev t0 cs ts :
  0 ≤ me → accurate me prev cs ts → increasing prev cs → t0 ≤ prev →
  Forall2 (on_time me) cs ts ∧ increasing t0 ts.
Proof.
  intros Hme. revert prev t0 ts. induction cs as [|c cs IH]; intros prev t0 [|t ts]; cbn [accurate increasing]; try done.
  intros [[H1 H2] Hacc] [Hp Hi] Ht. destruct (IH c t ts Hacc Hi H2) as [IH1 IH2].
  pose proof (Z.mul_div_le (c - prev) 2 ltac:(lia)). pose proof (Z.div_pos (c - prev) 2 ltac:(lia) ltac:(lia)).
  split; [constructor; [unfold on_time; lia|done]|]. split; [lia|done].
Qed.

Lemma increasing_app t0 l1 l2 :
  increasing t0 l1 → increasing (default t0 (last l1)) l2 → increasing t0 (l1 ++ l2).
Proof.
  revert t0. induction l1 as [|t l1 IH]; intros t0; cbn [increasing app]; [done|]. intros [H1 H2] H3. split; [done|].
  apply IH; [done|]. rewrite last_cons in H3. by destruct (last l1).
Qed.
Lemma increasing_take t0 n l : increasing t0 l → increasing t0 (take n l).
Proof.
  revert t0 n. induction l as [|c l IH]; intros t0 [|n]; cbn [take increasing]; try done. intros [H1 H2]. split; [done|by apply IH].
Qed.
Lemma increasing_drop t0 t l n :
  increasing t0 l → (n ≤ length l)%nat → t ≤ clk t0 l n → increasing t (drop n l).
Proof.
  revert t0 n. induction l as [|c l IH]; intros t0 [|n]; cbn [drop increasing length]; try done; try lia.
  - intros [H1 H2] _ Ht. change (clk t0 (c :: l) 0) with t0 in Ht. split; [lia|done].
  - intros [H1 H2] Hn Ht. apply (IH c); [done|lia|exact Ht].
Qed.

Lemma last_move_times t i a n : (0 < n)%nat → last (move_times t i a n) = Some (step_time t i a (Z.of_nat n)).
Proof.
  intros Hn. rewrite last_lookup, length_move_times, move_times_lookup by lia. do 2 f_equal. lia.
Qed.

(** ** One move *)

Definition step_args (sc : stepcompress) (m : step_move) : list Z :=
  [u32 (sc_queue_step_msgtag sc); sc_oid sc; mv_interval m; mv_count m; u32 (mv_add m)].
(** [qm] carries the arguments of [queue_step] for [m]. *)
Definition carries (sc : stepcompress) (m : step_move) (qm : queue_message) : Prop :=
  message_alloc_and_encode (step_args sc m) = Some qm ∧ payload_of qm = vlq_bytes (step_args sc m).

(** What flushing never changes. *)
Definition config (sc : stepcompress) : Z * Z * Z * Z * (Z * Z) * (Z * Z) :=
  (sc_max_error sc, sc_oid sc, sc_queue_step_msgtag sc, sc_set_next_step_dir_msgtag sc,
   (sc_sdir sc, sc_invert_sdir sc), (sc_next_step_clock sc, sc_next_step_dir sc)).

(** The queue [l] is within the bounds of the arithmetic. *)
Record host_ok (sc : stepcompress) (l : list Z) : Prop := {
  ho_queued : queued sc l;
  ho_len : Z.of_nat (length l) ≤ 46341;
  ho_me : 0 ≤ sc_max_error sc;
  ho_err : sc_max_error sc * Z.of_nat (length l) ≤ 2 ^ 28;
  ho_oid : 0 ≤ sc_oid sc < 2 ^ 32;
}.

(** The state after a move. *)
Definition moved (sc : stepcompress) (m : step_move) (s' : stepcompress) : Prop :=
  ∃ qm min_clock req_clock hs, carries sc m qm ∧
    s' = sc <| sc_msg_queue := sc_msg_queue sc ++ [mk_host_message qm min_clock req_clock] |>
            <| sc_last_step_clock := move_end (sc_last_step_clock sc) m |>
            <| sc_last_position := sc_last_position sc + (if nz (sc_sdir sc) then mv_count m else - mv_count m) |>
            <| sc_history_list := hs :: sc_history_list sc |>.

Section flush.
Context {OS : HostOS}.

(** The last step of an accepted move. *)
Lemma accepted_end sc l m :
  host_ok sc l → move_range l m → accepted sc l m →
  let n := Z.to_nat (mv_count m) in
  sc_last_step_clock sc + mv_interval m ≤ move_end (sc_last_step_clock sc) m ≤ clk (sc_last_step_clock sc) l n ∧
  - CDM < mv_add m * addfactor_of (mv_count m) < CDM.
Proof.
  intros [Hq Hlen Hme Herr _] Hr Hacc n. pose proof (accepted_interval sc l Hq Hme m Hr Hacc) as Hi.
  destruct Hr as (_ & Hc & Ha), Hacc as [Hpos Hacc]. apply accurate_valid in Hacc; [|done..|lia].
  assert (small (mv_add m)) as Hs by (unfold small; lia).
  destruct (valid_magnitudes (Z.of_nat (length l)) (point_lo sc l) (point_hi sc l) ltac:(lia)
    ltac:(apply point_hi_0) ltac:(intros; by apply point_bounds) ltac:(intros; by apply point_step)
    (mv_interval m) (mv_add m) (mv_count m) ltac:(lia) Hs Hacc) as [_ MF _ _ _].
  split; [|done]. unfold move_end. rewrite at_step_time by lia.
  pose proof (Hacc (mv_count m) ltac:(lia)) as Hn. unfold point_hi in Hn at 1. fold n in Hn.
  pose proof (Hacc 1 ltac:(lia)) as H1. unfold at_step in H1. change (addfactor_of 1) with 0 in H1.
  assert (mv_interval m ≤ at_step (mv_interval m) (mv_add m) (mv_count m)) as Hge; [|lia].
  destruct (decide (mv_count m = 1)) as [->|]; [unfold at_step; change (addfactor_of 1) with 0; lia|].
  pose proof (point_bounds sc l Hq Hme (mv_count m) ltac:(lia)) as Hb.
  pose proof (Hacc (mv_count m - 1) ltac:(lia)) as Hn1.
  assert (∀ k, 1 ≤ k → k ≤ mv_count m → point_hi sc l 1 ≤ point_hi sc l k) as Hmono.
  { intros k Hk. revert k Hk. apply (Zlt_lower_bound_ind (λ k, k ≤ mv_count m → point_hi sc l 1 ≤ point_hi sc l k)).
    intros k IH Hk Hkc. destruct (decide (k = 1)) as [->|]; [lia|]. specialize (IH (k - 1) ltac:(lia) ltac:(lia)).
    pose proof (point_step sc l Hq k ltac:(lia)). lia. }
  specialize (Hmono (mv_count m - 1) ltac:(lia) ltac:(lia)). lia.
Qed.

Lemma clk_bound sc l n :
  queued sc l → (0 < n ≤ length l)%nat →
  clk (sc_last_step_clock sc) l n < sc_last_step_clock sc + CDM ∧ clk (sc_last_step_clock sc) l n < 2 ^ 63.
Proof.
  intros [_ _ _ Hn _] Hl. destruct n as [|n]; [lia|]. destruct (lookup_lt_is_Some_2 l n) as [c Hc]; [lia|].
  rewrite (clk_S _ _ _ _ Hc). rewrite Forall_lookup in Hn. by apply (Hn n).
Qed.

Lemma wp_add_move sc l m :
  host_ok sc l → move_range l m → accepted sc l m →
  wp (add_move (u64 (sc_last_step_clock sc + mv_interval m)) m) sc (λ _ s', moved sc m s') no_shut.
Proof.
  intros Hok Hr Hacc. destruct (accepted_end sc l m Hok Hr Hacc) as [[He1 He2] HF]. destruct (Hok) as [Hq Hlen Hme _ Hoid].
  pose proof (accepted_interval sc l Hq Hme m Hr Hacc) as Hi. destruct Hr as (_ & Hc & Ha), Hacc as [Hpos _].
  pose proof (clk_bound sc l (Z.to_nat (mv_count m)) Hq ltac:(lia)) as Hb. pose proof (q_clock _ _ Hq) as Hlsc.
  assert (u64 (sc_last_step_clock sc + mv_interval m) = sc_last_step_clock sc + mv_interval m) as -> by (apply Z.mod_small; lia).
  assert (Forall is_u32 (step_args sc m)) as Hargs.
  { unfold step_args, is_u32. change (2 ^ 32) with 4294967296 in *.
    repeat (apply Forall_cons_2; [first [apply u32_range|lia]|]). by apply Forall_nil_2. }
  destruct (encode_payload_eq (step_args sc m) Hargs) as (qm & Eqm & _ & Hpay).
  { pose proof (vlq_bytes_length _ Hargs) as Hv. cbn [length step_args] in Hv. lia. }
  unfold add_move. do 2 hstep. assert (0 ≤ mv_count m * (mv_count m - 1) ≤ 46341 * 46340) by (clear -Hc Hpos Hlen; nia).
  apply wp_bind, wp_int32s; [in_range; lia|]. cbv zeta. unfold add_message. fold (step_args sc m). rewrite Eqm.
  do 4 hstep. hstep. exists qm. eexists _, _, _. split; [by split|].
  assert (u64 (sc_last_step_clock sc + mv_interval m +
    u32 (mv_add m * addfactor_of (mv_count m) + mv_interval m * (mv_count m - 1))) =
    move_end (sc_last_step_clock sc) m) as ->; [|reflexivity].
  unfold move_end in *. rewrite at_step_time in * by lia. unfold at_step in *. rewrite u32_small by lia.
  unfold u64. rewrite Z.mod_small by lia. lia.
Qed.

(** What is left of the queue after a move. *)
Lemma moved_queued sc l m s' :
  host_ok sc l → move_range l m → accepted sc l m → moved sc m s' →
  let n := Z.to_nat (mv_count m) in
  host_ok (if decide (length l = n) then s' <| sc_pos := 0%nat |> <| sc_next := 0%nat |>
           else s' <| sc_pos := (sc_pos sc + n)%nat |>) (drop n l).
Proof.
  intros Hok Hr Hacc (qm & mc & rc & hs & _ & ->) n. destruct (accepted_end sc l m Hok Hr Hacc) as [[He1 He2] _].
  fold n in He2. destruct (Hok) as [Hq Hlen Hme Herr Hoid]. pose proof (accepted_interval sc l Hq Hme m Hr Hacc) as Hi.
  destruct Hr as (_ & Hc & _), Hacc as [Hpos _]. pose proof (clk_bound sc l n Hq ltac:(lia)) as Hb.
  destruct Hq as [[Hs1 Hs2] Hpend Hincr Hnear [Hl0 Hl1]].
  assert (increasing (move_end (sc_last_step_clock sc) m) (drop n l)) as Hi'.
  { apply (increasing_drop (sc_last_step_clock sc)); [done|lia|done]. }
  assert (Forall (λ c, c < move_end (sc_last_step_clock sc) m + CDM ∧ c < 2 ^ 63) (drop n l)) as Hn'.
  { apply Forall_drop. eapply Forall_impl; [exact Hnear|]. cbn beta. lia. }
  destruct (decide (length l = n)) as [E|E].
  - rewrite drop_ge in * by lia. split; cbn [sc_max_error sc_oid upd length]; try done; try lia.
    split; cbn [sc_pos sc_next sc_queue sc_last_step_clock upd length]; try done; lia.
  - split; cbn [sc_max_error sc_oid upd]; rewrite ?length_drop; try done; try lia.
    split; cbn [sc_pos sc_next sc_queue sc_last_step_clock upd]; rewrite ?length_drop; try done; try lia.
    intros i c Hic. rewrite lookup_drop in Hic. rewrite <- Nat.add_assoc. by apply Hpend.
Qed.

(** ** The whole flush *)

(** From [sc] with the queue [l] the moves [ms] were sent, which cover its first [k] steps. *)
Record flushed (sc : stepcompress) (l : list Z) (k : nat) (ms : list step_move) (s' : stepcompress) : Prop := {
  fl_len : (k ≤ length l)%nat;
  fl_on_time : Forall2 (on_time (sc_max_error sc)) (take k l) (schedule (sc_last_step_clock sc) ms);
  fl_order : increasing (sc_last_step_clock sc) (schedule (sc_last_step_clock sc) ms);
  fl_rest : host_ok s' (drop k l);
  fl_clock : sc_last_step_clock s' =
    default (sc_last_step_clock sc) (last (schedule (sc_last_step_clock sc) ms));
  fl_messages : ∃ qms, hm_msg <$> sc_msg_queue s' = (hm_msg <$> sc_msg_queue sc) ++ qms ∧
    Forall2 (carries sc) ms qms;
  fl_position : sc_last_position s' = sc_last_position sc +
    (if nz (sc_sdir sc) then Z.of_nat k else - Z.of_nat k);
  fl_config : config s' = config sc;
  fl_array : sc_queue s' = sc_queue sc ∧ (drop k l ≠ [] → sc_next s' = sc_next sc);
}.

Lemma flushed_refl sc l : host_ok sc l → flushed sc l 0 [] sc.
Proof.
  intros Hok. split; cbn [schedule take drop last default].
  - lia.
  - constructor.
  - done.
  - done.
  - done.
  - exists []. split; [by rewrite app_nil_r|constructor].
  - destruct (nz _); lia.
  - done.
  - done.
Qed.

(** One more move in front. *)
Lemma flushed_cons sc l m s1 pos next k ms s' :
  host_ok sc l → move_range l m → accepted sc l m → moved sc m s1 →
  let n := Z.to_nat (mv_count m) in
  (drop n l ≠ [] → next = sc_next sc) →
  flushed (s1 <| sc_pos := pos |> <| sc_next := next |>) (drop n l) k ms s' → flushed sc l (n + k) (m :: ms) s'.
Proof.
  intros Hok Hr Hacc Hmv n Hnext Hfl. destruct (Hok) as [Hq Hlen Hme _ _].
  assert ((0 < n)%nat ∧ (n ≤ length l)%nat) as [Hn0 Hn] by (destruct Hr as (_ & Hc & _), Hacc as [Hp _]; lia).
  destruct Hmv as (qm & mc & rc & hs & Hcar & ->). destruct Hfl as [F1 F2 F3 F4 F5 (qms & F6 & F6') F7 F8 [F9 F10]].
  cbn [sc_queue sc_next sc_max_error sc_last_step_clock sc_msg_queue sc_last_position sc_sdir upd] in *.
  destruct Hacc as [Hpos Hacc]. fold n in Hacc.
  destruct (accurate_on_time _ _ (sc_last_step_clock sc) _ _ Hme Hacc) as [A1 A2]; [by apply increasing_take, q_incr|lia|].
  assert (last (move_times (sc_last_step_clock sc) (mv_interval m) (mv_add m) n) =
    Some (move_end (sc_last_step_clock sc) m)) as Hlast.
  { rewrite last_move_times by done. unfold move_end. do 2 f_equal. lia. }
  rewrite length_drop in F1. split; cbn [schedule]; fold n.
  - lia.
  - rewrite <- take_take_drop. by apply Forall2_app.
  - apply increasing_app; [done|]. by rewrite Hlast.
  - by rewrite <- drop_drop.
  - rewrite F5, last_app, Hlast. by destruct (last (schedule _ _)).
  - exists (qm :: qms). split; [rewrite F6, fmap_app, <- app_assoc; done|]. constructor; [done|exact F6'].
  - rewrite F7. destruct (nz (sc_sdir sc)); lia.
  - by rewrite F8.
  - split; [exact F9|]. rewrite <- drop_drop. intros Hne. rewrite F10 by done. apply Hnext. intros E. by rewrite E, drop_nil in Hne.
Qed.

Lemma wp_flush_loop fuel mc sc l :
  host_ok sc l → l ≠ [] → (length l < fuel)%nat →
  wp (flush_loop fuel mc) sc
    (λ r s', r = 0 ∧ ∃ k ms, flushed sc l k ms s' ∧ (drop k l = [] ∨ mc ≤ sc_last_step_clock s')) no_shut.
Proof.
  revert sc l. induction fuel as [|fuel IH]; intros sc l Hok Hne Hf; [lia|]. cbn [flush_loop]. do 2 hstep.
  destruct (Z.ltb_spec (sc_last_step_clock sc) mc) as [Hlt|Hge]; cbn [negb].
  2:{ hstep. split; [done|]. exists 0%nat, []. split; [by apply flushed_refl|by right]. }
  destruct (Hok) as [Hq Hlen Hme Herr _].
  assert ((1 ≤ length l)%nat) as Hl1 by (destruct l; cbn; [done|lia]).
  hstep. eapply wp_conseq; [by apply (wp_compress_bisect_add sc l)|]. cbn beta. intros m s' (-> & Hr & Hacc).
  hstep. destruct (check_line_cases sc l Hq Hme m Hr) as [[Ec _]|[_ Hno]]; [|done].
  eapply wp_of_eq; [exact Ec|]. cbn [nz Z.eqb negb]. hstep.
  eapply wp_conseq; [by apply (wp_add_move sc l)|]. cbn beta. intros _ s1 Hmv. set (n := Z.to_nat (mv_count m)).
  pose proof (moved_queued sc l m s1 Hok Hr Hacc Hmv) as Hok1. cbv zeta in Hok1. fold n in Hok1.
  destruct (q_space _ _ Hq) as [Hsp _]. cbv zeta.
  assert ((0 < n ≤ length l)%nat) as Hn by (destruct Hr as (_ & Hc & _), Hacc as [Hp _]; lia).
  destruct (Nat.leb_spec (sc_next sc) (sc_pos sc + n)) as [Hall|Hmore].
  - do 3 hstep. split; [done|]. exists n, [m]. rewrite decide_True in Hok1 by lia. split; [|left; by rewrite drop_ge by lia].
    rewrite <- (Nat.add_0_r n). apply (flushed_cons sc l m s1 0%nat 0%nat); try done; [|by apply flushed_refl].
    fold n. by rewrite drop_ge by lia.
  - rewrite decide_False in Hok1 by lia. do 2 hstep.
    assert (length (drop n l) = (length l - n)%nat) as Hdl by apply length_drop.
    eapply wp_conseq; [apply (IH _ (drop n l) Hok1); [|lia]|].
    { intros E. rewrite E in Hdl. cbn in Hdl. lia. }
    cbn beta. intros r s' (-> & k & ms & Hfl & Hdone). split; [done|]. exists (n + k)%nat, (m :: ms).
    split; [|by rewrite <- drop_drop]. apply (flushed_cons sc l m s1 (sc_pos sc + n)%nat (sc_next s1)); try done.
    intros _. by destruct Hmv as (? & ? & ? & ? & _ & ->).
Qed.

Lemma wp_queue_flush move_clock sc l :
  host_ok sc l →
  wp (queue_flush move_clock) sc (λ r s', r = 0 ∧ ∃ k ms, flushed sc l k ms s' ∧
    (drop k l = [] ∨ move_clock ≤ sc_last_step_clock s')) no_shut.
Proof.
  intros Hok. unfold queue_flush. do 2 hstep. destruct (q_space _ _ (ho_queued _ _ Hok)) as [Hsp _].
  destruct (Nat.leb_spec (sc_next sc) (sc_pos sc)) as [He|He].
  { hstep. split; [done|]. exists 0%nat, []. split; [by apply flushed_refl|left]. destruct l; [done|cbn in Hsp; lia]. }
  hstep. eapply wp_conseq; [apply (wp_flush_loop _ move_clock sc l Hok)|].
  - intros ->. cbn in Hsp. lia.
  - lia.
  - cbn beta. intros r s1 (-> & k & ms & Hfl & Hd). cbn [nz Z.eqb negb]. hstep. unfold calc_last_step_print_time. do 4 hstep.
    match goal with |- wp (whenM ?b _) _ _ _ => destruct b end; cbn [whenM]; [unfold free_history|]; hstep; cbn beta; hstep; (split; [done|]); exists k, ms; (split; [|done]).
    all: destruct Hfl as [F1 F2 F3 F4 F5 F6 F7 F8 F9]; split; try done; destruct F4 as [[] ? ? ? ?]; by split; [split|..].
Qed.

(** C7: queue_flush of the host refines the list of requested step clocks. For at most 46341
    queued steps whose number times max_error is at most 2^28 (beyond, the arithmetic of the
    bisection can overflow) it succeeds, and the queue_step messages it appends, executed with
    the firmware's step times, give exactly one step for each flushed request, in order, at its
    clock or at most max_error earlier; the rest of the queue, the last step clock and the
    position are kept in step, and it stops only when the queue is empty or the flush clock is
    reached. *)
Theorem queue_flush_on_time move_clock sc l :
  host_ok sc l →
  ∃ s' k ms, queue_flush move_clock sc = Ret 0 s' ∧ flushed sc l k ms s' ∧
    (drop k l = [] ∨ move_clock ≤ sc_last_step_clock s').
Proof.
  intros Hok. destruct (wp_returns _ _ _ (wp_queue_flush move_clock sc l Hok)) as (r & s' & E & -> & k & ms & Hfl & Hd).
  by exists s', k, ms.
Qed.
End flush.

(** * Appending steps to the queue

    The queue grows, or is shifted to the front of its array, without losing a step; only the
    path for a step far in the future writes to the array without looking for room. *)

Section append.
Context {OS : HostOS}.

Lemma increasing_snoc t0 l c :
  increasing t0 l → default t0 (last l) < c → increasing t0 (l ++ [c]).
Proof. intros H1 H2. apply increasing_app; [done|]. by split. Qed.

(** Storing one more step where there is room. *)
Lemma wp_queue_push sc l c :
  queued sc l → (sc_next sc < length (sc_queue sc))%nat → default (sc_last_step_clock sc) (last l) < c →
  c < sc_last_step_clock sc + CDM → c < 2 ^ 63 →
  wp (queue_push c) sc (λ _ s', queued s' (l ++ [c]) ∧
    s' = sc <| sc_queue := sc_queue s' |> <| sc_next := sc_next s' |>) no_shut.
Proof.
  intros [[Hs1 Hs2] Hp Hi Hn Hc] Hroom Hlast Hfar H63. unfold queue_push. do 2 hstep.
  rewrite (proj2 (Nat.ltb_lt _ _)) by done. hstep. split; [|by destruct sc].
  split; cbn [sc_pos sc_next sc_queue sc_last_step_clock upd]; try done.
  - rewrite length_app, length_insert. cbn [length]. lia.
  - intros i x Hx. destruct (decide (i = length l)) as [->|Hne].
    + rewrite lookup_app_r, Nat.sub_diag in Hx by lia. injection Hx as <-. rewrite Hs1. apply list_lookup_insert_eq. lia.
    + pose proof (lookup_lt_Some _ _ _ Hx) as Hlt. rewrite length_app in Hlt. cbn in Hlt.
      rewrite lookup_app_l in Hx by lia. rewrite list_lookup_insert_ne by lia. by apply Hp.
  - by apply increasing_snoc.
  - apply Forall_app_2; [done|]. by apply Forall_singleton.
Qed.

(** Making room keeps the steps. *)
Lemma wp_make_room sc l :
  queued sc l → sc_next sc = length (sc_queue sc) → Z.of_nat (length l) ≤ 46341 →
  wp make_room sc (λ _ s', queued s' l ∧ (sc_next s' < length (sc_queue s'))%nat ∧
    s' = sc <| sc_queue := sc_queue s' |> <| sc_pos := sc_pos s' |> <| sc_next := sc_next s' |>) no_shut.
Proof.
  intros [[Hs1 Hs2] Hp Hi Hn Hc] Hfull Hlen. unfold make_room. do 2 hstep.
  replace (sc_next sc - sc_pos sc)%nat with (length l) by lia. hstep.
  apply (wp_conseq _ _ (λ queue s', s' = sc ∧ (length l < length queue)%nat ∧
    ∀ i c, l !! i = Some c → queue !! i = Some (u32 c))).
  { destruct (Nat.ltb_spec 0 (sc_pos sc)) as [Hpos|Hpos].
    - hstep. split; [done|]. split; [rewrite length_app, length_take, !length_drop; lia|].
      intros i c Hic. pose proof (lookup_lt_Some _ _ _ Hic). rewrite lookup_app_l by (rewrite length_take, length_drop; lia).
      rewrite lookup_take_lt, lookup_drop by lia. by apply Hp.
    - set (alloc := if Z.of_nat (length (sc_queue sc)) =? 0 then QUEUE_START_SIZE else Z.of_nat (length (sc_queue sc))).
      hstep. apply (wp_conseq _ _ (λ r s', s' = sc ∧ Z.of_nat (length l) < r)).
      { cbn [grow]. destruct (Z.leb_spec alloc (Z.of_nat (length l))) as [Hle|Hgt]; [|hstep; by split].
        assert (alloc = Z.of_nat (length l) ∧ 0 < alloc) as [Ea Ha0].
        { unfold alloc in *. destruct (Z.eqb_spec (Z.of_nat (length (sc_queue sc))) 0); unfold QUEUE_START_SIZE in *; lia. }
        apply wp_bind, wp_int32s; [in_range; lia|]. rewrite (proj2 (Z.leb_gt (alloc * 2) _)) by lia. hstep. split; [done|lia]. }
      cbn beta. intros r s' [-> Hr]. hstep. split; [done|]. split; [rewrite length_app, length_replicate; lia|].
      intros i c Hic. specialize (Hp i c Hic). replace (sc_pos sc + i)%nat with i in Hp by lia.
      rewrite lookup_app_l by (by apply lookup_lt_Some in Hp). done. }
  cbn beta. intros queue s' (-> & Hl & Hq). hstep. split; [|split; [done|by destruct sc]].
  split; cbn [sc_pos sc_next sc_queue sc_last_step_clock upd]; try done. lia.
Qed.

(** queue_append of a step in the same direction, near enough to the last one, appends exactly
    this step to the queue and stays inside the array, whether there is room, the queue is
    shifted to the front, or the array is enlarged; no message is sent. *)
Theorem queue_append_keeps_steps sc l c :
  queued sc l → Z.of_nat (length l) ≤ 46341 → sc_next_step_dir sc = sc_sdir sc → sc_next_step_clock sc = c →
  default (sc_last_step_clock sc) (last l) < c → c < sc_last_step_clock sc + CDM → c < 2 ^ 63 →
  ∃ s', queue_append sc = Ret 0 s' ∧ queued s' (l ++ [c]) ∧ sc_next_step_clock s' = 0 ∧
    sc_last_step_clock s' = sc_last_step_clock sc ∧ sc_msg_queue s' = sc_msg_queue sc.
Proof.
  intros Hq Hlen Hdir Hnc Hlast Hfar H63. pose proof (q_clock _ _ Hq) as Hl. pose proof (q_space _ _ Hq) as [Hs1 Hs2].
  set (post (r : Z) (s' : stepcompress) := r = 0 ∧ queued s' (l ++ [c]) ∧ sc_next_step_clock s' = 0 ∧
    sc_last_step_clock s' = sc_last_step_clock sc ∧ sc_msg_queue s' = sc_msg_queue sc).
  assert (∀ s0, queued s0 l → (sc_next s0 < length (sc_queue s0))%nat → sc_last_step_clock s0 = sc_last_step_clock sc →
    sc_msg_queue s0 = sc_msg_queue sc →
    wp (queue_push c;;; modify (λ sc, sc <| sc_next_step_clock := 0 |>);;; mret 0) s0 post no_shut) as Hstore.
  { intros s0 Hq0 Hroom El Em. hstep. eapply wp_conseq; [apply (wp_queue_push s0 l c); rewrite ?El; done|].
    cbn beta. intros _ s1 [Hq1 Es1]. do 3 hstep. destruct Hq1 as [Q1 Q2 Q3 Q4 Q5]. split; [done|].
    split; [by split|]. split; [done|]. cbn [sc_last_step_clock sc_msg_queue upd]. rewrite Es1. by split. }
  assert (wp queue_append sc post no_shut) as H.
  { unfold queue_append. do 2 hstep. rewrite Hdir, Z.eqb_refl. cbn [negb]. do 2 hstep. change (nz 0) with false. cbn iota.
    do 2 hstep. rewrite Hnc. unfold CLOCK_DIFF_MAX. change (Z.shiftl 3 28) with CDM.
    assert (u64 (sc_last_step_clock sc + CDM) = sc_last_step_clock sc + CDM) as -> by (apply Z.mod_small; lia).
    rewrite (proj2 (Z.leb_gt _ _)) by lia. destruct (Nat.leb_spec (length (sc_queue sc)) (sc_next sc)) as [Hfull|Hroom].
    2: by apply Hstore.
    unfold queue_append_extend. do 2 hstep. rewrite (proj2 (Nat.ltb_ge _ _)) by lia. do 2 hstep. change (nz 0) with false.
    cbn iota. do 2 hstep. rewrite (proj2 (Nat.leb_le _ _)) by lia. do 2 hstep.
    eapply wp_conseq; [apply (wp_make_room sc l); [done|lia|done]|]. cbn beta. intros _ s1 (Hq1 & Hroom & Es1).
    do 2 hstep. rewrite Es1 at 1. cbn [sc_next_step_clock upd]. rewrite Hnc. apply Hstore; [done|done|by rewrite Es1..]. }
  destruct (wp_returns _ _ _ H) as (r & s' & E & -> & ? & ? & ? & ?). by exists s'.
Qed.
(** C40: A step queue whose array is full, with a pending step in the same direction that is
    CLOCK_DIFF_MAX or more after the last step sent: if the flush of queue_append_far leaves
    steps in the queue, queue_next is still at the end of the array, stepcompress_commit comes
    down to the store of the pending step, and this store is behind the array. *)
Theorem queue_append_far_overruns sc l :
  host_ok sc l → sc_next sc = length (sc_queue sc) → sc_next_step_dir sc = sc_sdir sc →
  let c := sc_next_step_clock sc in
  sc_last_step_clock sc + CLOCK_DIFF_MAX ≤ c < 2 ^ 63 →
  ∃ s', queue_flush (c - CLOCK_DIFF_MAX + 1) (sc <| sc_next_step_clock := 0 |>) = Ret 0 s' ∧
    ((sc_pos s' < sc_next s')%nat →
     sc_next s' = length (sc_queue s') ∧ stepcompress_commit sc = (queue_push c;;; mret 0) s' ∧ queue_push c s' = Undef).
Proof.
  intros Hok Hfull Hdir c Hc. unfold CLOCK_DIFF_MAX in *. change (Z.shiftl 3 28) with CDM in *.
  pose proof (q_clock _ _ (ho_queued _ _ Hok)) as Hl. set (sc0 := sc <| sc_next_step_clock := 0 |>).
  assert (host_ok sc0 l) as Hok0 by (destruct Hok as [[] ? ? ? ?]; by split; [split|..]).
  destruct (wp_returns _ _ _ (wp_queue_flush (c - CDM + 1) sc0 l Hok0)) as (r & s' & Hrun & -> & k & ms & [_ _ _ Hrest _ _ _ _ [Hq Hn]] & Hend).
  exists s'. split; [exact Hrun|]. intros Hleft. destruct (ho_queued _ _ Hrest) as [[Hs1 Hs2] _ _ _ Hl'].
  assert (drop k l ≠ []) as Hne by (intros E; rewrite E in Hs1; cbn in Hs1; lia). destruct Hend as [?|Hend]; [done|].
  assert (sc_next s' = length (sc_queue s')) as Hend' by (rewrite Hn by done; by rewrite Hq). split; [done|]. split.
  - unfold stepcompress_commit, queue_append, queue_append_far, mbind, M_bind, get, modify.
    assert (nz (sc_next_step_clock sc) = true) as -> by (unfold nz; fold c; rewrite (proj2 (Z.eqb_neq c 0)); [done|lia]).
    rewrite Hdir, Z.eqb_refl. cbn [negb mret M_ret nz Z.eqb]. fold c. unfold CLOCK_DIFF_MAX. change (Z.shiftl 3 28) with CDM.
    assert (u64 (sc_last_step_clock sc + CDM) = sc_last_step_clock sc + CDM) as -> by (apply Z.mod_small; lia).
    rewrite (proj2 (Z.leb_le _ c)) by lia. fold c.
    assert (u64 (c - CDM + 1) = c - CDM + 1) as -> by (apply Z.mod_small; lia).
    change (upd sc_next_step_clock _ sc) with sc0. rewrite Hrun. cbn [nz Z.eqb negb].
    assert (u64 (sc_last_step_clock s' + CDM) = sc_last_step_clock s' + CDM) as -> by (apply Z.mod_small; lia).
    by rewrite (proj2 (Z.leb_gt _ c)) by lia.
  - unfold queue_push, mbind, M_bind, get. by rewrite (proj2 (Nat.ltb_ge _ _)) by lia.
Qed.
End append.

(** ** A step far in the future *)

(** A machine of one tick per second, on a host whose calls succeed. *)
#[local] Instance calm_host : HostOS := {| os_write _ := true; os_monotonic _ := dint 0; os_toint _ := 0 |}.

(** Steps at the clocks [cs], all in direction 1, from a new object. *)
Fixpoint append_all (cs : list Z) : HC Z :=
  match cs with
  | [] => mret 0
  | c :: cs =>
      let! ret := stepcompress_append 1 (dint 0) (dint c) in
      if nz ret then mret ret else append_all cs
  end.
Definition new_sc : stepcompress :=
  (stepcompress_alloc 3) <| sc_max_error := 25 |> <| sc_queue_step_msgtag := 5 |>.
Definition append_run (cs : list Z) : HC Z := stepcompress_set_time (dint 0) (dint 1);;; append_all cs.

(** 512 steps every 10000 ticks, then 512 slow ones, which fill the array of 1024. *)
Definition slow_steps : list Z :=
  ((λ i, 10000 * Z.of_nat i) <$> seq 1 512) ++ ((λ i, 5120000 + 1562000 * Z.of_nat i) <$> seq 1 512).
(** The next step is 805306368 + 100 ticks after the last one sent. *)
Definition far_step : Z := CLOCK_DIFF_MAX + 100.


(** The run of appends ends with a full array and the far step pending. *)
Definition overrun_sc : stepcompress :=
  match append_run (slow_steps ++ [far_step]) new_sc with Ret _ s => s | _ => new_sc end.

Fixpoint increasing_b (t : Z) (l : list Z) : bool :=
  match l with [] => true | c :: l => (t <? c) && increasing_b c l end.
Lemma increasing_b_spec t l : increasing_b t l = true → increasing t l.
Proof. revert t. induction l as [|c l IH]; intros t; [done|]. cbn. intros [H1%Z.ltb_lt H2]%andb_true_iff. auto. Qed.

Lemma overrun_sc_ok : host_ok overrun_sc slow_steps.
Proof.
  assert (sc_queue overrun_sc = u32 <$> slow_steps ∧ sc_pos overrun_sc = 0%nat ∧ sc_next overrun_sc = 1024%nat ∧
    length slow_steps = 1024%nat ∧ sc_last_step_clock overrun_sc = 0 ∧ sc_max_error overrun_sc = 25 ∧ sc_oid overrun_sc = 3)
    as (Eq & Ep & En & El & Ec & Em & Eo) by (vm_compute; repeat split).
  split; [|rewrite ?El, ?Em, ?Eo; cbn; lia..]. split; rewrite ?Ec.
  - rewrite Ep, En, Eq, length_fmap, El. lia.
  - intros i c Hi. by rewrite Eq, Ep, list_lookup_fmap, Nat.add_0_l, Hi.
  - apply increasing_b_spec. vm_compute. reflexivity.
  - apply Forall_forall. intros c Hc%list_elem_of_In.
    assert (forallb (λ c, c <? 805306368) slow_steps = true) as Hf by (vm_compute; reflexivity).
    pose proof (proj1 (forallb_forall _ _) Hf c Hc) as H%Z.ltb_lt. lia.
  - lia.
Qed.

Lemma queue_append_far_witness :
  append_run (slow_steps ++ [far_step]) new_sc = Ret 0 overrun_sc ∧ stepcompress_commit overrun_sc = Undef.
Proof.
  split; [vm_compute; reflexivity|].
  destruct (queue_append_far_overruns overrun_sc slow_steps overrun_sc_ok) as (s' & Hrun & H).
  - vm_compute. reflexivity.
  - vm_compute. reflexivity.
  - vm_compute. split; [discriminate|reflexivity].
  - assert (match queue_flush (sc_next_step_clock overrun_sc - CLOCK_DIFF_MAX + 1) (overrun_sc <| sc_next_step_clock := 0 |>) with
            | Ret _ s => (sc_pos s <? sc_next s)%nat | _ => false end = true) as Hleft by (vm_compute; reflexivity).
    rewrite Hrun in Hleft. apply Nat.ltb_lt in Hleft. destruct (H Hleft) as (_ & Hcommit & Hpush).
    rewrite Hcommit. unfold mbind, M_bind. by rewrite Hpush.
Defined.
