(* ===== verification/SteppersyncSpec.v ===== *)
(** * The host never overfills the move queue of the micro-controller

    [steppersync] tracks in a binary heap when each slot of the queue becomes free.
    [heap_replace] keeps the heap and replaces its smallest clock, so a command that waits for
    the smallest clock of the heap finds a free slot. *)

From S2P Require Import Prelude State StepCompress BisectSpec.
From Stdlib Require Import Permutation.

(** ** The heap *)

Definition parent (i : nat) : nat := ((i - 1) / 2)%nat.
Definition is_heap (mc : list Z) : Prop :=
  ∀ i x y, (0 < i)%nat → mc !! parent i = Some x → mc !! i = Some y → x ≤ y.

(** A heap but for position [pos], whose value is to be replaced by [r]. *)
Definition hole_at (mc : list Z) (pos : nat) (r : Z) : Prop :=
  (∀ i x y, (0 < i)%nat → i ≠ pos → parent i ≠ pos → mc !! parent i = Some x → mc !! i = Some y → x ≤ y) ∧
  (∀ i x y, (0 < i)%nat → (0 < pos)%nat → parent i = pos → mc !! parent pos = Some x → mc !! i = Some y → x ≤ y) ∧
  (∀ x, (0 < pos)%nat → mc !! parent pos = Some x → x ≤ r).

Lemma parent_lt i : (0 < i)%nat → (parent i < i)%nat.
Proof. intros Hi. unfold parent. pose proof (Nat.div_lt_upper_bound (i - 1) 2 i). lia. Qed.
Lemma parent_children i pos : (0 < i)%nat → parent i = pos ↔ i = (2 * pos + 1)%nat ∨ i = (2 * pos + 2)%nat.
Proof.
  intros Hi. unfold parent. pose proof (Nat.div_mod_eq (i - 1) 2). pose proof (Nat.mod_upper_bound (i - 1) 2). lia.
Qed.


Lemma swap_hole (mc : list Z) pos child r c :
  (pos < length mc)%nat → child ≠ pos → mc !! child = Some c →
  <[child := r]> (<[pos := c]> mc) ≡ₚ <[pos := r]> mc.
Proof.
  intros Hp Hne Hc. rewrite <- (list_insert_insert_eq mc pos c r).
  apply (Permutation_insert_swap (<[pos := r]> mc) pos child r c).
  - by apply list_lookup_insert_eq.
  - by rewrite list_lookup_insert_ne.
Qed.

(** Putting [r] into the hole. *)
Lemma fill_hole mc pos r :
  (pos < length mc)%nat → hole_at mc pos r →
  (∀ i y, (0 < i)%nat → parent i = pos → mc !! i = Some y → r ≤ y) → is_heap (<[pos := r]> mc).
Proof.
  intros Hp (H1 & H2 & H3) Hch i x y Hi Hx Hy. pose proof (parent_lt i Hi).
  destruct (decide (i = pos)) as [->|Hne].
  - rewrite list_lookup_insert_eq in Hy by done. injection Hy as <-. rewrite list_lookup_insert_ne in Hx by lia. by apply H3.
  - rewrite list_lookup_insert_ne in Hy by done. destruct (decide (parent i = pos)) as [E|E].
    + rewrite E, list_lookup_insert_eq in Hx by done. injection Hx as <-. by apply (Hch i).
    + rewrite list_lookup_insert_ne in Hx by done. by apply (H1 i).
Qed.

(** Moving the smaller child [c] up makes a hole at its place. *)
Lemma move_hole mc pos child other r c :
  (pos < length mc)%nat → hole_at mc pos r → (0 < child)%nat → parent child = pos →
  (∀ i, (0 < i)%nat → parent i = pos → i = child ∨ i = other) →
  mc !! child = Some c → (∀ y, mc !! other = Some y → c ≤ y) → c ≤ r →
  hole_at (<[pos := c]> mc) child r.
Proof.
  intros Hp (H1 & H2 & H3) Hc0 Hcp Hcs Hc Ho Hr. pose proof (parent_lt child Hc0) as Hlt. rewrite Hcp in Hlt. split_and!.
  - intros i x y Hi Hne Hnp Hx Hy. pose proof (parent_lt i Hi). destruct (decide (i = pos)) as [->|Hip].
    { rewrite list_lookup_insert_eq in Hy by done. injection Hy as <-. rewrite list_lookup_insert_ne in Hx by lia.
      by apply (H2 child). }
    rewrite list_lookup_insert_ne in Hy by done. destruct (decide (parent i = pos)) as [E|E].
    + rewrite E, list_lookup_insert_eq in Hx by done. injection Hx as <-.
      destruct (Hcs i Hi E) as [-> | ->]; [done|by apply Ho].
    + rewrite list_lookup_insert_ne in Hx by done. by apply (H1 i).
  - intros i x y Hi _ Hip Hx Hy. rewrite Hcp, list_lookup_insert_eq in Hx by done. injection Hx as <-.
    pose proof (parent_lt i Hi). rewrite list_lookup_insert_ne in Hy by lia.
    apply (H1 i); try done; [lia|lia|by rewrite Hip].
  - intros x _ Hx. rewrite Hcp, list_lookup_insert_eq in Hx by done. by injection Hx as <-.
Qed.

Lemma sift_ok fuel ss mc pos r :
  (pos < length mc)%nat → (length mc - pos < fuel)%nat → hole_at mc pos r →
  Forall (λ x, x ≤ UINT64_MAX) mc → r ≤ UINT64_MAX →
  ∃ mc', sift fuel mc pos r ss = Ret mc' ss ∧ is_heap mc' ∧ mc' ≡ₚ <[pos := r]> mc.
Proof.
  revert mc pos. induction fuel as [|fuel IH]; intros mc pos Hp Hf Hh Hmc Hr; [lia|]. cbn [sift].
  rewrite (proj2 (Nat.leb_gt _ _)) by done. cbv zeta.
  set (c1 := clock_or_max mc (2 * pos + 1)). set (c2 := clock_or_max mc (2 * pos + 2)).
  assert (∀ i y, mc !! i = Some y → clock_or_max mc i = y) as Hclock by (intros i y E; unfold clock_or_max; by rewrite E).
  assert (∀ i, clock_or_max mc i < r → mc !! i = Some (clock_or_max mc i)) as Hsome.
  { intros i Hlt. unfold clock_or_max in *. destruct (mc !! i); [done|]. cbn in Hlt. lia. }
  assert (∀ i, clock_or_max mc i ≤ UINT64_MAX) as Hle.
  { intros i. unfold clock_or_max. destruct (mc !! i) eqn:E; [|done]. cbn. by apply (Forall_lookup_1 _ _ _ _ Hmc E). }
  destruct (_ && _) eqn:Hcond.
  { apply andb_true_iff in Hcond as [H1%Z.leb_le H2%Z.leb_le]. eexists. split; [done|]. split; [|done].
    apply fill_hole; [done..|]. intros i y Hi Hip Hy. apply parent_children in Hip as [-> | ->]; [| |done].
    - by rewrite <- (Hclock _ _ Hy).
    - by rewrite <- (Hclock _ _ Hy). }
  assert (∀ i j, (0 < i)%nat → (i = 2 * pos + 1 ∧ j = 2 * pos + 2 ∨ i = 2 * pos + 2 ∧ j = 2 * pos + 1)%nat →
    clock_or_max mc i < r → clock_or_max mc i ≤ clock_or_max mc j →
    ∃ mc', sift fuel (<[pos := clock_or_max mc i]> mc) i r ss = Ret mc' ss ∧ is_heap mc' ∧ mc' ≡ₚ <[pos := r]> mc) as Hmove.
  { intros i j Hi Hij Hlt Hmin. pose proof (Hsome i Hlt) as Hci. pose proof (lookup_lt_Some _ _ _ Hci) as Hil.
    destruct (IH (<[pos := clock_or_max mc i]> mc) i) as (mc' & E & Hheap & Hperm).
    - by rewrite length_insert.
    - rewrite length_insert. lia.
    - apply (move_hole mc pos i j); try done; [apply parent_children; lia| | |lia].
      + intros i' Hi' Hp'. apply parent_children in Hp' as [-> | ->]; lia.
      + intros y Hy. by rewrite <- (Hclock _ _ Hy).
    - by apply Forall_insert.
    - done.
    - exists mc'. split; [done|]. split; [done|]. rewrite Hperm. apply swap_hole; [done|lia|done]. }
  apply andb_false_iff in Hcond. rewrite !Z.leb_gt in Hcond. fold c1 c2 in Hmove.
  destruct (Z.ltb_spec c1 c2).
  - apply (Hmove (2 * pos + 1) (2 * pos + 2))%nat; [lia|lia|fold c1; lia|fold c1 c2; lia].
  - apply (Hmove (2 * pos + 2) (2 * pos + 1))%nat; [lia|lia|fold c2; lia|fold c1 c2; lia].
Qed.

Lemma heap_root mc x : is_heap mc → mc !! 0%nat = Some x → Forall (λ y, x ≤ y) mc.
Proof.
  intros Hh H0. apply Forall_lookup. intros i. induction i as [i IH] using lt_wf_ind. intros y Hy.
  destruct (decide (i = 0%nat)) as [->|Hne]; [by simplify_eq|]. pose proof (parent_lt i ltac:(lia)) as Hlt.
  destruct (lookup_lt_is_Some_2 mc (parent i)) as [z Hz]; [apply lookup_lt_Some in Hy; lia|].
  specialize (IH _ Hlt z Hz). specialize (Hh i z y ltac:(lia) Hz Hy). lia.
Qed.

(** [heap_replace] replaces the smallest clock of the heap by the given one and keeps the heap.
    *)
Theorem heap_replace_ok ss req_clock x :
  is_heap (ss_move_clocks ss) → ss_move_clocks ss !! 0%nat = Some x →
  Forall (λ y, y ≤ UINT64_MAX) (ss_move_clocks ss) → req_clock ≤ UINT64_MAX →
  ∃ mc, heap_replace req_clock ss = Ret tt (ss <| ss_move_clocks := mc |>) ∧ is_heap mc ∧
    x :: mc ≡ₚ req_clock :: ss_move_clocks ss ∧ Forall (λ y, x ≤ y) (ss_move_clocks ss).
Proof.
  intros Hh H0 Hmc Hr. set (mc := ss_move_clocks ss) in *. pose proof (lookup_lt_Some _ _ _ H0) as Hl.
  destruct (sift_ok (S (length mc)) ss mc 0 req_clock) as (mc' & E & Hh' & Hp); try done; [lia| |].
  { split_and!; [|lia|lia]. intros i a b Hi _ Hpi Ha Hb. by apply (Hh i). }
  exists mc'. unfold heap_replace. rewrite (bind_ret_eq get _ ss ss ss eq_refl), (bind_ret_eq _ _ _ _ _ E).
  split; [done|]. split; [done|]. split; [|by apply heap_root]. rewrite Hp. destruct mc as [|z mc]; [done|].
  cbn in H0. injection H0 as ->. cbn. apply perm_swap.
Qed.

(** ** Leases of move slots *)

(** A move holds a slot from the clock its command may be sent to the clock it is started. *)
Definition active (L : list (Z * Z)) (t : Z) : nat := length (filter (λ p, p.1 ≤ t < p.2) L).
Definition later (mc : list Z) (t : Z) : nat := length (filter (λ r, t < r) mc).

(** Every lease in force at any time is still in the heap. *)
Definition covered (L : list (Z * Z)) (mc : list Z) : Prop := ∀ t, (active L t ≤ later mc t)%nat.

#[export] Instance later_perm : Proper ((≡ₚ) ==> eq ==> eq) later.
Proof. intros l1 l2 H t ? <-. unfold later. by rewrite H. Qed.

Lemma later_cons r mc t : later (r :: mc) t = ((if decide (t < r)%Z then 1 else 0) + later mc t)%nat.
Proof. unfold later. rewrite filter_cons. by destruct (decide (t < r)). Qed.
Lemma later_length mc t : (later mc t ≤ length mc)%nat.
Proof. apply length_filter. Qed.

(** A slot that is free from [x] on is leased until [r]. *)
Lemma covered_lease L mc mc' x r :
  covered L mc → x :: mc' ≡ₚ r :: mc → x ≤ r → Forall (λ y, x ≤ y) mc → covered ((x, r) :: L) mc'.
Proof.
  intros Hc Hp Hxr Hmin t. specialize (Hc t). assert (later (x :: mc') t = later (r :: mc) t) as E by by rewrite Hp.
  rewrite !later_cons in E. unfold active in *. rewrite filter_cons. cbn [fst snd].
  destruct (decide (x ≤ t < r)); cbn [length]; destruct (decide (t < x)), (decide (t < r)); lia.
Qed.

(** ** Batches *)

Lemma lowest_spec l k best c i m :
  lowest l k best c = Some (i, m) →
  best = Some (i, m) ∨ (k ≤ i)%nat ∧ ∃ sc q, l !! (i - k)%nat = Some sc ∧ sc_msg_queue sc = m :: q.
Proof.
  revert k best c. induction l as [|sc l IH]; intros k best c; cbn [lowest]; [by left|].
  assert (∀ b c', lowest l (S k) b c' = Some (i, m) → b = Some (i, m) ∨
    (k ≤ i)%nat ∧ ∃ sc' q, (sc :: l) !! (i - k)%nat = Some sc' ∧ sc_msg_queue sc' = m :: q) as IH'.
  { intros b c' H. destruct (IH (S k) b c' H) as [Hb|(Hk & sc' & q & Hl & Hq)]; [by left|right]. split; [lia|].
    exists sc', q. split; [|done]. by replace (i - k)%nat with (S (i - S k)) by lia. }
  destruct (sc_msg_queue sc) as [|m' q] eqn:Eq; [apply IH'|]. destruct (_ <? c); [|apply IH'].
  intros H. destruct (IH' _ _ H) as [E|E]; [|by right]. injection E as -> ->. right. split; [lia|].
  exists sc, q. by rewrite Nat.sub_diag.
Qed.

Definition all_messages (l : list stepcompress) : list host_message := l ≫= sc_msg_queue.

(** Taking the first message of one queue. *)
Lemma take_message l i sc m q :
  l !! i = Some sc → sc_msg_queue sc = m :: q →
  all_messages l ≡ₚ m :: all_messages (alter (λ sc, sc <| sc_msg_queue := tail (sc_msg_queue sc) |>) i l).
Proof.
  unfold all_messages. revert i. induction l as [|sc' l IH]; intros [|i] Hl Hq; try done.
  - injection Hl as ->. cbn. by rewrite Hq.
  - cbn. rewrite (IH i Hl Hq). by rewrite Permutation_middle.
Qed.

(** The lease that the message [o] sent for [q] takes. *)
Definition lease_of (p : host_message * host_message) : option (Z * Z) :=
  if nz (hm_min_clock p.1) then Some (hm_min_clock p.2, hm_min_clock p.1) else None.
Definition leases (picked batch : list host_message) : list (Z * Z) := omap lease_of (zip picked batch).

Definition sync_ok (ss : steppersync) : Prop :=
  is_heap (ss_move_clocks ss) ∧ ss_move_clocks ss ≠ [] ∧
  Forall (λ y, y ≤ UINT64_MAX) (ss_move_clocks ss) ∧
  Forall (λ m, hm_min_clock m ≤ UINT64_MAX) (all_messages (ss_sc_list ss)).

Record batched (ss : steppersync) (picked batch : list host_message) (s' : steppersync) : Prop := {
  ba_ok : sync_ok s';
  ba_size : length (ss_move_clocks s') = length (ss_move_clocks ss);
  ba_messages : all_messages (ss_sc_list ss) ≡ₚ picked ++ all_messages (ss_sc_list s');
  ba_same : Forall2 (λ q o, hm_msg o = hm_msg q ∧ hm_req_clock o = hm_req_clock q) picked batch;
  ba_covered : ∀ L, covered L (ss_move_clocks ss) →
    Forall (λ p, p.1 ≤ p.2) (leases picked batch) → covered (rev (leases picked batch) ++ L) (ss_move_clocks s');
}.

Lemma batched_nil ss : sync_ok ss → batched ss [] [] ss.
Proof. intros Hok. by split. Qed.

(** One iteration in front of the others. *)
Lemma batched_cons ss i qm x mc1 picked batch s' :
  let ss1 := mk_ss (alter (λ sc, sc <| sc_msg_queue := tail (sc_msg_queue sc) |>) i (ss_sc_list ss)) mc1 in
  all_messages (ss_sc_list ss) ≡ₚ qm :: all_messages (ss_sc_list ss1) →
  length mc1 = length (ss_move_clocks ss) →
  (if nz (hm_min_clock qm)
   then x :: mc1 ≡ₚ hm_min_clock qm :: ss_move_clocks ss ∧ Forall (λ y, x ≤ y) (ss_move_clocks ss)
   else mc1 = ss_move_clocks ss) →
  batched ss1 picked batch s' →
  batched ss (qm :: picked) (mk_host_message (hm_msg qm) x (hm_req_clock qm) :: batch) s'.
Proof.
  intros ss1 Hm Hl Hmc [B1 B2 B3 B4 B5]. split; [done|by rewrite B2| |by constructor|].
  - cbn [app]. by rewrite Hm, B3.
  - intros L HL Hle. unfold leases in *. cbn [zip zip_with omap list_omap] in *. unfold lease_of in Hle at 1. unfold lease_of at 1. cbn [fst snd hm_min_clock] in *.
    destruct (nz (hm_min_clock qm)).
    + apply Forall_cons in Hle as [Hx Hle]. cbn [rev]. rewrite <- app_assoc. apply B5; [|done].
      destruct Hmc as [Hp Hmin]. by apply (covered_lease L (ss_move_clocks ss)).
    + apply B5; [|done]. cbn [ss_move_clocks ss1]. by rewrite Hmc.
Qed.

Lemma batch_loop_ok fuel move_clock ss :
  sync_ok ss → (length (all_messages (ss_sc_list ss)) < fuel)%nat →
  ∃ picked batch s', batch_loop fuel move_clock ss = Ret batch s' ∧ batched ss picked batch s'.
Proof.
  revert ss. induction fuel as [|fuel IH]; intros ss Hok Hf; [lia|]. cbn [batch_loop].
  rewrite (bind_ret_eq get _ ss ss ss eq_refl). destruct (lowest _ _ _ _) as [[i qm]|] eqn:El.
  2:{ exists [], [], ss. split; [done|by apply batched_nil]. }
  destruct (_ && _). { exists [], [], ss. split; [done|by apply batched_nil]. }
  apply lowest_spec in El as [?|(_ & sc & q & Hsc & Hq)]; [done|]. rewrite Nat.sub_0_r in Hsc.
  pose proof (take_message _ _ _ _ _ Hsc Hq) as Hmsg. destruct (Hok) as (Hh & Hne & Hb & Hbm).
  destruct (ss_move_clocks ss) as [|x mc] eqn:Emc; [done|].
  rewrite (bind_ret_eq _ _ ss x ss) by done.
  set (l1 := alter _ i (ss_sc_list ss)) in Hmsg.
  rewrite Hmsg in Hbm. apply Forall_cons in Hbm as [Hbq Hbm].
  assert (∃ mc1, (when nz (hm_min_clock qm) do heap_replace (hm_min_clock qm)) ss = Ret tt (ss <| ss_move_clocks := mc1 |>) ∧
    is_heap mc1 ∧ length mc1 = length (x :: mc) ∧ Forall (λ y, y ≤ UINT64_MAX) mc1 ∧
    if nz (hm_min_clock qm) then x :: mc1 ≡ₚ hm_min_clock qm :: x :: mc ∧ Forall (λ y, x ≤ y) (x :: mc)
    else mc1 = x :: mc) as (mc1 & E1 & Hh1 & Hl1 & Hb1 & Hmc1).
  { destruct (nz (hm_min_clock qm)); cbn [whenM].
    - destruct (heap_replace_ok ss (hm_min_clock qm) x) as (mc1 & E & Hh1 & Hp & Hmin); rewrite ?Emc in *; try done.
      exists mc1. split; [done|]. split; [done|]. pose proof (Permutation_length Hp) as Hpl. cbn in Hpl. split; [cbn; lia|].
      split; [|by split]. assert (Forall (λ y, y ≤ UINT64_MAX) (x :: mc1)) as Hall by (rewrite Hp; by constructor).
      by apply Forall_cons in Hall as [_ Hall].
    - exists (x :: mc). split_and!; try done. unfold mret, M_ret. rewrite <- Emc. by destruct ss. }
  rewrite (bind_ret_eq _ _ _ _ _ E1), (bind_ret_eq (modify _) _ _ tt _ eq_refl).
  set (ss1 := upd _ _ _). assert (ss1 = mk_ss l1 mc1) as -> by (unfold ss1, l1; by destruct ss).
  destruct (IH (mk_ss l1 mc1)) as (picked & batch & s' & E2 & Hba).
  { split_and!; try done. cbn. intros ->. done. }
  { cbn [ss_sc_list]. apply Permutation_length in Hmsg. cbn in Hmsg. lia. }
  rewrite (bind_ret_eq _ _ _ _ _ E2). exists (qm :: picked). eexists _, s'. split; [done|].
  apply (batched_cons ss i qm x mc1); rewrite ?Emc; done.
Qed.

(** C17: The batches of steppersync_flush never overfill the move queue of the micro-
    controller: the heap of slot clocks stays a heap, every message is sent once with its
    contents unchanged, and if every move is started no earlier than its slot becomes free,
    then at any time no more moves hold a slot than there are slots. *)
Theorem steppersync_capacity fuel move_clock ss L :
  sync_ok ss → (length (all_messages (ss_sc_list ss)) < fuel)%nat → covered L (ss_move_clocks ss) →
  ∃ picked batch s', batch_loop fuel move_clock ss = Ret batch s' ∧
    Forall2 (λ q o, hm_msg o = hm_msg q ∧ hm_req_clock o = hm_req_clock q) picked batch ∧
    all_messages (ss_sc_list ss) ≡ₚ picked ++ all_messages (ss_sc_list s') ∧ sync_ok s' ∧
    (Forall (λ p, p.1 ≤ p.2) (leases picked batch) →
     covered (rev (leases picked batch) ++ L) (ss_move_clocks s') ∧
     ∀ t, (active (rev (leases picked batch) ++ L) t ≤ length (ss_move_clocks ss))%nat).
Proof.
  intros Hok Hf HL. destruct (batch_loop_ok fuel move_clock ss Hok Hf) as (picked & batch & s' & E & [B1 B2 B3 B4 B5]).
  exists picked, batch, s'. split_and!; try done. intros Hle. specialize (B5 L HL Hle). split; [done|].
  intros t. rewrite <- B2. etransitivity; [apply B5|apply later_length].
Qed.
