(* ===== verification/TrapqSpec.v ===== *)
(** * The queue of moves

    Appended moves join in time and place, expired moves go to the history, and the sentinels
    stay at the ends of the list with an end that no print reaches. *)

From Stdlib Require Import SpecFloat.
From S2P Require Import Prelude Double DoubleSpec Trapq.

(** ** Appending *)

(** [b] starts when and where [a] ends. *)
Definition joins (a b : move) : Prop :=
  tm_print_time b = move_end a ∧ tm_start_pos b = move_get_coord a (tm_move_t a).

(** The moves of one [trapq_append]. *)
Definition phase_moves (print_time accel_t cruise_t decel_t : double) (start_pos axes_r : coord)
    (start_v cruise_v accel : double) : list move :=
  let phase (l : list move) (phase_t start_v half_accel : double) :=
    if dnz phase_t then
      let '(t, p) := match last l with
                     | Some m => (move_end m, move_get_coord m (tm_move_t m))
                     | None => (print_time, start_pos)
                     end in
      l ++ [mk_move t phase_t start_v half_accel p axes_r]
    else l in
  let l := phase [] accel_t start_v (dmul (dec 5 1) accel) in
  let l := phase l cruise_t cruise_v (dint 0) in
  phase l decel_t cruise_v (dmul (dneg (dec 5 1)) accel).

(** The move that fills the time before [m], if there is a gap. *)
Definition filler (prev m : move) : list move :=
  if dlt (move_end prev) (tm_print_time m) then [null_move prev m] else [].

Lemma move_at_middle tq pre m post :
  tq_moves tq = pre ++ m :: post → move_at (length pre) tq = Ret m tq.
Proof. intros H. unfold move_at. rewrite (bind_ret_eq get _ tq tq tq eq_refl), H. by rewrite list_lookup_middle. Qed.
Lemma tail_sentinel_eq tq pre t : tq_moves tq = pre ++ [t] → tail_sentinel tq = Ret (length pre) tq.
Proof.
  intros H. unfold tail_sentinel. rewrite (bind_ret_eq get _ tq tq tq eq_refl), H, length_app. cbn [length].
  rewrite (proj2 (Nat.eqb_neq _ _)) by lia. by replace (length pre + 1 - 1)%nat with (length pre) by lia.
Qed.
Lemma add_before_eq pre post h m :
  add_before (length pre) m (mk_trapq (pre ++ post) h) = Ret tt (mk_trapq (pre ++ m :: post) h).
Proof. unfold add_before, modify. cbn. by rewrite take_app_length, drop_app_length. Qed.
Lemma upd_move_eq f pre x post h :
  upd_move (length pre) f (mk_trapq (pre ++ x :: post) h) = Ret tt (mk_trapq (pre ++ f x :: post) h).
Proof. unfold upd_move, modify. cbn. by rewrite alter_middle. Qed.

Lemma trapq_add_move_eq h pre prev t m :
  trapq_add_move m (mk_trapq (pre ++ [prev; t]) h) =
    Ret tt (mk_trapq (pre ++ prev :: filler prev m ++ [m; t <| tm_print_time := dint 0 |>]) h).
Proof.
  set (tq := mk_trapq _ _). unfold trapq_add_move, filler.
  rewrite (bind_ret_eq _ _ _ _ _ (tail_sentinel_eq tq (pre ++ [prev]) t ltac:(cbn; by rewrite <- app_assoc))).
  replace (prev_entry (length (pre ++ [prev]))) with (mret (M := M trapq) (length pre)) by (by rewrite length_app, Nat.add_comm).
  rewrite (bind_ret_eq (mret (length pre)) _ tq (length pre) tq eq_refl).
  rewrite (bind_ret_eq _ _ _ _ _ (move_at_middle tq pre prev [t] eq_refl)). unfold tq.
  replace (pre ++ [prev; t]) with ((pre ++ [prev]) ++ [t]) by (by rewrite <- app_assoc).
  destruct (dlt (move_end prev) (tm_print_time m)).
  - set (n := null_move prev m).
    rewrite (bind_ret_eq _ _ _ (S (length (pre ++ [prev]))) (mk_trapq ((pre ++ [prev; n]) ++ [t]) h)).
    2: { rewrite (bind_ret_eq _ _ _ _ _ (add_before_eq (pre ++ [prev]) [t] h n)). by rewrite <- !app_assoc. }
    replace (S (length (pre ++ [prev]))) with (length (pre ++ [prev; n])) by (rewrite !length_app; cbn; lia).
    rewrite (bind_ret_eq _ _ _ _ _ (add_before_eq _ _ _ _)).
    replace (S (length (pre ++ [prev; n]))) with (length (pre ++ [prev; n; m])) by (rewrite !length_app; cbn; lia).
    replace ((pre ++ [prev; n]) ++ [m; t]) with ((pre ++ [prev; n; m]) ++ t :: []) by (by rewrite <- !app_assoc).
    rewrite upd_move_eq. by rewrite <- app_assoc.
  - rewrite (bind_ret_eq (mret _) _ _ _ _ eq_refl), (bind_ret_eq _ _ _ _ _ (add_before_eq _ _ _ _)).
    replace (S (length (pre ++ [prev]))) with (length (pre ++ [prev; m])) by (rewrite !length_app; cbn; lia).
    replace ((pre ++ [prev]) ++ [m; t]) with ((pre ++ [prev; m]) ++ t :: []) by (by rewrite <- !app_assoc).
    rewrite upd_move_eq. by rewrite <- app_assoc.
Qed.

Definition stale (t : move) : move := t <| tm_print_time := dint 0 |>.

Section phase.
Context (phase_t start_v half_accel : double) (axes_r : coord) (h : list move).

Lemma append_phase_first pre prev t print_time start_pos :
  dnz phase_t = true →
  let m := mk_move print_time phase_t start_v half_accel start_pos axes_r in
  append_phase phase_t start_v half_accel axes_r (print_time, start_pos) (mk_trapq (pre ++ [prev; t]) h) =
    Ret (move_end m, move_get_coord m phase_t) (mk_trapq ((pre ++ prev :: filler prev m) ++ [m; stale t]) h).
Proof.
  intros Hnz m. unfold append_phase. rewrite Hnz. rewrite (bind_ret_eq _ _ _ _ _ (trapq_add_move_eq h pre prev t m)).
  rewrite <- app_assoc. done.
Qed.
Lemma append_phase_next pre a t start_pos :
  dnz phase_t = true →
  let m := mk_move (move_end a) phase_t start_v half_accel start_pos axes_r in
  append_phase phase_t start_v half_accel axes_r (move_end a, start_pos) (mk_trapq (pre ++ [a; stale t]) h) =
    Ret (move_end m, move_get_coord m phase_t) (mk_trapq ((pre ++ [a]) ++ [m; stale t]) h).
Proof.
  intros Hnz m. rewrite append_phase_first by done. fold m. unfold filler. cbn [tm_print_time m].
  by rewrite dlt_irrefl.
Qed.
Lemma append_phase_none st tq :
  dnz phase_t = false → append_phase phase_t start_v half_accel axes_r st tq = Ret st tq.
Proof. intros Hnz. unfold append_phase. rewrite Hnz. by destruct st. Qed.
End phase.

Fixpoint joined (l : list move) : Prop :=
  match l with
  | [] => True
  | a :: l' => match l' with [] => True | b :: _ => joins a b end ∧ joined l'
  end.

Lemma trapq_append_eq h pre prev t print_time accel_t cruise_t decel_t start_pos axes_r start_v cruise_v accel :
  let ms := phase_moves print_time accel_t cruise_t decel_t start_pos axes_r start_v cruise_v accel in
  trapq_append print_time accel_t cruise_t decel_t start_pos axes_r start_v cruise_v accel (mk_trapq (pre ++ [prev; t]) h) =
    Ret tt (mk_trapq (match ms with [] => pre ++ [prev; t] | m :: _ => pre ++ prev :: filler prev m ++ ms ++ [stale t] end) h).
Proof.
  unfold trapq_append, phase_moves. cbv zeta.
  destruct (dnz accel_t) eqn:Ha, (dnz cruise_t) eqn:Hc, (dnz decel_t) eqn:Hd; cbn [last app].
  all: repeat first [rewrite (bind_ret_eq _ _ _ _ _ (append_phase_first _ _ _ _ h pre prev t _ _ Ha))
                    |rewrite (bind_ret_eq _ _ _ _ _ (append_phase_none accel_t _ _ _ _ _ Ha))]; cbv zeta.
  all: repeat first [rewrite (bind_ret_eq _ _ _ _ _ (append_phase_next _ _ _ _ h _ _ t _ Hc))
                    |rewrite (bind_ret_eq _ _ _ _ _ (append_phase_first _ _ _ _ h pre prev t _ _ Hc))
                    |rewrite (bind_ret_eq _ _ _ _ _ (append_phase_none cruise_t _ _ _ _ _ Hc))]; cbv zeta.
  all: repeat first [rewrite (bind_ret_eq _ _ _ _ _ (append_phase_next _ _ _ _ h _ _ t _ Hd))
                    |rewrite (bind_ret_eq _ _ _ _ _ (append_phase_first _ _ _ _ h pre prev t _ _ Hd))
                    |rewrite (bind_ret_eq _ _ _ _ _ (append_phase_none decel_t _ _ _ _ _ Hd))]; cbv zeta.
  all: unfold mret, M_ret; f_equal; f_equal; rewrite <- ?app_assoc; reflexivity.
Qed.

Lemma phase_moves_joined print_time accel_t cruise_t decel_t start_pos axes_r start_v cruise_v accel :
  let ms := phase_moves print_time accel_t cruise_t decel_t start_pos axes_r start_v cruise_v accel in
  joined ms ∧ tm_move_t <$> ms = filter (λ t, dnz t = true) [accel_t; cruise_t; decel_t] ∧
  match ms with [] => True | m :: _ => tm_print_time m = print_time ∧ tm_start_pos m = start_pos end.
Proof.
  unfold phase_moves. cbv zeta. rewrite !filter_cons, filter_nil.
  destruct (dnz accel_t), (dnz cruise_t), (dnz decel_t); cbn [last app]; rewrite ?decide_True, ?decide_False by done; done.
Qed.

(** C34: trapq_append queues one move for each phase that takes time, each starting exactly
    when and where the phase before it ends, behind the moves already queued and a null move if
    there is a time gap, and marks the tail sentinel as out of date; with no phase the queue
    does not change. *)
Theorem trapq_append_joins h pre prev t print_time accel_t cruise_t decel_t start_pos axes_r start_v cruise_v accel :
  ∃ ms, joined ms ∧ tm_move_t <$> ms = filter (λ t, dnz t = true) [accel_t; cruise_t; decel_t] ∧
    match ms with
    | [] => trapq_append print_time accel_t cruise_t decel_t start_pos axes_r start_v cruise_v accel
              (mk_trapq (pre ++ [prev; t]) h) = Ret tt (mk_trapq (pre ++ [prev; t]) h)
    | m :: _ => tm_print_time m = print_time ∧ tm_start_pos m = start_pos ∧
        trapq_append print_time accel_t cruise_t decel_t start_pos axes_r start_v cruise_v accel
          (mk_trapq (pre ++ [prev; t]) h) =
        Ret tt (mk_trapq (pre ++ prev :: filler prev m ++ ms ++ [t <| tm_print_time := dint 0 |>]) h)
    end.
Proof.
  pose proof (phase_moves_joined print_time accel_t cruise_t decel_t start_pos axes_r start_v cruise_v accel) as (Hj & Ht & Hf).
  pose proof (trapq_append_eq h pre prev t print_time accel_t cruise_t decel_t start_pos axes_r start_v cruise_v accel) as He.
  cbv zeta in Hj, Ht, Hf, He. eexists. split; [exact Hj|]. split; [exact Ht|]. destruct (phase_moves _ _ _ _ _ _ _ _ _) as [|m ms]; [exact He|].
  destruct Hf as [H1 H2]. by split_and!.
Qed.

(** ** Bounded times *)

(** A time of at most 2^k seconds. *)
Definition upto (k : Z) (t : double) : Prop := finite t ∧ 0 ≤ dz t ≤ 2 ^ (k + 3000).

Lemma pow_double k : 0 ≤ k ≤ 1000 → ∃ y, finite y ∧ dz y = 2 ^ (k + 3000).
Proof.
  intros Hk. exists (S754_finite false (2 ^ 52) (k - 52)). split; [apply bounded_iff; lia|].
  rewrite dz_sign. cbn [cond_Zopp]. change (Z.pos (2 ^ 52)) with (2 ^ 52). rewrite <- Z.pow_add_r by lia. f_equal. lia.
Qed.
Lemma upto_mono k k' t : upto k t → -3000 ≤ k ≤ k' → upto k' t.
Proof. intros [Hf Ht] Hk. assert (2 ^ (k + 3000) ≤ 2 ^ (k' + 3000)) by (apply Z.pow_le_mono_r; lia). split; [done|lia]. Qed.
Lemma upto_zero k : -3000 ≤ k → upto k (dint 0).
Proof.
  intros Hk. assert (finite (dint 0) ∧ dz (dint 0) = 0) as [Hf Hv] by (by vm_compute). pose proof (pow2_pos (k + 3000) ltac:(lia)).
  split; [done|lia].
Qed.
Lemma upto_add k x y : 0 ≤ k < 1000 → upto k x → upto k y → upto (k + 1) (dadd x y) ∧ dz x ≤ dz (dadd x y) ∧ dz y ≤ dz (dadd x y).
Proof.
  intros Hk [Hx Bx] [Hy By]. destruct (pow_double (k + 1) ltac:(lia)) as (c & Hc & Vc).
  replace (k + 1 + 3000) with (Z.succ (k + 3000)) in * by lia. rewrite Z.pow_succ_r in Vc by lia.
  destruct (near_between _ _ _ x c (dadd_near x y Hx Hy) Hx Hc) as [Hf Hb]; [apply between_0; lia|].
  destruct (near_between _ _ _ y c (dadd_near x y Hx Hy) Hy Hc) as [_ Hb']; [apply between_0; lia|].
  split; [split; [done|]|lia]. replace (k + 1 + 3000) with (Z.succ (k + 3000)) by lia. rewrite Z.pow_succ_r by lia. lia.
Qed.
(** A later time minus an earlier one. *)
Lemma upto_sub k x y : -3000 ≤ k → upto k x → finite y → 0 ≤ dz y ≤ dz x → upto k (dsub x y) ∧ dz (dsub x y) ≤ dz x.
Proof.
  intros Hk [Hx Bx] Hy By. destruct (upto_zero k Hk) as [H0 _]. assert (dz (dint 0) = 0) as V0 by (by vm_compute).
  destruct (near_between _ _ _ (dint 0) x (dsub_near x y Hx Hy) H0 Hx) as [Hf Hb]; [apply between_0; lia|]. split; [split; [done|]|]; lia.
Qed.

Lemma NEVER_value : upto 54 NEVER_TIME ∧ 2 ^ (53 + 3000) < dz NEVER_TIME.
Proof.
  split; [split; [vm_compute; reflexivity|split]|]; [apply Z.leb_le|apply Z.leb_le|apply Z.ltb_lt]; vm_compute; reflexivity.
Qed.

(** ** The invariant of the queue *)

(** [b] is a null move of [MAX_NULL_MOVE] seconds, which ends when a move starts at [t]. *)
Definition limited_filler (b : move) : Prop :=
  moves_something b = false ∧ ∃ t, dlt MAX_NULL_MOVE t = true ∧
    tm_print_time b = dsub t MAX_NULL_MOVE ∧ tm_move_t b = dsub t (tm_print_time b).
(** [b] follows [a] without a gap: it starts no later than [a] ends, or [a] is a null move that
    fills the time up to it; or [a] starts at time zero and [b] is a null move that fills the
    last second before the next move.  (The test for time zero is meant for the head sentinel,
    but a queued move can have that time.) *)
Definition follows (a b : move) : Prop :=
  dlt (move_end a) (tm_print_time b) = false ∨
  moves_something a = false ∧ tm_move_t a = dsub (tm_print_time b) (tm_print_time a) ∨
  dnz (tm_print_time a) = false ∧ limited_filler b.
Fixpoint gapless (l : list move) : Prop :=
  match l with
  | [] => True
  | a :: l' => match l' with [] => True | b :: _ => follows a b end ∧ gapless l'
  end.

Lemma gapless_app l l' : gapless (l ++ l') ↔ gapless l ∧ gapless l' ∧
  match last l, l' with Some a, b :: _ => follows a b | _, _ => True end.
Proof.
  induction l as [|a l IH]; cbn [gapless app last]; [naive_solver|]. rewrite IH. destruct l as [|b l]; cbn [app last gapless].
  - destruct l' as [|c l']; cbn; tauto.
  - destruct (last _); tauto.
Qed.

Lemma null_move_fills prev m : moves_something (null_move prev m) = false ∧
  tm_move_t (null_move prev m) = dsub (tm_print_time m) (tm_print_time (null_move prev m)).
Proof. done. Qed.
Lemma null_move_follows prev m : follows prev (null_move prev m).
Proof.
  unfold follows. destruct (negb (dnz (tm_print_time prev)) && dlt MAX_NULL_MOVE (tm_print_time m)) eqn:Hb.
  - right; right. apply andb_true_iff in Hb as [Hz Hm]. split; [by apply negb_true_iff|]. split; [done|].
    exists (tm_print_time m). split; [done|]. split; [|done]. unfold null_move. by rewrite Hz, Hm.
  - left. unfold null_move. rewrite Hb. cbn [tm_print_time upd eta_expand eta_move]. apply dlt_irrefl.
Qed.
Lemma gapless_add ms pre prev m :
  zero_move :: ms = pre ++ [prev] → gapless ms → gapless (ms ++ filler prev m ++ [m]).
Proof.
  intros E Hg. apply gapless_app. split; [done|]. split.
  - unfold filler. destruct (dlt _ _); [|done]. split; [|done]. right; left. apply null_move_fills.
  - assert (last (zero_move :: ms) = Some prev) as Hl by (by rewrite E, last_snoc). destruct (last ms) as [a|] eqn:Ha.
    + assert (a = prev) as ->. { destruct ms; [done|]. rewrite last_cons, Ha in Hl. by injection Hl. }
      unfold filler. destruct (dlt _ _) eqn:Hd; cbn; [apply null_move_follows|by left].
    + done.
Qed.

Record move_ok (m : move) : Prop := {
  mo_print : upto 54 (tm_print_time m);
  mo_time : upto 54 (tm_move_t m);
  mo_end : upto 54 (move_end m);
}.
Record tail_ok (t : move) : Prop := {
  to_print : upto 54 (tm_print_time t);
  to_time : tm_move_t t = NEVER_TIME;
  to_axes : tm_axes_r t = coord_zero;
}.
Definition trapq_ok (tq : trapq) : Prop :=
  ∃ ms t, tq_moves tq = zero_move :: ms ++ [t] ∧ Forall move_ok ms ∧ gapless ms ∧ tail_ok t.

Lemma zero_move_ok : move_ok zero_move.
Proof.
  assert (upto 54 (dint 0)) as H0 by (apply upto_zero; lia). split; cbn; [done|done|].
  assert (move_end zero_move = dint 0) as -> by (by vm_compute). done.
Qed.
Lemma tail_ok_print t p : tail_ok t → upto 54 p → tail_ok (t <| tm_print_time := p |>).
Proof. intros [H1 H2 H3] Hp. by split. Qed.

Lemma trapq_alloc_ok : trapq_ok trapq_alloc.
Proof. exists [], (zero_move <| tm_print_time := NEVER_TIME |> <| tm_move_t := NEVER_TIME |>). do 3 (split; [done|]). split; [apply NEVER_value|done..]. Qed.

Lemma null_move_ok prev m :
  upto 54 (move_end prev) → upto 22 (tm_print_time m) → dlt (move_end prev) (tm_print_time m) = true → move_ok (null_move prev m).
Proof.
  intros He Hp Hlt. pose proof He as [Hfe Be]. pose proof Hp as [Hfp Bp]. apply dlt_dz in Hlt; [|done..].
  assert (upto 22 (tm_print_time (null_move prev m)) ∧ dz (tm_print_time (null_move prev m)) ≤ dz (tm_print_time m)) as [Hq Hle].
  { unfold null_move. cbv zeta. cbn [tm_print_time upd eta_expand eta_move]. destruct (negb _ && _) eqn:Hb.
    - apply andb_true_iff in Hb as [_ Hb]. assert (finite MAX_NULL_MOVE ∧ 0 ≤ dz MAX_NULL_MOVE) as [H1 V1].
      { split; [vm_compute; reflexivity|apply Z.leb_le; vm_compute; reflexivity]. }
      apply dlt_dz in Hb; [|done..]. apply upto_sub; [lia|done|done|lia].
    - split; [split; [done|lia]|lia]. }
  destruct Hq as [Hfq Bq]. destruct (upto_sub 22 (tm_print_time m) (tm_print_time (null_move prev m)) ltac:(lia) Hp Hfq ltac:(lia)) as [Ht _].
  assert (tm_move_t (null_move prev m) = dsub (tm_print_time m) (tm_print_time (null_move prev m))) as Et by done.
  split; [apply (upto_mono 22); [by split|lia]|rewrite Et; apply (upto_mono 22); [done|lia]|].
  unfold move_end. rewrite Et. apply (upto_mono (22 + 1)); [|lia]. exact (proj1 (upto_add 22 _ _ ltac:(lia) (conj Hfq Bq) Ht)).
Qed.

(** The moves before the tail sentinel. *)
Lemma last_entry ms : ∃ pre prev, zero_move :: ms = pre ++ [prev] ∧ (Forall move_ok ms → move_ok prev).
Proof.
  destruct (exists_last (l := zero_move :: ms)) as (pre & prev & E); [done|]. exists pre, prev. split; [done|].
  intros H. assert (Forall move_ok (zero_move :: ms)) as H' by (constructor; [apply zero_move_ok|done]).
  rewrite E in H'. apply Forall_app in H' as [_ H']. exact (Forall_inv H').
Qed.

Lemma trapq_check_sentinels_ok tq :
  trapq_ok tq → ∃ ms t t', trapq_check_sentinels tq = Ret tt (tq <| tq_moves := zero_move :: ms ++ [t'] |>) ∧
    tq_moves tq = zero_move :: ms ++ [t] ∧ Forall move_ok ms ∧ gapless ms ∧ tail_ok t'.
Proof.
  intros (ms & t & El & Hms & Hg & Ht). exists ms, t. unfold trapq_check_sentinels.
  assert (tq_moves tq = (zero_move :: ms) ++ [t]) as El' by done.
  rewrite (bind_ret_eq _ _ _ _ _ (tail_sentinel_eq tq _ t El')), (bind_ret_eq _ _ _ _ _ (move_at_middle tq _ t [] El')).
  destruct (dnz (tm_print_time t)).
  { exists t. destruct tq as [moves h]. cbn [tq_moves] in El. subst moves. by repeat (split; [done|]). }
  cbn [length prev_entry]. rewrite (bind_ret_eq (mret (length ms)) _ tq (length ms) tq eq_refl).
  destruct tq as [moves h]. cbn [tq_moves] in El, El'. subst moves. destruct (Nat.eqb_spec (length ms) 0) as [E0|E0].
  - destruct ms; [|done]. eexists. split; [apply (upd_move_eq _ [zero_move] t [] h)|]. do 3 (split; [done|]).
    apply tail_ok_print; [done|apply NEVER_value].
  - destruct (last_entry ms) as (pre & prev & E & Hprev). assert (length pre = length ms) as Hlen.
    { apply (f_equal length) in E. rewrite length_app in E. cbn in E. lia. }
    pose proof (move_at_middle (mk_trapq (zero_move :: ms ++ [t]) h) pre prev [t]) as Hm. cbn [tq_moves] in Hm.
    rewrite (app_comm_cons ms [t] zero_move), E, <- app_assoc, Hlen in Hm.
    rewrite (app_comm_cons ms [t] zero_move), E, <- app_assoc. rewrite (bind_ret_eq _ _ _ _ _ (Hm eq_refl)).
    eexists. split.
    { rewrite (app_assoc pre [prev] [t]), <- E. exact (upd_move_eq _ (zero_move :: ms) t [] h). }
    rewrite app_assoc, <- E. do 3 (split; [done|]). destruct Ht as [H1 H2 H3]. split; [apply mo_end, Hprev, Hms|done..].
Qed.

Lemma trapq_add_move_ok tq m :
  trapq_ok tq → upto 22 (tm_print_time m) → move_ok m → ∃ tq', trapq_add_move m tq = Ret tt tq' ∧ trapq_ok tq'.
Proof.
  intros (ms & t & El & Hms & Hg & Ht) Hp Hm. destruct (last_entry ms) as (pre & prev & E & Hprev). specialize (Hprev Hms).
  destruct tq as [moves h]. cbn [tq_moves] in El. subst moves. rewrite (app_comm_cons ms [t] zero_move), E, <- app_assoc.
  eexists. split; [apply trapq_add_move_eq|]. exists (ms ++ filler prev m ++ [m]), (stale t). split; [|split; [|split; [by apply (gapless_add ms pre)|]]].
  - cbn [tq_moves]. replace (zero_move :: (ms ++ filler prev m ++ [m]) ++ [stale t]) with ((zero_move :: ms) ++ filler prev m ++ [m; stale t])
      by (cbn [app]; by rewrite <- !app_assoc). rewrite E, <- app_assoc. done.
  - apply Forall_app_2; [done|]. apply Forall_app_2; [|by apply Forall_singleton]. unfold filler. destruct (dlt _ _) eqn:Hlt; [|done].
    apply Forall_singleton, null_move_ok; [apply mo_end, Hprev|done|done].
  - apply tail_ok_print; [done|apply upto_zero; lia].
Qed.

Lemma append_phase_ok k phase_t start_v half_accel axes_r print_time start_pos tq :
  20 ≤ k ≤ 22 → trapq_ok tq → upto k print_time → upto 20 phase_t →
  ∃ st tq', append_phase phase_t start_v half_accel axes_r (print_time, start_pos) tq = Ret st tq' ∧
    trapq_ok tq' ∧ upto (k + 1) st.1.
Proof.
  intros Hk Hok Hp Ht. destruct (dnz phase_t) eqn:Hnz.
  - set (m := mk_move print_time phase_t start_v half_accel start_pos axes_r).
    destruct (upto_add k print_time phase_t ltac:(lia) Hp ltac:(apply (upto_mono 20); [done|lia])) as [He _].
    destruct (trapq_add_move_ok tq m Hok) as (tq' & Hrun & Hok').
    { by apply (upto_mono k); [|lia]. }
    { split; [by apply (upto_mono k); [|lia]|by apply (upto_mono 20); [|lia]|by apply (upto_mono (k + 1)); [|lia]]. }
    exists (dadd print_time phase_t, move_get_coord m phase_t), tq'. split; [|split; [done|exact He]]. unfold append_phase. rewrite Hnz. fold m. rewrite (bind_ret_eq _ _ _ _ _ Hrun). done.
  - exists (print_time, start_pos), tq. rewrite append_phase_none by done. split; [done|]. split; [done|]. cbn.
    by apply (upto_mono k); [|lia].
Qed.
Lemma trapq_append_ok print_time accel_t cruise_t decel_t start_pos axes_r start_v cruise_v accel tq :
  trapq_ok tq → upto 20 print_time → upto 20 accel_t → upto 20 cruise_t → upto 20 decel_t →
  ∃ tq', trapq_append print_time accel_t cruise_t decel_t start_pos axes_r start_v cruise_v accel tq = Ret tt tq' ∧ trapq_ok tq'.
Proof.
  intros Hok Hp Ha Hc Hd. unfold trapq_append.
  destruct (append_phase_ok 20 accel_t start_v (dmul (dec 5 1) accel) axes_r print_time start_pos tq) as ([p1 c1] & tq1 & H1 & Hok1 & Hp1); [lia|done..|].
  destruct (append_phase_ok 21 cruise_t cruise_v (dint 0) axes_r p1 c1 tq1) as ([p2 c2] & tq2 & H2 & Hok2 & Hp2); [lia|done..|].
  destruct (append_phase_ok 22 decel_t cruise_v (dmul (dneg (dec 5 1)) accel) axes_r p2 c2 tq2) as (st3 & tq3 & H3 & Hok3 & _); [lia|done..|].
  exists tq3. split; [|done]. by rewrite (bind_ret_eq _ _ _ _ _ H1), (bind_ret_eq _ _ _ _ _ H2), (bind_ret_eq _ _ _ _ _ H3).
Qed.

(** ** Expired moves *)

(** The oldest moves that are over at [print_time], and those after them. *)
Fixpoint expired (print_time : double) (ms : list move) : list move * list move :=
  match ms with
  | [] => ([], [])
  | m :: ms' => if dlt print_time (move_end m) then ([], ms)
                else let '(old, rest) := expired print_time ms' in (m :: old, rest)
  end.
Lemma expired_app print_time ms : ms = (expired print_time ms).1 ++ (expired print_time ms).2.
Proof.
  induction ms as [|m ms IH]; [done|]. cbn. destruct (dlt _ _); [done|]. destruct (expired print_time ms); cbn in *. by rewrite IH at 1.
Qed.
Lemma expired_split print_time ms :
  Forall (λ m, dlt print_time (move_end m) = false) (expired print_time ms).1 ∧
  match (expired print_time ms).2 with [] => True | m :: _ => dlt print_time (move_end m) = true end.
Proof.
  induction ms as [|m ms IH]; [done|]. cbn. destruct (dlt _ _) eqn:Hd; [done|]. destruct (expired print_time ms); cbn in *.
  destruct IH as [H1 H2]. split; [by constructor|exact H2].
Qed.
(** The tail sentinel of an empty queue never ends. *)
Definition settled (rest : list move) (t : move) : move :=
  match rest with [] => t <| tm_print_time := NEVER_TIME |> | _ => t end.
Definition kept (old h : list move) : list move := reverse (filter (λ m, moves_something m = true) old) ++ h.

Lemma finalize_loop_eq fuel print_time ms t h :
  (length ms < fuel)%nat →
  let '(old, rest) := expired print_time ms in
  finalize_loop fuel print_time (mk_trapq (zero_move :: ms ++ [t]) h) =
    Ret tt (mk_trapq (zero_move :: rest ++ [settled rest t]) (kept old h)).
Proof.
  revert fuel h. induction ms as [|m ms IH]; intros [|fuel] h Hf; [cbn in Hf; lia|done|cbn in Hf; lia|].
  cbn [expired finalize_loop]. set (tq := mk_trapq _ _).
  rewrite (bind_ret_eq _ _ _ _ _ (tail_sentinel_eq tq (zero_move :: m :: ms) t eq_refl)). cbn [length Nat.eqb].
  rewrite (bind_ret_eq _ _ _ _ _ (move_at_middle tq [zero_move] m (ms ++ [t]) eq_refl)).
  destruct (dlt print_time (move_end m)); [done|].
  specialize (IH fuel (if moves_something m then m :: h else h)). destruct (expired print_time ms) as [old rest].
  cbn [length] in Hf. etrans; [apply IH; lia|]. f_equal. f_equal. unfold kept. rewrite filter_cons.
  destruct (moves_something m); [rewrite decide_True by done|by rewrite decide_False by done].
  by rewrite reverse_cons, <- app_assoc.
Qed.

(** The history loses the oldest moves that ended [EXPIRE_TIME] before its latest. *)
Definition recent (h : list move) : list move :=
  match h with [] => [] | latest :: l => latest :: drop_expired l (dsub (move_end latest) EXPIRE_TIME) end.
Lemma drop_expired_prefix l e : ∃ old, l = drop_expired l e ++ old ∧ Forall (λ m, dlt e (move_end m) = false) old ∧
  match last (drop_expired l e) with Some m => dlt e (move_end m) = true | None => True end.
Proof.
  induction l as [|m l IH]; [by exists []|]. destruct IH as (old & El & Ho & Hl). cbn. destruct (drop_expired l e) as [|a r].
  - destruct (dlt e (move_end m)) eqn:Hd; [exists l; cbn in El; subst; done|]. exists (m :: l). split; [done|]. split; [|done].
    constructor; [done|]. cbn in El. by subst.
  - exists old. split; [by rewrite El at 1|]. split; [done|]. exact Hl.
Qed.

Lemma recent_split h : ∃ forgotten, h = recent h ++ forgotten ∧
  match recent h with
  | [] => forgotten = []
  | latest :: _ => Forall (λ m, dlt (dsub (move_end latest) EXPIRE_TIME) (move_end m) = false) forgotten
  end.
Proof.
  destruct h as [|latest l]; [by exists []|]. destruct (drop_expired_prefix l (dsub (move_end latest) EXPIRE_TIME)) as (old & E & Ho & _).
  exists old. cbn [recent app]. by rewrite <- E.
Qed.

Lemma trapq_finalize_moves_eq print_time ms t h :
  let '(old, rest) := expired print_time ms in
  trapq_finalize_moves print_time (mk_trapq (zero_move :: ms ++ [t]) h) =
    Ret tt (mk_trapq (zero_move :: rest ++ [settled rest t]) (recent (kept old h))).
Proof.
  pose proof (finalize_loop_eq (length (zero_move :: ms ++ [t])) print_time ms t h ltac:(cbn; rewrite length_app; cbn; lia)) as H.
  destruct (expired print_time ms) as [old rest]. unfold trapq_finalize_moves.
  rewrite (bind_ret_eq get _ _ _ _ eq_refl). cbn [tq_moves]. rewrite (bind_ret_eq _ _ _ _ _ H). unfold expire_history, modify. cbn [tq_history].
  by destruct (kept old h).
Qed.

Lemma trapq_finalize_moves_ok print_time tq :
  trapq_ok tq → ∃ tq', trapq_finalize_moves print_time tq = Ret tt tq' ∧ trapq_ok tq'.
Proof.
  intros (ms & t & El & Hms & Hg & Ht). destruct tq as [moves h]. cbn [tq_moves] in El. subst moves.
  pose proof (trapq_finalize_moves_eq print_time ms t h) as H. pose proof (expired_app print_time ms) as E.
  destruct (expired print_time ms) as [old rest]. cbn [fst snd] in E. subst ms. apply Forall_app in Hms as [_ Hms]. apply gapless_app in Hg as (_ & Hg & _).
  eexists. split; [exact H|]. exists rest, (settled rest t). do 3 (split; [done|]).
  destruct rest; [|exact Ht]. apply tail_ok_print; [done|apply NEVER_value].
Qed.
Lemma trapq_ok_history tq h : trapq_ok tq → trapq_ok (tq <| tq_history := h |>).
Proof. done. Qed.
Lemma trapq_set_position_ok print_time pos tq :
  trapq_ok tq → ∃ tq', trapq_set_position print_time pos tq = Ret tt tq' ∧ trapq_ok tq'.
Proof.
  intros H. destruct (trapq_finalize_moves_ok NEVER_TIME tq H) as (tq1 & H1 & Hok). unfold trapq_set_position.
  rewrite (bind_ret_eq _ _ _ _ _ H1). eexists. split; [reflexivity|]. by apply trapq_ok_history.
Qed.

(** ** Every run of the queue *)

(** The calls of toolhead.py and itersolve.c. *)
Inductive tq_op :=
  | TqAppend (print_time accel_t cruise_t decel_t : double) (start_pos axes_r : coord) (start_v cruise_v accel : double)
  | TqFinalize (print_time : double)
  | TqSetPosition (print_time : double) (pos : coord)
  | TqExtractOld (max : nat) (start_time end_time : double)
  | TqCheckSentinels.
Definition run_tq_op (op : tq_op) : TQ unit :=
  match op with
  | TqAppend print_time accel_t cruise_t decel_t start_pos axes_r start_v cruise_v accel =>
      trapq_append print_time accel_t cruise_t decel_t start_pos axes_r start_v cruise_v accel
  | TqFinalize print_time => trapq_finalize_moves print_time
  | TqSetPosition print_time pos => trapq_set_position print_time pos
  | TqExtractOld max start_time end_time => let! _ := trapq_extract_old max start_time end_time in mret tt
  | TqCheckSentinels => trapq_check_sentinels
  end.
Fixpoint run_tq_ops (ops : list tq_op) : TQ unit :=
  match ops with [] => mret tt | op :: ops => run_tq_op op;;; run_tq_ops ops end.
(** Appended moves have times of at most 2^20 seconds, about twelve days. *)
Definition tq_op_ok (op : tq_op) : Prop :=
  match op with
  | TqAppend print_time accel_t cruise_t decel_t _ _ _ _ _ => Forall (upto 20) [print_time; accel_t; cruise_t; decel_t]
  | _ => True
  end.

Lemma run_tq_op_ok op tq : tq_op_ok op → trapq_ok tq → ∃ tq', run_tq_op op tq = Ret tt tq' ∧ trapq_ok tq'.
Proof.
  intros Hop Hok. destruct op; cbn [run_tq_op tq_op_ok] in *.
  - rewrite !Forall_cons in Hop. destruct Hop as (? & ? & ? & ? & _). by apply trapq_append_ok.
  - by apply trapq_finalize_moves_ok.
  - by apply trapq_set_position_ok.
  - by exists tq.
  - destruct (trapq_check_sentinels_ok tq Hok) as (ms & t & t' & H & _ & H1 & H2 & H3). eexists. split; [exact H|]. by exists ms, t'.
Qed.

Lemma run_tq_ops_ok ops : Forall tq_op_ok ops → ∀ tq, trapq_ok tq → ∃ tq', run_tq_ops ops tq = Ret tt tq' ∧ trapq_ok tq'.
Proof.
  induction 1 as [|op ops Hop _ IH]; intros tq Hok; [by exists tq|]. cbn [run_tq_ops].
  destruct (run_tq_op_ok op tq Hop Hok) as (tq1 & H1 & Hok1). destruct (IH tq1 Hok1) as (tq2 & H2 & Hok2).
  exists tq2. split; [by rewrite (bind_ret_eq _ _ _ _ _ H1)|exact Hok2].
Qed.

(** C16: Every sequence of calls of the move queue (appended moves with times of at most 2^20
    seconds, any times in the other calls) runs without leaving the list and keeps its shape:
    the two sentinels at the ends, moves of bounded times between them, and a tail sentinel
    that never ends and moves no axis. Between two moves there is no gap in time: the second
    starts no later than the first ends, or the first is a null move whose duration is the
    (rounded) difference of their start times; only behind a move that starts at time 0 it can
    be that the second is a null move cut to the last second before the move behind it. *)
Theorem trapq_runs ops :
  Forall tq_op_ok ops → ∃ tq ms t, run_tq_ops ops trapq_alloc = Ret tt tq ∧
    tq_moves tq = zero_move :: ms ++ [t] ∧ Forall move_ok ms ∧ gapless ms ∧ tail_ok t.
Proof.
  intros Hops. destruct (run_tq_ops_ok ops Hops _ trapq_alloc_ok) as (tq & Hr & ms & t & Hok). by exists tq, ms, t.
Qed.

(** [trapq_finalize_moves] takes the oldest moves that are over, puts those with motion in
    front of the history and drops from its end the ones that ended 30 seconds before its
    latest; the rest of the queue stays, and an empty queue never ends. *)
Theorem trapq_finalize_moves_splits print_time ms t h :
  ∃ old rest forgotten h', ms = old ++ rest ∧
    Forall (λ m, dlt print_time (move_end m) = false) old ∧
    match rest with [] => True | m :: _ => dlt print_time (move_end m) = true end ∧
    reverse (filter (λ m, moves_something m = true) old) ++ h = h' ++ forgotten ∧
    match h' with
    | [] => forgotten = []
    | latest :: _ => Forall (λ m, dlt (dsub (move_end latest) EXPIRE_TIME) (move_end m) = false) forgotten
    end ∧
    trapq_finalize_moves print_time (mk_trapq (zero_move :: ms ++ [t]) h) =
      Ret tt (mk_trapq (zero_move :: rest ++ [match rest with [] => t <| tm_print_time := NEVER_TIME |> | _ => t end]) h').
Proof.
  pose proof (trapq_finalize_moves_eq print_time ms t h) as H. pose proof (expired_app print_time ms) as E.
  pose proof (expired_split print_time ms) as [Ho Hr]. destruct (expired print_time ms) as [old rest]. cbn [fst snd] in *.
  destruct (recent_split (kept old h)) as (forgotten & Hk & Hf). exists old, rest, forgotten, (recent (kept old h)).
  split; [exact E|]. split; [exact Ho|]. split; [exact Hr|]. split; [exact Hk|]. split; [exact Hf|]. exact H.
Qed.
