(* ===== verification/SearchSpec.v ===== *)
(** * The search for step times

    Whatever the callback answers, the guesses of the solver stay inside the searched part of
    the move, every guess makes progress, and the steps found are in the order of time. *)

From Stdlib Require Import SpecFloat.
From S2P Require Import Prelude State Double DoubleSpec Msgblock StepCompress Trapq Kinematics Itersolve.

(** ** Lexicographic induction *)

Section lex.
Context {A : Type} (I : A → Prop) (r1 r2 r3 r4 : A → Z).
Definition smaller (y x : A) : Prop :=
  r1 y < r1 x ∨ r1 y = r1 x ∧ (r2 y < r2 x ∨ r2 y = r2 x ∧ (r3 y < r3 x ∨ r3 y = r3 x ∧ r4 y < r4 x)).
Context (Hnn : ∀ x, I x → 0 ≤ r1 x ∧ 0 ≤ r2 x ∧ 0 ≤ r3 x ∧ 0 ≤ r4 x).

Lemma smaller_ind (P : A → Prop) :
  (∀ x, I x → (∀ y, I y → smaller y x → P y) → P x) → ∀ x, I x → P x.
Proof.
  intros Hstep.
  enough (∀ a, 0 ≤ a → ∀ x, I x → r1 x = a → P x) as H
    by (intros x Hx; destruct (Hnn x Hx) as (? & ? & ? & ?); by apply (H (r1 x))).
  intros a. induction a as [a IHa] using (well_founded_induction (Z.lt_wf 0)). intros Ha.
  enough (∀ b, 0 ≤ b → ∀ x, I x → r1 x = a → r2 x = b → P x) as H
    by (intros x Hx ?; destruct (Hnn x Hx) as (? & ? & ? & ?); by apply (H (r2 x))).
  intros b. induction b as [b IHb] using (well_founded_induction (Z.lt_wf 0)). intros Hb.
  enough (∀ c, 0 ≤ c → ∀ x, I x → r1 x = a → r2 x = b → r3 x = c → P x) as H
    by (intros x Hx ? ?; destruct (Hnn x Hx) as (? & ? & ? & ?); by apply (H (r3 x))).
  intros c. induction c as [c IHc] using (well_founded_induction (Z.lt_wf 0)). intros Hc.
  enough (∀ d, 0 ≤ d → ∀ x, I x → r1 x = a → r2 x = b → r3 x = c → r4 x = d → P x) as H
    by (intros x Hx ? ? ?; destruct (Hnn x Hx) as (? & ? & ? & ?); by apply (H (r4 x))).
  intros d. induction d as [d IHd] using (well_founded_induction (Z.lt_wf 0)). intros Hd x Hx E1 E2 E3 E4.
  apply Hstep; [done|]. intros y Hy Hlt. pose proof (Hnn y Hy) as (? & ? & ? & ?).
  destruct Hlt as [Hlt|[Ey1 [Hlt|[Ey2 [Hlt|[Ey3 Hlt]]]]]].
  - by apply (IHa (r1 y)); [lia..|done|].
  - by apply (IHb (r2 y)); [lia..|done|lia|].
  - by apply (IHc (r3 y)); [lia..|done|lia|lia|].
  - by apply (IHd (r4 y)); [lia..|done|lia|lia|lia|].
Qed.
End lex.

(** ** Constants *)

Lemma NANO_value : finite NANO ∧ 2 * UNIT < dz NANO.
Proof. split; [vm_compute; reflexivity|]. apply Z.ltb_lt. vm_compute. reflexivity. Qed.
Lemma SEEK_value : finite SEEK_TIME_RESET ∧ dz NANO ≤ dz SEEK_TIME_RESET.
Proof. split; [vm_compute; reflexivity|]. apply Z.leb_le. vm_compute. reflexivity. Qed.
Lemma half_value : finite (dec 5 1) ∧ dz (dec 5 1) = 2 ^ 2999.
Proof. split; [vm_compute; reflexivity|]. apply Z.eqb_eq. vm_compute. reflexivity. Qed.
Lemma two_value : finite (dint 2) ∧ dz (dint 2) = 2 ^ 3001.
Proof. split; [vm_compute; reflexivity|]. apply Z.eqb_eq. vm_compute. reflexivity. Qed.
Lemma zero_value : finite (dint 0) ∧ dz (dint 0) = 0.
Proof. by split; vm_compute. Qed.
Lemma sesqui_value : finite (dec 15 1) ∧ 0 ≤ dz (dec 15 1).
Proof. split; [vm_compute; reflexivity|]. apply Z.leb_le. vm_compute. reflexivity. Qed.

Lemma floor_unit v : 0 ≤ v → v / UNIT * UNIT ≤ v < (v / UNIT + 1) * UNIT ∧ 0 ≤ v / UNIT.
Proof.
  intros Hv. pose proof UNIT_pos. pose proof (Z.div_mod v UNIT ltac:(lia)). pose proof (Z.mod_pos_bound v UNIT ltac:(lia)).
  split; [nia|]. apply Z.div_pos; lia.
Qed.

(** A time that may have overflowed. *)
Definition late (v : Z) (x : double) : Prop := x = S754_infinity false ∨ finite x ∧ v ≤ dz x.

Lemma late_intro v x : finite x → v ≤ dz x → late v x.
Proof. intros Hf Hv. right. split; assumption. Qed.

Lemma clip_late end_ x v :
  finite end_ → late v x → finite (clip end_ x) ∧ dz (clip end_ x) ≤ dz end_ ∧
    (dz (clip end_ x) = dz end_ ∨ v ≤ dz (clip end_ x)).
Proof.
  intros He [->|[Hx Hv]]; unfold clip.
  - assert (dlt end_ (S754_infinity false) = true) as -> by (by destruct end_ as [| | |[]]). split_and!; [done|lia|by left].
  - destruct (dlt end_ x) eqn:Hlt; [split_and!; [done|lia|by left]|].
    assert (¬ dz end_ < dz x) by (intros ?%dlt_dz; congruence). split_and!; [done|lia|by right].
Qed.

Lemma dadd_late x d v : finite x → late v d → ∀ y, finite y → dz y ≤ dz x + v → late (dz y) (dadd x d).
Proof.
  intros Hx [->|[Hd Hv]] y Hy Hle.
  - left. by destruct x.
  - destruct (near_ge _ _ _ y (dadd_near x d Hx Hd)) as [|]; [done|rewrite Z.pow_0_r; lia|by left|by right].
Qed.

(** ** The invariant of the search *)

(** Times up to 2^21 seconds. *)
Definition MAX_RANGE : Z := 2 ^ 52 * UNIT.
Lemma MAX_RANGE_eq : MAX_RANGE = 2 ^ 52 * UNIT.
Proof. done. Qed.
#[global] Opaque MAX_RANGE.

Section search.
Context (half_step end_ : double).
Context (He : finite end_) (Hmax : dz end_ ≤ MAX_RANGE).

Record search_ok (se : search) : Prop := {
  so_time : finite (se_time se);
  so_low : finite (se_low_time se);
  so_high : finite (se_high_time se);
  so_last : finite (se_last_time se);
  so_order : 0 ≤ dz (se_last_time se) ≤ dz (se_low_time se) ∧ dz (se_low_time se) ≤ dz (se_high_time se) ≤ dz end_;
  so_guess : dz (se_last_time se) ≤ dz (se_time se) ≤ dz end_;
  so_bracket : se_have_bracket se = true → 2 * UNIT < dz (se_high_time se) - dz (se_low_time se);
  so_open : se_have_bracket se = false → dz (se_low_time se) = dz (se_time se) ∧
    (dz (se_high_time se) = dz end_ ∨ UNIT ≤ dz (se_high_time se) - dz (se_last_time se)) ∧
    (dz (se_time se) < dz end_ → dz (se_low_time se) < dz (se_high_time se));
}.

(** The midpoint of a bracket is strictly inside. *)
Lemma midpoint low high :
  finite low → finite high → 0 ≤ dz low → dz high ≤ MAX_RANGE → 2 * UNIT < dz high - dz low →
  let mid := dmul (dadd low high) (dec 5 1) in finite mid ∧ dz low < dz mid < dz high.
Proof.
  intros Hl Hh H0 Hm Hw mid. rewrite MAX_RANGE_eq in *. pose proof UNIT_pos as HU. destruct half_value as [Hf5 Hv5].
  pose proof (pow2_pos 2999 ltac:(lia)) as Hp9.
  assert (2 ^ 3000 = 2 * 2 ^ 2999) as HP by (rewrite <- Z.pow_succ_r by lia; done).
  destruct (floor_unit (dz low) H0) as [Hk Hk0]. destruct (floor_unit (dz high - 1) ltac:(lia)) as [Hj Hj0].
  set (k := dz low / UNIT) in *. set (j := (dz high - 1) / UNIT) in *.
  assert (j < 2 ^ 52) as Hj2 by (apply Z.div_lt_upper_bound; lia). assert (k + 1 ≤ j) as Hkj by (apply (Z.mul_le_mono_pos_r _ _ UNIT HU); lia).
  destruct (tick (k + 1) ltac:(lia)) as (a & Ha & Va), (tick j ltac:(lia)) as (b & Hb & Vb).
  destruct (tick (2 * (k + 1)) ltac:(lia)) as (a2 & Ha2 & Va2), (tick (2 * j) ltac:(lia)) as (b2 & Hb2 & Vb2).
  destruct (near_between _ _ _ a2 b2 (dadd_near low high Hl Hh) Ha2 Hb2) as [HS HSb]; [apply between_0; lia|].
  destruct (near_between _ _ _ a b (dmul_near _ _ HS Hf5) Ha Hb) as [HM HMb]; [|fold mid in HM, HMb; split; [done|lia]].
  rewrite Hv5, HP, Va, Vb. rewrite Va2, Vb2 in HSb. clear - HSb Hp9. set (P := 2 ^ 2999) in *. clearbody P.
  destruct HSb as [H1 H2]. apply (Z.mul_le_mono_nonneg_r _ _ P) in H1, H2; lia.
Qed.

Lemma twice x : finite x → 0 ≤ dz x ≤ MAX_RANGE → finite (dmul (dint 2) x) ∧ dz (dmul (dint 2) x) = 2 * dz x.
Proof.
  intros Hx [H0 Hm]. destruct two_value as [Hf Hv].
  assert (∃ y, finite y ∧ dz y = 2 * dz x) as (y & Hy & Vy).
  { destruct x as [s| | |[] m e]; try done; cbn [finite] in Hx.
    - exists (S754_zero s). by rewrite dz_zero.
    - rewrite dz_sign in H0. cbn [cond_Zopp] in H0. apply bounded_iff in Hx as [? _]. pose proof (pow2_pos (e + 3000) ltac:(lia)). lia.
    - rewrite dz_sign in *. cbn [cond_Zopp] in *. pose proof Hx as (He' & Hm' & Hc)%bounded_iff.
      pose proof (pow2_pos (e + 3000) ltac:(lia)) as Hp. destruct (Z.le_gt_cases (2 ^ 52) (Z.pos m)) as [Hbig|Hsmall].
      + exists (S754_finite false m (e + 1)). split.
        * apply bounded_iff. enough (e < 971) by lia. destruct (Z.lt_ge_cases e 971) as [|Hge]; [done|exfalso].
          assert (2 ^ 2970 ≤ 2 ^ (e + 3000)) as Hle by (apply Z.pow_le_mono_r; lia). rewrite MAX_RANGE_eq in Hm. rewrite UNIT_eq in Hm.
          assert (2 ^ 2970 = 2 * 2 ^ 2969) as E2 by (rewrite <- Z.pow_succ_r by lia; done). rewrite E2 in Hle.
          pose proof (pow2_pos 2969 ltac:(lia)). set (P := 2 ^ 2969) in *. set (R := 2 ^ (e + 3000)) in *. clearbody P R. nia.
        * rewrite dz_sign. cbn [cond_Zopp]. replace (e + 1 + 3000) with (Z.succ (e + 3000)) by lia. rewrite Z.pow_succ_r by lia. ring.
      + exists (S754_finite false (2 * m) e). split; [apply bounded_iff; lia|]. rewrite dz_sign. cbn [cond_Zopp]. lia. }
  destruct (near_between _ _ _ y y (dmul_near _ _ Hf Hx) Hy Hy) as [HF HV]; [|split; [done|lia]].
  rewrite Hv, Vy. assert (2 ^ 3001 = 2 * 2 ^ 3000) as -> by (rewrite <- Z.pow_succ_r by lia; done).
  set (P := 2 ^ 3000). clearbody P. lia.
Qed.

(** The exponential search: twice the distance from the last step. *)
Lemma extrapolate high last :
  finite high → finite last → 0 ≤ dz last ≤ dz high → dz high ≤ dz end_ →
  let x := dsub (dmul (dint 2) high) last in
  late (dz high) x ∧ (UNIT ≤ dz high - dz last → late (dz high + 1) x).
Proof.
  intros Hh Hl H0 Hle x. destruct (twice high Hh ltac:(lia)) as [H2 V2].
  pose proof (dsub_near _ _ H2 Hl) as Hn. rewrite V2 in Hn. fold x in Hn. clearbody x. split.
  - destruct (near_ge _ _ _ high Hn Hh) as [|[? ?]]; [rewrite Z.pow_0_r; lia|by left|by right].
  - intros HU. pose proof UNIT_pos. rewrite MAX_RANGE_eq in *. destruct (tick_above (dz high)) as (y & Hy & Hby & _); [lia|].
    destruct (near_ge _ _ _ y Hn Hy) as [|[? ?]]; [rewrite Z.pow_0_r; lia|by left|right; split; [done|lia]].
Qed.

Record guess_ok (se : search) (t : double) (se' : search) : Prop := {
  gu_time : finite t;
  gu_high : finite (se_high_time se');
  gu_low : dz (se_low_time se) < dz t;
  gu_le : dz t ≤ dz (se_high_time se') ≤ dz end_;
  gu_bracket : se_have_bracket se = true → dz t < dz (se_high_time se) ∧ se_high_time se' = se_high_time se;
  gu_open : se_have_bracket se = false →
    (dz (se_high_time se') = dz end_ ∨ UNIT ≤ dz (se_high_time se') - dz (se_last_time se)) ∧
    (dz t < dz end_ → dz t < dz (se_high_time se'));
  gu_same : se' = se <| se_check_oscillate := se_check_oscillate se' |> <| se_high_time := se_high_time se' |>;
}.

(** A double that a comparison finds between two times. *)
Lemma dlt_inside low t high :
  finite low → finite high → valid t → dlt low t && dlt t high = true → finite t ∧ dz low < dz t < dz high.
Proof.
  intros Hl Hh Hv [H1 H2]%andb_true_iff. assert (finite t) as Hf by (by apply (dlt_between low t high)).
  apply dlt_dz in H1, H2; done.
Qed.

Definition search_valid (se : search) : Prop :=
  valid (se_old_time se) ∧ valid (se_old_position se) ∧ valid (se_position se) ∧ valid (se_target se).

Lemma secant_valid se : search_ok se → search_valid se →
  valid (ddiv (dsub (dmul (se_old_time se) (dsub (se_position se) (se_target se)))
                    (dmul (se_time se) (dsub (se_old_position se) (se_target se))))
              (dsub (dsub (se_position se) (se_target se)) (dsub (se_old_position se) (se_target se)))).
Proof.
  intros Hok (H1 & H2 & H3 & H4). pose proof (finite_valid _ (so_time _ Hok)).
  repeat first [apply ddiv_valid|apply dsub_valid|apply dmul_valid|done].
Qed.

Lemma next_guess_ok se :
  search_ok se → search_valid se →
  match next_guess end_ se with
  | None => se_have_bracket se = false
  | Some (t, se') => guess_ok se t se'
  end.
Proof.
  intros Hok Hv. pose proof (secant_valid se Hok Hv) as Hs. unfold next_guess. cbv zeta. set (t := ddiv _ _) in *. clearbody t.
  destruct Hok as [Ht Hl Hh Hla [[Ho1 Ho2] [Ho3 Ho4]] Hg Hb Hop].
  destruct (dlt (se_low_time se) t && dlt t (se_high_time se)) eqn:Hin.
  { apply dlt_inside in Hin as [Hf Hin]; [|done..]. split; try done; try lia; [by intros _; split; [lia|]| |by destruct se].
    intros Hnb. destruct (Hop Hnb) as (? & ? & ?). split; [done|lia]. }
  destruct (se_have_bracket se) eqn:Hbr.
  { destruct (midpoint (se_low_time se) (se_high_time se)) as [Hf Hmid]; [done|done|lia|lia|by apply Hb|].
    split; cbn [se_have_bracket se_high_time se_last_time upd]; try done; try lia. by intros _; split; [lia|]. }
  destruct (Hop eq_refl) as (Hlt & Hhi & Hst). destruct (dle end_ (se_time se)) eqn:Hle; [done|].
  assert (dz (se_time se) < dz end_) as Hend.
  { destruct (Z.lt_ge_cases (dz (se_time se)) (dz end_)) as [|Hge]; [done|]. apply dle_dz in Hge; [congruence|done..]. }
  destruct (extrapolate (se_high_time se) (se_last_time se)) as [Hx1 Hx2]; [done|done|lia|lia|].
  destruct (clip_late end_ _ _ He Hx1) as (Hcf & Hc1 & Hc2). set (h' := clip end_ _) in *.
  split; cbn [se_have_bracket se_high_time se_last_time upd]; try done; try lia; [congruence|].
  intros _. split; [destruct Hhi, Hc2; lia|]. intros Hend'. specialize (Hst Hend). destruct Hhi as [Hhi|Hhi]; [lia|].
  destruct (clip_late end_ _ _ He (Hx2 Hhi)) as (_ & _ & Hc3). fold h' in Hc3. destruct Hc3; lia.
Qed.

Context (Hhalf : valid half_step).

Lemma dsub_wide high low :
  finite high → finite low → dlt NANO (dsub high low) = true → 2 * UNIT < dz high - dz low.
Proof.
  intros Hh Hl Hlt. destruct NANO_value as [Hn HU]. destruct (Z.lt_ge_cases (dz NANO) (dz high - dz low)) as [|Hge]; [lia|].
  exfalso. destruct (near_le _ _ _ NANO (dsub_near _ _ Hh Hl) Hn) as [Hinf|[Hf Hle]]; [rewrite Z.pow_0_r; lia|..].
  - rewrite Hinf in Hlt. by destruct NANO as [| | |[]].
  - apply dlt_dz in Hlt; [lia|done..].
Qed.
Lemma step_target_valid sdir target : valid target → valid (step_target half_step sdir target).
Proof. intros Ht. destruct sdir; cbn; repeat first [apply dadd_valid|apply dsub_valid|done]. Qed.

(** The ranks of a search: steps left, whether there is a bracket, and its width. *)
Definition rank1 (se : search) : Z := dz end_ - dz (se_last_time se).
Definition rank2 (se : search) : Z := if se_have_bracket se then 0 else 1.
Definition rank3 (se : search) : Z :=
  if se_have_bracket se then dz (se_high_time se) else dz end_ - dz (se_low_time se).
Definition rank4 (se : search) : Z :=
  if se_have_bracket se then dz (se_high_time se) - dz (se_low_time se) else 0.
Notation before := (smaller rank1 rank2 rank3 rank4).

Lemma rank_nonneg se : search_ok se → 0 ≤ rank1 se ∧ 0 ≤ rank2 se ∧ 0 ≤ rank3 se ∧ 0 ≤ rank4 se.
Proof.
  intros [_ _ _ _ [Ho1 Ho2] Hg _ _]. unfold rank1, rank2, rank3, rank4. destruct (se_have_bracket se); lia.
Qed.

(** A step is given for a guess close to the target, or for a bracket that is narrow. *)
Definition accurate_step (se : search) : Prop :=
  dlt NANO (dabs (dsub (se_position se) (se_target se))) = false ∨
  se_have_bracket se = true ∧ dlt NANO (dsub (se_high_time se) (se_low_time se)) = false.

(** A search whose guess has been evaluated. *)
Definition evaluated (se : search) (t p : double) : search :=
  se <| se_old_time := se_time se |> <| se_old_position := se_position se |> <| se_time := t |> <| se_position := p |>.

Definition judged_ok (se : search) (t p : double) (v : verdict) : Prop :=
  match v with
  | Again _ se' => search_ok se' ∧ search_valid se' ∧ before se' se ∧ se_last_time se' = se_last_time se
  | Found se' => se_time se' = t ∧ se_position se' = p ∧ se_last_time se' = se_last_time se ∧
      search_valid se' ∧ accurate_step se' ∧ dz (se_last_time se) < dz t ≤ dz end_
  end.

(** The three ways to narrow the search. *)
Inductive narrowed (se : search) (t : double) (high : double) : search → Prop :=
| narrow_high se' :
    se_high_time se' = t → se_have_bracket se' = true →
    (se_low_time se' = se_low_time se ∨ se_low_time se' = se_last_time se) → narrowed se t high se'
| narrow_low se' :
    se_low_time se' = t → se_have_bracket se' = se_have_bracket se → se_high_time se' = high → narrowed se t high se'.

Lemma update_bounds_narrows se t se1 p dist :
  guess_ok se t se1 → search_valid se → valid (se_time se) → valid p →
  let '(se', rel) := update_bounds half_step dist (evaluated se1 t p) in
  narrowed se t (se_high_time se1) se' ∧ se_time se' = t ∧ se_position se' = p ∧
  se_last_time se' = se_last_time se ∧ search_valid se'.
Proof.
  intros [Hft _ _ _ _ _ Hsame] (V1 & V2 & V3 & V4) V5 Vp. rewrite Hsame. pose proof (finite_valid _ Hft) as Vt.
  destruct se1 as [a1 a2 a3 a4 a5 a6 a7 osc a9 a10 a11 high]. clear Hsame. cbn [se_check_oscillate se_high_time].
  unfold evaluated, update_bounds, search_valid in *. destruct se as [ot op ti po sd dc hb oc ta la lo hi].
  cbn [upd eta_expand eta_search se_old_time se_old_position se_time se_position se_sdir se_is_dir_change se_have_bracket
       se_check_oscillate se_target se_last_time se_low_time se_high_time] in *.
  repeat match goal with |- context [if ?b then _ else _] => destruct b end; cbn; split_and!; try done; try (by apply step_target_valid).
  all: try (apply narrow_high; [done|done|by left]); try (apply narrow_high; [done|done|by right]); by apply narrow_low.
Qed.

Lemma narrowed_smaller se t se1 se' :
  search_ok se → guess_ok se t se1 → narrowed se t (se_high_time se1) se' →
  se_last_time se' = se_last_time se → before se' se.
Proof.
  intros Hok [_ _ Hlow _ Hbr _ _] Hn Hla. unfold smaller, rank1, rank2, rank3, rank4. rewrite Hla.
  right. split; [done|]. destruct Hn as [se' Hh Hb _|se' Hl Hb Hh].
  - rewrite Hb, Hh. destruct (se_have_bracket se); [|left; lia]. destruct (Hbr eq_refl) as [? _]. right. split; [done|]. left. lia.
  - rewrite Hb, Hl, Hh. right. split; [done|]. destruct (se_have_bracket se).
    + destruct (Hbr eq_refl) as [_ ->]. right. split; [done|lia].
    + left. lia.
Qed.

Lemma narrowed_ok se t se1 se' :
  search_ok se → guess_ok se t se1 → narrowed se t (se_high_time se1) se' →
  se_time se' = t → se_last_time se' = se_last_time se →
  (se_have_bracket se' = true → dlt NANO (dsub (se_high_time se') (se_low_time se')) = true) → search_ok se'.
Proof.
  intros [Ht Hl Hh Hla [[Ho1 Ho2] [Ho3 Ho4]] Hg Hb Hop] [Gt Gh Glow [Gle1 Gle2] Gbr Gop _] Hn Et Ela Hw.
  assert (finite (se_high_time se') ∧ finite (se_low_time se') ∧ dz (se_last_time se) ≤ dz (se_low_time se') ∧
    dz (se_low_time se') ≤ dz (se_high_time se') ≤ dz end_) as (Fh & Fl & Hlow & Hord).
  { destruct Hn as [se' -> _ [-> | ->]|se' -> _ ->]; split_and!; first [assumption|lia]. }
  split; rewrite ?Et, ?Ela; try assumption; try lia.
  - intros Hbr. apply dsub_wide; auto.
  - intros Hnb. destruct Hn as [se' ? Hb' _|se' -> Hb' ->]; [congruence|]. rewrite Hnb in Hb'. symmetry in Hb'.
    destruct (Gop Hb') as [G1 G2]. split; [reflexivity|split; [exact G1|exact G2]].
Qed.

Lemma judge_ok se t se1 p :
  search_ok se → search_valid se → guess_ok se t se1 → valid p → judged_ok se t p (judge half_step (evaluated se1 t p)).
Proof.
  intros Hok Hv Hgu Vp. pose proof (so_order _ Hok) as [[? ?] [? ?]]. pose proof (gu_low _ _ _ Hgu). pose proof (gu_le _ _ _ Hgu).
  unfold judge. set (dist := dsub _ _). destruct (dlt NANO (dabs dist)) eqn:Hclose.
  - pose proof (update_bounds_narrows se t se1 p dist Hgu Hv (finite_valid _ (so_time _ Hok)) Vp) as Hu.
    destruct (update_bounds half_step dist (evaluated se1 t p)) as [se' rel]. destruct Hu as (Hn & Et & Ep & Ela & Hv').
    destruct (negb (se_have_bracket se') || _) eqn:Hgo; cbn [judged_ok].
    + split; [|split; [assumption|split; [exact (narrowed_smaller se t se1 se' Hok Hgu Hn Ela)|exact Ela]]]. apply (narrowed_ok se t se1); try assumption.
      intros Hb. rewrite Hb in Hgo. exact Hgo.
    + apply orb_false_iff in Hgo as [Hb%negb_false_iff Hw]. split_and!; try assumption; [right; split; assumption|lia|lia].
  - destruct Hgu as [Hft _ _ _ _ _ Hsame]. destruct Hv as (V1 & V2 & V3 & V4).
    assert (se_last_time se1 = se_last_time se ∧ se_target se1 = se_target se ∧ se_time se1 = se_time se ∧
      se_position se1 = se_position se) as (E1 & E2 & E3 & E4) by (clear -Hsame; rewrite Hsame; destruct se; split_and!; reflexivity).
    cbn [judged_ok]. unfold evaluated, search_valid, accurate_step. cbn. rewrite E1, E2, E3, E4.
    split_and!; try assumption; try reflexivity; [apply finite_valid, so_time, Hok|left|lia|lia]. rewrite <- E2. exact Hclose.
Qed.

(** ** The next step *)

Lemma reach_ahead x d :
  finite x → 0 ≤ dz x ≤ dz end_ → late (dz NANO) d →
  let h := clip end_ (dadd x d) in
  finite h ∧ dz x ≤ dz h ≤ dz end_ ∧ (dz h = dz end_ ∨ UNIT ≤ dz h - dz x) ∧ (dz x < dz end_ → dz x < dz h).
Proof.
  intros Hx H0 Hd h. destruct NANO_value as [Hn HU]. pose proof UNIT_pos. rewrite MAX_RANGE_eq in *.
  destruct (floor_unit (dz x) ltac:(lia)) as [Hk Hk0]. set (k := dz x / UNIT) in *.
  assert (k ≤ 2 ^ 52) as Hk2 by (apply Z.div_le_upper_bound; lia).
  destruct (tick (k + 2) ltac:(lia)) as (y & Hy & Vy).
  destruct (clip_late end_ _ _ He (dadd_late x d _ Hx Hd y Hy ltac:(lia))) as (Hf & H1 & H2). fold h in Hf, H1, H2.
  split; [done|]. destruct H2; lia.
Qed.

Lemma start_search_ok start commanded_pos sdir :
  finite start → 0 ≤ dz start ≤ dz end_ → search_ok (start_search start end_ commanded_pos half_step sdir).
Proof.
  intros Hs H0. destruct SEEK_value as [Hf Hv]. destruct (reach_ahead start SEEK_TIME_RESET Hs H0 (late_intro _ _ Hf Hv)) as (Hh & Hle & Hd & Hlt).
  split; cbn [start_search se_time se_low_time se_high_time se_last_time se_have_bracket]; try assumption; try lia.
Qed.

Lemma next_search_ok se :
  finite (se_time se) → finite (se_last_time se) → 0 ≤ dz (se_last_time se) ≤ dz (se_time se) → dz (se_time se) ≤ dz end_ →
  search_ok (next_search half_step end_ se).
Proof.
  intros Ht Hl H0 Hle. unfold next_search. cbv zeta. destruct NANO_value as [Hn _], SEEK_value as [Hsf Hsv], sesqui_value as [Hqf Hqv].
  set (d0 := dmul _ _). set (d1 := if dlt d0 NANO then NANO else d0).
  assert (late (dz NANO) d1) as Hd1.
  { unfold d1. destruct (dlt d0 NANO) eqn:Hlt; [apply late_intro; [assumption|lia]|]. destruct zero_value as [Hz0 Vz0].
    destruct (near_between _ _ _ (dint 0) (se_time se) (dsub_near _ _ Ht Hl) Hz0 Ht) as [Hdf Hdb]; [apply between_0; lia|].
    destruct (near_ge _ _ _ (dint 0) (dmul_near _ _ Hqf Hdf) Hz0) as [Hi|[Hf _]]; [rewrite Vz0; rewrite Vz0 in Hdb; apply Z.mul_nonneg_nonneg; lia|by left|].
    right. fold d0 in Hf. split; [done|]. destruct (Z.le_gt_cases (dz NANO) (dz d0)) as [|Hgt]; [done|].
    apply dlt_dz in Hgt; [congruence|done..]. }
  set (d2 := if _ && _ then SEEK_TIME_RESET else d1). assert (late (dz NANO) d2) as Hd2 by (unfold d2; destruct (_ && _); [apply late_intro; [assumption|lia]|exact Hd1]).
  destruct (reach_ahead (se_time se) d2 Ht ltac:(lia) Hd2) as (Hh & Hb & Hd & Hlt). clearbody d2.
  split; cbn; try assumption; try lia.
Qed.
End search.
