(* ===== verification/ItersolveSpec.v ===== *)
(** * The solver returns, with steps in order

    Proved for the queue of stepcompress.c and a callback that answers for every time.  The
    search itself always ends: the run of the solver returns, or it ends with the first call of
    [stepcompress_append] or [stepcompress_commit] that does not return (an array that is
    overrun, an overflow).  In both cases the queue has received steps whose times increase
    strictly inside the searched part of the move. *)

From Stdlib Require Import SpecFloat.
From S2P Require Import Prelude State Double DoubleSpec Msgblock StepCompress Trapq Kinematics Itersolve.
From S2P Require Import TrapqSpec SearchSpec.

(** ** Runs that do not return *)

Inductive failure := F_shut (reason : string) | F_undef | F_diverge.
Definition failed {S A} (x : result S A) : option failure :=
  match x with
  | Ret _ _ => None
  | Shut r _ => Some (F_shut r)
  | Undef => Some F_undef
  | Diverge => Some F_diverge
  end.

Lemma failed_bind {S A B} (m : M S A) (k : A → M S B) s f : failed (m s) = Some f → failed (mbind k m s) = Some f.
Proof. unfold mbind, M_bind. by destruct (m s). Qed.
Lemma failed_on_steps {A} (m : M stepcompress A) so f : failed (m (so_q so)) = Some f → failed (on_steps m so) = Some f.
Proof. unfold on_steps. by destruct (m (so_q so)). Qed.
Lemma result_cases {S A} (x : result S A) : (∃ a s, x = Ret a s) ∨ ∃ f, failed x = Some f.
Proof. destruct x; [left|right..]; eauto. Qed.

(** ** What the queue receives *)

Inductive event := Step (se : search) | Commit.

Section received.
Context {OS : HostOS}.

(** The calls for a step of a move that starts at [print_time], and for a commit. *)
Definition call (print_time : double) (e : event) : HC Z :=
  match e with
  | Step se => stepcompress_append (b2z (se_sdir se)) print_time (se_time se)
  | Commit => stepcompress_commit
  end.

(** The queue after the calls, or the failure of the last one. *)
Inductive received (print_time : double) : list event → stepcompress → stepcompress + failure → Prop :=
| rc_nil q : received print_time [] q (inl q)
| rc_commit es q q1 o r :
    call print_time Commit q = Ret r q1 → received print_time es q1 o → received print_time (Commit :: es) q o
| rc_step es se q q1 o :
    call print_time (Step se) q = Ret 0 q1 → received print_time es q1 o → received print_time (Step se :: es) q o
| rc_error se q q1 r :
    call print_time (Step se) q = Ret r q1 → r ≠ 0 → received print_time [Step se] q (inl q1)
| rc_stuck e q f : failed (call print_time e q) = Some f → received print_time [e] q (inr f).
End received.

(** The steps come after [lo], one later than the other, up to [end_], each of them [good]. *)
Fixpoint in_order (good : search → Prop) (end_ lo : double) (es : list event) : Prop :=
  match es with
  | [] => True
  | Commit :: es => in_order good end_ lo es
  | Step se :: es =>
      dlt lo (se_time se) = true ∧ dle (se_time se) end_ = true ∧ accurate_step se ∧ good se ∧
      in_order good end_ (se_time se) es
  end.

Section loop.
Context `{LM : Libm} {OS : HostOS}.
Notation solver := (solver stepcompress).

(** A callback that answers at entry [i] of the moves [l], in the states [IK] of the stepper. *)
Definition answers (l : list move) (IK : solver_kin → Prop) (i : nat) : Prop :=
  ∀ k t, IK k → finite t → ∃ p k', k_calc_position k l i t = Some (p, k') ∧ valid p ∧ IK k'.
(** The position of a step is an answer of the callback. *)
Definition answered (l : list move) (IK : solver_kin → Prop) (i : nat) (se : search) : Prop :=
  ∃ k k', IK k ∧ k_calc_position k l i (se_time se) = Some (se_position se, k').

(** The state of the solver between two rounds. *)
Record running (l : list move) (IK : solver_kin → Prop) (so : solver) : Prop := {
  ru_tq : ∃ tq, so_tq so = Some tq ∧ tq_moves tq = l;
  ru_k : IK (so_k so);
}.

Section one_range.
Context (l : list move) (IK : solver_kin → Prop) (i : nat) (HK : answers l IK i).
Context (print_time half_step end_ : double) (He : finite end_) (Hmax : dz end_ ≤ MAX_RANGE) (Hhalf : valid half_step).

Notation good := (answered l IK i).

Lemma calc_position_at_ok so t :
  running l IK so → finite t →
  ∃ p k', calc_position_at i t so = Ret p (so <| so_k := k' |>) ∧ valid p ∧ IK k' ∧
    k_calc_position (so_k so) l i t = Some (p, k').
Proof.
  intros [(tq & Htq & Hl) Hk] Ht. destruct (HK (so_k so) t Hk Ht) as (p & k' & Hc & Hp & Hk').
  exists p, k'. split; [|done]. unfold calc_position_at. rewrite Htq. cbn [mbind option_bind]. by rewrite Hl, Hc.
Qed.

(** How one round of the loop ends. *)
Inductive round_result (so : solver) (se : search) : search + option Z * search → solver → list event → Prop :=
| rr_end : round_result so se (inr (None, se)) so []
| rr_again so' se' es :
    running l IK so' → so_tq so' = so_tq so → es = [] ∨ es = [Commit] → se_last_time se' = se_last_time se →
    (∀ es2 o, received print_time es2 (so_q so') o → received print_time (es ++ es2) (so_q so) o) →
    search_ok end_ se' → search_valid se' → smaller (rank1 end_) rank2 (rank3 end_) rank4 se' se →
    round_result so se (inl se') so' es
| rr_step so' f se' :
    running l IK so' → so_tq so' = so_tq so →
    (∀ es2 o, received print_time es2 (so_q so') o → received print_time (Step f :: es2) (so_q so) o) →
    in_order good end_ (se_last_time se) [Step f] → se_last_time se' = se_time f →
    search_ok end_ se' → search_valid se' → smaller (rank1 end_) rank2 (rank3 end_) rank4 se' se →
    round_result so se (inl se') so' [Step f]
| rr_error so' f r :
    running l IK so' → so_tq so' = so_tq so → received print_time [Step f] (so_q so) (inl (so_q so')) → r ≠ 0 →
    in_order good end_ (se_last_time se) [Step f] →
    round_result so se (inr (Some r, f)) so' [Step f].

Lemma on_steps_eq {A} (m : HC A) so a q : m (so_q so) = Ret a q → on_steps m so = Ret a (so <| so_q := q |>).
Proof. intros Hm. unfold on_steps. by rewrite Hm. Qed.

Lemma search_round_ok so se :
  running l IK so → search_ok end_ se → search_valid se →
  (∃ r so' es, search_round i print_time half_step end_ se so = Ret r so' ∧ round_result so se r so' es) ∨
  ∃ e f, failed (search_round i print_time half_step end_ se so) = Some f ∧
    received print_time [e] (so_q so) (inr f) ∧ in_order good end_ (se_last_time se) [e].
Proof.
  intros Hr Hok Hv. unfold search_round. pose proof (next_guess_ok end_ He Hmax se Hok Hv) as Hg.
  destruct (next_guess end_ se) as [[t se1]|]; [|by left; exists (inr (None, se)), so, []; split; [|apply rr_end]].
  destruct (calc_position_at_ok so t Hr (gu_time _ _ _ _ Hg)) as (p & k' & Hc & Hp & Hk' & Hans).
  rewrite (bind_ret_eq _ _ _ _ _ Hc). fold (evaluated se1 t p).
  set (so1 := so <| so_k := k' |>). assert (running l IK so1) as Hr1 by (destruct Hr; by split).
  pose proof (judge_ok half_step end_ Hhalf se t se1 p Hok Hv Hg Hp) as Hj.
  destruct (judge half_step (evaluated se1 t p)) as [f|commit se'].
  - destruct Hj as (Et & Ep & El & Hvf & Hacc & Hb). pose proof (gu_time _ _ _ _ Hg) as Hft. pose proof (so_last _ _ Hok) as Hfl.
    assert (in_order good end_ (se_last_time se) [Step f]) as Ho.
    { cbn. rewrite Et. split_and!; [apply dlt_dz; [assumption..|lia]|apply dle_dz; [assumption..|lia]|exact Hacc| |done].
      exists (so_k so), k'. rewrite Et, Ep. split; [apply (ru_k _ _ _ Hr)|exact Hans]. }
    destruct (result_cases (call print_time (Step f) (so_q so1))) as [(r & q' & Ha)|[x Ha]].
    2: { right. exists (Step f), x. split; [by apply failed_bind, failed_on_steps|]. split; [by apply rc_stuck|exact Ho]. }
    left. rewrite (bind_ret_eq _ _ _ _ _ (on_steps_eq _ so1 _ _ Ha)). set (so2 := so1 <| so_q := q' |>).
    assert (running l IK so2) as Hr2 by (destruct Hr1; by split).
    destruct (nz r) eqn:Hnz.
    + exists (inr (Some r, f)), so2, [Step f]. split; [done|]. assert (r ≠ 0) by (intros ->; discriminate Hnz).
      by apply rr_error; [| |apply (rc_error _ _ _ _ r)| |].
    + assert (r = 0) as -> by (by destruct r). exists (inl (next_search half_step end_ f)), so2, [Step f]. split; [done|].
      pose proof (so_order _ _ Hok) as [[? ?] _].
      apply rr_step; [exact Hr2|reflexivity|intros es2 o H2; eapply rc_step; [exact Ha|exact H2]|exact Ho|reflexivity| | |].
      * apply next_search_ok; rewrite ?Et, ?El; assumption || lia.
      * destruct Hvf as (? & ? & ? & ?). split_and!; try assumption. by apply step_target_valid.
      * left. unfold rank1. cbn. rewrite Et. lia.
  - destruct Hj as (Hok' & Hv' & Hlt & Hla). destruct commit.
    + destruct (result_cases (call print_time Commit (so_q so1))) as [(r & q' & Hcm)|[x Hcm]].
      2: { right. exists Commit, x. split; [by apply failed_bind, failed_bind, failed_on_steps|]. split; [by apply rc_stuck|done]. }
      left. exists (inl se'), (so1 <| so_q := q' |>), [Commit]. split.
      { rewrite (bind_ret_eq _ _ so1 tt (so1 <| so_q := q' |>)); [done|]. by rewrite (bind_ret_eq _ _ _ _ _ (on_steps_eq _ so1 _ _ Hcm)). }
      apply rr_again; try assumption; [destruct Hr1; by split|done|by right|].
      intros es2 o H2. eapply rc_commit; [exact Hcm|exact H2].
    + left. exists (inl se'), so1, []. split; [done|]. by apply rr_again; [| |left|..].
Qed.

(** With enough patience the loop returns, or it ends with a call of the queue that fails. *)
Definition loop_ends (se : search) (so : solver) : Prop :=
  ∃ n es, in_order good end_ (se_last_time se) es ∧
    ((∃ r se' so', (∀ p, (n ≤ p)%nat → search_loop p i print_time half_step end_ se so = Ret (r, se') so') ∧
        received print_time es (so_q so) (inl (so_q so')) ∧ running l IK so' ∧ so_tq so' = so_tq so ∧
        match r with None => search_valid se' | Some e => e ≠ 0 end) ∨
     ∃ f, (∀ p, (n ≤ p)%nat → failed (search_loop p i print_time half_step end_ se so) = Some f) ∧
        received print_time es (so_q so) (inr f)).

Lemma loop_ends_cons se se1 so so1 es1 :
  (∀ p, search_loop (S p) i print_time half_step end_ se so = search_loop p i print_time half_step end_ se1 so1) →
  so_tq so1 = so_tq so → (∀ es o, received print_time es (so_q so1) o → received print_time (es1 ++ es) (so_q so) o) →
  (∀ es, in_order good end_ (se_last_time se1) es → in_order good end_ (se_last_time se) (es1 ++ es)) →
  loop_ends se1 so1 → loop_ends se so.
Proof.
  intros Hunf Htq Hrc Hio (n & es & Ho & Hend). exists (S n), (es1 ++ es). split; [by apply Hio|].
  destruct Hend as [(r & se' & so' & Hrun & Hrec & Hr' & Htq' & Hv)|(f & Hrun & Hrec)]; [left|right].
  - exists r, se', so'. split_and!; [|by apply Hrc|exact Hr'|congruence|exact Hv].
    intros [|p] Hp; [lia|]. rewrite Hunf. apply Hrun. lia.
  - exists f. split; [|by apply Hrc]. intros [|p] Hp; [lia|]. rewrite Hunf. apply Hrun. lia.
Qed.

Lemma search_loop_ends se : search_ok end_ se → search_valid se → ∀ so, running l IK so → loop_ends se so.
Proof.
  intros Hok. revert se Hok.
  apply (smaller_ind (search_ok end_) (rank1 end_) rank2 (rank3 end_) rank4 (rank_nonneg end_)
    (λ se, search_valid se → ∀ so, running l IK so → loop_ends se so)).
  intros se Hok IH Hv so Hr. destruct (search_round_ok so se Hr Hok Hv) as [(r & so1 & es1 & Hround & Hres)|(e & f & Hround & Hrec & Hio)].
  2: { exists 1%nat, [e]. split; [exact Hio|]. right. exists f. split; [|exact Hrec]. intros [|p] Hp; [lia|]. by apply failed_bind. }
  assert (∀ p, search_loop (S p) i print_time half_step end_ se so =
    (match r with inl se => search_loop p i print_time half_step end_ se | inr r => mret r end) so1) as Hunf.
  { intros p. cbn [search_loop]. by rewrite (bind_ret_eq _ _ _ _ _ Hround). }
  destruct Hres as [|so1 se1 es1 Hr1 Htq1 Hes Hla Hrc Hok1 Hv1 Hlt|so1 f se1 Hr1 Htq1 Hrc Hio Hla Hok1 Hv1 Hlt|so1 f r Hr1 Htq1 Hrc Hne Hio].
  - exists 1%nat, []. split; [done|]. left. exists None, se, so. split_and!; try done; [|apply rc_nil]. intros [|p] Hp; [lia|]. apply Hunf.
  - apply (loop_ends_cons se se1 so so1 es1 Hunf Htq1 Hrc); [|by apply IH]. rewrite Hla. by destruct Hes as [-> | ->].
  - apply (loop_ends_cons se se1 so so1 [Step f] Hunf Htq1 Hrc); [|by apply IH]. rewrite Hla. destruct Hio as (? & ? & ? & ? & _). intros es Hes. by split_and!.
  - exists 1%nat, [Step f]. split; [exact Hio|]. left. exists (Some r), f, so1. split_and!; try assumption. intros [|p] Hp; [lia|]. apply Hunf.
Qed.
End one_range.

(** ** A part of a move *)

Lemma empty_range start end_ commanded_pos half_step sdir :
  finite start → finite end_ → dz end_ < dz start →
  next_guess end_ (start_search start end_ commanded_pos half_step sdir) = None.
Proof.
  intros Hs He Hlt. unfold next_guess, start_search.
  cbn [se_position se_target se_old_position se_old_time se_time se_low_time se_high_time se_have_bracket].
  set (t := ddiv _ _). set (high := clip end_ _). destruct SEEK_value as [Hf Hv]. pose proof UNIT_pos. destruct NANO_value as [_ Hn].
  assert (late (dz start) (dadd start SEEK_TIME_RESET)) as Hlate.
  { apply (dadd_late start _ (dz SEEK_TIME_RESET)); [assumption|apply late_intro; [assumption|lia]|assumption|lia]. }
  destruct (clip_late end_ _ _ He Hlate) as (Hfh & Hle & Hhi). fold high in Hfh, Hle, Hhi.
  destruct (dlt start t && dlt t high) eqn:Hin.
  - exfalso. apply andb_true_iff in Hin as [H1 H2]. pose proof (dlt_trans _ _ _ H1 H2) as H3.
    apply dlt_dz in H3; [lia|assumption..].
  - assert (dle end_ start = true) as -> by (apply dle_dz; [assumption..|lia]). reflexivity.
Qed.

(** Steppers whose callback answers at every move of [l], in the states [IK]. *)
Record lawful_kin (l : list move) (IK : solver_kin → Prop) : Prop := {
  lk_answers i : (i < length l)%nat → answers l IK i;
  lk_valid k : IK k → valid (sk_commanded_pos (k_sk k)) ∧ valid (sk_step_dist (k_sk k));
  lk_times k : IK k → upto 20 (sk_pre_active (k_sk k)) ∧ upto 20 (sk_post_active (k_sk k)) ∧ upto 20 (sk_last_move_time (k_sk k));
  lk_pos k c : IK k → valid c → IK (upd_sk (λ sk, sk <| sk_commanded_pos := c |>) k);
  lk_post k : IK k → IK (k_post k);
  lk_move k t : IK k → upto 20 t → IK (upd_sk (λ sk, sk <| sk_last_move_time := t |>) k);
  lk_flags k k' : IK k → IK k' → sk_active_flags (k_sk k) = sk_active_flags (k_sk k');
  lk_flush k t : IK k → IK (upd_sk (λ sk, sk <| sk_last_flush_time := t |>) k);
}.

Lemma get_moves_eq l IK so : running l IK so → get_moves so = Ret l so.
Proof. intros [(tq & Htq & Hl) _]. unfold get_moves. rewrite (bind_ret_eq get _ so so so eq_refl), Htq, <- Hl. done. Qed.

Lemma range_start_nonneg m a : finite (range_start m a) → 0 ≤ dz (range_start m a).
Proof.
  destruct zero_value as [Hz Vz]. unfold range_start. cbv zeta. set (x := dsub _ _). destruct (dlt x (dint 0)) eqn:Hlt; [lia|].
  intros Hx. destruct (Z.le_gt_cases 0 (dz x)) as [|Hneg]; [done|]. rewrite <- Vz in Hneg. apply dlt_dz in Hneg; [congruence|assumption..].
Qed.

(** After the loop. *)
Definition range_result (half_step : double) (ret : option Z) (se : search) : M solver Z :=
  match ret with
  | Some ret => mret ret
  | None =>
      set_sk (λ sk, sk <| sk_commanded_pos := dsub (se_target se) (if se_sdir se then half_step else dneg half_step) |>);;;
      modify (λ so, so <| so_k := k_post (so_k so) |>);;;
      mret 0
  end.

(** How the search of a part of the move [m], entry [i] of [l], ends. *)
Definition range_ends_at (l : list move) (IK : solver_kin → Prop) (i : nat) (m : move) (abs_start abs_end : double) (so : solver) : Prop :=
  ∃ n es, in_order (answered l IK i) (range_end m abs_end) (range_start m abs_start) es ∧
    ((∃ r so', (∀ p, (n ≤ p)%nat → itersolve_gen_steps_range p i abs_start abs_end so = Ret r so') ∧
        received (tm_print_time m) es (so_q so) (inl (so_q so')) ∧ running l IK so' ∧ so_tq so' = so_tq so) ∨
     ∃ f, (∀ p, (n ≤ p)%nat → failed (itersolve_gen_steps_range p i abs_start abs_end so) = Some f) ∧
        received (tm_print_time m) es (so_q so) (inr f)).

Lemma wp_gen_steps_range l IK i m abs_start abs_end so :
  lawful_kin l IK → running l IK so → l !! i = Some m →
  finite (range_start m abs_start) → finite (range_end m abs_end) → dz (range_end m abs_end) ≤ MAX_RANGE →
  range_ends_at l IK i m abs_start abs_end so.
Proof.
  intros HL Hr Hm Hfs Hfe Hmax. pose proof (range_start_nonneg _ _ Hfs) as H0. set (start := range_start m abs_start) in *.
  set (end_ := range_end m abs_end) in *. destruct (lk_valid _ _ HL _ (ru_k _ _ _ Hr)) as [Hvp Hvd].
  set (half_step := dmul (dec 5 1) (sk_step_dist (k_sk (so_k so)))). set (d := sc_next_step_dir (so_q so)).
  assert (valid half_step) as Hvh by (apply dmul_valid; [apply finite_valid, half_value|done]).
  set (se0 := start_search start end_ (sk_commanded_pos (k_sk (so_k so))) half_step (nz d)).
  assert (search_valid se0) as Hv0.
  { split_and!; try assumption; [by apply finite_valid|]. apply dadd_valid; [done|]. destruct (nz d); [done|by apply dneg_valid]. }
  assert (loop_ends l IK i (tm_print_time m) half_step end_ se0 so) as (n & es & Hord & Hend).
  { destruct (Z.le_gt_cases (dz start) (dz end_)) as [Hle|Hgt].
    - apply (search_loop_ends l IK i (lk_answers _ _ HL i (lookup_lt_Some _ _ _ Hm)) _ half_step end_ Hfe Hmax Hvh se0); [|done..].
      by apply start_search_ok.
    - exists 1%nat, []. split; [done|]. left. exists None, se0, so. split_and!; try done; [|apply rc_nil]. intros [|p] Hp; [lia|].
      cbn [search_loop]. unfold search_round at 1.
      pose proof (empty_range start end_ (sk_commanded_pos (k_sk (so_k so))) half_step (nz d) Hfs Hfe Hgt) as Hng.
      fold se0 in Hng. by rewrite Hng. }
  assert (∀ p, itersolve_gen_steps_range p i abs_start abs_end so =
    (let! '(ret, se) := search_loop p i (tm_print_time m) half_step end_ se0 in range_result half_step ret se) so) as Hunf.
  { intros p. unfold itersolve_gen_steps_range. rewrite (bind_ret_eq _ _ _ _ _ (get_moves_eq _ _ _ Hr)), Hm.
    rewrite (bind_ret_eq (deref (Some m)) _ so m so eq_refl), (bind_ret_eq get _ so so so eq_refl).
    rewrite (bind_ret_eq _ _ so d so); [done|]. by destruct so. }
  exists n, es. split; [exact Hord|]. destruct Hend as [(r & se' & so1 & Hrun & Hrec & Hr1 & Htq1 & Hend)|(f & Hrun & Hrec)]; [left|right].
  2: { exists f. split; [|exact Hrec]. intros p Hp. rewrite Hunf. by apply failed_bind, Hrun. }
  assert (∀ p, (n ≤ p)%nat → itersolve_gen_steps_range p i abs_start abs_end so = range_result half_step r se' so1) as Hrun'.
  { intros p Hp. by rewrite Hunf, (bind_ret_eq _ _ _ _ _ (Hrun p Hp)). }
  destruct r as [e|]; [by exists e, so1; split_and!|].
  exists 0. eexists. split; [intros p Hp; rewrite (Hrun' p Hp); reflexivity|]. split_and!; try done.
  destruct Hr1 as [Ht Hk]. split; [done|]. destruct Hend as (_ & _ & _ & Htv).
  apply (lk_post _ _ HL), (lk_pos _ _ HL); [done|]. apply dsub_valid; [done|]. destruct (se_sdir se'); [done|by apply dneg_valid].
Qed.
End loop.
