(* ===== verification/GenerateSpec.v ===== *)
(** * One call of the solver covers the flushed time

    [itersolve_generate_steps] ends, never leaves the list of moves, and searches windows of
    moves that lie between the last flush and this one, move after move and without overlap. *)

From Stdlib Require Import SpecFloat.
From S2P Require Import Prelude State Double DoubleSpec Msgblock StepCompress Trapq Kinematics Itersolve.
From S2P Require Import TrapqSpec SearchSpec ItersolveSpec.

(** ** Windows of bounded moves *)

Lemma dsub_bounded k x y : 0 ≤ k → upto k x → upto k y → finite (dsub x y) ∧ - dz y ≤ dz (dsub x y) ≤ dz x.
Proof.
  intros Hk [Hx Bx] [Hy By]. pose proof (finite_dneg y Hy) as Hn. pose proof (dz_dneg y) as Vn.
  destruct (near_between _ _ _ (dneg y) x (dsub_near x y Hx Hy) Hn Hx) as [Hf Hb]; [apply between_0; lia|].
  split; [exact Hf|lia].
Qed.

(** A move of the list, a sentinel included. *)
Record entry_ok (m : move) : Prop := {
  eo_print : upto 54 (tm_print_time m);
  eo_time : upto 54 (tm_move_t m);
  eo_end : upto 55 (move_end m);
}.
Lemma move_entry_ok m : move_ok m → entry_ok m.
Proof. intros [H1 H2 H3]. split; [exact H1|exact H2|apply (upto_mono 54); [exact H3|lia]]. Qed.
Lemma tail_entry_ok t : tail_ok t → entry_ok t ∧ 2 ^ (53 + 3000) < dz (move_end t).
Proof.
  intros [H1 H2 _]. destruct NEVER_value as [Hn Hv]. unfold move_end. destruct (upto_add 54 _ _ ltac:(lia) H1 Hn) as (He & _ & Hle).
  split; [split; [exact H1|rewrite H2; exact Hn|unfold move_end; rewrite H2; exact He]|rewrite H2; lia].
Qed.

Lemma range_start_finite m a : entry_ok m → upto 54 a → finite (range_start m a).
Proof.
  intros [Hp _ _] Ha. unfold range_start. cbv zeta. destruct (dlt _ _); [apply zero_value|]. apply (dsub_bounded 54); [lia|exact Ha|exact Hp].
Qed.
Lemma range_end_finite m a : entry_ok m → upto 20 a → finite (range_end m a) ∧ dz (range_end m a) ≤ MAX_RANGE.
Proof.
  intros [Hp Ht _] Ha. unfold range_end, clip.
  destruct (dsub_bounded 54 a (tm_print_time m)) as [Hf Hb]; [lia|apply (upto_mono 20); [exact Ha|lia]|exact Hp|].
  destruct Ha as [_ Ha]. assert (2 ^ (20 + 3000) ≤ MAX_RANGE) as Hm.
  { rewrite MAX_RANGE_eq, UNIT_eq. rewrite <- Z.pow_add_r by lia. apply Z.pow_le_mono_r; lia. }
  destruct (dlt (tm_move_t m) _) eqn:Hlt; [|split; [exact Hf|lia]]. destruct Ht as [Hft Ht].
  split; [exact Hft|]. apply dlt_dz in Hlt; [lia|assumption..].
Qed.

Lemma dle_false x y : finite x → finite y → dle x y = false → dz y < dz x.
Proof. intros Hx Hy H. destruct (Z.le_gt_cases (dz x) (dz y)) as [Hle|]; [|lia]. apply dle_dz in Hle; [congruence|assumption..]. Qed.
Lemma dlt_false x y : finite x → finite y → dlt x y = false → dz y ≤ dz x.
Proof. intros Hx Hy H. destruct (Z.le_gt_cases (dz y) (dz x)) as [|Hlt]; [assumption|]. apply dlt_dz in Hlt; [congruence|assumption..]. Qed.

(** [if (a < b) a = b] *)
Definition raise (b a : double) : double := if dlt a b then b else a.
Lemma raise_bounded k b a : finite a → dz a ≤ 2 ^ (k + 3000) → upto k b → upto k (raise b a) ∧ dz b ≤ dz (raise b a) ∧ dz a ≤ dz (raise b a).
Proof.
  intros Ha Hm [Hb Bb]. unfold raise. destruct (dlt a b) eqn:Hlt.
  - apply dlt_dz in Hlt; [|assumption..]. split; [split; [exact Hb|exact Bb]|lia].
  - apply dlt_false in Hlt; [|assumption..]. split; [split; [exact Ha|lia]|lia].
Qed.

(** ** What a call has the queue receive *)

(** A search of entry [sg_i] between two print times, and the steps it found. *)
Record segment := mk_segment { sg_i : nat; sg_start : double; sg_end : double; sg_events : list event }.

(** The windows come after time [e] of entry [i], and do not overlap. *)
Fixpoint ordered_from (i : nat) (e : double) (segs : list segment) : Prop :=
  match segs with
  | [] => True
  | sg :: segs =>
      ((i < sg_i sg)%nat ∨ i = sg_i sg ∧ dle e (sg_start sg) = true) ∧ ordered_from (sg_i sg) (sg_end sg) segs
  end.
(** The entry and the time at which the windows end. *)
Fixpoint reached (i : nat) (e : double) (segs : list segment) : nat * double :=
  match segs with [] => (i, e) | sg :: segs => reached (sg_i sg) (sg_end sg) segs end.

Lemma ordered_from_app i e segs segs' :
  ordered_from i e (segs ++ segs') ↔
  ordered_from i e segs ∧ ordered_from (reached i e segs).1 (reached i e segs).2 segs'.
Proof. revert i e. induction segs as [|sg segs IH]; intros i e; cbn; [tauto|]. rewrite IH. tauto. Qed.
Lemma reached_app i e segs segs' :
  reached i e (segs ++ segs') = reached (reached i e segs).1 (reached i e segs).2 segs'.
Proof. revert i e. induction segs as [|sg segs IH]; intros i e; cbn; [done|]. apply IH. Qed.

Section generated.
Context `{LM : Libm} {OS : HostOS}.
Notation solver := (solver stepcompress).
Context (l : list move) (IK : solver_kin → Prop).

(** Each window lies in the flushed time, and its steps are in order in its part of the move. *)
Definition segment_ok (from until : double) (m : move) (sg : segment) : Prop :=
  l !! sg_i sg = Some m ∧ dle from (sg_start sg) = true ∧ dle (sg_end sg) until = true ∧
  in_order (answered l IK (sg_i sg)) (range_end m (sg_end sg)) (range_start m (sg_start sg)) (sg_events sg).

(** The queue after the windows, or the failure of the last call of the last one. *)
Inductive generated (from until : double) : list segment → stepcompress → stepcompress + failure → Prop :=
| gen_nil q : generated from until [] q (inl q)
| gen_cons m sg segs q q1 o :
    segment_ok from until m sg → received (tm_print_time m) (sg_events sg) q (inl q1) →
    generated from until segs q1 o → generated from until (sg :: segs) q o
| gen_stuck m sg q f :
    segment_ok from until m sg → received (tm_print_time m) (sg_events sg) q (inr f) → generated from until [sg] q (inr f).

Lemma generated_app from until segs segs' q q1 o :
  generated from until segs q (inl q1) → generated from until segs' q1 o → generated from until (segs ++ segs') q o.
Proof.
  intros H. remember (inl q1) as o1 eqn:E. revert E. induction H as [q|m sg segs q q2 o1 Hs Hr _ IH|]; intros E Hg; [by injection E as ->| |done].
  eapply gen_cons; [exact Hs|exact Hr|by apply IH].
Qed.

(** ** Programs that end, given enough patience *)

(** The run returns with [P], or it fails with [F], the same with more patience. *)
Definition ends {A} (m : nat → M solver A) (so : solver) (P : A → solver → Prop) (F : failure → Prop) : Prop :=
  ∃ n, (∃ a so', (∀ p, (n ≤ p)%nat → m p so = Ret a so') ∧ P a so') ∨
       (∃ f, (∀ p, (n ≤ p)%nat → failed (m p so) = Some f) ∧ F f).

Lemma ends_ret {A} (m : M solver A) so a so' (P : A → solver → Prop) F :
  m so = Ret a so' → P a so' → ends (λ _, m) so P F.
Proof. intros Hm HP. exists 0%nat. left. by exists a, so'. Qed.
Lemma ends_then {A B} (m : nat → M solver A) (k : nat → A → M solver B) so P R F :
  ends m so P F → (∀ a so', P a so' → ends (λ p, k p a) so' R F) → ends (λ p, mbind (k p) (m p)) so R F.
Proof.
  intros (n & [(a & so1 & Hm & HP)|(f & Hm & HF)]) Hk.
  2: { exists n. right. exists f. split; [|exact HF]. intros p Hp. apply failed_bind, Hm, Hp. }
  destruct (Hk a so1 HP) as (n' & Hb). exists (n + n')%nat.
  assert (∀ p, (n + n' ≤ p)%nat → mbind (k p) (m p) so = k p a so1) as E by (intros p Hp; apply bind_ret_eq, Hm; lia).
  destruct Hb as [(b & so2 & Hb & HR)|(f & Hb & HF)]; [left; exists b, so2|right; exists f]; (split; [|done]); intros p Hp; rewrite (E p Hp); apply Hb; lia.
Qed.
Lemma ends_step {A B} (m : M solver A) (k : nat → A → M solver B) so a so1 R F :
  m so = Ret a so1 → ends (λ p, k p a) so1 R F → ends (λ p, mbind (k p) m) so R F.
Proof.
  intros Hm Hk. apply (ends_then (λ _, m) k so (λ a' so', a' = a ∧ so' = so1)).
  - by apply (ends_ret _ _ a so1).
  - by intros ? ? [-> ->].
Qed.
Lemma ends_mono {A} (m : nat → M solver A) so (P R : A → solver → Prop) (F G : failure → Prop) :
  ends m so P F → (∀ a so', P a so' → R a so') → (∀ f, F f → G f) → ends m so R G.
Proof. intros (n & [(a & so1 & Hm & HP)|(f & Hm & HF)]) HR HG; exists n; [left|right]; eauto. Qed.

(** A result does not change with more patience. *)
Definition keeps_result {A} (m : nat → M solver A) : Prop :=
  ∀ p q so a so', (p ≤ q)%nat → m p so = Ret a so' → m q so = Ret a so'.

Lemma keeps_result_const {A} (m : M solver A) : keeps_result (λ _, m).
Proof. by intros p q so a so' _. Qed.
Lemma keeps_result_bind {A B} (m : nat → M solver A) (k : nat → A → M solver B) :
  keeps_result m → (∀ a, keeps_result (λ p, k p a)) → keeps_result (λ p, mbind (k p) (m p)).
Proof.
  intros Hm Hk p q so b so' Hpq. unfold mbind, M_bind. destruct (m p so) as [a so1| | |] eqn:E; try done.
  rewrite (Hm p q so a so1 Hpq E). by apply (Hk a p q).
Qed.
Ltac keeps :=
  repeat match goal with
  | |- keeps_result (λ p, mbind _ _) => apply keeps_result_bind; [|intros ?]
  | |- keeps_result (λ p, if ?b then _ else _) => destruct b
  | |- keeps_result (λ p, match ?x with _ => _ end) => destruct x
  | |- keeps_result (λ p, let _ := _ in _) => cbv zeta
  | H : keeps_result _ |- _ => apply H
  | H : ∀ _, _ |- _ => apply H
  | |- _ => apply keeps_result_const
  end.
Lemma search_loop_keeps i print_time half_step end_ se : keeps_result (λ p, search_loop p i print_time half_step end_ se).
Proof.
  intros p. revert se. induction p as [|p IH]; intros se [|q] so a so' Hpq; [done|done|lia|]. cbn [search_loop]. unfold mbind, M_bind.
  destruct (search_round i print_time half_step end_ se so) as [[se'|r] so1| | |]; try done. apply IH. lia.
Qed.
Lemma range_keeps i a b : keeps_result (λ p, itersolve_gen_steps_range p i a b).
Proof. pose proof search_loop_keeps. unfold itersolve_gen_steps_range. keeps. Qed.
Lemma gen_before_keeps n pm a b : keeps_result (λ p, gen_before p n pm a b).
Proof. pose proof range_keeps. revert pm. induction n as [|n IH]; intros pm; cbn [gen_before]; keeps. Qed.
Lemma gen_moves_keeps lm rest i a b force skip : keeps_result (λ p, gen_moves p lm rest i a b force skip).
Proof.
  pose proof range_keeps. pose proof gen_before_keeps.
  revert i force skip. induction rest as [|m rest IH]; intros i force skip; cbn [gen_moves]; unfold gen_move; keeps.
Qed.
Lemma generate_steps_keeps flush_time : keeps_result (λ p, itersolve_generate_steps p flush_time).
Proof. pose proof gen_moves_keeps. unfold itersolve_generate_steps. keeps. Qed.

(** ** The moves of one call *)

Section call.
Context (HL : lawful_kin l IK) (Hl : Forall entry_ok l).
Context (from until : double) (Hfrom : upto 20 from) (Huntil : upto 20 until).

(** The windows [segs] bring the queue from [so] to [so']. *)
Definition searched (pos : nat * double) (segs : list segment) (so so' : solver) : Prop :=
  generated from until segs (so_q so) (inl (so_q so')) ∧ ordered_from pos.1 pos.2 segs ∧ running l IK so'.
(** The last of the windows ends with the failure [f] of the queue. *)
Definition breaks (pos : nat * double) (so : solver) (f : failure) : Prop :=
  ∃ segs, generated from until segs (so_q so) (inr f) ∧ ordered_from pos.1 pos.2 segs.
Definition before (pos : nat * double) (i : nat) (a : double) : Prop :=
  (pos.1 < i)%nat ∨ pos.1 = i ∧ dle pos.2 a = true.

Lemma searched_app pos segs segs' so so1 so2 :
  searched pos segs so so1 → searched (reached pos.1 pos.2 segs) segs' so1 so2 → searched pos (segs ++ segs') so so2.
Proof.
  intros (G1 & O1 & _) (G2 & O2 & R2). split; [by eapply generated_app|]. split; [by apply ordered_from_app|exact R2].
Qed.
Lemma searched_breaks pos segs so so1 f : searched pos segs so so1 → breaks (reached pos.1 pos.2 segs) so1 f → breaks pos so f.
Proof.
  intros (G1 & O1 & _) (segs' & G2 & O2). exists (segs ++ segs'). split; [by eapply generated_app|by apply ordered_from_app].
Qed.
Lemma searched_none pos so : running l IK so → searched pos [] so so.
Proof. intros Hr. split; [apply gen_nil|by split]. Qed.

Lemma entry_at i m : l !! i = Some m → entry_ok m.
Proof. intros Hi. by apply (Forall_lookup_1 _ _ _ _ Hl Hi). Qed.

Lemma range_ends pos i m a b so :
  l !! i = Some m → before pos i a → upto 54 a → dz from ≤ dz a → upto 20 b → dz b ≤ dz until → running l IK so →
  ends (λ p, itersolve_gen_steps_range p i a b) so (λ _ so', ∃ es, searched pos [mk_segment i a b es] so so') (breaks pos so).
Proof.
  intros Hi Hpos Ha Hfa Hb Hbu Hr. pose proof (entry_at i m Hi) as Hm. destruct (range_end_finite m b Hm Hb) as [He Hmax].
  destruct (wp_gen_steps_range l IK i m a b so HL Hr Hi (range_start_finite m a Hm Ha) He Hmax)
    as (n & es & Hord & Hend). destruct Hfrom as [Hff _], Huntil as [Hfu _], Ha as [Hfa' _], Hb as [Hfb _].
  assert (segment_ok from until m (mk_segment i a b es)) as Hsg.
  { split; [exact Hi|]. cbn [sg_i sg_start sg_end sg_events]. split; [apply dle_dz; assumption|]. split; [apply dle_dz; assumption|exact Hord]. }
  assert (ordered_from pos.1 pos.2 [mk_segment i a b es]) as Ho by (by split).
  exists n. destruct Hend as [(r & so' & Hrun & Hrec & Hr' & _)|(f & Hrun & Hrec)]; [left; exists r, so'|right; exists f]; (split; [exact Hrun|]).
  - exists es. split; [|by split]. eapply gen_cons; [exact Hsg|exact Hrec|apply gen_nil].
  - eexists. split; [by eapply gen_stuck|exact Ho].
Qed.

Lemma back_up_ok n p a : (p < length l)%nat → (n ≤ p)%nat → ∃ pm, back_up l (S n) p a = Some pm ∧ (p - n ≤ pm ≤ p)%nat.
Proof.
  revert p. induction n as [|n IH]; intros p Hp Hn; destruct (lookup_lt_is_Some_2 l p Hp) as [m Hm].
  - exists p. cbn. rewrite Hm. cbn. split; [done|lia].
  - cbn [back_up]. rewrite Hm. cbn [mbind option_bind Nat.eqb negb andb].
    destruct (dlt a (tm_print_time m)); [|exists p; split; [done|lia]].
    destruct p as [|p]; [lia|]. destruct (IH p ltac:(lia) ltac:(lia)) as (pm & H1 & H2). exists pm. split; [exact H1|lia].
Qed.

Lemma gen_before_ends n : ∀ pos pm a so,
  (0 < n)%nat → (pm + n ≤ length l)%nat → before pos pm a → upto 54 a → dz from ≤ dz a → running l IK so →
  ends (λ p, gen_before p n pm a until) so
    (λ _ so', ∃ segs, searched pos segs so so' ∧ ((reached pos.1 pos.2 segs).1 < pm + n)%nat) (breaks pos so).
Proof.
  induction n as [|n IH]; intros pos pm a so Hn Hlen Hpos Ha Hfa Hr; [lia|]. cbn [gen_before].
  destruct (lookup_lt_is_Some_2 l pm ltac:(lia)) as [m Hm]. eapply ends_then.
  { by apply (range_ends pos pm m a until). }
  cbn beta. intros r so1 (es & Hs). destruct (nz r); [|destruct n as [|n]].
  - eapply ends_ret; [reflexivity|]. eexists. split; [exact Hs|cbn; lia].
  - eapply ends_ret; [reflexivity|]. eexists. split; [exact Hs|cbn; lia].
  - eapply ends_mono.
    { apply (IH (pm, until) (S pm) a so1); [lia|lia|left; cbn; lia|exact Ha|exact Hfa|apply Hs]. }
    + cbn beta. intros r' so2 (segs & Hs2 & Hre). eexists. split; [by eapply searched_app|]. cbn in Hre |- *. lia.
    + intros f. by apply (searched_breaks pos _ _ _ f Hs).
Qed.

(** Between two moves: the windows end before entry [i], or at the first of the [skip] entries
    before it, at a time up to [force]. *)
Definition between (pos : nat * double) (i : nat) (force : double) (skip : nat) : Prop :=
  (pos.1 + skip < i)%nat ∨ (pos.1 + skip = i)%nat ∧ (0 < skip)%nat ∧ finite pos.2 ∧ dz pos.2 ≤ dz force.

(** The steps before a move that the stepper takes part in. *)
Lemma lead_up_ends pos i m force skip pre so :
  l !! i = Some m → between pos i force skip → upto 21 force → upto 20 pre → (0 < skip)%nat → running l IK so →
  let abs_start := raise force (raise from (dsub (tm_print_time m) pre)) in
  ends (λ p, match i with
             | O => undef
             | S q => let! pm := deref (back_up l skip q abs_start) in gen_before p (i - pm) pm abs_start until
             end) so
    (λ _ so', ∃ segs, searched pos segs so so' ∧ ((reached pos.1 pos.2 segs).1 < i)%nat) (breaks pos so).
Proof.
  intros Hi Hpos Hf Hpre Hskip Hr abs_start. pose proof (lookup_lt_Some _ _ _ Hi) as Hlt. pose proof (entry_at i m Hi) as [Hp _ _].
  assert (upto 54 abs_start ∧ dz from ≤ dz abs_start ∧ dz force ≤ dz abs_start) as (Ha & Hfa & Hfo).
  { destruct (dsub_bounded 54 (tm_print_time m) pre) as [Hd Bd]; [lia|exact Hp|apply (upto_mono 20); [exact Hpre|lia]|].
    destruct Hp as [_ Hp]. destruct (raise_bounded 54 from _ Hd) as ([H1 H1'] & H2 & H3); [lia|apply (upto_mono 20); [exact Hfrom|lia]|].
    destruct (raise_bounded 54 force _ H1) as (H4 & H5 & H6); [lia|apply (upto_mono 21); [exact Hf|lia]|].
    split; [exact H4|]. unfold abs_start. lia. }
  assert (skip ≤ i)%nat as Hsi by (destruct Hpos as [?|[? _]]; lia). destruct i as [|q]; [lia|]. destruct skip as [|n]; [lia|].
  destruct (back_up_ok n q abs_start ltac:(lia) ltac:(lia)) as (pm & Hb & Hpm). rewrite Hb.
  eapply ends_step; [reflexivity|]. eapply ends_mono.
  { apply (gen_before_ends (S q - pm) pos pm abs_start so); [lia|lia| |exact Ha|exact Hfa|exact Hr].
    unfold before. destruct Hpos as [?|(? & _ & He & Hle)]; [left; lia|].
    destruct (Nat.eq_dec pos.1 pm); [right|left; lia]. split; [assumption|]. apply dle_dz; [exact He|apply Ha|lia]. }
  - cbn beta. intros r so' (segs & Hs & Hre). exists segs. split; [exact Hs|lia].
  - done.
Qed.

(** The whole window of a move that the stepper takes part in has been searched. *)
Definition covers (sk : stepper_kinematics) (i : nat) (m : move) (segs : list segment) : Prop :=
  check_active sk m = true → ∃ es, mk_segment i from until es ∈ segs.
(** The move with index [i]: how the loop goes on. *)
Definition goes_on (sk : stepper_kinematics) (pos : nat * double) (i : nat) (m : move) (r : double * nat + Z) (segs : list segment) : Prop :=
  match r with
  | inl (force, skip) =>
      upto 21 force ∧ between (reached pos.1 pos.2 segs) (S i) force skip ∧ dz (move_end m) ≤ 2 ^ (21 + 3000) ∧ covers sk i m segs
  | inr ret => ret = 0 → dz until ≤ dz (move_end m) ∧ covers sk i m segs
  end.
Lemma between_lt pos i force skip : between pos i force skip → (pos.1 < i)%nat.
Proof. unfold between. lia. Qed.

(** The end of a window past activity. *)
Lemma window_end force (e := if dlt until force then until else force) :
  upto 21 force → upto 20 e ∧ dz e ≤ dz until ∧ finite e ∧ dz e ≤ dz force.
Proof.
  intros [Hf Bf]. pose proof Huntil as [Hu Bu]. unfold e. destruct (dlt until force) eqn:Hlt.
  - apply dlt_dz in Hlt; [|assumption..]. split; [exact Huntil|]. split; [lia|]. split; [exact Hu|lia].
  - apply dlt_false in Hlt; [|assumption..]. split; [split; [exact Hf|lia]|]. split; [lia|]. split; [exact Hf|lia].
Qed.

Section one_move.
Context (pos : nat * double) (i : nat) (m : move) (force : double) (skip : nat) (so : solver).
Context (Hi : l !! i = Some m) (Hpos : between pos i force skip) (Hforce : upto 21 force) (Hr : running l IK so).
Notation sk := (k_sk (so_k so)).

Lemma times_ok : upto 20 (sk_pre_active sk) ∧ upto 20 (sk_post_active sk) ∧ upto 20 (sk_last_move_time sk).
Proof. apply (lk_times _ _ HL), Hr. Qed.

Lemma active_ends :
  check_active sk m = true →
  ends (λ p, gen_move p l i m from until force skip) so
    (λ r so', ∃ segs, searched pos segs so so' ∧ goes_on sk pos i m r segs) (breaks pos so).
Proof.
  intros Hact. destruct times_ok as (Hpre & Hpost & _). destruct (entry_at i m Hi) as [_ _ Hend].
  unfold gen_move. eapply ends_step; [reflexivity|]. cbv zeta. rewrite Hact. eapply ends_then.
  { instantiate (1 := λ r so', ∃ segs, searched pos segs so so' ∧ ((reached pos.1 pos.2 segs).1 < i)%nat).
    destruct (negb (skip =? 0)%nat && dnz (sk_pre_active sk)) eqn:Hc.
    - apply andb_true_iff in Hc as [Hc _]. apply negb_true_iff, Nat.eqb_neq in Hc.
      apply (lead_up_ends pos i m force skip (sk_pre_active sk) so); try assumption. lia.
    - eapply ends_ret; [reflexivity|]. exists []. split; [by apply searched_none|]. apply (between_lt _ _ _ _ Hpos). }
  cbn beta. intros r1 so1 (segs1 & Hs1 & Hre1). pose proof (proj2 (proj2 Hs1)) as Hr1. destruct (nz r1) eqn:Hz1.
  { eapply ends_ret; [reflexivity|]. exists segs1. split; [exact Hs1|]. cbn. by intros ->. }
  eapply ends_then.
  { eapply ends_mono; [|intros r so2 H2; exact H2|intros f; by apply (searched_breaks _ _ _ _ f Hs1)].
    apply (range_ends (reached pos.1 pos.2 segs1) i m from until so1); try assumption; [by left|apply (upto_mono 20); [exact Hfrom|lia]|lia|lia]. }
  cbn beta. intros r2 so2 (es & Hs2). pose proof (searched_app _ _ _ _ _ _ Hs1 Hs2) as Hs. pose proof (proj2 (proj2 Hs)) as Hr2.
  destruct (nz r2) eqn:Hz2.
  { eapply ends_ret; [reflexivity|]. eexists. split; [exact Hs|]. cbn. by intros ->. }
  fold (move_end m). set (segs := segs1 ++ _) in Hs.
  assert (covers sk i m segs) as Hcov by (intros _; exists es; apply elem_of_app; right; left).
  assert (∀ t, upto 20 t → searched pos segs so (so2 <| so_k := upd_sk (λ sk, sk <| sk_last_move_time := t |>) (so_k so2) |>)) as Hset.
  { intros t Ht. destruct Hs as (HG & HO & _). split; [exact HG|]. split; [exact HO|]. destruct Hr2 as [R1 R2]. split; [exact R1|].
    by apply (lk_move _ _ HL). }
  destruct Hend as [Hfe Be]. pose proof Huntil as [Hfu Bu]. destruct (dle until (move_end m)) eqn:Hd.
  { eapply ends_ret; [reflexivity|]. exists segs. split; [by apply Hset|]. apply dle_dz in Hd; [|assumption..]. by split. }
  apply dle_false in Hd; [|assumption..]. assert (upto 20 (move_end m)) as He20 by (split; [exact Hfe|lia]).
  eapply ends_ret; [reflexivity|]. exists segs. split; [by apply Hset|]. destruct (upto_add 20 _ _ ltac:(lia) He20 Hpost) as [Hf _].
  split; [exact Hf|]. split; [left; unfold segs; rewrite reached_app; cbn; lia|].
  assert (2 ^ (20 + 3000) ≤ 2 ^ (21 + 3000)) by (apply Z.pow_le_mono_r; lia). split; [lia|exact Hcov].
Qed.

Lemma idle_ends :
  check_active sk m = false →
  ends (λ p, gen_move p l i m from until force skip) so
    (λ r so', ∃ segs, searched pos segs so so' ∧ goes_on sk pos i m r segs) (breaks pos so).
Proof.
  intros Hact. destruct times_ok as (Hpre & Hpost & _). destruct (entry_at i m Hi) as [_ _ [Hfe Be]].
  unfold gen_move. eapply ends_step; [reflexivity|]. cbv zeta. rewrite Hact. eapply ends_then.
  { instantiate (1 := λ r so', ∃ segs, searched pos segs so so' ∧
      match r with inl skip => between (reached pos.1 pos.2 segs) (S i) force skip | inr ret => ret ≠ 0 end).
    destruct (dlt (tm_print_time m) force).
    - eapply ends_then.
      { apply (range_ends pos i m from (if dlt until force then until else force) so); try assumption.
        - left. apply (between_lt _ _ _ _ Hpos).
        - apply (upto_mono 20); [exact Hfrom|lia].
        - lia.
        - by apply window_end.
        - by apply window_end. }
      cbn beta. intros r so1 (es & Hs). eapply ends_ret; [reflexivity|]. eexists. split; [exact Hs|]. destruct (nz r) eqn:Hz; [by intros ->|].
      right. cbn. split; [lia|]. split; [lia|]. split; by apply window_end.
    - eapply ends_ret; [reflexivity|]. exists []. split; [by apply searched_none|]. unfold between in *. cbn [reached fst snd]. destruct Hpos as [?|(? & ? & ? & ?)]; [left; lia|right].
      split; [lia|]. split; [lia|]. by split. }
  cbn beta. intros r so1 (segs & Hs & Hb). destruct r as [skip'|ret].
  2: { eapply ends_ret; [reflexivity|]. exists segs. split; [exact Hs|]. cbn. by intros ->. }
  assert (covers sk i m segs) as Hcov by (intros H'; congruence).
  fold (move_end m). destruct (upto_add 20 _ _ ltac:(lia) Huntil Hpre) as ([Hf Bf] & Hge & _).
  destruct (dle (dadd until (sk_pre_active sk)) (move_end m)) eqn:Hd.
  { eapply ends_ret; [reflexivity|]. exists segs. split; [exact Hs|]. apply dle_dz in Hd; [|assumption..]. intros _. split; [lia|exact Hcov]. }
  apply dle_false in Hd; [|assumption..]. eapply ends_ret; [reflexivity|]. exists segs. split; [exact Hs|]. split; [exact Hforce|].
  split; [exact Hb|]. change (20 + 1) with 21 in Bf. split; [lia|exact Hcov].
Qed.

Lemma gen_move_ends :
  ends (λ p, gen_move p l i m from until force skip) so
    (λ r so', ∃ segs, searched pos segs so so' ∧ goes_on sk pos i m r segs) (breaks pos so).
Proof. destruct (check_active sk m) eqn:H'; [by apply active_ends|by apply idle_ends]. Qed.
End one_move.

(** ** The loop over the moves *)

Section all_moves.
Context (sk0 : stepper_kinematics) (Hflags : ∀ k, IK k → sk_active_flags (k_sk k) = sk_active_flags sk0).
Context (Htail : ∃ pre t, l = pre ++ [t] ∧ 2 ^ (53 + 3000) < dz (move_end t)).

(** The windows reach a move that ends after the flush, and no move is left out. *)
Definition complete (i : nat) (segs : list segment) : Prop :=
  ∃ k last, (i ≤ k)%nat ∧ l !! k = Some last ∧ dz until ≤ dz (move_end last) ∧
    ∀ j m, (i ≤ j ≤ k)%nat → l !! j = Some m → covers sk0 j m segs.

Lemma covers_active so i m segs : running l IK so → covers (k_sk (so_k so)) i m segs → covers sk0 i m segs.
Proof. intros Hr Hc Hact. apply Hc. unfold check_active in *. by rewrite (Hflags _ (ru_k _ _ _ Hr)). Qed.
Lemma covers_app sk i m segs segs' : covers sk i m segs ∨ covers sk i m segs' → covers sk i m (segs ++ segs').
Proof. unfold covers. setoid_rewrite elem_of_app. naive_solver. Qed.

Lemma ends_before_tail i m : l !! i = Some m → dz (move_end m) ≤ 2 ^ (21 + 3000) → (S i < length l)%nat.
Proof.
  intros Hi Hle. destruct Htail as (pre & t & -> & Ht). pose proof (lookup_lt_Some _ _ _ Hi) as Hlt. rewrite length_app in Hlt |- *. cbn in Hlt |- *.
  destruct (Nat.eq_dec i (length pre)) as [->|]; [|lia]. rewrite list_lookup_middle in Hi by done. injection Hi as <-.
  assert (2 ^ (21 + 3000) ≤ 2 ^ (53 + 3000)) by (apply Z.pow_le_mono_r; lia). lia.
Qed.

Lemma gen_moves_ends rest : ∀ i pos force skip so,
  rest = drop i l → (i < length l)%nat → between pos i force skip → upto 21 force → running l IK so →
  ends (λ p, gen_moves p l rest i from until force skip) so
    (λ r so', ∃ segs, searched pos segs so so' ∧ (r = 0 → complete i segs)) (breaks pos so).
Proof.
  induction rest as [|m rest IH]; intros i pos force skip so Hrest Hlt Hpos Hforce Hr.
  { apply (f_equal length) in Hrest. rewrite length_drop in Hrest. cbn in Hrest. lia. }
  assert (l !! i = Some m) as Hi. { rewrite <- (Nat.add_0_r i), <- lookup_drop, <- Hrest. done. }
  assert (rest = drop (S i) l) as Hrest'. { rewrite <- Nat.add_1_r, <- drop_drop, <- Hrest. done. }
  cbn [gen_moves]. eapply ends_then; [by apply (gen_move_ends pos i m force skip so)|]. cbn beta.
  intros r so1 (segs & Hs & Hgo). destruct r as [[force' skip']|ret]; cbn [goes_on] in Hgo.
  - destruct Hgo as (Hf' & Hb & Hend & Hcov). pose proof (ends_before_tail i m Hi Hend) as Hlt'. eapply ends_mono.
    { apply (IH (S i) (reached pos.1 pos.2 segs) force' skip' so1); try assumption. apply Hs. }
    2: { intros f. by apply (searched_breaks _ _ _ _ f Hs). }
    cbn beta. intros r so2 (segs2 & Hs2 & Hc). exists (segs ++ segs2). split; [by eapply searched_app|].
    intros Hr0. destruct (Hc Hr0) as (k & last & Hk & Hl1 & Hu & Hall). exists k, last. split; [lia|]. split; [exact Hl1|]. split; [exact Hu|].
    intros j m' Hj Hm'. apply covers_app. destruct (Nat.eq_dec i j) as [<-|]; [left|right; apply Hall; [lia|exact Hm']].
    assert (m' = m) as -> by congruence. by apply (covers_active so).
  - eapply ends_ret; [reflexivity|]. exists segs. split; [exact Hs|]. intros Hr0. destruct (Hgo Hr0) as [Hu Hcov].
    exists i, m. split; [lia|]. split; [exact Hi|]. split; [exact Hu|]. intros j m' Hj Hm'. assert (j = i) as -> by lia.
    assert (m' = m) as -> by congruence. by apply (covers_active so).
Qed.
End all_moves.
End call.
End generated.

(** ** The kinematics *)

(** The mathematics library returns doubles. *)
Class LawfulLibm `{Libm} : Prop := { atan2_valid y x : valid (m_atan2 y x) }.

Definition coord_valid (c : coord) : Prop := valid (c_x c) ∧ valid (c_y c) ∧ valid (c_z c).
Record move_valid (m : move) : Prop := {
  mv_start_v : valid (tm_start_v m);
  mv_half_accel : valid (tm_half_accel m);
  mv_start_pos : coord_valid (tm_start_pos m);
  mv_axes_r : coord_valid (tm_axes_r m);
}.
(** The callbacks that look at one move only, with doubles for parameters. *)
Definition kin_valid (k : kin) : Prop :=
  match k with
  | K_null => False
  | K_cart _ | K_cart_reverse _ | K_corexy _ | K_corexz _ | K_polar_radius | K_polar_angle => True
  | K_delta arm2 tower_x tower_y => valid arm2 ∧ valid tower_x ∧ valid tower_y
  | K_deltesian arm2 arm_x => valid arm2 ∧ valid arm_x
  | K_extruder _ hst _ => dnz hst = false
  | K_rotary c s r h u a => valid c ∧ valid s ∧ valid r ∧ valid h ∧ valid u ∧ valid a
  | K_winch anchor => coord_valid anchor
  end.

Create HintDb valid.
#[local] Hint Resolve dadd_valid dsub_valid dmul_valid ddiv_valid dneg_valid dsqrt_valid finite_valid atan2_valid : valid.

Lemma valid_constants : valid (dint 1) ∧ valid (dint 2) ∧ valid (dec 5 1) ∧ valid M_PI.
Proof. by vm_compute. Qed.

Section kinematics.
Context `{LM : LawfulLibm}.

Lemma distance_valid m t : move_valid m → valid t → valid (move_get_distance m t).
Proof. intros [] Ht. unfold move_get_distance. auto with valid. Qed.
Lemma get_coord_valid m t : move_valid m → valid t → coord_valid (move_get_coord m t).
Proof.
  intros Hm Ht. pose proof (distance_valid m t Hm Ht) as Hd. destruct Hm as [_ _ (? & ? & ?) (? & ? & ?)].
  unfold move_get_coord. split; [|split]; cbn [c_x c_y c_z]; auto with valid.
Qed.
Lemma calc_position_valid s l i m t :
  l !! i = Some m → move_valid m → kin_valid (s_kin s) → valid (sk_commanded_pos (s_sk s)) → valid t →
  ∃ p, calc_position_cb s l i t = Some p ∧ valid p.
Proof.
  intros Hi Hm Hk Hc Ht. destruct (get_coord_valid m t Hm Ht) as (Hx & Hy & Hz). destruct valid_constants as (? & ? & ? & ?).
  unfold calc_position_cb. rewrite Hi. cbn [mbind option_bind]. destruct (s_kin s) as [|a|a|[]|[]|arm2 tx ty|arm2 ax|pa hst inv| | |c sn r h u a|anchor]; [done|..]; cbn [kin_valid] in Hk.
  all: try (eexists; split; [reflexivity|]).
  - destruct a; [exact Hx|exact Hy|exact Hz].
  - apply dneg_valid. destruct a; [exact Hx|exact Hy|exact Hz].
  - unfold corexy_stepper_plus_calc_position. auto with valid.
  - unfold corexy_stepper_minus_calc_position. auto with valid.
  - unfold corexz_stepper_plus_calc_position. auto with valid.
  - unfold corexz_stepper_minus_calc_position. auto with valid.
  - destruct Hk as (? & ? & ?). unfold delta_stepper_calc_position. auto 10 with valid.
  - destruct Hk as (? & ?). unfold deltesian_stepper_calc_position. auto 10 with valid.
  - unfold extruder_calc_position. rewrite Hi. cbn [mbind option_bind]. rewrite Hk. eexists. split; [reflexivity|].
    destruct Hm as [? ? (? & ? & ?) ?]. apply dadd_valid; [done|]. by apply distance_valid.
  - unfold polar_stepper_radius_calc_position. auto 10 with valid.
  - unfold polar_stepper_angle_calc_position. cbv zeta. destruct (dlt _ _); [|destruct (dlt _ _)]; auto with valid.
  - unfold rotary_stepper_calc_position, rotary_two_arm_calc. apply atan2_valid.
  - destruct Hk as (? & ? & ?). unfold winch_stepper_calc_position. auto 12 with valid.
Qed.

(** The states of the stepper [s] between two calls. *)
Record like (s : kin_stepper) (sk : stepper_kinematics) : Prop := {
  li_pos : valid (sk_commanded_pos sk);
  li_dist : valid (sk_step_dist sk);
  li_pre : upto 20 (sk_pre_active sk);
  li_post : upto 20 (sk_post_active sk);
  li_move : upto 20 (sk_last_move_time sk);
  li_flags : sk_active_flags sk = sk_active_flags (s_sk s);
}.
Definition state_of (s : kin_stepper) (k : solver_kin) : Prop := ∃ sk, k = SK_plain (mk_kin_stepper sk (s_kin s)) ∧ like s sk.

Lemma fixup_like s sk : like s sk → like s (polar_stepper_angle_post_fixup sk).
Proof.
  intros []. destruct valid_constants as (? & ? & ? & ?). unfold polar_stepper_angle_post_fixup.
  destruct (dlt _ _); [|destruct (dlt _ _)]; split; cbn; auto with valid.
Qed.

Lemma plain_lawful s l : kin_valid (s_kin s) → Forall move_valid l → lawful_kin l (state_of s).
Proof.
  intros Hk Hl. split.
  - intros i Hi k t (sk & -> & Hs) Ht. destruct (lookup_lt_is_Some_2 l i Hi) as [m Hm].
    destruct (calc_position_valid (mk_kin_stepper sk (s_kin s)) l i m t Hm (Forall_lookup_1 _ _ _ _ Hl Hm) Hk (li_pos _ _ Hs) (finite_valid _ Ht)) as (p & Hp & Hv).
    exists p, (SK_plain (mk_kin_stepper sk (s_kin s))). cbn [k_calc_position]. rewrite Hp. cbn. split; [done|]. split; [exact Hv|by exists sk].
  - intros k (sk & -> & []). by split.
  - intros k (sk & -> & []). split; [assumption|]. by split.
  - intros k c (sk & -> & []) Hc. eexists. split; [reflexivity|]. by split.
  - intros k (sk & -> & Hs). cbn [k_post]. destruct (s_kin s) eqn:E; try (exists sk; rewrite E; by split).
    exists (polar_stepper_angle_post_fixup sk). rewrite E. split; [done|by apply fixup_like].
  - intros k t (sk & -> & []) Ht. eexists. split; [reflexivity|]. by split.
  - intros k k' (sk & -> & []) (sk' & -> & []). cbn. congruence.
  - intros k t (sk & -> & []). eexists. split; [reflexivity|]. by split.
Qed.
End kinematics.

(** The first move of a call: the first one that ends after the last flush. *)
Lemma skip_until_ok l : ∀ i t, (∃ m, m ∈ l ∧ dle (move_end m) t = false) →
  ∃ j m, skip_until l i t = Some (i + j)%nat ∧ l !! j = Some m ∧ dle (move_end m) t = false ∧
    ∀ j' m', (j' < j)%nat → l !! j' = Some m' → dle (move_end m') t = true.
Proof.
  induction l as [|a l IH]; intros i t (m & Hm & Hd); [by apply not_elem_of_nil in Hm|]. cbn [skip_until].
  destruct (dle (move_end a) t) eqn:Ha.
  - destruct (IH (S i) t) as (j & m' & H1 & H2 & H3 & H4).
    { exists m. split; [|exact Hd]. apply elem_of_cons in Hm as [->|Hm]; [congruence|exact Hm]. }
    exists (S j), m'. split; [rewrite H1; f_equal; lia|]. split; [exact H2|]. split; [exact H3|].
    intros [|j'] m1 Hj H; [by injection H as <-|]. by apply (H4 j'); [lia|].
  - exists 0%nat, a. split; [f_equal; lia|]. split; [done|]. split; [exact Ha|]. intros j' m' Hj. lia.
Qed.

Section call.
Context `{LM : Libm} {OS : HostOS}.
Notation solver := (solver stepcompress).

(** C6: One call of itersolve_generate_steps on a well-formed queue of moves, for a stepper
    whose callback answers, with the step queue of stepcompress.c: the search always ends and
    never leaves the list. The call returns, or it ends exactly as the first call of
    stepcompress_append or stepcompress_commit that does not return (for example the overrun of
    the array in queue_append_far). Either way the windows of moves searched lie between the
    last flush and this one, in the order of the list and without overlap, and the calls the
    step queue got are exactly the steps of these windows, in increasing time, and commits.
    When the call returns 0, every move with motion on an axis of the stepper, from the first
    one that ends after the last flush up to one that ends after this flush, has been searched
    for the whole flushed time. *)
Theorem itersolve_generate_steps_complete IK so tq tq' flush_time (last := sk_last_flush_time (k_sk (so_k so))) :
  so_tq so = Some tq → trapq_ok tq → trapq_check_sentinels tq = Ret tt tq' →
  lawful_kin (tq_moves tq') IK → IK (so_k so) → upto 20 last → upto 20 flush_time →
  ∃ n segs out, generated (tq_moves tq') IK last flush_time segs (so_q so) out ∧ ordered_from 0 last segs ∧
    match out with
    | inl q' => ∃ r so' first,
        (∀ patience, (n ≤ patience)%nat → itersolve_generate_steps patience flush_time so = Ret r so') ∧
        so_q so' = q' ∧ IK (so_k so') ∧
        (∀ j m, (j < first)%nat → tq_moves tq' !! j = Some m → dle (move_end m) last = true) ∧
        (r = 0 → complete (tq_moves tq') last flush_time (k_sk (so_k so)) first segs)
    | inr f => ∀ patience, (n ≤ patience)%nat → failed (itersolve_generate_steps patience flush_time so) = Some f
    end.
Proof.
  intros Htq Hok Hcheck HL Hk Hlast Hflush. destruct (trapq_check_sentinels_ok tq Hok) as (ms & t & t' & Hc & _ & Hms & _ & Ht').
  rewrite Hc in Hcheck. injection Hcheck as <-. cbn [tq_moves upd eta_expand eta_trapq] in HL |- *. set (l := zero_move :: ms ++ [t']) in *.
  destruct (tail_entry_ok t' Ht') as [Hte Htv].
  assert (Forall entry_ok l) as Hl.
  { constructor; [apply move_entry_ok, zero_move_ok|]. apply Forall_app_2; [|by constructor]. eapply Forall_impl; [exact Hms|apply move_entry_ok]. }
  pose proof Hlast as [Hfl Bl]. destruct (skip_until_ok l 0 last) as (i & m & Hskip & Hi & Hmd & Hfirst).
  { exists t'. split; [unfold l; right; apply elem_of_app; right; left|]. destruct (dle (move_end t') last) eqn:Hd; [|done].
    apply dle_dz in Hd; [|apply Hte|exact Hfl]. assert (2 ^ (20 + 3000) ≤ 2 ^ (53 + 3000)) by (apply Z.pow_le_mono_r; lia). lia. }
  set (so1 := so <| so_k := upd_sk (λ sk, sk <| sk_last_flush_time := flush_time |>) (so_k so) |>).
  set (so2 := so1 <| so_tq := Some (tq <| tq_moves := l |>) |>).
  assert (running l IK so2) as Hr. { split; [by eexists|by apply (lk_flush _ _ HL)]. }
  assert (0 < i)%nat as Hi0.
  { destruct i; [|lia]. injection Hi as <-. assert (dz (move_end zero_move) = 0) as Hz by (by vm_compute).
    apply dle_false in Hmd; [lia|apply zero_move_ok|exact Hfl]. }
  destruct (lk_times _ _ HL _ (ru_k _ _ _ Hr)) as (_ & Hpost & Hmove).
  destruct (upto_add 20 _ _ ltac:(lia) Hmove Hpost) as [Hforce _]. set (force := dadd _ _) in Hforce.
  assert (∀ patience, itersolve_generate_steps patience flush_time so = gen_moves patience l (drop i l) i last flush_time force 0 so2) as Hrun.
  { intros patience. unfold itersolve_generate_steps. rewrite (bind_ret_eq get _ so so so eq_refl).
    rewrite (bind_ret_eq (set_sk _) _ so tt so1 eq_refl), Htq. rewrite (bind_ret_eq check_sentinels _ so1 tt so2).
    2: { unfold check_sentinels. assert (so_tq so1 = Some tq) as -> by exact Htq. by rewrite Hc. }
    rewrite (bind_ret_eq get_moves _ so2 l so2 (get_moves_eq _ _ _ Hr)). fold last. rewrite Hskip. cbn [Nat.add].
    by rewrite (bind_ret_eq (deref (Some i)) _ so2 i so2 eq_refl), (bind_ret_eq get _ so2 so2 so2 eq_refl). }
  destruct (gen_moves_ends l IK HL Hl last flush_time Hlast Hflush (k_sk (so_k so)) (λ k Hk', lk_flags _ _ HL _ _ Hk' Hk)
    (ex_intro _ (zero_move :: ms) (ex_intro _ t' (conj eq_refl Htv))) (drop i l) i (0%nat, last) force 0%nat so2)
    as (n & [(r & so' & Hend & segs & (HG & HO & HR) & Hcomp)|(f & Hend & segs & HG & HO)]);
    [done|by eapply lookup_lt_Some|left; cbn; lia|exact Hforce|exact Hr| |].
  - exists n, segs, (inl (so_q so')). split; [exact HG|]. split; [exact HO|]. exists r, so', i.
    split; [intros patience Hp; rewrite Hrun; by apply Hend|]. split; [done|]. split; [apply HR|]. by split.
  - exists n, segs, (inr f). split; [exact HG|]. split; [exact HO|]. intros patience Hp. rewrite Hrun. by apply Hend.
Qed.

(** C8: The secant and bisection search of itersolve_gen_steps_range on IEEE doubles ends for
    every kinematics that looks at one move (all but pressure advance with smoothing and input
    shaping), whatever positions it computes: it returns, or it ends exactly as the first call
    of stepcompress_append or stepcompress_commit that does not return. Every step it submits
    is later than the one before, lies in the searched part of the move, has a position that
    the callback computed for its time, and is either within 1e-9 of its target (or not
    comparable to it) or in a bracket of at most 1 ns. *)
Theorem itersolve_gen_steps_range_returns `{LLM : !LawfulLibm} s so tq i m abs_start abs_end :
  so_k so = SK_plain s → kin_valid (s_kin s) → like s (s_sk s) →
  so_tq so = Some tq → Forall move_valid (tq_moves tq) → tq_moves tq !! i = Some m → entry_ok m →
  upto 54 abs_start → upto 20 abs_end →
  ∃ n es out, received (tm_print_time m) es (so_q so) out ∧
    in_order (answered (tq_moves tq) (state_of s) i) (range_end m abs_end) (range_start m abs_start) es ∧
    match out with
    | inl q' => ∃ r so',
        (∀ patience, (n ≤ patience)%nat → itersolve_gen_steps_range patience i abs_start abs_end so = Ret r so') ∧
        so_q so' = q' ∧ state_of s (so_k so')
    | inr f => ∀ patience, (n ≤ patience)%nat → failed (itersolve_gen_steps_range patience i abs_start abs_end so) = Some f
    end.
Proof.
  intros Hk Hkin Hlike Htq Hl Hi Hm Ha Hb. destruct (range_end_finite m abs_end Hm Hb) as [He Hmax].
  assert (running (tq_moves tq) (state_of s) so) as Hr.
  { split; [by exists tq|]. exists (s_sk s). split; [|exact Hlike]. rewrite Hk. by destruct s. }
  destruct (wp_gen_steps_range _ _ i m abs_start abs_end so (plain_lawful s _ Hkin Hl) Hr Hi (range_start_finite m _ Hm Ha) He Hmax)
    as (n & es & Hord & [(r & so' & Hrun & Hrec & [_ Hk'] & _)|(f & Hrun & Hrec)]).
  - exists n, es, (inl (so_q so')). split; [exact Hrec|]. split; [exact Hord|]. by exists r, so'.
  - exists n, es, (inr f). by split.
Qed.
End call.
