(* ===== verification/PollreactorSpec.v ===== *)
(** * The event loop of pollreactor.c forgets no timer

    [next_timer] is never later than any timer, whatever the callbacks set, so a timer that is
    due is run by the next check. *)

From S2P Require Import Prelude Double Msgblock StepCompress BisectSpec Pollreactor.

Lemma dle_key x y :
  dle x y = true ↔ ∃ a b, dkey x = Some a ∧ dkey y = Some b ∧ ¬ key_lt b a.
Proof.
  unfold dle, SpecFloat.SFleb, SpecFloat.SFcompare.
  destruct x as [s|s| |[] m e], y as [s'|s'| |[] m' e']; cbn [dkey]; rewrite ?pos_compare_cont_eq.
  all: try match goal with |- context [?a ?= ?b] => destruct (Z.compare_spec a b); subst end.
  all: try match goal with |- context [(?a ?= ?b)%positive] => destruct (Pos.compare_spec a b); subst end.
  all: try destruct s; try destruct s'; cbn [CompOpp].
  all: split; intros HH; try done.
  all: try (eexists _, _; split; [done|]; split; [done|]; unfold key_lt; lia).
  all: destruct HH as (? & ? & ? & ? & ?); simplify_eq; unfold key_lt in *; lia.
Qed.

(** [next] is not NaN and not later than the first [n] timers. *)
Definition next_bounds (n : nat) (r : pollreactor) : Prop :=
  is_Some (dkey (pr_next_timer r)) ∧
  ∀ k t, (k < n)%nat → pr_timers r !! k = Some t → dlt t (pr_next_timer r) = false.

(** What callbacks may do to the reactor. *)
Record pr_moves (r r' : pollreactor) : Prop := {
  pm_length : length (pr_timers r') = length (pr_timers r);
  pm_next n : next_bounds n r → next_bounds n r' }.
#[export] Instance pr_moves_preorder : PreOrder pr_moves.
Proof.
  split; [by split|]. intros r1 r2 r3 [L1 N1] [L2 N2]. split; [congruence|auto].
Qed.

Lemma dlt_not_nan x y : dlt x y = true → is_Some (dkey x).
Proof. intros (a & b & -> & _)%dlt_key. eauto. Qed.

(** [next_timer] and one timer change. *)
Lemma next_bounds_min n r t :
  next_bounds n r →
  next_bounds n (if dlt t (pr_next_timer r) then r <| pr_next_timer := t |> else r).
Proof.
  intros [Hn Hb]. destruct (dlt t (pr_next_timer r)) eqn:Hlt; [|done]. split; [by eapply dlt_not_nan|].
  cbn. intros k t' Hk Ht. destruct (dlt t' t) eqn:H; [|done]. specialize (Hb k t' Hk Ht).
  pose proof (dlt_trans _ _ _ H Hlt) as E. cbn in E. congruence.
Qed.
Lemma min_not_later r t :
  dlt t (pr_next_timer (if dlt t (pr_next_timer r) then r <| pr_next_timer := t |> else r)) = false.
Proof. destruct (dlt t (pr_next_timer r)) eqn:Hlt; cbn; [apply dlt_irrefl|done]. Qed.

Lemma update_timer_moves r pos t : pr_moves r (pollreactor_update_timer r pos t).
Proof.
  split; [unfold pollreactor_update_timer; cbn; by rewrite length_insert|]. intros n Hb.
  pose proof (next_bounds_min n r t Hb) as [Hn Hb']. pose proof (min_not_later r t) as Hm.
  assert (pr_next_timer (pollreactor_update_timer r pos t) =
          pr_next_timer (if dlt t (pr_next_timer r) then r <| pr_next_timer := t |> else r)) as E
    by (unfold pollreactor_update_timer; cbn; by destruct (dlt t (pr_next_timer r))).
  split; rewrite E; [done|]. intros k t' Hk Ht. unfold pollreactor_update_timer in Ht. cbn in Ht.
  apply list_lookup_insert_Some in Ht as [(_ & <- & _) | [_ Ht]]; [done|].
  apply (Hb' k); [done|]. by destruct (dlt t (pr_next_timer r)).
Qed.

Lemma exit_moves r : pr_moves r (pollreactor_do_exit r).
Proof. by split. Qed.

Section reactor.
Context `{OS : HostOS} {S : Type} (pr : S → pollreactor) `{!Setter pr}.
(** The record update of the field [pr]. *)
Context (pr_upd : ∀ f s, pr (upd pr f s) = f (pr s)).
(** [I i] holds before the callback number [i]. *)
Context (I : nat → S → Prop) (I_mono : ∀ i s, I i s → I (Datatypes.S i) s)
  (I_pr : ∀ i f s, length (pr_timers (f (pr s))) = length (pr_timers (pr s)) → I i s → I i (upd pr f s)).

(** Callbacks that return, keep [I] and only set timers. *)
Fixpoint good_callbacks (i : nat) (callbacks : list (double → M S double)) : Prop :=
  match callbacks with
  | [] => True
  | c :: callbacks =>
      (∀ eventtime s, I i s →
         wp (c eventtime) s (λ _ s', I (Datatypes.S i) s' ∧ pr_moves (pr s) (pr s')) no_shut) ∧
      good_callbacks (Datatypes.S i) callbacks
  end.

Lemma wp_run_timers callbacks i eventtime busy s :
  good_callbacks i callbacks → I i s → length (pr_timers (pr s)) = (i + length callbacks)%nat →
  next_bounds i (pr s) →
  wp (run_timers pr callbacks i eventtime busy) s
    (λ _ s', I (i + length callbacks) s' ∧ length (pr_timers (pr s')) = (i + length callbacks)%nat ∧
       next_bounds (i + length callbacks) (pr s')) no_shut.
Proof.
  revert i busy s. induction callbacks as [|c callbacks IH]; intros i busy s Hc HI Hl Hb; cbn [run_timers].
  { hstep. cbn in *. rewrite Nat.add_0_r in *. done. }
  destruct Hc as [Hc Hcs]. cbn [length] in *. rewrite <- Nat.add_succ_comm in *.
  destruct (lookup_lt_is_Some_2 (pr_timers (pr s)) i) as [t Ht]; [lia|].
  do 3 hstep. rewrite Ht. do 2 hstep.
  assert (∀ t' busy' s', I (Datatypes.S i) s' → length (pr_timers (pr s')) = (Datatypes.S i + length callbacks)%nat →
    next_bounds i (pr s') → pr_timers (pr s') !! i = Some t' →
    wp (modify (upd pr (λ r, if dlt t' (pr_next_timer r) then r <| pr_next_timer := t' |> else r));;;
        run_timers pr callbacks (Datatypes.S i) eventtime busy') s'
      (λ _ s', I (Datatypes.S i + length callbacks) s' ∧
         length (pr_timers (pr s')) = (Datatypes.S i + length callbacks)%nat ∧
         next_bounds (Datatypes.S i + length callbacks) (pr s')) no_shut) as Hrest.
  { intros t' busy' s' HI' Hl' Hb' Ht'. do 2 hstep.
    assert (pr_timers (if dlt t' (pr_next_timer (pr s')) then (pr s') <| pr_next_timer := t' |> else pr s') = pr_timers (pr s'))
      as Htm by (by destruct (dlt _ _)).
    apply IH; rewrite ?pr_upd.
    - done.
    - apply I_pr; [by rewrite Htm|done].
    - by rewrite Htm.
    - pose proof (next_bounds_min i (pr s') t' Hb') as [Hn Hb2]. split; [done|]. intros k x Hk Hx.
      destruct (decide (k = i)) as [->|]; [|apply (Hb2 k); [lia|done]].
      rewrite Htm, Ht' in Hx. injection Hx as <-. apply min_not_later. }
  destruct (dle t eventtime).
  - hstep. eapply wp_conseq; [by apply Hc|]. intros t' s1 [HI1 [Hl1 Hn1]]. do 3 hstep.
    apply Hrest; rewrite ?pr_upd.
    + apply I_pr; [cbn; by rewrite length_insert|done].
    + cbn. rewrite length_insert. lia.
    + destruct (Hn1 _ Hb) as [Hn2 Hb2]. split; [done|]. intros k x Hk Hx. cbn in Hx.
      rewrite list_lookup_insert_ne in Hx by lia. by apply (Hb2 k).
    + cbn. apply list_lookup_insert_eq. lia.
  - hstep. apply Hrest; try done. by apply I_mono.
Qed.

(** The loop reports [busy] when a timer is due. *)
Lemma run_timers_busy callbacks i eventtime busy s b s' :
  run_timers pr callbacks i eventtime busy s = Ret b s' →
  (busy = true ∨ ∃ k t, (i ≤ k < i + length callbacks)%nat ∧ pr_timers (pr s) !! k = Some t ∧ dle t eventtime = true) →
  b = true.
Proof.
  revert i busy s. induction callbacks as [|c callbacks IH]; intros i busy s Hrun Hdue; cbn [run_timers] in Hrun.
  { injection Hrun as <- <-. destruct Hdue as [->|(k & t & Hk & _)]; [done|cbn in Hk; lia]. }
  unfold mbind, M_bind, gets, deref, modify in Hrun.
  destruct (pr_timers (pr s) !! i) as [t|] eqn:Ht; cbn in Hrun; [|done].
  destruct (dle t eventtime) eqn:Hd.
  - destruct (c eventtime s) eqn:Hc; cbn in Hrun; try done. by eapply IH; [exact Hrun|left].
  - cbn in Hrun. eapply IH; [exact Hrun|]. destruct Hdue as [Hb|(k & t' & Hk & Ht' & Hd')]; [by left|right].
    destruct (decide (k = i)) as [->|]; [congruence|]. exists k, t'. rewrite pr_upd. cbn in Hk.
    split_and!; [lia|lia| |done]. by destruct (dlt _ _).
Qed.

(** A timer that is due makes the check run the timers. *)
Lemma due_timer_checked n r k t eventtime :
  next_bounds n r → (k < n)%nat → pr_timers r !! k = Some t → dle t eventtime = true →
  dle (pr_next_timer r) eventtime = true.
Proof.
  intros [[c Hc] Hb] Hk Ht. rewrite !dle_key. intros (a & b & Ha & Hbk & Hle).
  exists c, b. split; [done|]. split; [done|]. specialize (Hb k t Hk Ht).
  assert (¬ key_lt a c) as Hac.
  { intros Hlt. assert (dlt t (pr_next_timer r) = true) as E by (apply dlt_key; eauto). congruence. }
  destruct_keys. unfold key_lt in *. lia.
Qed.

Lemma wp_check_timers callbacks eventtime busy s :
  good_callbacks 0 callbacks → I 0 s → length (pr_timers (pr s)) = length callbacks →
  next_bounds (length callbacks) (pr s) →
  wp (pollreactor_check_timers pr callbacks eventtime busy) s
    (λ _ s', I (length callbacks) s' ∧ length (pr_timers (pr s')) = length callbacks ∧
       next_bounds (length callbacks) (pr s')) no_shut.
Proof.
  intros Hc HI Hl Hb. unfold pollreactor_check_timers. do 3 hstep.
  assert (∀ n, I 0 s → I n s) as Hmono by (intros n H0; induction n; auto).
  eapply (wp_conseq _ _ (λ _ s', I (length callbacks) s' ∧ length (pr_timers (pr s')) = length callbacks ∧
    next_bounds (length callbacks) (pr s'))).
  - destruct (dle _ _); [|hstep; split_and!; by auto]. do 2 hstep. apply wp_run_timers; rewrite ?pr_upd; try done.
    + by apply I_pr.
    + split; [by vm_compute; eauto|]. intros k x Hk. lia.
  - intros b s' H. destruct b; [by hstep|]. do 2 hstep. repeat (destruct (dlt _ _); [by hstep|]). by hstep.
Qed.
End reactor.
