(* ===== verification/SerialqueueSpec.v ===== *)
(** * The command queues of serialqueue.c

    The messages that wait on the command queues, their byte counts, and how
    [build_and_send_command] merges the queues into blocks. *)

From S2P Require Import Prelude State Vlq Crc Command CommandSpec Double Msgblock MsgblockSpec StepCompress.
From S2P Require Import BisectSpec Pollreactor Serialqueue.

Lemma wp_int32 {S} x (s : S) (Q : Z → S → Prop) E :
  -2147483648 ≤ x < 2147483648 → Q x s → wp (int32 x) s Q E.
Proof.
  intros Hx HQ. unfold int32, in_int32.
  by rewrite (proj2 (Z.leb_le _ _)), (proj2 (Z.ltb_lt _ _)) by lia.
Qed.

(** ** Lengths *)

Definition msgs_len (l : list message) : Z := foldr Z.add 0 (m_len <$> l).
#[global] Arguments msgs_len : simpl never.

Lemma msgs_len_app l k : msgs_len (l ++ k) = msgs_len l + msgs_len k.
Proof. induction l as [|m l IH]; [done|]. unfold msgs_len in *. cbn. rewrite IH. lia. Qed.
#[export] Instance msgs_len_perm : Proper ((≡ₚ) ==> eq) msgs_len.
Proof. intros l k H. unfold msgs_len. induction H; cbn in *; lia. Qed.

(** A message that may wait on a command queue. *)
Record msg_ok (m : message) : Prop := {
  mo_len : 0 ≤ m_len m ≤ MESSAGE_PAYLOAD_MAX;
  mo_msg : length (qm_msg (m_qm m)) = 64%nat;
  mo_clocks : ∃ min_clock req_clock, m_union m = Clocks min_clock req_clock ∧ req_clock < MAX_CLOCK }.

Lemma m_bytes_length m : msg_ok m → Z.of_nat (length (m_bytes m)) = m_len m.
Proof. intros [H H64 _]. unfold MESSAGE_PAYLOAD_MAX, MESSAGE_MAX, MESSAGE_MIN in H. unfold m_bytes. rewrite length_take. lia. Qed.

Lemma msgs_len_nonneg l : Forall msg_ok l → 0 ≤ msgs_len l.
Proof.
  induction 1 as [|m l Hm _ IH]; [done|]. unfold msgs_len in *. cbn. destruct Hm as [H _ _]. lia.
Qed.

(** The order of service: [req_clock]. *)
Definition req_of (m : message) : Z := default 0 (m_req_clock m).

(** ** Queues *)

(** The messages of the queues listed in [pending]. *)
Definition collect (f : command_queue → list message) (cqs : gmap Z command_queue) (pending : list Z) : list message :=
  flat_map (λ q, f (default (mk_cq [] []) (cqs !! q))) pending.

Record queues_ok (cqs : gmap Z command_queue) (pending : list Z) (ready_bytes upcoming_bytes : Z) : Prop := {
  qo_nodup : NoDup pending;
  qo_known q : q ∈ pending → is_Some (cqs !! q);
  qo_live q cq : cqs !! q = Some cq → (q ∈ pending ↔ cq_is_empty cq = false);
  qo_msgs q cq : cqs !! q = Some cq → Forall msg_ok (cq_ready cq ++ cq_upcoming cq);
  qo_ready : ready_bytes = msgs_len (collect cq_ready cqs pending);
  qo_upcoming : upcoming_bytes = msgs_len (collect cq_upcoming cqs pending);
  qo_int : ready_bytes + upcoming_bytes < 2147483648 }.

Lemma collect_insert_other f cqs pending q cq :
  q ∉ pending → collect f (<[q := cq]> cqs) pending = collect f cqs pending.
Proof.
  induction pending as [|q' pending IH]; intros Hq; [done|]. apply not_elem_of_cons in Hq as [Hne Hq].
  unfold collect in *. cbn. by rewrite lookup_insert_ne, IH by done.
Qed.
Lemma collect_perm f cqs l k : l ≡ₚ k → collect f cqs l ≡ₚ collect f cqs k.
Proof. intros H. unfold collect. by rewrite H. Qed.

(** What one queue adds to the total. *)
Lemma collect_split f cqs pending q cq :
  NoDup pending → q ∈ pending → cqs !! q = Some cq →
  ∃ rest, pending ≡ₚ q :: rest ∧ q ∉ rest ∧
    collect f cqs pending ≡ₚ f cq ++ collect f cqs rest.
Proof.
  intros Hnd Hq Hcq. apply elem_of_Permutation in Hq as [rest Hp]. exists rest. split; [done|].
  rewrite Hp in Hnd. apply NoDup_cons in Hnd as [Hr _]. split; [done|].
  rewrite (collect_perm f cqs _ _ Hp). unfold collect. cbn. by rewrite Hcq.
Qed.

Lemma collect_insert f cqs pending q cq cq' :
  NoDup pending → q ∈ pending → cqs !! q = Some cq →
  msgs_len (collect f (<[q := cq']> cqs) pending) =
    msgs_len (collect f cqs pending) - msgs_len (f cq) + msgs_len (f cq').
Proof.
  intros Hnd Hq Hcq. destruct (collect_split f cqs pending q cq Hnd Hq Hcq) as (rest & Hp & Hr & ->).
  destruct (collect_split f (<[q := cq']> cqs) pending q cq' Hnd Hq) as (rest' & Hp' & Hr' & ->).
  { by rewrite lookup_insert_eq. }
  rewrite collect_insert_other by done. rewrite Hp in Hp'. apply Permutation_cons_inv in Hp'.
  rewrite (collect_perm f cqs rest rest' Hp'), !msgs_len_app. lia.
Qed.

Lemma filter_ne_notin (q : Z) (l : list Z) : q ∉ l → filter (λ i, i ≠ q) l = l.
Proof.
  induction l as [|i l IH]; intros Hq; [done|]. apply not_elem_of_cons in Hq as [Hne Hq].
  rewrite filter_cons, decide_True by done. by rewrite IH.
Qed.
Lemma collect_filter f cqs pending q :
  f (default (mk_cq [] []) (cqs !! q)) = [] →
  msgs_len (collect f cqs (filter (λ i, i ≠ q) pending)) = msgs_len (collect f cqs pending).
Proof.
  intros He. unfold collect. induction pending as [|q' pending IH]; [done|].
  rewrite filter_cons. destruct (decide (q' ≠ q)) as [|Hn].
  - cbn [flat_map]. rewrite !msgs_len_app. lia.
  - assert (q' = q) as -> by (by destruct (decide (q' = q))). cbn [flat_map]. rewrite He. done.
Qed.

Lemma collect_ok f cqs pending rb ub :
  (∀ cq m, m ∈ f cq → m ∈ cq_ready cq ++ cq_upcoming cq) →
  queues_ok cqs pending rb ub → Forall msg_ok (collect f cqs pending).
Proof.
  intros Hf [_ Hk _ Hm _ _ _]. apply Forall_forall. intros m (q & Hq & Hin)%list_elem_of_In%in_flat_map.
  apply list_elem_of_In in Hq, Hin. destruct (Hk q Hq) as [cq Hcq]. rewrite Hcq in Hin. cbn in Hin.
  specialize (Hm q cq Hcq). rewrite Forall_forall in Hm. by apply Hm, Hf.
Qed.
Lemma ready_nonneg cqs pending rb ub : queues_ok cqs pending rb ub → 0 ≤ rb ∧ 0 ≤ ub.
Proof.
  intros H. pose proof (qo_ready _ _ _ _ H) as ->. pose proof (qo_upcoming _ _ _ _ H) as ->.
  split; apply msgs_len_nonneg; eapply collect_ok; try exact H; set_solver.
Qed.

(** A queue changes; it leaves the list when it becomes empty. *)
Lemma queues_ok_update cqs pending rb ub q cq cq' rb' ub' :
  queues_ok cqs pending rb ub → q ∈ pending → cqs !! q = Some cq →
  Forall msg_ok (cq_ready cq' ++ cq_upcoming cq') →
  rb' = rb - msgs_len (cq_ready cq) + msgs_len (cq_ready cq') →
  ub' = ub - msgs_len (cq_upcoming cq) + msgs_len (cq_upcoming cq') →
  rb' + ub' < 2147483648 →
  queues_ok (<[q := cq']> cqs)
    (if cq_is_empty cq' then filter (λ i, i ≠ q) pending else pending) rb' ub'.
Proof.
  intros [Hnd Hk Hl Hm Hr Hu Hi] Hq Hcq Hok Hrb Hub Hint.
  set (pending' := if cq_is_empty cq' then _ else _).
  assert (∀ i, i ∈ pending' ↔ i ∈ pending ∧ (i = q → cq_is_empty cq' = false)) as Hin.
  { intros i. unfold pending'. destruct (cq_is_empty cq').
    - rewrite list_elem_of_filter. naive_solver.
    - naive_solver. }
  assert (∀ f, (cq_is_empty cq' = true → f cq' = []) →
    msgs_len (collect f (<[q := cq']> cqs) pending') =
      msgs_len (collect f cqs pending) - msgs_len (f cq) + msgs_len (f cq')) as Hc.
  { intros f Hf. rewrite <- (collect_insert f cqs pending q cq cq') by done. unfold pending'.
    destruct (cq_is_empty cq') eqn:He; [|done]. apply collect_filter.
    rewrite lookup_insert_eq. by apply Hf. }
  constructor.
  - unfold pending'. destruct (cq_is_empty cq'); [by apply NoDup_filter|done].
  - intros i [Hi' _]%Hin. destruct (decide (i = q)) as [->|].
    + rewrite lookup_insert_eq. eauto.
    + rewrite lookup_insert_ne by done. by apply Hk.
  - intros i ci. rewrite Hin. destruct (decide (i = q)) as [->|].
    + rewrite lookup_insert_eq. intros [= <-]. naive_solver.
    + rewrite lookup_insert_ne by done. intros Hci. rewrite <- (Hl i ci Hci). naive_solver.
  - intros i ci. destruct (decide (i = q)) as [->|].
    + rewrite lookup_insert_eq. by intros [= <-].
    + rewrite lookup_insert_ne by done. apply Hm.
  - rewrite Hc, Hrb, Hr; [done|]. by destruct cq' as [[] []].
  - rewrite Hc, Hub, Hu; [done|]. by destruct cq' as [[] []].
  - done.
Qed.

(** ** Moving messages that have become ready *)

Section spec.
Context `{OS : HostOS}.

(** The parts of the state that [check_send_command] changes. *)
Definition requeued (sq sq' : serialqueue) : Prop :=
  ∃ cqs rb ub, sq' = sq <| sq_cqs := cqs |> <| sq_ready_bytes := rb |> <| sq_upcoming_bytes := ub |> ∧
    ∀ q, (λ cq, cq_ready cq ++ cq_upcoming cq) <$> (cqs !! q) =
         (λ cq, cq_ready cq ++ cq_upcoming cq) <$> (sq_cqs sq !! q).

Definition sq_queues_ok (sq : serialqueue) : Prop :=
  queues_ok (sq_cqs sq) (sq_pending_queues sq) (sq_ready_bytes sq) (sq_upcoming_bytes sq).

Lemma requeued_refl sq : requeued sq sq.
Proof. exists (sq_cqs sq), (sq_ready_bytes sq), (sq_upcoming_bytes sq). split; [by destruct sq|done]. Qed.
Lemma requeued_trans sq1 sq2 sq3 : requeued sq1 sq2 → requeued sq2 sq3 → requeued sq1 sq3.
Proof.
  intros (c & r & u & -> & H) (c' & r' & u' & -> & H'). exists c', r', u'. split; [by destruct sq1|].
  intros q. rewrite H'. apply H.
Qed.

Lemma wp_move_ready q upcoming ready ack_clock min_stalled sq :
  sq_queues_ok sq → q ∈ sq_pending_queues sq → sq_cqs sq !! q = Some (mk_cq upcoming ready) →
  wp (move_ready q upcoming ack_clock min_stalled) sq
    (λ _ sq', sq_queues_ok sq' ∧ requeued sq sq') no_shut.
Proof.
  revert ready min_stalled sq. induction upcoming as [|qm upcoming IH]; intros ready min_stalled sq Hok Hq Hcq;
    cbn [move_ready]; [hstep; auto using requeued_refl|].
  pose proof (qo_msgs _ _ _ _ Hok q _ Hcq) as Hm. cbn in Hm.
  apply Forall_app in Hm as [Hm1 [Hqm Hm2]%Forall_cons].
  pose proof Hqm as [Hlen _ (mc & rc & Hu & _)]. hstep.
  eapply wp_deref_eq; [by unfold m_min_clock; rewrite Hu|].
  destruct (_ <? _); [hstep; auto using requeued_refl|].
  do 2 hstep.
  unfold MESSAGE_PAYLOAD_MAX, MESSAGE_MAX, MESSAGE_MIN in Hlen.
  destruct (ready_nonneg _ _ _ _ Hok) as [Hr0 Hu0]. pose proof (qo_int _ _ _ _ Hok) as Hint.
  assert (m_len qm ≤ sq_upcoming_bytes sq) as Hle.
  { rewrite (qo_upcoming _ _ _ _ Hok).
    destruct (collect_split cq_upcoming _ _ _ _ (qo_nodup _ _ _ _ Hok) Hq Hcq) as (rest & Hp & _ & ->).
    rewrite msgs_len_app. change (cq_upcoming _) with (qm :: upcoming).
    change (msgs_len (qm :: upcoming)) with (m_len qm + msgs_len upcoming).
    pose proof (msgs_len_nonneg _ Hm2).
    assert (0 ≤ msgs_len (collect cq_upcoming (sq_cqs sq) rest)); [|lia].
    apply msgs_len_nonneg, Forall_forall. intros m Hin.
    assert (m ∈ collect cq_upcoming (sq_cqs sq) (sq_pending_queues sq)) as Hin'.
    { rewrite (collect_perm _ _ _ _ Hp). unfold collect. cbn. set_solver. }
    pose proof (collect_ok cq_upcoming _ _ _ _ ltac:(set_solver) Hok) as Hall.
    rewrite Forall_forall in Hall. by apply Hall. }
  hstep. apply wp_int32; [lia|]. hstep. apply wp_int32; [lia|]. do 2 hstep.
  assert (alter (λ cq, mk_cq upcoming (cq_ready cq ++ [qm])) q (sq_cqs sq) =
          <[q := mk_cq upcoming (ready ++ [qm])]> (sq_cqs sq)) as ->.
  { apply map_eq. intros i. destruct (decide (i = q)) as [->|].
    - by rewrite lookup_alter_eq, lookup_insert_eq, Hcq.
    - by rewrite lookup_alter_ne, lookup_insert_ne. }
  set (sq1 := upd sq_ready_bytes _ _).
  assert (sq_queues_ok sq1) as Hok1.
  { pose proof (queues_ok_update _ _ _ _ q _ (mk_cq upcoming (ready ++ [qm]))
      (sq_ready_bytes sq + m_len qm) (sq_upcoming_bytes sq - m_len qm) Hok Hq Hcq) as H.
    replace (cq_is_empty (mk_cq upcoming (ready ++ [qm]))) with false in H by (by destruct ready, upcoming).
    apply H; cbn [cq_ready cq_upcoming].
    - rewrite <- app_assoc. apply Forall_app. split; [done|]. by constructor.
    - rewrite msgs_len_app. unfold msgs_len. cbn. lia.
    - unfold msgs_len. cbn. lia.
    - lia. }
  assert (requeued sq sq1) as Hrq.
  { exists (<[q := mk_cq upcoming (ready ++ [qm])]> (sq_cqs sq)), (sq_ready_bytes sq + m_len qm),
      (sq_upcoming_bytes sq - m_len qm). split; [done|]. intros i. destruct (decide (i = q)) as [->|].
    - rewrite lookup_insert_eq, Hcq. cbn. by rewrite <- app_assoc.
    - by rewrite lookup_insert_ne. }
  eapply wp_conseq; [eapply (IH (ready ++ [qm]))|].
  - done.
  - done.
  - unfold sq1. cbn. by rewrite lookup_insert_eq.
  - intros _ sq2 [H2 Hr2]. split; [done|]. by eapply requeued_trans.
Qed.

Lemma requeued_known sq sq' q : requeued sq sq' → is_Some (sq_cqs sq !! q) → is_Some (sq_cqs sq' !! q).
Proof.
  intros (c & r & u & -> & H) [cq Hq]. specialize (H q). rewrite Hq in H. cbn. destruct (c !! q); [eauto|done].
Qed.

Lemma wp_check_queues queues ack_clock bgtime min_stalled min_ready sq :
  sq_queues_ok sq → queues ⊆ sq_pending_queues sq →
  wp (check_queues queues ack_clock bgtime min_stalled min_ready) sq
    (λ _ sq', sq_queues_ok sq' ∧ requeued sq sq') no_shut.
Proof.
  revert min_stalled min_ready sq.
  induction queues as [|q queues IH]; intros min_stalled min_ready sq Hok Hsub; cbn [check_queues].
  { hstep. auto using requeued_refl. }
  assert (q ∈ sq_pending_queues sq) as Hq by (apply Hsub; left).
  destruct (qo_known _ _ _ _ Hok q Hq) as [cq Hcq]. do 3 hstep. eapply wp_deref_eq; [done|]. hstep.
  destruct cq as [upcoming ready].
  eapply wp_conseq; [by eapply wp_move_ready|]. intros ms sq1 [Hok1 Hr1].
  assert (sq_pending_queues sq1 = sq_pending_queues sq) as Hp by (by destruct Hr1 as (? & ? & ? & -> & _)).
  destruct (requeued_known sq sq1 q Hr1 ltac:(eauto)) as [cq1 Hcq1].
  do 3 hstep. eapply wp_deref_eq; [done|].
  assert (∀ ms mr, wp (check_queues queues ack_clock bgtime ms mr) sq1
    (λ _ sq', sq_queues_ok sq' ∧ requeued sq sq') no_shut) as Hrest.
  { intros ms' mr'. eapply wp_conseq; [apply IH; [done|]|].
    - rewrite Hp. set_solver.
    - intros _ sq2 [H2 Hr2]. split; [done|]. by eapply requeued_trans. }
  pose proof (qo_msgs _ _ _ _ Hok1 q _ Hcq1) as Hm. destruct (cq_ready cq1) as [|m rest]; [apply Hrest|].
  cbn in Hm. apply Forall_cons in Hm as [[_ _ (mc & rc & Hu & _)] _]. hstep.
  eapply wp_deref_eq; [by unfold m_req_clock; rewrite Hu|]. apply Hrest.
Qed.

(** ** Building a block *)

(** The ready messages of each queue. *)
Definition ready_of (sq : serialqueue) (q : Z) : list message :=
  cq_ready (default (mk_cq [] []) (sq_cqs sq !! q)).

(** [m] is the first message of queue [q], and none that waits has a lower [req_clock]. *)
Definition next_message (f : Z → list message) (q : Z) (m : message) : Prop :=
  head (f q) = Some m ∧ ∀ q' m', head (f q') = Some m' → req_of m ≤ req_of m'.

(** [takes] are the messages that a server takes from the queues [f], always one with the
    lowest [req_clock] from the front of its queue, leaving [g]. *)
Inductive drains : (Z → list message) → list message → (Z → list message) → Prop :=
| drains_nil f : drains f [] f
| drains_cons f g h q m rest takes :
    f q = m :: rest → next_message f q m → g q = rest → (∀ q', q' ≠ q → g q' = f q') →
    drains g takes h → drains f (m :: takes) h.

Lemma wp_find_ready pending sq min_clock best :
  sq_queues_ok sq → pending ⊆ sq_pending_queues sq →
  wp (find_ready pending min_clock best) sq
    (λ r sq', sq' = sq ∧
      ((r = best ∧ ∀ q m, q ∈ pending → head (ready_of sq q) = Some m → min_clock ≤ req_of m) ∨
       (∃ q m, r = Some (q, m) ∧ q ∈ pending ∧ head (ready_of sq q) = Some m ∧ req_of m < min_clock ∧
          ∀ q' m', q' ∈ pending → head (ready_of sq q') = Some m' → req_of m ≤ req_of m'))) no_shut.
Proof.
  intros Hok. revert min_clock best. induction pending as [|q pending IH]; intros min_clock best Hsub; cbn [find_ready].
  { hstep. split; [done|]. left. split; [done|]. set_solver. }
  assert (q ∈ sq_pending_queues sq) as Hq by (apply Hsub; left).
  destruct (qo_known _ _ _ _ Hok q Hq) as [cq Hcq]. do 3 hstep. eapply wp_deref_eq; [done|].
  assert (ready_of sq q = cq_ready cq) as Hr by (unfold ready_of; by rewrite Hcq).
  pose proof (qo_msgs _ _ _ _ Hok q cq Hcq) as Hm.
  destruct (cq_ready cq) as [|m rest].
  { eapply wp_conseq; [apply IH; set_solver|]. intros r sq' [-> Hres]. split; [done|].
    destruct Hres as [[-> Hmin] | (q1 & m1 & -> & Hq1 & Hh & Hlt & Hmin)].
    - left. split; [done|]. intros q' m' [-> | Hq']%elem_of_cons; [by rewrite Hr|by apply Hmin].
    - right. exists q1, m1. split_and!; [done|set_solver|done..|].
      intros q' m' [-> | Hq']%elem_of_cons; [by rewrite Hr|by apply Hmin]. }
  cbn in Hm. apply Forall_cons in Hm as [[_ _ (mc & rc & Hu & _)] _].
  assert (m_req_clock m = Some rc) as Hrc by (unfold m_req_clock; by rewrite Hu).
  assert (req_of m = rc) as Hreq by (unfold req_of; by rewrite Hrc).
  hstep. eapply wp_deref_eq; [done|].
  destruct (Z.ltb_spec rc min_clock) as [Hlt|Hge].
  - eapply wp_conseq; [apply IH; set_solver|]. intros r sq' [-> Hres]. split; [done|]. right.
    destruct Hres as [[-> Hmin] | (q1 & m1 & -> & Hq1 & Hh & Hlt1 & Hmin)].
    + exists q, m. rewrite Hr, Hreq. split_and!; [done|set_solver|done..|].
      intros q' m' [-> | Hq']%elem_of_cons Hh'; [rewrite Hr in Hh'; cbn in Hh'; simplify_eq; lia|by eapply Hmin].
    + exists q1, m1. split_and!; [done|set_solver|done|lia|].
      intros q' m' [-> | Hq']%elem_of_cons Hh'; [rewrite Hr in Hh'; cbn in Hh'; simplify_eq; lia|by eapply Hmin].
  - eapply wp_conseq; [apply IH; set_solver|]. intros r sq' [-> Hres]. split; [done|].
    destruct Hres as [[-> Hmin] | (q1 & m1 & -> & Hq1 & Hh & Hlt1 & Hmin)].
    + left. split; [done|].
      intros q' m' [-> | Hq']%elem_of_cons Hh'; [rewrite Hr in Hh'; cbn in Hh'; simplify_eq; lia|by eapply Hmin].
    + right. exists q1, m1. split_and!; [done|set_solver|done..|].
      intros q' m' [-> | Hq']%elem_of_cons Hh'; [rewrite Hr in Hh'; cbn in Hh'; simplify_eq; lia|by eapply Hmin].
Qed.

(** A queue with ready messages is in the list. *)
Lemma ready_pending sq q m : sq_queues_ok sq → head (ready_of sq q) = Some m → q ∈ sq_pending_queues sq.
Proof.
  intros Hok Hh. unfold ready_of in Hh. destruct (sq_cqs sq !! q) as [cq|] eqn:Hcq; [|done]. cbn in Hh.
  apply (qo_live _ _ _ _ Hok q cq Hcq). unfold cq_is_empty. by destruct (cq_ready cq).
Qed.
(** While bytes are ready there is a message to send. *)
Lemma find_ready_some sq :
  sq_queues_ok sq → sq_ready_bytes sq ≠ 0 →
  wp (find_ready (sq_pending_queues sq) MAX_CLOCK None) sq
    (λ r sq', sq' = sq ∧ ∃ q m, r = Some (q, m) ∧ next_message (ready_of sq) q m) no_shut.
Proof.
  intros Hok Hne. eapply wp_conseq; [by apply wp_find_ready|]. intros r sq' [-> Hres]. split; [done|].
  destruct Hres as [[-> Hmin] | (q & m & -> & Hq & Hh & _ & Hmin)].
  - exfalso. apply Hne. rewrite (qo_ready _ _ _ _ Hok).
    replace (collect cq_ready (sq_cqs sq) (sq_pending_queues sq)) with ([] : list message); [done|].
    unfold collect. symmetry. apply list_nil_subseteq. intros m (q & Hq & Hin)%list_elem_of_In%in_flat_map.
    apply list_elem_of_In in Hq, Hin. exfalso.
    destruct (cq_ready _) as [|m1 rest] eqn:Hr in Hin; [by apply elem_of_nil in Hin|].
    assert (head (ready_of sq q) = Some m1) as Hh by (unfold ready_of; by rewrite Hr).
    specialize (Hmin q m1 Hq Hh).
    destruct (qo_known _ _ _ _ Hok q Hq) as [cq Hcq]. rewrite Hcq in Hr. cbn in Hr.
    pose proof (qo_msgs _ _ _ _ Hok q cq Hcq) as Hm. rewrite Hr in Hm. cbn in Hm.
    apply Forall_cons in Hm as [[_ _ (mc & rc & Hu & Hlt)] _].
    unfold req_of, m_req_clock in Hmin. rewrite Hu in Hmin. cbn in Hmin. lia.
  - exists q, m. split; [done|]. split; [done|]. intros q' m' Hh'. apply (Hmin q'); [|done].
    by eapply ready_pending.
Qed.

(** The entries of the notify queue for messages sent in block [seq]. *)
Definition notifications (seq : Z) (takes : list message) : list message :=
  (λ m, m <| m_union := Clocks (default 0 (m_min_clock m)) seq |>) <$> filter (λ m, m_notify_id m ≠ 0) takes.

(** What [build_loop] changes when it takes the messages [takes]. *)
Definition taken (sq : serialqueue) (takes : list message) (sq' : serialqueue) : Prop :=
  drains (ready_of sq) takes (ready_of sq') ∧
  (∀ q, cq_upcoming <$> (sq_cqs sq' !! q) = cq_upcoming <$> (sq_cqs sq !! q)) ∧
  ∃ cqs pending, sq' = sq <| sq_cqs := cqs |> <| sq_pending_queues := pending |>
    <| sq_ready_bytes := sq_ready_bytes sq - msgs_len takes |>
    <| sq_notify_queue := sq_notify_queue sq ++ notifications (sq_send_seq sq) takes |>.

Lemma taken_nil sq : taken sq [] sq.
Proof.
  split; [constructor|]. split; [done|]. exists (sq_cqs sq), (sq_pending_queues sq).
  destruct sq. cbn. rewrite app_nil_r, Z.sub_0_r. done.
Qed.

Lemma queued_messages_take sq q m rest cq pending :
  sq_queues_ok sq → q ∈ sq_pending_queues sq → sq_cqs sq !! q = Some cq → cq_ready cq = m :: rest →
  let cq' := cq <| cq_ready := rest |> in
  pending = (if cq_is_empty cq' then filter (λ i, i ≠ q) (sq_pending_queues sq) else sq_pending_queues sq) →
  (length (collect (λ cq, cq_ready cq ++ cq_upcoming cq) (<[q := cq']> (sq_cqs sq)) pending) <
   length (collect (λ cq, cq_ready cq ++ cq_upcoming cq) (sq_cqs sq) (sq_pending_queues sq)))%nat.
Proof.
  intros Hok Hq Hcq Hr cq' ->. set (f := λ cq, cq_ready cq ++ cq_upcoming cq).
  destruct (collect_split f _ _ _ _ (qo_nodup _ _ _ _ Hok) Hq Hcq) as (rst & Hp & Hn & Hc).
  rewrite (Permutation_length Hc), length_app.
  assert (length (f cq) = S (length (f cq'))) as -> by (unfold f, cq'; rewrite Hr; cbn; lia).
  destruct (cq_is_empty cq') eqn:He.
  - assert (filter (λ i, i ≠ q) (sq_pending_queues sq) ≡ₚ rst) as Hf.
    { rewrite Hp, filter_cons, decide_False by tauto. by rewrite filter_ne_notin. }
    rewrite (Permutation_length (collect_perm f _ _ _ Hf)), collect_insert_other by done. lia.
  - rewrite (Permutation_length (collect_perm f _ _ _ Hp)).
    change (collect f (<[q:=cq']> (sq_cqs sq)) (q :: rst)) with
      (f (default (mk_cq [] []) (<[q:=cq']> (sq_cqs sq) !! q)) ++ collect f (<[q:=cq']> (sq_cqs sq)) rst).
    rewrite lookup_insert_eq, length_app, collect_insert_other by done. cbn [default from_option id]. lia.
Qed.

Lemma wp_take_ready sq q m :
  sq_queues_ok sq → next_message (ready_of sq) q m →
  wp (take_ready q m) sq
    (λ _ sq', sq_queues_ok sq' ∧
       (length (queued_messages sq') < length (queued_messages sq))%nat ∧
       ∀ takes sq2, taken sq' takes sq2 → taken sq (m :: takes) sq2) no_shut.
Proof.
  intros Hok [Hh Hmin]. pose proof (ready_pending sq q m Hok Hh) as Hq.
  destruct (qo_known _ _ _ _ Hok q Hq) as [cq Hcq].
  assert (ready_of sq q = cq_ready cq) as Hrd by (unfold ready_of; by rewrite Hcq). rewrite Hrd in Hh.
  destruct (cq_ready cq) as [|m1 rest] eqn:Hr; [done|]. cbn in Hh. injection Hh as ->.
  pose proof (qo_msgs _ _ _ _ Hok q cq Hcq) as Hm. pose proof Hm as Hm'. rewrite Hr in Hm'.
  cbn in Hm'. apply Forall_cons in Hm' as [Hmok Hmr].
  assert (m_len m ≤ sq_ready_bytes sq) as Hle.
  { rewrite (qo_ready _ _ _ _ Hok).
    destruct (collect_split cq_ready _ _ _ _ (qo_nodup _ _ _ _ Hok) Hq Hcq) as (rst & Hp & _ & ->).
    rewrite Hr, msgs_len_app. change (msgs_len (m :: rest)) with (m_len m + msgs_len rest).
    apply Forall_app in Hmr as [Hmr _]. pose proof (msgs_len_nonneg _ Hmr).
    assert (0 ≤ msgs_len (collect cq_ready (sq_cqs sq) rst)); [|lia].
    apply msgs_len_nonneg, Forall_forall. intros x Hin.
    pose proof (collect_ok cq_ready _ _ _ _ ltac:(set_solver) Hok) as Hall.
    rewrite Forall_forall in Hall. apply Hall. rewrite (collect_perm _ _ _ _ Hp). unfold collect. cbn. set_solver. }
  pose proof (mo_len m Hmok) as Hlen. unfold MESSAGE_PAYLOAD_MAX, MESSAGE_MAX, MESSAGE_MIN in Hlen.
  destruct (ready_nonneg _ _ _ _ Hok) as [Hr0 Hu0]. pose proof (qo_int _ _ _ _ Hok) as Hint.
  unfold take_ready. do 3 hstep. eapply wp_deref_eq; [done|]. hstep. apply wp_int32; [lia|]. hstep.
  rewrite Hr. cbn [drop]. rewrite drop_0. set (cq' := upd cq_ready _ cq). set (sq1 := upd sq_notify_queue _ _).
  split; [|split].
  - apply (queues_ok_update (sq_cqs sq) (sq_pending_queues sq) (sq_ready_bytes sq) (sq_upcoming_bytes sq) q cq); try done.
    + change (sq_ready_bytes sq1) with (sq_ready_bytes sq - m_len m). change (cq_ready cq') with rest.
      rewrite Hr. change (msgs_len (m :: rest)) with (m_len m + msgs_len rest). lia.
    + change (sq_upcoming_bytes sq1) with (sq_upcoming_bytes sq). change (cq_upcoming cq') with (cq_upcoming cq). lia.
    + change (sq_ready_bytes sq - m_len m + sq_upcoming_bytes sq < 2147483648). lia.
  - unfold sq1, queued_messages. cbn.
    pose proof (queued_messages_take sq q m rest cq _ Hok Hq Hcq Hr eq_refl) as Hlt. fold cq' in Hlt.
    assert (∀ cqs pending, flat_map (λ q, match cqs !! q with Some cq => cq_ready cq ++ cq_upcoming cq | None => [] end) pending =
      collect (λ cq, cq_ready cq ++ cq_upcoming cq) cqs pending) as Hfm.
    { intros. unfold collect. apply flat_map_ext. intros i. by destruct (cqs !! i). }
    by rewrite !Hfm.
  - intros takes sq2 (Hd & Hup & cqs & pending & ->). split; [|split].
    + eapply (drains_cons _ (ready_of sq1) _ q m rest); [by rewrite Hrd| |..].
      * split; [by rewrite Hrd|done].
      * unfold ready_of, sq1. cbn. by rewrite lookup_insert_eq.
      * intros q' Hne. unfold ready_of, sq1. cbn. by rewrite lookup_insert_ne.
      * done.
    + intros i. rewrite Hup. unfold sq1. cbn. destruct (decide (i = q)) as [->|].
      * by rewrite lookup_insert_eq, Hcq.
      * by rewrite lookup_insert_ne.
    + exists cqs, pending.
      assert (sq_ready_bytes sq1 - msgs_len takes = sq_ready_bytes sq - msgs_len (m :: takes)) as ->.
      { change (sq_ready_bytes sq1) with (sq_ready_bytes sq - m_len m).
        change (msgs_len (m :: takes)) with (m_len m + msgs_len takes). lia. }
      assert (sq_notify_queue sq1 ++ notifications (sq_send_seq sq1) takes =
              sq_notify_queue sq ++ notifications (sq_send_seq sq) (m :: takes)) as ->; [|done].
      change (sq_send_seq sq1) with (sq_send_seq sq). unfold notifications.
      rewrite filter_cons. unfold sq1. cbn [sq_notify_queue upd]. unfold nz.
      destruct (Z.eqb_spec (m_notify_id m) 0) as [Hz|Hz]; cbn [negb].
      * by rewrite decide_False by tauto.
      * rewrite decide_True by done. rewrite <- app_assoc. done.
Qed.

(** The block is as full as the order of service allows. *)
Definition block_full (sq : serialqueue) (payload : list Z) : Prop :=
  sq_ready_bytes sq = 0 ∨
  ∃ q m, next_message (ready_of sq) q m ∧ MESSAGE_PAYLOAD_MAX < Z.of_nat (length payload) + m_len m.

Lemma wp_build_loop fuel payload sq :
  sq_queues_ok sq → (length (queued_messages sq) < fuel)%nat → (length payload ≤ 59)%nat →
  wp (build_loop fuel payload) sq
    (λ r sq', sq_queues_ok sq' ∧ (length r ≤ 59)%nat ∧ block_full sq' r ∧
       ∃ takes, taken sq takes sq' ∧ r = payload ++ concat (m_bytes <$> takes)) no_shut.
Proof.
  revert payload sq. induction fuel as [|fuel IH]; intros payload sq Hok Hf Hp; [lia|].
  cbn [build_loop]. do 2 hstep. destruct (Z.eqb_spec (sq_ready_bytes sq) 0) as [Hz|Hz].
  { hstep. split_and!; [done|done|by left|]. exists []. split; [apply taken_nil|]. by rewrite app_nil_r. }
  hstep. eapply wp_conseq; [by apply find_ready_some|]. intros r sq' (-> & q & m & -> & Hnext).
  do 2 hstep. unfold MESSAGE_MAX, MESSAGE_TRAILER_SIZE, MESSAGE_HEADER_SIZE.
  destruct (Z.ltb_spec (64 - 3) (2 + Z.of_nat (length payload) + m_len m)) as [Hgt|Hle].
  { hstep. split_and!; [done|done| |].
    - right. exists q, m. split; [done|]. unfold MESSAGE_PAYLOAD_MAX, MESSAGE_MAX, MESSAGE_MIN. lia.
    - exists []. split; [apply taken_nil|]. by rewrite app_nil_r. }
  hstep. eapply wp_conseq; [by apply wp_take_ready|]. intros _ sq1 (Hok1 & Hlt & Htk).
  assert (msg_ok m) as Hm.
  { destruct Hnext as [Hh _]. unfold ready_of in Hh. destruct (sq_cqs sq !! q) as [cq|] eqn:Hcq; [|done].
    pose proof (qo_msgs _ _ _ _ Hok q cq Hcq) as Hm. cbn in Hh. destruct (cq_ready cq); [done|].
    cbn in Hh. injection Hh as ->. by apply Forall_cons in Hm as [? _]. }
  pose proof (m_bytes_length m Hm) as Hb.
  eapply wp_conseq; [apply IH; [done|lia|rewrite length_app; lia]|].
  intros r sq2 (Hok2 & Hr & Hfull & takes & Ht & ->). split_and!; [done..|].
  exists (m :: takes). split; [by apply Htk|]. cbn. by rewrite <- app_assoc.
Qed.
End spec.
