(* ===== verification/SerialqueueInv.v ===== *)
(** * The invariant of serialqueue.c

    [sq_ok] relates the sequence numbers to the blocks that wait for an acknowledgement, the
    byte counters to the messages, and each queue to the member of the union that its messages
    use.  Every event of the background thread and every function of the interface keeps it, on
    any input, and returns. *)

From S2P Require Import Prelude State Vlq Crc Command CommandSpec Double Msgblock MsgblockSpec StepCompress.
From S2P Require Import BisectSpec Pollreactor PollreactorSpec Serialqueue SerialqueueSpec.

Lemma u64_small x : 0 ≤ x < 2 ^ 64 → u64 x = x.
Proof. apply Z.mod_small. Qed.

(** ** Blocks *)

Lemma seq_byte seq : 0 ≤ seq → Z.lor MESSAGE_DEST (Z.land seq MESSAGE_SEQ_MASK) = 16 + seq mod 16.
Proof.
  intros Hs. unfold MESSAGE_DEST, MESSAGE_SEQ_MASK. change 0x0f with (Z.ones 4).
  rewrite Z.land_ones by lia. change (2 ^ 4) with 16.
  pose proof (all_below (λ k, Z.lor 0x10 k =? 16 + k) 16 (seq mod 16) ltac:(by vm_compute)
    (Z.mod_pos_bound seq 16 ltac:(lia))) as E. by apply Z.eqb_eq in E.
Qed.

(** The block that the host builds is the frame the firmware expects. *)
Lemma build_block_frame seq payload :
  0 ≤ seq → (length payload ≤ 59)%nat →
  build_block seq payload = add_frame (16 + seq mod 16) (Z.of_nat (length payload) + 5) payload.
Proof.
  intros Hs Hp. unfold build_block, add_frame, MESSAGE_HEADER_SIZE, MESSAGE_TRAILER_SIZE.
  rewrite seq_byte by done.
  replace (2 + Z.of_nat (length payload) + 3) with (Z.of_nat (length payload) + 5) by lia.
  rewrite msgblock_crc_eq by lia.
  assert (∀ c, u8 (Z.land c 0xff) = u8 c) as Hm.
  { intros c. change 0xff with (Z.ones 8). rewrite Z.land_ones by lia. unfold u8. by rewrite Z.mod_mod. }
  by rewrite Hm.
Qed.

Lemma seq_nibble_ok seq : seq_ok (16 + seq mod 16).
Proof. unfold seq_ok. pose proof (Z.mod_pos_bound seq 16). lia. Qed.

Lemma build_block_length seq payload : length (build_block seq payload) = (length payload + 5)%nat.
Proof. unfold build_block. rewrite !length_app. cbn. lia. Qed.

(** The payload of a block. *)
Definition block_payload (block : list Z) : list Z := take (length block - 5) (drop 2 block).
Lemma block_payload_build seq payload : block_payload (build_block seq payload) = payload.
Proof.
  unfold block_payload. rewrite build_block_length. unfold build_block. cbn [app drop].
  replace (length payload + 5 - 5)%nat with (length payload) by lia. by apply take_app_length.
Qed.

#[global] Arguments block_payload : simpl never.
#[global] Arguments build_block : simpl never.

(** A message of the sent queue: block number [seq] with some payload. *)
Record is_block (seq : Z) (m : message) : Prop := {
  ib_payload : (length (block_payload (m_bytes m)) ≤ 59)%nat;
  ib_bytes : m_bytes m = build_block seq (block_payload (m_bytes m));
  ib_len : m_len m = Z.of_nat (length (m_bytes m));
  ib_times : ∃ t1 t2, m_union m = Times t1 t2 }.

Lemma is_block_len seq m : is_block seq m → 5 ≤ m_len m ≤ 64.
Proof. intros [Hp Hb Hl _]. rewrite Hl, Hb, build_block_length. lia. Qed.

Definition sent_blocks (first : Z) (sent : list message) : Prop :=
  ∀ k m, sent !! k = Some m → is_block (first + Z.of_nat k) m.

Lemma sent_blocks_nil first : sent_blocks first [].
Proof. intros k m H. by rewrite lookup_nil in H. Qed.
Lemma sent_blocks_cons first m sent :
  sent_blocks first (m :: sent) ↔ is_block first m ∧ sent_blocks (first + 1) sent.
Proof.
  split.
  - intros H. split; [specialize (H 0%nat m eq_refl); by rewrite Z.add_0_r in H|].
    intros k x Hx. specialize (H (S k) x Hx). by replace (first + 1 + Z.of_nat k) with (first + Z.of_nat (S k)) by lia.
  - intros [Hm Hs] [|k] x Hx; cbn in Hx; [injection Hx as <-; by rewrite Z.add_0_r|].
    specialize (Hs k x Hx). by replace (first + Z.of_nat (S k)) with (first + 1 + Z.of_nat k) by lia.
Qed.
Lemma sent_blocks_snoc first sent m :
  sent_blocks first sent → is_block (first + Z.of_nat (length sent)) m → sent_blocks first (sent ++ [m]).
Proof.
  intros Hs Hm k x [Hx | [Hk Hx]]%lookup_app_Some; [by apply Hs|].
  apply list_lookup_singleton_Some in Hx as [? ->]. by replace k with (length sent) by lia.
Qed.
Lemma sent_blocks_len first sent : sent_blocks first sent → 0 ≤ msgs_len sent ≤ 64 * Z.of_nat (length sent).
Proof.
  revert first. induction sent as [|m sent IH]; intros first; [done|].
  rewrite sent_blocks_cons. intros [Hm Hs]. specialize (IH _ Hs). apply is_block_len in Hm.
  change (msgs_len (m :: sent)) with (m_len m + msgs_len sent). cbn [length]. lia.
Qed.

Lemma sent_blocks_bytes first sent :
  sent_blocks first sent → Z.of_nat (length (concat (m_bytes <$> sent))) = msgs_len sent.
Proof.
  revert first. induction sent as [|m sent IH]; intros first; [done|].
  rewrite sent_blocks_cons. intros [Hm Hs]. specialize (IH _ Hs). pose proof (ib_len _ _ Hm).
  change (msgs_len (m :: sent)) with (m_len m + msgs_len sent). cbn [fmap list_fmap concat]. rewrite length_app. lia.
Qed.

(** ** The invariant *)

Definition has_times (m : message) : Prop := ∃ t1 t2, m_union m = Times t1 t2.
Definition has_clocks (m : message) : Prop := ∃ c1 c2, m_union m = Clocks c1 c2.

Record sq_ok (sq : serialqueue) : Prop := {
  so_queues : sq_queues_ok sq;
  so_receive_seq : 1 ≤ sq_receive_seq sq;
  so_send_seq : sq_send_seq sq = sq_receive_seq sq + Z.of_nat (length (sq_sent_queue sq)) ∧ sq_send_seq sq < 2 ^ 63;
  so_window : (length (sq_sent_queue sq) ≤ 12)%nat;
  so_sent : sent_blocks (sq_receive_seq sq) (sq_sent_queue sq);
  so_ack : sq_need_ack_bytes sq = msgs_len (sq_sent_queue sq);
  so_notify : Forall has_clocks (sq_notify_queue sq);
  so_receive : Forall has_times (sq_receive_queue sq);
  so_old_sent : length (sq_old_sent sq) = DEBUG_QUEUE_SENT ∧
    Forall (λ m, m_len m ≠ 0 → has_times m) (sq_old_sent sq);
  so_old_receive : length (sq_old_receive sq) = DEBUG_QUEUE_RECEIVE ∧
    Forall (λ m, m_len m ≠ 0 → has_times m) (sq_old_receive sq);
  so_waiting : sq_receive_waiting sq = true → sq_receive_queue sq = [];
  so_timers : length (pr_timers (sq_pr sq)) = 2%nat;
  so_input : Forall is_byte (sq_input sq) }.

(** The parts that an operation leaves alone are as before. *)
Ltac keep_ok Hok :=
  match goal with
  | |- sq_ok _ =>
      constructor;
      [ try exact (so_queues _ Hok) | try exact (so_receive_seq _ Hok) | try exact (so_send_seq _ Hok)
      | try exact (so_window _ Hok) | try exact (so_sent _ Hok) | try exact (so_ack _ Hok)
      | try exact (so_notify _ Hok) | try exact (so_receive _ Hok) | try exact (so_old_sent _ Hok)
      | try exact (so_old_receive _ Hok) | try exact (so_waiting _ Hok) | try exact (so_timers _ Hok)
      | try exact (so_input _ Hok) ]
  end.

Lemma debug_queue_ok n l m :
  (0 < n)%nat → length l = n ∧ Forall (λ m, m_len m ≠ 0 → has_times m) l → has_times m →
  length (debug_queue_add l m) = n ∧ Forall (λ m, m_len m ≠ 0 → has_times m) (debug_queue_add l m).
Proof.
  intros Hn [Hl Hf] Hm. unfold debug_queue_add. split.
  - rewrite length_drop, length_app. cbn. lia.
  - apply Forall_drop, Forall_app. split; [done|]. by constructor.
Qed.

Lemma debug_queue_alloc_ok n :
  length (debug_queue_alloc [] n) = n ∧ Forall (λ m, m_len m ≠ 0 → has_times m) (debug_queue_alloc [] n).
Proof.
  unfold debug_queue_alloc. rewrite app_nil_r, length_replicate. split; [done|]. by apply Forall_replicate.
Qed.

Lemma serialqueue_alloc_ok fd_type client_id :
  fd_type ≠ SQT_DEBUGFILE → sq_ok (serialqueue_alloc fd_type client_id).
Proof.
  intros Hfd. unfold serialqueue_alloc. rewrite (proj2 (Z.eqb_neq _ _)) by done.
  constructor; try done; try (apply debug_queue_alloc_ok); try (cbn; lia).
  - constructor; cbn; try done; try set_solver. constructor.
Qed.

Section spec.
Context `{OS : HostOS}.

(** ** Writing *)

Definition wire_bytes (ws : list wire_write) : list Z :=
  concat ((λ w, match w with WSerial d => d | WCan _ d => d end) <$> ws).

(** What [do_write] puts on the wire: for a serial line all of [buf] in one piece, on a CAN bus
    frames of at most eight bytes for the [client_id]; all of it when no write fails. *)
Definition written (sq : serialqueue) (buf : list Z) (sq' : serialqueue) : Prop :=
  ∃ calls ws, sq' = sq <| sq_calls := calls |> <| sq_wire := sq_wire sq ++ ws |> ∧
    wire_bytes ws `prefix_of` buf ∧
    ((∀ n, (sq_calls sq ≤ n < calls)%nat → os_write n = true) → wire_bytes ws = buf) ∧
    Forall (λ w, match w with
                 | WSerial _ => sq_fd_type sq ≠ SQT_CAN
                 | WCan i d => sq_fd_type sq = SQT_CAN ∧ i = sq_client_id sq ∧ (0 < length d ≤ 8)%nat
                 end) ws.

Lemma wp_sys_write w sq (Q : bool → serialqueue → Prop) E :
  (let ok := os_write (sq_calls sq) in
   Q ok (sq <| sq_calls := S (sq_calls sq) |> <| sq_wire := if ok then sq_wire sq ++ [w] else sq_wire sq |>)) →
  wp (sys_write w) sq Q E.
Proof. done. Qed.

Lemma wp_can_write fuel buf sq :
  (length buf ≤ fuel)%nat → sq_fd_type sq = SQT_CAN →
  wp (can_write fuel (sq_client_id sq) buf) sq (λ _ sq', written sq buf sq') no_shut.
Proof.
  intros Hf Hcan. remember (sq_client_id sq) as id eqn:Hid. revert buf sq Hf Hcan Hid.
  assert (∀ sq, written sq [] sq) as Hnil.
  { intros sq. exists (sq_calls sq), []. split; [destruct sq; cbn; by rewrite app_nil_r|].
    split; [done|]. split; done. }
  induction fuel as [|fuel IH]; intros buf sq Hf Hcan Hid; destruct buf as [|b buf];
    try (cbn in Hf; lia); try (cbn; apply Hnil).
  cbn [can_write]. hstep. assert (0 < length (b :: buf) ≤ S fuel)%nat as Hl0 by (cbn in *; lia).
  set (l := b :: buf) in *. clearbody l.
  set (size := if (8 <? length l)%nat then 8%nat else length l).
  assert (0 < length (take size l) ≤ 8)%nat as Hsize.
  { unfold size. destruct (Nat.ltb_spec 8 (length l)); rewrite length_take; lia. }
  apply wp_sys_write. cbn zeta. destruct (os_write (sq_calls sq)) eqn:Hok.
  - set (sq1 := upd sq_wire _ _). assert (0 < size)%nat by (rewrite length_take in Hsize; lia).
    eapply wp_conseq; [apply (IH (drop size l) sq1)|].
    { rewrite length_drop. lia. }
    { done. }
    { done. }
    intros _ sq' (calls & ws & -> & Hp & Hall & Hfr).
    exists calls, (WCan (sq_client_id sq) (take size l) :: ws). split.
    { unfold sq1. cbn. by rewrite <- app_assoc, <- Hid. }
    change (wire_bytes (_ :: ws)) with (take size l ++ wire_bytes ws). split.
    { rewrite <- (take_drop size l) at 2. by apply prefix_app. }
    split.
    { intros Hn. rewrite <- (take_drop size l) at 2. f_equal. apply Hall. intros n Hn'.
      apply Hn. unfold sq1 in Hn'. cbn in Hn'. lia. }
    constructor; done.
  - hstep. exists (S (sq_calls sq)), []. split; [by rewrite app_nil_r|]. split; [apply prefix_nil|].
    split; [|done]. intros Hn. rewrite Hn in Hok by lia. done.
Qed.

Lemma wp_do_write buf sq : wp (do_write buf) sq (λ _ sq', written sq buf sq') no_shut.
Proof.
  unfold do_write. do 2 hstep. destruct (Z.eqb_spec (sq_fd_type sq) SQT_CAN) as [Hc|Hc]; cbn [negb].
  { by apply wp_can_write. }
  hstep. apply wp_sys_write. cbn zeta. hstep. destruct (os_write (sq_calls sq)) eqn:Hok.
  - exists (S (sq_calls sq)), [WSerial buf]. split; [done|]. unfold wire_bytes. cbn. rewrite app_nil_r.
    split; [done|]. split; [done|]. by constructor.
  - exists (S (sq_calls sq)), []. split; [by rewrite app_nil_r|]. split; [apply prefix_nil|].
    split; [|done]. intros Hn. rewrite Hn in Hok by lia. done.
Qed.

Lemma written_ok sq buf sq' : sq_ok sq → written sq buf sq' → sq_ok sq'.
Proof. intros Hok (calls & ws & -> & _). keep_ok Hok. Qed.

(** ** Sending *)

Lemma message_fill_block block :
  (length block ≤ 64)%nat →
  ∃ qm, message_fill block = Some qm ∧ qm_len qm = Z.of_nat (length block) ∧
    take (length block) (qm_msg qm) = block.
Proof.
  intros Hl. unfold message_fill, store_bytes.
  assert (length (qm_msg message_alloc) = 64%nat) as -> by done.
  rewrite (proj2 (Nat.leb_le _ _)) by lia. cbn [mbind option_bind].
  eexists. split; [done|]. cbn [qm_len qm_msg]. split; [done|].
  rewrite take_0, app_nil_l. by apply take_app_length.
Qed.

Lemma set_timers_length (r : pollreactor) pos t :
  length (pr_timers (pollreactor_update_timer r pos t)) = length (pr_timers r).
Proof. unfold pollreactor_update_timer. cbn. by rewrite length_insert. Qed.

(** What sending one block does: the messages [takes] leave the command queues, and the block
    joins the sent queue with the next number. *)
Definition sent_block (sq : serialqueue) (takes : list message) (m : message) (sq' : serialqueue) : Prop :=
  m_bytes m = build_block (sq_send_seq sq) (concat (m_bytes <$> takes)) ∧
  ∃ sq1 pr rtt, taken sq takes sq1 ∧ pr_moves (sq_pr sq) pr ∧
    sq' = sq1 <| sq_pr := pr |> <| sq_rtt_sample_seq := rtt |> <| sq_send_seq := sq_send_seq sq + 1 |>
              <| sq_need_ack_bytes := sq_need_ack_bytes sq + m_len m |>
              <| sq_sent_queue := sq_sent_queue sq ++ [m] |>.

Lemma taken_keeps sq takes sq' :
  taken sq takes sq' → sq_queues_ok sq' → sq_ok sq → Forall has_clocks (notifications (sq_send_seq sq) takes) ∧ sq_ok sq'.
Proof.
  intros (_ & _ & cqs & pending & ->) Hq Hok.
  assert (Forall has_clocks (notifications (sq_send_seq sq) takes)) as Hn.
  { apply Forall_fmap, Forall_true. intros m. eexists _, _. done. }
  split; [done|]. keep_ok Hok; [exact Hq|]. apply Forall_app. split; [apply (so_notify _ Hok)|done].
Qed.

Lemma wp_build_and_send_command pending eventtime sq :
  sq_ok sq → (length (sq_sent_queue sq) < 12)%nat → sq_send_seq sq ≤ 2 ^ 62 + 12 →
  wp (build_and_send_command pending eventtime) sq
    (λ block sq', sq_ok sq' ∧ ∃ takes m, sent_block sq takes m sq' ∧ block = m_bytes m ∧
       block_full sq' (concat (m_bytes <$> takes))) no_shut.
Proof.
  intros Hok Hwin Hbound. unfold build_and_send_command. do 3 hstep.
  eapply wp_conseq; [apply wp_build_loop; [apply (so_queues _ Hok)|lia|cbn; lia]|].
  intros payload sq1 (Hq1 & Hp & Hfull & takes & Htk & ->). cbn [app] in *.
  set (payload := concat (m_bytes <$> takes)) in *.
  destruct (taken_keeps _ _ _ Htk Hq1 Hok) as [_ Hok1].
  assert (sq_send_seq sq1 = sq_send_seq sq ∧ sq_sent_queue sq1 = sq_sent_queue sq ∧
          sq_receive_seq sq1 = sq_receive_seq sq ∧ sq_need_ack_bytes sq1 = sq_need_ack_bytes sq ∧
          sq_pr sq1 = sq_pr sq) as (Hs & Hsent & Hr & Hna & Hpr)
    by (by destruct Htk as (_ & _ & ? & ? & ->)).
  do 2 hstep. rewrite Hs. set (block := build_block (sq_send_seq sq) payload).
  assert (length block = (length payload + 5)%nat) as Hbl by apply build_block_length.
  destruct (message_fill_block block ltac:(lia)) as (qm & Hqm & Hlen & Hbytes).
  hstep. eapply wp_deref_eq; [exact Hqm|]. hstep.
  set (idletime := dadd (latest eventtime (sq_idle_time sq1)) _).
  set (m := mk_msg qm (Times eventtime idletime) 0).
  assert (m_bytes m = block) as Hmb by (unfold m_bytes, m, m_len; cbn; by rewrite Hlen, Nat2Z.id).
  assert (is_block (sq_send_seq sq) m) as Hblk.
  { split; rewrite ?Hmb; unfold block; rewrite ?block_payload_build; [done|done| |by eexists _, _].
    unfold m, m_len. cbn. by rewrite Hlen. }
  pose proof (sent_blocks_len _ _ (so_sent _ Hok)) as Hsl. pose proof (so_ack _ Hok) as Hack.
  destruct (so_send_seq _ Hok) as [Hss _]. pose proof (so_receive_seq _ Hok) as Hr1.
  assert (∀ pr, pr_moves (sq_pr sq) pr →
    wp (let! need_ack_bytes := int32 (sq_need_ack_bytes sq1 + Z.of_nat (length block)) in
        modify (λ sq, sq <| sq_rtt_sample_seq := if nz (sq_rtt_sample_seq sq) then sq_rtt_sample_seq sq else sq_send_seq sq |>
                         <| sq_send_seq := u64 (sq_send_seq sq + 1) |>
                         <| sq_need_ack_bytes := need_ack_bytes |>
                         <| sq_sent_queue := sq_sent_queue sq ++ [m] |>);;;
        mret block) (sq1 <| sq_pr := pr |>)
     (λ block sq', sq_ok sq' ∧ ∃ takes m, sent_block sq takes m sq' ∧ block = m_bytes m ∧
       block_full sq' (concat (m_bytes <$> takes))) no_shut) as Hgen.
  { intros pr Hprl. hstep. apply wp_int32; [lia|]. do 3 hstep.
    change (sq_send_seq (sq1 <| sq_pr := pr |>)) with (sq_send_seq sq1).
    change (sq_sent_queue (sq1 <| sq_pr := pr |>)) with (sq_sent_queue sq1).
    rewrite Hs, Hsent, Hna. rewrite (u64_small (sq_send_seq sq + 1)) by lia.
    assert (m_len m = Z.of_nat (length block)) as Hml by (unfold m, m_len; cbn; done). rewrite <- Hml.
    set (rtt := if nz _ then _ else _). split.
    - keep_ok Hok1; cbn.
      + rewrite Hr, length_app. cbn. lia.
      + rewrite length_app. cbn. lia.
      + rewrite Hr. apply sent_blocks_snoc; [apply (so_sent _ Hok)|]. by rewrite <- Hss.
      + rewrite msgs_len_app, <- Hack. unfold msgs_len. cbn. lia.
      + rewrite (pm_length _ _ Hprl). apply (so_timers _ Hok).
    - exists takes, m. split; [|split; [done|exact Hfull]]. split; [exact Hmb|]. by exists sq1, pr, rtt. }
  apply wp_when; intros _.
  - unfold set_timer. apply wp_hmodify. apply Hgen. rewrite Hpr. apply update_timer_moves.
  - specialize (Hgen (sq_pr sq) ltac:(reflexivity)).
    assert (sq1 <| sq_pr := sq_pr sq |> = sq1) as E; [|by rewrite E in Hgen].
    rewrite <- Hpr. by destruct sq1.
Qed.

(** What [check_send_command] changes. *)
Lemma wp_check_send_command pending eventtime sq :
  sq_ok sq →
  wp (check_send_command pending eventtime) sq
    (λ t sq', sq_ok sq' ∧ (∃ sq1 k, requeued sq sq1 ∧ sq' = sq1 <| sq_need_kick_clock := k |>) ∧
       (deq t PR_NOW = true → (length (sq_sent_queue sq) < 12)%nat)) no_shut.
Proof.
  intros Hok. unfold check_send_command. do 2 hstep.
  assert (∀ sq1, requeued sq sq1 → sq1 = sq1 <| sq_need_kick_clock := sq_need_kick_clock sq1 |>) as Hid
    by (intros sq1 _; by destruct sq1).
  destruct (window_full sq) eqn:Hfull.
  { hstep. split; [done|]. split; [|by vm_compute]. exists sq. eexists. split; [apply requeued_refl|].
    apply Hid, requeued_refl. }
  assert (length (sq_sent_queue sq) < 12)%nat as Hwin.
  { unfold window_full in Hfull. destruct (so_send_seq _ Hok) as [Hs Hb]. pose proof (so_receive_seq _ Hok).
    apply orb_false_elim in Hfull as [Hf _]. unfold MAX_PENDING_BLOCKS in Hf.
    pose proof (so_window _ Hok).
    rewrite (u64_small (sq_send_seq sq - sq_receive_seq sq)) in Hf by lia.
    rewrite (proj2 (Z.eqb_neq _ (2 ^ 64 - 1))) in Hf by lia. rewrite andb_true_r in Hf.
    apply Z.leb_gt in Hf. lia. }
  set (idletime := dadd _ _). set (ack_clock := clock_from_time _ _). hstep.
  eapply wp_conseq; [apply wp_check_queues; [apply (so_queues _ Hok)|done]|].
  intros [ms mr] sq1 [Hq1 Hrq]. cbn beta iota.
  assert (sq_ok sq1) as Hok1 by (destruct Hrq as (? & ? & ? & -> & _); keep_ok Hok; exact Hq1).
  assert (∀ t, wp (mret t) sq1 (λ t sq', sq_ok sq' ∧
     (∃ sq1 k, requeued sq sq1 ∧ sq' = sq1 <| sq_need_kick_clock := k |>) ∧
     (deq t PR_NOW = true → (length (sq_sent_queue sq) < 12)%nat)) no_shut) as Hret.
  { intros t. hstep. split; [done|]. split; [|done]. exists sq1. eexists. split; [done|]. by apply Hid. }
  assert (∀ k t, wp (modify (λ sq, sq <| sq_need_kick_clock := k |>);;; mret t) sq1 (λ t sq', sq_ok sq' ∧
     (∃ sq1 k, requeued sq sq1 ∧ sq' = sq1 <| sq_need_kick_clock := k |>) ∧
     (deq t PR_NOW = true → (length (sq_sent_queue sq) < 12)%nat)) no_shut) as Hmod.
  { intros k t. do 3 hstep. split; [keep_ok Hok1|]. split; [|done]. by exists sq1, k. }
  do 2 hstep. destruct (_ <=? _); [apply Hret|]. destruct (negb (dnz _)).
  - destruct (nz _); [apply Hret|apply Hmod].
  - destruct (_ <=? _); [apply Hret|apply Hmod].
Qed.
End spec.
