(* ===== verification/SerialqueueSend.v ===== *)
(** * What the events of serialqueue.c send

    [command_event] packs the waiting messages, in the order of their queues, into blocks with
    consecutive numbers and writes exactly these blocks; [retransmit_event] writes all blocks
    that wait for an acknowledgement. *)

From S2P Require Import Prelude State Vlq Crc Command CommandSpec Double Msgblock MsgblockSpec StepCompress.
From S2P Require Import BisectSpec Pollreactor PollreactorSpec Serialqueue SerialqueueSpec SerialqueueInv.

(** [takes] are taken from the fronts of the queues [f], which leaves [g]. *)
Inductive takes_from : (Z → list message) → list message → (Z → list message) → Prop :=
| takes_nil f g : (∀ q, f q = g q) → takes_from f [] g
| takes_cons f g h q m takes :
    f q = m :: g q → (∀ q', q' ≠ q → g q' = f q') → takes_from g takes h → takes_from f (m :: takes) h.

Lemma takes_from_ext f f' g g' takes :
  (∀ q, f q = f' q) → (∀ q, g q = g' q) → takes_from f takes g → takes_from f' takes g'.
Proof.
  intros Hf Hg H. revert f' g' Hf Hg. induction H as [f g Hfg|f g h q m takes Hq Hne _ IH]; intros f' g' Hf Hg.
  - constructor. intros q. by rewrite <- Hf, <- Hg.
  - apply (takes_cons _ g _ q); [by rewrite <- Hf|intros q' Hq'; by rewrite <- Hf, Hne|].
    apply IH; [done|done].
Qed.
Lemma takes_from_app f g h l k : takes_from f l g → takes_from g k h → takes_from f (l ++ k) h.
Proof.
  induction 1 as [f g Hfg|f g g' q m takes Hq Hne _ IH]; intros H.
  - eapply takes_from_ext; [| |exact H]; [done|done].
  - cbn. eapply takes_cons; [done|done|by apply IH].
Qed.

(** Everything that waits on a queue. *)
Definition waiting_of (sq : serialqueue) (q : Z) : list message :=
  from_option (λ cq, cq_ready cq ++ cq_upcoming cq) [] (sq_cqs sq !! q).
Definition upcoming_of (sq : serialqueue) (q : Z) : list message :=
  from_option cq_upcoming [] (sq_cqs sq !! q).

Lemma drains_takes f takes g : drains f takes g → ∀ u : Z → list message,
  takes_from (λ q, f q ++ u q) takes (λ q, g q ++ u q).
Proof.
  induction 1 as [f|f g h q m rest takes Hq _ Hg Hne _ IH]; intros u; [by constructor|].
  eapply (takes_cons _ (λ q, g q ++ u q) _ q); [cbn; by rewrite Hq, Hg|intros q' Hq'; cbn; by rewrite Hne|apply IH].
Qed.
Lemma waiting_split sq q : waiting_of sq q = ready_of sq q ++ upcoming_of sq q.
Proof. unfold waiting_of, ready_of, upcoming_of. by destruct (sq_cqs sq !! q). Qed.
Lemma taken_waiting sq takes sq' :
  taken sq takes sq' → takes_from (waiting_of sq) takes (waiting_of sq').
Proof.
  intros (Hd & Hu & _). eapply takes_from_ext; [| |exact (drains_takes _ _ _ Hd (upcoming_of sq))]; intros q; cbn.
  - by rewrite waiting_split.
  - rewrite waiting_split. f_equal. unfold upcoming_of. specialize (Hu q).
    destruct (sq_cqs sq' !! q), (sq_cqs sq !! q); cbn in *; congruence.
Qed.
Lemma requeued_waiting sq sq' q : requeued sq sq' → waiting_of sq' q = waiting_of sq q.
Proof.
  intros (cqs & rb & ub & -> & H). specialize (H q). unfold waiting_of. cbn.
  destruct (cqs !! q), (sq_cqs sq !! q); cbn in *; congruence.
Qed.

(** The entries of the notify queue for the blocks from number [seq] on. *)
Fixpoint block_notifications (seq : Z) (takess : list (list message)) : list message :=
  match takess with
  | [] => []
  | takes :: takess => notifications seq takes ++ block_notifications (seq + 1) takess
  end.

Section spec.
Context `{OS : HostOS}.

(** The bytes [out] were written between [sq] and [sq']. *)
Definition wrote (sq : serialqueue) (out : list Z) (sq' : serialqueue) : Prop :=
  ∃ ws, sq_wire sq' = sq_wire sq ++ ws ∧ wire_bytes ws `prefix_of` out ∧
    ((∀ n, (sq_calls sq ≤ n < sq_calls sq')%nat → os_write n = true) → wire_bytes ws = out) ∧
    Forall (λ w, match w with
                 | WSerial _ => sq_fd_type sq ≠ SQT_CAN
                 | WCan i d => sq_fd_type sq = SQT_CAN ∧ i = sq_client_id sq ∧ (0 < length d ≤ 8)%nat
                 end) ws.

(** The fields that belong to the receiving half. *)
Definition same_receiver (sq sq' : serialqueue) : Prop :=
  sq_receive_seq sq' = sq_receive_seq sq ∧ sq_input sq' = sq_input sq ∧
  sq_need_sync sq' = sq_need_sync sq ∧ sq_fd_type sq' = sq_fd_type sq ∧
  sq_client_id sq' = sq_client_id sq ∧ sq_receive_queue sq' = sq_receive_queue sq ∧
  sq_last_ack_seq sq' = sq_last_ack_seq sq.

(** The blocks [bs], with the messages [takess], are sent; [buf] was waiting to be written. *)
Record sends (sq : serialqueue) (buf : list Z) (bs : list message) (takess : list (list message))
    (sq' : serialqueue) : Prop := {
  se_sent : sq_sent_queue sq' = sq_sent_queue sq ++ bs;
  se_seq : sq_send_seq sq' = sq_send_seq sq + Z.of_nat (length bs);
  se_receiver : same_receiver sq sq';
  se_takes : takes_from (waiting_of sq) (concat takess) (waiting_of sq');
  se_payload : Forall2 (λ m takes, block_payload (m_bytes m) = concat (m_bytes <$> takes)) bs takess;
  se_notify : sq_notify_queue sq' = sq_notify_queue sq ++ block_notifications (sq_send_seq sq) takess;
  se_wire : wrote sq (buf ++ concat (m_bytes <$> bs)) sq';
  se_timers : pr_moves (sq_pr sq) (sq_pr sq') }.

(** Nothing but what was waiting is written. *)
Lemma sends_nothing sq buf sq' :
  sq_sent_queue sq' = sq_sent_queue sq → sq_send_seq sq' = sq_send_seq sq → same_receiver sq sq' →
  sq_cqs sq' = sq_cqs sq → sq_notify_queue sq' = sq_notify_queue sq → wrote sq buf sq' → sq_pr sq' = sq_pr sq →
  sends sq buf [] [] sq'.
Proof.
  intros H1 H2 H3 H4 H5 H6 H7. constructor; cbn; rewrite ?app_nil_r, ?H7; try done; [lia|].
  constructor. intros q. unfold waiting_of. by rewrite H4.
Qed.
Lemma written_wrote sq buf sq' : written sq buf sq' → wrote sq buf sq'.
Proof. intros (calls & ws & -> & Hp & Hall & Hfr). by exists ws. Qed.

Lemma wp_flush_blocks buf eventtime sq :
  sq_ok sq →
  wp (flush_blocks buf eventtime) sq (λ r sq', r = [] ∧ sq_ok sq' ∧ sends sq buf [] [] sq') no_shut.
Proof.
  intros Hok. unfold flush_blocks. case_bool_decide as Hb.
  - subst. hstep. split; [done|]. split; [done|]. apply sends_nothing; try done.
    exists []. rewrite app_nil_r. split; [done|]. split; [done|]. split; [done|constructor].
  - hstep. eapply wp_conseq; [apply wp_do_write|]. intros [] sq1 Hw.
    pose proof (written_ok _ _ _ Hok Hw) as Hok1. do 3 hstep. split; [done|]. split; [keep_ok Hok1|].
    pose proof (written_wrote _ _ _ Hw) as Hw'.
    destruct Hw as (calls & ws & Heq & _). subst sq1. by apply sends_nothing.
Qed.

(** A check that moves messages, before something is sent. *)
Lemma sends_after_check sq sq1 k buf bs takess sq2 :
  requeued sq sq1 → sends (sq1 <| sq_need_kick_clock := k |>) buf bs takess sq2 → sends sq buf bs takess sq2.
Proof.
  intros Hrq [H1 H2 H3 H4 H5 H6 H7 H8]. pose proof (λ q, requeued_waiting sq sq1 q Hrq) as Hw.
  destruct Hrq as (cqs & rb & ub & -> & _). constructor; try done.
  eapply takes_from_ext; [|intros q; reflexivity|exact H4]. intros q. apply Hw.
Qed.

Lemma sends_block sq takes m sq1 buf bs takess sq2 :
  sent_block sq takes m sq1 → sends sq1 (buf ++ m_bytes m) bs takess sq2 →
  sends sq buf (m :: bs) (takes :: takess) sq2.
Proof.
  intros (Hb & sq0 & pr & rtt & Htk & Hpr & ->) [H1 H2 H3 H4 H5 H6 H7 H8].
  pose proof (taken_waiting _ _ _ Htk) as Hw. destruct Htk as (_ & _ & cqs & pending & ->). constructor.
  - rewrite H1. cbn. by rewrite <- app_assoc.
  - rewrite H2. cbn. lia.
  - done.
  - cbn [concat]. eapply takes_from_app; [exact Hw|exact H4].
  - constructor; [|done]. by rewrite Hb, block_payload_build.
  - rewrite H6. cbn. by rewrite <- app_assoc.
  - cbn [fmap list_fmap concat]. rewrite app_assoc. exact H7.
  - etrans; [exact Hpr|exact H8].
Qed.

(** At most twelve blocks are unacknowledged, so the buffer of 768 bytes holds what one event
    sends, and fourteen rounds are enough. *)
Lemma wp_command_loop fuel buf nb eventtime sq :
  sq_ok sq → sq_send_seq sq + Z.of_nat (12 - length (sq_sent_queue sq)) ≤ 2 ^ 62 + 12 →
  (length buf ≤ 64 * nb)%nat → (nb ≤ length (sq_sent_queue sq))%nat →
  (12 - length (sq_sent_queue sq) < fuel)%nat →
  wp (command_loop fuel buf eventtime) sq
    (λ _ sq', sq_ok sq' ∧ ∃ bs takess, sends sq buf bs takess sq') no_shut.
Proof.
  revert buf nb sq. induction fuel as [|fuel IH]; intros buf nb sq Hok Hbd Hbuf Hnb Hf; [lia|].
  cbn [command_loop]. hstep. eapply wp_conseq; [by apply wp_check_send_command|].
  intros t sq1 (Hok1 & (sq0 & k & Hrq & ->) & Hnow). cbn zeta.
  assert (sq_sent_queue (sq0 <| sq_need_kick_clock := k |>) = sq_sent_queue sq) as Hs
    by (by destruct Hrq as (? & ? & ? & -> & _)).
  assert (sq_send_seq (sq0 <| sq_need_kick_clock := k |>) = sq_send_seq sq) as Hss
    by (by destruct Hrq as (? & ? & ? & -> & _)).
  set (sq1 := sq0 <| sq_need_kick_clock := k |>) in *.
  destruct (deq t PR_NOW) eqn:Ht; cbn [negb orb].
  2:{ hstep. eapply wp_conseq; [by apply wp_flush_blocks|]. intros r sq2 (-> & Hok2 & Hsd). hstep.
      split; [done|]. exists [], []. by eapply sends_after_check. }
  specialize (Hnow eq_refl). hstep. unfold COMMAND_BUF_SIZE, MESSAGE_MAX, MAX_PENDING_BLOCKS.
  rewrite (proj2 (Z.ltb_ge (64 * 12) _)) by lia. do 2 hstep.
  eapply wp_conseq; [apply wp_build_and_send_command; [done|by rewrite Hs|lia]|].
  intros block sq2 (Hok2 & takes & m & Hsb & -> & _).
  assert (sq_sent_queue sq2 = sq_sent_queue sq ++ [m] ∧ sq_send_seq sq2 = sq_send_seq sq + 1) as [Hs2 Hss2].
  { destruct Hsb as (_ & ? & ? & ? & _ & _ & ->). cbn. rewrite <- Hs, <- Hss. done. }
  assert (length (m_bytes m) ≤ 64)%nat as Hml.
  { assert (is_block (sq_receive_seq sq2 + Z.of_nat (length (sq_sent_queue sq))) m) as Hblk.
    { apply (so_sent _ Hok2). rewrite Hs2. rewrite lookup_app_r, Nat.sub_diag by lia. done. }
    pose proof (is_block_len _ _ Hblk). rewrite (ib_len _ _ Hblk) in *. lia. }
  hstep. unfold fits. rewrite (proj2 (Z.leb_le _ _)) by (rewrite length_app; lia). hstep.
  eapply wp_conseq; [apply (IH _ (S nb)); [done|..]|].
  - rewrite Hss2, Hs2, length_app. cbn. lia.
  - rewrite length_app. lia.
  - rewrite Hs2, length_app. cbn. lia.
  - rewrite Hs2, length_app. cbn. lia.
  - intros _ sq3 (Hok3 & bs & takess & Hsd). split; [done|]. exists (m :: bs), (takes :: takess).
    eapply sends_after_check; [done|]. by eapply sends_block.
Qed.

Lemma wp_command_event eventtime sq :
  sq_ok sq → sq_send_seq sq ≤ 2 ^ 62 →
  wp (command_event eventtime) sq
    (λ _ sq', sq_ok sq' ∧ ∃ bs takess, sends sq [] bs takess sq') no_shut.
Proof.
  intros Hok Hb. unfold command_event. do 2 hstep. apply (wp_command_loop _ _ 0); cbn; try done; try lia.
  change (Z.to_nat MAX_PENDING_BLOCKS) with 12%nat. lia.
Qed.

(** ** Retransmission *)

Lemma wp_retransmit_loop first sent buf first_buflen sq (Q : list Z * Z → serialqueue → Prop) E :
  sent_blocks first sent → (length buf + 64 * length sent ≤ 769)%nat →
  (∀ n, Q (buf ++ concat (m_bytes <$> sent), n) sq) →
  wp (retransmit_loop sent buf first_buflen) sq Q E.
Proof.
  revert first buf first_buflen. induction sent as [|m sent IH]; intros first buf n Hs Hl HQ; cbn [retransmit_loop].
  { hstep. specialize (HQ n). by rewrite app_nil_r in HQ. }
  apply sent_blocks_cons in Hs as [Hm Hs]. pose proof (is_block_len _ _ Hm) as Hml.
  rewrite (ib_len _ _ Hm) in Hml. cbn [length] in Hl. hstep. unfold fits, RETRANSMIT_BUF_SIZE, MESSAGE_MAX, MAX_PENDING_BLOCKS.
  rewrite (proj2 (Z.leb_le _ _)) by (rewrite length_app; lia). hstep.
  eapply IH; [exact Hs|rewrite length_app; lia|]. intros k. rewrite <- app_assoc. apply HQ.
Qed.

(** What [retransmit_event] leaves behind. *)
Record resent (sq sq' : serialqueue) : Prop := {
  rs_sent : sq_sent_queue sq' = sq_sent_queue sq;
  rs_seq : sq_send_seq sq' = sq_send_seq sq;
  rs_receiver : same_receiver sq sq';
  rs_queues : sq_cqs sq' = sq_cqs sq ∧ sq_notify_queue sq' = sq_notify_queue sq;
  rs_retransmit : sq_retransmit_seq sq' = sq_send_seq sq;
  rs_wire : wrote sq (MESSAGE_SYNC :: concat (m_bytes <$> sq_sent_queue sq)) sq';
  rs_timers : sq_pr sq' = sq_pr sq }.

Lemma wp_retransmit_event eventtime sq :
  sq_ok sq → wp (retransmit_event eventtime) sq (λ _ sq', sq_ok sq' ∧ resent sq sq') no_shut.
Proof.
  intros Hok. unfold retransmit_event. do 3 hstep.
  eapply wp_retransmit_loop; [apply (so_sent _ Hok)|pose proof (so_window _ Hok); cbn [length]; lia|].
  intros n. hstep. set (buf := [MESSAGE_SYNC] ++ _). eapply wp_conseq; [apply wp_do_write|]. intros [] sq1 Hw.
  pose proof (written_ok _ _ _ Hok Hw) as Hok1. pose proof (written_wrote _ _ _ Hw) as Hw'.
  destruct Hw as (calls & ws & Heq & _). do 5 hstep.
  destruct (lookup_lt_is_Some_2 (pr_timers (sq_pr sq1)) 0) as [t Ht]; [rewrite (so_timers _ Hok1); lia|].
  eapply wp_deref_eq; [exact Ht|].
  destruct (deq t PR_NOW); repeat hstep; (split; [keep_ok Hok1|]); subst sq1; constructor; try done; exact Hw'.
Qed.
End spec.
