(* ===== verification/SerialqueueRecv.v ===== *)
(** * Acknowledgements and input of serialqueue.c

    [handle_message] recovers the full sequence number from the four bits of a message, drops
    exactly the blocks it acknowledges, and queues the message and the notifications. *)

From S2P Require Import Prelude State Vlq Crc Command CommandSpec Double Msgblock MsgblockSpec StepCompress.
From S2P Require Import BisectSpec Pollreactor PollreactorSpec Serialqueue SerialqueueSpec SerialqueueInv.
From S2P Require Import SerialqueueSend.

(** ** Sequence numbers *)

(** The number that [handle_message] computes. *)
Definition ack_seq (receive_seq seq_byte : Z) : Z :=
  let rseq := handle_rseq receive_seq seq_byte in
  if rseq <? receive_seq then u64 (rseq + (MESSAGE_SEQ_MASK + 1)) else rseq.

Lemma handle_rseq_eq r b : 0 ≤ r → 0 ≤ b → handle_rseq r b = 16 * (r / 16) + b mod 16.
Proof.
  intros Hr Hb. unfold handle_rseq, MESSAGE_SEQ_MASK. change 0x0f with (Z.ones 4).
  rewrite (Z.land_ones b) by lia. change (2 ^ 4) with 16.
  replace (Z.land r (Z.lnot (Z.ones 4))) with (16 * (r / 16)).
  - pose proof (Z.mod_pos_bound b 16 ltac:(lia)) as Hm.
    pose proof (lor_disjoint (r / 16) (b mod 16) 4 ltac:(lia) Hm) as E.
    rewrite Z.shiftl_mul_pow2 in E by lia. change (2 ^ 4) with 16 in E. by rewrite (Z.mul_comm 16).
  - rewrite <- Z.ldiff_land. rewrite Z.ldiff_ones_r by lia.
    rewrite Z.shiftr_div_pow2, Z.shiftl_mul_pow2 by lia. change (2 ^ 4) with 16. lia.
Qed.

(** The first number not below [receive_seq] with the four bits of the byte. *)
Lemma ack_seq_spec r b :
  0 ≤ r < 2 ^ 63 → 0 ≤ b → r ≤ ack_seq r b < r + 16 ∧ ack_seq r b mod 16 = b mod 16.
Proof.
  intros Hr Hb. unfold ack_seq. rewrite handle_rseq_eq by lia. unfold MESSAGE_SEQ_MASK.
  pose proof (Z.mod_pos_bound b 16 ltac:(lia)) as Hm. pose proof (Z.div_mod r 16 ltac:(lia)) as Hd.
  pose proof (Z.mod_pos_bound r 16 ltac:(lia)) as Hmr.
  destruct (Z.ltb_spec (16 * (r / 16) + b mod 16) r) as [Hlt|Hge].
  - rewrite u64_small by lia. split; [lia|].
    replace (16 * (r / 16) + b mod 16 + (15 + 1)) with (b mod 16 + (r / 16 + 1) * 16) by lia.
    rewrite Z.mod_add, Z.mod_mod by lia. done.
  - split; [lia|]. rewrite Z.add_comm, Z.mul_comm, Z.mod_add, Z.mod_mod by lia. done.
Qed.
Lemma ack_seq_unique r b a :
  0 ≤ r < 2 ^ 63 → 0 ≤ b → r ≤ a < r + 16 → a mod 16 = b mod 16 → ack_seq r b = a.
Proof.
  intros Hr Hb Ha Hm. destruct (ack_seq_spec r b Hr Hb) as [Hs Hsm]. rewrite <- Hm in Hsm.
  set (x := ack_seq r b) in *. clearbody x. clear - Hs Ha Hsm.
  pose proof (Z.div_mod x 16 ltac:(lia)). pose proof (Z.div_mod a 16 ltac:(lia)). lia.
Qed.

Section spec.
Context `{OS : HostOS}.

(** ** Acknowledged blocks *)

(** The fields that [update_receive_seq] does not touch. *)
Definition sender_part (sq : serialqueue) :=
  (sq_cqs sq, sq_pending_queues sq, sq_ready_bytes sq, sq_upcoming_bytes sq, sq_notify_queue sq,
   sq_wire sq, sq_calls sq, sq_fd_type sq, sq_client_id sq).
Definition receiver_part (sq : serialqueue) :=
  (sq_receive_queue sq, sq_receive_waiting sq, sq_fast_readers sq, sq_old_receive sq, sq_input sq,
   sq_need_sync sq, sq_last_ack_seq sq, sq_ignore_nak_seq sq, sq_retransmit_seq sq).

(** The blocks below [rseq] are acknowledged; a number that was never sent starts a new
    connection. *)
Record acked (sq : serialqueue) (rseq : Z) (sq' : serialqueue) : Prop := {
  ak_receive : sq_receive_seq sq' = rseq;
  ak_send : sq_send_seq sq' = Z.max (sq_send_seq sq) rseq;
  ak_sent : sq_sent_queue sq' = drop (Z.to_nat (rseq - sq_receive_seq sq)) (sq_sent_queue sq);
  ak_need : sq_need_ack_bytes sq' = msgs_len (sq_sent_queue sq');
  ak_sender : sender_part sq' = sender_part sq;
  ak_receiver : receiver_part sq' = receiver_part sq;
  ak_timers : pr_moves (sq_pr sq) (sq_pr sq') }.

Definition old_ok (old : list message) : Prop :=
  length old = DEBUG_QUEUE_SENT ∧ Forall (λ m, m_len m ≠ 0 → has_times m) old.

Lemma wp_ack_loop sent rseq sent_seq sq :
  sent_blocks sent_seq sent → sq_sent_queue sq = sent → sq_need_ack_bytes sq = msgs_len sent →
  old_ok (sq_old_sent sq) → sq_send_seq sq = sent_seq + Z.of_nat (length sent) →
  (length sent ≤ 12)%nat → 0 ≤ sent_seq < rseq → rseq < 2 ^ 63 →
  wp (ack_loop sent rseq sent_seq) sq (λ _ sq', ∃ st lab old, old_ok old ∧
      sq' = sq <| sq_send_seq := Z.max (sq_send_seq sq) rseq |>
               <| sq_last_receive_sent_time := st |>
               <| sq_sent_queue := drop (Z.to_nat (rseq - sent_seq)) sent |>
               <| sq_need_ack_bytes := msgs_len (drop (Z.to_nat (rseq - sent_seq)) sent) |>
               <| sq_last_ack_bytes := lab |> <| sq_old_sent := old |>) no_shut.
Proof.
  revert sent_seq sq. induction sent as [|m sent IH]; intros sent_seq sq Hs Hq Hna Hold Hss Hlen Hseq Hb; cbn [ack_loop].
  { hstep. exists (dint 0), (sq_last_ack_bytes sq), (sq_old_sent sq). split; [done|].
    rewrite drop_nil. cbn in Hss. rewrite Z.max_r by lia. destruct sq; cbn in *; by subst. }
  pose proof (sent_blocks_len _ _ Hs) as Hml. apply sent_blocks_cons in Hs as [Hm Hs].
  pose proof (sent_blocks_len _ _ Hs) as Hml'. pose proof (is_block_len _ _ Hm) as Hm5.
  change (msgs_len (m :: sent)) with (m_len m + msgs_len sent) in *. cbn [length] in *.
  destruct (ib_times _ _ Hm) as (t1 & t2 & Hu).
  do 3 hstep. apply wp_int32; [lia|]. do 2 hstep.
  pose proof (debug_queue_ok DEBUG_QUEUE_SENT _ m ltac:(unfold DEBUG_QUEUE_SENT; lia) Hold ltac:(by eexists _, _)) as Hold'.
  rewrite u64_small by lia. destruct (Z.eqb_spec rseq (sent_seq + 1)) as [Heq|Hne].
  - hstep. eapply wp_deref_eq; [by unfold m_receive_time; rewrite Hu|]. hstep.
    exists t2, (m_len m), (debug_queue_add (sq_old_sent sq) m). split; [done|].
    replace (Z.to_nat (rseq - sent_seq)) with 1%nat by lia. change (drop 1 (m :: sent)) with sent.
    rewrite Z.max_l, Hna by lia. replace (m_len m + msgs_len sent - m_len m) with (msgs_len sent) by lia.
    by destruct sq.
  - eapply wp_conseq; [apply (IH (sent_seq + 1)); cbn; try done; try lia|].
    intros [] sq' (st & lab & old & Ho & ->). exists st, lab, old. split; [done|].
    replace (Z.to_nat (rseq - sent_seq)) with (S (Z.to_nat (rseq - (sent_seq + 1)))) by lia.
    by destruct sq.
Qed.

Lemma update_rtt_eq eventtime sq :
  ∃ rttvar srtt rto, update_rtt eventtime sq =
    sq <| sq_rttvar := rttvar |> <| sq_srtt := srtt |> <| sq_rto := rto |> <| sq_rtt_sample_seq := 0 |>.
Proof. unfold update_rtt. destruct (if negb _ then _ else _) as [a b]. by eexists _, _, _. Qed.

Lemma acked_ok sq rseq sq' :
  sq_ok sq → sq_receive_seq sq < rseq < 2 ^ 63 → acked sq rseq sq' → old_ok (sq_old_sent sq') →
  length (pr_timers (sq_pr sq')) = 2%nat → sq_ok sq'.
Proof.
  intros Hok Hr [H1 H2 H3 H4 H5 H6 H7] Hold Ht. unfold sender_part, receiver_part in H5, H6. simplify_eq.
  pose proof (so_receive_seq _ Hok). destruct (so_send_seq _ Hok) as [Hss Hb]. pose proof (so_window _ Hok).
  constructor; try done; try congruence.
  - unfold sq_queues_ok. repeat match goal with H : _ sq' = _ sq |- _ => rewrite H end. apply (so_queues _ Hok).
  - lia.
  - rewrite H2, H3, length_drop. lia.
  - rewrite H3, length_drop. lia.
  - intros k m Hk. rewrite H3, lookup_drop in Hk. apply (so_sent _ Hok) in Hk.
    by replace (sq_receive_seq sq' + Z.of_nat k) with
      (sq_receive_seq sq + Z.of_nat (Z.to_nat (sq_receive_seq sq' - sq_receive_seq sq) + k)) by lia.
  - replace (sq_notify_queue sq') with (sq_notify_queue sq) by congruence. apply (so_notify _ Hok).
  - replace (sq_receive_queue sq') with (sq_receive_queue sq) by congruence. apply (so_receive _ Hok).
  - replace (sq_old_receive sq') with (sq_old_receive sq) by congruence. apply (so_old_receive _ Hok).
  - replace (sq_receive_waiting sq') with (sq_receive_waiting sq) by congruence.
    replace (sq_receive_queue sq') with (sq_receive_queue sq) by congruence. apply (so_waiting _ Hok).
  - replace (sq_input sq') with (sq_input sq) by congruence. apply (so_input _ Hok).
Qed.

Lemma wp_update_receive_seq eventtime rseq sq :
  sq_ok sq → sq_receive_seq sq < rseq < 2 ^ 63 →
  wp (update_receive_seq eventtime rseq) sq (λ _ sq', sq_ok sq' ∧ acked sq rseq sq') no_shut.
Proof.
  intros Hok Hr. unfold update_receive_seq. do 3 hstep. destruct (so_send_seq _ Hok) as [Hss Hb].
  pose proof (so_receive_seq _ Hok) as Hr1. pose proof (so_timers _ Hok) as Ht2.
  eapply wp_conseq; [apply wp_ack_loop; [apply (so_sent _ Hok)|done|apply (so_ack _ Hok)|apply (so_old_sent _ Hok)|done|apply (so_window _ Hok)|lia..]|].
  intros [] sq1 (st & lab & old & Hold & Heq).
  assert (∀ sq', acked sq rseq sq' → sq_old_sent sq' = old → length (pr_timers (sq_pr sq')) = 2%nat →
    sq_ok sq' ∧ acked sq rseq sq') as Hgen.
  { intros sq' Ha Ho Ht. split; [|done]. eapply acked_ok; try done. by rewrite Ho. }
  do 2 hstep. unfold set_timer. do 2 hstep. do 2 hstep.
  apply wp_bind. apply wp_when; intros _; [apply wp_hmodify|].
  - match goal with |- context [update_rtt eventtime ?s] =>
      destruct (update_rtt_eq eventtime s) as (rttvar & srtt & rto & ->) end.
    do 2 hstep. match goal with |- context [match ?l with [] => _ | _ :: _ => _ end] => destruct l end;
      apply wp_hmodify; apply Hgen; subst sq1; try done;
      first [by cbn; rewrite !length_insert | constructor; try done; cbn; etrans; apply update_timer_moves].
  - do 2 hstep. match goal with |- context [match ?l with [] => _ | _ :: _ => _ end] => destruct l end;
      apply wp_hmodify; apply Hgen; subst sq1; try done;
      first [by cbn; rewrite !length_insert | constructor; try done; cbn; etrans; apply update_timer_moves].
Qed.

(** ** Notifications *)

(** The number of the block that a notification waits for. *)
Definition notify_seq (m : message) : Z := default 0 (m_req_clock m).
(** What the caller of [serialqueue_pull] gets for it. *)
Definition completion (sent_time eventtime : double) (m : message) : message :=
  mk_msg (mk_qm 0 (qm_msg (m_qm m))) (Times sent_time eventtime) (m_notify_id m).

Lemma wp_notify_loop notify wake_seq eventtime must_wake sq :
  Forall has_clocks notify → sq_notify_queue sq = notify →
  wp (notify_loop notify wake_seq eventtime must_wake) sq
    (λ r sq', ∃ l rest, notify = l ++ rest ∧ Forall (λ m, notify_seq m ≤ wake_seq) l ∧
       (∀ m, head rest = Some m → wake_seq < notify_seq m) ∧ r = must_wake || negb (bool_decide (l = [])) ∧
       sq' = sq <| sq_notify_queue := rest |>
                <| sq_receive_queue := sq_receive_queue sq ++
                     (completion (sq_last_receive_sent_time sq) eventtime <$> l) |>) no_shut.
Proof.
  intros Hc. revert must_wake sq. induction Hc as [|m notify (c1 & c2 & Hu) Hc IH]; intros must_wake sq Hn; cbn [notify_loop].
  { hstep. exists [], []. split_and!; try done; try (by destruct must_wake). rewrite app_nil_r. destruct sq; cbn in *; by subst. }
  hstep. eapply (wp_deref_eq _ c2); [by unfold m_req_clock; rewrite Hu|].
  assert (notify_seq m = c2) as Hs by (unfold notify_seq, m_req_clock; by rewrite Hu).
  destruct (Z.ltb_spec wake_seq c2) as [Hlt|Hge].
  - hstep. exists [], (m :: notify). split_and!; try done; try (by destruct must_wake).
    + intros m' [= <-]. lia.
    + rewrite app_nil_r. destruct sq; cbn in *; by subst.
  - do 2 hstep. eapply wp_conseq; [by apply IH|]. intros r sq' (l & rest & -> & Hl & Hrest & -> & Heq).
    exists (m :: l), rest. split_and!; [done|constructor; [lia|done]|done|by destruct must_wake|].
    rewrite Heq. cbn. rewrite <- app_assoc. by destruct sq.
Qed.

(** ** A message *)

Lemma wp_process_message rseq len must_wake sq :
  5 ≤ len ≤ 64 → len ≤ Z.of_nat (length (sq_input sq)) →
  wp (process_message rseq len must_wake) sq
    (λ r sq', ∃ pr la calls extra, r = must_wake || negb (len =? 5) ∧
       pr_moves (sq_pr sq) pr ∧ Forall has_times extra ∧
       m_bytes <$> extra = (if len =? 5 then [] else [take (Z.to_nat len) (sq_input sq)]) ∧
       la = (if len =? 5 then Z.max (sq_last_ack_seq sq) rseq else sq_last_ack_seq sq) ∧
       sq' = sq <| sq_pr := pr |> <| sq_last_ack_seq := la |> <| sq_calls := calls |>
                <| sq_receive_queue := sq_receive_queue sq ++ extra |>) no_shut.
Proof.
  intros Hlen Hin. unfold process_message, MESSAGE_MIN. do 2 hstep. destruct (Z.eqb_spec len 5) as [->|Hne].
  - hstep. destruct (Z.ltb_spec (sq_last_ack_seq sq) rseq) as [Hlt|Hge];
      [|destruct (_ && _)]; unfold set_timer; repeat hstep.
    + exists (sq_pr sq), rseq, (sq_calls sq), []. rewrite app_nil_r, orb_false_r. split_and!; try done; try lia; by destruct sq.
    + exists (pollreactor_update_timer (sq_pr sq) SQPT_RETRANSMIT PR_NOW), (sq_last_ack_seq sq), (sq_calls sq), [].
      rewrite app_nil_r, orb_false_r. split_and!; try done; try apply update_timer_moves; lia.
    + exists (sq_pr sq), (sq_last_ack_seq sq), (sq_calls sq), [].
      rewrite app_nil_r, orb_false_r. split_and!; try done; try lia; by destruct sq.
  - destruct (message_fill_block (take (Z.to_nat len) (sq_input sq))) as (qm & Hqm & Hql & Hqb).
    { rewrite length_take. lia. }
    hstep. eapply wp_deref_eq; [exact Hqm|]. unfold get_monotonic. repeat hstep.
    eexists (sq_pr sq), (sq_last_ack_seq sq), (S (sq_calls sq)), [mk_msg qm _ 0].
    split_and!; try done.
    + by destruct must_wake.
    + constructor; [by eexists _, _|done].
    + cbn [fmap list_fmap]. unfold m_bytes, m_len. cbn [m_qm]. rewrite Hql, Nat2Z.id, Hqb. done.
Qed.

(** The fields that receiving a message leaves alone. *)
Definition untouched (sq : serialqueue) :=
  (sq_cqs sq, sq_pending_queues sq, sq_ready_bytes sq, sq_upcoming_bytes sq, sq_wire sq, sq_fd_type sq,
   sq_client_id sq, sq_fast_readers sq, sq_input sq, sq_ignore_nak_seq sq, sq_retransmit_seq sq).

(** The last block that a message proves done: an acknowledgement proves all blocks below its
    number, a response one less, because it is sent before the acknowledgement of the block
    that it answers. *)
Definition done_limit (rseq len : Z) : Z := rseq - 1 - (if MESSAGE_MIN <? len then 1 else 0).
(** The exception: a response with number 1 proves nothing, but the limit is computed unsigned. *)
Definition limit_wraps (rseq len : Z) : bool := (rseq =? 1) && (MESSAGE_MIN <? len).

Lemma wake_seq_limit rseq len :
  1 ≤ rseq < 2 ^ 63 →
  u64 (rseq - 1 - (if MESSAGE_MIN <? len then 1 else 0)) = if limit_wraps rseq len then 2 ^ 64 - 1 else done_limit rseq len.
Proof.
  intros Hr. unfold limit_wraps, done_limit. destruct (Z.eqb_spec rseq 1) as [->|]; destruct (MESSAGE_MIN <? len); try done;
    cbn [andb]; apply Z.mod_small; lia.
Qed.

(** A message with [len] bytes and the sequence number [rseq] is accepted. *)
Record accepted (sq : serialqueue) (eventtime : double) (rseq len : Z) (sq' : serialqueue) : Prop := {
  ac_receive : sq_receive_seq sq' = rseq;
  ac_send : sq_send_seq sq' = Z.max (sq_send_seq sq) rseq;
  ac_sent : sq_sent_queue sq' = drop (Z.to_nat (rseq - sq_receive_seq sq)) (sq_sent_queue sq);
  ac_ack : sq_last_ack_seq sq' =
    if len =? MESSAGE_MIN then Z.max (sq_last_ack_seq sq) rseq else sq_last_ack_seq sq;
  ac_notify : ∃ l rest st extra, sq_notify_queue sq = l ++ rest ∧ sq_notify_queue sq' = rest ∧
    (if limit_wraps rseq len then ∀ m, head rest = Some m → 2 ^ 64 ≤ notify_seq m
     else Forall (λ m, notify_seq m ≤ done_limit rseq len) l ∧
          ∀ m, head rest = Some m → done_limit rseq len < notify_seq m) ∧
    sq_receive_queue sq' = sq_receive_queue sq ++ (completion st eventtime <$> l) ++ extra ∧
    m_bytes <$> extra = (if len =? MESSAGE_MIN then [] else [take (Z.to_nat len) (sq_input sq)]);
  ac_untouched : untouched sq' = untouched sq ∧ sq_need_sync sq' = sq_need_sync sq;
  ac_timers : pr_moves (sq_pr sq) (sq_pr sq') }.

(** An acknowledgement of something that was never sent, except at the start. *)
Definition invalid_ack (sq : serialqueue) (rseq : Z) : bool :=
  negb (rseq =? sq_receive_seq sq) && (sq_send_seq sq <? rseq) && negb (sq_receive_seq sq =? 1).

Lemma wp_handle_message eventtime len b sq :
  sq_ok sq → 5 ≤ len ≤ 64 → len ≤ Z.of_nat (length (sq_input sq)) → sq_input sq !! 1%nat = Some b →
  let rseq := ack_seq (sq_receive_seq sq) b in
  wp (handle_message eventtime len) sq
    (λ r sq', sq_ok sq' ∧
       if invalid_ack sq rseq then ∃ n, r = None ∧ sq' = sq <| sq_bytes_invalid := n |>
       else r = find_fastreader (sq_fast_readers sq) (sq_input sq) len ∧
            accepted sq eventtime rseq len sq') no_shut.
Proof.
  intros Hok Hlen Hin Hb rseq. unfold handle_message. do 3 hstep.
  eapply wp_deref_eq; [exact Hb|]. fold (ack_seq (sq_receive_seq sq) b). fold rseq.
  fold (invalid_ack sq rseq).
  pose proof (so_receive_seq _ Hok) as Hr1. destruct (so_send_seq _ Hok) as [Hss Hbd].
  assert (is_byte b) as Hbb by (eapply Forall_lookup_1; [apply (so_input _ Hok)|exact Hb]).
  destruct (ack_seq_spec (sq_receive_seq sq) b ltac:(lia) ltac:(unfold is_byte in Hbb; lia)) as [Hrs _]. fold rseq in Hrs.
  destruct (invalid_ack sq rseq) eqn:Hinv.
  { do 3 hstep. split; [keep_ok Hok|]. by eexists. }
  hstep.
  assert (rseq < 2 ^ 63) as Hrb.
  { unfold invalid_ack in Hinv. destruct (Z.eqb_spec rseq (sq_receive_seq sq)); [lia|]. cbn in Hinv.
    destruct (Z.ltb_spec (sq_send_seq sq) rseq); [|lia]. cbn in Hinv.
    apply negb_false_iff, Z.eqb_eq in Hinv. lia. }
  eapply (wp_conseq _ _ (λ _ sq1, sq_ok sq1 ∧ acked sq rseq sq1)).
  { apply wp_when; intros Hne.
    - apply wp_update_receive_seq; [done|]. apply negb_true_iff, Z.eqb_neq in Hne. lia.
    - apply negb_false_iff, Z.eqb_eq in Hne. split; [done|].
      constructor; try done; [lia|by rewrite Hne, Z.sub_diag, drop_0|apply (so_ack _ Hok)]. }
  intros [] sq1 [Hok1 Hak]. do 4 hstep. hstep. rewrite wake_seq_limit by lia.
  destruct Hak as [K1 K2 K3 K4 K5 K6 K7]. unfold sender_part, receiver_part in K5, K6. injection K5 as ? ? ? ? ? ? ? ? ?.
  injection K6 as ? ? ? ? ? ? ? ? ?.
  eapply wp_conseq; [apply wp_notify_loop; [apply (so_notify _ Hok1)|done]|].
  intros mw sq2 (l & rest & Hl & Hl1 & Hl2 & -> & Heq2). hstep.
  eapply wp_conseq; [apply wp_process_message; [done|subst sq2; cbn; congruence]|].
  intros mw2 sq3 (pr & la & calls & extra & -> & Hpr & Hex & Hexb & Hla & Heq3).
  set (mw := (false || negb (bool_decide (l = []))) || negb (len =? 5)).
  hstep. eapply (wp_conseq _ _ (λ _ sq4, sq4 = sq3 <| sq_receive_waiting := if mw then false else sq_receive_waiting sq3 |>)).
  { apply wp_when; intros ->.
    - apply wp_hmodify. destruct sq3 as [? ? ? ? ? []]; done.
    - by destruct sq3. }
  intros [] sq4 Heq4. do 3 hstep. subst sq4 sq3 sq2. split.
  - keep_ok Hok1; cbn.
    + pose proof (so_notify _ Hok1) as Hn. cbn in Hl. rewrite Hl in Hn. by apply Forall_app in Hn as [_ ?].
    + apply Forall_app. split; [apply Forall_app; split; [apply (so_receive _ Hok1)|]|done].
      apply Forall_fmap, Forall_true. intros m. by eexists _, _.
    + unfold mw. intros Hw. destruct (negb (bool_decide (l = []))) eqn:Hl0; [done|]. cbn in Hw.
      apply negb_false_iff, bool_decide_eq_true in Hl0. subst l.
      destruct (len =? 5) eqn:Hl5; [|done]. cbn in Hw. apply (so_waiting _ Hok1) in Hw.
      destruct extra; [|done]. by rewrite Hw.
    + rewrite (pm_length _ _ Hpr). apply (so_timers _ Hok1).
  - split.
    { change (find_fastreader (sq_fast_readers sq1) (sq_input sq1) len =
              find_fastreader (sq_fast_readers sq) (sq_input sq) len). congruence. }
    constructor; cbn; try congruence.
    + rewrite Hla. cbn. unfold MESSAGE_MIN. destruct (len =? 5); congruence.
    + eexists l, rest, _, extra. cbn in Hl. split_and!; try done; try congruence.
      * destruct (limit_wraps rseq len); [|done]. intros m Hm. specialize (Hl2 m Hm). lia.
      * rewrite app_assoc. f_equal. f_equal. done.
      * rewrite Hexb. cbn. unfold MESSAGE_MIN. destruct (len =? 5); congruence.
    + unfold untouched. cbn. split; congruence.
    + cbn. etrans; [exact K7|exact Hpr].
Qed.
End spec.
