(* ===== verification/SerialqueueOps.v ===== *)
(** * Every operation of serialqueue.c keeps the invariant and returns

    Input of arbitrary bytes, the two timers, and the functions of the interface. *)

From S2P Require Import Prelude State Vlq Crc Command CommandSpec Double Msgblock StepCompress Pollreactor.
From S2P Require Import Serialqueue MsgblockSpec BisectSpec PollreactorSpec SerialqueueSpec SerialqueueInv.
From S2P Require Import SerialqueueSend SerialqueueRecv.

Section spec.
Context `{OS : HostOS}.

(** ** Input *)

(** The callbacks of the fastreaders keep the invariant and leave the input alone. *)
Definition callbacks_ok (call : fastreader → list Z → Z → SQ unit) : Prop :=
  ∀ fr buf len sq, sq_ok sq → wp (call fr buf len) sq
    (λ _ sq', sq_ok sq' ∧ sq_input sq' = sq_input sq ∧ pr_moves (sq_pr sq) (sq_pr sq')) no_shut.

(** A round takes at least one byte off the input, or needs more than it has. *)
Lemma wp_input_round eventtime sq :
  sq_ok sq →
  wp (input_round eventtime) sq
    (λ r sq', sq_ok sq' ∧ sq_input sq' = sq_input sq ∧ pr_moves (sq_pr sq) (sq_pr sq') ∧
       match r with
       | None => (length (sq_input sq) < 64)%nat
       | Some (len, _) => 0 < len ≤ Z.of_nat (length (sq_input sq))
       end) no_shut.
Proof.
  intros Hok. unfold input_round. do 3 hstep.
  destruct (msgblock_check_sound (sq_input sq) (sq_need_sync sq) (so_input _ Hok)) as (ret & ns & Hck & Hcase).
  eapply wp_deref_eq; [exact Hck|]. cbn beta iota. do 2 hstep.
  set (sq1 := sq <| sq_need_sync := ns |>). assert (sq_ok sq1) as Hok1 by (keep_ok Hok).
  destruct Hcase as [(-> & _ & Hl) | [(Hret & _ & seq & Hseq & payload & Hp & Hp59 & Hfr) | (Hret & Hre)]].
  - cbn [Z.eqb]. hstep. split; [done|]. split; [done|]. split; [reflexivity|lia].
  - rewrite (proj2 (Z.eqb_neq ret 0)), (proj2 (Z.ltb_lt 0 ret)) by lia.
    assert (Z.to_nat ret ≤ length (sq_input sq))%nat as Hle.
    { apply (f_equal length) in Hfr. rewrite frame_length in Hfr by done. rewrite length_take in Hfr. lia. }
    destruct (lookup_lt_is_Some_2 (sq_input sq) 1) as [b Hb]; [lia|].
    hstep. eapply wp_conseq; [apply (wp_handle_message _ _ b); [done|lia|cbn; lia|done]|].
    intros fr sq2 [Hok2 Hres]. hstep. split; [done|].
    destruct (invalid_ack sq1 _).
    + destruct Hres as (n & _ & ->). split; [done|]. split; [reflexivity|lia].
    + destruct Hres as [_ [_ _ _ _ _ [Hu _] Hm]]. unfold untouched in Hu. injection Hu as ? ? ? ? ? ? ? ? Hi ? ?.
      split; [exact Hi|]. split; [exact Hm|lia].
  - rewrite (proj2 (Z.eqb_neq ret 0)), (proj2 (Z.ltb_ge 0 ret)) by lia. do 3 hstep.
    split; [keep_ok Hok1|]. split; [done|]. split; [reflexivity|]. destruct Hre as (d & rest & Hbuf & Hr & _). rewrite Hbuf, length_app. lia.
Qed.

Lemma wp_input_loop call fuel eventtime sq :
  callbacks_ok call → sq_ok sq → (length (sq_input sq) < fuel)%nat →
  wp (input_loop (λ A m, m) call fuel eventtime) sq
    (λ _ sq', sq_ok sq' ∧ (length (sq_input sq') < 64)%nat ∧ pr_moves (sq_pr sq) (sq_pr sq')) no_shut.
Proof.
  intros Hcall. revert sq. induction fuel as [|fuel IH]; intros sq Hok Hf; [lia|]. cbn [input_loop]. hstep.
  eapply wp_conseq; [by apply wp_input_round|]. intros [[len fr]|] sq1 (Hok1 & Hin & Hm1 & Hr).
  2:{ hstep. split; [done|]. by rewrite Hin. }
  do 3 hstep.
  eapply (wp_conseq _ _ (λ _ sq2, sq_ok sq2 ∧ sq_input sq2 = sq_input sq1 ∧ pr_moves (sq_pr sq1) (sq_pr sq2))).
  { destruct fr; [by apply Hcall|hstep; split_and!; by try reflexivity]. }
  intros [] sq2 (Hok2 & Hin2 & Hm2). unfold consume_input. do 2 hstep. eapply wp_conseq; [apply IH|].
  - keep_ok Hok2. cbn. apply Forall_drop, (so_input _ Hok2).
  - cbn. rewrite length_drop, Hin2, Hin. lia.
  - intros [] sq3 (Hok3 & Hl3 & Hm3). split_and!; [done..|]. etrans; [exact Hm1|]. etrans; [exact Hm2|exact Hm3].
Qed.

(** What the system calls deliver: bytes, at most eight of them in a CAN frame. *)
Definition read_ok (r : read_result) : Prop :=
  match r with
  | ReadError => True
  | ReadData data => Forall is_byte data
  | ReadCan _ data => Forall is_byte data ∧ (length data ≤ 8)%nat
  end.

Lemma wp_input_event call r eventtime sq :
  callbacks_ok call → read_ok r → sq_ok sq → (length (sq_input sq) < 64)%nat →
  wp (input_event (λ A m, m) call r eventtime) sq
    (λ _ sq', sq_ok sq' ∧ (length (sq_input sq') < 64)%nat ∧ pr_moves (sq_pr sq) (sq_pr sq')) no_shut.
Proof.
  intros Hcall Hr Hok Hl. unfold input_event. hstep.
  eapply (wp_conseq _ _ (λ b sq1, sq_ok sq1 ∧ (b = false → (length (sq_input sq1) < 64)%nat) ∧
    pr_moves (sq_pr sq) (sq_pr sq1))).
  - unfold read_input. do 2 hstep. destruct r as [|[|b data]|can_id data]; cbn in Hr.
    + do 3 hstep. split; [keep_ok Hok|]. split; [done|apply exit_moves].
    + do 3 hstep. split; [keep_ok Hok|]. split; [done|apply exit_moves].
    + do 3 hstep. split; [keep_ok Hok|split; [done|reflexivity]].
      apply Forall_app. split; [apply (so_input _ Hok)|done].
    + destruct (negb _); [hstep; split; [done|]; split; [done|reflexivity]|]. unfold INPUT_BUF_SIZE.
      rewrite (proj2 (Z.ltb_ge _ _)) by lia. do 3 hstep. split; [keep_ok Hok|split; [done|reflexivity]].
      apply Forall_app. split; [apply (so_input _ Hok)|apply Hr].
  - intros [] sq1 (Hok1 & Hl1 & Hm1); [|hstep; split_and!; by auto]. do 2 hstep.
    eapply wp_conseq; [apply wp_input_loop; [done..|lia]|].
    intros [] sq2 (Hok2 & Hl2 & Hm2). split_and!; [done..|]. by etrans.
Qed.

(** ** Sending *)

(** A batch with its [min_clock]s set; the rest of the messages is as before. *)
Definition same_message (m m' : message) : Prop :=
  m_qm m' = m_qm m ∧ m_notify_id m' = m_notify_id m ∧ m_req_clock m' = m_req_clock m.

Lemma wp_prepare_batch msgs len sq :
  Forall msg_ok msgs → 0 ≤ len → len + msgs_len msgs < 2147483648 →
  wp (prepare_batch msgs len) sq
    (λ r sq', sq' = sq ∧ r.2 = len + msgs_len msgs ∧ Forall msg_ok r.1 ∧ Forall2 same_message msgs r.1) no_shut.
Proof.
  intros Hm. revert len. induction Hm as [|m msgs Hmo Hm IH]; intros len Hl Hb; cbn [prepare_batch].
  { hstep. split; [done|]. split; [unfold msgs_len; cbn; lia|]. by split. }
  change (msgs_len (m :: msgs)) with (m_len m + msgs_len msgs) in *. pose proof (msgs_len_nonneg _ Hm).
  pose proof Hmo as [Hlen H64 (mc & rc & Hu & Hrc)]. unfold MESSAGE_PAYLOAD_MAX, MESSAGE_MAX, MESSAGE_MIN in Hlen.
  hstep. eapply (wp_deref_eq _ mc); [by unfold m_min_clock; rewrite Hu|].
  hstep. eapply (wp_deref_eq _ rc); [by unfold m_req_clock; rewrite Hu|].
  hstep. apply wp_int32; [lia|]. hstep. eapply wp_conseq; [apply IH; lia|].
  intros [msgs' len'] sq' (-> & Hlen' & Hok' & H2). cbn [fst snd] in *. hstep. split; [done|]. cbn [fst snd].
  split; [lia|]. split.
  - constructor; [|done]. split; [done|done|]. by eexists _, _.
  - constructor; [|done]. split; [done|]. split; [done|]. unfold m_req_clock. cbn. by rewrite Hu.
Qed.

Lemma queues_ok_append cqs pending rb ub q cq msgs :
  queues_ok cqs pending rb ub → cqs !! q = Some cq → Forall msg_ok msgs → msgs ≠ [] →
  rb + ub + msgs_len msgs < 2147483648 →
  queues_ok (<[q := cq <| cq_upcoming := cq_upcoming cq ++ msgs |>]> cqs)
    (if cq_is_empty cq then pending ++ [q] else pending) rb (ub + msgs_len msgs).
Proof.
  intros Hok Hcq Hm Hne Hb. set (cq' := cq <| cq_upcoming := cq_upcoming cq ++ msgs |>).
  assert (Forall msg_ok (cq_ready cq' ++ cq_upcoming cq')) as Hm'.
  { cbn. rewrite app_assoc. apply Forall_app. split; [by eapply (qo_msgs _ _ _ _ Hok)|done]. }
  assert (cq_is_empty cq' = false) as He'.
  { unfold cq_is_empty, cq'. cbn. destruct (cq_ready cq); [|done]. by destruct (cq_upcoming cq), msgs. }
  destruct (cq_is_empty cq) eqn:He.
  - assert (cq = mk_cq [] []) as -> by (by destruct cq as [[] []]).
    assert (q ∉ pending) as Hq by (rewrite (qo_live _ _ _ _ Hok q _ Hcq); by intros [=]).
    destruct Hok as [Hnd Hk Hl Hms Hr Hu Hi].
    assert (∀ f, collect f (<[q := cq']> cqs) (pending ++ [q]) = collect f cqs pending ++ f cq') as Hc.
    { intros f. unfold collect. rewrite flat_map_app. f_equal; [by apply collect_insert_other|].
      cbn. by rewrite lookup_insert_eq, app_nil_r. }
    constructor.
    + apply NoDup_app. split; [done|]. split; [|apply NoDup_singleton]. set_solver.
    + intros i. destruct (decide (i = q)) as [->|]; [rewrite lookup_insert_eq; eauto|].
      rewrite lookup_insert_ne by done. intros [|?%list_elem_of_singleton]%elem_of_app; [by apply Hk|done].
    + intros i ci. rewrite elem_of_app, list_elem_of_singleton. destruct (decide (i = q)) as [->|].
      * rewrite lookup_insert_eq. intros [= <-]. rewrite He'. naive_solver.
      * rewrite lookup_insert_ne by done. intros Hci. rewrite <- (Hl i ci Hci). naive_solver.
    + intros i ci. destruct (decide (i = q)) as [->|]; [rewrite lookup_insert_eq; by intros [= <-]|].
      rewrite lookup_insert_ne by done. apply Hms.
    + rewrite Hc, msgs_len_app. unfold cq'. cbn. rewrite Hr. change (msgs_len []) with 0. lia.
    + rewrite Hc, msgs_len_app. unfold cq'. cbn. rewrite Hu. lia.
    + lia.
  - assert (q ∈ pending) as Hq by (by apply (qo_live _ _ _ _ Hok q _ Hcq)).
    pose proof (queues_ok_update _ _ _ _ q cq cq' rb (ub + msgs_len msgs) Hok Hq Hcq Hm') as H.
    rewrite He' in H. apply H; unfold cq'; cbn; rewrite ?msgs_len_app; lia.
Qed.

(** What a send leaves: the messages at the end of their queue. *)
Definition enqueued (sq : serialqueue) (q : Z) (msgs : list message) (sq' : serialqueue) : Prop :=
  waiting_of sq' q = waiting_of sq q ++ msgs ∧ (∀ q', q' ≠ q → waiting_of sq' q' = waiting_of sq q') ∧
  ∃ cqs pending ub nk pipe, sq' = sq <| sq_cqs := cqs |> <| sq_pending_queues := pending |>
    <| sq_upcoming_bytes := ub |> <| sq_need_kick_clock := nk |> <| sq_pipe := pipe |>.

Lemma wp_send_batch q msgs cq sq :
  sq_ok sq → sq_cqs sq !! q = Some cq → Forall msg_ok msgs → msgs_len msgs ≠ 0 →
  sq_ready_bytes sq + sq_upcoming_bytes sq + msgs_len msgs < 2147483648 →
  wp (serialqueue_send_batch q msgs) sq
    (λ _ sq', sq_ok sq' ∧ ∃ msgs', Forall2 same_message msgs msgs' ∧ enqueued sq q msgs' sq') no_shut.
Proof.
  intros Hok Hcq Hm Hne Hb. pose proof (so_queues _ Hok) as Hq. pose proof (ready_nonneg _ _ _ _ Hq) as [Hr0 Hu0].
  unfold serialqueue_send_batch. hstep. eapply wp_conseq; [apply wp_prepare_batch; [done|lia|lia]|].
  intros [msgs' len] sq' (-> & Hlen & Hm' & H2). cbn [fst snd] in *. subst len.
  assert (msgs_len msgs' = msgs_len msgs) as Hl.
  { clear - H2. induction H2 as [|m m' l l' (Hq & _) _ IH]; [done|]. unfold msgs_len, m_len in *. cbn.
    rewrite IH. by rewrite Hq. }
  pose proof (msgs_len_nonneg _ Hm) as Hm0.
  rewrite (proj2 (Z.eqb_neq (0 + msgs_len msgs) 0)), Z.add_0_l by lia.
  destruct msgs' as [|m' rest] eqn:Hms; [by rewrite <- Hl in Hne|]. rewrite <- Hms in *. cbn [head].
  hstep. rewrite Hms. eapply wp_deref_eq; [done|]. rewrite <- Hms.
  assert (msg_ok m') as [_ _ (mc & rc & Hu & _)] by (rewrite Hms in Hm'; by apply Forall_cons in Hm' as [? _]).
  hstep. eapply (wp_deref_eq _ mc); [by unfold m_min_clock; rewrite Hu|].
  do 3 hstep. eapply wp_deref_eq; [exact Hcq|]. hstep. apply wp_int32; [lia|]. do 2 hstep.
  set (sq1 := upd sq_upcoming_bytes _ _).
  assert (sq_ok sq1) as Hok1.
  { keep_ok Hok. unfold sq_queues_ok, sq1. cbn. rewrite <- Hl.
    apply queues_ok_append; try done; [by rewrite Hms|lia]. }
  assert (∀ nk pipe, enqueued sq q msgs' (sq1 <| sq_need_kick_clock := nk |> <| sq_pipe := pipe |>)) as Henq.
  { intros nk pipe. split; [|split].
    - unfold waiting_of, sq1. cbn. rewrite lookup_insert_eq, Hcq. cbn. by rewrite app_assoc.
    - intros q' Hq'. unfold waiting_of, sq1. cbn. by rewrite lookup_insert_ne.
    - by eexists _, _, _, nk, pipe. }
  apply wp_when; intros _.
  - do 2 hstep. unfold kick_bg_thread. hstep. split; [keep_ok Hok1|]. exists msgs'. split; [done|]. apply Henq.
  - split; [done|]. exists msgs'. split; [done|].
    specialize (Henq (sq_need_kick_clock sq) (sq_pipe sq)).
    assert (sq1 <| sq_need_kick_clock := sq_need_kick_clock sq |> <| sq_pipe := sq_pipe sq |> = sq1) as E by done.
    by rewrite E in Henq.
Qed.

(** ** All operations *)

(** What the background thread and the users of the queue do. *)
Inductive sq_op :=
| OpCommand (eventtime : double)
| OpRetransmit (eventtime : double)
| OpTimers (eventtime : double) (busy : bool)
| OpInput (r : read_result) (eventtime : double)
| OpKick (eventtime : double)
| OpSendBatch (q : Z) (msgs : list message)
| OpSend (q : Z) (msg : list Z) (min_clock req_clock notify_id : Z)
| OpPull
| OpAllocQueue (addr : Z)
| OpFreeQueue (addr : Z)
| OpAddReader (fr : fastreader)
| OpRmReader (addr : Z)
| OpSetFrequency (frequency : double)
| OpSetWindow (window : Z)
| OpSetClock (est_freq conv_time : double) (conv_clock last_clock : Z)
| OpExtractOld (sentq : bool) (max : nat)
| OpExit
| OpThreadEnd.

(** The result of an operation is not needed here. *)
Definition ignore {A} (m : SQ A) : SQ unit := let! r := m in mret tt.

Definition run_op (op : sq_op) : SQ unit :=
  match op with
  | OpCommand eventtime => ignore (command_event eventtime)
  | OpRetransmit eventtime => ignore (retransmit_event eventtime)
  | OpTimers eventtime busy =>
      ignore (pollreactor_check_timers sq_pr [retransmit_event; command_event] eventtime busy)
  | OpInput r eventtime => input_event (λ A m, m) (λ _ _ _, mret tt) r eventtime
  | OpKick eventtime => kick_event eventtime
  | OpSendBatch q msgs => serialqueue_send_batch q msgs
  | OpSend q msg min_clock req_clock notify_id => serialqueue_send q msg min_clock req_clock notify_id
  | OpPull => ignore serialqueue_pull
  | OpAllocQueue addr => serialqueue_alloc_commandqueue addr
  | OpFreeQueue addr => ignore (serialqueue_free_commandqueue addr)
  | OpAddReader fr => serialqueue_add_fastreader fr
  | OpRmReader addr => serialqueue_rm_fastreader addr
  | OpSetFrequency frequency => serialqueue_set_wire_frequency frequency
  | OpSetWindow window => serialqueue_set_receive_window window
  | OpSetClock est_freq conv_time conv_clock last_clock =>
      serialqueue_set_clock_est est_freq conv_time conv_clock last_clock
  | OpExtractOld sentq max => ignore (serialqueue_extract_old sentq max)
  | OpExit => serialqueue_exit
  | OpThreadEnd => background_thread_exit
  end.

(** What the environment may do: bytes from the device; messages of at most 59 bytes, with a
    [req_clock] below [MAX_CLOCK], and less than 2 GiB of them; memory that is not in use;
    fewer than 2^62 blocks in the life of a connection. *)
Definition op_ok (sq : serialqueue) (op : sq_op) : Prop :=
  match op with
  | OpCommand _ | OpTimers _ _ => sq_send_seq sq ≤ 2 ^ 62
  | OpInput r _ => read_ok r
  | OpSendBatch q msgs =>
      is_Some (sq_cqs sq !! q) ∧ Forall msg_ok msgs ∧
      sq_ready_bytes sq + sq_upcoming_bytes sq + msgs_len msgs < 2147483648
  | OpSend q msg _ req_clock _ =>
      is_Some (sq_cqs sq !! q) ∧ (length msg ≤ 59)%nat ∧ req_clock < MAX_CLOCK ∧
      sq_ready_bytes sq + sq_upcoming_bytes sq + Z.of_nat (length msg) < 2147483648
  | OpAllocQueue addr => sq_cqs sq !! addr = None
  | OpFreeQueue addr => is_Some (sq_cqs sq !! addr)
  | _ => True
  end.

(** The state of the protocol on the wire. *)
Definition link_part (sq : serialqueue) :=
  (sq_send_seq sq, sq_receive_seq sq, sq_sent_queue sq, sq_input sq, sq_need_sync sq).
(** The operations that neither send nor receive. *)
Definition is_local (op : sq_op) : bool :=
  match op with OpCommand _ | OpRetransmit _ | OpTimers _ _ | OpInput _ _ => false | _ => true end.

Lemma wp_send_any q msgs sq :
  sq_ok sq → is_Some (sq_cqs sq !! q) → Forall msg_ok msgs →
  sq_ready_bytes sq + sq_upcoming_bytes sq + msgs_len msgs < 2147483648 →
  wp (serialqueue_send_batch q msgs) sq (λ _ sq', sq_ok sq' ∧ link_part sq' = link_part sq ∧ pr_moves (sq_pr sq) (sq_pr sq')) no_shut.
Proof.
  intros Hok [cq Hcq] Hm Hb. destruct (decide (msgs_len msgs = 0)) as [H0|Hne].
  - pose proof (ready_nonneg _ _ _ _ (so_queues _ Hok)) as [Hr0 Hu0].
    unfold serialqueue_send_batch. hstep. eapply wp_conseq; [apply wp_prepare_batch; [done|lia|lia]|].
    intros [msgs' len] sq' (-> & Hlen & _). cbn [fst snd] in *. rewrite (proj2 (Z.eqb_eq len 0)) by lia. hstep.
    split_and!; [done..|reflexivity].
  - eapply wp_conseq; [by eapply wp_send_batch|]. intros [] sq' (Hok' & msgs' & _ & _ & _ & ? & ? & ? & ? & ? & ->).
    split_and!; [done..|reflexivity].
Qed.

Lemma filled_ok msg qm min_clock req_clock notify_id :
  (length msg ≤ 59)%nat → req_clock < MAX_CLOCK → message_fill msg = Some qm →
  msg_ok (queued qm min_clock req_clock notify_id) ∧ qm_len qm = Z.of_nat (length msg).
Proof.
  intros Hl Hr Hqm. unfold message_fill, store_bytes in Hqm.
  change (length (qm_msg message_alloc)) with 64%nat in Hqm.
  rewrite (proj2 (Nat.leb_le _ _)) in Hqm by lia. cbn [mbind option_bind] in Hqm. injection Hqm as <-.
  split; [|done]. split; [cbn [m_len queued m_qm qm_len]; unfold MESSAGE_PAYLOAD_MAX, MESSAGE_MAX, MESSAGE_MIN; lia| |by eexists _, _].
  cbn [queued m_qm qm_msg]. rewrite length_app, length_drop. cbn [length]. lia.
Qed.

Lemma extract_old_some l max :
  Forall (λ m, m_len m ≠ 0 → has_times m) l → is_Some (extract_loop l max).
Proof.
  intros H. revert max. induction H as [|m l Hm _ IH]; intros max; cbn [extract_loop]; [eauto|].
  unfold nz. destruct (Z.eqb_spec (m_len m) 0) as [|Hne]; cbn [negb andb]; [apply IH|].
  destruct (0 <? max)%nat; [|apply IH]. destruct (Hm Hne) as (t1 & t2 & ->).
  destruct (IH (max - 1)%nat) as [r ->]. cbn. eauto.
Qed.

(** What a local operation guarantees. *)
Definition quiet (sq sq' : serialqueue) : Prop :=
  sq_ok sq' ∧ link_part sq' = link_part sq ∧ pr_moves (sq_pr sq) (sq_pr sq').
Lemma quiet_intro sq sq' : sq_ok sq' → link_part sq' = link_part sq → sq_pr sq' = sq_pr sq → quiet sq sq'.
Proof. intros H1 H2 H3. unfold quiet. rewrite H3. by split_and!. Qed.
Ltac quiet Hok := apply quiet_intro; [keep_ok Hok|done|done].

Lemma wp_pull sq : sq_ok sq → wp serialqueue_pull sq (λ _ sq', quiet sq sq') no_shut.
Proof.
  intros Hok. unfold serialqueue_pull. do 2 hstep. destruct (sq_receive_queue sq) as [|m rest] eqn:Hr.
  - destruct (pollreactor_is_exit _); repeat hstep; quiet Hok. done.
  - pose proof (so_receive _ Hok) as Hrq. rewrite Hr in Hrq. apply Forall_cons in Hrq as [(t1 & t2 & Hu) Hrest].
    hstep. eapply wp_deref_eq; [by unfold to_pull; rewrite Hu|]. repeat hstep. quiet Hok; cbn.
    + done.
    + destruct (nz _); [|apply (so_old_receive _ Hok)].
      apply debug_queue_ok; [unfold DEBUG_QUEUE_RECEIVE; lia|apply (so_old_receive _ Hok)|by eexists _, _].
    + intros Hw. apply (so_waiting _ Hok) in Hw. congruence.
Qed.

Lemma wp_alloc_commandqueue addr sq :
  sq_ok sq → sq_cqs sq !! addr = None →
  wp (serialqueue_alloc_commandqueue addr) sq (λ _ sq', quiet sq sq') no_shut.
Proof.
  intros Hok Hop. unfold serialqueue_alloc_commandqueue. hstep. quiet Hok.
  destruct (so_queues _ Hok) as [Hnd Hk Hl Hms Hrb Hub Hint]. unfold sq_queues_ok. cbn.
  assert (addr ∉ sq_pending_queues sq) as Hq by (intros Hin; apply Hk in Hin as [? ?]; congruence).
  constructor; rewrite ?collect_insert_other by done; try done.
  - intros i Hin. rewrite lookup_insert_ne by congruence. by apply Hk.
  - intros i ci. destruct (decide (i = addr)) as [->|]; [rewrite lookup_insert_eq; intros [= <-]; cbn; naive_solver|].
    rewrite lookup_insert_ne by done. apply Hl.
  - intros i ci. destruct (decide (i = addr)) as [->|]; [rewrite lookup_insert_eq; by intros [= <-]; constructor|].
    rewrite lookup_insert_ne by done. apply Hms.
Qed.

Lemma wp_free_commandqueue addr sq :
  sq_ok sq → is_Some (sq_cqs sq !! addr) →
  wp (serialqueue_free_commandqueue addr) sq (λ _ sq', quiet sq sq') no_shut.
Proof.
  intros Hok [cq Hcq]. unfold serialqueue_free_commandqueue. do 3 hstep. eapply wp_deref_eq; [done|].
  destruct (cq_is_empty cq) eqn:He; cbn [negb]; repeat hstep; [|quiet Hok]. quiet Hok.
  destruct (so_queues _ Hok) as [Hnd Hk Hl Hms Hrb Hub Hint]. unfold sq_queues_ok. cbn.
  assert (addr ∉ sq_pending_queues sq) as Hq by (rewrite (Hl addr cq Hcq), He; by intros [=]).
  assert (∀ f, collect f (delete addr (sq_cqs sq)) (sq_pending_queues sq) = collect f (sq_cqs sq) (sq_pending_queues sq)) as Hc.
  { intros f. rewrite <- (collect_insert_other f (delete addr (sq_cqs sq)) _ addr cq) by done.
    by rewrite insert_delete_id. }
  constructor; rewrite ?Hc; try done.
  - intros i Hin. rewrite lookup_delete_ne by congruence. by apply Hk.
  - intros i ci [Hne Hci]%lookup_delete_Some. by apply Hl.
  - intros i ci [Hne Hci]%lookup_delete_Some. by eapply Hms.
Qed.

Lemma wp_extract_old sentq max sq :
  sq_ok sq → wp (serialqueue_extract_old sentq max) sq (λ _ sq', quiet sq sq') no_shut.
Proof.
  intros Hok. unfold serialqueue_extract_old. do 4 hstep.
  destruct (extract_old_some (if sentq then sq_old_sent sq else sq_old_receive sq) max) as [r Hr].
  { destruct sentq; [apply (so_old_sent _ Hok)|apply (so_old_receive _ Hok)]. }
  eapply wp_deref_eq; [exact Hr|]. destruct sentq; quiet Hok; apply debug_queue_alloc_ok.
Qed.

(** The result of a program that is not used. *)
Lemma wp_ignore {A} (m : SQ A) sq (P : serialqueue → Prop) E :
  wp m sq (λ _ sq', P sq') E → wp (ignore m) sq (λ _ sq', P sq') E.
Proof. intros H. unfold ignore. hstep. by eapply wp_conseq. Qed.

Lemma wp_local_op op sq :
  sq_ok sq → is_local op → op_ok sq op → wp (run_op op) sq (λ _ sq', quiet sq sq') no_shut.
Proof.
  intros Hok Hloc Hop. destruct op; cbn [run_op op_ok is_local] in *; try done.
  - unfold kick_event, set_timer. do 3 hstep. split; [|split; [done|apply update_timer_moves]].
    keep_ok Hok. cbn. rewrite length_insert. apply (so_timers _ Hok).
  - destruct Hop as (Hq & Hm & Hb). by apply wp_send_any.
  - destruct Hop as (Hq & Hl & Hr & Hb). unfold serialqueue_send, serialqueue_send_one.
    destruct (message_fill_block msg ltac:(lia)) as (qm & Hqm & _). hstep. eapply wp_deref_eq; [done|].
    destruct (filled_ok msg qm min_clock req_clock notify_id Hl Hr Hqm) as [Hmo Hql].
    apply wp_send_any; [done|done|by constructor|]. unfold msgs_len, m_len. cbn. rewrite Hql. lia.
  - by apply wp_ignore, wp_pull.
  - by apply wp_alloc_commandqueue.
  - by apply wp_ignore, wp_free_commandqueue.
  - unfold serialqueue_add_fastreader. hstep. quiet Hok.
  - unfold serialqueue_rm_fastreader. hstep. quiet Hok.
  - unfold serialqueue_set_wire_frequency. hstep. quiet Hok.
  - unfold serialqueue_set_receive_window. hstep. quiet Hok.
  - unfold serialqueue_set_clock_est. hstep. quiet Hok.
  - by apply wp_ignore, wp_extract_old.
  - unfold serialqueue_exit, kick_bg_thread. do 3 hstep. split; [keep_ok Hok|split; [done|apply exit_moves]].
  - unfold background_thread_exit, check_wake_receive. hstep. destruct (sq_receive_waiting sq) eqn:Hw; quiet Hok. done.
Qed.

(** The check of the two timers. *)
Lemma wp_sq_timers eventtime busy sq :
  sq_ok sq → (length (sq_input sq) < 64)%nat → sq_send_seq sq ≤ 2 ^ 62 → next_bounds 2 (sq_pr sq) →
  wp (pollreactor_check_timers sq_pr [retransmit_event; command_event] eventtime busy) sq
    (λ _ sq', sq_ok sq' ∧ (length (sq_input sq') < 64)%nat ∧ next_bounds 2 (sq_pr sq')) no_shut.
Proof.
  intros Hok Hi Hb Hn.
  set (I := λ (i : nat) sq, sq_ok sq ∧ (length (sq_input sq) < 64)%nat ∧ ((i < 2)%nat → sq_send_seq sq ≤ 2 ^ 62)).
  eapply wp_conseq; [apply (wp_check_timers sq_pr ltac:(done) I)|].
  - intros i s (H1 & H2 & H3). split_and!; [done..|]. intros. apply H3. lia.
  - intros i f s Hl (H1 & H2 & H3). split_and!; [|done..]. keep_ok H1. change (length (pr_timers (f (sq_pr s))) = 2%nat).
    rewrite Hl. apply (so_timers _ H1).
  - split; [|split; [|done]]; intros et s (H1 & H2 & H3).
    + eapply wp_conseq; [by apply wp_retransmit_event|]. intros t s' (Hok' & [_ R2 (_ & Hin & _) _ _ _ R7]).
      unfold I. rewrite Hin, R2, R7. split; [|reflexivity]. split_and!; [done..|]. intros. apply H3. lia.
    + eapply wp_conseq; [apply wp_command_event; [done|apply H3; lia]|].
      intros t s' (Hok' & bs & tk & [_ _ (_ & Hin & _) _ _ _ _ Hm]). unfold I. rewrite Hin. split; [|done].
      split_and!; [done..|lia].
  - by split_and!.
  - apply (so_timers _ Hok).
  - done.
  - intros t sq' ((H1 & H2 & _) & _ & H4). done.
Qed.

Lemma wp_run_op op sq :
  sq_ok sq → (length (sq_input sq) < 64)%nat → next_bounds 2 (sq_pr sq) → op_ok sq op →
  wp (run_op op) sq
    (λ _ sq', sq_ok sq' ∧ (length (sq_input sq') < 64)%nat ∧ next_bounds 2 (sq_pr sq')) no_shut.
Proof.
  intros Hok Hi Hn Hop. destruct (is_local op) eqn:Hloc.
  { eapply wp_conseq; [apply wp_local_op; [done|by rewrite Hloc|done]|].
    intros [] sq' (Hok' & [= _ _ _ Hin _] & Hm). rewrite Hin. split_and!; [done..|]. by apply (pm_next _ _ Hm). }
  destruct op; try done; cbn [run_op op_ok] in *.
  - apply wp_ignore. eapply wp_conseq; [by apply wp_command_event|].
    intros t sq' (Hok' & bs & tk & [_ _ (_ & Hin & _) _ _ _ _ Hm]). rewrite Hin. split_and!; [done..|]. by apply (pm_next _ _ Hm).
  - apply wp_ignore. eapply wp_conseq; [by apply wp_retransmit_event|].
    intros t sq' (Hok' & [_ _ (_ & Hin & _) _ _ _ Hm]). by rewrite Hin, Hm.
  - apply wp_ignore. by apply wp_sq_timers.
  - eapply wp_conseq; [apply wp_input_event; [|done..]|].
    + intros fr buf len s Hs. hstep. by split_and!.
    + intros [] sq' (Hok' & Hl & Hm). split_and!; [done..|]. by apply (pm_next _ _ Hm).
Qed.

(** The states that a queue on a serial line or a CAN bus can be in. *)
Inductive sq_reachable (fd_type client_id : Z) : serialqueue → Prop :=
| sq_start : fd_type ≠ SQT_DEBUGFILE → sq_reachable fd_type client_id (serialqueue_alloc fd_type client_id)
| sq_step sq op sq' :
    sq_reachable fd_type client_id sq → op_ok sq op → run_op op sq = Ret tt sq' → sq_reachable fd_type client_id sq'.

Lemma sq_reachable_ok fd_type client_id sq :
  sq_reachable fd_type client_id sq →
  sq_ok sq ∧ (length (sq_input sq) < 64)%nat ∧ next_bounds 2 (sq_pr sq).
Proof.
  induction 1 as [Hfd|sq op sq' _ (Hok & Hi & Hn) Hop Hrun].
  - split; [by apply serialqueue_alloc_ok|]. split; [cbn; lia|]. split; [by vm_compute; eauto|].
    intros k t _ Ht. assert (t = PR_NEVER) as ->.
    { unfold serialqueue_alloc, pollreactor_alloc, pollreactor_add_timer in Ht. cbn in Ht.
      apply list_elem_of_lookup_2 in Ht. set_solver. }
    by vm_compute.
  - pose proof (wp_run_op op sq Hok Hi Hn Hop) as Hw. unfold wp in Hw. by rewrite Hrun in Hw.
Qed.

(** C12: In every state of a host queue to a serial or CAN device (not a debug file) that its
    operations reach (both timer events, input of arbitrary bytes, sends, pulls, command queues
    and readers added and removed, settings, exit), with messages of at most 59 bytes whose
    request clock is below MAX_CLOCK, less than 2 GiB of them queued, existing command queues
    and fewer than 2^62 blocks: the sequence numbers differ by the blocks not acknowledged, of
    which there are at most 12 and each a well-formed block with its number, the byte counters
    equal the contents of the queues, a waiting reader has nothing to read, and less than a
    message is left in the input buffer; and every such operation returns there, without
    overflow, a wrong union member or a bad pointer. *)
Theorem serialqueue_invariant fd_type client_id sq op :
  sq_reachable fd_type client_id sq → op_ok sq op →
  (sq_send_seq sq = sq_receive_seq sq + Z.of_nat (length (sq_sent_queue sq)) ∧
   (length (sq_sent_queue sq) ≤ Z.to_nat MAX_PENDING_BLOCKS)%nat ∧
   sent_blocks (sq_receive_seq sq) (sq_sent_queue sq) ∧
   sq_need_ack_bytes sq = msgs_len (sq_sent_queue sq) ∧ sq_queues_ok sq ∧
   (sq_receive_waiting sq = true → sq_receive_queue sq = []) ∧ (length (sq_input sq) < 64)%nat) ∧
  ∃ sq', run_op op sq = Ret tt sq'.
Proof.
  intros Hr Hop. destruct (sq_reachable_ok _ _ _ Hr) as (Hok & Hi & Hn). split.
  - split_and!; try apply Hok; done.
  - destruct (wp_returns _ _ _ (wp_run_op op sq Hok Hi Hn Hop)) as ([] & sq' & H & _). eauto.
Qed.

(** C29: The event loop of the host forgets no timer: in every reachable state, when one of the
    two timers of a queue is due, pollreactor_check_timers runs the timers and asks for no
    sleep, and afterwards next_timer is again not later than any timer, whatever the callbacks
    have set. *)
Theorem due_timer_runs fd_type client_id sq eventtime busy k t :
  sq_reachable fd_type client_id sq → sq_send_seq sq ≤ 2 ^ 62 →
  pr_timers (sq_pr sq) !! k = Some t → dle t eventtime = true →
  ∃ sq', run_timers sq_pr [retransmit_event; command_event] 0 eventtime busy
           (upd sq_pr (λ r, r <| pr_next_timer := PR_NEVER |>) sq) = Ret true sq' ∧
    pollreactor_check_timers sq_pr [retransmit_event; command_event] eventtime busy sq = Ret 0 sq' ∧
    ∀ i w, pr_timers (sq_pr sq') !! i = Some w → dlt w (pr_next_timer (sq_pr sq')) = false.
Proof.
  intros Hr Hb Ht Hd. destruct (sq_reachable_ok _ _ _ Hr) as (Hok & Hi & Hn).
  assert (k < 2)%nat as Hk by (rewrite <- (so_timers _ Hok); by eapply lookup_lt_Some).
  pose proof (due_timer_checked _ _ _ _ _ Hn Hk Ht Hd) as Hnext.
  destruct (wp_returns _ _ _ (wp_sq_timers eventtime busy sq Hok Hi Hb Hn)) as (ms & sq' & Hrun & Hok' & _ & Hn').
  unfold pollreactor_check_timers, mbind, M_bind, gets, modify in Hrun |- *. rewrite Hnext in Hrun |- *.
  destruct (run_timers _ _ _ _ _ _) as [b sq1|sq1|sq1|] eqn:Hloop; try done.
  assert (b = true) as ->.
  { eapply (run_timers_busy sq_pr); [done|exact Hloop|]. right. exists k, t. split_and!; [lia|cbn; lia|exact Ht|done]. }
  cbn in Hrun. injection Hrun as <- <-. exists sq1. split_and!; [done..|]. intros i w Hw. eapply Hn'; [|done].
  rewrite <- (so_timers _ Hok'). by eapply lookup_lt_Some.
Qed.

(** C19: command_event refines FIFO queues: the blocks that it appends to the sent queue carry
    exactly messages taken from the fronts of the command queues, in order and each once, the
    rest stays queued as it was; the messages that asked for it are put on the notify queue
    with the number of their block; and exactly these blocks are written to the device. *)
Theorem command_event_fifo fd_type client_id sq eventtime :
  sq_reachable fd_type client_id sq → sq_send_seq sq ≤ 2 ^ 62 →
  ∃ t sq' bs takess, command_event eventtime sq = Ret t sq' ∧
    sq_sent_queue sq' = sq_sent_queue sq ++ bs ∧
    Forall2 (λ m takes, block_payload (m_bytes m) = concat (m_bytes <$> takes)) bs takess ∧
    takes_from (waiting_of sq) (concat takess) (waiting_of sq') ∧
    sq_notify_queue sq' = sq_notify_queue sq ++ block_notifications (sq_send_seq sq) takess ∧
    wrote sq (concat (m_bytes <$> bs)) sq'.
Proof.
  intros Hr Hb. destruct (sq_reachable_ok _ _ _ Hr) as (Hok & _).
  destruct (wp_returns _ _ _ (wp_command_event eventtime sq Hok Hb)) as (t & sq' & Hrun & _ & bs & takess & Hs).
  exists t, sq', bs, takess. split_and!; try done; apply Hs.
Qed.

(** build_and_send_command makes a frame that the firmware accepts with the next sequence
    number, of at most 64 bytes; the messages in it are always the one with the lowest
    req_clock among the fronts of the queues, and it stops only when no message is ready or the
    next one does not fit. *)
Theorem build_block_priority fd_type client_id sq pending eventtime :
  sq_reachable fd_type client_id sq → sq_send_seq sq ≤ 2 ^ 62 →
  (length (sq_sent_queue sq) < Z.to_nat MAX_PENDING_BLOCKS)%nat →
  ∃ block sq' takes, build_and_send_command pending eventtime sq = Ret block sq' ∧
    block = add_frame (16 + sq_send_seq sq mod 16) (Z.of_nat (length block)) (concat (m_bytes <$> takes)) ∧
    MESSAGE_MIN ≤ Z.of_nat (length block) ≤ MESSAGE_MAX ∧
    drains (ready_of sq) takes (ready_of sq') ∧ block_full sq' (concat (m_bytes <$> takes)).
Proof.
  intros Hr Hb Hwin. destruct (sq_reachable_ok _ _ _ Hr) as (Hok & _).
  pose proof (wp_build_and_send_command pending eventtime sq Hok Hwin ltac:(lia)) as Hw.
  destruct (wp_returns _ _ _ Hw) as (block & sq' & Hrun & Hok' & takes & m & Hs & -> & Hfull).
  destruct Hs as (Hm & sq1 & pr & rtt & (Hdr & Hup & cqs & pq & ->) & _ & ->).
  assert (is_block (sq_send_seq sq) m) as Hblk.
  { rewrite (proj1 (so_send_seq _ Hok)). apply (so_sent _ Hok'). by apply list_lookup_middle. }
  pose proof (ib_payload _ _ Hblk) as Hp. pose proof (so_receive_seq _ Hok). pose proof (so_send_seq _ Hok).
  rewrite Hm, block_payload_build in Hp. eexists _, _, takes. split; [exact Hrun|].
  rewrite Hm at 1 2. rewrite build_block_length. split.
  { rewrite build_block_frame by (try done; lia). f_equal. lia. }
  rewrite Hm, build_block_length. unfold MESSAGE_MIN, MESSAGE_MAX. split_and!; [lia|lia|exact Hdr|exact Hfull].
Qed.

(** C30: retransmit_event writes one sync byte and all the unacknowledged blocks in order,
    which always fits its buffer of 12 full blocks and one byte, and keeps them for the next
    time. *)
Theorem retransmit_event_bounds fd_type client_id sq eventtime :
  sq_reachable fd_type client_id sq →
  let out := MESSAGE_SYNC :: concat (m_bytes <$> sq_sent_queue sq) in
  Z.of_nat (length out) ≤ RETRANSMIT_BUF_SIZE ∧
  ∃ t sq', retransmit_event eventtime sq = Ret t sq' ∧ wrote sq out sq' ∧
    sq_sent_queue sq' = sq_sent_queue sq ∧ sq_retransmit_seq sq' = sq_send_seq sq.
Proof.
  intros Hr. destruct (sq_reachable_ok _ _ _ Hr) as (Hok & _). cbv zeta. split.
  - pose proof (sent_blocks_len _ _ (so_sent _ Hok)) as Hl. pose proof (so_window _ Hok) as Hwin.
    pose proof (sent_blocks_bytes _ _ (so_sent _ Hok)). cbn [length].
    unfold RETRANSMIT_BUF_SIZE, MESSAGE_MAX, MAX_PENDING_BLOCKS. lia.
  - destruct (wp_returns _ _ _ (wp_retransmit_event eventtime sq Hok)) as (t & sq' & Hrun & _ & Hs).
    exists t, sq'. split_and!; try done; apply Hs.
Qed.

(** C20: handle_message finds the sequence number from its four bits (the only one less than 16
    ahead); an acknowledgement of a block that was never sent is refused without effect, except
    at the start of the connection; otherwise exactly the blocks below it leave the sent queue,
    the notifications at the head of the notify queue up to the first one that the message does
    not prove done are completed, in order and ahead of the message itself, and the reader with
    the message's prefix is selected. The exception is a data message while the number is still
    1: the limit wraps there, and all notifications are completed. *)
Theorem handle_message_acks sq eventtime len b :
  sq_ok sq → MESSAGE_MIN ≤ len ≤ MESSAGE_MAX → len ≤ Z.of_nat (length (sq_input sq)) → sq_input sq !! 1%nat = Some b →
  ∃ r sq' rseq, handle_message eventtime len sq = Ret r sq' ∧
    (sq_receive_seq sq ≤ rseq < sq_receive_seq sq + 16 ∧ rseq mod 16 = b mod 16) ∧
    if bool_decide (sq_send_seq sq < rseq ∧ sq_receive_seq sq ≠ 1)
    then r = None ∧ ∃ n, sq' = sq <| sq_bytes_invalid := n |>
    else r = find_fastreader (sq_fast_readers sq) (sq_input sq) len ∧ accepted sq eventtime rseq len sq'.
Proof.
  intros Hok Hlen Hin Hb. destruct (so_send_seq _ Hok) as [Hss Hbd]. pose proof (so_receive_seq _ Hok) as Hr1.
  assert (is_byte b) as Hbb by (eapply Forall_lookup_1; [apply (so_input _ Hok)|exact Hb]). unfold is_byte in Hbb.
  destruct (wp_returns _ _ _ (wp_handle_message eventtime len b sq Hok Hlen Hin Hb)) as (r & sq' & Hrun & _ & H).
  exists r, sq', (ack_seq (sq_receive_seq sq) b). split; [done|]. split; [apply ack_seq_spec; lia|].
  set (rseq := ack_seq _ _) in *. replace (invalid_ack sq rseq) with (bool_decide (sq_send_seq sq < rseq ∧ sq_receive_seq sq ≠ 1)) in H.
  - case_bool_decide; [|done]. destruct H as (n & -> & ->). by eauto.
  - unfold invalid_ack. case_bool_decide as Hd; destruct (Z.eqb_spec rseq (sq_receive_seq sq)),
      (Z.ltb_spec (sq_send_seq sq) rseq), (Z.eqb_spec (sq_receive_seq sq) 1); cbn; try done; lia.
Qed.

(** A data message that arrives while receive_seq is still 1, from a firmware whose number has
    the same four bits, makes wake_seq wrap to 2^64-1: every pending notification is completed
    although no block was acknowledged. *)
Theorem first_data_completes_all sq eventtime len b :
  sq_ok sq → MESSAGE_MIN < len ≤ MESSAGE_MAX → len ≤ Z.of_nat (length (sq_input sq)) → sq_input sq !! 1%nat = Some b →
  sq_receive_seq sq = 1 → b mod 16 = 1 → Forall (λ m, notify_seq m < 2 ^ 64) (sq_notify_queue sq) →
  ∃ r sq', handle_message eventtime len sq = Ret r sq' ∧ sq_sent_queue sq' = sq_sent_queue sq ∧
    sq_notify_queue sq' = [] ∧
    ∃ st extra, sq_receive_queue sq' = sq_receive_queue sq ++ (completion st eventtime <$> sq_notify_queue sq) ++ extra.
Proof.
  intros Hok Hlen Hin Hb Hr Hm Hnq.
  assert (is_byte b) as Hbb by (eapply Forall_lookup_1; [apply (so_input _ Hok)|exact Hb]). unfold is_byte in Hbb.
  destruct (wp_returns _ _ _ (wp_handle_message eventtime len b sq Hok ltac:(unfold MESSAGE_MIN, MESSAGE_MAX in *; lia) Hin Hb))
    as (r & sq' & Hrun & _ & H).
  rewrite Hr, (ack_seq_unique 1 b 1) in H by (rewrite ?Hm; try done; lia).
  assert (invalid_ack sq 1 = false) as Hi by (unfold invalid_ack; by rewrite Hr). rewrite Hi in H.
  destruct H as [_ [_ _ Hsent _ (l & rest & st & extra & Hq & Hq' & Hrest & Hrq & _) _ _]].
  assert (rest = []) as ->.
  { unfold limit_wraps in Hrest. destruct (Z.ltb_spec MESSAGE_MIN len); [|lia]. cbn [Z.eqb andb] in Hrest.
    destruct rest as [|m rest]; [done|]. specialize (Hrest m eq_refl). rewrite Hq in Hnq.
    apply Forall_app in Hnq as [_ [Hlt _]%Forall_cons]. cbn beta in Hlt. lia. }
  rewrite app_nil_r in Hq. subst l. exists r, sq'. split; [done|]. split; [by rewrite Hsent, Hr|]. split; [done|]. eauto.
Qed.
End spec.

(** * A whole message arrives at a queue

    [input_event] of serialqueue.c on the bytes of one message, in any program that holds the
    queue: the message is handled, the reader that its prefix selects is called, and the buffer
    is empty again. *)

Lemma frame_bytes seq payload :
  (length payload ≤ 59)%nat → seq_ok seq → Forall is_byte payload →
  Forall is_byte (add_frame seq (Z.of_nat (length payload) + 5) payload).
Proof.
  intros Hp Hs Hb. rewrite frame_eq by done. unfold seq_ok in Hs.
  constructor; [unfold is_byte; lia|]. constructor; [unfold is_byte; lia|]. apply Forall_app. split; [done|].
  pose proof u8_range. repeat constructor; unfold is_byte, MESSAGE_SYNC; lia || apply u8_range.
Qed.

(** The queue in the state [S] of a program: [on_queue] runs on it and changes nothing else. *)
Class HoldsQueue {S : Type} (on_queue : ∀ A, SQ A → M S A) (the : S → option serialqueue) (put : serialqueue → S → S) := {
  hq_put_put sq sq' s : put sq' (put sq s) = put sq' s;
  hq_the_put sq s : is_Some (the s) → the (put sq s) = Some sq;
  hq_run {A} (m : SQ A) s sq (Q : A → S → Prop) E :
    the s = Some sq → wp m sq (λ r sq', Q r (put sq' s)) no_shut → wp (on_queue A m) s Q E }.

#[export] Instance queue_itself : HoldsQueue (λ A (m : SQ A), m) Some (λ sq _, sq).
Proof.
  split; [done|done|]. intros A m s sq Q E [= ->] H. by eapply wp_mono.
Qed.

Section input.
Context `{OS : HostOS} {S : Type} {on_queue : ∀ A, SQ A → M S A} {the put} `{!HoldsQueue on_queue the put}
  (call : fastreader → list Z → Z → M S unit).

(** The last round of the loop: the buffer is empty. *)
Lemma wp_input_empty fuel eventtime s sq (Q : unit → S → Prop) E :
  the s = Some sq → sq_input sq = [] → Q tt (put sq s) →
  wp (input_loop on_queue call (Datatypes.S fuel) eventtime) s Q E.
Proof.
  intros Hs Hin HQ. cbn [input_loop]. hstep. eapply (hq_run _ _ sq); [done|]. unfold input_round. do 3 hstep.
  eapply (wp_deref_eq _ (0, sq_need_sync sq)); [by rewrite Hin|]. cbn beta iota. do 2 hstep.
  change (0 =? 0) with true. cbn iota. do 2 hstep. assert (sq <| sq_need_sync := sq_need_sync sq |> = sq) as E1 by (by destruct sq).
  by rewrite E1.
Qed.

Context (a : Z) (payload : list Z) (eventtime : double) (sq : serialqueue)
  (Hok : sq_ok sq) (Hin : sq_input sq = []) (Hns : sq_need_sync sq = 0)
  (Hp : (length payload ≤ 59)%nat) (Hb : Forall is_byte payload)
  (Ha : sq_receive_seq sq ≤ a < sq_receive_seq sq + 16) (Ha' : a ≤ sq_send_seq sq ∨ sq_receive_seq sq = 1).

Abbreviation n := (Z.of_nat (length payload) + 5).
Abbreviation frame := (add_frame (16 + a mod 16) n payload).

Lemma whole_frame :
  length frame = (length payload + 5)%nat ∧ Forall is_byte frame ∧ frame !! 1%nat = Some (16 + a mod 16) ∧
  msgblock_check 0 frame = Some (n, 0).
Proof.
  pose proof (seq_nibble_ok a) as Hsq. split; [by apply frame_length|]. split; [by apply frame_bytes|].
  rewrite <- (app_nil_r frame). split; [by apply frame_seq_byte|by apply msgblock_check_accepts].
Qed.

(** The message in the buffer is accepted. *)
Lemma wp_input_round_frame :
  wp (input_round eventtime) (sq <| sq_input := frame |>)
    (λ r sq', r = Some (n, find_fastreader (sq_fast_readers sq) frame n) ∧ sq_ok sq' ∧
       accepted (sq <| sq_input := frame |>) eventtime a n sq' ∧ sq_input sq' = frame) no_shut.
Proof.
  destruct whole_frame as (Hl & Hfb & H1 & Hck). destruct (so_send_seq _ Hok) as [Hss Hbd].
  pose proof (so_window _ Hok). pose proof (so_receive_seq _ Hok). set (sq1 := sq <| sq_input := frame |>).
  assert (sq_ok sq1) as Hok1 by (by keep_ok Hok).
  unfold input_round. do 3 hstep. eapply (wp_deref_eq _ (n, 0)); [unfold sq1; cbn; by rewrite Hns|]. cbn beta iota. do 2 hstep.
  assert (sq1 <| sq_need_sync := 0 |> = sq1) as E1 by (unfold sq1; rewrite <- Hns; by destruct sq). rewrite E1.
  rewrite (proj2 (Z.eqb_neq n 0)), (proj2 (Z.ltb_lt 0 n)) by lia.
  hstep. eapply wp_conseq; [apply (wp_handle_message _ _ (16 + a mod 16)); [done|lia|change (n ≤ Z.of_nat (length frame)); lia|done]|].
  intros r sq3 [Hok3 Hres].
  assert (ack_seq (sq_receive_seq sq1) (16 + a mod 16) = a) as Hack.
  { change (sq_receive_seq sq1) with (sq_receive_seq sq). pose proof (Z.mod_pos_bound a 16). apply ack_seq_unique; try lia.
    rewrite Z.add_mod, Z_mod_same_full, Z.add_0_l, !Z.mod_mod by lia. done. }
  rewrite Hack in Hres.
  assert (invalid_ack sq1 a = false) as Hinv.
  { unfold invalid_ack, sq1. cbn. destruct Ha' as [Ha1 | ->]; [|by rewrite andb_false_r].
    rewrite (proj2 (Z.ltb_ge _ a)) by lia. by rewrite andb_false_r. }
  rewrite Hinv in Hres. destruct Hres as [-> Hac]. hstep. split; [done|]. split; [done|]. split; [done|].
  destruct Hac as [_ _ _ _ _ [A5 _] _]. unfold untouched in A5. by injection A5.
Qed.

Lemma wp_input_event_frame s (Q : unit → S → Prop) :
  the s = Some sq →
  (∀ sq2, sq_ok sq2 → accepted (sq <| sq_input := frame |>) eventtime a n sq2 → sq_input sq2 = frame →
     wp (match find_fastreader (sq_fast_readers sq) frame n with Some fr => call fr frame n | None => mret tt end)
       (put sq2 s)
       (λ _ s', ∃ sq3, the s' = Some sq3 ∧ sq_input sq3 = frame ∧ Q tt (put (sq3 <| sq_input := [] |>) s')) no_shut) →
  wp (input_event on_queue call (ReadData frame) eventtime) s Q no_shut.
Proof.
  intros Hs Hcall. destruct whole_frame as (Hl & _). unfold input_event. hstep. eapply (hq_run _ _ sq); [done|].
  unfold read_input. do 2 hstep. destruct frame as [|b0 fr0] eqn:Hfr; [done|]. rewrite <- Hfr in *. do 3 hstep.
  rewrite Hin, app_nil_l. pose (sq1 := sq <| sq_input := frame |>). fold sq1.
  assert (the (put sq1 s) = Some sq1) as Hs1 by (apply hq_the_put; eauto).
  hstep. eapply (hq_run _ _ sq1); [done|]. hstep. rewrite hq_put_put. change (sq_input sq1) with frame.
  cbn [input_loop]. hstep. eapply (hq_run _ _ sq1); [done|].
  eapply wp_conseq; [exact wp_input_round_frame|]. intros r sq2 (-> & Hok2 & Hac & Hin2). rewrite hq_put_put.
  assert (the (put sq2 s) = Some sq2) as Hs2 by (apply hq_the_put; eauto).
  hstep. eapply (hq_run _ _ sq2); [done|]. hstep. rewrite hq_put_put, Hin2. hstep.
  eapply wp_conseq; [by apply Hcall|]. intros [] s' (sq3 & Hs3 & Hin3 & HQ).
  hstep. eapply (hq_run _ _ sq3); [done|]. unfold consume_input. hstep.
  assert (drop (Z.to_nat n) (sq_input sq3) = []) as -> by (rewrite Hin3; apply drop_ge; lia).
  rewrite Hl, Nat.add_succ_r. eapply (wp_input_empty _ _ _ (sq3 <| sq_input := [] |>)); [apply hq_the_put; eauto|done|].
  by rewrite hq_put_put.
Qed.
End input.
