(* ===== verification/LinkSpec.v ===== *)
(** * Host and firmware over an unreliable line

    serialqueue.c and command.c together: blocks and acknowledgements can be lost on the way,
    but are delivered in order.  Host and firmware only see four bits of the sequence numbers.
    The firmware then accepts every block exactly once and in the order in which the host built
    them, and the host drops a block only after the firmware has accepted it. *)

From S2P Require Import Prelude State Runtime Vlq Crc Command CommandSpec Double Msgblock StepCompress.
From S2P Require Import Pollreactor Serialqueue MsgblockSpec BisectSpec PollreactorSpec SerialqueueSpec.
From S2P Require Import SerialqueueInv SerialqueueSend SerialqueueRecv SerialqueueOps.

(** ** Lists of things in flight *)

Lemma Forall2_sublist {A B} (P : A → B → Prop) l' l k :
  l' `sublist_of` l → Forall2 P l k → ∃ k', k' `sublist_of` k ∧ Forall2 P l' k'.
Proof.
  intros Hs. revert k. induction Hs as [|x l1 l2 Hs IH|x l1 l2 Hs IH]; intros k H.
  - apply Forall2_nil_inv_l in H as ->. exists []. split; constructor.
  - apply Forall2_cons_inv_l in H as (y & k2 & Hp & H2 & ->). destruct (IH _ H2) as (k' & Hk & Hf).
    exists (y :: k'). split; by constructor.
  - apply Forall2_cons_inv_l in H as (y & k2 & Hp & H2 & ->). destruct (IH _ H2) as (k' & Hk & Hf).
    exists k'. split; [by constructor|done].
Qed.
Lemma sublist_Forall {A} (P : A → Prop) l' l : l' `sublist_of` l → Forall P l → Forall P l'.
Proof.
  induction 1 as [|x l1 l2 Hs IH|x l1 l2 Hs IH]; intros H; [done|..]; apply Forall_cons in H as [Hx H];
    [constructor|]; auto.
Qed.
Lemma sublist_StronglySorted {A} (R : A → A → Prop) l' l :
  l' `sublist_of` l → StronglySorted R l → StronglySorted R l'.
Proof.
  induction 1 as [|x l1 l2 Hs IH|x l1 l2 Hs IH]; intros H; [done|..]; apply StronglySorted_inv in H as [H1 H2].
  - constructor; [by apply IH|]. by eapply sublist_Forall.
  - by apply IH.
Qed.
Lemma StronglySorted_snoc {A} (R : A → A → Prop) l x :
  StronglySorted R l → Forall (λ y, R y x) l → StronglySorted R (l ++ [x]).
Proof.
  induction 1 as [|y l Hs IH Hy]; intros Hx; [by repeat constructor|]. apply Forall_cons in Hx as [Hyx Hx].
  cbn. constructor; [by apply IH|]. apply Forall_app. split; [done|by constructor].
Qed.
Lemma StronglySorted_app_2 {A} (R : A → A → Prop) l k :
  StronglySorted R l → StronglySorted R k → (∀ x y, x ∈ l → y ∈ k → R x y) → StronglySorted R (l ++ k).
Proof.
  induction 1 as [|y l Hs IH Hy]; intros Hk Hlk; [done|]. cbn. constructor; [apply IH; set_solver|].
  apply Forall_app. split; [done|]. apply Forall_forall. set_solver.
Qed.

(** Numbers for the elements of a list. *)
Lemma number_list {A} (P : A → Z → Prop) l i :
  (∀ k x, l !! k = Some x → P x (i + Z.of_nat k)) →
  ∃ ns, Forall2 P l ns ∧ Forall (λ a, i ≤ a < i + Z.of_nat (length l)) ns ∧ StronglySorted Z.lt ns.
Proof.
  revert i. induction l as [|x l IH]; intros i H; [exists []; split_and!; constructor|].
  destruct (IH (i + 1)) as (ns & H1 & H2 & H3).
  { intros k y Hk. specialize (H (S k) y Hk). by replace (i + 1 + Z.of_nat k) with (i + Z.of_nat (S k)) by lia. }
  exists (i :: ns). split_and!.
  - constructor; [|done]. specialize (H 0%nat x eq_refl). by rewrite Z.add_0_r in H.
  - cbn [length]. constructor; [lia|]. eapply Forall_impl; [exact H2|]. cbn. lia.
  - constructor; [done|]. eapply Forall_impl; [exact H2|]. cbn. lia.
Qed.

(** ** The system *)

(** The two ends, the frames on the way down and up, the payloads of all blocks that the host
    has built, and of those that the firmware has accepted. *)
Record link := mk_link
  { lk_host : serialqueue; lk_mcu : mcu; lk_down : list (list Z); lk_up : list (list Z);
    lk_built : list (list Z); lk_accepted : list (list Z) }.
#[export] Instance eta_link : Eta link := λ r,
  mk_link (lk_host r) (lk_mcu r) (lk_down r) (lk_up r) (lk_built r) (lk_accepted r).

Section link.
Context `{OS : HostOS} {B : Board}.

(** The message [acknak] of the firmware. *)
Definition acknak_encoder : command_encoder := mk_encoder 0 MESSAGE_MIN [].

(** Commands, responses and tasks of the firmware leave the state of the protocol alone. *)
Definition same_protocol (s s' : mcu) : Prop :=
  next_sequence (cmd s') = next_sequence (cmd s) ∧ sync_state (cmd s') = sync_state (cmd s).

(** A write of the host puts its blocks on the line, in order; any of them can be lost, as
    anything can be lost later. *)
Inductive link_step : link → link → Prop :=
| link_command l eventtime t sq' arrived :
    sq_send_seq (lk_host l) ≤ 2 ^ 62 → command_event eventtime (lk_host l) = Ret t sq' →
    let blocks := m_bytes <$> drop (length (sq_sent_queue (lk_host l))) (sq_sent_queue sq') in
    arrived `sublist_of` blocks →
    link_step l (l <| lk_host := sq' |> <| lk_down := lk_down l ++ arrived |>
                   <| lk_built := lk_built l ++ (block_payload <$> blocks) |>)
| link_retransmit l eventtime t sq' arrived :
    retransmit_event eventtime (lk_host l) = Ret t sq' →
    arrived `sublist_of` (m_bytes <$> sq_sent_queue (lk_host l)) →
    link_step l (l <| lk_host := sq' |> <| lk_down := lk_down l ++ arrived |>)
| link_local l op sq' :
    is_local op → op_ok (lk_host l) op → run_op op (lk_host l) = Ret tt sq' →
    link_step l (l <| lk_host := sq' |>)
| link_loss l down up :
    down `sublist_of` lk_down l → up `sublist_of` lk_up l →
    link_step l (l <| lk_down := down |> <| lk_up := up |>)
| link_block l frame down ret pop s1 s2 len ack :
    lk_down l = frame :: down → command_find_block frame (lk_mcu l) = Ret (ret, pop) s1 →
    same_protocol s1 s2 → command_encode_and_frame 4 acknak_encoder [] s2 = Ret (len, ack) s2 →
    link_step l (l <| lk_mcu := s2 |> <| lk_down := down |> <| lk_up := lk_up l ++ [ack] |>
                   <| lk_accepted := lk_accepted l ++ (if 0 <? ret then [block_payload frame] else []) |>)
| link_response l payload frame :
    (length payload ≤ 59)%nat → Forall is_byte payload →
    command_add_frame (Z.of_nat (length payload) + 5) payload (lk_mcu l) = Ret frame (lk_mcu l) →
    link_step l (l <| lk_up := lk_up l ++ [frame] |>)
| link_mcu l s' : same_protocol (lk_mcu l) s' → link_step l (l <| lk_mcu := s' |>)
| link_input l frame up eventtime sq' :
    lk_up l = frame :: up → run_op (OpInput (ReadData frame) eventtime) (lk_host l) = Ret tt sq' →
    link_step l (l <| lk_host := sq' |> <| lk_up := up |>).

(** Both ends agree on the number of the next block, and the line is idle. *)
Record synchronised (first : Z) (l : link) : Prop := {
  sy_host : sq_ok (lk_host l) ∧ sq_input (lk_host l) = [] ∧ sq_need_sync (lk_host l) = 0;
  sy_seq : sq_receive_seq (lk_host l) = first;
  sy_mcu : next_sequence (cmd (lk_mcu l)) = 16 + first mod 16 ∧
    has (sync_state (cmd (lk_mcu l))) CF_NEED_SYNC = false;
  sy_line : lk_down l = [] ∧ lk_up l = [] ∧ lk_accepted l = [] ∧
    lk_built l = (block_payload ∘ m_bytes <$> sq_sent_queue (lk_host l)) }.

Inductive link_reachable (first : Z) : link → Prop :=
| link_start l : synchronised first l → link_reachable first l
| link_next l l' : link_reachable first l → link_step l l' → link_reachable first l'.

(** ** The invariant *)

(** The number of the block that the firmware expects. *)
Definition expected (first : Z) (l : link) : Z := first + Z.of_nat (length (lk_accepted l)).

(** Block number [i] on the way down. *)
Definition block_of (first : Z) (l : link) (frame : list Z) (i : Z) : Prop :=
  first ≤ i ∧ ∃ payload, lk_built l !! Z.to_nat (i - first) = Some payload ∧ frame = build_block i payload.
(** A message on the way up, sent when the firmware expected block [a]. *)
Definition message_of (frame : list Z) (a : Z) : Prop :=
  ∃ payload, (length payload ≤ 59)%nat ∧ Forall is_byte payload ∧
    frame = add_frame (16 + a mod 16) (Z.of_nat (length payload) + 5) payload.

Record link_inv (first : Z) (l : link) : Prop := {
  li_host : sq_ok (lk_host l) ∧ sq_input (lk_host l) = [] ∧ sq_need_sync (lk_host l) = 0;
  li_first : 1 ≤ first ≤ sq_receive_seq (lk_host l);
  li_built : sq_send_seq (lk_host l) = first + Z.of_nat (length (lk_built l)) ∧
    Forall (λ p, (length p ≤ 59)%nat) (lk_built l);
  li_sent k m : sq_sent_queue (lk_host l) !! k = Some m →
    lk_built l !! (Z.to_nat (sq_receive_seq (lk_host l) - first) + k)%nat = Some (block_payload (m_bytes m));
  li_accepted : lk_accepted l `prefix_of` lk_built l;
  li_window : sq_receive_seq (lk_host l) ≤ expected first l;
  li_mcu : next_sequence (cmd (lk_mcu l)) = 16 + expected first l mod 16 ∧
    has (sync_state (cmd (lk_mcu l))) CF_NEED_SYNC = false;
  li_down : ∃ ns, Forall2 (block_of first l) (lk_down l) ns ∧
    Forall (λ i, expected first l - 12 ≤ i < expected first l + 12) ns ∧ StronglySorted (λ a b, a < b + 12) ns;
  li_up : ∃ ns, Forall2 message_of (lk_up l) ns ∧
    Forall (λ a, sq_receive_seq (lk_host l) ≤ a ≤ expected first l) ns ∧ StronglySorted Z.le ns }.

Lemma synchronised_inv first l : synchronised first l → link_inv first l.
Proof.
  intros [(Hok & Hi & Hn) Hr [Hm1 Hm2] (Hd & Hu & Ha & Hb)].
  pose proof (so_receive_seq _ Hok). destruct (so_send_seq _ Hok) as [Hss _].
  assert (expected first l = first) as He by (unfold expected; rewrite Ha; cbn; lia).
  constructor; try done.
  - lia.
  - rewrite Hb, Hss, Hr, length_fmap. split; [done|]. apply Forall_fmap, Forall_forall.
    intros m [k Hk]%list_elem_of_lookup. apply (ib_payload _ _ (so_sent _ Hok k m Hk)).
  - intros k m Hk. rewrite Hb, Hr, Z.sub_diag. change (Z.to_nat 0 + k)%nat with k. by rewrite list_lookup_fmap, Hk.
  - rewrite Ha. apply prefix_nil.
  - lia.
  - by rewrite He.
  - exists []. rewrite Hd. split_and!; constructor.
  - exists []. rewrite Hu. split_and!; constructor.
Qed.

(** The host is never ahead by more than the window. *)
Lemma expected_bounds first l :
  link_inv first l → sq_receive_seq (lk_host l) ≤ expected first l ≤ sq_send_seq (lk_host l) ∧
    sq_send_seq (lk_host l) ≤ sq_receive_seq (lk_host l) + 12.
Proof.
  intros H. destruct (li_host _ _ H) as [Hok _]. destruct (so_send_seq _ Hok) as [Hs _].
  pose proof (so_window _ Hok). pose proof (li_window _ _ H). destruct (li_built _ _ H) as [Hb _].
  pose proof (prefix_length _ _ (li_accepted _ _ H)). unfold expected in *. lia.
Qed.

(** ** Steps of the host *)

Lemma block_of_app first l l' frame i built :
  lk_built l' = lk_built l ++ built → block_of first l frame i → block_of first l' frame i.
Proof.
  intros Hb (Hi & p & Hp & ->). split; [done|]. exists p. split; [|done]. rewrite Hb. by apply lookup_app_l_Some.
Qed.

(** The host sends some of its unacknowledged blocks, among them all the new ones [bs]. *)
Lemma link_inv_sends first l sq' bs k arrived :
  link_inv first l → sq_ok sq' → sq_sent_queue sq' = sq_sent_queue (lk_host l) ++ bs →
  same_receiver (lk_host l) sq' → arrived `sublist_of` (m_bytes <$> drop k (sq_sent_queue sq')) →
  link_inv first (l <| lk_host := sq' |> <| lk_down := lk_down l ++ arrived |>
                    <| lk_built := lk_built l ++ (block_payload ∘ m_bytes <$> bs) |>).
Proof.
  intros H Hok' Hsent (Hr & Hin & Hns & _) Harr. set (l' := upd lk_built _ _).
  pose proof (expected_bounds _ _ H) as [Hexp Hwin]. destruct (li_host _ _ H) as (Hok & Hi & Hn).
  destruct (li_built _ _ H) as [Hb H59]. destruct (so_send_seq _ Hok) as [Hss _].
  destruct (so_send_seq _ Hok') as [Hss' _]. pose proof (so_window _ Hok') as Hw'.
  assert (length (lk_built l) = (Z.to_nat (sq_receive_seq (lk_host l) - first) + length (sq_sent_queue (lk_host l)))%nat)
    as Hlb by (pose proof (li_first _ _ H); lia).
  assert (∀ k m, sq_sent_queue sq' !! k = Some m →
    lk_built l' !! (Z.to_nat (sq_receive_seq sq' - first) + k)%nat = Some (block_payload (m_bytes m))) as Hsent'.
  { intros j m Hj. rewrite Hr. unfold l'. cbn. rewrite Hsent in Hj. apply lookup_app_Some in Hj as [Hj | [Hge Hj]].
    - apply lookup_app_l_Some. by apply (li_sent _ _ H).
    - rewrite lookup_app_r by lia. rewrite list_lookup_fmap.
      replace (_ + j - length (lk_built l))%nat with (j - length (sq_sent_queue (lk_host l)))%nat by lia.
      by rewrite Hj. }
  constructor; try done.
  - cbn. rewrite Hin, Hns. done.
  - cbn. rewrite Hr. apply (li_first _ _ H).
  - cbn. rewrite length_app, length_fmap, Hss', Hr, Hsent, length_app. split; [lia|].
    apply Forall_app. split; [done|]. apply Forall_fmap, Forall_forall. intros m [j Hj]%list_elem_of_lookup.
    apply (ib_payload _ _ (so_sent _ Hok' (length (sq_sent_queue (lk_host l)) + j)%nat m ltac:(by rewrite Hsent, lookup_app_r, Nat.add_sub' by lia))).
  - cbn. apply prefix_app_r, (li_accepted _ _ H).
  - cbn. rewrite Hr. apply (li_window _ _ H).
  - apply (li_mcu _ _ H).
  - destruct (li_down _ _ H) as (ns & Hf & Hns' & Hs).
    destruct (number_list (block_of first l') (m_bytes <$> drop k (sq_sent_queue sq')) (sq_receive_seq sq' + Z.of_nat k))
      as (ms & Hf2 & Hms & Hs2).
    { intros j x Hj. rewrite list_lookup_fmap, lookup_drop in Hj. destruct (sq_sent_queue sq' !! (k + j)%nat) as [m|] eqn:Hm; [|done].
      cbn in Hj. injection Hj as <-. rewrite <- Z.add_assoc, <- Nat2Z.inj_add.
      pose proof (li_first _ _ H). split; [rewrite Hr; lia|]. exists (block_payload (m_bytes m)). split.
      - rewrite <- (Hsent' _ _ Hm). f_equal. rewrite Hr. lia.
      - apply (ib_bytes _ _ (so_sent _ Hok' _ _ Hm)). }
    destruct (Forall2_sublist _ _ _ _ Harr Hf2) as (ms' & Hsub & Hf3).
    apply (sublist_Forall _ _ _ Hsub) in Hms. apply (sublist_StronglySorted _ _ _ Hsub) in Hs2.
    rewrite length_fmap, length_drop, Hr in Hms.
    assert (Forall (λ i, i < sq_send_seq (lk_host l)) ns) as Hold.
    { rewrite Hb. clear - Hf. induction Hf as [|f i fs js (Hi & p & Hp & _) _ IH]; constructor; [|done].
      apply lookup_lt_Some in Hp. lia. }
    exists (ns ++ ms'). unfold l'. cbn. split_and!.
    + apply Forall2_app; [|done]. eapply Forall2_impl; [exact Hf|]. intros f i Hfi. by eapply block_of_app.
    + change (expected first _) with (expected first l). apply Forall_app. split; [done|].
      eapply Forall_impl; [exact Hms|]. intros i. cbn. lia.
    + apply StronglySorted_app_2; [done| |].
      * clear - Hs2. induction Hs2 as [|a l Hs IH Ha]; constructor; [done|]. eapply Forall_impl; [exact Ha|]. cbn. lia.
      * intros x y Hx Hy. rewrite Forall_forall in Hold, Hms. apply Hold in Hx. apply Hms in Hy. lia.
  - destruct (li_up _ _ H) as (ns & Hu). exists ns. unfold l'. cbn. by rewrite Hr.
Qed.

(** ** Steps of the firmware *)

Lemma acknak_frame s :
  command_encode_and_frame 4 acknak_encoder [] s = Ret (5, add_frame (next_sequence (cmd s)) 5 []) s.
Proof. done. Qed.

Lemma prefix_snoc_lookup {A} (l k : list A) x :
  l `prefix_of` k → k !! length l = Some x → l ++ [x] `prefix_of` k.
Proof.
  intros [r ->] Hx. rewrite lookup_app_r, Nat.sub_diag in Hx by lia. destruct r as [|y r]; [done|].
  injection Hx as ->. exists r. by rewrite <- app_assoc.
Qed.

(** Equal modulo 16 and not further apart than the window: equal. *)
Lemma near_mod i j : j - 16 < i < j + 16 → i mod 16 = j mod 16 → i = j.
Proof. intros Hi Hm. pose proof (Z.div_mod i 16 ltac:(lia)). pose proof (Z.div_mod j 16 ltac:(lia)). lia. Qed.

Lemma sync_cleared x : has x CF_NEED_SYNC = false → has (Z.land x (Z.lnot CF_NEED_VALID)) CF_NEED_SYNC = false.
Proof.
  rewrite !has_false. intros H. unfold CF_NEED_SYNC, CF_NEED_VALID in *.
  rewrite <- Z.land_assoc, (Z.land_comm (Z.lnot 2)), Z.land_assoc, H. done.
Qed.

(** What the firmware does with block number [i]. *)
Lemma find_numbered_block n i payload s :
  (length payload ≤ 59)%nat → 0 ≤ i → n - 12 ≤ i < n + 12 →
  next_sequence (cmd s) = 16 + n mod 16 → has (sync_state (cmd s)) CF_NEED_SYNC = false →
  wp (command_find_block (build_block i payload)) s
    (λ r s', has (sync_state (cmd s')) CF_NEED_SYNC = false ∧
       if i =? n then r.1 = 1 ∧ next_sequence (cmd s') = 16 + (n + 1) mod 16
       else r.1 = -1 ∧ next_sequence (cmd s') = 16 + n mod 16) no_shut.
Proof.
  intros Hp Hi Hin Hseq Hsync. rewrite build_block_frame by done.
  destruct (Z.eqb_spec i n) as [->|Hne].
  - rewrite <- Hseq. rewrite <- (app_nil_r (add_frame _ _ _)).
    eapply wp_of_eq; [apply find_block_accepts; [done|rewrite Hseq; apply seq_nibble_ok|done]|].
    split; [by apply sync_cleared|]. cbn. split; [done|]. rewrite Hseq, next_seq_spec by apply seq_nibble_ok.
    f_equal. replace (16 + n mod 16 - 16 + 1) with (n mod 16 + 1) by lia. by rewrite Zplus_mod_idemp_l.
  - rewrite <- (app_nil_r (add_frame _ _ _)).
    eapply wp_conseq; [apply find_block_naks; [done|apply seq_nibble_ok| |done]|].
    + rewrite Hseq. intros E. apply Hne. apply near_mod; lia.
    + intros r s' (-> & H1 & H2). rewrite H1, H2. split; [by apply sync_cleared|done].
Qed.

Lemma link_inv_block first l frame down ret pop s1 s2 :
  link_inv first l → lk_down l = frame :: down → command_find_block frame (lk_mcu l) = Ret (ret, pop) s1 →
  same_protocol s1 s2 →
  link_inv first (l <| lk_mcu := s2 |> <| lk_down := down |>
    <| lk_up := lk_up l ++ [add_frame (next_sequence (cmd s2)) 5 []] |>
    <| lk_accepted := lk_accepted l ++ (if 0 <? ret then [block_payload frame] else []) |>).
Proof.
  intros H Hd Hfb [Hp1 Hp2]. destruct (li_down _ _ H) as (ns & Hf & Hns & Hs). rewrite Hd in Hf.
  apply Forall2_cons_inv_l in Hf as (i & ns' & (Hi & payload & Hpl & ->) & Hf & ->).
  apply Forall_cons in Hns as [Hib Hns]. apply StronglySorted_inv in Hs as [Hs Hhead].
  destruct (li_built _ _ H) as [Hb H59]. pose proof (Forall_lookup_1 _ _ _ _ H59 Hpl) as Hp59.
  destruct (li_mcu _ _ H) as [Hseq Hsync]. pose proof (li_first _ _ H) as Hfirst.
  pose proof (find_numbered_block (expected first l) i payload (lk_mcu l) Hp59 ltac:(lia) Hib Hseq Hsync) as Hw.
  unfold wp in Hw. rewrite Hfb in Hw. destruct Hw as [Hsy Hres]. set (l' := upd lk_accepted _ _).
  set (d := if i =? expected first l then 1 else 0).
  assert (expected first l' = expected first l + d ∧ next_sequence (cmd s2) = 16 + (expected first l + d) mod 16 ∧
          lk_accepted l' `prefix_of` lk_built l) as (He & Hn & Hpre).
  { unfold l', d. destruct (Z.eqb_spec i (expected first l)) as [->|Hne];
      unfold expected; cbn [lk_accepted upd]; rewrite length_app, Hp1.
    - destruct Hres as [Hret ->]. cbn in Hret. subst ret. cbn. unfold expected. split; [lia|]. split; [done|].
      rewrite block_payload_build. apply prefix_snoc_lookup; [apply (li_accepted _ _ H)|].
      rewrite <- Hpl. f_equal. unfold expected. lia.
    - destruct Hres as [Hret ->]. cbn in Hret. subst ret. cbn. rewrite app_nil_r. split; [lia|].
      split; [by rewrite Z.add_0_r|apply (li_accepted _ _ H)]. }
  assert (0 ≤ d ≤ 1) as Hd01 by (unfold d; destruct (_ =? _); lia).
  pose proof (li_window _ _ H) as Hwin.
  constructor; try done; try apply H.
  - rewrite He. cbn. lia.
  - rewrite He. cbn. split; [done|]. by rewrite Hp2.
  - exists ns'. split; [done|]. rewrite He. split; [|done]. rewrite Forall_forall in Hns, Hhead. apply Forall_forall.
    intros j Hj. specialize (Hns j Hj). specialize (Hhead j Hj). cbn in *. unfold d.
    destruct (Z.eqb_spec i (expected first l)); lia.
  - destruct (li_up _ _ H) as (us & Hu1 & Hu2 & Hu3). exists (us ++ [expected first l + d]). split_and!.
    + apply Forall2_app; [done|]. constructor; [|done]. exists []. rewrite Hn. split; [cbn; lia|]. by split.
    + rewrite He. apply Forall_app. split; [|constructor; [cbn; lia|done]].
      eapply Forall_impl; [exact Hu2|]. cbn. lia.
    + apply StronglySorted_snoc; [done|]. eapply Forall_impl; [exact Hu2|]. cbn. lia.
Qed.

(** A response carries the number of the block that the firmware expects. *)
Lemma link_inv_response first l payload :
  link_inv first l → (length payload ≤ 59)%nat → Forall is_byte payload →
  link_inv first (l <| lk_up := lk_up l ++
    [add_frame (next_sequence (cmd (lk_mcu l))) (Z.of_nat (length payload) + 5) payload] |>).
Proof.
  intros H Hp Hb. destruct (li_mcu _ _ H) as [Hseq _]. constructor; try apply H.
  destruct (li_up _ _ H) as (us & Hu1 & Hu2 & Hu3). exists (us ++ [expected first l]). split_and!.
  - apply Forall2_app; [done|]. constructor; [|done]. exists payload. by rewrite Hseq.
  - apply Forall_app. split; [done|]. constructor; [|done]. split; [apply (li_window _ _ H)|].
    change (expected first l ≤ expected first l). lia.
  - apply StronglySorted_snoc; [done|]. eapply Forall_impl; [exact Hu2|]. cbn. lia.
Qed.

(** ** A message arrives at the host *)

Lemma wp_input_frame a payload eventtime sq :
  sq_ok sq → sq_input sq = [] → sq_need_sync sq = 0 → (length payload ≤ 59)%nat → Forall is_byte payload →
  sq_receive_seq sq ≤ a < sq_receive_seq sq + 16 → a ≤ sq_send_seq sq ∨ sq_receive_seq sq = 1 →
  wp (run_op (OpInput (ReadData (add_frame (16 + a mod 16) (Z.of_nat (length payload) + 5) payload)) eventtime)) sq
    (λ _ sq', sq_ok sq' ∧ sq_input sq' = [] ∧ sq_need_sync sq' = 0 ∧ sq_receive_seq sq' = a ∧
       sq_send_seq sq' = Z.max (sq_send_seq sq) a ∧
       sq_sent_queue sq' = drop (Z.to_nat (a - sq_receive_seq sq)) (sq_sent_queue sq)) no_shut.
Proof.
  intros Hok Hin Hns Hp Hb Ha Ha'. cbn [run_op].
  apply (wp_input_event_frame _ a payload eventtime sq Hok Hin Hns Hp Hb Ha Ha' sq); [done|].
  intros sq2 Hok2 [A1 A2 A3 _ _ [_ A6] _] Hin2.
  assert (∀ fr : option fastreader, (match fr with Some _ | _ => mret tt end : SQ unit) = mret tt) as ->
    by (by intros []).
  hstep. exists sq2. split; [done|]. split; [done|]. split; [by keep_ok Hok2|]. cbn [sq_input sq_need_sync sq_receive_seq sq_send_seq sq_sent_queue upd].
  rewrite A6, A1, A2, A3. by split_and!.
Qed.

Lemma link_inv_input first l frame up eventtime sq' :
  link_inv first l → lk_up l = frame :: up →
  run_op (OpInput (ReadData frame) eventtime) (lk_host l) = Ret tt sq' →
  link_inv first (l <| lk_host := sq' |> <| lk_up := up |>).
Proof.
  intros H Hu Hrun. destruct (li_up _ _ H) as (ns & Hf & Hns & Hs). rewrite Hu in Hf.
  apply Forall2_cons_inv_l in Hf as (a & ns' & (payload & Hp & Hb & ->) & Hf & ->).
  apply Forall_cons in Hns as [Ha Hns]. apply StronglySorted_inv in Hs as [Hs Hhead].
  pose proof (expected_bounds _ _ H) as [Hexp Hwin]. destruct (li_host _ _ H) as (Hok & Hi & Hn).
  pose proof (wp_input_frame a payload eventtime (lk_host l) Hok Hi Hn Hp Hb ltac:(lia) ltac:(lia)) as Hw.
  unfold wp in Hw. rewrite Hrun in Hw. destruct Hw as (Hok' & Hi' & Hn' & Hr' & Hs' & Hq').
  pose proof (li_first _ _ H). constructor; try apply H.
  - done.
  - cbn. lia.
  - cbn. rewrite Hs', Z.max_l by lia. apply (li_built _ _ H).
  - intros k m Hk. cbn in *. rewrite Hq', lookup_drop in Hk. apply (li_sent _ _ H) in Hk. rewrite <- Hk, Hr'. f_equal. lia.
  - change (sq_receive_seq sq' ≤ expected first l). lia.
  - exists ns'. cbn. split; [done|]. split; [|done].
    rewrite Forall_forall in Hns, Hhead. apply Forall_forall. intros x Hx.
    specialize (Hns x Hx). specialize (Hhead x Hx). change (sq_receive_seq sq' ≤ x ≤ expected first l). lia.
Qed.

(** ** Exactly once, in order *)

Lemma link_inv_local first l sq' :
  link_inv first l → sq_ok sq' → link_part sq' = link_part (lk_host l) → link_inv first (l <| lk_host := sq' |>).
Proof.
  intros H Hok' [= Hs Hr Hq Hi Hn]. destruct (li_host _ _ H) as (_ & Hi0 & Hn0).
  constructor; try apply H; cbn; rewrite ?Hs, ?Hr, ?Hi, ?Hn; try apply H; try done.
  intros k m Hk. rewrite Hq in Hk. by apply (li_sent _ _ H).
Qed.

Lemma link_inv_loss first l down up :
  link_inv first l → down `sublist_of` lk_down l → up `sublist_of` lk_up l →
  link_inv first (l <| lk_down := down |> <| lk_up := up |>).
Proof.
  intros H Hd Hu. constructor; try apply H.
  - destruct (li_down _ _ H) as (ns & Hf & Hb & Hs). destruct (Forall2_sublist _ _ _ _ Hd Hf) as (ns' & Hsub & Hf').
    exists ns'. split; [done|]. split; [by eapply sublist_Forall|by eapply sublist_StronglySorted].
  - destruct (li_up _ _ H) as (ns & Hf & Hb & Hs). destruct (Forall2_sublist _ _ _ _ Hu Hf) as (ns' & Hsub & Hf').
    exists ns'. split; [done|]. split; [by eapply sublist_Forall|by eapply sublist_StronglySorted].
Qed.

Lemma link_inv_step first l l' : link_inv first l → link_step l l' → link_inv first l'.
Proof.
  intros H Hstep. destruct (li_host _ _ H) as (Hok & _).
  destruct Hstep as [l et t sq' arr Hb Hrun blocks Harr|l et t sq' arr Hrun Harr|l op sq' Hloc Hop Hrun|l down up Hd Hu
    |l frame down ret pop s1 s2 len ack Hd Hfb Hsp Hack|l payload frame Hp Hby Hfr|l s' Hsp|l frame up et sq' Hu Hrun].
  - pose proof (wp_command_event et (lk_host l) Hok Hb) as Hw. unfold wp in Hw. rewrite Hrun in Hw.
    destruct Hw as (Hok' & bs & takess & Hsd). unfold blocks in *. rewrite (se_sent _ _ _ _ _ Hsd) in *.
    rewrite drop_app_length, <- list_fmap_compose in *.
    eapply (link_inv_sends _ _ _ bs (length (sq_sent_queue (lk_host l)))); try done; try apply Hsd.
    by rewrite (se_sent _ _ _ _ _ Hsd), drop_app_length.
  - pose proof (wp_retransmit_event et (lk_host l) Hok) as Hw. unfold wp in Hw. rewrite Hrun in Hw.
    destruct Hw as (Hok' & Hrs).
    pose proof (link_inv_sends first l sq' [] 0 arr H Hok') as E. rewrite app_nil_r in E. cbn in E. rewrite app_nil_r in E.
    apply E; try apply Hrs. by rewrite (rs_sent _ _ Hrs), drop_0.
  - pose proof (wp_local_op op (lk_host l) Hok Hloc Hop) as Hw. unfold wp in Hw. rewrite Hrun in Hw.
    destruct Hw as (Hok1 & Hlp & _). by apply link_inv_local.
  - by apply link_inv_loss.
  - rewrite acknak_frame in Hack. injection Hack as <- <-. by eapply link_inv_block.
  - unfold command_add_frame, gets in Hfr. injection Hfr as <-. by apply link_inv_response.
  - destruct Hsp as [Hs1 Hs2]. constructor; try apply H. cbn. rewrite Hs1, Hs2. apply (li_mcu _ _ H).
  - by eapply link_inv_input.
Qed.

Lemma link_reachable_inv first l : link_reachable first l → link_inv first l.
Proof.
  induction 1 as [l Hs|l l' _ IH Hstep]; [by apply synchronised_inv|by eapply link_inv_step].
Qed.

(** ** The start of a connection *)

(** C21: The start of a connection: whatever sequence number the firmware has, its first
    acknowledgement brings a host queue that has not received anything yet in step with it;
    both then agree on the number of the next block, between 1 and 16. *)
Theorem connection_synchronises sq s eventtime :
  sq_ok sq → sq_receive_seq sq = 1 → sq_input sq = [] → sq_need_sync sq = 0 →
  seq_ok (next_sequence (cmd s)) → has (sync_state (cmd s)) CF_NEED_SYNC = false →
  let frame := add_frame (next_sequence (cmd s)) 5 [] in
  ∃ first sq', run_op (OpInput (ReadData frame) eventtime) sq = Ret tt sq' ∧ 1 ≤ first ≤ 16 ∧
    synchronised first (mk_link sq' s [] [] (block_payload ∘ m_bytes <$> sq_sent_queue sq') []).
Proof.
  intros Hok Hr Hin Hns Hseq Hsync frame. unfold seq_ok in Hseq. set (n := next_sequence (cmd s)) in *.
  pose (a := if n =? 16 then 16 else n - 16).
  assert (1 ≤ a ≤ 16 ∧ n = 16 + a mod 16) as [Ha Hn].
  { unfold a. destruct (Z.eqb_spec n 16) as [->|]; [done|]. rewrite Z.mod_small by lia. lia. }
  destruct (wp_returns _ _ _ (wp_input_frame a [] eventtime sq Hok Hin Hns ltac:(cbn; lia) ltac:(constructor)
    ltac:(lia) ltac:(lia))) as ([] & sq' & Hrun & Hok' & Hi' & Hns' & Hr' & _ & _).
  exists a, sq'. split; [unfold frame; by rewrite Hn|]. split; [done|]. by constructor; cbn.
Qed.

(** C1: Host and firmware over a line that loses any blocks and acknowledgements but keeps
    their order: in every state reached from a synchronised start by any sequence of sends,
    retransmissions, losses, deliveries, responses and calls of the host's interface, the
    blocks that the firmware has accepted are a prefix of the blocks that the host has built
    (each one once, in order, with its contents), the host has dropped only blocks that the
    firmware accepted, it still holds all the others for retransmission, and never more than 12
    blocks are built and not accepted. Both ends see only four bits of the sequence numbers. *)
Theorem link_exactly_once first l :
  link_reachable first l →
  lk_accepted l `prefix_of` lk_built l ∧
  sq_receive_seq (lk_host l) - first ≤ Z.of_nat (length (lk_accepted l)) ∧
  block_payload ∘ m_bytes <$> sq_sent_queue (lk_host l) =
    drop (Z.to_nat (sq_receive_seq (lk_host l) - first)) (lk_built l) ∧
  (length (lk_built l) - length (lk_accepted l) ≤ Z.to_nat MAX_PENDING_BLOCKS)%nat.
Proof.
  intros Hr. pose proof (link_reachable_inv _ _ Hr) as H. pose proof (expected_bounds _ _ H) as [Hexp Hwin].
  pose proof (li_window _ _ H) as Hw. pose proof (li_first _ _ H) as Hf. destruct (li_built _ _ H) as [Hb _].
  destruct (li_host _ _ H) as (Hok & _). destruct (so_send_seq _ Hok) as [Hss _]. unfold expected in *.
  split_and!.
  - apply (li_accepted _ _ H).
  - lia.
  - apply list_eq. intros k. rewrite list_lookup_fmap, lookup_drop.
    destruct (sq_sent_queue (lk_host l) !! k) as [m|] eqn:Hk; cbn.
    + by rewrite (li_sent _ _ H _ _ Hk).
    + apply lookup_ge_None in Hk. symmetry. apply lookup_ge_None. lia.
  - change (Z.to_nat MAX_PENDING_BLOCKS) with 12%nat. lia.
Qed.
End link.
