(* ===== verification/LinkLive.v ===== *)
(** * A retransmission delivers everything

    Whatever was lost before, and whatever of the old traffic is still on the line: once
    [retransmit_event] has put its blocks behind it and nothing more is lost, every block is
    accepted and acknowledged after at most 24 deliveries and those of the old traffic (two for
    a block, with its acknowledgement, and one for a message), in whatever order blocks and
    acknowledgements arrive. *)

From S2P Require Import Prelude State Runtime Vlq Crc Command CommandSpec Double Msgblock StepCompress.
From S2P Require Import Pollreactor Serialqueue MsgblockSpec BisectSpec SerialqueueSpec SerialqueueInv.
From S2P Require Import SerialqueueSend SerialqueueRecv SerialqueueOps LinkSpec.

Section live.
Context `{OS : HostOS} {B : Board}.

(** A block arrives at the firmware, or a message at the host. *)
Inductive delivery : link → link → Prop :=
| delivery_block l frame down ret pop s1 s2 len ack :
    lk_down l = frame :: down → command_find_block frame (lk_mcu l) = Ret (ret, pop) s1 →
    same_protocol s1 s2 → command_encode_and_frame 4 acknak_encoder [] s2 = Ret (len, ack) s2 →
    delivery l (l <| lk_mcu := s2 |> <| lk_down := down |> <| lk_up := lk_up l ++ [ack] |>
                  <| lk_accepted := lk_accepted l ++ (if 0 <? ret then [block_payload frame] else []) |>)
| delivery_input l frame up eventtime sq' :
    lk_up l = frame :: up → run_op (OpInput (ReadData frame) eventtime) (lk_host l) = Ret tt sq' →
    delivery l (l <| lk_host := sq' |> <| lk_up := up |>).

Lemma delivery_step l l' : delivery l l' → link_step l l'.
Proof. destruct 1; by econstructor. Qed.

(** While the retransmitted blocks are delivered, behind what was on the line before: [j] is the
    first of them that is still on the way; once everything has arrived below, the last message
    on the way up, if there is one, has the number that the firmware expects. *)
Record delivering (first : Z) (l : link) : Prop := {
  dv_inv : link_inv first l;
  dv_down : ∃ old resent j, lk_down l = old ++ resent ∧
    Forall2 (block_of first l) resent (seqZ j (sq_send_seq (lk_host l) - j)) ∧
    j ≤ expected first l ∧ sq_send_seq (lk_host l) ≤ j + 12;
  dv_up : ∃ us, Forall2 message_of (lk_up l) us ∧
    Forall (λ a, sq_receive_seq (lk_host l) ≤ a ≤ expected first l) us ∧ StronglySorted Z.le us ∧
    (lk_down l ≠ [] ∨ last us = Some (expected first l) ∨ us = [] ∧ sq_receive_seq (lk_host l) = expected first l) }.

Definition terminal (l : link) : Prop := lk_down l = [] ∧ lk_up l = [].
Definition weight (l : link) : nat := 2 * length (lk_down l) + length (lk_up l).

Lemma delivery_weight l l' : delivery l l' → weight l = S (weight l').
Proof.
  destruct 1 as [l frame down ret pop s1 s2 len ack Hd _ _ _|l frame up et sq' Hu _]; unfold weight; cbn.
  - rewrite Hd, length_app. cbn. lia.
  - rewrite Hu. cbn. lia.
Qed.

(** The firmware looks at the next block on the line, whatever its number [i]. *)
Lemma next_block first l frame down :
  link_inv first l → lk_down l = frame :: down →
  ∃ i, block_of first l frame i ∧ expected first l - 12 ≤ i < expected first l + 12 ∧
  wp (command_find_block frame) (lk_mcu l)
    (λ r s', has (sync_state (cmd s')) CF_NEED_SYNC = false ∧
       if i =? expected first l then r.1 = 1 ∧ next_sequence (cmd s') = 16 + (expected first l + 1) mod 16
       else r.1 = -1 ∧ next_sequence (cmd s') = 16 + expected first l mod 16) no_shut.
Proof.
  intros H Hd. destruct (li_down _ _ H) as (ns & Hf & Hin & _). rewrite Hd in Hf.
  apply Forall2_cons_inv_l in Hf as (i & ns' & Hb & _ & ->). apply Forall_cons in Hin as [Hin _]. exists i. split; [exact Hb|]. split; [done|].
  destruct Hb as (Hi & payload & Hp & ->). destruct (li_mcu _ _ H) as [Hseq Hsync]. pose proof (li_first _ _ H).
  destruct (li_built _ _ H) as [_ H59]. pose proof (Forall_lookup_1 _ _ _ _ H59 Hp) as Hp59.
  apply find_numbered_block; try done; lia.
Qed.

(** Blocks that are on the line have one number. *)
Lemma block_of_unique first l frame i k :
  link_inv first l → Z.abs (i - k) < 16 → block_of first l frame i → block_of first l frame k → i = k.
Proof.
  intros H Hik (Hi & p & Hp & E) (Hk & q & Hq & F). pose proof (li_first _ _ H). destruct (li_built _ _ H) as [_ H59].
  pose proof (Forall_lookup_1 _ _ _ _ H59 Hp) as Lp. pose proof (Forall_lookup_1 _ _ _ _ H59 Hq) as Lq. cbn beta in Lp, Lq.
  rewrite build_block_frame in E, F by (done || lia).
  assert (16 + i mod 16 = 16 + k mod 16) as Em.
  { pose proof (frame_seq_byte p (16 + i mod 16) _ eq_refl Lp (seq_nibble_ok i) []) as E1.
    pose proof (frame_seq_byte q (16 + k mod 16) _ eq_refl Lq (seq_nibble_ok k) []) as E2.
    rewrite <- E in E1. rewrite <- F in E2. congruence. }
  apply near_mod; lia.
Qed.

(** What remains of the retransmitted blocks when the next block of the line has arrived. *)
Lemma resent_rest first l frame down old resent j n :
  lk_down l = frame :: down → lk_down l = old ++ resent → Forall2 (block_of first l) resent (seqZ j (n - j)) →
  ∃ old' resent' j', down = old' ++ resent' ∧ Forall2 (block_of first l) resent' (seqZ j' (n - j')) ∧
    (j' = j ∨ j' = j + 1 ∧ block_of first l frame j).
Proof.
  intros Hd Hs Hf. rewrite Hd in Hs. destruct old as [|x old]; cbn in Hs.
  - subst resent. assert (0 < n - j) as Hpos.
    { destruct (decide (0 < n - j)); [done|]. rewrite seqZ_nil in Hf by lia. by apply Forall2_nil_inv_r in Hf. }
    rewrite seqZ_cons in Hf by done. apply Forall2_cons in Hf as [Hb Hf]. exists [], down, (j + 1). split; [done|].
    replace (Z.succ j) with (j + 1) in Hf by lia. replace (Z.pred (n - j)) with (n - (j + 1)) in Hf by lia. eauto.
  - injection Hs as _ ->. exists old, resent, j. eauto.
Qed.

Lemma delivering_step first l l' : delivering first l → delivery l l' → delivering first l'.
Proof.
  intros [H (old & resent & j & Hsp & Hf & Hj1 & Hj2) (us & Hu1 & Hu2 & Hus & Hu3)] Hdl.
  pose proof (link_inv_step _ _ _ H (delivery_step _ _ Hdl)) as H'. pose proof (expected_bounds _ _ H) as [Hexp Hwn].
  destruct Hdl as [l frame down ret pop s1 s2 len ack Hd Hfb Hpr Hack|l frame up et sq' Hu Hrun].
  - destruct (next_block first l frame down H Hd) as (i & Hbi & Hi12 & Hw).
    unfold wp in Hw. rewrite Hfb in Hw. destruct Hw as [_ Hres]. set (l' := upd lk_accepted _ _) in *.
    set (d := if i =? expected first l then 1 else 0).
    assert (expected first l' = expected first l + d) as He.
    { unfold l', d. destruct (Z.eqb_spec i (expected first l)); destruct Hres as [Hr _]; cbn in Hr; subst ret;
        unfold expected; cbn [lk_accepted upd]; rewrite length_app; cbn; lia. }
    assert (0 ≤ d) as Hd0 by (unfold d; destruct (_ =? _); lia).
    destruct (resent_rest first l frame down old resent j _ Hd Hsp Hf) as (old' & resent' & j' & Hdn & Hf' & Hj').
    rewrite acknak_frame in Hack. injection Hack as <- <-. constructor; [exact H'|..]; rewrite He.
    + exists old', resent', j'. split; [exact Hdn|]. split; [exact Hf'|]. change (lk_host l') with (lk_host l). destruct Hj' as [-> | [-> Hb]]; [lia|].
      destruct (decide (j = expected first l)) as [->|]; [|lia].
      assert (i = expected first l) as ->; [|unfold d; rewrite Z.eqb_refl; lia].
      eapply block_of_unique; [exact H|lia|exact Hbi|exact Hb].
    + exists (us ++ [expected first l + d]). split_and!.
      * apply Forall2_app; [done|]. constructor; [|done].
        destruct (li_mcu _ _ H') as [Hn _]. rewrite He in Hn. cbn in Hn. rewrite Hn.
        exists []. split; [cbn; lia|]. by split.
      * apply Forall_app. split; [|constructor; [cbn; lia|done]]. eapply Forall_impl; [exact Hu2|]. cbn. lia.
      * apply StronglySorted_snoc; [done|]. eapply Forall_impl; [exact Hu2|]. cbn. lia.
      * right. left. by rewrite last_snoc.
  - rewrite Hu in Hu1. apply Forall2_cons_inv_l in Hu1 as (a & us' & (payload & Hp & Hb & ->) & Hu1 & ->).
    apply Forall_cons in Hu2 as [Ha Hu2]. apply StronglySorted_inv in Hus as [Hus Hle].
    destruct (li_host _ _ H) as (Hok & Hi & Hn).
    pose proof (wp_input_frame a payload et (lk_host l) Hok Hi Hn Hp Hb ltac:(lia) ltac:(lia)) as Hw.
    unfold wp in Hw. rewrite Hrun in Hw. destruct Hw as (_ & _ & _ & Hr & Hs & _).
    constructor; [exact H'|..]; change (expected first _) with (expected first l); cbn; rewrite ?Hr, ?Hs.
    + exists old, resent, j. rewrite Z.max_l by lia. by split_and!.
    + exists us'. split; [done|]. split; [|split; [done|]].
      * rewrite Forall_forall in Hu2, Hle. apply Forall_forall. intros x Hx. specialize (Hu2 x Hx).
        specialize (Hle x Hx). cbn in *. lia.
      * destruct Hu3 as [? | [Hlast | [? _]]]; [by left| |done]. right.
        destruct us' as [|y us']; [right|left; exact Hlast]. split; [done|]. by injection Hlast.
Qed.

Lemma delivering_steps first k l l' :
  nsteps delivery k l l' → delivering first l →
  delivering first l' ∧ weight l = (k + weight l')%nat ∧ lk_built l' = lk_built l.
Proof.
  induction 1 as [l|k l1 l2 l3 Hd _ IH]; intros H; [done|].
  pose proof (delivering_step _ _ _ H Hd) as H2. pose proof (delivery_weight _ _ Hd).
  destruct (IH H2) as (H3 & Hw & Hb). split; [done|]. split; [lia|]. rewrite Hb. by destruct Hd.
Qed.

(** Nothing is stuck. *)
Lemma delivering_progress first l : delivering first l → ¬ terminal l → ∃ l', delivery l l'.
Proof.
  intros [H _ (us & Hu1 & Hu2 & _)] Hnt. destruct (lk_down l) as [|frame down] eqn:Hd.
  - destruct (lk_up l) as [|frame up] eqn:Hu; [by destruct Hnt|].
    apply Forall2_cons_inv_l in Hu1 as (a & us' & (payload & Hp & Hb & ->) & _ & ->).
    apply Forall_cons in Hu2 as [Ha _]. pose proof (expected_bounds _ _ H) as [Hexp Hwn].
    destruct (li_host _ _ H) as (Hok & Hi & Hn).
    destruct (wp_returns _ _ _ (wp_input_frame a payload (dint 0) (lk_host l) Hok Hi Hn Hp Hb ltac:(lia) ltac:(lia)))
      as ([] & sq' & Hrun & _). eexists. by eapply delivery_input.
  - destruct (next_block first l frame down H Hd) as (i & _ & _ & Hw).
    destruct (wp_returns _ _ _ Hw) as ([ret pop] & s1 & Hfb & _).
    eexists. eapply (delivery_block _ _ _ _ _ s1 s1); [done|done|done|apply acknak_frame].
Qed.

Lemma delivering_terminal first l :
  delivering first l → terminal l → lk_accepted l = lk_built l ∧ sq_sent_queue (lk_host l) = [].
Proof.
  intros [H (old & resent & j & Hsp & Hf & Hj & _) (us & Hu1 & _ & _ & Hu3)] [Hd Hu]. rewrite Hd in Hsp, Hu3.
  symmetry in Hsp. apply app_eq_nil in Hsp as [-> ->]. rewrite Hu in Hu1.
  apply Forall2_nil_inv_l in Hu1 as ->. destruct Hu3 as [[] | [[=] | (_ & Hr)]]; [done|].
  apply Forall2_length in Hf. rewrite length_seqZ in Hf. cbn in Hf.
  pose proof (expected_bounds _ _ H) as [Hexp Hwn]. destruct (li_built _ _ H) as [Hb _].
  destruct (li_host _ _ H) as (Hok & _). destruct (so_send_seq _ Hok) as [Hss _].
  assert (expected first l = sq_send_seq (lk_host l)) as He by lia. split.
  - destruct (li_accepted _ _ H) as [r Hr']. rewrite Hr'. unfold expected in He.
    rewrite Hr', length_app in Hb. destruct r; [by rewrite app_nil_r|]. cbn in Hb. lia.
  - apply length_zero_iff_nil. lia.
Qed.

Lemma sublist_refl {A} (l : list A) : l `sublist_of` l.
Proof. induction l; by constructor. Qed.

(** C9: Whatever was lost before on the link, and whatever is still on the line: once
    retransmit_event has put its blocks behind the blocks in flight and no more is lost, blocks
    and acknowledgements are delivered in any order in at most 24 deliveries and two for each
    older block and one for each older acknowledgement in flight, a delivery is always possible
    until both directions are empty, and then the firmware has accepted every block the host
    has built and the host has nothing left to acknowledge. *)
Theorem link_recovers first l eventtime t sq' down up k l2 :
  link_reachable first l → retransmit_event eventtime (lk_host l) = Ret t sq' →
  down `sublist_of` lk_down l → up `sublist_of` lk_up l →
  let l1 := l <| lk_host := sq' |> <| lk_down := down ++ (m_bytes <$> sq_sent_queue (lk_host l)) |> <| lk_up := up |> in
  nsteps delivery k l1 l2 →
  (k ≤ 24 + 2 * length down + length up)%nat ∧ (¬ terminal l2 → ∃ l3, delivery l2 l3) ∧
  (terminal l2 → lk_accepted l2 = lk_built l ∧ sq_sent_queue (lk_host l2) = []).
Proof.
  intros Hr Hrun Hdown Hup l1 Hk. pose proof (link_reachable_inv _ _ Hr) as H. destruct (li_host _ _ H) as (Hok & _).
  pose proof (wp_retransmit_event eventtime (lk_host l) Hok) as Hw. unfold wp in Hw. rewrite Hrun in Hw.
  destruct Hw as (Hok' & [R1 R2 (R3 & _) _ _ _ _]).
  pose proof (expected_bounds _ _ H) as [Hexp Hwin]. destruct (so_send_seq _ Hok) as [Hss _].
  assert (link_inv first l1) as H1.
  { pose (l0 := l <| lk_down := down |> <| lk_up := up |>). apply (link_inv_step _ l0).
    - by apply link_inv_loss.
    - exact (link_retransmit l0 eventtime t sq' (m_bytes <$> sq_sent_queue (lk_host l)) Hrun (sublist_refl _)). }
  assert (delivering first l1) as Hdv.
  { constructor; [done|..]; change (expected first l1) with (expected first l).
    - exists down, (m_bytes <$> sq_sent_queue (lk_host l)), (sq_receive_seq (lk_host l)). split; [done|]. cbn.
      split; [|lia]. apply Forall2_same_length_lookup. rewrite length_fmap, length_seqZ, R2. split; [lia|].
      intros i x y Hx Hy. rewrite list_lookup_fmap in Hx.
      destruct (sq_sent_queue (lk_host l) !! i) as [m|] eqn:Hm; [|done]. cbn in Hx. injection Hx as <-.
      apply lookup_seqZ in Hy as [-> _]. pose proof (li_first _ _ H). split; [lia|].
      exists (block_payload (m_bytes m)). split.
      + cbn. rewrite <- (li_sent _ _ H _ _ Hm). f_equal. lia.
      + apply (ib_bytes _ _ (so_sent _ Hok _ _ Hm)).
    - destruct (li_up _ _ H1) as (us & Hu1 & Hu2 & Hus). exists us. split_and!; try done.
      destruct (sq_sent_queue (lk_host l)) as [|m q] eqn:Hq; [right|by left; destruct down].
      change (expected first l1) with (expected first l) in Hu2. cbn in Hu2, Hss |- *. rewrite R3 in Hu2 |- *.
      destruct us as [|a us] using rev_ind; [right; split; [done|lia]|left]. rewrite last_snoc.
      apply Forall_app in Hu2 as [_ [Ha _]%Forall_cons]. f_equal. lia. }
  destruct (delivering_steps first k l1 l2 Hk Hdv) as (Hdv2 & Hwt & Hbu). split_and!.
  - unfold weight in Hwt. cbn in Hwt. rewrite length_app, length_fmap in Hwt. pose proof (so_window _ Hok). lia.
  - by eapply delivering_progress.
  - intros Ht. destruct (delivering_terminal _ _ Hdv2 Ht) as [Ha Hs]. split; [|done]. by rewrite Ha, Hbu.
Qed.
End live.
