(* ===== verification/CanLinkSpec.v ===== *)
(** * Host and firmware over a CAN bus

    The frames into which serialqueue.c splits a write, and those of canserial.c, carry the
    bytes to the buffer at the other end. *)

From S2P Require Import Prelude State Runtime Sched Vlq Crc Command CommandSpec SerialIrq Canserial Double.
From S2P Require Import Msgblock StepCompress Pollreactor Serialqueue SerialSpec CanserialSpec MsgblockSpec.
From S2P Require Import BisectSpec PollreactorSpec SerialqueueSpec SerialqueueInv SerialqueueSend.
From S2P Require Import SerialqueueRecv SerialqueueOps.

Section link.
Context `{OS : HostOS} {B : Board} {CB : CanBoard}.

(** A write of the host on the bus; the hardware fills up the data registers. *)
Definition bus_frame (w : wire_write) : canbus_msg :=
  match w with
  | WCan id data => mk_canmsg id (Z.of_nat (length data)) (data ++ replicate (8 - length data) 0)
  | WSerial _ => mk_canmsg 0 0 (replicate 8 0)
  end.

(** A write that is a frame for the node [id]. *)
Definition frame_for (id : Z) (w : wire_write) : Prop :=
  ∃ data, w = WCan id data ∧ (0 < length data ≤ 8)%nat.

Lemma bus_frame_data id data :
  (0 < length data ≤ 8)%nat → hw_frame (bus_frame (WCan id data)) ∧ frame_data (bus_frame (WCan id data)) = data.
Proof.
  intros Hl. split.
  - split; cbn; [rewrite length_app, length_replicate; lia|lia].
  - unfold frame_data, CANMSG_DATA_LEN. cbn. rewrite (proj2 (Z.ltb_ge _ _)) by lia. rewrite Nat2Z.id. by apply take_app_length.
Qed.

Lemma frames_push id L ws :
  id ≠ 0 → Forall (frame_for id) ws → (length L + length (wire_bytes ws) ≤ 192)%nat →
  foldl (can_push id) L (bus_frame <$> ws) = L ++ wire_bytes ws.
Proof.
  intros Hid Hws. revert L. induction Hws as [|w ws (data & -> & Hd) Hws IH]; intros L Hl; cbn [fmap list_fmap foldl].
  { by rewrite app_nil_r. }
  change (wire_bytes (WCan id data :: ws)) with (data ++ wire_bytes ws) in *. rewrite length_app in Hl.
  destruct (bus_frame_data id data Hd) as [_ Hfd]. unfold can_push at 2. rewrite Hfd, bool_decide_eq_true_2.
  - rewrite IH, <- app_assoc; [done|]. rewrite length_app. lia.
  - split_and!; [done|done|lia].
Qed.

Lemma frames_hw id ws : Forall (frame_for id) ws → Forall hw_frame (bus_frame <$> ws).
Proof.
  intros Hws. apply Forall_fmap. eapply Forall_impl; [exact Hws|]. intros w (data & -> & Hd). by apply bus_frame_data.
Qed.

(** C25: A write of the host on a CAN bus reaches the firmware unchanged, when the bytes fit
    the free part of the node's receive buffer (frames that find no room are dropped): the
    frames into which do_write splits the bytes, processed by the node they are addressed to,
    append to its receive buffer exactly the bytes that were written, a prefix of the buffer,
    and all of it when no system call fails. *)
Theorem can_write_reaches_node buf sq c :
  sq_fd_type sq = SQT_CAN → can_rx_ok c → can_assigned_id c = sq_client_id sq → can_assigned_id c ≠ 0 →
  Z.of_nat (length buf) ≤ RX_BUFFER_SIZE - can_receive_pos c →
  ∃ sq' ws c', do_write buf sq = Ret tt sq' ∧ sq_wire sq' = sq_wire sq ++ ws ∧
    rx_frames (bus_frame <$> ws) c = Ret tt c' ∧ can_contents c' = can_contents c ++ wire_bytes ws ∧
    wire_bytes ws `prefix_of` buf ∧
    ((∀ n, (sq_calls sq ≤ n < sq_calls sq')%nat → os_write n = true) → can_contents c' = can_contents c ++ buf).
Proof.
  intros Hcan [Hs Hp] Hid Hnz Hroom. change RX_BUFFER_SIZE with 192 in Hroom.
  destruct (wp_returns _ _ _ (wp_do_write buf sq)) as ([] & sq' & Hrun & calls & ws & -> & Hpre & Hall & Hfr).
  assert (Forall (frame_for (can_assigned_id c)) ws) as Hws.
  { eapply Forall_impl; [exact Hfr|]. intros [d|i d] H; [done|]. destruct H as (_ & -> & Hd). exists d. by rewrite Hid. }
  assert (length (can_contents c) = Z.to_nat (can_receive_pos c)) as Hl by (unfold can_contents; rewrite length_take; lia).
  assert (length (wire_bytes ws) ≤ length buf)%nat as Hwl by (by apply prefix_length).
  pose proof (buf_inv_start (can_receive_buf c) (can_receive_pos c) 0 Hs Hp ltac:(lia)) as Hi.
  destruct (wp_returns _ _ _ (wp_rx_frames _ c _ 0 0 Hi (frames_hw _ _ Hws))) as ([] & c' & Hrx & Hi' & _).
  fold (can_contents c) in Hi'. rewrite frames_push in Hi' by (done || lia).
  assert (can_contents c' = can_contents c ++ wire_bytes ws) as Hc.
  { destruct Hi' as [Hs' Hf' Hp' _ _ Hr']. unfold can_contents at 1. rewrite Hp', Nat2Z.id.
    apply list_eq. intros j. destruct (decide (j < length (can_contents c ++ wire_bytes ws))%nat).
    - rewrite lookup_take_lt by done. apply Hr'. lia.
    - rewrite lookup_take_ge by lia. symmetry. apply lookup_ge_None_2. lia. }
  eexists _, ws, c'. split; [exact Hrun|]. split; [done|]. split; [exact Hrx|]. split; [exact Hc|]. split; [done|].
  intros Hok. by rewrite Hc, Hall.
Qed.
End link.
