(* ===== verification/TrdispatchSpec.v ===== *)
(** * Homing with several micro-controllers

    A trigger that one micro-controller reports reaches all of them, once; and the timeout of a
    member is never extended beyond what the other members have reported. *)

From S2P Require Import Prelude State Vlq Crc Command CommandSpec Double Msgblock StepCompress Pollreactor.
From S2P Require Import Serialqueue Trdispatch MsgblockSpec BisectSpec PollreactorSpec SerialqueueSpec.
From S2P Require Import SerialqueueInv SerialqueueSend SerialqueueRecv SerialqueueOps.

(** ** One message *)

Lemma wp_on_sq {A} a (m : SQ A) h sq (Q : A → host → Prop) E :
  h_sqs h !! a = Some sq →
  wp m sq (λ r sq', Q r (h <| h_sqs := <[a := sq']> (h_sqs h) |>)) no_shut → wp (on_sq a m) h Q E.
Proof. unfold wp, on_sq. intros ->. by destruct (m sq). Qed.

(** The messages that wait on command queue [q] of serial queue [a]. *)
Definition waits (h : host) (a q : Z) : list message := from_option (λ sq, waiting_of sq q) [] (h_sqs h !! a).

(** The queues of member [m] exist and have room for [n] messages. *)
Definition has_room (h : host) (n : Z) (m : trdispatch_mcu) : Prop :=
  ∃ sq cq, h_sqs h !! tdm_sq m = Some sq ∧ sq_cqs sq !! tdm_cq m = Some cq ∧
    0 ≤ sq_upcoming_bytes sq ≤ 2147483647 - 64 * n.

(** What the queues have sent and received stays. *)
Definition same_links (h h' : host) : Prop :=
  ∀ a sq, h_sqs h !! a = Some sq → ∃ sq', h_sqs h' !! a = Some sq' ∧ link_part sq' = link_part sq.
#[export] Instance same_links_preorder : PreOrder same_links.
Proof.
  split; [by intros h a sq; eauto|]. intros h1 h2 h3 H12 H23 a sq Hsq.
  destruct (H12 a sq Hsq) as (sq2 & H2 & E2). destruct (H23 a sq2 H2) as (sq3 & H3 & E3).
  exists sq3. split; [done|congruence].
Qed.

(** The message [msg] is put at the end of one queue. *)
Record posted (h : host) (a q : Z) (msg : message) (h' : host) : Prop := {
  po_td : h_td h' = h_td h;
  po_here : waits h' a q = waits h a q ++ [msg];
  po_other a' q' : (a', q') ≠ (a, q) → waits h' a' q' = waits h a' q';
  po_room n m : has_room h (n + 1) m → has_room h' n m;
  po_links : same_links h h' }.

Lemma wp_send_one q msg cq sq c :
  sq_cqs sq !! q = Some cq → m_union msg = Clocks 0 c → 0 < m_len msg ≤ 64 →
  0 ≤ sq_upcoming_bytes sq ≤ 2147483647 - 64 →
  wp (serialqueue_send_one q msg) sq
    (λ _ sq', ∃ cq' mc, cq_ready cq' ++ cq_upcoming cq' = cq_ready cq ++ cq_upcoming cq ++ [msg <| m_union := Clocks mc c |>] ∧
       sq_cqs sq' = <[q := cq']> (sq_cqs sq) ∧ sq_upcoming_bytes sq' = sq_upcoming_bytes sq + m_len msg ∧
       link_part sq' = link_part sq) no_shut.
Proof.
  intros Hcq Hu Hl Hup. unfold serialqueue_send_one, serialqueue_send_batch. hstep. cbn [prepare_batch].
  hstep. eapply (wp_deref_eq _ 0); [by unfold m_min_clock; rewrite Hu|].
  hstep. eapply (wp_deref_eq _ c); [by unfold m_req_clock; rewrite Hu|].
  set (mc := if _ && _ then _ else _). hstep. apply wp_int32; [lia|]. do 3 hstep.
  rewrite (proj2 (Z.eqb_neq _ 0)) by lia. cbn [head]. do 2 hstep.
  hstep. eapply (wp_deref_eq _ mc); [done|]. do 3 hstep. eapply wp_deref_eq; [exact Hcq|].
  hstep. apply wp_int32; [lia|]. do 2 hstep.
  assert (∀ sq', sq_cqs sq' = <[q := cq <| cq_upcoming := cq_upcoming cq ++ [msg <| m_union := Clocks mc c |>] |>]> (sq_cqs sq) →
    sq_upcoming_bytes sq' = sq_upcoming_bytes sq + (0 + m_len msg) → link_part sq' = link_part sq →
    ∃ cq' mc, cq_ready cq' ++ cq_upcoming cq' = cq_ready cq ++ cq_upcoming cq ++ [msg <| m_union := Clocks mc c |>] ∧
       sq_cqs sq' = <[q := cq']> (sq_cqs sq) ∧ sq_upcoming_bytes sq' = sq_upcoming_bytes sq + m_len msg ∧
       link_part sq' = link_part sq) as Hfin.
  { intros sq' H1 H2 H3. exists (cq <| cq_upcoming := cq_upcoming cq ++ [msg <| m_union := Clocks mc c |>] |>), mc.
    split; [done|]. split; [done|]. split; [rewrite H2; lia|done]. }
  apply wp_when; intros _; [|by apply Hfin]. unfold kick_bg_thread. do 3 hstep. by apply Hfin.
Qed.

Lemma wp_post m msg h n c :
  has_room h n m → 1 ≤ n → m_union msg = Clocks 0 c → 0 < m_len msg ≤ 64 →
  wp (on_sq (tdm_sq m) (serialqueue_send_one (tdm_cq m) msg)) h
    (λ _ h', ∃ mc, posted h (tdm_sq m) (tdm_cq m) (msg <| m_union := Clocks mc c |>) h') no_shut.
Proof.
  intros (sq & cq & Hsq & Hcq & Hup) Hn Hu Hl. eapply wp_on_sq; [exact Hsq|].
  eapply wp_conseq; [by eapply wp_send_one; try lia|].
  intros [] sq' (cq' & mc & Hcont & Hcqs & Hb & Hlp). exists mc. split; [done|..]; unfold waits; cbn.
  - rewrite lookup_insert_eq, Hsq. cbn. unfold waiting_of. rewrite Hcqs, lookup_insert_eq, Hcq. cbn.
    by rewrite Hcont, <- app_assoc.
  - intros a' q' Hne. destruct (decide (a' = tdm_sq m)) as [->|].
    + rewrite lookup_insert_eq, Hsq. cbn. unfold waiting_of. rewrite Hcqs, lookup_insert_ne by congruence. done.
    + by rewrite lookup_insert_ne.
  - intros k m' (sqm & cqm & Hsqm & Hcqm & Hupm). unfold has_room. cbn. destruct (decide (tdm_sq m' = tdm_sq m)) as [E|].
    + rewrite E in *. rewrite lookup_insert_eq. rewrite Hsq in Hsqm. injection Hsqm as <-. exists sq'. rewrite Hcqs, Hb.
      destruct (decide (tdm_cq m' = tdm_cq m)) as [Eq|].
      * rewrite Eq, lookup_insert_eq. exists cq'. split_and!; [done..|lia|lia].
      * rewrite lookup_insert_ne by done. exists cqm. split_and!; [done..|lia|lia].
    + rewrite lookup_insert_ne by done. exists sqm, cqm. split_and!; [done..|lia|lia].
  - intros a' sqa Ha'. cbn. destruct (decide (a' = tdm_sq m)) as [->|]; [|rewrite lookup_insert_ne by done; by eauto].
    rewrite lookup_insert_eq. exists sq'. split; [done|congruence].
Qed.

(** ** The trigger *)

Definition member_ids (reason : Z) (m : trdispatch_mcu) : Prop :=
  is_u32 (tdm_trigger_msgtag m) ∧ is_u32 (tdm_set_timeout_msgtag m) ∧ is_u32 (tdm_trsync_oid m) ∧ is_u32 reason.

(** The command trsync_trigger for member [m]. *)
Definition trigger_bytes (reason : Z) (m : trdispatch_mcu) : list Z :=
  vlq_bytes [tdm_trigger_msgtag m; tdm_trsync_oid m; reason].

(** A message of three numbers. *)
Lemma encode_three x y z :
  is_u32 x → is_u32 y → is_u32 z →
  ∃ qm, message_alloc_and_encode [x; y; z] = Some qm ∧ payload_of qm = vlq_bytes [x; y; z] ∧ 0 < qm_len qm ≤ 64.
Proof.
  intros Hx Hy Hz. assert (Forall is_u32 [x; y; z]) as Hd by (by repeat (apply Forall_cons_2; [done|])).
  pose proof (vlq_bytes_length _ Hd) as Hl. cbn [length] in Hl.
  destruct (encode_payload_eq _ Hd ltac:(lia)) as (qm & Hqm & Hlen & Hp). exists qm. split; [done|]. split; [done|].
  rewrite Hlen. change (vlq_bytes [x; y; z]) with (encode_int x ++ vlq_bytes [y; z]) in *.
  rewrite length_app in *. pose proof (encode_int_length x Hx). lia.
Qed.

Lemma wp_send_trsync_trigger m h n :
  member_ids (td_dispatch_reason (h_td h)) m → has_room h n m → 1 ≤ n →
  wp (send_trsync_trigger m) h
    (λ _ h', ∃ msg, m_bytes msg = trigger_bytes (td_dispatch_reason (h_td h)) m ∧
       posted h (tdm_sq m) (tdm_cq m) msg h') no_shut.
Proof.
  intros (H1 & _ & H2 & H3) Hr Hn. unfold send_trsync_trigger. do 3 hstep.
  destruct (encode_three _ _ _ H1 H2 H3) as (qm & Hqm & Hp & Hl). eapply wp_deref_eq; [exact Hqm|].
  eapply wp_conseq; [by eapply wp_post|]. intros [] h' (mc & Hpost). eexists. split; [|exact Hpost]. exact Hp.
Qed.

(** The members that use the queue [q] of [a]. *)
Definition members_of (a q : Z) (ms : list trdispatch_mcu) : list trdispatch_mcu :=
  filter (λ m, tdm_sq m = a ∧ tdm_cq m = q) ms.

(** Every member's queue gets its trigger. *)
Definition triggered (h : host) (ms : list trdispatch_mcu) (h' : host) : Prop :=
  ∀ a q, ∃ new, waits h' a q = waits h a q ++ new ∧
    m_bytes <$> new = trigger_bytes (td_dispatch_reason (h_td h)) <$> members_of a q ms.

Lemma wp_trigger_loop ms h :
  Forall (member_ids (td_dispatch_reason (h_td h))) ms → Forall (has_room h (Z.of_nat (length ms))) ms →
  wp (trigger_loop ms) h (λ _ h', h_td h' = h_td h ∧ triggered h ms h' ∧ same_links h h') no_shut.
Proof.
  revert h. induction ms as [|m ms IH]; intros h Hids Hroom; cbn [trigger_loop].
  { hstep. split; [done|]. split; [|reflexivity]. intros a q. exists []. by rewrite app_nil_r. }
  apply Forall_cons in Hids as [Hid Hids]. apply Forall_cons in Hroom as [Hr Hroom]. cbn [length] in *.
  hstep. eapply wp_conseq; [by apply (wp_send_trsync_trigger _ _ (Z.of_nat (S (length ms)))); [..|lia]|].
  intros [] h1 (msg & Hb & [Htd Hhere Hother Hrm Hln]). eapply wp_conseq; [apply IH|].
  - by rewrite Htd.
  - eapply Forall_impl; [exact Hroom|]. intros m' Hm'. apply Hrm. by replace (Z.of_nat (length ms) + 1) with (Z.of_nat (S (length ms))) by lia.
  - intros [] h' (Htd' & Ht & Hln'). rewrite Htd in *. split; [done|]. split; [|by etrans]. intros a q. destruct (Ht a q) as (new & Hw & Hnew).
    rewrite Htd in Hnew. unfold members_of. rewrite filter_cons. destruct (decide (tdm_sq m = a ∧ tdm_cq m = q)) as [[<- <-]|Hne].
    + exists (msg :: new). rewrite Hw, Hhere, <- app_assoc. split; [done|]. cbn. by rewrite Hb, Hnew.
    + exists new. rewrite Hw, Hother by (intros [=]; subst; by destruct Hne). by split.
Qed.

(** ** Reports *)

#[export] Instance host_holds a :
  HoldsQueue (λ A, on_sq a (A := A)) (λ h, h_sqs h !! a) (λ sq h, h <| h_sqs := <[a := sq]> (h_sqs h) |>).
Proof.
  split.
  - intros sq sq' [sqs td]. cbn. by rewrite insert_insert_eq.
  - intros sq h _. apply lookup_insert_eq.
  - intros A m h sq Q E. apply wp_on_sq.
Qed.

(** A queue replaced by one with the same messages. *)
Lemma replace_queue h a sq sq' :
  h_sqs h !! a = Some sq → sq_cqs sq' = sq_cqs sq → sq_upcoming_bytes sq' = sq_upcoming_bytes sq →
  (∀ b q, waits (h <| h_sqs := <[a := sq']> (h_sqs h) |>) b q = waits h b q) ∧
  (∀ n m, has_room h n m → has_room (h <| h_sqs := <[a := sq']> (h_sqs h) |>) n m).
Proof.
  intros Hsq Hc Hu. split.
  - intros b q. unfold waits. cbn. destruct (decide (b = a)) as [->|]; [|by rewrite lookup_insert_ne].
    rewrite lookup_insert_eq, Hsq. cbn. unfold waiting_of. by rewrite Hc.
  - intros n m (sqm & cqm & Hsqm & Hcqm & Hupm). unfold has_room. cbn. destruct (decide (tdm_sq m = a)) as [E|].
    + rewrite E in *. rewrite lookup_insert_eq. rewrite Hsq in Hsqm. injection Hsqm as <-.
      exists sq', cqm. by rewrite Hc, Hu.
    + rewrite lookup_insert_ne by done. by exists sqm, cqm.
Qed.

Section reports.
Context `{OS : HostOS}.

(** Once triggered, reports change nothing. *)
Lemma handle_latched i data len h h' :
  td_can_trigger (h_td h) = 0 → handle_trsync_state i data len h = Ret tt h' → h' = h.
Proof.
  intros H0 H. unfold handle_trsync_state, get_tdm in H.
  apply bind_inv in H as (m & h1 & Hm & H). apply bind_inv in Hm as (h2 & h3 & [= <- <-] & Hm).
  apply deref_inv in Hm as [_ ->]. apply bind_inv in H as ([ret fields] & h1 & Hd & H). apply deref_inv in Hd as [_ ->].
  destruct (nz ret); [by injection H|]. apply bind_inv in H as (o & h1 & Hd & H). apply deref_inv in Hd as [_ ->].
  destruct (negb _); [by injection H|]. apply bind_inv in H as (c & h1 & Hd & H). apply deref_inv in Hd as [_ ->].
  apply bind_inv in H as (cl & h1 & Hd & H). apply deref_inv in Hd as [_ ->].
  apply bind_inv in H as (h1 & h2 & [= <- <-] & H). rewrite H0 in H. by injection H.
Qed.

(** The fields of trsync_state from member [m]. *)
Definition state_fields (tag : Z) (m : trdispatch_mcu) (can_trigger reason clock : Z) : list Z :=
  [tag; tdm_trsync_oid m; can_trigger; reason; clock].

(** What the handler does with a report while the group can trigger. *)
Lemma handle_report_eq i m h seq tag can_trigger reason clock :
  td_tdm_list (h_td h) !! i = Some m → td_can_trigger (h_td h) ≠ 0 → seq_ok seq →
  let fields := state_fields tag m can_trigger reason clock in
  Forall is_u32 fields →
  let n := Z.of_nat (length (vlq_bytes fields)) + 5 in
  handle_trsync_state i (add_frame seq n (vlq_bytes fields)) n h =
    (if negb (nz can_trigger) then
       modify (λ h, h <| h_td; td_can_trigger := 0 |>);;;
       trigger_loop (td_tdm_list (h_td h))
     else
       let! ce := on_sq (tdm_sq m) serialqueue_get_clock_est in
       upd_tdm i (λ tdm, tdm <| tdm_ce := ce |>
                             <| tdm_last_status_clock := clock_from_clock32 (ce_last_clock ce) clock |>);;;
       extend_timeouts) h.
Proof.
  intros Hm Hct Hseq fields Hf n. assert (length (vlq_bytes fields) ≤ 25)%nat as Hl by apply (vlq_bytes_length _ Hf).
  unfold handle_trsync_state. rewrite (bind_ret_eq (get_tdm i) _ h m h) by (unfold get_tdm, mbind, M_bind, get, deref; by rewrite Hm).
  rewrite (bind_ret_eq (deref _) _ h (0, fields) h) by (unfold n; by rewrite (decode_frame fields) by (done || lia)).
  change (nz 0) with false. cbn iota. rewrite (bind_ret_eq (deref _) _ h (tdm_trsync_oid m) h) by done.
  rewrite Z.eqb_refl. cbn [negb]. rewrite (bind_ret_eq (deref _) _ h can_trigger h) by done.
  rewrite (bind_ret_eq (deref _) _ h clock h) by done. rewrite (bind_ret_eq get _ h h h) by done.
  assert (nz (td_can_trigger (h_td h)) = true) as -> by (unfold nz; by apply negb_true_iff, Z.eqb_neq). done.
Qed.

Lemma wp_handle_trigger i m h seq tag reason clock :
  td_tdm_list (h_td h) !! i = Some m → td_can_trigger (h_td h) ≠ 0 → seq_ok seq →
  Forall is_u32 (state_fields tag m 0 reason clock) →
  Forall (member_ids (td_dispatch_reason (h_td h))) (td_tdm_list (h_td h)) →
  Forall (has_room h (Z.of_nat (length (td_tdm_list (h_td h))))) (td_tdm_list (h_td h)) →
  let payload := vlq_bytes (state_fields tag m 0 reason clock) in
  let n := Z.of_nat (length payload) + 5 in
  wp (handle_trsync_state i (add_frame seq n payload) n) h
    (λ _ h', h_td h' = (h_td h) <| td_can_trigger := 0 |> ∧ triggered h (td_tdm_list (h_td h)) h' ∧
       same_links h h') no_shut.
Proof.
  intros Hm Hct Hseq Hf Hids Hroom payload n. eapply wp_eq; [by apply handle_report_eq|]. cbn [nz Z.eqb negb].
  do 2 hstep. eapply wp_conseq; [apply wp_trigger_loop; [exact Hids|exact Hroom]|].
  intros [] h' (Htd & Ht & Hln). split; [exact Htd|]. split; [exact Ht|exact Hln].
Qed.

(** The callback of a member's reader. *)
Lemma call_reader_eq i m h data len :
  NoDup (fr_addr ∘ tdm_fr <$> td_tdm_list (h_td h)) → td_tdm_list (h_td h) !! i = Some m →
  call_reader (tdm_fr m) data len h = handle_trsync_state i data len h.
Proof.
  intros Hnd Hm. unfold call_reader, mbind at 1, M_bind at 1, get.
  assert (list_find (λ m', fr_addr (tdm_fr m') = fr_addr (tdm_fr m)) (td_tdm_list (h_td h)) = Some (i, m)) as ->; [|done].
  apply list_find_Some. split_and!; [done..|]. intros j m' Hj Hlt E.
  assert (j = i); [|lia]. eapply NoDup_lookup; [exact Hnd|by rewrite list_lookup_fmap, Hj|].
  rewrite list_lookup_fmap, Hm. cbn. by rewrite E.
Qed.

Lemma vlq_bytes_is_byte data : Forall is_u32 data → Forall is_byte (vlq_bytes data).
Proof.
  induction 1 as [|v data Hv Hd IH]; [constructor|]. change (vlq_bytes (v :: data)) with (encode_int v ++ vlq_bytes data).
  apply Forall_app. split; [|done]. destruct (encode_int_shape v Hv) as (cs & d & -> & _ & Hd' & Hcs).
  apply Forall_app. split; [eapply Forall_impl; [exact Hcs|]; unfold is_byte; cbn; lia|].
  constructor; [unfold is_byte; lia|constructor].
Qed.

(** The report of member [m] arrives at its queue, where its reader is found. *)
Lemma wp_report_triggers h a sq i m seq tag why clock eventtime :
  let td := h_td h in
  let payload := vlq_bytes (state_fields tag m 0 why clock) in
  let n := Z.of_nat (length payload) + 5 in
  let frame := add_frame (16 + seq mod 16) n payload in
  h_sqs h !! a = Some sq → sq_ok sq → sq_input sq = [] → sq_need_sync sq = 0 →
  sq_receive_seq sq ≤ seq ≤ sq_send_seq sq →
  td_tdm_list td !! i = Some m → find_fastreader (sq_fast_readers sq) frame n = Some (tdm_fr m) →
  NoDup (fr_addr ∘ tdm_fr <$> td_tdm_list td) → td_can_trigger td ≠ 0 →
  Forall is_u32 (state_fields tag m 0 why clock) →
  Forall (member_ids (td_dispatch_reason td)) (td_tdm_list td) →
  Forall (has_room h (Z.of_nat (length (td_tdm_list td)))) (td_tdm_list td) →
  wp (host_input a (ReadData frame) eventtime) h
    (λ _ h', h_td h' = td <| td_can_trigger := 0 |> ∧ triggered h (td_tdm_list td) h') no_shut.
Proof.
  intros td payload n frame Hsq Hok Hin Hns Hseq Hm Hfr Hnd Hct Hf Hids Hroom.
  pose proof (vlq_bytes_length _ Hf) as Hl. cbn [state_fields length] in Hl. fold payload in Hl.
  pose proof (vlq_bytes_is_byte _ Hf) as Hby. fold payload in Hby.
  destruct (so_send_seq _ Hok) as [Hss _]. pose proof (so_window _ Hok) as Hwin.
  unfold host_input. eapply (wp_input_event_frame call_reader seq payload eventtime sq Hok Hin Hns); [lia|done|lia|lia|exact Hsq|].
  intros sq2 Hok2 [_ _ _ _ _ [Hu _] _] Hin2. unfold untouched in Hu. injection Hu as Hcqs _ _ Hup _ _ _ _ _ _ _.
  fold n. fold frame. rewrite Hfr. destruct (replace_queue h a sq sq2 Hsq Hcqs Hup) as [Hwt Hrm].
  set (h1 := h <| h_sqs := <[a := sq2]> (h_sqs h) |>) in *. apply (wp_eq _ (handle_trsync_state i frame n)); [by apply call_reader_eq|].
  pose proof (wp_handle_trigger i m h1 (16 + seq mod 16) tag why clock Hm Hct (seq_nibble_ok seq) Hf Hids
    ltac:(by eapply Forall_impl; [exact Hroom|apply Hrm])) as Hh.
  eapply wp_conseq; [exact Hh|]. intros [] h' (Htd & Ht & Hln).
  destruct (Hln a sq2) as (sq3 & Hsq3 & [= _ _ _ Hin3 _]); [apply lookup_insert_eq|].
  exists sq3. split; [done|]. split; [by rewrite Hin3|]. split; [exact Htd|].
  pose (sq4 := sq3 <| sq_input := [] |>).
  destruct (replace_queue h' a sq3 sq4 Hsq3 eq_refl eq_refl) as [Hwt3 _].
  intros b q. destruct (Ht b q) as (new & Hw & Hnew). exists new. split; [|exact Hnew].
  etransitivity; [apply Hwt3|]. by rewrite Hw, Hwt.
Qed.

(** ** Registration *)

(** The arguments of one call of [trdispatch_mcu_alloc]. *)
Record member_args := mk_args
  { ma_fr : Z; ma_sq : Z; ma_cq : Z; ma_oid : Z; ma_set_timeout : Z; ma_trigger : Z; ma_state : Z }.
Fixpoint alloc_members (xs : list member_args) : MH unit :=
  match xs with
  | [] => mret tt
  | x :: xs =>
      trdispatch_mcu_alloc (ma_fr x) (ma_sq x) (ma_cq x) (ma_oid x) (ma_set_timeout x) (ma_trigger x) (ma_state x);;;
      alloc_members xs
  end.

(** The trsync objects of one controller have different ids. *)
Definition args_u32 (x : member_args) : Prop :=
  is_u32 (ma_oid x) ∧ is_u32 (ma_set_timeout x) ∧ is_u32 (ma_trigger x) ∧ is_u32 (ma_state x).
Record args_ok (xs : list member_args) : Prop := {
  ao_u32 : Forall args_u32 xs;
  ao_readers : NoDup (ma_fr <$> xs);
  ao_oids : NoDup ((λ x, (ma_sq x, ma_oid x)) <$> xs) }.

Definition reader_of (x : member_args) : fastreader := mk_fr (ma_fr x) (vlq_bytes [ma_state x; ma_oid x]).
Record made_from (x : member_args) (m : trdispatch_mcu) : Prop := {
  mf_fr : tdm_fr m = reader_of x;
  mf_sq : tdm_sq m = ma_sq x;
  mf_cq : tdm_cq m = ma_cq x;
  mf_oid : tdm_trsync_oid m = ma_oid x;
  mf_set_timeout : tdm_set_timeout_msgtag m = ma_set_timeout x;
  mf_trigger : tdm_trigger_msgtag m = ma_trigger x }.

Lemma alloc_members_inv xs h h' :
  Forall args_u32 xs → alloc_members xs h = Ret tt h' →
  ∃ ms, Forall2 made_from xs ms ∧ h' = h <| h_td; td_tdm_list := td_tdm_list (h_td h) ++ ms |>.
Proof.
  intros Hxs. revert h. induction Hxs as [|x xs (Ho & _ & _ & Hs) _ IH]; intros h; cbn [alloc_members].
  { intros [= <-]. exists []. split; [constructor|]. rewrite app_nil_r. by destruct h as [? []]. }
  intros H. apply bind_inv in H as ([] & h1 & Hx & H). apply bind_inv in Hx as (qm & h2 & Hd & Hx).
  apply deref_inv in Hd as [Hqm ->]. injection Hx as <-.
  assert (Forall is_u32 [ma_state x; ma_oid x]) as Hf by (by repeat (apply Forall_cons_2; [done|])).
  pose proof (vlq_bytes_length _ Hf) as Hl. cbn [length] in Hl.
  destruct (encode_payload_eq _ Hf ltac:(lia)) as (qm' & Hqm' & _ & Hp). rewrite Hqm in Hqm'. injection Hqm' as <-.
  apply IH in H as (ms & Hms & ->). set (tdm := mk_tdm _ _ _ _ _ _ _ _ _ _ _) in *.
  exists (tdm :: ms). split; [|destruct h as [? []]; cbn; by rewrite <- app_assoc].
  constructor; [|exact Hms]. split; [|done..]. unfold reader_of. by rewrite <- Hp.
Qed.

Lemma on_sq_inv {A} a (m : SQ A) h r h' :
  on_sq a m h = Ret r h' → ∃ sq sq', h_sqs h !! a = Some sq ∧ m sq = Ret r sq' ∧ h' = h <| h_sqs := <[a := sq']> (h_sqs h) |>.
Proof.
  unfold on_sq. destruct (h_sqs h !! a) as [sq|]; [|done]. destruct (m sq) as [r' sq'| | |] eqn:E; try done.
  intros [= <- <-]. by exists sq, sq'.
Qed.

(** The readers of the queue [a]. *)
Definition readers_at (h : host) (a : Z) : option (list fastreader) := sq_fast_readers <$> h_sqs h !! a.

Lemma add_readers_inv ms h h' :
  add_readers ms h = Ret tt h' →
  h_td h' = h_td h ∧ ∀ a, readers_at h' a = (.++ (tdm_fr <$> filter (λ m, tdm_sq m = a) ms)) <$> readers_at h a.
Proof.
  revert h. induction ms as [|m ms IH]; intros h; cbn [add_readers].
  { intros [= <-]. split; [done|]. intros a. unfold readers_at. destruct (h_sqs h !! a); [|done]. cbn. by rewrite app_nil_r. }
  intros H. apply bind_inv in H as ([] & h1 & Hx & H). apply on_sq_inv in Hx as (sq & sq' & Hsq & [= <-] & ->).
  apply IH in H as [Htd Hr]. split; [exact Htd|]. intros a. rewrite Hr, filter_cons. unfold readers_at. cbn.
  destruct (decide (tdm_sq m = a)) as [<-|]; [|by rewrite lookup_insert_ne].
  rewrite lookup_insert_eq, Hsq. cbn. by rewrite <- app_assoc.
Qed.

(** No member joins, no reader comes or goes, and the group is neither started nor stopped. *)
Definition member_ident (m : trdispatch_mcu) := (tdm_fr m, tdm_sq m, tdm_cq m, tdm_trsync_oid m, tdm_set_timeout_msgtag m, tdm_trigger_msgtag m).
Record kept (h h' : host) : Prop := {
  kp_readers a : readers_at h' a = readers_at h a;
  kp_members : member_ident <$> td_tdm_list (h_td h') = member_ident <$> td_tdm_list (h_td h);
  kp_active : td_is_active (h_td h') = td_is_active (h_td h);
  kp_reason : td_dispatch_reason (h_td h') = td_dispatch_reason (h_td h) }.

Lemma made_from_kept xs ms ms' :
  member_ident <$> ms' = member_ident <$> ms → Forall2 made_from xs ms → Forall2 made_from xs ms'.
Proof.
  intros E H. revert ms' E. induction H as [|x m xs ms [] _ IH]; intros [|m' ms'] [=]; constructor; [|by apply IH].
  split; congruence.
Qed.

Lemma made_readers a xs ms :
  Forall2 made_from xs ms → tdm_fr <$> filter (λ m, tdm_sq m = a) ms = reader_of <$> filter (λ x, ma_sq x = a) xs.
Proof.
  induction 1 as [|x m xs ms [Hfr Hsq _ _ _ _] _ IH]; [done|]. rewrite !filter_cons, Hsq.
  destruct (decide (ma_sq x = a)); [cbn; by rewrite Hfr, IH|done].
Qed.

(** The readers of other groups: they wait for other trsync objects. *)
Definition other_reader (xs : list member_args) (a : Z) (fr : fastreader) : Prop :=
  ∃ tag oid, fr_prefix fr = vlq_bytes [tag; oid] ∧ is_u32 tag ∧ is_u32 oid ∧
    (a, oid) ∉ (λ x, (ma_sq x, ma_oid x)) <$> xs.
Definition others_only (xs : list member_args) (h : host) : Prop :=
  ∀ a, Forall (other_reader xs a) (default [] (readers_at h a)).

(** The group allocated from [xs] has been started for [reason] and not stopped. *)
Record started (xs : list member_args) (reason : Z) (h : host) : Prop := {
  st_members : Forall2 made_from xs (td_tdm_list (h_td h));
  st_reason : td_dispatch_reason (h_td h) = reason;
  st_readers a rs : readers_at h a = Some rs →
    ∃ old, rs = old ++ (reader_of <$> filter (λ x, ma_sq x = a) xs) ∧ Forall (other_reader xs a) old }.

Lemma start_started xs reason h0 h1 h2 h3 h :
  args_ok xs → h_td h0 = trdispatch_alloc → others_only xs h0 → xs ≠ [] →
  alloc_members xs h0 = Ret tt h1 → kept h1 h2 → trdispatch_start reason h2 = Ret tt h3 → kept h3 h →
  started xs reason h.
Proof.
  intros [Hu _ _] Htd Hold Hne Halloc [K1 K2 K3 _] Hstart [L1 L2 _ L4].
  destruct (alloc_members_inv xs h0 h1 Hu Halloc) as (ms & Hms & ->). rewrite Htd in *. cbn in K2, K3.
  assert (Forall2 made_from xs (td_tdm_list (h_td h2))) as Hms2 by (by eapply made_from_kept).
  unfold trdispatch_start, mbind at 1, M_bind at 1, get in Hstart. rewrite K3, Htd in Hstart. cbn [trdispatch_alloc td_is_active nz Z.eqb negb orb] in Hstart.
  rewrite bool_decide_false in Hstart by (intros E; rewrite E in Hms2; by inversion Hms2; subst).
  apply bind_inv in Hstart as ([] & h4 & [= <-] & Hadd). apply add_readers_inv in Hadd as [Htd3 Hr3].
  rewrite Htd3 in L2, L4. split; [by eapply made_from_kept|exact L4|].
  intros a rs Hrs. rewrite L1, Hr3 in Hrs. change (readers_at _ a) with (readers_at h2 a) in Hrs. rewrite K1 in Hrs.
  change (readers_at _ a) with (readers_at h0 a) in Hrs. specialize (Hold a). destruct (readers_at h0 a) as [old|]; [|done].
  injection Hrs as <-. exists old. split; [|exact Hold]. f_equal. by apply made_readers.
Qed.

(** *** The prefix of a report *)

Lemma encode_int_prefix_free v w x y :
  is_u32 v → is_u32 w → encode_int v ++ x = encode_int w ++ y → v = w ∧ x = y.
Proof.
  intros Hv Hw E. pose proof (parse_encode_int [] v x Hv) as Pv. pose proof (parse_encode_int [] w y Hw) as Pw.
  cbn [app length] in Pv, Pw. rewrite E, Pw in Pv. injection Pv as -> _. split; [done|]. by eapply app_inv_head.
Qed.

Lemma find_reader_unique frs fr buf len :
  fr ∈ frs → Z.of_nat (length (fr_prefix fr)) + MESSAGE_MIN ≤ len →
  take (length (fr_prefix fr)) (drop (Z.to_nat MESSAGE_HEADER_SIZE) buf) = fr_prefix fr →
  (∀ fr', fr' ∈ frs → take (length (fr_prefix fr')) (drop (Z.to_nat MESSAGE_HEADER_SIZE) buf) = fr_prefix fr' → fr' = fr) →
  find_fastreader frs buf len = Some fr.
Proof.
  intros Hin Hlen Hpre Huniq. unfold find_fastreader.
  destruct (list_find _ frs) as [[k fr']|] eqn:E.
  - apply list_find_Some in E as (Hk & [_ Hp] & _). cbn. f_equal. apply Huniq; [by eapply list_elem_of_lookup_2|done].
  - apply list_find_None in E. rewrite Forall_forall in E. by destruct (E fr Hin).
Qed.

(** The report of the member made from [x] is the business of its reader. *)
Lemma report_finds_reader xs reason h i x sq seq data :
  args_ok xs → started xs reason h → xs !! i = Some x → h_sqs h !! ma_sq x = Some sq → seq_ok seq →
  (length (vlq_bytes (ma_state x :: ma_oid x :: data)) ≤ 59)%nat →
  let payload := vlq_bytes (ma_state x :: ma_oid x :: data) in
  let n := Z.of_nat (length payload) + 5 in
  find_fastreader (sq_fast_readers sq) (add_frame seq n payload) n = Some (reader_of x).
Proof.
  intros [Hu _ Hoids] [_ _ Hrs] Hx Hsq Hseq Hl payload n.
  destruct (Hrs (ma_sq x) (sq_fast_readers sq)) as (old & -> & Hold); [unfold readers_at; by rewrite Hsq|].
  pose proof (Forall_lookup_1 _ _ _ _ Hu Hx) as (Hxo & _ & _ & Hxs).
  assert (payload = vlq_bytes [ma_state x; ma_oid x] ++ vlq_bytes data) as Ep.
  { unfold payload, vlq_bytes. cbn. by rewrite app_nil_r, <- app_assoc. }
  assert (∃ tail, drop (Z.to_nat MESSAGE_HEADER_SIZE) (add_frame seq n payload) =
    vlq_bytes [ma_state x; ma_oid x] ++ vlq_bytes data ++ tail) as [tail Et].
  { unfold n. rewrite frame_eq by (done || lia). eexists. rewrite Ep, <- app_assoc. reflexivity. }
  apply find_reader_unique; rewrite ?Et.
  - apply elem_of_app. right. apply list_elem_of_fmap_2. apply list_elem_of_filter. split; [done|by eapply list_elem_of_lookup_2].
  - cbn [reader_of fr_prefix]. unfold n. rewrite Ep, length_app. unfold MESSAGE_MIN. lia.
  - apply take_app_length.
  - intros fr' Hin Hp. symmetry in Hp.
    assert (∀ tag oid, is_u32 tag → is_u32 oid → fr_prefix fr' = vlq_bytes [tag; oid] → tag = ma_state x ∧ oid = ma_oid x) as Huniq.
    { intros tag oid Htag Hoid E. pose proof (take_drop (length (fr_prefix fr')) (vlq_bytes [ma_state x; ma_oid x] ++ vlq_bytes data ++ tail)) as Ed.
      rewrite <- Hp, E in Ed. unfold vlq_bytes in Ed. cbn in Ed. rewrite !app_nil_r, <- !app_assoc in Ed.
      apply encode_int_prefix_free in Ed as [-> Ed]; [|done..]. by apply encode_int_prefix_free in Ed as [-> _]. }
    apply elem_of_app in Hin as [Hin|Hin].
    + rewrite Forall_forall in Hold. destruct (Hold _ Hin) as (tag & oid & E & Ht & Ho & Hni).
      destruct (Huniq tag oid Ht Ho E) as [_ ->]. destruct Hni. apply list_elem_of_fmap. exists x.
      split; [done|by eapply list_elem_of_lookup_2].
    + apply list_elem_of_fmap in Hin as (x' & -> & Hx'). apply list_elem_of_filter in Hx' as [Hsq' Hx'].
      apply list_elem_of_lookup in Hx' as [k Hk]. pose proof (Forall_lookup_1 _ _ _ _ Hu Hk) as (Hxo' & _ & _ & Hxs').
      destruct (Huniq _ _ Hxs' Hxo' eq_refl) as [_ E]. assert (k = i) as ->; [|congruence].
      eapply NoDup_lookup; [exact Hoids|by rewrite list_lookup_fmap, Hk|]. rewrite list_lookup_fmap, Hx. cbn. by rewrite Hsq', E.
Qed.

(** *** The members as they were allocated *)

Lemma started_ids xs reason h :
  Forall args_u32 xs → is_u32 reason → started xs reason h → Forall (member_ids (td_dispatch_reason (h_td h))) (td_tdm_list (h_td h)).
Proof.
  intros Hu Hr [Hms Hre _]. rewrite Hre. clear Hre. revert Hu. induction Hms as [|x m xs ms [] _ IH]; intros Hu; [constructor|].
  apply Forall_cons in Hu as [(H1 & H2 & H3 & H4) Hu]. constructor; [unfold member_ids; split_and!; congruence|by apply IH].
Qed.
Lemma started_addrs xs reason h :
  args_ok xs → started xs reason h → NoDup (fr_addr ∘ tdm_fr <$> td_tdm_list (h_td h)).
Proof.
  intros [_ Hnd _] [Hms _ _]. assert (fr_addr ∘ tdm_fr <$> td_tdm_list (h_td h) = ma_fr <$> xs) as ->; [|done]. clear Hnd.
  induction Hms as [|x m xs ms [Hfr _ _ _ _ _] _ IH]; [done|]. cbn. by rewrite Hfr, IH.
Qed.

(** The command trsync_trigger for the member made from [x]. *)
Definition trigger_command (reason : Z) (x : member_args) : list Z := vlq_bytes [ma_trigger x; ma_oid x; reason].
Lemma started_commands xs ms reason a q :
  Forall2 made_from xs ms →
  trigger_bytes reason <$> members_of a q ms = trigger_command reason <$> filter (λ x, ma_sq x = a ∧ ma_cq x = q) xs.
Proof.
  intros Hms. unfold members_of. induction Hms as [|x m xs ms [Hfr Hsq Hcq Ho _ Ht] _ IH]; [done|]. rewrite !filter_cons, Hsq, Hcq.
  destruct (decide (ma_sq x = a ∧ ma_cq x = q)); [|done]. cbn. rewrite IH. f_equal. unfold trigger_bytes, trigger_command. by rewrite Ht, Ho.
Qed.

(** C4: A group of micro-controllers from its allocation on: trdispatch_mcu_alloc has built the
    reader of each member (different trsync objects on each controller, none of which another
    reader waits for), trdispatch_start has registered them, and since then other calls have
    left members, readers and reason alone. When the trsync_state message by which one member
    reports a trigger arrives at its queue, as the next block of a synchronised connection, the
    queue finds the reader of exactly this member by its prefix, and the command queues of all
    members (which have room) get exactly one trsync_trigger command for each member, with its
    object id and the dispatch reason, in the order of allocation and behind what already waits
    there; the group is latched, so no later report has any effect. *)
Theorem trigger_reaches_all_mcus xs reason h0 h1 h2 h3 h i x sq seq why clock eventtime :
  let payload := vlq_bytes [ma_state x; ma_oid x; 0; why; clock] in
  let frame := add_frame (16 + seq mod 16) (Z.of_nat (length payload) + 5) payload in
  args_ok xs → is_u32 reason → h_td h0 = trdispatch_alloc → others_only xs h0 →
  alloc_members xs h0 = Ret tt h1 → kept h1 h2 → trdispatch_start reason h2 = Ret tt h3 → kept h3 h →
  td_can_trigger (h_td h) ≠ 0 → Forall (has_room h (Z.of_nat (length xs))) (td_tdm_list (h_td h)) →
  xs !! i = Some x → is_u32 why → is_u32 clock →
  h_sqs h !! ma_sq x = Some sq → sq_ok sq → sq_input sq = [] → sq_need_sync sq = 0 →
  sq_receive_seq sq ≤ seq ≤ sq_send_seq sq →
  ∃ h', host_input (ma_sq x) (ReadData frame) eventtime h = Ret tt h' ∧ h_td h' = (h_td h) <| td_can_trigger := 0 |> ∧
    (∀ a q, ∃ new, waits h' a q = waits h a q ++ new ∧
       m_bytes <$> new = trigger_command reason <$> filter (λ x, ma_sq x = a ∧ ma_cq x = q) xs) ∧
    ∀ j data len h2, handle_trsync_state j data len h' = Ret tt h2 → h2 = h'.
Proof.
  intros payload frame Hxs Hre Htd0 Hold Halloc K1 Hstart K2 Hct Hroom Hx Hwhy Hclock Hsq Hok Hin Hns Hseq.
  assert (xs ≠ []) as Hne by (intros ->; done).
  pose proof (start_started xs reason h0 h1 h2 h3 h Hxs Htd0 Hold Hne Halloc K1 Hstart K2) as Hst.
  pose proof (Forall_lookup_1 _ _ _ _ (ao_u32 _ Hxs) Hx) as (Hxo & _ & _ & Hxs').
  destruct (Forall2_lookup_l _ _ _ _ _ (st_members _ _ _ Hst) Hx) as (m & Hm & [Hfr Hmsq _ Hmo _ _]).
  assert (Forall is_u32 (state_fields (ma_state x) m 0 why clock)) as Hf.
  { unfold state_fields. rewrite Hmo. by repeat (apply Forall_cons_2; [done|]). }
  assert (payload = vlq_bytes (state_fields (ma_state x) m 0 why clock)) as Epay by (unfold state_fields; by rewrite Hmo).
  pose proof (vlq_bytes_length _ Hf) as Hl. rewrite <- Epay in Hl. cbn [state_fields length] in Hl.
  pose proof (vlq_bytes_is_byte _ Hf) as Hby. rewrite <- Epay in Hby.
  destruct (so_send_seq _ Hok) as [Hss _]. pose proof (so_window _ Hok) as Hwin.
  pose proof (report_finds_reader xs reason h i x sq (16 + seq mod 16) [0; why; clock] Hxs Hst Hx Hsq (seq_nibble_ok seq)
    ltac:(fold payload; lia)) as Hfind.
  rewrite (Forall2_length _ _ _ (st_members _ _ _ Hst)) in Hroom.
  destruct (wp_returns _ _ _ (wp_report_triggers h (ma_sq x) sq i m seq (ma_state x) why clock eventtime Hsq Hok Hin Hns Hseq Hm
    ltac:(rewrite <- Epay, Hfr; exact Hfind) (started_addrs _ _ _ Hxs Hst) Hct Hf (started_ids _ _ _ (ao_u32 _ Hxs) Hre Hst) Hroom))
    as ([] & h' & Hrun & Htd & Ht).
  rewrite <- Epay in Hrun. exists h'. split; [exact Hrun|]. split; [exact Htd|]. split.
  - intros a q. destruct (Ht a q) as (new & Hw & Hnew). exists new. split; [exact Hw|].
    rewrite Hnew, (st_reason _ _ _ Hst). apply started_commands, (st_members _ _ _ Hst).
  - intros j data len h4 H. eapply handle_latched; [|exact H]. by rewrite Htd.
Qed.
End reports.
