(* ===== verification/TimeoutSpec.v ===== *)
(** * The timeouts of a homing group

    After a report that all is well, [handle_trsync_state] extends the timeouts.  The time that
    counts for a member is the earliest of the last reports of the other members, so a member
    stops by itself when one of the others falls silent. *)

From S2P Require Import Prelude State Vlq Crc Command CommandSpec Double Msgblock StepCompress Pollreactor.
From S2P Require Import Serialqueue Trdispatch MsgblockSpec BisectSpec PollreactorSpec SerialqueueSpec.
From S2P Require Import SerialqueueInv SerialqueueSend SerialqueueRecv SerialqueueOps TrdispatchSpec.

(** ** The two earliest reports *)

Lemma dlt_le_trans x y z : dlt x z = true → dlt y z = false → is_Some (dkey y) → dlt x y = true.
Proof.
  intros (a & c & Ha & Hc & Hac)%dlt_key Hyz [b Hb]. apply dlt_key. exists a, b. split; [done|]. split; [done|].
  assert (¬ key_lt b c) as Hbc.
  { intros H. assert (dlt y z = true) as E by (apply dlt_key; eauto). congruence. }
  destruct_keys. unfold key_lt in *. lia.
Qed.

Record minima (ms : list trdispatch_mcu) (min_time next_min_time : double) (min_tdm : option nat) : Prop := {
  mi_some : is_Some (dkey min_time) ∧ is_Some (dkey next_min_time);
  mi_order : dlt next_min_time min_time = false;
  mi_min j m : ms !! j = Some m → dlt (status_time m) min_time = false;
  mi_next j m : ms !! j = Some m → Some j ≠ min_tdm → dlt (status_time m) next_min_time = false }.

Lemma lookup_snoc_cases {A} (l : list A) x j y :
  (l ++ [x]) !! j = Some y → l !! j = Some y ∨ j = length l ∧ y = x.
Proof.
  intros [H | [Hj H]]%lookup_app_Some; [by left|right]. apply list_lookup_singleton_Some in H as [? ->]. split; [lia|done].
Qed.

Lemma min_loop_minima ms pre min_time next_min_time min_tdm :
  minima pre min_time next_min_time min_tdm →
  let '(min', next', tdm') := min_loop ms (length pre) min_time next_min_time min_tdm in
  minima (pre ++ ms) min' next' tdm'.
Proof.
  revert pre min_time next_min_time min_tdm. induction ms as [|m ms IH]; intros pre mt nt td [[H1 H2] Ho Hm Hn]; cbn [min_loop].
  { by rewrite app_nil_r. }
  assert (length (pre ++ [m]) = S (length pre)) as Hl by (rewrite length_app; cbn; lia).
  rewrite (cons_middle m pre ms), app_assoc, <- Hl. set (t := status_time m) in *.
  destruct (dlt t nt) eqn:Hlt; [destruct (dlt t mt) eqn:Hlm|]; apply IH; constructor; try done; try (by split; auto).
  - split; [|done]. by eapply dlt_not_nan.
  - destruct (dlt mt t) eqn:E; [|done]. pose proof (dlt_trans _ _ _ Hlm E) as F. cbv beta in F. by rewrite dlt_irrefl in F.
  - intros j x [Hx | [-> ->]]%lookup_snoc_cases; [|apply dlt_irrefl]. destruct (dlt (status_time x) t) eqn:E; [|done].
    pose proof (dlt_trans _ _ _ E Hlm) as F. cbv beta in F. by rewrite (Hm j x Hx) in F.
  - intros j x [Hx | [-> ->]]%lookup_snoc_cases Hne; [by eapply Hm|done].
  - split; [done|]. by eapply dlt_not_nan.
  - intros j x [Hx | [-> ->]]%lookup_snoc_cases; [by eapply Hm|done].
  - intros j x [Hx | [-> ->]]%lookup_snoc_cases Hne; [|apply dlt_irrefl]. destruct (dlt (status_time x) t) eqn:E; [|done].
    pose proof (dlt_trans _ _ _ E Hlt) as F. cbv beta in F. by rewrite (Hn j x Hx Hne) in F.
  - intros j x [Hx | [-> ->]]%lookup_snoc_cases; [by eapply Hm|]. fold t. destruct (dlt t mt) eqn:E; [|done].
    by rewrite (dlt_le_trans t nt mt) in Hlt by done.
  - intros j x [Hx | [-> ->]]%lookup_snoc_cases Hne; [by eapply Hn|done].
Qed.

(** The time that counts for member [k]. *)
Definition report_time (min_time next_min_time : double) (min_tdm : option nat) (k : nat) : double :=
  if bool_decide (Some k = min_tdm) then (if deq next_min_time PR_NEVER then min_time else next_min_time) else min_time.

(** Reports lie before PR_NEVER, the time that stands for none. *)
Definition reported (m : trdispatch_mcu) : Prop := dlt (status_time m) PR_NEVER = true.

(** The loop holds the two earliest reports of the members so far, which are those of two members. *)
Definition earliest_two (ms : list trdispatch_mcu) (min_time next_min_time : double) (min_tdm : option nat) : Prop :=
  match ms with
  | [] => min_time = PR_NEVER ∧ next_min_time = PR_NEVER ∧ min_tdm = None
  | [m] => min_time = status_time m ∧ next_min_time = PR_NEVER ∧ min_tdm = Some 0%nat
  | _ => ∃ i mi j mj, ms !! i = Some mi ∧ ms !! j = Some mj ∧ i ≠ j ∧
           min_time = status_time mi ∧ next_min_time = status_time mj ∧ min_tdm = Some i
  end.

(** One round of the loop. *)
Lemma earliest_two_snoc pre m min_time next_min_time min_tdm :
  reported m → earliest_two pre min_time next_min_time min_tdm →
  let t := status_time m in
  let '(min', next', tdm') :=
    if dlt t next_min_time then
      if dlt t min_time then (t, min_time, Some (length pre)) else (min_time, t, min_tdm)
    else (min_time, next_min_time, min_tdm) in
  earliest_two (pre ++ [m]) min' next' tdm'.
Proof.
  intros Hr H t. unfold reported in Hr. destruct pre as [|m0 [|m1 pre]]; cbn [earliest_two] in H.
  - destruct H as (-> & -> & ->). fold t in Hr. rewrite Hr. by cbn [app earliest_two].
  - destruct H as (-> & -> & ->). fold t in Hr. rewrite Hr. destruct (dlt t (status_time m0)); cbn [app earliest_two].
    + exists 1%nat, m, 0%nat, m0. by split_and!.
    + exists 0%nat, m0, 1%nat, m. by split_and!.
  - destruct H as (i & mi & j & mj & Hi & Hj & Hne & -> & -> & ->). set (l := m0 :: m1 :: pre) in *.
    assert (∀ a b c, earliest_two (l ++ [m]) a b c = (∃ i mi j mj, (l ++ [m]) !! i = Some mi ∧ (l ++ [m]) !! j = Some mj ∧ i ≠ j ∧
           a = status_time mi ∧ b = status_time mj ∧ c = Some i)) as E by done.
    pose proof (lookup_lt_Some _ _ _ Hi) as Li. pose proof (lookup_lt_Some _ _ _ Hj) as Lj.
    pose proof (lookup_app_l_Some l [m] _ _ Hi) as Hi'. pose proof (lookup_app_l_Some l [m] _ _ Hj) as Hj'.
    assert ((l ++ [m]) !! length l = Some m) as Hm by (by apply list_lookup_middle).
    destruct (dlt t (status_time mj)); [destruct (dlt t (status_time mi))|]; rewrite E.
    + exists (length l), m, i, mi. split_and!; try done. lia.
    + exists i, mi, (length l), m. split_and!; try done. lia.
    + by exists i, mi, j, mj.
Qed.

Lemma min_loop_earliest ms pre min_time next_min_time min_tdm :
  Forall reported ms → earliest_two pre min_time next_min_time min_tdm →
  let '(min', next', tdm') := min_loop ms (length pre) min_time next_min_time min_tdm in
  earliest_two (pre ++ ms) min' next' tdm'.
Proof.
  intros Hr. revert pre min_time next_min_time min_tdm. induction Hr as [|m ms Hm Hr IH]; intros pre mt nt td H; cbn [min_loop].
  { by rewrite app_nil_r. }
  assert (length (pre ++ [m]) = S (length pre)) as Hl by (rewrite length_app; cbn; lia).
  rewrite (cons_middle m pre ms), app_assoc, <- Hl. pose proof (earliest_two_snoc pre m mt nt td Hm H) as Hs. cbn zeta in Hs.
  destruct (dlt (status_time m) nt); [destruct (dlt (status_time m) mt)|]; apply IH; exact Hs.
Qed.

(** The earliest of the last reports of the members other than [k]; a member that is alone in its
    group goes by its own report. *)
Record earliest_of_others (ms : list trdispatch_mcu) (k : nat) (t : double) : Prop := {
  eo_early j m : ms !! j = Some m → j ≠ k → dlt (status_time m) t = false;
  eo_report : ∃ j m, ms !! j = Some m ∧ t = status_time m ∧ (j ≠ k ∨ length ms = 1%nat) }.

Lemma dlt_deq_false x y : dlt x y = true → deq x y = false.
Proof. unfold dlt, deq, SpecFloat.SFltb, SpecFloat.SFeqb. by destruct (SpecFloat.SFcompare x y) as [[]|]. Qed.

Lemma report_time_ok ms min_time next_min_time min_tdm k :
  Forall reported ms → (k < length ms)%nat → min_loop ms 0 PR_NEVER PR_NEVER None = (min_time, next_min_time, min_tdm) →
  earliest_of_others ms k (report_time min_time next_min_time min_tdm k).
Proof.
  intros Hr Hk Hloop. pose proof (min_loop_minima ms [] PR_NEVER PR_NEVER None) as H.
  pose proof (min_loop_earliest ms [] PR_NEVER PR_NEVER None Hr ltac:(done)) as He. cbn [length] in H, He. rewrite Hloop in H, He.
  destruct H as [_ _ Hm Hn]; [constructor; [by split; vm_compute; eauto|done..]|]. cbn [app] in *.
  unfold report_time. split.
  - intros j m Hj Hne. case_bool_decide as E; [|by eapply Hm]. destruct (deq _ _); [by eapply Hm|].
    eapply Hn; [done|]. congruence.
  - destruct ms as [|m0 [|m1 ms]]; cbn [earliest_two length] in He, Hk; [lia|..].
    + destruct He as (-> & -> & ->). assert (k = 0%nat) as -> by lia. exists 0%nat, m0. split; [done|]. split; [|by right].
      rewrite bool_decide_true by done. done.
    + destruct He as (i & mi & j & mj & Hi & Hj & Hne & -> & -> & ->). case_bool_decide as E.
      * injection E as ->. pose proof (Forall_lookup_1 _ _ _ _ Hr Hj) as Hlt. rewrite (dlt_deq_false _ _ Hlt).
        exists j, mj. split; [done|]. split; [done|]. left. congruence.
      * exists i, mi. split; [done|]. split; [done|]. left. congruence.
Qed.

Section timeouts.
Context `{OS : HostOS}.

(** ** The messages *)

(** The new timeout of member [m] when the report of time [t] counts for it. *)
Definition expire_at (t : double) (m : trdispatch_mcu) : Z := u64 (clock_from_time (tdm_ce m) t + tdm_expire_ticks m).
(** The comparison of the code. *)
Definition extends (t : double) (m : trdispatch_mcu) : bool :=
  tdm_min_extend_ticks m <=? u64 (i64 (expire_at t m - tdm_expire_clock m)).
Definition renewed (t : double) (m : trdispatch_mcu) : trdispatch_mcu :=
  if extends t m then m <| tdm_expire_clock := expire_at t m |> else m.
(** The members from number [i] on, and those of them that are told. *)
Definition renew (f : nat → double) (i : nat) (ms : list trdispatch_mcu) : list trdispatch_mcu :=
  imap (λ k m, renewed (f (i + k)%nat) m) ms.
Fixpoint told (f : nat → double) (i : nat) (ms : list trdispatch_mcu) : list trdispatch_mcu :=
  match ms with
  | [] => []
  | m :: ms => (if extends (f i) m then [renewed (f i) m] else []) ++ told f (S i) ms
  end.

Definition timeout_bytes (m : trdispatch_mcu) : list Z :=
  vlq_bytes [tdm_set_timeout_msgtag m; tdm_trsync_oid m; u32 (tdm_expire_clock m)].

Lemma is_u32_u32 x : is_u32 (u32 x).
Proof. unfold is_u32, u32. apply Z.mod_pos_bound. lia. Qed.

Lemma wp_send_trsync_set_timeout m reason h n :
  member_ids reason m → has_room h n m → 1 ≤ n →
  wp (send_trsync_set_timeout m) h
    (λ _ h', ∃ msg, m_bytes msg = timeout_bytes m ∧ m_req_clock msg = Some (tdm_expire_clock m) ∧
       posted h (tdm_sq m) (tdm_cq m) msg h') no_shut.
Proof.
  intros (_ & H1 & H2 & _) Hr Hn. unfold send_trsync_set_timeout. hstep.
  destruct (encode_three _ _ _ H1 H2 (is_u32_u32 (tdm_expire_clock m))) as (qm & Hqm & Hp & Hl).
  eapply wp_deref_eq; [exact Hqm|]. eapply wp_conseq; [by eapply wp_post|].
  intros [] h' (mc & Hpost). eexists. split; [|split; [|exact Hpost]]; [exact Hp|done].
Qed.

(** The queues get the messages for the members [ms]. *)
Definition told_all (h : host) (ms : list trdispatch_mcu) (h' : host) : Prop :=
  ∀ a q, ∃ new, waits h' a q = waits h a q ++ new ∧
    (λ msg, (m_bytes msg, m_req_clock msg)) <$> new =
    (λ m, (timeout_bytes m, Some (tdm_expire_clock m))) <$> members_of a q ms.

Lemma renewed_queues t m : tdm_sq (renewed t m) = tdm_sq m ∧ tdm_cq (renewed t m) = tdm_cq m.
Proof. unfold renewed. by destruct (extends t m). Qed.

Lemma alter_eq_insert {A} (f : A → A) (i : nat) (l : list A) x : l !! i = Some x → alter f i l = <[i := f x]> l.
Proof. revert i. induction l as [|y l IH]; intros [|i] H; cbn in *; [done|done|by injection H as ->|by rewrite <- IH]. Qed.

Lemma renew_cons f i m ms : renew f i (m :: ms) = renewed (f i) m :: renew f (S i) ms.
Proof.
  unfold renew. rewrite imap_cons, Nat.add_0_r. f_equal. apply imap_ext. intros k x _. cbn. by rewrite Nat.add_succ_r.
Qed.

(** One member. *)
Lemma wp_extend_timeout pre m post t n h :
  td_tdm_list (h_td h) = pre ++ m :: post → member_ids (td_dispatch_reason (h_td h)) m → has_room h n m → 1 ≤ n →
  wp (extend_timeout (length pre) t) h
    (λ _ h', h_td h' = (h_td h) <| td_tdm_list := pre ++ renewed t m :: post |> ∧
       told_all h (if extends t m then [renewed t m] else []) h' ∧ same_links h h' ∧
       ∀ k m', has_room h (k + 1) m' → has_room h' k m') no_shut.
Proof.
  intros Hl Hid Hr Hn. destruct (renewed_queues t m) as [Hq1 Hq2]. unfold extend_timeout. hstep. unfold get_tdm at 1. do 2 hstep.
  eapply wp_deref_eq; [rewrite Hl; by apply list_lookup_middle|]. fold (expire_at t m). fold (extends t m).
  unfold renewed. destruct (extends t m) eqn:He; hstep.
  - unfold upd_tdm, get_tdm. do 5 hstep. cbn [h_td td_tdm_list upd]. rewrite Hl, alter_middle.
    set (m1 := m <| tdm_expire_clock := expire_at t m |>). set (h0 := upd h_td _ h).
    eapply (wp_deref_eq _ m1); [by apply list_lookup_middle|].
    eapply wp_conseq; [by apply (wp_send_trsync_set_timeout _ (td_dispatch_reason (h_td h)) h0 n)|].
    intros [] h1 (msg & Hb & Hc & [Htd Hhere Hother Hrm Hln]). split; [|split; [|split; [exact Hln|exact Hrm]]].
    + rewrite Htd. unfold h0. by destruct h as [? []].
    + intros a q. unfold members_of. rewrite filter_cons, filter_nil.
      destruct (decide (tdm_sq m1 = a ∧ tdm_cq m1 = q)) as [[<- <-]|Hne].
      * exists [msg]. split; [exact Hhere|]. cbn [fmap list_fmap]. by rewrite Hb, Hc.
      * exists []. rewrite app_nil_r. split; [|done]. apply Hother. intros [=]. subst. by destruct Hne.
  - split; [rewrite <- Hl; by destruct h as [? []]|]. split; [|split; [reflexivity|]].
    + intros a q. exists []. by rewrite app_nil_r.
    + intros k m' (sqm & cqm & ? & ? & Hb). exists sqm, cqm. split_and!; [done..|lia|lia].
Qed.

Lemma told_all_app h l1 h1 l2 h2 : told_all h l1 h1 → told_all h1 l2 h2 → told_all h (l1 ++ l2) h2.
Proof.
  intros T1 T2 a q. destruct (T1 a q) as (n1 & W1 & E1). destruct (T2 a q) as (n2 & W2 & E2).
  exists (n1 ++ n2). rewrite W2, W1, <- app_assoc. split; [done|]. unfold members_of in *.
  rewrite filter_app, !fmap_app. by rewrite E1, E2.
Qed.

Lemma wp_timeout_loop ms pre min_time next_min_time min_tdm h :
  let f k := if bool_decide (Some k = min_tdm) then next_min_time else min_time in
  td_tdm_list (h_td h) = pre ++ ms → Forall (member_ids (td_dispatch_reason (h_td h))) ms →
  Forall (has_room h (Z.of_nat (length ms))) ms →
  wp (timeout_loop (length ms) (length pre) min_time next_min_time min_tdm) h
    (λ _ h', h_td h' = (h_td h) <| td_tdm_list := pre ++ renew f (length pre) ms |> ∧
       told_all h (told f (length pre) ms) h' ∧ same_links h h') no_shut.
Proof.
  intros f. revert pre h. induction ms as [|m ms IH]; intros pre h Hl Hids Hroom; cbn [timeout_loop length].
  { hstep. split; [destruct h as [sqs [l ? ? ?]]; cbn in *; by rewrite Hl|]. split; [|reflexivity].
    intros a q. exists []. by rewrite app_nil_r. }
  apply Forall_cons in Hids as [Hid Hids]. apply Forall_cons in Hroom as [Hr Hroom]. fold (f (length pre)).
  set (m1 := renewed (f (length pre)) m).
  assert (length (pre ++ [m1]) = S (length pre)) as Hlen by (rewrite length_app; cbn; lia).
  hstep. eapply wp_conseq; [by apply (wp_extend_timeout pre m ms _ (Z.of_nat (S (length ms)))); [..|lia]|].
  intros [] h1 (Htd & Ht & Hln & Hrm). fold m1 in Htd. rewrite <- Hlen. eapply wp_conseq; [apply IH|].
  - rewrite Htd, <- app_assoc. done.
  - by rewrite Htd.
  - eapply Forall_impl; [exact Hroom|]. intros m' Hm'. apply Hrm.
    by replace (Z.of_nat (length ms) + 1) with (Z.of_nat (S (length ms))) by lia.
  - rewrite Hlen. intros [] h' (Htd' & Ht' & Hln'). split; [|split; [|by etrans]].
    + by rewrite Htd', Htd, <- app_assoc, renew_cons.
    + by eapply told_all_app.
Qed.

(** The whole handler: [ms] are the members with the new report in them. *)
Lemma wp_extend_timeouts h :
  let ms := td_tdm_list (h_td h) in
  Forall reported ms →
  Forall (member_ids (td_dispatch_reason (h_td h))) ms → Forall (has_room h (Z.of_nat (length ms))) ms →
  wp extend_timeouts h
    (λ _ h', ∃ f, (∀ k, (k < length ms)%nat → earliest_of_others ms k (f k)) ∧
       h_td h' = (h_td h) <| td_tdm_list := renew f 0 ms |> ∧ told_all h (told f 0 ms) h' ∧ same_links h h') no_shut.
Proof.
  intros ms Hrep Hids Hroom. unfold extend_timeouts. do 2 hstep. fold ms.
  destruct (min_loop ms 0 PR_NEVER PR_NEVER None) as [[mn nx] mt] eqn:Hmin.
  eapply wp_conseq; [by apply (wp_timeout_loop ms [])|].
  intros [] h' (Htd & Ht & Hln). exists (report_time mn nx mt). split; [intros k Hk; by apply report_time_ok|]. by split_and!.
Qed.

(** C18: A report that all is well, in a group whose members have all reported times before
    PR_NEVER, extends the timeouts only as far as the other members have reported: the time
    that counts for a member is the earliest of the last reports of the other members, and the
    report of one of them (a member that is alone counts its own); exactly the members whose
    new timeout passes the comparison of the code get it, with one trsync_set_timeout command
    that carries it. *)
Theorem timeouts_follow_other_mcus i m h sq seq tag can_trigger reason clock :
  let td := h_td h in
  let fields := state_fields tag m can_trigger reason clock in
  let n := Z.of_nat (length (vlq_bytes fields)) + 5 in
  td_tdm_list td !! i = Some m → h_sqs h !! tdm_sq m = Some sq → td_can_trigger td ≠ 0 → can_trigger ≠ 0 →
  seq_ok seq → Forall is_u32 fields → Forall (member_ids (td_dispatch_reason td)) (td_tdm_list td) →
  Forall (has_room h (Z.of_nat (length (td_tdm_list td)))) (td_tdm_list td) →
  let m' := m <| tdm_ce := sq_ce sq |> <| tdm_last_status_clock := clock_from_clock32 (ce_last_clock (sq_ce sq)) clock |> in
  let ms := <[i := m']> (td_tdm_list td) in
  Forall reported ms →
  ∃ h' f, handle_trsync_state i (add_frame seq n (vlq_bytes fields)) n h = Ret tt h' ∧
    (∀ k, (k < length ms)%nat → earliest_of_others ms k (f k)) ∧ h_td h' = td <| td_tdm_list := renew f 0 ms |> ∧
    told_all h (told f 0 ms) h'.
Proof.
  intros td fields n Hm Hsq Hct Hcan Hseq Hf Hids Hroom m' ms Hrep.
  assert (wp (handle_trsync_state i (add_frame seq n (vlq_bytes fields)) n) h
    (λ _ h', ∃ f, (∀ k, (k < length ms)%nat → earliest_of_others ms k (f k)) ∧ h_td h' = td <| td_tdm_list := renew f 0 ms |> ∧
       told_all h (told f 0 ms) h' ∧ same_links h h') no_shut) as Hw.
  { eapply wp_eq; [by apply handle_report_eq|].
    assert (nz can_trigger = true) as -> by (unfold nz; by apply negb_true_iff, Z.eqb_neq). cbn [negb].
    hstep. eapply wp_on_sq; [exact Hsq|]. unfold serialqueue_get_clock_est. hstep.
    rewrite insert_id by done. unfold upd_tdm. do 2 hstep. set (h1 := upd h_td _ _).
    assert (td_tdm_list (h_td h1) = ms) as Hms.
    { pose (g := λ tdm, tdm <| tdm_ce := sq_ce sq |>
                            <| tdm_last_status_clock := clock_from_clock32 (ce_last_clock (sq_ce sq)) clock |>).
      exact (alter_eq_insert g i _ m Hm). }
    assert (length ms = length (td_tdm_list td)) as Hlen by apply length_insert.
    eapply wp_conseq; [apply (wp_extend_timeouts h1)|]; rewrite Hms.
    - exact Hrep.
    - by apply Forall_insert; [exact Hids|eapply (Forall_lookup_1 _ _ _ _ Hids Hm)].
    - rewrite Hlen. by apply Forall_insert; [exact Hroom|eapply (Forall_lookup_1 _ _ _ _ Hroom Hm)].
    - intros [] h' (f & H1 & H2 & H3 & H4). exists f. split; [done|]. split; [|by split]. by rewrite H2. }
  destruct (wp_returns _ _ _ Hw) as ([] & h' & Hrun & f & H1 & H2 & H3 & _). by exists h', f.
Qed.

(** The signed comparison of the new timeout with the old one is made unsigned by the type of
    min_extend_ticks: a timeout that lies before the one already sent passes it, and the member
    is told to give up earlier. *)
Theorem timeout_moved_back pre m post t h :
  td_tdm_list (h_td h) = pre ++ m :: post → member_ids (td_dispatch_reason (h_td h)) m → has_room h 1 m →
  tdm_min_extend_ticks m ≤ 2 ^ 63 → expire_at t m < tdm_expire_clock m ≤ expire_at t m + 2 ^ 63 →
  let m' := m <| tdm_expire_clock := expire_at t m |> in
  ∃ h', extend_timeout (length pre) t h = Ret tt h' ∧ td_tdm_list (h_td h') = pre ++ m' :: post ∧ told_all h [m'] h'.
Proof.
  intros Hl Hid Hr Hmin Hex m'.
  assert (extends t m = true) as He.
  { apply Z.leb_le. assert (u64 (i64 (expire_at t m - tdm_expire_clock m)) = expire_at t m - tdm_expire_clock m + 2 ^ 64) as ->; [|lia].
    unfold i64. rewrite <- (Z.mod_add _ 1), Z.mul_1_l, (Z.mod_small (_ + 2 ^ 64)) by lia.
    destruct (Z.ltb_spec (expire_at t m - tdm_expire_clock m + 2 ^ 64) (2 ^ 63)); [lia|].
    unfold u64. rewrite <- (Z.mod_add _ 1), Z.mul_1_l, Z.mod_small by lia. lia. }
  destruct (wp_returns _ _ _ (wp_extend_timeout pre m post t 1 h Hl Hid Hr ltac:(lia))) as ([] & h' & Hrun & Htd & Ht & _).
  unfold renewed in *. rewrite He in *. exists h'. split; [done|]. split; [by rewrite Htd|done].
Qed.
End timeouts.
