(* ===== verification/Reach.v ===== *)
(** * What no part of the firmware undoes

    [evolves s s'] relates a state to the later ones: the trace only grows, the shutdown
    status and its reason stay (only [run_shutdown] and [sched_clear_shutdown] change them),
    timers stay allocated, the type of an object id and the place of the move pool are
    written once (only [config_reset], a command on boards that declare it, frees them).
    [Keeps m]: every run of [m] evolves the state, however it ends.  The
    tactic [solve_keeps] follows the structure of a program; components add their
    functions to the database [keeps]. *)

From S2P Require Import Prelude State Runtime Sched Vlq Crc Command Basecmd OidSpec Trsync Stepper Endstop.
From S2P Require Import Outputs Inputs Buses Sensors Tmcuart Lcd Firmware.

Record base_evolves (b b' : base_state) : Prop := {
  be_types i e t : oid_entry b i = Some e → o_type e = Some t →
    ∃ e', oid_entry b' i = Some e' ∧ o_type e' = Some t;
  be_pool : move_count b ≠ 0 →
    move_count b' = move_count b ∧ move_list b' = move_list b ∧ move_item_size b' = move_item_size b;
  be_oids : oids_ok b → oids_ok b';
}.

Record evolves (s s' : mcu) : Prop := {
  ev_trace : ∃ l, trace s' = l ++ trace s;
  ev_reads : (hw_reads s ≤ hw_reads s')%nat;
  ev_status : shutdown_status (sched s') = shutdown_status (sched s);
  ev_reason : shutdown_reason (sched s') = shutdown_reason (sched s);
  ev_timers t : is_Some (timers (sched s) !! t) → is_Some (timers (sched s') !! t);
  ev_base : base_evolves (base s) (base s');
}.

#[export] Instance base_evolves_preorder : PreOrder base_evolves.
Proof.
  split; [split; eauto|]. intros b1 b2 b3 [Ht Hp Ho] [Ht' Hp' Ho']. split.
  - intros i e t He Hty. destruct (Ht _ _ _ He Hty) as (e' & He' & Hty'). by eapply Ht'.
  - intros Hc. destruct (Hp Hc) as (H1 & H2 & H3).
    rewrite <- H1, <- H2, <- H3. apply Hp'. by rewrite H1.
  - auto.
Qed.
#[export] Instance evolves_preorder : PreOrder evolves.
Proof.
  split.
  - intros s. split; try done. by exists [].
  - intros s1 s2 s3 [[l Hl] ? ? ? ? ?] [[l' Hl'] ? ? ? ? ?]. split; try congruence; try lia; eauto.
    + exists (l' ++ l). by rewrite Hl', Hl, app_assoc.
    + by etransitivity.
Qed.

Definition ends_in {A} (R : mcu → Prop) (r : result mcu A) : Prop :=
  match r with Ret _ s | Shut _ s => R s | Undef | Diverge => True end.
Definition Keeps {A} (m : MC A) : Prop := ∀ s, ends_in (evolves s) (m s).

Create HintDb keeps.

(** ** Structure *)

Lemma keeps_ret {A} (x : A) : Keeps (mret x).
Proof. intros s. change (evolves s s). reflexivity. Qed.
Lemma keeps_bind {A C} (m : MC A) (k : A → MC C) : Keeps m → (∀ x, Keeps (k x)) → Keeps (mbind k m).
Proof.
  intros Hm Hk s. unfold mbind, M_bind. specialize (Hm s). destruct (m s) as [x s'|r s'| |]; try done.
  cbn in Hm |- *. specialize (Hk x s'). destruct (k x s'); try done; cbn in *; by etransitivity.
Qed.
Lemma keeps_when b (m : MC unit) : (b = true → Keeps m) → Keeps (whenM b m).
Proof. destruct b; [auto|]. intros _. apply keeps_ret. Qed.
Lemma keeps_modify f : (∀ s, evolves s (f s)) → Keeps (modify f).
Proof. intros H s. apply H. Qed.
Lemma keeps_get : Keeps get. Proof. intros s. change (evolves s s). reflexivity. Qed.
Lemma keeps_gets {A} (f : mcu → A) : Keeps (gets f). Proof. intros s. change (evolves s s). reflexivity. Qed.
Lemma keeps_undef {A} : Keeps (undef (A := A)). Proof. done. Qed.
Lemma keeps_diverge {A} : Keeps (diverge (A := A)). Proof. done. Qed.
Lemma keeps_deref {A} (o : option A) : Keeps (deref o).
Proof. intros s. destruct o; [change (evolves s s); reflexivity|done]. Qed.
Lemma keeps_shutdown {A} r : Keeps (shutdown (A := A) r).
Proof. intros s. split; cbn; try done. by exists []. Qed.
#[export] Hint Resolve keeps_ret keeps_get keeps_gets keeps_undef keeps_diverge keeps_deref keeps_shutdown : keeps.

(** A change outside the fields that [evolves] looks at. *)
Lemma keeps_local f :
  (∀ s, trace (f s) = trace s ∧ hw_reads (f s) = hw_reads s ∧ base (f s) = base s ∧
        shutdown_status (sched (f s)) = shutdown_status (sched s) ∧
        shutdown_reason (sched (f s)) = shutdown_reason (sched s) ∧
        timers (sched (f s)) = timers (sched s)) →
  Keeps (modify f).
Proof.
  intros H s. destruct (H s) as (Ht & Hr & Hb & Hs & Hre & Hti). split; rewrite ?Ht, ?Hr, ?Hb, ?Hs, ?Hre, ?Hti; try done.
  by exists [].
Qed.
Lemma keeps_emit e : Keeps (emit e).
Proof. intros s. split; cbn; try done. by exists [e]. Qed.
Lemma keeps_next_read : Keeps next_read.
Proof. intros s. split; cbn; try done; [by exists []|lia]. Qed.
Lemma keeps_new_timer t x : Keeps (modify (upd sched (upd timers <[t := x]>))).
Proof.
  intros s. split; cbn; try done; [by exists []|]. intros t' Ht'.
  destruct (decide (t = t')) as [->|?]; [by rewrite lookup_insert_eq|by rewrite lookup_insert_ne].
Qed.
Lemma keeps_upd_base f : (∀ b, base_evolves b (f b)) → Keeps (upd_base f).
Proof. intros H s. split; cbn; try done. by exists []. Qed.
#[export] Hint Resolve keeps_emit keeps_next_read keeps_new_timer : keeps.

(** An assignment that leaves object ids and the move pool alone. *)
Lemma keeps_upd_base_local f :
  (∀ b, oids (f b) = oids b ∧ oid_count (f b) = oid_count b ∧ move_count (f b) = move_count b ∧
        move_list (f b) = move_list b ∧ move_item_size (f b) = move_item_size b) →
  Keeps (upd_base f).
Proof.
  intros H. apply keeps_upd_base. intros b. destruct (H b) as (Ho & Hc & Hm & Hl & Hi).
  split; unfold oid_entry, oids_ok; rewrite ?Ho, ?Hc, ?Hm, ?Hl, ?Hi; eauto.
Qed.

(** One step of the program, or a function of the database. *)
Ltac keeps_step :=
  lazymatch goal with
  | |- Keeps (mbind _ _) => apply keeps_bind; [|intros ?]
  | |- Keeps (whenM _ _) => apply keeps_when; intros _
  | |- Keeps (mret _) => apply keeps_ret
  | |- Keeps (match ?x with _ => _ end) => destruct x
  | |- ∀ _, _ => intros ?
  | |- Keeps (let _ := _ in _) => cbn zeta
  end.
Ltac keeps_head m :=
  lazymatch m with
  | ?f _ => keeps_head f
  | match ?x with _ => _ end => destruct x
  | _ => unfold m
  end.
Ltac solve_keeps :=
  repeat first
    [ keeps_step
    | solve [auto 2 with keeps nocore]
    | match goal with
      | |- Keeps (upd_base _) => apply keeps_upd_base_local; intros ?; by split_and!
      | |- Keeps (modify _) => apply keeps_local; intros ?; by split_and!
      | |- Keeps ?m => progress (keeps_head m); cbv beta
      end ].
Tactic Notation "keeps" := intros; solve_keeps.

(** * The machine in all reachable states

    Every command, timer function and task of the tables of Firmware.v keeps what Reach.v
    lists; with [run_shutdown] this gives the life of the shutdown state over every run of
    the machine, by induction on its steps. *)

Section keeps.
Context {B : Board}.

(** ** Loops of the runtime and the scheduler *)

Lemma keeps_spi_exchange bus data : Keeps (spi_exchange bus data).
Proof. induction data; cbn [spi_exchange]; solve_keeps. Qed.
Lemma keeps_insert_timer_loop fuel pos w : Keeps (insert_timer_loop fuel pos w).
Proof. revert pos. induction fuel; intros pos; cbn [insert_timer_loop]; solve_keeps. Qed.
Lemma keeps_del_timer_loop fuel pos d : Keeps (del_timer_loop fuel pos d).
Proof. revert pos. induction fuel; intros pos; cbn [del_timer_loop]; solve_keeps. Qed.
#[local] Hint Resolve keeps_spi_exchange keeps_insert_timer_loop keeps_del_timer_loop : keeps.
Lemma keeps_sched_add_timer t : Keeps (sched_add_timer t). Proof. keeps. Qed.
Lemma keeps_sched_del_timer t : Keeps (sched_del_timer t). Proof. keeps. Qed.
Lemma keeps_sched_timer_reset : Keeps sched_timer_reset. Proof. keeps. Qed.
Lemma keeps_command_sendf fmt l : Keeps (command_sendf fmt l). Proof. keeps. Qed.
#[local] Hint Resolve keeps_sched_add_timer keeps_sched_del_timer keeps_sched_timer_reset
  keeps_command_sendf : keeps.

(** ** Base commands: what is written once *)

Lemma keeps_link_moves n i : Keeps (link_moves n i).
Proof. revert i. induction n; intros i; cbn [link_moves]; solve_keeps. Qed.
Lemma keeps_oid_next_loop fuel oid type : Keeps (oid_next_loop fuel oid type).
Proof. revert oid. induction fuel; intros oid; cbn [oid_next_loop]; solve_keeps. Qed.
Lemma keeps_oid_next i type : Keeps (oid_next i type).
Proof. apply keeps_oid_next_loop. Qed.
#[local] Hint Resolve keeps_link_moves keeps_oid_next : keeps.
Lemma keeps_foreach_loop fuel pos type body :
  (∀ i a, Keeps (body i a)) → Keeps (foreach_loop fuel pos type body).
Proof. intros Hb. revert pos. induction fuel; intros pos; cbn [foreach_loop]; solve_keeps. Qed.
Lemma keeps_foreach_oid type body : (∀ i a, Keeps (body i a)) → Keeps (foreach_oid type body).
Proof. intros Hb. by apply keeps_foreach_loop. Qed.
Lemma keeps_oid_lookup oid type : Keeps (oid_lookup oid type). Proof. keeps. Qed.
Lemma keeps_arg args i : Keeps (arg args i). Proof. keeps. Qed.
Lemma keeps_alloc_chunk size : Keeps (alloc_chunk size). Proof. keeps. Qed.
Lemma keeps_move_reset : Keeps move_reset. Proof. keeps. Qed.
Lemma keeps_move_free m : Keeps (move_free m). Proof. keeps. Qed.
Lemma keeps_move_alloc : Keeps move_alloc. Proof. keeps. Qed.
Lemma keeps_zero_chunk type n data : Keeps (zero_chunk type n data). Proof. keeps. Qed.
#[local] Hint Resolve keeps_oid_lookup keeps_arg keeps_alloc_chunk keeps_move_reset keeps_move_free
  keeps_move_alloc keeps_zero_chunk : keeps.

(** A state that differs in the base variables only. *)
Lemma evolves_base s b : base_evolves (base s) b → evolves s (s <| base := b |>).
Proof. intros H. split; try done. by exists []. Qed.
Lemma evolves_upd_base s f : base_evolves (base s) (f (base s)) → evolves s (upd base f s).
Proof. apply (evolves_base s (f (base s))). Qed.
(** Before the configuration is final, the pool may be set up. *)
Lemma base_evolves_pool b b' :
  move_count b = 0 → oids b' = oids b → oid_count b' = oid_count b → base_evolves b b'.
Proof. intros Hm Ho Hc. split; unfold oid_entry, oids_ok; rewrite ?Ho, ?Hc; eauto; done. Qed.

Lemma evolves_irq s b : evolves s (s <| irq_off := b |>).
Proof. split; try done. by exists []. Qed.

Lemma keeps_move_queue_setup size : Keeps (move_queue_setup size).
Proof.
  intros s. unfold move_queue_setup, is_finalized, gets, get, mbind, M_bind, whenM, nz.
  destruct (255 <? size); cbn; [apply evolves_irq|].
  destruct (Z.eqb_spec (move_count (base s)) 0) as [Hm|]; cbn; [|apply evolves_irq].
  destruct (move_item_size (base s) <? size); cbn; [|reflexivity].
  apply evolves_upd_base. by apply base_evolves_pool.
Qed.

Lemma ends_bind {A C} (m : MC A) (k : A → MC C) s0 s :
  evolves s0 s → Keeps m → (∀ x s', m s = Ret x s' → ends_in (evolves s0) (k x s')) →
  ends_in (evolves s0) (mbind k m s).
Proof.
  intros H0 Hm Hk. unfold mbind, M_bind. specialize (Hm s). destruct (m s) as [x s'|r s'| |] eqn:E; try done.
  - by apply Hk.
  - cbn in *. by transitivity s.
Qed.

Lemma evolves_keeps {A} (m : MC A) s0 s : evolves s0 s → Keeps m → ends_in (evolves s0) (m s).
Proof. intros H0 Hm. specialize (Hm s). destruct (m s); try done; cbn in *; by transitivity s. Qed.

Lemma keeps_alloc_chunks size n : Keeps (alloc_chunks size n). Proof. keeps. Qed.

Lemma keeps_set_pool s avail data item :
  move_count (base s) = 0 →
  evolves s (upd base (λ b, b <| move_count := avail |> <| move_list := data |>)
               (upd moves (pool_nodes (Z.to_nat avail) data item) s)).
Proof. intros Hm. split; try done; [by exists []|]. by apply base_evolves_pool. Qed.

Lemma alloc_chunks_base size n s r s' :
  alloc_chunks size n s = Ret r s' → ∃ e, base s' = (base s) <| alloc_end := e |>.
Proof.
  unfold alloc_chunks, alloc_chunk, get, upd_base, modify, mbind, M_bind, whenM.
  destruct (count_chunks _ _ _ _) as [c p]. destruct (c =? 0); [done|]. cbn.
  destruct (dynmem_end <? _); [done|]. cbn. injection 1 as <- <-. by eexists.
Qed.
Lemma move_queue_setup_base size s r s' :
  move_queue_setup size s = Ret r s' → move_count (base s') = move_count (base s).
Proof.
  unfold move_queue_setup, is_finalized, gets, get, upd_base, modify, mbind, M_bind, whenM.
  destruct (_ || _)%bool; [done|]. cbn. destruct (_ <? size); cbn; by injection 1 as <- <-.
Qed.

Lemma keeps_move_finalize : Keeps move_finalize.
Proof.
  intros s. unfold move_finalize, is_finalized, nz. unfold mbind at 1, M_bind at 1, gets at 1.
  destruct (Z.eqb_spec (move_count (base s)) 0) as [Hm|]; cbn [negb whenM]; [|apply evolves_irq].
  apply ends_bind; [reflexivity|apply keeps_ret|]. intros x s' Hs. injection Hs as <- <-.
  apply ends_bind; [reflexivity|apply keeps_move_queue_setup|]. intros mq s1 H1.
  pose proof (keeps_move_queue_setup sizeof_move_node s) as E1. rewrite H1 in E1. cbn in E1.
  apply move_queue_setup_base in H1. apply ends_bind; [done|apply keeps_get|]. intros s2 s2' Hs. injection Hs as <- <-.
  apply ends_bind; [done|apply keeps_alloc_chunks|]. intros [data avail] s3 H3.
  pose proof (keeps_alloc_chunks (move_item_size (base s1)) 1024 s1) as E3. rewrite H3 in E3. cbn in E3.
  apply alloc_chunks_base in H3 as [e He].
  apply (evolves_keeps move_reset _ (upd base _ (upd moves _ s3))); [|apply keeps_move_reset].
  transitivity s3; [by transitivity s1|]. apply keeps_set_pool. rewrite He. cbn. congruence.
Qed.

Lemma oid_entry_alter b i f j :
  oid_entry (b <| oids := alter f (Z.to_nat i) <$> oids b |>) j =
    (if decide (Z.to_nat i = Z.to_nat j) then f <$> oid_entry b j else oid_entry b j).
Proof.
  unfold oid_entry. cbn. destruct (oids b) as [l|]; cbn; [|by destruct (decide _)].
  destruct (decide _) as [->|?]; [apply list_lookup_alter_eq|by apply list_lookup_alter_ne].
Qed.
Lemma oids_ok_alter b i f : oids_ok b → oids_ok (b <| oids := alter f i <$> oids b |>).
Proof. intros [Hc Ho]. split; [done|]. cbn. destruct (oids b); cbn; [by rewrite length_alter|done]. Qed.

(** Giving a type to an id that has none, or data to any id. *)
Lemma base_evolves_oid b i e f :
  oid_entry b i = Some e → (∀ t, o_type e = Some t → o_type (f e) = Some t) →
  base_evolves b (b <| oids := alter f (Z.to_nat i) <$> oids b |>).
Proof.
  intros He Hf. split; [|done|by apply oids_ok_alter]. intros j e' t He' Ht. rewrite oid_entry_alter.
  destruct (decide _) as [Hij|?]; [|by exists e'].
  assert (e' = e) as -> by (unfold oid_entry in *; rewrite Hij in He; congruence).
  rewrite He'. cbn. exists (f e). split; [done|]. by apply Hf.
Qed.
Lemma keeps_upd_oid_data i data : Keeps (upd_oid i (λ e, e <| o_data := data |>)).
Proof.
  apply keeps_upd_base. intros b. destruct (oid_entry b i) as [e|] eqn:He; [by eapply base_evolves_oid|].
  split; [|done|by apply oids_ok_alter]. intros j e t Hj Ht. rewrite oid_entry_alter.
  destruct (decide _) as [Hij|?]; [|by exists e]. unfold oid_entry in *. by rewrite Hij, Hj in He.
Qed.
#[local] Hint Resolve keeps_move_queue_setup keeps_alloc_chunks keeps_move_finalize keeps_upd_oid_data : keeps.

Lemma keeps_oid_alloc oid type size n : Keeps (oid_alloc oid type size n).
Proof.
  intros s. unfold oid_alloc. apply ends_bind; [reflexivity|solve_keeps|].
  intros s1 s1' Hs. injection Hs as <- <-. destruct (oid_count _ <=? _); [apply evolves_irq|].
  apply ends_bind; [reflexivity|solve_keeps|]. intros e s' He.
  destruct (oids (base s) ≫= _) as [e'|] eqn:Hoid; [|done]. injection He as <- <-.
  apply ends_bind; [reflexivity|solve_keeps|]. intros fin s' Hs. injection Hs as <- <-.
  destruct (_ || nz _)%bool eqn:Hty; [apply evolves_irq|].
  apply orb_false_elim in Hty as [Hty _].
  apply (evolves_keeps (let! data := alloc_chunk (u16 size) in _) _
    (upd base (λ b, b <| oids := alter (λ e, e <| o_type := Some type |>) (Z.to_nat (u8 oid)) <$> oids b |>) s));
    [|solve_keeps].
  apply evolves_upd_base. eapply base_evolves_oid; [exact Hoid|]. intros t Ht. by rewrite Ht in Hty.
Qed.

Lemma keeps_command_allocate_oids args : Keeps (command_allocate_oids args).
Proof.
  intros s. unfold command_allocate_oids. apply ends_bind; [reflexivity|solve_keeps|].
  intros s1 s1' Hs. injection Hs as <- <-. destruct (oids (base s)) as [l|] eqn:Ho; [apply evolves_irq|].
  apply ends_bind; [reflexivity|solve_keeps|]. intros x s' Hs. injection Hs as <- <-.
  apply ends_bind; [reflexivity|solve_keeps|]. intros a0 s' Hs.
  assert (s' = s) as -> by (unfold arg, deref in Hs; destruct (args !! 0%nat); congruence).
  apply ends_bind; [reflexivity|solve_keeps|]. intros data s' Ha.
  unfold alloc_chunk, get, upd_base, modify, mbind, M_bind, whenM in Ha. destruct (dynmem_end <? _); [done|].
  cbn in Ha. injection Ha as <- <-. split; try done; [by exists []|]. cbn. split; unfold oid_entry, oids_ok; cbn.
  - by rewrite Ho.
  - done.
  - intros _. pose proof (u8_range a0). rewrite length_replicate. lia.
Qed.
#[local] Hint Resolve keeps_oid_alloc keeps_command_allocate_oids : keeps.

(** ** Loops of the components *)

Lemma keeps_load {T} `{Obj T} a : Keeps (load (T := T) a). Proof. keeps. Qed.
Lemma keeps_store {T} `{Obj T} a (x : T) : Keeps (store a x). Proof. keeps. Qed.
Lemma keeps_upd_obj {T} `{Obj T} a (f : T → T) : Keeps (upd_obj a f). Proof. keeps. Qed.
Lemma keeps_upd_timer t f : Keeps (upd_timer t f). Proof. keeps. Qed.
Lemma keeps_timer_read_time : Keeps timer_read_time. Proof. keeps. Qed.
#[local] Hint Resolve keeps_load keeps_store keeps_upd_obj keeps_upd_timer keeps_timer_read_time : keeps.
Lemma keeps_free_moves fuel a : Keeps (free_moves fuel a).
Proof. induction fuel; cbn [free_moves]; solve_keeps. Qed.
Lemma keeps_clear_signals fuel a : Keeps (clear_signals fuel a).
Proof. revert a. induction fuel; intros a; cbn [clear_signals]; solve_keeps. Qed.
Lemma keeps_read_pins pins n bit status : Keeps (read_pins pins n bit status).
Proof. revert pins bit status. induction n; intros pins bit status; cbn [read_pins]; solve_keeps. Qed.
Lemma keeps_soft_bits n o x y : Keeps (soft_bits n o x y).
Proof. revert x y. induction n; intros x y; cbn [soft_bits]; solve_keeps. Qed.
#[local] Hint Resolve keeps_free_moves keeps_clear_signals keeps_read_pins keeps_soft_bits : keeps.
Lemma keeps_soft_bytes o r data : Keeps (soft_bytes o r data).
Proof. induction data; cbn [soft_bytes]; solve_keeps. Qed.
Lemma keeps_next_toggle fuel t l pos next : Keeps (next_toggle fuel t l pos next).
Proof. revert pos next. induction fuel; intros pos next; cbn [next_toggle]; solve_keeps. Qed.
Lemma keeps_delay_loop fuel x y : Keeps (delay_loop fuel x y).
Proof. induction fuel; cbn [delay_loop]; solve_keeps. Qed.
#[local] Hint Resolve keeps_soft_bytes keeps_next_toggle keeps_delay_loop : keeps.
Lemma keeps_spidev_transfer a r n data : Keeps (spidev_transfer a r n data). Proof. keeps. Qed.
Lemma keeps_send_bit fuel pin m last one : Keeps (send_bit fuel pin m last one). Proof. keeps. Qed.
#[local] Hint Resolve keeps_spidev_transfer keeps_send_bit : keeps.
Lemma keeps_send_bits n fuel pin m last b : Keeps (send_bits n fuel pin m last b).
Proof. revert last b. induction n; intros last b; cbn [send_bits]; solve_keeps. Qed.
#[local] Hint Resolve keeps_send_bits : keeps.
Lemma keeps_send_bytes fuel pin m last data : Keeps (send_bytes fuel pin m last data).
Proof. revert last. induction data; intros last; cbn [send_bytes]; solve_keeps. Qed.
Lemma keeps_reset_wait fuel l r c : Keeps (reset_wait fuel l r c).
Proof. revert c. induction fuel; intros c; cbn [reset_wait]; solve_keeps. Qed.
#[local] Hint Resolve keeps_send_bytes keeps_reset_wait : keeps.
Lemma keeps_adxl_query a oid : Keeps (adxl_query a oid). Proof. keeps. Qed.
#[local] Hint Resolve keeps_adxl_query : keeps.
Lemma keeps_adxl_drain n a oid m : Keeps (adxl_drain n a oid m).
Proof. revert m. induction n; intros m; cbn [adxl_drain]; solve_keeps. Qed.
Lemma keeps_udelay_loop fuel e : Keeps (udelay_loop fuel e).
Proof. induction fuel; cbn [udelay_loop]; solve_keeps. Qed.
Lemma keeps_angle_add_error a e : Keeps (angle_add_error a e). Proof. keeps. Qed.
Lemma keeps_angle_check_report a oid : Keeps (angle_check_report a oid). Proof. keeps. Qed.
#[local] Hint Resolve keeps_adxl_drain keeps_udelay_loop keeps_angle_add_error keeps_angle_check_report : keeps.
Lemma keeps_add_overflows n a oid : Keeps (add_overflows n a oid).
Proof. induction n; cbn [add_overflows]; solve_keeps. Qed.
Lemma keeps_ndelay_loop fuel e : Keeps (ndelay_loop fuel e).
Proof. induction fuel; cbn [ndelay_loop]; solve_keeps. Qed.
Lemma keeps_elapsed_loop fuel l t : Keeps (elapsed_loop fuel l t).
Proof. induction fuel; cbn [elapsed_loop]; solve_keeps. Qed.
#[local] Hint Resolve keeps_add_overflows keeps_ndelay_loop keeps_elapsed_loop : keeps.
Lemma keeps_ndelay fuel n : Keeps (ndelay fuel n). Proof. keeps. Qed.
#[local] Hint Resolve keeps_ndelay : keeps.
Lemma keeps_hd44780_xmit_byte fuel a b : Keeps (hd44780_xmit_byte fuel a b). Proof. keeps. Qed.
#[local] Hint Resolve keeps_hd44780_xmit_byte : keeps.
Lemma keeps_hd44780_bytes fuel a l c data : Keeps (hd44780_bytes fuel a l c data).
Proof. revert l. induction data; intros l; cbn [hd44780_bytes]; solve_keeps. Qed.
Lemma keeps_st7920_bits n fuel c d data : Keeps (st7920_bits n fuel c d data).
Proof. revert data. induction n; intros data; cbn [st7920_bits]; solve_keeps. Qed.
#[local] Hint Resolve keeps_hd44780_bytes keeps_st7920_bits : keeps.
Lemma keeps_st7920_cmd fuel a l w c : Keeps (st7920_cmd fuel a l w c). Proof. keeps. Qed.
#[local] Hint Resolve keeps_st7920_cmd : keeps.
Lemma keeps_st7920_cmds fuel a l w data : Keeps (st7920_cmds fuel a l w data).
Proof. revert l. induction data; intros l; cbn [st7920_cmds]; solve_keeps. Qed.
#[local] Hint Resolve keeps_st7920_cmds : keeps.

(** ** Signals, timers, tasks *)

Lemma keeps_stepper_stop a r : Keeps (stepper_stop a r). Proof. keeps. Qed.
#[local] Hint Resolve keeps_stepper_stop : keeps.
Lemma keeps_signal_callback f a r : Keeps (signal_callback f a r). Proof. destruct f. keeps. Qed.
#[local] Hint Resolve keeps_signal_callback : keeps.
Lemma keeps_dispatch_signals fuel ts r : Keeps (dispatch_signals signal_callback fuel ts r).
Proof. induction fuel; cbn [dispatch_signals]; solve_keeps. Qed.
#[local] Hint Resolve keeps_dispatch_signals : keeps.
Lemma keeps_trsync_do_trigger ts r : Keeps (trsync_do_trigger signal_callback ts r). Proof. keeps. Qed.
Lemma keeps_stepper_load_next a : Keeps (stepper_load_next a). Proof. keeps. Qed.
#[local] Hint Resolve keeps_trsync_do_trigger keeps_stepper_load_next : keeps.
Lemma keeps_stepper_event t : Keeps (stepper_event t). Proof. keeps. Qed.
#[local] Hint Resolve keeps_stepper_event : keeps.
Lemma keeps_timer_call f t : Keeps (timer_call f t).
Proof. destruct f; cbn [timer_call]; solve_keeps. Qed.
#[local] Hint Resolve keeps_timer_call : keeps.
Lemma keeps_timer_interrupt : Keeps timer_interrupt. Proof. keeps. Qed.
#[local] Hint Resolve keeps_timer_interrupt : keeps.

Ltac keeps_extra := lazymatch goal with |- Keeps (foreach_oid _ _) => apply keeps_foreach_oid; intros ? ? end.
Ltac solve_keeps ::=
  repeat first
    [ keeps_step
    | keeps_extra
    | solve [auto 2 with keeps nocore]
    | match goal with
      | |- Keeps (upd_base _) => apply keeps_upd_base_local; intros ?; by split_and!
      | |- Keeps (modify _) => apply keeps_local; intros ?; by split_and!
      | |- Keeps ?m => progress (keeps_head m); cbv beta
      end ].

Lemma keeps_run_all l : Forall Keeps l → Keeps (run_all l).
Proof. induction 1; cbn [run_all foldr]; [apply keeps_ret|]. by apply keeps_bind. Qed.
Lemma keeps_idle_loop fuel m : Keeps m → Keeps (idle_loop fuel m).
Proof. intros Hm. induction fuel; cbn [idle_loop]; solve_keeps. Qed.
Lemma keeps_taskfuncs fuel : Keeps (ctr_run_taskfuncs fuel).
Proof. apply keeps_run_all. repeat (apply Forall_cons_2; [solve_keeps|]). apply Forall_nil_2. Qed.
Lemma keeps_shutdownfuncs : Keeps ctr_run_shutdownfuncs.
Proof. apply keeps_run_all. repeat (apply Forall_cons_2; [solve_keeps|]). apply Forall_nil_2. Qed.
Lemma keeps_run_tasks_pass fuel start : Keeps (run_tasks_pass fuel timer_interrupt start).
Proof. pose proof (keeps_idle_loop fuel _ keeps_timer_interrupt). pose proof (keeps_taskfuncs fuel). keeps. Qed.

(** ** Commands *)

Definition keeps_command (cp : command_parser) : Prop := ∀ args, Keeps (cp_func cp args).
(** The commands that may change the shutdown status; the second also forgets the configuration. *)
Definition is_clear_shutdown (cp : command_parser) : Prop := cp = decl_in_shutdown command_clear_shutdown [].
Definition is_config_reset (cp : command_parser) : Prop := cp = decl_in_shutdown config_reset [].

Ltac keeps_commands :=
  repeat (apply Forall_cons_2;
    [first [right; left; reflexivity | left; intros ?; cbn [cp_func decl decl_in_shutdown]; solve_keeps]|]);
  apply Forall_nil_2.
Lemma commands_keep reset_fuel fuel :
  Forall (λ cp, keeps_command cp ∨ is_clear_shutdown cp ∨ is_config_reset cp) (commands reset_fuel fuel).
Proof.
  unfold commands. repeat apply Forall_app_2; [keeps_commands..|].
  unfold pru_commands. destruct CONFIG_MACH_PRU; [|apply Forall_nil_2]. apply Forall_cons_2; [by right; right|apply Forall_nil_2].
Qed.

(** ** Shutdown *)

(** [run_shutdown] evolves everything but the shutdown state, which it sets; a shutdown in
    its handlers leaves the status at 2. *)
Definition shut_down (reason : string) (s s' : mcu) : Prop :=
  shutdown_reason (sched s') = (if nz (shutdown_status (sched s)) then shutdown_reason (sched s) else reason) ∧
  (∃ l, trace s' = l ++ trace s) ∧ (hw_reads s ≤ hw_reads s')%nat ∧ base_evolves (base s) (base s').

Lemma shut_down_evolves reason s s1 s2 : shut_down reason s s1 → evolves s1 s2 → shut_down reason s s2.
Proof.
  intros (Hr & (l & Hl) & Hh & Hb) [[l' Hl'] Hh' _ Hr' _ Hb']. split; [congruence|]. split.
  { exists (l' ++ l). by rewrite Hl', Hl, app_assoc. }
  split; [lia|]. by etransitivity.
Qed.

(** The end of [run_shutdown]. *)
Definition shutdown_end (cur : Z) : MC unit :=
  modify (λ s, s <| sched; shutdown_status := 1 |>);;;
  irq_enable;;;
  let! s := get in
  command_sendf "shutdown clock=%u static_string_id=%hu" [A_int cur; A_static (shutdown_reason (sched s))].
Lemma shutdown_end_returns cur s :
  ∃ s', shutdown_end cur s = Ret tt s' ∧ shutdown_status (sched s') = 1 ∧
    evolves (s <| sched; shutdown_status := 1 |>) s'.
Proof.
  unfold shutdown_end, irq_enable, modify, get, mbind, M_bind. cbn -[command_sendf].
  set (s1 := s <| sched; shutdown_status := 1 |>).
  change (upd sched _ s) with s1. set (s2 := s1 <| irq_off := false |>).
  pose proof (keeps_command_sendf "shutdown clock=%u static_string_id=%hu"
    [A_int cur; A_static (shutdown_reason (sched s))] s2) as E.
  assert (∃ s3, command_sendf "shutdown clock=%u static_string_id=%hu"
    [A_int cur; A_static (shutdown_reason (sched s))] s2 = Ret tt s3) as [s3 Es].
  { unfold command_sendf, get, mbind, M_bind. destruct (nz _); by eexists. }
  rewrite Es in E. cbn in E. exists s3. split; [exact Es|].
  assert (evolves s1 s3) as E' by (transitivity s2; [apply evolves_irq|done]).
  split; [by rewrite (ev_status _ _ E')|done].
Qed.
Lemma shut_down_status reason s s1 s2 :
  shut_down reason s s1 → evolves (s1 <| sched; shutdown_status := 1 |>) s2 → shut_down reason s s2.
Proof. intros H E. by eapply shut_down_evolves; [|exact E]. Qed.

Lemma run_shutdown_ends funcs reason s :
  Keeps funcs →
  match run_shutdown funcs reason s with
  | Ret _ s' => shutdown_status (sched s') = 1 ∧ shut_down reason s s'
  | Shut _ s' => shutdown_status (sched s') = 2 ∧ shut_down reason s s'
  | Undef | Diverge => True
  end.
Proof.
  intros Hf.
  set (s1 := (if nz (shutdown_status (sched s)) then s else s <| sched; shutdown_reason := reason |>)
             <| irq_off := true |> <| hw_reads := S (hw_reads s) |> <| sched; shutdown_status := 2 |>).
  set (cur := u32 (clock_at (hw_reads s))).
  assert (run_shutdown funcs reason s = (sched_timer_reset;;; funcs;;; shutdown_end cur) s1) as ->.
  { subst s1 cur. unfold run_shutdown, shutdown_end, timer_read_time, next_read, gets, irq_enable, modify, whenM, mbind, M_bind, get.
    cbn -[sched_timer_reset command_sendf]. by destruct (nz (shutdown_status (sched s))). }
  assert (shutdown_status (sched s1) = 2 ∧ shut_down reason s s1) as [H2 H1].
  { subst s1. unfold shut_down. destruct (nz _) eqn:Hs; cbn; rewrite ?Hs; split_and!; try done; try lia; by exists []. }
  clearbody s1. unfold mbind, M_bind.
  pose proof (keeps_sched_timer_reset s1) as E1. destruct (sched_timer_reset s1) as [[] s2|r s2| |]; cbn in E1; try done.
  2:{ split; [by rewrite (ev_status _ _ E1)|by eapply shut_down_evolves]. }
  pose proof (Hf s2) as E2. destruct (funcs s2) as [[] s3|r s3| |]; cbn in E2; try done.
  all: assert (evolves s1 s3) as E3 by by etransitivity.
  all: assert (shut_down reason s s3) as H3 by by eapply shut_down_evolves.
  2:{ split; [by rewrite (ev_status _ _ E3)|done]. }
  destruct (shutdown_end_returns cur s3) as (s4 & -> & Hs4 & E4). split; [done|].
  by eapply shut_down_status.
Qed.

Lemma handle_shutdown_ends fuel reason s s' :
  handle_shutdown fuel reason s = Ret tt s' → shutdown_status (sched s') = 1 ∧ shut_down reason s s'.
Proof.
  revert reason s. induction fuel as [|fuel IH]; intros reason s H; [done|]. cbn [handle_shutdown] in H.
  pose proof (run_shutdown_ends _ reason s keeps_shutdownfuncs) as Hr.
  destruct (run_shutdown _ reason s) as [x s1|r s1| |]; try done; [by injection H as -> ->|].
  destruct Hr as [H2 (Hr1 & (l & Hl) & Hh & Hb)]. destruct (IH _ _ H) as [Hs (Hr' & (l' & Hl') & Hh' & Hb')].
  rewrite H2 in Hr'. cbn in Hr'. split; [done|]. split; [congruence|]. split.
  { exists (l' ++ l). by rewrite Hl', Hl, app_assoc. }
  split; [lia|]. by etransitivity.
Qed.

(** ** Steps *)

Definition resets (a : action) : Prop :=
  match a with Act_command cp _ => is_config_reset cp | _ => False end.
Definition clears (a : action) : Prop :=
  match a with Act_command cp _ => is_clear_shutdown cp ∨ is_config_reset cp | _ => False end.

Lemma action_cases a : admissible a → Keeps (run_action a) ∨ clears a.
Proof.
  destruct a as [|cp args|fuel start]; cbn [admissible clears run_action].
  - left. apply keeps_timer_interrupt.
  - intros (rf & f & Hcp). pose proof (commands_keep rf f) as Hall. rewrite Forall_forall in Hall.
    destruct (Hall _ Hcp) as [Hk|Hc]; [left|by right]. specialize (Hk args). solve_keeps.
  - left. pose proof (keeps_run_tasks_pass fuel start). solve_keeps.
Qed.

(** What a step does to the shutdown state. *)
Definition life (a : action) (s s' : mcu) : Prop :=
  (shutdown_status (sched s') = shutdown_status (sched s) ∧ shutdown_reason (sched s') = shutdown_reason (sched s)) ∨
  (∃ r s1, run_action a s = Shut r s1 ∧ shutdown_status (sched s') = 1 ∧
     shutdown_reason (sched s') = if nz (shutdown_status (sched s)) then shutdown_reason (sched s) else r) ∨
  (clears a ∧ shutdown_status (sched s) ≠ 0 ∧ shutdown_status (sched s') = 0 ∧
     shutdown_reason (sched s') = shutdown_reason (sched s)).
(** What was output stays, the table of object ids keeps its size, and what is written once in
    the configuration stays if [keeps_config]. *)
Record grows (keeps_config : Prop) (s s' : mcu) : Prop := {
  gr_trace : ∃ l, trace s' = l ++ trace s;
  gr_oids : oids_ok (base s) → oids_ok (base s');
  gr_config : keeps_config → base_evolves (base s) (base s') }.

#[export] Instance grows_preorder P : PreOrder (grows P).
Proof.
  split; [intros s; split; [by exists []|done|reflexivity]|].
  intros s1 s2 s3 [[l Hl] Ho Hb] [[l' Hl'] Ho' Hb']. split; [|auto|intros p; by etransitivity; auto].
  exists (l' ++ l). by rewrite Hl', Hl, app_assoc.
Qed.
Lemma evolves_grows P s s' : evolves s s' → grows P s s'.
Proof. intros []. split; [done| |done]. by apply be_oids. Qed.
Lemma grows_weaken (P Q : Prop) s s' : (Q → P) → grows P s s' → grows Q s s'.
Proof. intros H []. split; auto. Qed.

(** The commands that clear a shutdown fail when there is none. *)
Definition clears_well (a : action) (s : mcu) (r : result mcu unit) : Prop :=
  match r with
  | Ret _ s' => grows (¬ resets a) s s' ∧ life a s s'
  | Shut _ s' => evolves s s'
  | _ => True
  end.

Lemma clear_shutdown_action a s :
  match a with Act_command cp _ => is_clear_shutdown cp | _ => False end → clears_well a s (run_action a s).
Proof.
  intros Hc. destruct a as [|cp args|]; try done. red in Hc. subst cp.
  unfold clears_well, run_action, life, sched_is_shutdown, command_clear_shutdown, sched_clear_shutdown, gets, get, mbind, M_bind, whenM.
  cbn. rewrite andb_false_r. unfold nz. destruct (Z.eqb_spec (shutdown_status (sched s)) 0) as [H0|H0]; cbn.
  - apply evolves_irq.
  - destruct (Z.eqb_spec (shutdown_status (sched s)) 2) as [H2|H2]; cbn.
    + split; [reflexivity|by left].
    + split; [split; [by exists []|done|reflexivity]|]. right. right. split; [by left|done].
Qed.

(** [config_reset] up to [sched_clear_shutdown]: everything is as it was but the base variables. *)
Definition reset_base (b : base_state) : base_state :=
  b <| config_crc := 0 |> <| oid_count := 0 |> <| oids := None |> <| move_free_list := 0 |> <| move_list := 0 |>
    <| move_count := 0 |> <| move_item_size := 0 |> <| alloc_end := ALIGN dynmem_start alignof_ptr |>.
Lemma config_reset_eq args s :
  shutdown_status (sched s) ≠ 0 →
  config_reset args s =
    (sched_timer_reset;;; sched_clear_shutdown;;; irq_enable) (s <| irq_off := true |> <| base := reset_base (base s) |>).
Proof.
  intros H. unfold config_reset, sched_is_shutdown, gets, mbind, M_bind. unfold nz.
  rewrite (proj2 (Z.eqb_neq _ _) H). cbn -[sched_timer_reset sched_clear_shutdown reset_base]. by destruct s.
Qed.

Lemma reset_base_ok b : oids_ok (reset_base b).
Proof. by split. Qed.

(** The function does not shut the machine down. *)
Definition quiet {A} (m : MC A) : Prop := ∀ s, (∃ x s', m s = Ret x s') ∨ m s = Undef.
Lemma quiet_bind {A C} (m : MC A) (k : A → MC C) : quiet m → (∀ x, quiet (k x)) → quiet (mbind k m).
Proof.
  intros Hm Hk s. unfold mbind, M_bind. destruct (Hm s) as [(x & s' & ->) | ->]; [apply Hk|by right].
Qed.
Lemma quiet_upd_timer t f : quiet (upd_timer t f).
Proof.
  intros s. unfold upd_timer, get_timer, get, deref, modify, mbind, M_bind.
  destruct (timers (sched s) !! t); [left; by do 2 eexists|by right].
Qed.
Lemma quiet_sched_timer_reset : quiet sched_timer_reset.
Proof.
  assert (∀ f, quiet (modify f)) as Hm by (intros f s; left; by do 2 eexists).
  unfold sched_timer_reset. apply quiet_bind; [apply Hm|intros _]. apply quiet_bind.
  { intros s. unfold get_timer, get, deref, mbind, M_bind. destruct (timers (sched s) !! T_periodic); [left; by do 2 eexists|by right]. }
  intros p. repeat (apply quiet_bind; [first [apply quiet_upd_timer|apply Hm]|intros _]). apply Hm.
Qed.

Lemma config_reset_action a s : resets a → clears_well a s (run_action a s).
Proof.
  intros Hc. destruct a as [|cp args|]; try done. cbn in Hc. red in Hc. subst cp. unfold clears_well.
  set (a := Act_command _ args). assert (resets a) as Hres by done.
  assert (run_action a s = config_reset args s) as ->.
  { unfold a, run_action, sched_is_shutdown, gets, mbind, M_bind. cbn [cp_flags cp_func decl_in_shutdown].
    change (has HF_IN_SHUTDOWN HF_IN_SHUTDOWN) with true. by rewrite andb_false_r. }
  destruct (decide (shutdown_status (sched s) = 0)) as [H0|H0].
  { unfold config_reset, sched_is_shutdown, gets, mbind, M_bind, nz. rewrite H0. cbn. apply evolves_irq. }
  rewrite config_reset_eq by done. set (s0 := s <| irq_off := true |> <| base := reset_base (base s) |>).
  pose proof (keeps_sched_timer_reset s0) as E. unfold mbind, M_bind.
  destruct (quiet_sched_timer_reset s0) as [([] & s1 & Hr) | Hr]; rewrite Hr in E |- *; [|done]. cbn in E. destruct E as [Htr _ Hst Hre _ Hb].
  assert (grows (¬ resets a) s s1) as Hg.
  { split; [exact Htr| |done]. intros _. apply (be_oids _ _ Hb), reset_base_ok. }
  change (shutdown_status (sched s0)) with (shutdown_status (sched s)) in Hst.
  change (shutdown_reason (sched s0)) with (shutdown_reason (sched s)) in Hre.
  unfold sched_clear_shutdown, get, whenM, mbind, M_bind, nz. rewrite Hst, (proj2 (Z.eqb_neq _ _) H0). cbn. rewrite Hst.
  destruct (Z.eqb_spec (shutdown_status (sched s)) 2) as [H2|H2]; cbn.
  - split; [by destruct Hg; split|by left].
  - split; [by destruct Hg; split|]. right. right. split; [by right|]. done.
Qed.

Lemma step_shut_life s a r s1 fuel s' P :
  run_action a s = Shut r s1 → evolves s s1 → handle_shutdown fuel r s1 = Ret tt s' →
  grows P s s' ∧ life a s s'.
Proof.
  intros Hr E Hh. apply handle_shutdown_ends in Hh as (Hs & Hre & Htr & _ & Hb). split.
  - transitivity s1; [by apply evolves_grows|]. split; [done|by apply be_oids|done].
  - right. left. exists r, s1. split; [done|]. split; [done|].
    by rewrite (ev_status _ _ E), (ev_reason _ _ E) in Hre.
Qed.

Lemma step_life s a s' : step s a s' → grows (¬ resets a) s s' ∧ life a s s'.
Proof.
  intros Hst. assert (admissible a) as Ha by by destruct Hst.
  destruct (action_cases a Ha) as [Hk|Hc].
  - specialize (Hk s). destruct Hst as [a s' _ Hr|a r s1 fuel s' _ Hr Hh]; rewrite Hr in Hk; cbn in Hk.
    + split; [by apply evolves_grows|]. left. by destruct Hk.
    + by eapply step_shut_life.
  - assert (clears_well a s (run_action a s)) as Hk.
    { destruct a as [|cp args|]; try done. destruct Hc; [by apply clear_shutdown_action|by apply config_reset_action]. }
    unfold clears_well in Hk.
    destruct Hst as [a s' _ Hr|a r s1 fuel s' _ Hr Hh]; rewrite Hr in Hk; [done|by eapply step_shut_life].
Qed.

(** ** Runs *)

Lemma runs_status init acts s :
  (shutdown_status (sched init) = 0 ∨ shutdown_status (sched init) = 1) → runs init acts s →
  shutdown_status (sched s) = 0 ∨ shutdown_status (sched s) = 1.
Proof.
  intros H0 Hr. induction Hr as [|acts s a s' Hr IH Hst]; [done|].
  destruct (step_life _ _ _ Hst) as [_ [[-> _]|[(r & s1 & _ & -> & _)|(_ & _ & -> & _)]]]; auto.
Qed.
Lemma runs_grow init acts s : runs init acts s → grows (Forall (λ a, ¬ resets a) acts) init s.
Proof.
  intros Hr. induction Hr as [|acts s a s' Hr IH Hst]; [reflexivity|]. destruct (step_life _ _ _ Hst) as [Hg _].
  transitivity s; (eapply grows_weaken; [|eassumption]); rewrite Forall_app, ?Forall_singleton; tauto.
Qed.

(** C15: In every state that any sequence of timer interrupts, host commands of the command
    table and rounds of the tasks reaches, each ended normally or by a shutdown with its
    handlers: the shutdown status is 0 or 1, the table of object ids has its declared size, no
    event that was output is ever undone, and every id keeps the type it was allocated with for
    as long as no config_reset (a command of some boards) runs. *)
Theorem reachable_invariant init acts1 s1 acts2 s2 :
  shutdown_status (sched init) = 0 → oids_ok (base init) → runs init acts1 s1 → runs s1 acts2 s2 →
  (shutdown_status (sched s2) = 0 ∨ shutdown_status (sched s2) = 1) ∧ oids_ok (base s2) ∧
  (∃ l, trace s2 = l ++ trace s1) ∧
  (Forall (λ a, ¬ resets a) acts2 →
   ∀ i e t, oid_entry (base s1) i = Some e → o_type e = Some t →
     ∃ e', oid_entry (base s2) i = Some e' ∧ o_type e' = Some t).
Proof.
  intros H0 Hok Hr1 Hr2. destruct (runs_grow _ _ _ Hr1) as [_ Ho1 _]. destruct (runs_grow _ _ _ Hr2) as [Htr Ho2 Hb].
  split; [eapply runs_status; [|exact Hr2]; eapply runs_status; [|exact Hr1]; by left|].
  split; [auto|]. split; [exact Htr|]. intros Hn. apply (Hb Hn).
Qed.

(** C10: A shutdown is latched: whatever timers, commands and tasks run afterwards, further
    shutdowns included, the machine stays shut down with the reason of the first shutdown,
    until the host sends clear_shutdown or, on the boards that have this command, config_reset.
    *)
Theorem shutdown_latched s acts s' :
  shutdown_status (sched s) = 1 → runs s acts s' → Forall (λ a, ¬ clears a) acts →
  shutdown_status (sched s') = 1 ∧ shutdown_reason (sched s') = shutdown_reason (sched s).
Proof.
  intros H1 Hu Hn. induction Hu as [|acts s1 a s2 Hu IH Hst]; [done|]. apply Forall_app in Hn as [Hn [Hc _]%Forall_cons].
  destruct (IH Hn) as [IHs IHr].
  destruct (step_life _ _ _ Hst) as [_ [[-> ->]|[(r & s3 & _ & -> & ->)|(Hcl & _)]]]; try done.
  by rewrite IHs.
Qed.
End keeps.
