(* ===== verification/ShutdownSpec.v ===== *)
(** * Shutdown puts every output into its default state

    The loop over all objects of a type, and the shutdown handlers of the outputs. *)

From S2P Require Import Prelude State Runtime Sched Basecmd OidSpec Outputs StepperSpec.

(** ** [foreach_oid] *)

(** The objects of a type, in the order of their ids. *)
Definition of_type (type : otype) (e : oid_s) : option addr :=
  if decide (o_type e = Some type) then Some (o_data e) else None.
Definition addrs (type : otype) (l : list oid_s) : list addr := omap (of_type type) l.

Lemma addrs_take_S type l k e :
  l !! k = Some e → addrs type (take (S k) l) = addrs type (take k l) ++ option_list (of_type type e).
Proof.
  intros He. rewrite (take_S_r _ _ _ He). unfold addrs. rewrite omap_app. by f_equal.
Qed.

Section foreach.
Context {B : Board}.
Variables (type : otype) (l : list oid_s).
Hypothesis Hlen : (length l < 256)%nat.
Definition has_oids (s : mcu) : Prop := oids (base s) = Some l ∧ oid_count (base s) = Z.of_nat (length l).

Lemma next_oid k : (k ≤ 255)%nat → u8 (u8 (Z.of_nat k - 1) + 1) = Z.of_nat k.
Proof. intros Hk. zmod. Qed.

(** From id [k] on, the first id of the type. *)
Lemma oid_next_loop_ok fuel k s :
  has_oids s → (k ≤ length l)%nat → (length l - k < fuel)%nat →
  (oid_next_loop fuel (u8 (Z.of_nat k - 1)) type s = Ret None s ∧ addrs type l = addrs type (take k l)) ∨
  (∃ j e, oid_next_loop fuel (u8 (Z.of_nat k - 1)) type s = Ret (Some (Z.of_nat j, o_data e)) s ∧
     (k ≤ j < length l)%nat ∧ l !! j = Some e ∧ o_type e = Some type ∧
     addrs type (take j l) = addrs type (take k l)).
Proof.
  intros [Ho Hc]. revert k. induction fuel as [|fuel IH]; intros k Hk Hf; [lia|].
  cbn [oid_next_loop]. unfold get, mbind, M_bind. rewrite next_oid, Hc, Ho by lia.
  destruct (Z.leb_spec (Z.of_nat (length l)) (Z.of_nat k)).
  { left. split; [done|]. by rewrite take_ge by lia. }
  destruct (lookup_lt_is_Some_2 l k ltac:(lia)) as [e He]. cbn. rewrite Nat2Z.id, He. cbn.
  destruct (decide (o_type e = Some type)) as [Ht|Ht].
  { right. exists k, e. split; [done|]. split; [lia|]. by split_and!. }
  replace (Z.of_nat k) with (Z.of_nat (S k) - 1) by lia.
  assert (oid_next_loop fuel (Z.of_nat (S k) - 1) type s =
          oid_next_loop fuel (u8 (Z.of_nat (S k) - 1)) type s) as -> by (rewrite u8_small by lia; done).
  assert (addrs type (take (S k) l) = addrs type (take k l)) as Hsame.
  { rewrite (addrs_take_S _ _ _ _ He). unfold of_type. rewrite decide_False by done. apply app_nil_r. }
  destruct (IH (S k) ltac:(lia) ltac:(lia)) as [[E Ha]|(j & e' & E & Hj & Hl & Ht' & Ha)].
  - left. split; [exact E|]. by rewrite Ha.
  - right. exists j, e'. split; [exact E|]. split; [lia|]. split_and!; try done. by rewrite Ha.
Qed.

Lemma wp_foreach_oid (body : Z → addr → MC unit) (Inv : list addr → mcu → Prop) s E :
  (∀ v s, Inv v s → has_oids s) → (∀ a, a ∈ addrs type l → a ≠ 0) →
  (∀ v i a w s, addrs type l = v ++ a :: w → Inv v s → wp (body i a) s (λ _ s', Inv (v ++ [a]) s') E) →
  Inv [] s → wp (foreach_oid type body) s (λ _ s', Inv (addrs type l) s') E.
Proof.
  intros Hoids Hnz Hbody HI. unfold foreach_oid. change (-1) with (Z.of_nat 0 - 1).
  assert (∀ fuel k s, (k ≤ length l)%nat → (length l - k < fuel)%nat → Inv (addrs type (take k l)) s →
    wp (foreach_loop fuel (u8 (Z.of_nat k - 1)) type body) s (λ _ s', Inv (addrs type l) s') E) as Hloop.
  { clear s HI. induction fuel as [|fuel IH]; intros k s Hk Hf HI; [lia|]. cbn [foreach_loop].
    unfold oid_next. unfold wp, mbind at 1, M_bind at 1.
    destruct (oid_next_loop_ok 257 k s (Hoids _ _ HI) Hk ltac:(lia)) as [[-> Ha]|(j & e & -> & Hj & He & Ht & Ha)].
    { cbn. by rewrite Ha. }
    assert (of_type type e = Some (o_data e)) as Hof by (unfold of_type; by rewrite decide_True).
    assert (addrs type (take (S j) l) = addrs type (take k l) ++ [o_data e]) as Hsnoc
      by (by rewrite (addrs_take_S _ _ _ _ He), Hof, Ha).
    assert (addrs type l = addrs type (take k l) ++ o_data e :: addrs type (drop (S j) l)) as Hall.
    { rewrite <- (take_drop (S j) l) at 1. unfold addrs at 1. rewrite omap_app. fold (addrs type (take (S j) l)).
      rewrite Hsnoc, <- app_assoc. done. }
    rewrite (proj2 (Z.eqb_neq (o_data e) 0)) by (apply Hnz; rewrite Hall; set_solver).
    apply wp_bind. eapply wp_conseq; [by eapply Hbody|]. cbn beta. intros _ s' HI'.
    replace (Z.of_nat j) with (u8 (Z.of_nat (S j) - 1)) by (rewrite u8_small by lia; lia).
    apply IH; [lia|lia|]. by rewrite Hsnoc. }
  apply Hloop; [lia|lia|done].
Qed.
End foreach.

(** ** Outputs *)

(** The objects [l] of the machine are there, as [os]. *)
Definition live_objects {T} `{Obj T} (s : mcu) (l : list addr) (os : list T) : Prop :=
  NoDup l ∧ Forall2 (λ a o, a ≠ 0 ∧ objects s !! a = Some (to_obj o)) l os.

Section outputs.
Context {B : Board}.

(** A loop whose body changes the object it visits by [f] and sends it the event [ev]. *)
Lemma wp_foreach_objects {T} `{Obj T} type l (body : Z → addr → MC unit) (f : T → T) (ev : T → event)
    (keep : mcu → Prop) s os :
  has_oids l s → (length l < 256)%nat → live_objects s (addrs type l) os → keep s →
  (∀ i a o s, a ∈ addrs type l → o ∈ os → objects s !! a = Some (to_obj o) → keep s →
     wp (body i a) s (λ _ s', objects s' = <[a := to_obj (f o)]> (objects s) ∧ base s' = base s ∧
       trace s' = ev o :: trace s ∧ keep s') no_shut) →
  wp (foreach_oid type body) s
    (λ _ s', (∀ a o, (a, o) ∈ zip (addrs type l) os → objects s' !! a = Some (to_obj (f o))) ∧
       (∀ a, a ∉ addrs type l → objects s' !! a = objects s !! a) ∧
       trace s' = rev (ev <$> os) ++ trace s ∧ base s' = base s ∧ keep s')
    no_shut.
Proof.
  intros Hoid Hlen [Hnd Hos] Hk Hbody.
  set (A := addrs type l) in *.
  eapply wp_conseq.
  { apply (wp_foreach_oid type l Hlen body (λ v s', has_oids l s' ∧ base s' = base s ∧ keep s' ∧
      trace s' = rev (ev <$> take (length v) os) ++ trace s ∧
      (∀ i a o, A !! i = Some a → os !! i = Some o →
         objects s' !! a = Some (to_obj (if decide (i < length v)%nat then f o else o))) ∧
      (∀ a, a ∉ A → objects s' !! a = objects s !! a))).
    - by intros v s' (? & _).
    - intros a Ha. apply list_elem_of_lookup in Ha as [i Hi]. eapply Forall2_lookup_l in Hos; [|exact Hi]. naive_solver.
    - intros v i a w s' HA ([Ho Hc] & Hb & Hk' & Htr & Hobj & Hout).
      assert (A !! length v = Some a) as Hv by (unfold A; rewrite HA, lookup_app_r, Nat.sub_diag by lia; done).
      destruct (Forall2_lookup_l _ _ _ _ _ Hos Hv) as (o & Hov & Ha0 & _).
      specialize (Hobj _ _ _ Hv Hov) as Hcur. rewrite decide_False in Hcur by lia.
      eapply wp_conseq; [apply (Hbody i a o s'); [| |done..]|].
      { unfold A. rewrite HA. set_solver. }
      { by eapply list_elem_of_lookup_2. }
      cbn beta. intros _ s'' (Ho' & Hb' & Htr' & Hk''). rewrite length_app. cbn [length].
      split; [unfold has_oids; by rewrite Hb'|]. split; [congruence|]. split; [done|]. split; [|split].
      + rewrite Htr', Htr. replace (length v + 1)%nat with (S (length v)) by lia.
        by rewrite (take_S_r _ _ _ Hov), fmap_app, rev_app_distr.
      + intros j a' o' Hj Hoj. rewrite Ho'. destruct (decide (a = a')) as [<-|Hne].
        * assert (j = length v) as -> by by eapply NoDup_lookup. rewrite lookup_insert_eq.
          rewrite decide_True by lia. congruence.
        * rewrite lookup_insert_ne by done. rewrite (Hobj _ _ _ Hj Hoj).
          assert (j ≠ length v) by (intros ->; congruence).
          destruct (decide (j < length v)%nat), (decide (j < length v + 1)%nat); try done; lia.
      + intros a' Ha'. rewrite Ho'. rewrite lookup_insert_ne; [by apply Hout|].
        intros ->. apply Ha'. by eapply list_elem_of_lookup_2.
    - cbn. split_and!; try done. intros i a o Hi Ho. destruct (Forall2_lookup_lr _ _ _ _ _ _ Hos Hi Ho) as [_ ->].
      by rewrite decide_False by lia. }
  cbn beta. intros _ s' (_ & Hb & Hk' & Htr & Hobj & Hout). fold A in Htr, Hobj.
  rewrite (Forall2_length _ _ _ Hos), take_ge in Htr by lia. split_and!; try done.
  intros a o Hin. apply list_elem_of_lookup in Hin as [i Hi]. apply lookup_zip_with_Some in Hi as (a' & o' & [= <- <-] & Hi & Ho).
  rewrite (Hobj _ _ _ Hi Ho), decide_True; [done|]. by eapply lookup_lt_Some.
Qed.

(** The level and the object an output has after a shutdown. *)
Definition digital_default (d : digital_out_s) : digital_out_s :=
  d <| do_flags := if has (do_flags d) DF_DEFAULT_ON then Z.lor DF_ON DF_DEFAULT_ON else 0 |>
    <| do_mq := move_queue_clear (do_mq d) |>.
Definition digital_off (d : digital_out_s) : event :=
  EvWrite (do_pin d) (b2z (has (do_flags d) DF_DEFAULT_ON)).
Definition pwm_default (p : pwm_out_s) : pwm_out_s := p <| po_mq := move_queue_clear (po_mq p) |>.
Definition pwm_off (p : pwm_out_s) : event := EvPwmWrite (po_pin p) (po_default_value p).
(** The default fits the type in which the board takes the value of a PWM pin. *)
Definition default_fits (p : pwm_out_s) : Prop := 0 ≤ po_default_value p ≤ max_val (gt_pwm_val gpio_h).

Lemma default_level t x : nz (conv t (Z.land x DF_DEFAULT_ON)) = has x DF_DEFAULT_ON.
Proof.
  unfold has. change DF_DEFAULT_ON with (2 ^ 4). rewrite land_pow2 by done.
  by destruct (Z.testbit x 4); rewrite conv_small.
Qed.

Lemma wp_digital_out_shutdown s l ds :
  has_oids l s → (length l < 256)%nat → live_objects s (addrs command_config_digital_out_t l) ds →
  wp digital_out_shutdown s
    (λ _ s', (∀ a d, (a, d) ∈ zip (addrs command_config_digital_out_t l) ds →
        objects s' !! a = Some (O_digital_out (digital_default d))) ∧
      (∀ a, a ∉ addrs command_config_digital_out_t l → objects s' !! a = objects s !! a) ∧
      trace s' = rev (digital_off <$> ds) ++ trace s ∧ base s' = base s)
    no_shut.
Proof.
  intros Ho Hl Hlive. eapply wp_conseq.
  { apply (wp_foreach_objects _ l _ digital_default digital_off (λ _, True) s ds); try done.
    intros i a d s' _ _ Ha _. wstep. eapply wp_load; [exact Ha|]. repeat wstep.
    split_and!; try done. cbn. unfold digital_off. by rewrite default_level. }
  cbn beta. intros _ s' (H1 & H2 & H3 & H4 & _). by split_and!.
Qed.

Lemma wp_pwm_shutdown s l ps :
  has_oids l s → (length l < 256)%nat → live_objects s (addrs command_config_pwm_out_t l) ps →
  Forall default_fits ps →
  (∀ a, a ∈ addrs command_config_pwm_out_t l → is_Some (timers (sched s) !! T_member a M_time)) →
  wp pwm_shutdown s
    (λ _ s', (∀ a p, (a, p) ∈ zip (addrs command_config_pwm_out_t l) ps →
        objects s' !! a = Some (O_pwm_out (pwm_default p))) ∧
      (∀ a, a ∉ addrs command_config_pwm_out_t l → objects s' !! a = objects s !! a) ∧
      trace s' = rev (pwm_off <$> ps) ++ trace s ∧ base s' = base s)
    no_shut.
Proof.
  intros Ho Hl Hlive Hfit Ht. rewrite Forall_forall in Hfit. eapply wp_conseq.
  { apply (wp_foreach_objects _ l _ pwm_default pwm_off
      (λ s, ∀ a, a ∈ addrs command_config_pwm_out_t l → is_Some (timers (sched s) !! T_member a M_time)) s ps); try done.
    intros i a p s' Hin Hp Ha Hk. destruct (Hk a Hin) as [x Hx].
    wstep. eapply wp_load; [exact Ha|]. wstep. apply wp_modify. wstep. eapply wp_upd_timer; [exact Hx|]. repeat wstep.
    split_and!; try done; cbn; [unfold pwm_off; by rewrite (conv_fits _ _ (Hfit p Hp))|]. intros a' Ha'. destruct (decide (T_member a M_time = T_member a' M_time)) as [->|?];
      [by rewrite lookup_insert_eq|rewrite lookup_insert_ne by done; by apply Hk]. }
  cbn beta. intros _ s' (H1 & H2 & H3 & H4 & _). by split_and!.
Qed.

(** C11: The shutdown handlers of the outputs, when every id of the two output types has its
    object (no configuration command was cut off by a failed allocation) and every PWM default
    fits the parameter type of the board's gpio_pwm_write: they reach every configured digital
    and PWM output, each pin is driven to its configured default value, once and in the order
    of the object ids, the queue of each output is emptied, and no other object changes; the
    handlers return without another shutdown. *)
Theorem shutdown_outputs_default s l ds ps :
  oids (base s) = Some l → oid_count (base s) = Z.of_nat (length l) → (length l < 256)%nat →
  live_objects s (addrs command_config_digital_out_t l) ds →
  live_objects s (addrs command_config_pwm_out_t l) ps →
  Forall default_fits ps →
  (∀ a, a ∈ addrs command_config_pwm_out_t l → is_Some (timers (sched s) !! T_member a M_time)) →
  wp digital_out_shutdown s
    (λ _ s', trace s' = rev (digital_off <$> ds) ++ trace s ∧
       (∀ a d, (a, d) ∈ zip (addrs command_config_digital_out_t l) ds →
          objects s' !! a = Some (O_digital_out (digital_default d))) ∧
       (∀ a, a ∉ addrs command_config_digital_out_t l → objects s' !! a = objects s !! a))
    no_shut ∧
  wp pwm_shutdown s
    (λ _ s', trace s' = rev (pwm_off <$> ps) ++ trace s ∧
       (∀ a p, (a, p) ∈ zip (addrs command_config_pwm_out_t l) ps →
          objects s' !! a = Some (O_pwm_out (pwm_default p))) ∧
       (∀ a, a ∉ addrs command_config_pwm_out_t l → objects s' !! a = objects s !! a))
    no_shut.
Proof.
  intros Ho Hc Hl Hd Hp Hfit Ht. split.
  - eapply wp_conseq; [by apply wp_digital_out_shutdown|]. cbn beta. intros _ s' (? & ? & ? & _). by split_and!.
  - eapply wp_conseq; [by apply wp_pwm_shutdown|]. cbn beta. intros _ s' (? & ? & ? & _). by split_and!.
Qed.
End outputs.
