(* ===== verification/AdxlSpec.v ===== *)
(** * Accelerometer samples

    A reply of the ADXL345 is packed into five bytes by the firmware and unpacked by the
    host (klippy/extras/adxl345.py): the 13 bit values survive, and a corrupted reply is
    recognised by the host. *)

From S2P Require Import Prelude State Runtime Bench Sched Vlq Basecmd Buses Sensors BusSpec.

(** ** The host side: one sample of [_extract_samples] *)

Definition extract_sample (d : list Z) : option (Z * Z * Z) :=
  match d with
  | [xlow; ylow; zlow; xzhigh; yzhigh] =>
      if has yzhigh 0x80 then None
      else
        let rx := Z.lor xlow (Z.shiftl (Z.land xzhigh 0x1f) 8) - Z.shiftl (Z.land xzhigh 0x10) 9 in
        let ry := Z.lor ylow (Z.shiftl (Z.land yzhigh 0x1f) 8) - Z.shiftl (Z.land yzhigh 0x10) 9 in
        let rz := Z.lor (Z.lor zlow (Z.shiftl (Z.land xzhigh 0xe0) 3)) (Z.shiftl (Z.land yzhigh 0xe0) 6)
                  - Z.shiftl (Z.land yzhigh 0x40) 7 in
        Some (rx, ry, rz)
  | _ => None
  end.

(** ** Packing and unpacking *)

(** A decidable fact about all pairs of bytes, by evaluation. *)
Lemma all_pairs (P : Z → Z → bool) x y :
  forallb (λ x, forallb (P x) (bytes_below 256)) (bytes_below 256) = true →
  is_byte x → is_byte y → P x y = true.
Proof. intros H Hx Hy. apply (all_below (P x) 256); [|exact Hy]. exact (all_below _ 256 x H Hx). Qed.

(** The upper five bits of a sample, of which the top one is its sign. *)
Definition hi5 (hi : Z) : Z := hi mod 32.
Definition sign (hi : Z) : Z := b2z (16 <=? hi mod 32).

(** The value of a 13 bit sample with its bytes. *)
Lemma sample_value lo hi :
  is_byte lo → is_byte hi →
  if adxl_glitch hi then ¬ -4096 ≤ i16 (lo + 256 * hi) < 4096
  else i16 (lo + 256 * hi) = lo + 256 * hi5 hi - 8192 * sign hi ∧ -4096 ≤ i16 (lo + 256 * hi) < 4096.
Proof.
  intros Hlo Hhi. pose proof (all_below (λ hi, Bool.eqb (adxl_glitch hi) ((16 <=? hi) && (hi <? 240))) 256 hi
    ltac:(by vm_compute) Hhi) as E. apply Bool.eqb_prop in E. rewrite E. unfold is_byte, hi5, sign, b2z in *.
  destruct (Z.leb_spec 16 hi), (Z.ltb_spec hi 240); cbn [andb]; try zmod.
Qed.

(** The packed bytes hold the upper bits of the three samples. *)
Definition xz_high (m2 m6 : Z) : Z := u8 (Z.lor (Z.land m2 0x1f) (Z.shiftl m6 5)).
Definition yz_high (m4 m6 : Z) : Z := u8 (Z.lor (Z.land m4 0x1f) (Z.land (Z.shiftl m6 2) 0x60)).
Lemma xz_bits m2 m6 :
  is_byte m2 → is_byte m6 →
  Z.land (xz_high m2 m6) 0x1f = hi5 m2 ∧ Z.land (xz_high m2 m6) 0x10 = 16 * sign m2 ∧
  Z.land (xz_high m2 m6) 0xe0 = 32 * (m6 mod 8).
Proof.
  intros H2 H6. pose proof (all_pairs (λ a b, (Z.land (xz_high a b) 0x1f =? hi5 a) &&
    (Z.land (xz_high a b) 0x10 =? 16 * sign a) && (Z.land (xz_high a b) 0xe0 =? 32 * (b mod 8))) m2 m6
    ltac:(by vm_compute) H2 H6) as E. cbn beta in E. bool_to_prop. done.
Qed.
Lemma yz_bits m4 m6 :
  is_byte m4 → is_byte m6 →
  Z.land (yz_high m4 m6) 0x1f = hi5 m4 ∧ Z.land (yz_high m4 m6) 0x10 = 16 * sign m4 ∧
  Z.land (yz_high m4 m6) 0xe0 = 32 * (m6 / 8 mod 4) ∧ Z.land (yz_high m4 m6) 0x40 = 64 * sign m6 ∧
  has (yz_high m4 m6) 0x80 = false.
Proof.
  intros H4 H6. pose proof (all_pairs (λ a b, (Z.land (yz_high a b) 0x1f =? hi5 a) &&
    (Z.land (yz_high a b) 0x10 =? 16 * sign a) && (Z.land (yz_high a b) 0xe0 =? 32 * (b / 8 mod 4)) &&
    (Z.land (yz_high a b) 0x40 =? 64 * sign b) && negb (has (yz_high a b) 0x80)) m4 m6
    ltac:(by vm_compute) H4 H6) as E. cbn beta in E. bool_to_prop. done.
Qed.

Definition in13 (v : Z) : bool := (-4096 <=? v) && (v <? 4096).

Lemma sample_in13 lo hi :
  is_byte lo → is_byte hi →
  in13 (i16 (lo + 256 * hi)) = negb (adxl_glitch hi) ∧
  (adxl_glitch hi = false → i16 (lo + 256 * hi) = lo + 256 * hi5 hi - 8192 * sign hi).
Proof.
  intros Hlo Hhi. pose proof (sample_value lo hi Hlo Hhi) as H. unfold in13.
  destruct (adxl_glitch hi); (split; [|naive_solver]);
    destruct (Z.leb_spec (-4096) (i16 (lo + 256 * hi))), (Z.ltb_spec (i16 (lo + 256 * hi)) 4096); naive_solver lia.
Qed.

Lemma lor_byte a b : is_byte a → Z.lor a (Z.shiftl b 8) = a + 256 * b.
Proof. intros Ha. rewrite Z.lor_comm, lor_disjoint by (done || lia). lia. Qed.

Lemma extract_packed m1 m2 m3 m4 m5 m6 :
  is_byte m1 → is_byte m2 → is_byte m3 → is_byte m4 → is_byte m5 → is_byte m6 →
  extract_sample [m1; m3; m5; xz_high m2 m6; yz_high m4 m6] =
    Some (m1 + 256 * hi5 m2 - 8192 * sign m2, m3 + 256 * hi5 m4 - 8192 * sign m4,
          m5 + 256 * hi5 m6 - 8192 * sign m6).
Proof.
  intros H1 H2 H3 H4 H5 H6. destruct (xz_bits m2 m6 H2 H6) as (X1 & X2 & X3). destruct (yz_bits m4 m6 H4 H6) as (Y1 & Y2 & Y3 & Y4 & Y5).
  unfold extract_sample. rewrite X1, X2, X3, Y1, Y2, Y3, Y4, Y5, !lor_byte by done.
  rewrite !Z.shiftl_mul_pow2 by done.
  assert (Z.lor (Z.lor m5 (32 * (m6 mod 8) * 2 ^ 3)) (32 * (m6 / 8 mod 4) * 2 ^ 6) = m5 + 256 * hi5 m6) as ->.
  { replace (32 * (m6 mod 8) * 2 ^ 3) with (Z.shiftl (m6 mod 8) 8) by (rewrite Z.shiftl_mul_pow2; lia).
    rewrite lor_byte by done.
    replace (32 * (m6 / 8 mod 4) * 2 ^ 6) with (Z.shiftl (m6 / 8 mod 4) 11) by (rewrite Z.shiftl_mul_pow2; lia).
    unfold is_byte, hi5 in *. rewrite Z.lor_comm, lor_disjoint; zmod. }
  do 3 f_equal; lia.
Qed.

(** A sample of the ADXL345 that the firmware packs into five bytes and the host unpacks with
    extract_samples has the three signed 13 bit values that the chip sent; a reading outside 13
    bits, with the wrong marker byte or an impossible fifo level is sent as an error that the
    host recognises, and is never taken for a sample. *)
Theorem adxl_sample_reaches_host m0 m1 m2 m3 m4 m5 m6 m7 m8 :
  Forall is_byte [m1; m2; m3; m4; m5; m6; m8] →
  let x := i16 (m1 + 256 * m2) in
  let y := i16 (m3 + 256 * m4) in
  let z := i16 (m5 + 256 * m6) in
  let fifo := m8 mod 128 in
  ∃ d, length d = 5%nat ∧
    if in13 x && in13 y && in13 z && (m7 =? SET_FIFO_CTL) && (fifo <=? 32) then
      adxl_decode [m0; m1; m2; m3; m4; m5; m6; m7; m8] = Some (d, fifo) ∧ extract_sample d = Some (x, y, z)
    else adxl_decode [m0; m1; m2; m3; m4; m5; m6; m7; m8] = Some (d, 0) ∧ extract_sample d = None.
Proof.
  intros H. repeat (apply Forall_cons in H as [? H]). cbn zeta.
  destruct (sample_in13 m1 m2) as [Ex Vx], (sample_in13 m3 m4) as [Ey Vy], (sample_in13 m5 m6) as [Ez Vz]; try done.
  rewrite Ex, Ey, Ez. cbn [adxl_decode].
  assert (Z.land m8 (Z.lnot 0x80) = m8 mod 128) as ->.
  { pose proof (all_below (λ c, Z.land c (Z.lnot 0x80) =? c mod 128) 256 m8 ltac:(by vm_compute) ltac:(done)) as E.
    by apply Z.eqb_eq. }
  destruct (adxl_glitch m2), (adxl_glitch m4), (adxl_glitch m6), (m7 =? SET_FIFO_CTL) eqn:E7; cbn;
    try (eexists [_; _; _; _; _]; done).
  rewrite Z.ltb_antisym. destruct (m8 mod 128 <=? 32); cbn; [|eexists [_; _; _; _; _]; done].
  eexists. split; [|split; [reflexivity|]]; [done|].
  rewrite Vx, Vy, Vz by done. by apply extract_packed.
Qed.

(** * The sample buffer of the accelerometer

    The firmware collects ten samples of five bytes per message.  While a measurement is
    ended, the samples left in the chip are drained: none is lost, and the buffer is never
    overrun. *)

Section buffer.
Context {B : Board}.

Record adxl_ok (ax : adxl345) : Prop := {
  ax_len : length (ax_data ax) = 50%nat;
  ax_count : 0 ≤ ax_data_count ax ≤ 45;
  ax_whole : (5 | ax_data_count ax);
}.
Definition buffered (ax : adxl345) : list Z := take (Z.to_nat (ax_data_count ax)) (ax_data ax).

(** The sample bytes of all messages sent so far. *)
Definition data_fmt : string := "adxl345_data oid=%c sequence=%hu data=%*s".
Definition payload (e : event) : list Z :=
  match e with
  | EvSend fmt [_; _; A_buf b] => if decide (fmt = data_fmt) then b else []
  | _ => []
  end.
Definition sent (s : mcu) : list Z := rev (trace s) ≫= payload.

Lemma sent_cons s e tr : trace s = e :: tr → sent s = (rev tr ≫= payload) ++ payload e.
Proof.
  intros Ht. unfold sent. rewrite Ht. cbn [rev]. rewrite bind_app. cbn. by rewrite app_nil_r.
Qed.
Lemma sent_frame s s' k : bus_frame s s' k → sent s' = sent s.
Proof.
  intros (n & l & _ & -> & Hl). unfold sent. cbn. rewrite rev_app_distr, bind_app.
  assert (rev l ≫= payload = []) as ->; [|apply app_nil_r]. apply Forall_rev in Hl.
  induction Hl as [|e l' He Hl IH]; [done|]. cbn [mbind list_bind]. rewrite IH. by destruct e.
Qed.

Lemma write_array_eq l p (d : list Z) (s : mcu) :
  d ≠ [] → 0 ≤ p → p + Z.of_nat (length d) ≤ Z.of_nat (length l) →
  write_array l p d s = Ret (take (Z.to_nat p) l ++ d ++ drop (Z.to_nat p + length d) l) s.
Proof.
  intros Hd Hp Hl. unfold write_array. destruct d as [|b d]; [done|]. cbn [length Nat.eqb].
  cbn [length] in Hl. rewrite (proj2 (Z.leb_le 0 p)), (proj2 (Z.leb_le _ _)) by (cbn [length]; lia). done.
Qed.

Lemma adxl_decode_some msg :
  length msg = 9%nat → ∃ d fifo, adxl_decode msg = Some (d, fifo) ∧ length d = 5%nat.
Proof.
  destruct msg as [|m0 [|m1 [|m2 [|m3 [|m4 [|m5 [|m6 [|m7 [|m8 [|]]]]]]]]]]; try done. intros _. cbn [adxl_decode].
  destruct (_ || (32 <? _))%bool; by eexists _, _.
Qed.

(** A full buffer goes out as one message. *)
Lemma wp_adxl_report s a ax oid :
  objects s !! a = Some (O_adxl345 ax) → in_sendf (cmd s) = 0 → length (ax_data ax) = 50%nat →
  ax_data_count ax ≤ 50 →
  wp (adxl_report a oid) s
    (λ _ s', objects s' = <[a := O_adxl345 (ax <| ax_data_count := 0 |>
               <| ax_sequence := u16 (ax_sequence ax + 1) |>)]> (objects s) ∧
       cmd s' = cmd s ∧ sent s' = sent s ++ buffered ax)
    no_shut.
Proof.
  intros Ho Hs Hl Hc. unfold adxl_report. wstep. eapply wp_load; [exact Ho|]. wstep.
  eapply (wp_conseq _ _ (λ data s', s' = s ∧ data = buffered ax)).
  { unfold read_array, buffered. destruct (Z.to_nat (ax_data_count ax) =? 0)%nat eqn:E0.
    - apply Nat.eqb_eq in E0. rewrite E0. wstep. done.
    - rewrite (proj2 (Z.leb_le (0 + _) _)) by lia. cbn [Z.leb Z.compare andb]. wstep. done. }
  cbn beta. intros data s' [-> ->]. wstep. apply wp_command_sendf. rewrite Hs. cbn -[sent data_fmt]. repeat wstep.
  split; [done|]. split; [destruct s as [? ? [] ? ? ? ? ? ? ? ? ?]; cbn in *; by subst|].
  erewrite sent_cons; [|reflexivity]. unfold payload. by rewrite decide_True.
Qed.

(** The state of the buffer after the sample bytes [d] were added to it. *)
Definition added (s : mcu) (a : addr) (ax : adxl345) (d : list Z) (s' : mcu) : Prop :=
  ∃ ax', objects s' = <[a := O_adxl345 ax']> (objects s) ∧ adxl_ok ax' ∧
    ax_flags ax' = ax_flags ax ∧ ax_spi ax' = ax_spi ax ∧ cmd s' = cmd s ∧
    sent s' ++ buffered ax' = sent s ++ buffered ax ++ d.

Lemma buffered_append ax d data :
  adxl_ok ax → length d = 5%nat →
  data = take (Z.to_nat (ax_data_count ax)) (ax_data ax) ++ d ++ drop (Z.to_nat (ax_data_count ax) + 5) (ax_data ax) →
  let ax' := ax <| ax_data := data |> <| ax_data_count := ax_data_count ax + 5 |> in
  buffered ax' = buffered ax ++ d ∧ length data = 50%nat.
Proof.
  intros [Hl Hc _] Hd ->. cbn. unfold buffered. cbn. split.
  - replace (Z.to_nat (ax_data_count ax + 5)) with (Z.to_nat (ax_data_count ax) + length d)%nat by lia.
    rewrite app_assoc, take_app_length'; [done|]. rewrite length_app, length_take. lia.
  - rewrite !length_app, length_take, length_drop. lia.
Qed.

(** Storing five bytes, and the message when that fills the buffer. *)
Lemma wp_store_sample s a ax oid d data :
  objects s !! a = Some (O_adxl345 ax) → adxl_ok ax → in_sendf (cmd s) = 0 → length d = 5%nat →
  data = take (Z.to_nat (ax_data_count ax)) (ax_data ax) ++ d ++ drop (Z.to_nat (ax_data_count ax) + 5) (ax_data ax) →
  wp (store a (ax <| ax_data := data |> <| ax_data_count := ax_data_count ax + 5 |>);;;
      when 50 <? ax_data_count ax + 5 + 5 do adxl_report a oid) s
    (λ _ s', added s a ax d s') no_shut.
Proof.
  intros Ho Hok Hs Hd Hdata. destruct (buffered_append ax d data Hok Hd Hdata) as [Hb Hl]. destruct Hok as [_ Hc Hw].
  set (ax2 := ax <| ax_data := data |> <| ax_data_count := ax_data_count ax + 5 |>) in *. wstep. wstep.
  set (s2 := upd objects <[a := to_obj ax2]> s). apply wp_when; intros Hf; bool_to_prop.
  - eapply wp_conseq; [apply (wp_adxl_report s2 a ax2); try done; [cbn; by rewrite lookup_insert_eq|cbn; lia]|].
    cbn beta. intros _ s' (Ho' & Hc' & Hsent). eexists. split; [by rewrite Ho'; cbn; rewrite insert_insert_eq|].
    split; [split; cbn; [done|lia|apply Z.divide_0_r]|]. split_and!; try done.
    rewrite Hsent, Hb. unfold buffered at 3. cbn. by rewrite app_nil_r.
  - exists ax2. split; [done|]. split; [split; cbn; [done|lia|]|].
    { apply Z.divide_add_r; [done|]. by exists 1. }
    split_and!; try done. by rewrite Hb.
Qed.

Lemma spi_ok_store s s' a ax ax' spi :
  objects s !! a = Some (O_adxl345 ax) → spi_ok s spi → objects s' = <[a := O_adxl345 ax']> (objects s) →
  spi_ok s' spi.
Proof.
  intros Ha (o & Ho & Hb) Ho'. exists o. rewrite Ho'.
  split; [rewrite lookup_insert_ne; [done|congruence]|]. intros Hf. specialize (Hb Hf).
  destruct (_ && _)%bool; [|done]. destruct Hb as (ss & so & Hss & Hso). exists ss, so. split; [done|].
  rewrite lookup_insert_ne; [done|congruence].
Qed.

Lemma wp_seq2 {A} (m1 m2 : MC unit) (k : MC A) s Q E :
  wp (m1;;; m2) s (λ _ s', wp k s' Q E) E → wp (m1;;; m2;;; k) s Q E.
Proof. unfold wp, mbind, M_bind. destruct (m1 s) as [? s1| | |]; try done. by destruct (m2 s1). Qed.

(** What does not concern the buffer. *)
Lemma added_mono s s1 a ax d s' : objects s1 = objects s → cmd s1 = cmd s → sent s1 = sent s →
  added s1 a ax d s' → added s a ax d s'.
Proof.
  intros Ho Hc Hs (ax' & H1 & H2 & H3 & H4 & H5 & H6). exists ax'. rewrite Ho, Hc, Hs in *. by split_and!.
Qed.
Lemma added_upd s a ax d s1 s' f :
  added s a ax d s1 →
  (∀ x : adxl345, ax_data (f x) = ax_data x ∧ ax_data_count (f x) = ax_data_count x ∧ ax_flags (f x) = ax_flags x ∧
     ax_spi (f x) = ax_spi x) →
  (∀ ax1, objects s1 !! a = Some (O_adxl345 ax1) → objects s' = <[a := O_adxl345 (f ax1)]> (objects s1)) →
  cmd s' = cmd s1 → sent s' = sent s1 → added s a ax d s'.
Proof.
  intros (ax1 & Ho & [? ? ?] & Hfl & Hsp & Hc & Hst) Hf Ho' Hc' Hs'.
  destruct (Hf ax1) as (F1 & F2 & F3 & F4). exists (f ax1).
  rewrite (Ho' ax1), Ho, insert_insert_eq by (rewrite Ho; by rewrite lookup_insert_eq).
  unfold buffered in *. rewrite F1, F2, F3, F4, Hc', Hs'. split_and!; try done. split; by rewrite ?F1, ?F2.
Qed.

Lemma wp_adxl_query s a ax oid :
  objects s !! a = Some (O_adxl345 ax) → adxl_ok ax → has (ax_flags ax) AX_RUNNING = false →
  spi_ok s (ax_spi ax) → in_sendf (cmd s) = 0 →
  wp (adxl_query a oid) s (λ _ s', ∃ d, length d = 5%nat ∧ added s a ax d s') no_shut.
Proof.
  intros Ho Hok Hrun Hspi Hs. unfold adxl_query. wstep. eapply wp_load; [exact Ho|]. wstep.
  eapply wp_conseq; [apply (wp_spidev_transfer s (ax_spi ax) true
    [Z.lor (Z.lor AR_DATAX0 AM_READ) AM_MULTI; 0; 0; 0; 0; 0; 0; 0; 0]); [done|by repeat constructor|cbn; lia]|].
  cbn beta. intros msg s1 (Hm & _ & Hfr). destruct (adxl_decode_some msg Hm) as (d & fifo & -> & Hd).
  pose proof (sent_frame _ _ _ Hfr) as Hsent. destruct Hfr as (n & l & _ & Hs1 & _). do 2 wstep. wstep.
  destruct (Hok) as [Hl Hc _].
  eapply wp_of_eq; [apply write_array_eq; [by destruct d|lia|rewrite Hd; lia]|].
  rewrite u8_small by lia. rewrite Hd. apply wp_seq2.
  eapply wp_conseq; [apply (wp_store_sample s1 a ax oid d); try done; by rewrite Hs1|]. cbn beta. intros _ s2 Ha.
  apply (added_mono s) in Ha; [|by rewrite Hs1..|done]. clear Hs1 Hsent. destruct (Ha) as (ax2 & Ho2 & _ & Hfl2 & _).
  assert (objects s2 !! a = Some (O_adxl345 ax2)) as Ho2' by (rewrite Ho2; by rewrite lookup_insert_eq).
  wstep. eapply (wp_conseq _ _ (λ _ s', added s a ax d s')).
  { apply wp_when; intros _; [|done]. eapply wp_upd_obj; [exact Ho2'|].
    apply (added_upd s a ax d s2 _ (λ ax, ax <| ax_limit_count := u16 (ax_limit_count ax + 1) |>)); try done.
    intros ax1 H1. cbn. rewrite Ho2' in H1. by injection H1 as <-. }
  cbn beta. intros _ s3 Ha3. destruct ((1 <? fifo) && (fifo <=? 32)).
  - unfold sched_wake_task. repeat wstep. exists d. split; [done|]. destruct Ha3 as (ax' & ? & ? & ? & ? & ? & ?).
    exists ax'. by split_and!.
  - destruct (Ha3) as (ax3 & Ho3 & _ & Hfl3 & _). wstep.
    eapply wp_load; [rewrite Ho3; by rewrite lookup_insert_eq|].
    cbn [of_obj]. rewrite Hfl3, Hrun. cbn. by exists d.
Qed.

(** While the fifo of the ADXL345 is drained, on a software or hardware SPI bus, no sample byte
    is lost, repeated or reordered: the bytes sent to the host followed by the bytes in the
    buffer are those of before followed by the new samples, and the buffer holds whole samples
    and never overflows. *)
Theorem adxl_drain_keeps_samples s a ax oid n m :
  objects s !! a = Some (O_adxl345 ax) → adxl_ok ax → has (ax_flags ax) AX_RUNNING = false →
  spi_ok s (ax_spi ax) → in_sendf (cmd s) = 0 →
  wp (adxl_drain n a oid m) s
    (λ _ s', ∃ ax' ds, objects s' !! a = Some (O_adxl345 ax') ∧ adxl_ok ax' ∧ Forall (λ d, length d = 5%nat) ds ∧
       (length ds ≤ n)%nat ∧ sent s' ++ buffered ax' = sent s ++ buffered ax ++ concat ds)
    no_shut.
Proof.
  revert s ax m. induction n as [|n IH]; intros s ax m Ho Hok Hrun Hspi Hs; cbn [adxl_drain].
  { wstep. exists ax, []. rewrite app_nil_r. by split_and!. }
  wstep. eapply wp_load; [exact Ho|]. wstep.
  eapply wp_conseq; [apply (wp_spidev_transfer s (ax_spi ax) true [Z.lor AR_FIFO_STATUS AM_READ; 0]);
    [done|by repeat constructor|cbn; lia]|].
  cbn beta. intros msg s1 (Hm & _ & Hfr). pose proof (sent_frame _ _ _ Hfr) as Hsent.
  destruct Hfr as (k & l & _ & Hs1 & _). destruct msg as [|m0 [|m1 [|]]]; try done.
  assert (spi_ok s1 (ax_spi ax)) as Hspi1 by by rewrite Hs1.
  assert (objects s1 !! a = Some (O_adxl345 ax)) as Ho1 by by rewrite Hs1.
  assert (in_sendf (cmd s1) = 0) as Hs1' by by rewrite Hs1.
  assert (objects s1 = objects s) as Hob by by rewrite Hs1.
  clear Hs1. cbn [lookup list_lookup]. do 2 wstep. destruct (negb _).
  { wstep. exists ax, []. rewrite app_nil_r, Hsent. split_and!; try done. cbn. lia. }
  wstep. eapply (wp_conseq _ _ (λ _ s', ∃ ds, Forall (λ d, length d = 5%nat) ds ∧ (length ds ≤ 1)%nat ∧
    added s1 a ax (concat ds) s')).
  { apply wp_when; intros _.
    - eapply wp_conseq; [by apply wp_adxl_query|]. cbn beta. intros _ s' (d & Hd & Ha). exists [d]. cbn.
      rewrite app_nil_r. split_and!; [by repeat constructor|lia|done].
    - exists []. split_and!; [done|cbn; lia|]. exists ax. rewrite app_nil_r. split_and!; try done.
      by rewrite insert_id. }
  cbn beta. intros _ s2 (ds & Hds & Hlen & ax2 & Ho2 & Hok2 & Hfl2 & Hsp2 & Hc2 & Hst2).
  eapply wp_conseq; [apply (IH s2 ax2); try done|].
  - rewrite Ho2. by rewrite lookup_insert_eq.
  - by rewrite Hfl2.
  - rewrite Hsp2. by eapply spi_ok_store.
  - by rewrite Hc2.
  - cbn beta. intros _ s' (ax' & ds' & Ho' & Hok' & Hds' & Hl' & Hst'). exists ax', (ds ++ ds').
    rewrite length_app, concat_app. split_and!; [done|done|by apply Forall_app_2|lia|].
    rewrite Hst', app_assoc, Hst2, Hsent, <- !app_assoc. done.
Qed.
End buffer.
