(* ===== verification/LcdSpec.v ===== *)
(** * Displays: busy waits end, and the ST7920 receives the bits that were sent

    On a clock that advances with every read the delay loops wait long enough and end.  The
    serial lines are driven by toggles only; [latch] is what the chip samples at the rising
    edges of its clock. *)

From S2P Require Import Prelude State Runtime Bench Sched Vlq Basecmd Lcd BusSpec.

Section delays.
Context {B : Board}.

(** The clock advances with every read, by less than half its period. *)
Definition ticking : Prop := ∀ n, clock_at n < clock_at (S n) < clock_at n + 2 ^ 31.

Definition reads (s : mcu) (k : nat) : mcu := s <| hw_reads := (hw_reads s + k)%nat |>.
Lemma reads_0 s : reads s 0 = s.
Proof. unfold reads. rewrite Nat.add_0_r. by destruct s. Qed.
Lemma reads_reads s j k : reads (reads s j) k = reads s (j + k).
Proof. unfold reads. cbn. by rewrite Nat.add_assoc. Qed.

(** The loop ends at the first read at or after [deadline]. *)
Lemma wp_ndelay_loop fuel deadline s E (Q : unit → mcu → Prop) :
  ticking → Z.max 0 (deadline - clock_at (hw_reads s)) < Z.of_nat fuel →
  deadline - 2 ^ 31 ≤ clock_at (hw_reads s) < deadline + 2 ^ 31 →
  (∀ k, deadline ≤ clock_at (hw_reads s + k) → Q tt (reads s (S k))) →
  wp (ndelay_loop fuel (u32 deadline)) s Q E.
Proof.
  intros Hc. change (2 ^ 31) with 2147483648 in *. revert s. induction fuel as [|fuel IH]; intros s Hf Hr HQ.
  { lia. }
  cbn [ndelay_loop]. wstep. wstep. rewrite timer_is_before_spec by lia.
  destruct (Z.ltb_spec (clock_at (hw_reads s)) deadline).
  - specialize (Hc (hw_reads s)). change (2 ^ 31) with 2147483648 in Hc. apply IH; cbn; [lia|lia|].
    intros k Hk. specialize (HQ (S k)). unfold reads in *. cbn in *. rewrite !Nat.add_succ_r in *. by apply HQ.
  - wstep. specialize (HQ 0%nat). rewrite Nat.add_0_r in HQ. unfold reads in HQ. rewrite Nat.add_1_r in HQ. by apply HQ.
Qed.

(** The delay has no effect but the passing of time. *)
Lemma wp_ndelay fuel ns s (Q : unit → mcu → Prop) E :
  ticking → lcd_nsecs_to_ticks ns < Z.of_nat fuel → 0 ≤ lcd_nsecs_to_ticks ns < 2 ^ 31 →
  (∀ k, (CONFIG_MACH_AVR = false →
           clock_at (hw_reads s) + lcd_nsecs_to_ticks ns ≤ clock_at (pred (hw_reads s + k))) → Q tt (reads s k)) →
  wp (ndelay fuel ns) s Q E.
Proof.
  intros Hc Hf Ht HQ. unfold ndelay. destruct CONFIG_MACH_AVR.
  { wstep. rewrite <- (reads_0 s). by apply HQ. }
  wstep. wstep. rewrite u32_add_l. pose proof (Hc (hw_reads s)) as H1. change (2 ^ 31) with 2147483648 in *.
  apply wp_ndelay_loop; cbn; [done|lia|lia|]. intros k Hk. specialize (HQ (S (S k))). unfold reads in *. cbn.
  rewrite !Nat.add_succ_r in *. apply HQ. intros _. done.
Qed.

(** On a clock that advances with every read, ndelay ends, changes nothing, and its last read
    of the clock is at least the asked number of nanoseconds (in ticks) after the first one. *)
Theorem ndelay_waits fuel ns s :
  ticking → CONFIG_MACH_AVR = false → 0 ≤ lcd_nsecs_to_ticks ns < 2 ^ 31 →
  lcd_nsecs_to_ticks ns < Z.of_nat fuel →
  ∃ k, ndelay fuel ns s = Ret tt (reads s k) ∧
    clock_at (hw_reads s) + lcd_nsecs_to_ticks ns ≤ clock_at (pred (hw_reads s + k)).
Proof.
  intros Hc Ha Ht Hf. assert (wp (ndelay fuel ns) s (λ _ s', ∃ k, s' = reads s k ∧
    clock_at (hw_reads s) + lcd_nsecs_to_ticks ns ≤ clock_at (pred (hw_reads s + k))) no_shut) as H.
  { apply wp_ndelay; try done. intros k Hk. exists k. split; [done|by apply Hk]. }
  apply wp_returns_tt in H as (s' & E & k & -> & Hk). by exists k.
Qed.
End delays.

(** ** What the chip samples *)

(** The bits on the data line at the rising clock edges, and the final levels of the clock
    and of the data line. *)
Fixpoint latch (sclk sid : Z) (evs : list event) (clk dat : bool) : list bool * (bool * bool) :=
  match evs with
  | [] => ([], (clk, dat))
  | EvToggle p :: evs =>
      if p =? sid then latch sclk sid evs clk (negb dat)
      else if p =? sclk then
        let '(bits, last) := latch sclk sid evs (negb clk) dat in
        (if clk then bits else dat :: bits, last)
      else latch sclk sid evs clk dat
  | _ :: evs => latch sclk sid evs clk dat
  end.

Section waveform.
Context {B : Board}.
Variables (sclk sid : Z) (fuel : nat).
Hypothesis Hpins : sclk ≠ sid.

(** The events of one bit at level [bit] on a line at level [dat]. *)
Definition lcd_bit (dat bit : bool) : list event :=
  (if xorb bit dat then [EvToggle sid] else []) ++ [EvToggle sclk; EvToggle sclk].
Fixpoint lcd_bits (dat : bool) (bits : list bool) : list event :=
  match bits with [] => [] | b :: bits => lcd_bit dat b ++ lcd_bits b bits end.

Definition last_level (dat : bool) (bits : list bool) : bool := default dat (last bits).
Lemma last_level_cons dat b bits : last_level dat (b :: bits) = last_level b bits.
Proof. unfold last_level. rewrite last_cons. by destruct (last bits). Qed.

Lemma latch_bits dat bits evs :
  latch sclk sid (lcd_bits dat bits ++ evs) false dat =
    let '(l, d) := latch sclk sid evs false (last_level dat bits) in (bits ++ l, d).
Proof.
  revert dat. induction bits as [|b bits IH]; intros dat.
  { cbn. by destruct (latch _ _ _ _ _). }
  rewrite last_level_cons. specialize (IH b). cbn [lcd_bits]. unfold lcd_bit. rewrite <- !app_assoc.
  apply Z.eqb_neq in Hpins. destruct (latch sclk sid evs false (last_level b bits)) as [l d].
  destruct b, dat; cbn [xorb app latch negb]; rewrite ?Hpins, ?Z.eqb_refl; cbn [negb]; by rewrite IH.
Qed.

(** Bytes whose lowest bit is clear leave the line low, as the next byte expects it. *)
Definition byte_bits (b : Z) : list bool := bits_below 8 b.
Definition wire_bytes (l : list Z) : list event := l ≫= λ b, lcd_bits false (byte_bits b).

Lemma latch_bytes l :
  Forall (λ b, Z.testbit b 0 = false) l →
  latch sclk sid (wire_bytes l) false false = (l ≫= byte_bits, (false, false)).
Proof.
  intros Hl. induction Hl as [|b l Hb Hl IH]; [done|].
  change (wire_bytes (b :: l)) with (lcd_bits false (byte_bits b) ++ wire_bytes l). rewrite latch_bits.
  replace (last_level false (byte_bits b)) with false by (symmetry; exact Hb). by rewrite IH.
Qed.

(** ** What the code drives *)

(** [m] returns having driven [evs]; nothing else happens but clock reads. *)
Definition drives {A} (m : MC A) (s : mcu) (v : A) (evs : list event) (s' : mcu) : Prop :=
  m s = Ret v s' ∧ ∃ k, clocked s k evs s'.

Lemma drives_bind {A C} (m : MC A) (f : A → MC C) s v l s1 w l' s2 :
  drives m s v l s1 → drives (f v) s1 w l' s2 → drives (m ≫= f) s w (l ++ l') s2.
Proof.
  intros (E & k & Hk) (E' & k' & Hk'). split; [by rewrite (bind_ret_eq _ _ _ _ _ E)|].
  exists (k + k')%nat. by apply (clocked_trans s k l s1).
Qed.
Lemma drives_ret {A} (v : A) s : drives (mret v) s v [] s.
Proof. split; [done|]. exists 0%nat. unfold clocked. cbn. rewrite Nat.add_0_r. by destruct s. Qed.
Lemma drives_toggle p s :
  drives (gpio_out_toggle p) s tt [EvToggle p] (s <| trace := EvToggle p :: trace s |>).
Proof. split; [done|]. exists 0%nat. unfold clocked. cbn. rewrite Nat.add_0_r. by destruct s. Qed.

Hypothesis Hclock : ticking.
Hypothesis Hticks : 0 ≤ lcd_nsecs_to_ticks 200 < 2 ^ 31.
Hypothesis Hfuel : lcd_nsecs_to_ticks 200 < Z.of_nat fuel.

Lemma drives_ndelay s : ∃ k, drives (ndelay fuel 200) s tt [] (reads s k).
Proof.
  assert (wp (ndelay fuel 200) s (λ _ s', ∃ k, s' = reads s k) no_shut) as H.
  { apply wp_ndelay; try done. intros k _. by exists k. }
  apply wp_returns_tt in H as (s' & E & k & ->). exists k. split; [done|]. exists k. unfold clocked, reads. by destruct s.
Qed.

(** The waits between commands end too. *)
Lemma drives_elapsed last ticks s :
  ticks < Z.of_nat fuel → 0 ≤ ticks < 2 ^ 31 →
  ∃ k, drives (elapsed_loop fuel last ticks) s tt [] (reads s k).
Proof.
  intros Hf Ht. set (d := u32 (clock_at (hw_reads s) - last)).
  assert (∃ f : nat, fuel = f ∧ (d < ticks → ticks - d < Z.of_nat f) ∧ 0 < Z.of_nat f) as (f & -> & Hm & Hp).
  { exists fuel. pose proof (u32_range (clock_at (hw_reads s) - last)). split; [done|]. unfold d. lia. }
  clear Hf Hfuel. revert s d Hm. induction f as [|f IH]; intros s d Hm; [lia|].
  assert (timer_read_time s = Ret (u32 (clock_at (hw_reads s))) (reads s 1)) as Er.
  { unfold reads. by rewrite Nat.add_1_r. }
  cbn [elapsed_loop]. unfold drives. setoid_rewrite (bind_ret_eq _ _ _ _ _ Er). rewrite u32_sub_l. fold d.
  destruct (Z.ltb_spec d ticks) as [Hd|Hd].
  2:{ exists 1%nat. split; [done|]. exists 1%nat. unfold clocked, reads. by destruct s. }
  specialize (Hclock (hw_reads s)). specialize (Hm Hd).
  destruct (IH ltac:(lia) (reads s 1)) as (k & E & k' & Hk').
  { unfold reads. cbn [hw_reads upd]. rewrite Nat.add_1_r. intros Hd'. revert Hm Hd'. unfold d.
    replace (clock_at (S (hw_reads s)) - last) with
      ((clock_at (hw_reads s) - last) + (clock_at (S (hw_reads s)) - clock_at (hw_reads s))) by lia.
    rewrite <- (u32_add_l (clock_at (hw_reads s) - last)). fold d.
    pose proof (u32_range (clock_at (hw_reads s) - last)) as Hr. fold d in Hr.
    change (2 ^ 31) with 2147483648 in *. rewrite u32_small by lia. lia. }
  rewrite E, reads_reads. exists (S k). split; [done|]. exists (S k). unfold clocked, reads. by destruct s.
Qed.

(** [n] bits are to go; [data] holds them at its top, inverted when the line is high. *)
Lemma drives_bits n b data dat s :
  (n ≤ 8)%nat → 0 ≤ data < 256 →
  (∀ i, 0 ≤ i < Z.of_nat n → Z.testbit data (8 - Z.of_nat n + i) = xorb (Z.testbit b i) dat) →
  ∃ s', drives (st7920_bits n fuel sclk sid data) s tt (lcd_bits dat (bits_below n b)) s'.
Proof.
  revert data dat s. induction n as [|n IH]; intros data dat s Hn Hd Hb.
  { exists s. apply drives_ret. }
  set (bit := Z.testbit b (Z.of_nat n)). set (flip := xorb bit dat).
  assert (has data 0x80 = flip) as Hf.
  { unfold flip, bit. rewrite <- Hb by lia. replace (8 - _ + _) with 7 by lia. by rewrite <- byte_top_bit by lia. }
  set (data1 := if flip then u8 (Z.lnot data) else data).
  assert (∃ s1, drives (if has data 0x80 then gpio_out_toggle sid;;; mret (u8 (Z.lnot data)) else mret data)
    s data1 (if flip then [EvToggle sid] else []) s1) as (s1 & H1).
  { rewrite Hf. unfold data1. destruct flip; [|eexists; apply drives_ret].
    eexists. eapply (drives_bind _ _ _ tt [EvToggle sid]); [apply drives_toggle|apply drives_ret]. }
  destruct (drives_ndelay s1) as (k1 & H2).
  pose proof (drives_toggle sclk (reads s1 k1)) as H3. set (s3 := (reads s1 k1) <| trace := _ |>) in H3.
  destruct (drives_ndelay s3) as (k2 & H4).
  set (s4 := reads _ k2) in H4. pose proof (drives_toggle sclk s4) as H5. set (s5 := s4 <| trace := _ |>) in H5.
  destruct (IH (u8 (Z.shiftl data1 1)) bit s5) as (s6 & H6); [lia|apply u8_range| |].
  { intros i Hi. unfold u8 at 1. rewrite Z.mod_pow2_bits_low, Z.shiftl_spec by lia.
    replace (8 - Z.of_nat n + i - 1) with (8 - Z.of_nat (S n) + i) by lia. specialize (Hb i ltac:(lia)).
    unfold data1, flip in *. destruct (xorb bit dat) eqn:Ex.
    - unfold u8. rewrite Z.mod_pow2_bits_low, Z.lnot_spec, Hb by lia. destruct bit, dat, (Z.testbit b i); done.
    - rewrite Hb. destruct bit, dat; done. }
  exists s6. rewrite bits_below_S. fold bit. cbn [st7920_bits lcd_bits]. unfold lcd_bit. fold flip. rewrite <- app_assoc.
  eapply drives_bind; [exact H1|]. eapply (drives_bind _ _ _ tt []); [exact H2|].
  eapply (drives_bind _ _ _ tt [_]); [exact H3|]. eapply (drives_bind _ _ _ tt []); [exact H4|].
  eapply (drives_bind _ _ _ tt [_]); [exact H5|]. exact H6.
Qed.

(** ** Whole commands *)

(** The display object stays what it is. *)
Definition wired (s : mcu) (a : addr) (lc : st7920) : Prop :=
  objects s !! a = Some (O_st7920 lc) ∧ lc_sclk lc = sclk ∧ lc_sid lc = sid.
Lemma wired_drives {A} (m : MC A) s v l s' a lc : drives m s v l s' → wired s a lc → wired s' a lc.
Proof. intros (_ & k & ->) H. exact H. Qed.

Lemma drives_byte a lc data s :
  wired s a lc → ∃ s', drives (st7920_xmit_byte fuel a data) s tt (lcd_bits false (byte_bits (u8 data))) s'.
Proof.
  intros (Ha & Hsclk & Hsid). destruct (drives_bits 8 (u8 data) (u8 data) false s) as (s' & H).
  { lia. } { apply u8_range. } { intros i Hi. by rewrite xorb_false_r. }
  exists s'. unfold st7920_xmit_byte. eapply (drives_bind _ _ s lc [] s); [|by rewrite Hsclk, Hsid].
  split; [by apply load_eq|]. apply (drives_ret tt s).
Qed.

(** A byte of a command travels as two bytes, one per half. *)
Definition halves (cmd : Z) : list Z := [Z.land cmd 0xf0; u8 (Z.shiftl cmd 4)].

Lemma drives_cmd a lc last ticks cmd s :
  wired s a lc → is_byte cmd → ticks < Z.of_nat fuel → 0 ≤ ticks < 2 ^ 31 →
  ∃ now s', drives (st7920_cmd fuel a last ticks cmd) s now (wire_bytes (halves cmd)) s'.
Proof.
  intros Hw Hc Hf Ht. destruct (drives_byte a lc (Z.land cmd 0xf0) s Hw) as (s1 & H1).
  destruct (drives_elapsed last ticks s1 Hf Ht) as (k & H2).
  destruct (drives_byte a lc (Z.shiftl cmd 4) (reads s1 k)) as (s3 & H3).
  { eapply wired_drives; [exact H2|]. by eapply wired_drives. }
  assert (drives timer_read_time s3 (u32 (clock_at (hw_reads s3))) [] (reads s3 1)) as H4.
  { split; [unfold reads; by rewrite Nat.add_1_r|]. exists 1%nat. unfold clocked, reads. by destruct s3. }
  eexists _, _. unfold st7920_cmd, halves, wire_bytes. cbn [mbind list_bind].
  rewrite u8_small in H1 by by apply land_byte.
  eapply drives_bind; [exact H1|]. eapply (drives_bind _ _ _ tt []); [exact H2|].
  eapply drives_bind; [exact H3|]. exact H4.
Qed.

Lemma drives_cmds a lc ticks cmds last s :
  wired s a lc → Forall is_byte cmds → ticks < Z.of_nat fuel → 0 ≤ ticks < 2 ^ 31 →
  ∃ now s', drives (st7920_cmds fuel a last ticks cmds) s now (wire_bytes (cmds ≫= halves)) s'.
Proof.
  intros Hw Hc Hf Ht. revert last s Hw. induction Hc as [|cmd cmds Hb Hc IH]; intros last s Hw.
  { eexists _, _. apply drives_ret. }
  destruct (drives_cmd a lc last ticks cmd s Hw Hb Hf Ht) as (now & s1 & H1).
  destruct (IH now s1) as (now' & s2 & H2); [by eapply wired_drives|].
  eexists _, _. cbn [st7920_cmds mbind list_bind]. unfold wire_bytes. rewrite bind_app. by eapply drives_bind.
Qed.

(** [st7920_xmit]: the first command waits for the synchronization time, the others for the
    command time. *)
Lemma xmit_wire a lc cmds s :
  wired s a lc → Forall is_byte cmds →
  lc_sync_wait_ticks lc < Z.of_nat fuel → 0 ≤ lc_sync_wait_ticks lc < 2 ^ 31 →
  lc_cmd_wait_ticks lc < Z.of_nat fuel → 0 ≤ lc_cmd_wait_ticks lc < 2 ^ 31 →
  ∃ s', st7920_xmit fuel a cmds s = Ret tt s' ∧ trace s' = rev (wire_bytes (cmds ≫= halves)) ++ trace s.
Proof.
  intros Hw Hc Hf1 Ht1 Hf2 Ht2. destruct cmds as [|cmd cmds]; [by exists s|].
  apply Forall_cons in Hc as [Hb Hc]. destruct Hw as (Ha & Hs & Hd).
  destruct (drives_cmd a lc (lc_last_cmd_time lc) (lc_sync_wait_ticks lc) cmd s) as (t1 & s1 & H1); try done.
  destruct (drives_cmds a lc (lc_cmd_wait_ticks lc) cmds t1 s1) as (t2 & s2 & H2); try done.
  { by eapply wired_drives. }
  assert (objects s2 !! a = Some (O_st7920 lc)) as Ha2.
  { eapply (wired_drives _ _ _ _ _ a lc); [exact H2|]. by eapply wired_drives. }
  destruct H1 as (E1 & k1 & C1), H2 as (E2 & k2 & C2).
  assert (load (T := st7920) a s = Ret lc s) as L1 by by apply load_eq.
  assert (load (T := st7920) a s2 = Ret lc s2) as L2 by by apply load_eq.
  eexists. unfold st7920_xmit.
  rewrite (bind_ret_eq _ _ _ _ _ L1), (bind_ret_eq _ _ _ _ _ E1), (bind_ret_eq _ _ _ _ _ E2).
  unfold upd_obj. rewrite (bind_ret_eq _ _ _ _ _ L2). split; [done|].
  unfold clocked in C1, C2. subst s2. cbn [trace upd mbind list_bind]. rewrite C1. cbn [trace upd].
  unfold wire_bytes. by rewrite bind_app, rev_app_distr, <- app_assoc.
Qed.
End waveform.

Section send.
Context {B : Board}.

Lemma halves_low cmd : Forall (λ b, Z.testbit b 0 = false) (halves cmd).
Proof.
  repeat apply Forall_cons_2; try done.
  - rewrite Z.land_spec. apply andb_false_r.
  - unfold u8. rewrite (Z.mod_pow2_bits_low _ 8), Z.shiftl_spec by lia. done.
Qed.

(** A command or data message to the ST7920 display: at the rising edges of the clock pin the
    chip samples exactly the synchronisation byte and then, for every byte of the message, its
    high half and its low half as two bytes, all most significant bit first, and both lines end
    low; all the busy waits end. *)
Theorem st7920_send_latched fuel sync oid a lc len p data s :
  ticking → lc_sclk lc ≠ lc_sid lc →
  oid_lookup oid command_config_st7920_t s = Ret a s → objects s !! a = Some (O_st7920 lc) →
  read_ptr p (Z.to_nat (u8 len)) s = Ret data s → Forall is_byte data →
  sync = SYNC_CMD ∨ sync = SYNC_DATA →
  (∀ t, t ∈ [lcd_nsecs_to_ticks 200; lc_sync_wait_ticks lc; lc_cmd_wait_ticks lc] →
     0 ≤ t < 2 ^ 31 ∧ t < Z.of_nat fuel) →
  ∃ evs s', st7920_send fuel sync [oid; len; p] s = Ret tt s' ∧ trace s' = rev evs ++ trace s ∧
    latch (lc_sclk lc) (lc_sid lc) evs false false =
      ((sync :: data ≫= halves) ≫= bits_below 8, (false, false)).
Proof.
  intros Hc Hpins Hoid Ha Hp Hd Hsync Ht.
  assert (0 ≤ sync < 256 ∧ Z.testbit sync 0 = false) as [Hsr Hs0] by (destruct Hsync; subst; done).
  destruct (Ht (lcd_nsecs_to_ticks 200)) as [Ht0 Hf0]; [set_solver|].
  destruct (Ht (lc_sync_wait_ticks lc)) as [Ht1 Hf1]; [set_solver|].
  destruct (Ht (lc_cmd_wait_ticks lc)) as [Ht2 Hf2]; [set_solver|].
  assert (wired (lc_sclk lc) (lc_sid lc) s a lc) as Hw by done.
  destruct (drives_byte (lc_sclk lc) (lc_sid lc) fuel Hc Ht0 Hf0 a lc sync s Hw) as (s1 & H1).
  pose proof (wired_drives _ _ _ _ _ _ _ _ _ H1 Hw) as Hw1. destruct H1 as (E1 & k & C1).
  destruct (xmit_wire (lc_sclk lc) (lc_sid lc) fuel Hc Ht0 Hf0 a lc data s1 Hw1 Hd Hf1 Ht1 Hf2 Ht2) as (s2 & E2 & T2).
  exists (wire_bytes (lc_sclk lc) (lc_sid lc) (sync :: data ≫= halves)), s2. split_and!.
  - unfold st7920_send. rewrite (bind_ret_eq _ _ s oid s eq_refl), (bind_ret_eq _ _ _ _ _ Hoid), (bind_ret_eq _ _ _ _ _ E1).
    rewrite (bind_ret_eq _ _ s1 len s1 eq_refl), (bind_ret_eq _ _ s1 p s1 eq_refl).
    assert (read_ptr p (Z.to_nat (u8 len)) s1 = Ret data s1) as Hp1.
    { rewrite C1. revert Hp. unfold read_ptr, mbind, M_bind, get. cbn. destruct (_ && _); [|done]. unfold mret, M_ret. congruence. }
    by rewrite (bind_ret_eq _ _ _ _ _ Hp1).
  - rewrite T2, C1. unfold wire_bytes, byte_bits. cbn [mbind list_bind trace upd]. rewrite u8_small by done.
    by rewrite rev_app_distr, <- app_assoc.
  - apply latch_bytes; [done|]. apply Forall_cons. split; [done|]. clear.
    induction data as [|b data IH]; [done|]. cbn [mbind list_bind]. apply Forall_app_2; [apply halves_low|done].
Qed.
End send.
