(* ===== verification/Rig.v ===== *)
(** * A configured machine

    A concrete state of the firmware on the board of Bench.v: two steppers on one trigger,
    an end stop, outputs, inputs and buses, with moves queued and timers scheduled.  Every
    theorem of the library that has hypotheses is applied here to this machine (or to a
    small variation of it), with its hypotheses discharged by evaluation. *)

From S2P Require Import Prelude State Runtime Bench Sched TimerQueue SchedSpec TimerService Vlq Crc Command.
From S2P Require Import CommandSpec Basecmd BasecmdSpec PoolSpec OidSpec Trsync Stepper Endstop Outputs.
From S2P Require Import Inputs SerialIrq Buses Tmcuart Msgblock Firmware StepperSpec StepperProps.
From S2P Require Import TrsyncSpec EndstopSpec InputsSpec OutputSpec SerialSpec BusSpec WireSpec MsgblockSpec.


#[local] Existing Instance bench.

(** ** Addresses *)

Definition stepper_x : addr := 0x20000100.
Definition stepper_y : addr := 0x20000200.
Definition endstop_x : addr := 0x20000300.
Definition trigger : addr := 0x20000400.
Definition fan : addr := 0x20000500.
Definition heater : addr := 0x20000600.
Definition thermistor : addr := 0x20000700.
Definition knob : addr := 0x20000800.
Definition tacho : addr := 0x20000900.
Definition accel_bus : addr := 0x20000a00.
Definition driver_uart : addr := 0x20000b00.
Definition leds : addr := 0x20000c00.
(** Item [i] of the move pool. *)
Definition move_at (i : Z) : addr := 0x20001000 + 16 * i.

(** ** Objects *)

Definition rig_x : stepper :=
  mk_stepper 100 10 5 0 0 40 41 (POSITION_BIAS + 105) (mk_mq (move_at 0) (move_at 1)) SF_SINGLE_SCHED.
Definition rig_y : stepper :=
  mk_stepper 200 0 6 3000 360 42 43 (POSITION_BIAS + 20) (mk_mq (move_at 2) (move_at 2)) 0.
Definition rig_endstop : endstop :=
  mk_endstop 3 500 50 0 trigger (Z.lor ESF_HOMING ESF_PIN_HIGH) 4 4 1.
Definition rig_trsync : trsync := mk_trsync 1000 stepper_x TSF_CAN_TRIGGER 0 2.
Definition rig_fan : digital_out_s :=
  mk_digital_out 0 0 0 50 90000 4000 (mk_mq (move_at 3) (move_at 4)) 0.
Definition rig_heater : pwm_out_s := mk_pwm_out 51 90000 0 (mk_mq (move_at 5) (move_at 6)).
Definition rig_adc : analog_in := mk_analog_in 3000 100 6000 0 400 600 60 0 4 5 4.
Definition rig_knob : buttons := mk_buttons 700 0 1 2 [1; 0; 0; 0; 0; 0; 0; 0] 0 BF_ACKED 5 2 [3; 4].
Definition rig_tacho : counter := mk_counter 800 5000 100 7 0 0 5.
Definition rig_soft_spi : spi_software := mk_spi_software 6 70 71 0.
Definition rig_uart : tmcuart_s :=
  mk_tmcuart 72 73 (Z.lor TU_LINE_HIGH TU_ACTIVE) 0 0 32 4500 4500 [0x0a; 0; 0x10; 0x1c; 0; 0; 0; 0; 0; 0].
Definition rig_leds : neopixel_s := mk_neopixel 74 900 0 9000 6 [1; 2; 3; 4; 5; 6].

Definition rig_objects : gmap addr object :=
  list_to_map
    [(stepper_x, O_stepper rig_x); (stepper_y, O_stepper rig_y); (endstop_x, O_endstop rig_endstop);
     (trigger, O_trsync rig_trsync); (fan, O_digital_out rig_fan); (heater, O_pwm_out rig_heater);
     (thermistor, O_analog_in rig_adc); (knob, O_buttons rig_knob); (tacho, O_counter rig_tacho);
     (accel_bus, O_spi_software rig_soft_spi); (driver_uart, O_tmcuart rig_uart);
     (leds, O_neopixel rig_leds)].

Definition rig_oids : list oid_s :=
  [mk_oid (Some command_config_stepper_t) stepper_x; mk_oid (Some command_config_stepper_t) stepper_y;
   mk_oid (Some command_config_endstop_t) endstop_x; mk_oid (Some command_config_trsync_t) trigger;
   mk_oid (Some command_config_digital_out_t) fan; mk_oid (Some command_config_pwm_out_t) heater;
   mk_oid (Some command_config_analog_in_t) thermistor; mk_oid (Some command_config_buttons_t) knob;
   mk_oid (Some command_config_counter_t) tacho; mk_oid (Some command_config_tmcuart_t) driver_uart;
   mk_oid (Some command_config_neopixel_t) leds; mk_oid None 0].

(** ** Moves *)

Definition move_x0 : stepper_move := mk_stepper_move 300 (-2) 20 0.
Definition move_x1 : stepper_move := mk_stepper_move 250 3 10 MF_DIR.
Definition move_y0 : stepper_move := mk_stepper_move 400 1 30 0.
Definition rig_moves : gmap addr move_node :=
  list_to_map
    [(move_at 0, mk_move_node (move_at 1) (MD_stepper move_x0));
     (move_at 1, mk_move_node 0 (MD_stepper move_x1));
     (move_at 2, mk_move_node 0 (MD_stepper move_y0));
     (move_at 3, mk_move_node (move_at 4) (MD_digital (mk_digital_move 4000 1000)));
     (move_at 4, mk_move_node 0 (MD_digital (mk_digital_move 50000 0)));
     (move_at 5, mk_move_node (move_at 6) (MD_pwm (mk_pwm_move 5000 100)));
     (move_at 6, mk_move_node 0 (MD_pwm (mk_pwm_move 60000 0)));
     (move_at 7, mk_move_node (move_at 8) MD_raw); (move_at 8, mk_move_node 0 MD_raw)].
Definition rig_free : list addr := [move_at 7; move_at 8].

(** ** Timers *)

Definition PERIOD : Z := 18000000.
Definition time_of (a : addr) : tid := T_member a M_time.
Definition rig_queue : list entry :=
  [(time_of stepper_x, 1000); (time_of endstop_x, 2000); (time_of stepper_y, 3000);
   (time_of fan, 4000); (time_of heater, 5000); (time_of thermistor, 6000); (time_of knob, 7000);
   (time_of tacho, 8000); (time_of driver_uart, 9000); (T_periodic, PERIOD)].

Definition rig_func (t : tid) : tfunc :=
  match t with
  | T_periodic => F_periodic_event
  | T_member a M_time =>
      if a =? stepper_x then F_null else if a =? endstop_x then F_endstop_event
      else if a =? stepper_y then F_stepper_event_full else if a =? fan then F_digital_load_event
      else if a =? heater then F_pwm_event else if a =? thermistor then F_analog_in_event
      else if a =? knob then F_buttons_event else if a =? tacho then F_counter_event
      else F_tmcuart_send_event
  | _ => F_deleted_event
  end.

(** The timers of a queue, linked in its order. *)
Fixpoint linked (q : list entry) : list (tid * timer) :=
  match q with
  | [] => [(T_sentinel, mk_timer None F_sentinel_event (u32 (PERIOD + HALF)))]
  | (t, w) :: q' =>
      (t, mk_timer (Some (default T_sentinel (head (q'.*1)))) (rig_func t) (u32 w)) :: linked q'
  end.
Definition rig_timers : gmap tid timer :=
  <[T_deleted := mk_timer None F_deleted_event 0]> (list_to_map (linked rig_queue)).

Definition rig : mcu :=
  mk_mcu (mk_sched rig_timers (time_of stepper_x) T_periodic 0 0 "")
    (mk_base 0x20001090 (move_at 7) (move_at 0) 9 16 (Some rig_oids) 12 0 0 0 0 0 0)
    boot_cmd rig_objects rig_moves
    (list_to_map [(stepper_x, mk_signal stepper_y (Some SG_stepper_stop));
                  (stepper_y, mk_signal 0 (Some SG_stepper_stop))])
    (λ _, 0) [9; 16; 7; 1; 2; 3; 4; 0; 126] 0 true 20 [].

(** ** Deciding representation predicates on concrete states *)

Fixpoint chain_b (ts : gmap tid timer) (l : list tid) : bool :=
  match l with
  | [] => false
  | t :: l' =>
      match l' with
      | [] => bool_decide (t_next <$> ts !! t = Some None)
      | u :: _ => bool_decide (t_next <$> ts !! t = Some (Some u)) && chain_b ts l'
      end
  end.

Lemma chain_b_ok ts l : chain_b ts l = true → chain ts l.
Proof.
  induction l as [|t l IH]; [done|]. destruct l as [|u l]; cbn [chain_b].
  - intros H%bool_decide_eq_true. apply fmap_Some in H as (x & Hx & Hn). by exists x.
  - intros [H Hl]%andb_prop. apply bool_decide_eq_true, fmap_Some in H as (x & Hx & Hn).
    split; [by exists x|]. by apply IH.
Qed.

Definition links_b (c : sched_state) (q : list entry) (P : Z) : bool :=
  chain_b (timers c) (q.*1 ++ [T_sentinel]) &&
  bool_decide (head (q.*1) = Some (timer_list c)) &&
  bool_decide (NoDup (q.*1 ++ [T_sentinel])) &&
  forallb (λ e : entry, bool_decide (t_waketime <$> timers c !! e.1 = Some (u32 e.2))) q &&
  bool_decide (t_waketime <$> timers c !! T_sentinel = Some (u32 (P + HALF))) &&
  bool_decide (last_insert c ∈ q.*1) && bool_decide (T_deleted ∉ (tail q).*1) &&
  bool_decide (is_Some (timers c !! T_deleted)).
Definition ordered_b (q : list entry) (P : Z) : bool :=
  bool_decide (sorted q) &&
  forallb (λ a : entry, forallb (λ b : entry, a.2 - b.2 <? HALF) q && (a.2 <? P + HALF)) q &&
  bool_decide ((T_periodic, P) ∈ q).

Lemma links_b_ok c q P : links_b c q P = true → links c q P.
Proof.
  unfold links_b. rewrite !andb_true_iff, !bool_decide_eq_true, !forallb_forall.
  intros [[[[[[[Hc Hh] Hnd] Hw] Hse] Hli] Hdel] Hal]. split; try done.
  - by apply chain_b_ok.
  - intros t w Hin. apply list_elem_of_In in Hin. specialize (Hw _ Hin).
    apply bool_decide_eq_true, fmap_Some in Hw as (x & Hx & Hxw). by exists x.
  - apply fmap_Some in Hse as (x & Hx & Hxw). by exists x.
Qed.

Lemma ordered_b_ok q P : ordered_b q P = true → ordered q P.
Proof.
  unfold ordered_b. rewrite !andb_true_iff, !bool_decide_eq_true, !forallb_forall.
  intros [[Hso Hall] Hper]. split; try done.
  - intros a b Ha Hb. apply list_elem_of_In in Ha, Hb. specialize (Hall a Ha).
    apply andb_prop in Hall as [Hall _]. rewrite forallb_forall in Hall.
    specialize (Hall b Hb). by apply Z.ltb_lt.
  - intros a Ha. apply list_elem_of_In in Ha. specialize (Hall a Ha).
    apply andb_prop in Hall as [_ Hall]. by apply Z.ltb_lt.
Qed.

Lemma queue_b_ok s q P :
  links_b (sched s) q P && ordered_b q P = true → sched_queue s (first_time q) (live q) P.
Proof.
  rewrite andb_true_iff. intros [Hl Ho]. exists q. split; [|done].
  split; [by apply links_b_ok|by apply ordered_b_ok].
Qed.

Fixpoint mlist_b (ms : gmap addr move_node) (p : addr) (l : list addr) : bool :=
  match l with
  | [] => p =? 0
  | a :: l => (p =? a) && negb (a =? 0) &&
              match ms !! a with Some n => mlist_b ms (n_next n) l | None => false end
  end.

Lemma mlist_b_ok ms p l : mlist_b ms p l = true → mlist ms p l.
Proof.
  revert p. induction l as [|a l IH]; intros p; cbn [mlist_b mlist]; [by intros ?%Z.eqb_eq|].
  rewrite !andb_true_iff, negb_true_iff, Z.eqb_eq, Z.eqb_neq. intros [[-> Ha] Hl].
  destruct (ms !! a) as [n|]; [|done]. split; [done|]. split; [done|]. exists n. split; [done|by apply IH].
Qed.

Definition mq_rep_b (ms : gmap addr move_node) (mh : move_queue_head) (l : list addr) : bool :=
  mlist_b ms (mq_first mh) l && bool_decide (NoDup l) &&
  bool_decide (l = [] ∨ last l = Some (mq_last mh)).
Lemma mq_rep_b_ok ms mh l : mq_rep_b ms mh l = true → mq_rep ms mh l.
Proof.
  unfold mq_rep_b. rewrite !andb_true_iff, !bool_decide_eq_true. intros [[Hl Hn] He].
  split; [by apply mlist_b_ok|done|]. intros Hne. by destruct He.
Qed.

Lemma free_rep_b_ok s l :
  mlist_b (moves s) (move_free_list (base s)) l && bool_decide (NoDup l) = true → free_rep s l.
Proof.
  rewrite andb_true_iff, bool_decide_eq_true. intros [Hl Hn]. split; [by apply mlist_b_ok|done].
Qed.

(** Discharge what evaluation decides. *)
Ltac rig_eval :=
  lazymatch goal with
  | |- mq_rep _ _ _ => apply mq_rep_b_ok; vm_compute; reflexivity
  | |- free_rep _ _ => apply free_rep_b_ok; vm_compute; reflexivity
  | |- mlist _ _ _ => apply mlist_b_ok; vm_compute; reflexivity
  | |- links _ _ _ => apply links_b_ok; vm_compute; reflexivity
  | |- ordered _ _ => apply ordered_b_ok; vm_compute; reflexivity
  | |- _ = _ => vm_compute; reflexivity
  | |- _ => eapply bool_decide_eq_true_1; vm_compute; reflexivity
  end.

Lemma rig_queue_ok : sched_queue rig 1000 rig_queue PERIOD.
Proof. apply (queue_b_ok rig rig_queue PERIOD). vm_compute. reflexivity. Qed.

(** The moves of a queue, seen at the type of their owner. *)
Lemma rig_x_ok : stepper_ok rig stepper_x rig_x
  (mk_timer (Some (time_of endstop_x)) F_null 1000) [move_at 0; move_at 1] rig_free.
Proof.
  split; try rig_eval. intros m [->|Hm]%elem_of_cons; [|apply list_elem_of_singleton in Hm as ->];
    eexists _, _; by split; [vm_compute|].
Qed.
Lemma rig_y_ok : stepper_ok rig stepper_y rig_y
  (mk_timer (Some (time_of fan)) F_stepper_event_full 3000) [move_at 2] rig_free.
Proof.
  split; try rig_eval. intros m ->%list_elem_of_singleton. eexists _, _; by split; [vm_compute|].
Qed.
