(* ===== verification/RigCore.v ===== *)
(** * The core theorems on the configured machine

    Scheduler, memory, command and motion theorems applied to the machine of Rig.v. *)

From S2P Require Import Prelude State Runtime Bench Sched TimerQueue SchedSpec TimerService Vlq Crc Command.
From S2P Require Import CommandSpec Basecmd BasecmdSpec PoolSpec OidSpec Trsync Stepper Endstop Msgblock.
From S2P Require Import Firmware StepperSpec StepperProps TrsyncSpec EndstopSpec MsgblockSpec Rig.

#[local] Existing Instance bench.

(** ** Scheduler *)

Lemma sched_timer_dispatch_witness :
  wp (sched_timer_dispatch timer_call stepper_event) rig
    (λ next s'', ∃ res s' w' q1 P' u h q2,
       (res = SF_RESCHEDULE ∧ w' = 1100 ∧ q1 = tail rig_queue ∧
        trace s' = [EvToggle (st_step_pin rig_x)]) ∧
       requeue (time_of stepper_x) res w' q1 = (u, h) :: q2 ∧ rep s'' ((u, h) :: q2) P' ∧
       next = u32 h ∧ frame s' s'' ∧ same_user_data s' s'') no_shut.
Proof.
  apply (sched_timer_dispatch_refines timer_call stepper_event rig (time_of stepper_x)
    (mk_timer (Some (time_of endstop_x)) F_null 1000)
    (λ res s' w' q1 P', res = SF_RESCHEDULE ∧ w' = 1100 ∧ q1 = tail rig_queue ∧
       trace s' = [EvToggle (st_step_pin rig_x)]) no_shut); [reflexivity..|].
  eapply wp_of_eq; [vm_compute; reflexivity|]. exists 1100, (tail rig_queue), PERIOD.
  split_and!; try rig_eval. split; rig_eval.
Defined.

Lemma periodic_event_witness :
  wp periodic_event boot
    (λ res s', res = SF_RESCHEDULE ∧ links (sched s') [(T_periodic, 0 + timer_from_us 100000)] (0 + timer_from_us 100000) ∧
       reentry T_periodic res (0 + timer_from_us 100000) [] (0 + timer_from_us 100000) ∧
       tasks_status (sched s') = TS_REQUESTED ∧ frame boot s') no_shut.
Proof.
  apply (periodic_event_ok boot [] 0); [|vm_compute; reflexivity].
  split; [apply links_b_ok|apply ordered_b_ok]; vm_compute; reflexivity.
Defined.

Lemma sched_add_timer_witness :
  wp (sched_add_timer (time_of leds))
    (upd sched (upd timers <[time_of leds := mk_timer None F_endstop_event 4500]>) rig)
    (λ _ s', sched_queue s' 1000 (ins (time_of leds) 4500 rig_queue) PERIOD)
    (λ r _, r = "Timer too close").
Proof.
  eapply wp_mono; [apply (sched_add_timer_refines _ 1000 rig_queue PERIOD (time_of leds)
    (mk_timer None F_endstop_event 4500) 4500)| |].
  - apply (queue_b_ok _ rig_queue PERIOD). vm_compute. reflexivity.
  - exact I.
  - rig_eval.
  - reflexivity.
  - reflexivity.
  - split_and!; [reflexivity..|]. rig_eval.
  - intros _ s' (H & _). exact H.
  - intros r s' (H & _). exact H.
Defined.

Lemma sched_del_timer_witness :
  ∃ s', sched_del_timer (time_of stepper_x) rig = Ret tt s' ∧
    sched_queue s' 1000 (tail rig_queue) PERIOD ∧ same_user_data rig s'.
Proof.
  destruct (wp_returns_tt _ _ _
    (sched_del_timer_refines rig 1000 rig_queue PERIOD (time_of stepper_x) rig_queue_ok I))
    as (s' & E & Hq & _ & Hd & _).
  exists s'. split; [exact E|]. split; [exact Hq|exact Hd].
Defined.

(** ** Commands *)

Definition ping : list Z := [7; 1].

Lemma crc16_ccitt_witness : crc16_ccitt ping 2 = crc_ref ping.
Proof. apply (crc16_ccitt_ref ping 2). rig_eval. Defined.

Lemma find_block_accepts_witness :
  command_find_block (add_frame 16 7 ping ++ [9]) rig =
    Ret (1, 7) (rig <| cmd := boot_cmd <| next_sequence := 17 |> |>).
Proof. apply (find_block_accepts ping [9] rig); vm_compute; split || lia; done. Defined.

Lemma find_block_sound_witness :
  wp (command_find_block [7; 16; 1; 2; 3; 4; 126; 9]) rig (found rig [7; 16; 1; 2; 3; 4; 126; 9]) no_shut.
Proof. apply (find_block_sound [7; 16; 1; 2; 3; 4; 126; 9] rig). rig_eval. Defined.

(** A table of three commands that are available in any state. *)
Definition always_commands : list command_parser :=
  [decl_in_shutdown command_get_clock []; decl_in_shutdown command_get_uptime [];
   decl_in_shutdown command_emergency_stop []].

Lemma command_dispatch_safe_witness :
  wp (command_dispatch always_commands (add_frame 16 7 [1; 2]) 7) rig
    (λ _ s', shutdown_status (sched s') = 0) (λ _ s', irq_off s' = true).
Proof.
  apply (command_dispatch_safe (λ s, shutdown_status (sched s) = 0) (λ s, irq_off s = true)
    always_commands (add_frame 16 7 [1; 2]) 16 7 rig).
  - intros cp Hcp args s Hs Ha.
    apply elem_of_cons in Hcp as [->|[->|[->|[]%not_elem_of_nil]%elem_of_cons]%elem_of_cons];
      cbn [cp_func decl_in_shutdown]; [| |done];
      unfold command_get_clock, command_get_uptime; repeat wstep; cbn;
      by destruct (nz (in_sendf (cmd s))).
  - done.
  - done.
  - rig_eval.
  - exists [1; 2]. split_and!; [reflexivity|cbn; lia|vm_compute; reflexivity].
  - vm_compute. discriminate.
  - reflexivity.
Defined.

Lemma host_command_reaches_handler_witness :
  ∃ qm, message_alloc_and_encode [17; 0; 300; 20; u32 (-2)] = Some qm ∧
    command_dispatch (commands 0 0) (add_frame 16 (qm_len qm + 5) (payload_of qm)) (qm_len qm + 5) rig =
      command_queue_step [0; 300; 20; u32 (-2)]
        (rig <| rx_block := add_frame 16 (qm_len qm + 5) (payload_of qm) |>).
Proof.
  destruct (message_alloc_and_encode [17; 0; 300; 20; u32 (-2)]) as [qm|] eqn:E;
    [|vm_compute in E; discriminate].
  exists qm. split; [reflexivity|].
  assert (qm_len qm ≠ 0) as Hn by (vm_compute in E; injection E as <-; discriminate).
  refine (host_command_reaches_handler (commands 0 0)
    (decl command_queue_step [fmt_c; fmt_u; fmt_hu; fmt_hi]) 17 [0; 300; 20; u32 (-2)] qm 16 rig
    E Hn _ _ _ _ _ _ _).
  - lia.
  - rig_eval.
  - reflexivity.
  - rig_eval.
  - reflexivity.
  - split; [discriminate|reflexivity].
  - reflexivity.
Defined.


Lemma host_encode_decode_witness :
  ∃ qm, message_alloc_and_encode [5; 3; 4294967289] = Some qm ∧
    msgblock_decode 3 (add_frame 16 (qm_len qm + 5) (payload_of qm)) (qm_len qm + 5) =
      Some (0, [5; 3; 4294967289]).
Proof.
  destruct (host_encode_decode [5; 3; 4294967289] 16) as (qm & E & H); [rig_eval|done|].
  exists qm. split; [exact E|]. exact (proj2 H).
Defined.

Lemma msgblock_check_sound_witness :
  ∃ ret ns, msgblock_check 0 [7; 16; 1; 2; 3; 4; 126; 9] = Some (ret, ns) ∧ ret ≤ 8.
Proof.
  destruct (msgblock_check_sound [7; 16; 1; 2; 3; 4; 126; 9] 0) as (ret & ns & E & H); [rig_eval|].
  exists ret, ns. split; [exact E|]. vm_compute in E. injection E as <- <-. discriminate.
Defined.

Lemma clock_from_clock32_witness : clock_from_clock32 8589934000 (u32 8589934700) = 8589934700.
Proof. apply (clock_from_clock32_extends 8589934000 8589934700); lia. Defined.

Lemma clamped_buffer_overruns_witness :
  ∃ block, command_encode_and_frame 4 (mk_encoder 5 64 [PT_byte; PT_buffer])
      [VA_int 3; VA_int 60; VA_ptr (replicate 60 0)] rig = Ret (65, block) rig ∧ length block = 65%nat.
Proof.
  destruct (clamped_buffer_overruns 5 3 (replicate 60 0) rig) as (block & E & Hl & _);
    [lia|rewrite length_replicate; lia|].
  exists block. split; [exact E|]. apply Nat2Z.inj. exact Hl.
Defined.

(** ** Memory *)

(** The machine before [finalize_config]. *)
Definition rig_config : mcu := rig <| base; move_count := 0 |>.

Lemma alloc_ok_rig : alloc_ok rig_config.
Proof. split; [|vm_compute; discriminate]. exists 134218788. vm_compute. reflexivity. Qed.
Lemma oids_ok_rig : oids_ok (base rig).
Proof. by vm_compute. Qed.


Lemma oid_alloc_lookup_witness :
  wp (oid_alloc 11 command_config_counter_t 44 0) rig_config
    (λ data s', oid_lookup 11 command_config_counter_t s' = Ret data s')
    (λ r _, r = "Can't assign oid" ∨ r = "alloc_chunk failed").
Proof.
  eapply wp_mono;
    [apply (oid_alloc_lookup rig_config 11 command_config_counter_t 44 0 2 oids_ok_rig alloc_ok_rig); cbn; lia
    |intros data s' (H & _); exact H|intros r s' [[H _]|[H _]]; [left|right]; exact H].
Defined.

Lemma oid_alloc_failure_witness :
  ∃ s', oid_alloc 11 command_config_counter_t 44 0
          (rig_config <| base; alloc_end := dynmem_end - 8 |>) = Shut "alloc_chunk failed" s' ∧
    oid_lookup 11 command_config_counter_t s' = Ret 0 s'.
Proof.
  apply (oid_alloc_failure_types_oid (rig_config <| base; alloc_end := dynmem_end - 8 |>) 11
    command_config_counter_t 44 0 (mk_oid None 0)); try reflexivity; try (cbn; lia). apply oids_ok_rig.
Defined.

Lemma move_reset_witness :
  ∃ s', move_reset rig = Ret tt s' ∧ free_rep s' (move_at <$> [0; 1; 2; 3; 4; 5; 6; 7; 8]).
Proof.
  destruct (move_reset_frees_all rig) as (s' & E & Hf & _).
  - split_and!; [reflexivity..|]. apply Forall_forall. rig_eval.
  - exists s'. split; [exact E|exact Hf].
Defined.

Lemma move_finalize_witness :
  wp move_finalize rig_config
    (λ _ s', 0 < move_count (base s') ≤ 1024 ∧ pool_ok s')
    (λ r _, r = "Already finalized" ∨ r = "alloc_chunks failed").
Proof.
  eapply wp_mono; [apply (move_finalize_ok rig_config 2 alloc_ok_rig); cbn; lia| |].
  - intros _ s' (_ & Hc & _ & _ & _ & Hp & _). split; [exact Hc|exact Hp].
  - intros r s' [[H _]|[H _]]; [left|right]; exact H.
Defined.

(** * The motion theorems on the configured machine

    Stepper, trigger and end stop theorems applied to the machine of Rig.v. *)

#[local] Existing Instance bench.

Definition timer_x : timer := mk_timer (Some (time_of endstop_x)) F_null 1000.
Definition timer_y : timer := mk_timer (Some (time_of fan)) F_stepper_event_full 3000.
Definition timer_es : timer := mk_timer (Some (time_of stepper_y)) F_endstop_event 2000.

(** ** Steppers *)

Lemma edge_step_times_witness :
  wp (load_and_run stepper_event_edge stepper_x 5) rig
    (λ _ s', ∃ o' x', objects s' !! stepper_x = Some (O_stepper o') ∧
       timers (sched s') !! time_of stepper_x = Some x' ∧
       t_waketime x' = u32 (step_time 1000 300 (-2) 6) ∧ st_count o' = 15 ∧
       stepper_get_position o' = POSITION_BIAS + 110) no_shut.
Proof.
  eapply wp_conseq; [apply (edge_step_times rig stepper_x rig_x timer_x (move_at 0) [move_at 1] rig_free
    (mk_move_node (move_at 1) (MD_stepper move_x0)) move_x0 5 true 105 rig_x_ok); done|].
  intros _ s' (o' & x' & H1 & H2 & H3 & H4 & H5 & _). exists o', x'.
  split; [exact H1|]. split; [exact H2|]. split; [exact H3|]. split; [exact H4|exact H5].
Defined.

Lemma full_step_times_witness :
  wp (load_and_run stepper_event_full stepper_y 6) rig
    (λ _ s', ∃ o', objects s' !! stepper_y = Some (O_stepper o') ∧
       st_next_step_time o' = u32 (step_time 3000 400 1 4) ∧ st_count o' = 54 ∧
       stepper_get_position o' = POSITION_BIAS + 23) no_shut.
Proof.
  eapply wp_conseq; [apply (full_step_times rig stepper_y rig_y timer_y (move_at 2) [] rig_free
    (mk_move_node 0 (MD_stepper move_y0)) move_y0 3 true 20 rig_y_ok); done|].
  intros _ s' (o' & H1 & H2 & H3 & H4 & _). exists o'.
  split; [exact H1|]. split; [exact H2|]. split; [exact H3|exact H4].
Defined.

Lemma full_min_pulse_witness :
  wp (stepper_event_full (time_of stepper_y)) rig
    (λ r s', r = SF_RESCHEDULE ∧ ∃ x', timers (sched s') !! time_of stepper_y = Some x' ∧
       timer_is_before (t_waketime x') (u32 (u32 (clock_at (hw_reads rig)) + 360)) = false) no_shut.
Proof.
  eapply wp_conseq; [apply (stepper_event_full_min_pulse rig stepper_y rig_y timer_y [move_at 2] rig_free rig_y_ok)|].
  intros r s' [_ [[_ H]|H]]; [discriminate H|exact H].
Defined.

Lemma stepper_event_conserves_witness :
  wp (stepper_event (time_of stepper_x)) rig
    (λ r s', (∃ o' x' l' f', stepper_ok s' stepper_x o' x' l' f' ∧
                l' ++ f' ≡ₚ [move_at 0; move_at 1] ++ rig_free) ∧
       (r = SF_DONE ∧ [move_at 0; move_at 1] = [] ∨ r = SF_RESCHEDULE)) no_shut.
Proof. apply (stepper_event_conserves rig stepper_x rig_x timer_x [move_at 0; move_at 1] rig_free rig_x_ok). Defined.

Lemma stepper_stop_halts_witness :
  wp (stepper_stop stepper_x 1) rig
    (λ _ s', sched_queue s' 1000 (tail rig_queue) PERIOD ∧
       (∃ o', objects s' !! stepper_x = Some (O_stepper o') ∧ st_count o' = 0 ∧
          stepper_get_position o' = POSITION_BIAS + 100) ∧
       free_rep s' [move_at 1; move_at 0; move_at 7; move_at 8]) no_shut.
Proof.
  eapply wp_conseq; [apply (stepper_stop_halts rig 1000 rig_queue PERIOD stepper_x rig_x timer_x
    [move_at 0; move_at 1] rig_free true 105 1 rig_queue_ok rig_x_ok); done|].
  intros _ s' (Hq & (o' & H1 & H2 & _ & _ & _ & H3) & Hf & _). split; [exact Hq|].
  split; [|exact Hf]. exists o'. split; [exact H1|]. split; [exact H2|exact H3].
Defined.

Lemma queue_step_appends_witness :
  wp (command_queue_step [0; 200; 8; 0]) rig
    (λ _ s', ∃ o', stepper_ok s' stepper_x o' timer_x [move_at 0; move_at 1; move_at 7] [move_at 8]) no_shut.
Proof.
  eapply wp_conseq; [apply (queue_step_appends rig 0 200 8 0 stepper_x rig_x timer_x [move_at 0; move_at 1]
    (move_at 7) [move_at 8] true [move_x0; move_x1])|].
  - reflexivity.
  - exact rig_x_ok.
  - discriminate.
  - discriminate.
  - repeat constructor; eexists; split; reflexivity.
  - reflexivity.
  - intros _ s' (o' & H & _). exists o'. exact H.
Defined.

(** ** Trigger and end stop *)

Definition rig_fleet : list (addr * list addr) :=
  [(stepper_x, [move_at 0; move_at 1]); (stepper_y, [move_at 2])].

Lemma rig_fleet_ok : fleet rig rig_fleet rig_free.
Proof.
  split; try rig_eval. intros a l [H|H%list_elem_of_singleton]%elem_of_cons; injection H as -> ->;
    eexists _, _; (split; [reflexivity|]); (split; [reflexivity|rig_eval]).
Qed.
Lemma rig_signals_ok : slist (signals rig) (ts_signals rig_trsync) (rig_fleet.*1).
Proof. cbn. split_and!; [done..|]. eexists. split_and!; [done..|]. eexists. by split_and!. Qed.

Lemma trsync_trigger_witness :
  ∃ s', trsync_do_trigger signal_callback trigger 7 rig = Ret tt s' ∧
    halted s' stepper_x ∧ halted s' stepper_y ∧
    trsync_do_trigger signal_callback trigger 9 s' = Ret tt s'.
Proof.
  destruct (wp_returns_tt _ _ _ (trsync_trigger_stops_all rig trigger rig_trsync rig_fleet rig_free 1000 rig_queue
    PERIOD 7 rig_queue_ok eq_refl eq_refl rig_signals_ok rig_fleet_ok)) as (s' & E & _ & Hh & _ & _ & Hr).
  exists s'. split; [exact E|]. split; [apply Hh; left|]. split; [apply Hh; right; left|apply Hr].
Defined.

(** An end stop that triggers on its first sample. *)
Definition endstop_1 : endstop := rig_endstop <| es_sample_count := 1 |> <| es_trigger_count := 1 |>.
Definition rig_1 : mcu := upd objects <[endstop_x := O_endstop endstop_1]> rig.

Lemma endstop_poll_triggers_witness :
  wp (poll (time_of endstop_x)) rig_1
    (λ r s', r = SF_DONE ∧ halted s' stepper_x ∧ halted s' stepper_y) no_shut.
Proof.
  eapply wp_conseq; [apply (endstop_poll_triggers rig_1 endstop_x endstop_1 timer_es Resting trigger rig_trsync
    rig_fleet rig_free 1000 rig_queue PERIOD)|].
  - by split.
  - reflexivity.
  - reflexivity.
  - reflexivity.
  - reflexivity.
  - exact rig_signals_ok.
  - split; try rig_eval. intros a l [H|H%list_elem_of_singleton]%elem_of_cons; injection H as -> ->;
      eexists _, _; (split; [reflexivity|]); (split; [reflexivity|rig_eval]).
  - apply (queue_b_ok _ rig_queue PERIOD). vm_compute. reflexivity.
  - intros r s' (Hr & Hh & _). split; [exact Hr|]. split; apply Hh; [left|right; left].
Defined.

Lemma endstop_needs_all_samples_witness :
  wp (repeat_event poll (time_of endstop_x) 3) rig
    (λ _ s', ∃ e' x' m, es_rep s' endstop_x e' x' m ∧
       (poll_spec (es_sample_count e') m (pin_matches e' (hw_reads s'))
          (pin_matches e' (S (hw_reads s'))) = None ↔ 3 + 1 = 4)) no_shut.
Proof.
  eapply wp_conseq; [apply (endstop_needs_all_samples rig endstop_x rig_endstop timer_es 3 rig_trsync); [by split|done..]|].
  intros _ s' (e' & x' & m & H1 & _ & H2). exists e', x', m. split; [exact H1|exact H2].
Defined.

Lemma endstop_poll_refines_witness :
  ∃ s' e' x', poll (time_of endstop_x) rig = Ret SF_RESCHEDULE s' ∧ es_rep s' endstop_x e' x' (Sampling 1) ∧
    same_config rig_endstop e' ∧ es_frame endstop_x rig s'.
Proof.
  apply (endstop_poll_refines rig endstop_x rig_endstop timer_es Resting (Sampling 1)); [by split|reflexivity].
Defined.
