(* ===== verification/RigDevices.v ===== *)
(** * The device theorems on the configured machine

    Outputs, inputs, buses and the serial console of the machine of Rig.v. *)

From S2P Require Import Prelude State Runtime Bench Sched Vlq Crc Command Basecmd BasecmdSpec PoolSpec.
From S2P Require Import OidSpec Stepper Outputs Inputs SerialIrq Buses Tmcuart Sensors Lcd Firmware.
From S2P Require Import StepperSpec InputsSpec OutputSpec SerialSpec BusSpec WireSpec Reach ShutdownSpec.
From S2P Require Import AdxlSpec LcdSpec Rig.

#[local] Existing Instance bench.

(** ** Outputs *)

Definition timer_fan : timer := mk_timer (Some (time_of heater)) F_digital_load_event 4000.
Definition timer_heater : timer := mk_timer (Some (time_of thermistor)) F_pwm_event 5000.

Lemma rig_heater_ok : pwm_ok rig heater rig_heater timer_heater [move_at 5; move_at 6] rig_free.
Proof.
  split; try rig_eval. intros m [->|Hm]%elem_of_cons; [|apply list_elem_of_singleton in Hm as ->];
    eexists _, _; by split; [vm_compute|].
Qed.
Lemma rig_fan_ok : digital_ok rig fan rig_fan timer_fan [move_at 3; move_at 4] rig_free.
Proof.
  split; try rig_eval. intros m [->|Hm]%elem_of_cons; [|apply list_elem_of_singleton in Hm as ->];
    eexists _, _; by split; [vm_compute|].
Qed.

Lemma pwm_event_witness :
  wp (pwm_event (time_of heater)) rig
    (pwm_post rig heater rig_heater timer_heater (move_at 5) [move_at 6] rig_free (mk_pwm_move 5000 100))
    (λ r _, r = "Scheduled pwm event will exceed max_duration" ∧ limited rig_heater 100 ∧ [move_at 6] ≠ []).
Proof.
  apply (pwm_event_limits rig heater rig_heater timer_heater (move_at 5) [move_at 6] rig_free
    (mk_move_node (move_at 6) (MD_pwm (mk_pwm_move 5000 100))) (mk_pwm_move 5000 100) rig_heater_ok); reflexivity.
Defined.

Lemma digital_load_event_witness :
  wp (digital_load_event (time_of fan)) rig
    (digital_post rig fan rig_fan timer_fan (move_at 3) [move_at 4] rig_free (mk_digital_move 4000 1000))
    (λ r _, r = "Scheduled digital out event will exceed max_duration" ∧
       dlimited rig_fan 1000 = true ∧ [move_at 4] ≠ []).
Proof.
  apply (digital_load_event_limits rig fan rig_fan timer_fan (move_at 3) [move_at 4] rig_free
    (mk_move_node (move_at 4) (MD_digital (mk_digital_move 4000 1000))) (mk_digital_move 4000 1000) rig_fan_ok);
    reflexivity.
Defined.

(** ** Inputs *)

Definition timer_adc : timer := mk_timer (Some (time_of knob)) F_analog_in_event 6000.
Definition timer_knob : timer := mk_timer (Some (time_of tacho)) F_buttons_event 7000.
Definition timer_tacho : timer := mk_timer (Some (time_of driver_uart)) F_counter_event 8000.

Lemma analog_in_sums_witness :
  wp (repeat_event analog_in_event (time_of thermistor) 3) rig
    (λ _ s', sampled rig thermistor rig_adc timer_adc 3 s') no_shut.
Proof. apply (analog_in_sums_samples rig thermistor rig_adc timer_adc 3); done. Defined.

(** The fourth sample of four completes the report. *)
Definition adc_last : analog_in := rig_adc <| ai_state := 3 |> <| ai_value := 1500 |>.
Definition rig_adc_last : mcu := upd objects <[thermistor := O_analog_in adc_last]> rig.

Lemma analog_in_range_witness :
  wp (analog_in_event (time_of thermistor)) rig_adc_last
    (λ r s', r = SF_RESCHEDULE ∧ wakes s' analog_wake = 1) (λ r _, r = "ADC out of range").
Proof.
  eapply wp_mono; [apply (analog_in_range_check rig_adc_last thermistor adc_last timer_adc); done| |].
  - intros r s' (H1 & H2 & _). split; [exact H1|exact H2].
  - intros r s' (H & _). exact H.
Defined.

Lemma buttons_event_witness :
  wp (buttons_event (time_of knob)) rig
    (λ r s', r = SF_RESCHEDULE ∧ ∃ b' status, objects s' !! knob = Some (O_buttons b') ∧
       poll_status rig_knob (hw_reads rig) status ∧ bt_last_pressed b' = status) no_shut.
Proof.
  eapply wp_conseq; [apply (buttons_event_debounces rig knob rig_knob timer_knob); done|].
  intros r s' (H1 & b' & status & H2 & H3 & H4 & _). split; [exact H1|]. exists b', status.
  split; [exact H2|]. split; [exact H3|exact H4].
Defined.

Lemma buttons_ack_witness :
  wp (command_buttons_ack [7; 1]) rig
    (λ _ s', ∃ b', objects s' !! knob = Some (O_buttons b') ∧ bt_ack_count b' = 1) no_shut.
Proof.
  eapply wp_conseq; [apply (buttons_ack_drops_acked rig 7 knob 1 rig_knob); done|].
  intros _ s' (b' & H1 & _ & H2 & _). exists b'. split; [exact H1|exact H2].
Defined.

Lemma counter_event_witness :
  wp (counter_event (time_of tacho)) rig
    (λ r s', r = SF_RESCHEDULE ∧ ∃ c', objects s' !! tacho = Some (O_counter c') ∧ ct_count c' = 7) no_shut.
Proof.
  eapply wp_conseq; [apply (counter_event_counts_edges rig tacho rig_tacho timer_tacho); done|].
  intros r s' (H1 & c' & x' & H2 & _ & _ & _ & H3 & _). split; [exact H1|]. exists c'. split; [exact H2|exact H3].
Defined.

(** ** Console *)

Definition rig_console : console :=
  mk_console rig ([7; 16; 1; 2; 3; 4; 126; 9; 17] ++ replicate 183 0) 9 (replicate 96 0) 0 0 [].

Lemma console_pop_witness :
  ∃ c' k, console_pop_input [([65], []); ([], [66])] 7 rig_console = Ret tt c' ∧
    rx_contents c' = drop 7 (take 192 ([7; 16; 1; 2; 3; 4; 126; 9; 17] ++ map u8 (concat (take k [[65]; [66]])))).
Proof.
  destruct (console_pop_keeps_bytes [([65], []); ([], [66])] 7 rig_console) as (c' & k & E & _ & H); [by split|done|].
  exists c', k. split; [exact E|exact H].
Defined.

Lemma console_sendf_witness :
  ∃ c', console_sendf 3 4 (mk_encoder 5 10 [PT_byte; PT_int16]) [VA_int 3; VA_int 7] rig_console = Ret tt c' ∧
    tx_ok c'.
Proof.
  destruct (console_sendf_fifo 4 (mk_encoder 5 10 [PT_byte; PT_int16]) [VA_int 3; VA_int 7] 8
    [8; 16; 5; 3; 7; 206; 99; 126] 3 rig_console) as (c' & Ec & Hc & _);
    [by split|split; [vm_compute; reflexivity|done]|done|].
  exists c'. split; [exact Ec|exact Hc].
Defined.

(** ** Buses *)

Lemma spi_software_witness :
  ∃ s', spi_software_transfer accel_bus true [0xa5; 0x0f] rig = Ret [255; 255] s' ∧ hw_reads s' = 36%nat.
Proof.
  destruct (spi_software_shifts accel_bus rig_soft_spi true [0xa5; 0x0f] rig) as (s' & E & H & _); [done|rig_eval|].
  exists s'. split; [rewrite E; vm_compute; reflexivity|exact H].
Defined.

Definition timer_uart : timer := mk_timer (Some T_periodic) F_tmcuart_send_event 9000.

Lemma tmcuart_send_witness :
  wp (tmcuart_send_event (time_of driver_uart)) rig
    (λ r s', r = SF_RESCHEDULE ∧ trace s' = [EvToggle 72]) no_shut.
Proof.
  eapply wp_conseq; [apply (tmcuart_send_event_levels rig driver_uart rig_uart timer_uart); [done..|by split]|].
  intros r s' (H1 & t' & x' & k & _ & _ & H2 & _). split; [exact H1|exact H2].
Defined.

Lemma neopixel_update_witness :
  wp (command_neopixel_update [10; 2; 3; 3]) rig
    (λ _ s', ∃ n', s' = upd objects <[leds := O_neopixel n']> rig ∧ np_data n' = [1; 2; 1; 2; 3; 6])
    (λ r s', r = "Invalid neopixel update command").
Proof.
  eapply wp_mono; [apply (neopixel_update_in_bounds rig 10 leds rig_leds 2 3 3); [done|done|by split|done..]| |].
  - intros _ s' (_ & _ & n' & H1 & _ & _ & H2). exists n'. split; [exact H1|exact H2].
  - intros r s' (H & _). exact H.
Defined.

(** * The system theorems on the configured machine

    Shutdown, displays, the accelerometer and the SDIO buffer on the machine of Rig.v. *)

#[local] Existing Instance bench.

(** ** Runs *)

(** The final state of a run, if it returns. *)
Definition final (m : MC unit) (s : mcu) : option mcu :=
  match m s with Ret _ s' => Some s' | _ => None end.
Definition stop_reason (m : MC unit) (s : mcu) : option (string * mcu) :=
  match m s with Shut r s' => Some (r, s') | _ => None end.
Lemma final_eq m s s' : final m s = Some s' → m s = Ret tt s'.
Proof. unfold final. destruct (m s) as [[] x| | |]; congruence. Qed.
Lemma stop_reason_eq m s r s' : stop_reason m s = Some (r, s') → m s = Shut r s'.
Proof. unfold stop_reason. destruct (m s); congruence. Qed.

Definition emergency : action := Act_command (decl_in_shutdown command_emergency_stop []) [].
Definition at_stop : mcu := rig <| irq_off := true |>.
Definition stopped : mcu := default rig (final (handle_shutdown 1 "Command request") at_stop).

Lemma admissible_emergency : admissible emergency.
Proof.
  exists 0%nat, 0%nat. by apply (list_elem_of_lookup_2 _ 5).
Qed.

Lemma rig_stops : step rig emergency stopped.
Proof.
  apply (step_shutdown rig emergency "Command request" at_stop 1); [apply admissible_emergency|done|].
  apply final_eq. unfold stopped. destruct (final _ at_stop) eqn:E; [done|]. exfalso. revert E. by vm_compute.
Qed.

Lemma emergency_keeps : ¬ clears emergency.
Proof.
  cbn [clears emergency]. unfold is_clear_shutdown, is_config_reset. intros [H | H].
  - assert (command_emergency_stop [] boot = command_clear_shutdown [] boot) as E by (by injection H as H; rewrite H).
    revert E. by vm_compute.
  - assert (command_emergency_stop [] boot = config_reset [] boot) as E by (by injection H as H; rewrite H).
    revert E. by vm_compute.
Qed.
Lemma emergency_no_reset : ¬ resets emergency.
Proof. intros H. apply emergency_keeps. by right. Qed.

Lemma reachable_invariant_witness :
  (shutdown_status (sched stopped) = 0 ∨ shutdown_status (sched stopped) = 1) ∧ oids_ok (base stopped) ∧
  (∃ e', oid_entry (base stopped) 4 = Some e' ∧ o_type e' = Some command_config_digital_out_t) ∧
  (∃ l, trace stopped = l ++ trace rig).
Proof.
  destruct (reachable_invariant rig [] rig [emergency] stopped) as (H1 & H2 & H3 & H4).
  - reflexivity.
  - split; vm_compute; done.
  - apply runs_nil.
  - apply (runs_snoc _ [] rig emergency); [apply runs_nil|apply rig_stops].
  - split; [exact H1|]. split; [exact H2|]. split; [|exact H3].
    apply (H4 ltac:(apply Forall_singleton; apply emergency_no_reset) 4 (mk_oid (Some command_config_digital_out_t) fan)); reflexivity.
Defined.

(** A second emergency stop does not replace the reason. *)
Definition at_stop2 : mcu := stopped <| irq_off := true |>.
Definition stopped2 : mcu := default rig (final (handle_shutdown 1 "Command request") at_stop2).
Lemma stopped_stops : step stopped emergency stopped2.
Proof.
  apply (step_shutdown stopped emergency "Command request" at_stop2 1); [apply admissible_emergency|by vm_compute|].
  apply final_eq. unfold stopped2. destruct (final _ at_stop2) eqn:E; [done|]. exfalso. revert E. by vm_compute.
Qed.
Lemma shutdown_latched_witness :
  shutdown_status (sched stopped2) = 1 ∧ shutdown_reason (sched stopped2) = shutdown_reason (sched stopped).
Proof.
  apply (shutdown_latched stopped [emergency] stopped2); [vm_compute; reflexivity| |].
  - apply (runs_snoc _ [] stopped emergency); [apply runs_nil|apply stopped_stops].
  - apply Forall_singleton, emergency_keeps.
Defined.

(** ** Outputs *)

Lemma shutdown_outputs_witness :
  wp digital_out_shutdown rig
    (λ _ s', trace s' = [EvWrite 50 0] ∧ objects s' !! fan = Some (O_digital_out (digital_default rig_fan))) no_shut ∧
  wp pwm_shutdown rig
    (λ _ s', trace s' = [EvPwmWrite 51 0] ∧ objects s' !! heater = Some (O_pwm_out (pwm_default rig_heater))) no_shut.
Proof.
  destruct (shutdown_outputs_default rig rig_oids [rig_fan] [rig_heater]) as [Hd Hp].
  - reflexivity.
  - reflexivity.
  - cbn. lia.
  - split; [by apply NoDup_singleton|]. by repeat constructor.
  - split; [by apply NoDup_singleton|]. by repeat constructor.
  - by repeat constructor.
  - intros a ->%list_elem_of_singleton. by eexists.
  - split.
    + eapply wp_conseq; [exact Hd|]. intros _ s' (H1 & H2 & _). split; [exact H1|].
      apply (H2 fan rig_fan). left.
    + eapply wp_conseq; [exact Hp|]. intros _ s' (H1 & H2 & _). split; [exact H1|].
      apply (H2 heater rig_heater). left.
Defined.

(** ** More devices on the machine *)

Definition accel : addr := 0x20003000.
Definition accel_dev : addr := 0x20003100.
Definition display : addr := 0x20003200.
Definition card : addr := 0x20003300.
Definition rig_accel : adxl345 := mk_adxl345 100 accel_dev 7 0 0 5 ([1; 2; 3; 4; 5] ++ replicate 45 0).
Definition rig_display : st7920 := mk_st7920 1000 90 20 75 76.
Definition rig_card : sdiodev_s := mk_sdiodev (Some 0) 512 400000 (replicate (Z.to_nat 4096) 0).
Definition rig2 : mcu :=
  rig <| objects := list_to_map [(accel, O_adxl345 rig_accel);
           (accel_dev, O_spidev (mk_spidev (SB_soft accel_bus) 77 (Z.lor SF_SOFTWARE SF_HAVE_PIN)));
           (display, O_st7920 rig_display); (card, O_sdiodev rig_card)] ∪ objects rig |>
      <| base; oids := Some (rig_oids ++ [mk_oid (Some command_config_adxl345_t) accel;
           mk_oid (Some command_config_st7920_t) display; mk_oid (Some command_config_sdio_t) card]) |>
      <| base; oid_count := 15 |>.

Lemma adxl_sample_witness :
  ∃ d, length d = 5%nat ∧ adxl_decode [0; 0x10; 0x00; 0xf0; 0xff; 0x00; 0x01; 0x90; 0x83] = Some (d, 3) ∧
    extract_sample d = Some (16, -16, 256).
Proof. apply (adxl_sample_reaches_host 0 0x10 0x00 0xf0 0xff 0x00 0x01 0x90 0x83). by repeat constructor. Defined.

Lemma adxl_drain_witness :
  wp (adxl_drain 2 accel 12 0) rig2
    (λ _ s', ∃ ax' ds, objects s' !! accel = Some (O_adxl345 ax') ∧ (length ds ≤ 2)%nat ∧
       sent s' ++ buffered ax' = [1; 2; 3; 4; 5] ++ concat ds) no_shut.
Proof.
  eapply wp_conseq; [apply (adxl_drain_keeps_samples rig2 accel rig_accel 12 2 0)|].
  - vm_compute. reflexivity.
  - split; [reflexivity|cbn; lia|by exists 1].
  - reflexivity.
  - eexists. split; [vm_compute; reflexivity|]. intros _. cbn [andb]. eexists _, _. split; vm_compute; reflexivity.
  - reflexivity.
  - intros _ s' (ax' & ds & H1 & _ & _ & H2 & H3). exists ax', ds. split; [exact H1|]. split; [exact H2|exact H3].
Defined.

(** ** Displays *)

Lemma bench_ticking : ticking.
Proof. intros n. cbn [clock_at bench]. lia. Qed.

Lemma ndelay_witness :
  ∃ k, ndelay 100 200 rig = Ret tt (reads rig k) ∧ 20000 + 36 ≤ 1000 * Z.of_nat (pred (20 + k)).
Proof.
  apply (ndelay_waits 100 200 rig bench_ticking); [reflexivity| |]; vm_compute; split; congruence || reflexivity.
Defined.

Lemma st7920_send_witness :
  ∃ evs s', st7920_send 100 SYNC_DATA [13; 2; 3] rig2 = Ret tt s' ∧ trace s' = rev evs ++ trace rig2 ∧
    latch 75 76 evs false false = ([0xfa; 0x00; 0x10; 0x00; 0x20] ≫= bits_below 8, (false, false)).
Proof.
  apply (st7920_send_latched 100 SYNC_DATA 13 display rig_display 2 3 [1; 2] rig2 bench_ticking).
  - vm_compute. congruence.
  - vm_compute. reflexivity.
  - vm_compute. reflexivity.
  - vm_compute. reflexivity.
  - by repeat constructor.
  - by right.
  - intros t Ht. repeat (apply elem_of_cons in Ht as [->|Ht]; [vm_compute; split_and!; congruence|]). by apply elem_of_nil in Ht.
Defined.

(** ** The SDIO buffer *)

Lemma rig_card_at : sdio_at rig2 14 card rig_card.
Proof. split_and!; vm_compute; reflexivity. Qed.

Lemma sdio_buffer_witness :
  ∃ s1, command_sdio_write_data_buffer [14; 4092; 4; 3] rig2 = Ret tt s1 ∧
    command_sdio_read_data_buffer [14; 4092; 4] s1 =
      command_sendf "sdio_read_data_buffer_response oid=%c data=%*s" [A_int 14; A_buf [1; 2; 3; 4]] s1.
Proof.
  destruct (sdio_buffer_roundtrip rig2 14 card rig_card 4092 4 3 [1; 2; 3; 4] rig_card_at) as (H1 & _ & H2).
  - lia.
  - lia.
  - lia.
  - vm_compute. reflexivity.
  - reflexivity.
  - eexists. split; [exact H1|exact H2].
Defined.

Lemma sdio_bound_witness : command_sdio_write_data_buffer [14; 0xfffffffe; 4; 3] rig2 = Undef.
Proof.
  apply (sdio_write_bound_wraps rig2 14 card rig_card 0xfffffffe 4 3 [1; 2; 3; 4] rig_card_at);
    [lia..|vm_compute; reflexivity|reflexivity].
Defined.

(** At 25 MHz the timeout is 3.9 million instead of 12.5 million ticks. *)
Lemma sdio_timeout_witness : sdio_timeout 25000000 = 3910065 ∧ ¬ sdio_timeout 25000000 = 25000000 / 2.
Proof.
  split; [reflexivity|]. intros H. apply (sdio_timeout_exact 25000000) in H; lia.
Defined.
