(* ===== verification/RigHost.v ===== *)
(** * The host theorems on concrete queues *)

From S2P Require Import Prelude State Double Msgblock StepCompress StepperSpec BisectSpec StepCompressSpec FlushSpec.
From S2P Require Import SteppersyncSpec DoubleSpec Trapq Kinematics Itersolve TrapqSpec SearchSpec ItersolveSpec GenerateSpec.

#[local] Existing Instance calm_host.

(** Steps of an accelerating motor, behind a step at 1000000. *)
Definition rig_steps : list Z := [1005000; 1009900; 1014700; 1019400; 1024000; 1028500; 1040000].
Definition rig_sc : stepcompress :=
  mk_sc ([7; 7] ++ rig_steps ++ [0; 0; 0]) 2 9 25 1000000 [] 3 5 6 1 0 0 1 0 [] (dint 0) (dint 1000000) (dint 1).

Lemma rig_sc_queued : queued rig_sc rig_steps.
Proof.
  split.
  - cbn. lia.
  - intros i c Hi. do 7 (destruct i as [|i]; [by injection Hi as <-|]). done.
  - cbn. lia.
  - repeat (apply Forall_cons_2; [cbn; lia|]). by apply Forall_nil_2.
  - cbn. lia.
Qed.
Lemma rig_sc_ok : host_ok rig_sc rig_steps.
Proof. split; [apply rig_sc_queued|cbn; lia..]. Qed.

(** The first six steps are one move; a shifted one is refused. *)
Definition rig_move : step_move := mk_step_move 5000 6 (-100).
Definition late_move : step_move := mk_step_move 5001 6 (-100).
Lemma check_line_witness : check_line rig_move rig_sc = Ret 0 rig_sc ∧ check_line late_move rig_sc = Ret ERROR_RET rig_sc.
Proof.
  split.
  - apply (check_line_exact rig_sc rig_steps rig_sc_queued).
    + cbn. lia.
    + split_and!; cbn; lia.
    + split; [done|]. vm_compute. repeat split; congruence.
  - apply (check_line_exact rig_sc rig_steps rig_sc_queued).
    + cbn. lia.
    + split_and!; cbn; lia.
    + intros [_ [[_ H] _]]. vm_compute in H. by apply H.
Defined.

Lemma compress_witness :
  ∃ m, compress_bisect_add rig_sc = Ret m rig_sc ∧ 1 ≤ mv_count m ≤ 7 ∧
    accurate 25 1000000 (take (Z.to_nat (mv_count m)) rig_steps)
      (move_times 1000000 (mv_interval m) (mv_add m) (Z.to_nat (mv_count m))).
Proof.
  apply (compress_bisect_add_valid rig_sc rig_steps rig_sc_queued).
  - cbn. lia.
  - cbn. lia.
  - cbn. lia.
Defined.

Lemma queue_flush_witness :
  ∃ s' k ms, queue_flush 1020000 rig_sc = Ret 0 s' ∧ flushed rig_sc rig_steps k ms s' ∧
    (drop k rig_steps = [] ∨ 1020000 ≤ sc_last_step_clock s').
Proof. apply (queue_flush_on_time 1020000 rig_sc rig_steps rig_sc_ok). Defined.

(** The array of a new step is full. *)
Definition full_sc : stepcompress := mk_sc (u32 <$> rig_steps) 0 7 25 1000000 [] 3 5 6 1 0 1045000 1 0 [] (dint 0) (dint 1000000) (dint 1).
Lemma full_sc_queued : queued full_sc rig_steps.
Proof.
  split.
  - cbn. lia.
  - intros i c Hi. do 7 (destruct i as [|i]; [by injection Hi as <-|]). done.
  - cbn. lia.
  - repeat (apply Forall_cons_2; [cbn; lia|]). by apply Forall_nil_2.
  - cbn. lia.
Qed.
Lemma queue_append_witness :
  ∃ s', queue_append full_sc = Ret 0 s' ∧ queued s' (rig_steps ++ [1045000]) ∧ sc_next_step_clock s' = 0 ∧
    sc_last_step_clock s' = 1000000 ∧ sc_msg_queue s' = [].
Proof.
  apply (queue_append_keeps_steps full_sc rig_steps 1045000 full_sc_queued).
  - cbn. lia.
  - reflexivity.
  - reflexivity.
  - cbn. lia.
  - cbn. lia.
  - lia.
Defined.

(** Two steppers and three move slots. *)
Definition rig_msg (min_clock req_clock : Z) : host_message := mk_host_message (mk_qm 1 [1]) min_clock req_clock.
Definition rig_ss : steppersync :=
  mk_ss [rig_sc <| sc_msg_queue := [rig_msg 500 500; rig_msg 900 900] |>;
         rig_sc <| sc_msg_queue := [rig_msg 0 600; rig_msg 700 700] |>] [10; 40; 20].
Lemma rig_heap : is_heap [10; 40; 20].
Proof.
  intros i x y Hi Hx Hy. do 3 (destruct i as [|i]; [first [lia|injection Hx as <-; injection Hy as <-; lia]|]). done.
Qed.
Lemma rig_ss_ok : sync_ok rig_ss.
Proof. split; [apply rig_heap|]. split; [done|]. split; by repeat (apply Forall_cons_2; [done|]). Qed.

Lemma heap_replace_witness :
  ∃ mc, heap_replace 30 rig_ss = Ret tt (rig_ss <| ss_move_clocks := mc |>) ∧ is_heap mc ∧
    10 :: mc ≡ₚ 30 :: [10; 40; 20] ∧ Forall (λ y, 10 ≤ y) [10; 40; 20].
Proof.
  apply (heap_replace_ok rig_ss 30 10).
  - apply rig_heap.
  - reflexivity.
  - by repeat (apply Forall_cons_2; [done|]).
  - done.
Defined.

Lemma steppersync_witness :
  ∃ picked batch s', batch_loop 5 800 rig_ss = Ret batch s' ∧
    (Forall (λ p, p.1 ≤ p.2) (leases picked batch) → ∀ t, (active (rev (leases picked batch) ++ []) t ≤ 3)%nat).
Proof.
  destruct (steppersync_capacity 5 800 rig_ss []) as (picked & batch & s' & E & _ & _ & _ & H).
  - apply rig_ss_ok.
  - cbn. lia.
  - intros t. unfold active. cbn. lia.
  - exists picked, batch, s'. split; [exact E|]. intros Hle. apply (proj2 (H Hle)).
Defined.

(** ** The solver *)

(** A new queue of steps for a machine of 1 MHz. *)
Definition rig_queue : stepcompress :=
  match stepcompress_set_time (dint 0) (dint 1000000) (new_sc <| sc_set_next_step_dir_msgtag := 6 |>) with
  | Ret _ sc => sc
  | _ => new_sc
  end.
#[local] Instance zero_libm : Libm := {| m_sin _ := dint 0; m_cos _ := dint 1; m_atan2 _ _ := dint 0 |}.
#[local] Instance zero_libm_lawful : LawfulLibm.
Proof. split. intros y x. by vm_compute. Qed.

(** 2 mm along the x axis in 0.4 s from the 10th second on, at up to 10 mm/s. *)
Definition rig_append : tq_op :=
  TqAppend (dint 10) (dec 2 1) (dec 0 0) (dec 2 1) coord_zero (mk_coord (dint 1) (dint 0) (dint 0)) (dint 0) (dint 10) (dint 50).
Definition rig_ops : list tq_op :=
  [rig_append; TqCheckSentinels; TqFinalize (dint 9); TqExtractOld 4 (dint 0) (dint 5)].
Definition rig_tq : trapq := match run_tq_ops rig_ops trapq_alloc with Ret _ tq => tq | _ => trapq_alloc end.

Definition upto_b (k : Z) (t : double) : bool := (0 <=? dz t) && (dz t <=? 2 ^ (k + 3000)).
Lemma upto_check k t : finite t → upto_b k t = true → upto k t.
Proof. unfold upto_b. intros Hf H. apply andb_true_iff in H as [H1 H2]. split; [exact Hf|]. split; by apply Z.leb_le. Qed.
Ltac upto_tac := apply upto_check; vm_compute; reflexivity.

Lemma rig_ops_ok : Forall tq_op_ok rig_ops.
Proof.
  unfold rig_ops. apply Forall_cons_2; [|do 3 (apply Forall_cons_2; [exact I|]); apply Forall_nil_2].
  unfold tq_op_ok, rig_append. do 4 (apply Forall_cons_2; [upto_tac|]). apply Forall_nil_2.
Qed.
Lemma rig_tq_ok : trapq_ok rig_tq.
Proof. unfold rig_tq. destruct (run_tq_ops_ok rig_ops rig_ops_ok _ trapq_alloc_ok) as (tq & Hr & Hok). by rewrite Hr. Qed.
Lemma trapq_runs_witness : ∃ tq ms t, run_tq_ops rig_ops trapq_alloc = Ret tt tq ∧
  tq_moves tq = zero_move :: ms ++ [t] ∧ Forall move_ok ms ∧ gapless ms ∧ tail_ok t.
Proof. exact (trapq_runs rig_ops rig_ops_ok). Defined.

(** A stepper of the x axis that takes a step every 0.5 mm. *)
Definition rig_stepper : kin_stepper :=
  mk_kin_stepper ((s_sk (cartesian_stepper_alloc 120)) <| sk_step_dist := dec 5 1 |> <| sk_last_flush_time := dint 9 |>) (K_cart X).
Definition rig_solver : solver stepcompress := mk_solver (SK_plain rig_stepper) rig_queue (Some rig_tq).

(** Four steps forward, two in each half of the move, at their clocks. *)
Example rig_solver_run :
  match itersolve_generate_steps 400 (dint 11) rig_solver with
  | Ret r so => r = 0 ∧ sk_commanded_pos (k_sk (so_k so)) = dint 2 ∧ sc_sdir (so_q so) = 1 ∧
      sc_next (so_q so) = 4%nat ∧ take 4 (sc_queue (so_q so)) = [10100000; 10173205; 10226795; 10300000]
  | _ => False
  end.
Proof. vm_compute. done. Qed.

Definition valid_b (x : double) : bool := SpecFloat.valid_binary 53 1024 x.
Definition coord_valid_b (c : coord) : bool := valid_b (c_x c) && valid_b (c_y c) && valid_b (c_z c).
Definition move_valid_b (m : move) : bool :=
  valid_b (tm_start_v m) && valid_b (tm_half_accel m) && coord_valid_b (tm_start_pos m) && coord_valid_b (tm_axes_r m).
Lemma move_valid_check m : move_valid_b m = true → move_valid m.
Proof.
  unfold move_valid_b, coord_valid_b. rewrite !andb_true_iff. intros (((? & ?) & (? & ?) & ?) & (? & ?) & ?). split; [done|done|by split..].
Qed.
Lemma rig_moves_valid : Forall move_valid (tq_moves rig_tq).
Proof.
  apply (Forall_impl (λ m, Is_true (move_valid_b m))); [apply forallb_True; by vm_compute|]. intros m Hm. by apply move_valid_check, Is_true_true.
Qed.
Lemma rig_like : like rig_stepper (s_sk rig_stepper).
Proof. split; [by vm_compute|by vm_compute|upto_tac|upto_tac|upto_tac|done]. Qed.

Lemma generate_steps_witness : ∃ n segs r so' first,
  (∀ patience, (n ≤ patience)%nat → itersolve_generate_steps patience (dint 11) rig_solver = Ret r so') ∧
  generated (tq_moves rig_tq) (state_of rig_stepper) (dint 9) (dint 11) segs rig_queue (inl (so_q so')) ∧ ordered_from 0 (dint 9) segs ∧
  (r = 0 → complete (tq_moves rig_tq) (dint 9) (dint 11) (s_sk rig_stepper) first segs).
Proof.
  destruct (itersolve_generate_steps_complete (state_of rig_stepper) rig_solver rig_tq rig_tq (dint 11))
    as (n & segs & out & Hgen & Hord & Hend).
  - done.
  - exact rig_tq_ok.
  - by vm_compute.
  - exact (plain_lawful rig_stepper _ I rig_moves_valid).
  - exists (s_sk rig_stepper). split; [done|exact rig_like].
  - upto_tac.
  - upto_tac.
  - destruct out as [q'|f].
    + destruct Hend as (r & so' & first & Hrun & <- & _ & _ & Hc). by exists n, segs, r, so', first.
    + exfalso. assert (failed (itersolve_generate_steps 400 (dint 11) rig_solver) = None) as Hret by (vm_compute; reflexivity).
      destruct (itersolve_generate_steps 400 (dint 11) rig_solver) as [r so'| | |] eqn:Hr; [|discriminate Hret..].
      specialize (Hend (400 + n)%nat ltac:(lia)).
      rewrite (generate_steps_keeps (dint 11) 400%nat (400 + n)%nat rig_solver r so' ltac:(lia) Hr) in Hend. discriminate Hend.
Defined.

(** The first half of the move. *)
Definition rig_half : move := match tq_moves rig_tq !! 2%nat with Some m => m | None => zero_move end.
Lemma gen_steps_range_witness : ∃ n r so' es,
  (∀ patience, (n ≤ patience)%nat → itersolve_gen_steps_range patience 2 (dint 9) (dint 11) rig_solver = Ret r so') ∧
  received (tm_print_time rig_half) es rig_queue (inl (so_q so')) ∧
  in_order (answered (tq_moves rig_tq) (state_of rig_stepper) 2) (range_end rig_half (dint 11)) (range_start rig_half (dint 9)) es.
Proof.
  destruct (itersolve_gen_steps_range_returns rig_stepper rig_solver rig_tq 2 rig_half (dint 9) (dint 11))
    as (n & es & out & Hrec & Hord & Hend).
  - done.
  - exact I.
  - exact rig_like.
  - done.
  - exact rig_moves_valid.
  - by vm_compute.
  - split; upto_tac.
  - upto_tac.
  - upto_tac.
  - destruct out as [q'|f].
    + destruct Hend as (r & so' & Hrun & <- & _). by exists n, r, so', es.
    + exfalso. assert (failed (itersolve_gen_steps_range 400 2 (dint 9) (dint 11) rig_solver) = None) as Hret by (vm_compute; reflexivity).
      destruct (itersolve_gen_steps_range 400 2 (dint 9) (dint 11) rig_solver) as [r so'| | |] eqn:Hr; [|discriminate Hret..].
      specialize (Hend (400 + n)%nat ltac:(lia)).
      rewrite (range_keeps 2 (dint 9) (dint 11) 400%nat (400 + n)%nat rig_solver r so' ltac:(lia) Hr) in Hend. discriminate Hend.
Defined.
