(* ===== verification/RigLink.v ===== *)
(** * The theorems of the host's queue and of the link on a concrete connection *)

From S2P Require Import Prelude State Runtime Bench Sched Vlq Crc Command CommandSpec Basecmd Firmware SerialIrq Canserial Double Msgblock StepCompress.
From S2P Require Import Pollreactor Serialqueue Trdispatch MsgblockSpec BisectSpec PollreactorSpec.
From S2P Require Import SerialqueueSpec SerialqueueInv SerialqueueSend SerialqueueRecv SerialqueueOps.
From S2P Require Import LinkSpec LinkLive TrdispatchSpec TimeoutSpec SerialSpec CanserialSpec CanLinkSpec UsbCdc UsbCdcSpec UsbCanbus Rig.

#[local] Existing Instance bench.

(** An operating system whose writes succeed. *)
Definition plain_os : HostOS :=
  {| os_write _ := true; os_monotonic n := dint (Z.of_nat n); os_toint _ := 0 |}.
#[local] Existing Instance plain_os.

(** ** A queue *)

(** The state after an operation that returns. *)
Definition after (sq : serialqueue) (op : sq_op) : serialqueue :=
  match run_op op sq with Ret _ sq' => sq' | _ => sq end.
Definition returns (sq : serialqueue) (op : sq_op) : bool :=
  match run_op op sq with Ret _ _ => true | _ => false end.

Lemma reachable_after fd_type client_id sq op :
  sq_reachable fd_type client_id sq → op_ok sq op → returns sq op = true →
  sq_reachable fd_type client_id (after sq op).
Proof.
  intros Hr Hop Hret. eapply sq_step; [exact Hr|exact Hop|]. unfold returns, after in *.
  by destruct (run_op op sq) as [[] ?| | |].
Qed.

(** Two command queues with three messages on a serial line. *)
Definition rig_setup : list sq_op :=
  [OpAllocQueue 7; OpAllocQueue 8; OpSetClock (dint 1000000) (dint 0) 0 0;
   OpSend 7 [5; 1; 2] 0 200 3; OpSend 8 [6] 0 100 0; OpSend 7 [9] 0 2000000000 4; OpKick (dint 0)].
Definition rig_sq : serialqueue := foldl after (serialqueue_alloc SQT_UART 0) rig_setup.

Ltac rig_op := apply reachable_after; [|vm_compute; repeat split; eauto; first [lia|discriminate]|by vm_compute].
Lemma rig_sq_reachable : sq_reachable SQT_UART 0 rig_sq.
Proof. unfold rig_sq, rig_setup. cbn [foldl]. do 7 rig_op. by apply sq_start. Qed.
Lemma rig_send_seq : sq_send_seq rig_sq ≤ 2 ^ 62.
Proof. by vm_compute. Qed.

Lemma serialqueue_invariant_witness :
  sq_need_ack_bytes rig_sq = msgs_len (sq_sent_queue rig_sq) ∧
  ∃ sq', run_op (OpInput (ReadData [5; 17; 1; 2]) (dint 3)) rig_sq = Ret tt sq'.
Proof.
  destruct (serialqueue_invariant SQT_UART 0 rig_sq (OpInput (ReadData [5; 17; 1; 2]) (dint 3)) rig_sq_reachable)
    as [(_ & _ & _ & H & _) Hrun].
  - vm_compute. repeat constructor; discriminate.
  - split; [exact H|exact Hrun].
Defined.

(** The kick has made the command timer due. *)
Lemma due_timer_runs_witness :
  ∃ sq', pollreactor_check_timers sq_pr [retransmit_event; command_event] (dint 1) false rig_sq = Ret 0 sq'.
Proof.
  destruct (due_timer_runs SQT_UART 0 rig_sq (dint 1) false 1 PR_NOW rig_sq_reachable rig_send_seq) as (sq' & _ & H & _).
  - by vm_compute.
  - by vm_compute.
  - exists sq'. exact H.
Defined.

Lemma command_event_fifo_witness :
  ∃ t sq' bs, command_event (dint 1) rig_sq = Ret t sq' ∧ sq_sent_queue sq' = sq_sent_queue rig_sq ++ bs.
Proof.
  destruct (command_event_fifo SQT_UART 0 rig_sq (dint 1) rig_sq_reachable rig_send_seq) as (t & sq' & bs & _ & H1 & H2 & _).
  exists t, sq', bs. split; [exact H1|exact H2].
Defined.

Lemma build_block_priority_witness :
  ∃ block sq', build_and_send_command 0 (dint 1) rig_sq = Ret block sq' ∧ Z.of_nat (length block) ≤ 64.
Proof.
  destruct (build_block_priority SQT_UART 0 rig_sq 0 (dint 1) rig_sq_reachable rig_send_seq)
    as (block & sq' & takes & H1 & _ & [_ H2] & _).
  - vm_compute. lia.
  - exists block, sq'. split; [exact H1|exact H2].
Defined.

(** One block has been sent. *)
Definition sent_sq : serialqueue := after rig_sq (OpCommand (dint 1)).
Lemma sent_sq_reachable : sq_reachable SQT_UART 0 sent_sq.
Proof. unfold sent_sq. rig_op. apply rig_sq_reachable. Qed.

Lemma retransmit_event_bounds_witness :
  ∃ t sq', retransmit_event (dint 2) sent_sq = Ret t sq' ∧ sq_sent_queue sq' = sq_sent_queue sent_sq.
Proof.
  destruct (retransmit_event_bounds SQT_UART 0 sent_sq (dint 2) sent_sq_reachable) as (_ & t & sq' & H1 & _ & H2 & _).
  exists t, sq'. split; [exact H1|exact H2].
Defined.

(** ** A link *)

(** The firmware just after its start; its first message is a NAK. *)
Lemma connection_synchronises_witness :
  ∃ first sq', run_op (OpInput (ReadData (add_frame 16 5 [])) (dint 2)) sent_sq = Ret tt sq' ∧ 1 ≤ first ≤ 16 ∧
    synchronised first (mk_link sq' rig [] [] (block_payload ∘ m_bytes <$> sq_sent_queue sq') []).
Proof.
  apply (connection_synchronises sent_sq rig (dint 2)).
  - apply (sq_reachable_ok _ _ _ sent_sq_reachable).
  - by vm_compute.
  - by vm_compute.
  - by vm_compute.
  - vm_compute. split; congruence.
  - by vm_compute.
Defined.

(** A firmware that expects block 1. *)
Definition ready_mcu : mcu := rig <| cmd; next_sequence := 17 |>.
Definition rig_link : link := mk_link rig_sq ready_mcu [] [] [] [].
Lemma rig_link_synchronised : synchronised 1 rig_link.
Proof.
  constructor; [|by vm_compute|by vm_compute|by vm_compute].
  split; [apply (sq_reachable_ok _ _ _ rig_sq_reachable)|by vm_compute].
Qed.

(** The first block is built and lost. *)
Definition lossy_link : link := mk_link sent_sq ready_mcu [] [] [[6; 5; 1; 2; 9]] [].
Definition value_of {S A} (r : result S A) (a : A) : A := match r with Ret x _ => x | _ => a end.

Lemma lossy_link_reachable : link_reachable 1 lossy_link.
Proof.
  apply (link_next 1 rig_link); [apply link_start, rig_link_synchronised|].
  pose (t := value_of (command_event (dint 1) rig_sq) (dint 0)).
  assert (command_event (dint 1) (lk_host rig_link) = Ret t sent_sq) as Ht by (vm_compute; reflexivity).
  pose proof (link_command rig_link (dint 1) t sent_sq [] rig_send_seq Ht (sublist_nil_l _)) as Hs.
  cbv zeta in Hs. match type of Hs with link_step _ ?l => assert (lossy_link = l) as -> by (vm_compute; reflexivity) end.
  exact Hs.
Qed.

Lemma link_exactly_once_witness :
  lk_accepted lossy_link `prefix_of` lk_built lossy_link ∧
  block_payload ∘ m_bytes <$> sq_sent_queue (lk_host lossy_link) = [[6; 5; 1; 2; 9]].
Proof.
  destruct (link_exactly_once 1 lossy_link lossy_link_reachable) as (H1 & _ & H2 & _).
  split; [exact H1|]. rewrite H2. vm_compute. reflexivity.
Defined.

(** The block is sent again, accepted and acknowledged. *)
Definition rig_block : list Z := [10; 17; 6; 5; 1; 2; 9; 125; 33; 126].
Definition rig_ack : list Z := add_frame 18 5 [].
Definition resent_sq : serialqueue := after sent_sq (OpRetransmit (dint 2)).
Definition acked_sq : serialqueue := after resent_sq (OpInput (ReadData rig_ack) (dint 3)).
Definition next_mcu : mcu := rig <| cmd; next_sequence := 18 |>.
Definition resent_link : link := mk_link resent_sq ready_mcu [rig_block] [] [[6; 5; 1; 2; 9]] [].
Definition taken_link : link := mk_link resent_sq next_mcu [] [rig_ack] [[6; 5; 1; 2; 9]] [[6; 5; 1; 2; 9]].
Definition acked_link : link := mk_link acked_sq next_mcu [] [] [[6; 5; 1; 2; 9]] [[6; 5; 1; 2; 9]].

Ltac rig_step Hs :=
  match type of Hs with delivery ?l ?l' =>
    match goal with |- delivery ?k ?k' =>
      assert (k' = l') as -> by (vm_compute; reflexivity); exact Hs end end.
Lemma rig_delivery_block : delivery resent_link taken_link.
Proof.
  assert (command_find_block rig_block ready_mcu = Ret (1, 10) next_mcu) as Hf by (vm_compute; reflexivity).
  assert (command_encode_and_frame 4 acknak_encoder [] next_mcu = Ret (5, rig_ack) next_mcu) as Ha by (vm_compute; reflexivity).
  pose proof (delivery_block resent_link rig_block [] 1 10 next_mcu next_mcu 5 rig_ack eq_refl Hf (conj eq_refl eq_refl) Ha) as Hs.
  rig_step Hs.
Qed.
Lemma rig_delivery_ack : delivery taken_link acked_link.
Proof.
  assert (run_op (OpInput (ReadData rig_ack) (dint 3)) resent_sq = Ret tt acked_sq) as Hr by (vm_compute; reflexivity).
  pose proof (delivery_input taken_link rig_ack [] (dint 3) acked_sq eq_refl Hr) as Hs. rig_step Hs.
Qed.

Lemma link_recovers_witness :
  nsteps delivery 2 resent_link acked_link ∧
  lk_accepted acked_link = lk_built lossy_link ∧ sq_sent_queue (lk_host acked_link) = [].
Proof.
  assert (nsteps delivery 2 resent_link acked_link) as Hn.
  { eapply nsteps_l; [exact rig_delivery_block|]. eapply nsteps_l; [exact rig_delivery_ack|apply nsteps_O]. }
  pose (t := value_of (retransmit_event (dint 2) sent_sq) (dint 0)).
  assert (retransmit_event (dint 2) (lk_host lossy_link) = Ret t resent_sq) as Ht by (vm_compute; reflexivity).
  pose proof (link_recovers 1 lossy_link (dint 2) t resent_sq [] [] 2 acked_link lossy_link_reachable Ht (sublist_nil_l _) (sublist_nil_l _)) as H.
  cbv zeta in H. split; [exact Hn|].
  match type of H with nsteps _ _ ?l _ → _ => assert (resent_link = l) as E by (vm_compute; reflexivity) end.
  rewrite <- E in H. apply (proj2 (H Hn)). split; reflexivity.
Defined.

(** A data message of the firmware that waits in the buffer. *)
Definition heard_sq : serialqueue := sent_sq <| sq_input := add_frame 17 7 [3; 4] |>.
Lemma input_ok sq input : sq_ok sq → Forall is_byte input → sq_ok (sq <| sq_input := input |>).
Proof. intros Hok Hi. by keep_ok Hok. Qed.
Lemma heard_sq_ok : sq_ok heard_sq.
Proof.
  apply input_ok; [apply (sq_reachable_ok _ _ _ sent_sq_reachable)|]. vm_compute. repeat constructor; discriminate.
Qed.

(** The acknowledgement of block 1 waits in the buffer: the block leaves the sent queue and its two
    notifications are completed. *)
Definition answered_sq : serialqueue := sent_sq <| sq_input := add_frame 18 5 [] |>.
Lemma answered_sq_ok : sq_ok answered_sq.
Proof.
  apply input_ok; [apply (sq_reachable_ok _ _ _ sent_sq_reachable)|]. vm_compute. repeat constructor; discriminate.
Qed.
Lemma handle_message_acks_witness :
  length (sq_notify_queue answered_sq) = 2%nat ∧
  ∃ r sq', handle_message (dint 4) 5 answered_sq = Ret r sq' ∧ sq_sent_queue sq' = [] ∧ sq_notify_queue sq' = [].
Proof.
  split; [vm_compute; reflexivity|].
  destruct (handle_message_acks answered_sq (dint 4) 5 18 answered_sq_ok) as (r & sq' & rseq & H & (Hr & Hm) & Hacc).
  - done.
  - by vm_compute.
  - by vm_compute.
  - exists r, sq'. split; [exact H|]. change (sq_receive_seq answered_sq) with 1 in *. change (18 mod 16) with 2 in Hm.
    assert (rseq = 2) as -> by (clear -Hr Hm; Z.div_mod_to_equations; lia).
    rewrite bool_decide_false in Hacc by (intros [H1 _]; revert H1; vm_compute; discriminate).
    destruct Hacc as (_ & [_ _ Hs _ (l & rest & st & extra & Hq & -> & [_ Hrest] & _) _ _]). split; [rewrite Hs; vm_compute; reflexivity|].
    destruct rest as [|m rest]; [done|]. exfalso. specialize (Hrest m eq_refl). revert Hrest.
    assert (Forall (λ m, notify_seq m ≤ 1) (sq_notify_queue answered_sq)) as Hall.
    { vm_compute. repeat constructor; discriminate. }
    rewrite Hq in Hall. apply Forall_app in Hall as [_ [Hx _]%Forall_cons]. cbn beta in Hx. unfold done_limit. cbn. lia.
Defined.

(** Block 1 is not acknowledged by the message, but its notification is sent. *)
Lemma first_data_completes_all_witness :
  ∃ r sq', handle_message (dint 4) 7 heard_sq = Ret r sq' ∧ sq_sent_queue sq' = sq_sent_queue heard_sq ∧
    sq_notify_queue sq' = [].
Proof.
  destruct (first_data_completes_all heard_sq (dint 4) 7 17 heard_sq_ok) as (r & sq' & H1 & H2 & H3 & _).
  - done.
  - by vm_compute.
  - by vm_compute.
  - by vm_compute.
  - by vm_compute.
  - apply Forall_forall. intros m Hm%list_elem_of_In.
    assert (forallb (λ m, notify_seq m <? 2 ^ 64) (sq_notify_queue heard_sq) = true) as E by (vm_compute; reflexivity).
    apply Z.ltb_lt. exact (proj1 (forallb_forall _ _) E m Hm).
  - exists r, sq'. split; [exact H1|]. split; [exact H2|exact H3].
Defined.

(** * The theorems of the homing dispatch on a group of two micro-controllers *)

#[local] Existing Instance plain_os.

(** Message tags: 60 trsync_state, 61 trsync_set_timeout, 62 trsync_trigger. *)
Definition rig_ce : clock_estimate := mk_ce 0 0 (dint 0) (dint 1000000).
Definition tdm_a : trdispatch_mcu := mk_tdm (mk_fr 100 [60; 3]) 1 7 3 61 62 1000000 5000000 250000 1000 rig_ce.
Definition tdm_b : trdispatch_mcu := mk_tdm (mk_fr 200 [60; 5]) 2 8 5 61 62 1000000 5000000 250000 1000 rig_ce.
Definition sq_a : serialqueue := after sent_sq (OpAddReader (tdm_fr tdm_a)).
Definition sq_b : serialqueue := after sent_sq (OpAddReader (tdm_fr tdm_b)).
Definition rig_group : trdispatch := mk_td [tdm_a; tdm_b] 1 1 4.
Definition rig_host : host := mk_host (<[1 := sq_a]> (<[2 := sq_b]> ∅)) rig_group.

Lemma sq_a_ok : sq_ok sq_a.
Proof. apply (sq_reachable_ok SQT_UART 0). unfold sq_a. rig_op. apply sent_sq_reachable. Qed.
Lemma rig_lookup_a : h_sqs rig_host !! 1 = Some sq_a.
Proof. apply lookup_insert_eq. Qed.
Lemma rig_lookup_b : h_sqs rig_host !! 2 = Some sq_b.
Proof. unfold rig_host. cbn [h_sqs]. rewrite lookup_insert_ne by done. apply lookup_insert_eq. Qed.

Lemma empty_cq_room a n m sq :
  h_sqs rig_host !! a = Some sq → tdm_sq m = a → sq_cqs sq !! tdm_cq m = Some (mk_cq [] []) → sq_upcoming_bytes sq = 0 →
  n ≤ 100 → has_room rig_host n m.
Proof. intros H1 <- H2 H3 Hn. exists sq, (mk_cq [] []). rewrite H3. split_and!; [done..|lia|lia]. Qed.
Lemma rig_room n : n ≤ 100 → Forall (has_room rig_host n) [tdm_a; tdm_b].
Proof.
  intros Hn. apply Forall_cons_2; [|apply Forall_cons_2; [|by apply Forall_nil_2]].
  - apply (empty_cq_room 1 n tdm_a sq_a rig_lookup_a); [done|by vm_compute|by vm_compute|done].
  - apply (empty_cq_room 2 n tdm_b sq_b rig_lookup_b); [done|by vm_compute|by vm_compute|done].
Qed.
Lemma rig_ids : Forall (member_ids 4) [tdm_a; tdm_b].
Proof. repeat (apply Forall_cons_2; [unfold member_ids, is_u32; cbn; lia|]). by apply Forall_nil_2. Qed.
Lemma rig_fields can_trigger : is_u32 can_trigger → Forall is_u32 [60; 3; can_trigger; 1; 2000000].
Proof. intros H. repeat (apply Forall_cons_2; [done|]). by apply Forall_nil_2. Qed.

(** The group is allocated and started, and its timeouts are set; then the first controller reports
    a trigger. *)
Definition args_a : member_args := mk_args 100 1 7 3 61 62 60.
Definition args_b : member_args := mk_args 200 2 8 5 61 62 60.
Definition bare_host : host := mk_host (<[1 := sent_sq]> (<[2 := sent_sq]> ∅)) trdispatch_alloc.
Definition host_after (m : MH unit) (h : host) : host := match m h with Ret _ h' => h' | _ => h end.
Definition grouped_host : host := host_after (alloc_members [args_a; args_b]) bare_host.
Definition started_host : host := host_after (trdispatch_start 4) grouped_host.

Lemma rig_args_ok : args_ok [args_a; args_b].
Proof.
  split.
  - repeat (apply Forall_cons_2; [unfold args_u32, is_u32; cbn; lia|]). by apply Forall_nil_2.
  - repeat constructor; set_solver.
  - repeat constructor; set_solver.
Qed.
Lemma bare_others : others_only [args_a; args_b] bare_host.
Proof.
  intros a. unfold readers_at, bare_host. cbn [h_sqs].
  assert (sq_fast_readers sent_sq = []) as E by (vm_compute; reflexivity).
  destruct (decide (a = 1)) as [->|]; [rewrite lookup_insert_eq; cbn [fmap option_fmap option_map default]; rewrite E; constructor|].
  rewrite lookup_insert_ne by done.
  destruct (decide (a = 2)) as [->|]; [rewrite lookup_insert_eq; cbn [fmap option_fmap option_map default]; rewrite E; constructor|].
  rewrite lookup_insert_ne by done. constructor.
Qed.
Lemma rig_kept : kept started_host rig_host.
Proof.
  split; [|vm_compute; reflexivity..]. intros a.
  destruct (decide (a = 1)) as [->|Ha]; [vm_compute; reflexivity|].
  destruct (decide (a = 2)) as [->|Hb]; [vm_compute; reflexivity|].
  assert (h_sqs started_host = <[2 := sq_b]> (<[1 := sq_a]> ∅)) as E by (vm_compute; reflexivity).
  unfold readers_at. rewrite E. unfold rig_host. cbn [h_sqs]. by rewrite !lookup_insert_ne.
Qed.

Lemma trigger_reaches_all_witness :
  ∃ h', host_input 1 (ReadData (add_frame 17 13 [60; 3; 0; 1; 128; 250; 137; 0])) (dint 3) rig_host = Ret tt h' ∧
    td_can_trigger (h_td h') = 0 ∧ m_bytes <$> waits h' 2 8 = [[62; 5; 4]].
Proof.
  destruct (trigger_reaches_all_mcus [args_a; args_b] 4 bare_host grouped_host grouped_host started_host rig_host 0 args_a sq_a 1 1 2000000 (dint 3))
    as (h' & Hrun & Htd & Ht & _).
  - apply rig_args_ok.
  - done.
  - reflexivity.
  - apply bare_others.
  - by vm_compute.
  - by split.
  - by vm_compute.
  - apply rig_kept.
  - done.
  - by apply rig_room.
  - reflexivity.
  - done.
  - done.
  - apply rig_lookup_a.
  - apply sq_a_ok.
  - by vm_compute.
  - by vm_compute.
  - by vm_compute.
  - exists h'. split; [exact Hrun|]. split; [by rewrite Htd|]. destruct (Ht 2 8) as (new & Hw & Hn).
    rewrite Hw, fmap_app, Hn. vm_compute. reflexivity.
Defined.

(** The first controller reports that all is well. *)
Lemma timeouts_follow_witness :
  ∃ h', handle_trsync_state 0 (add_frame 17 13 [60; 3; 1; 1; 128; 250; 137; 0]) 13 rig_host = Ret tt h' ∧
    td_can_trigger (h_td h') = 1.
Proof.
  destruct (timeouts_follow_other_mcus 0 tdm_a rig_host sq_a 17 60 1 1 2000000) as (h' & f & Hrun & _ & Htd & _).
  - reflexivity.
  - apply rig_lookup_a.
  - done.
  - done.
  - done.
  - by apply rig_fields.
  - apply rig_ids.
  - by apply rig_room.
  - repeat (apply Forall_cons_2; [vm_compute; reflexivity|]). by apply Forall_nil_2.
  - exists h'. split; [exact Hrun|]. by rewrite Htd.
Defined.

(** A report at second 1 moves the timeout of the second controller from 5000000 to 1250000. *)
Lemma timeout_moved_back_witness :
  ∃ h', extend_timeout 1 (dint 1) rig_host = Ret tt h' ∧
    tdm_expire_clock <$> (td_tdm_list (h_td h') !! 1%nat) = Some 1250000.
Proof.
  destruct (timeout_moved_back [tdm_a] tdm_b [] (dint 1) rig_host) as (h' & Hrun & Hl & _).
  - reflexivity.
  - apply (Forall_lookup_1 _ _ 1%nat _ rig_ids eq_refl).
  - apply (Forall_lookup_1 _ _ 1%nat _ (rig_room 1 ltac:(lia)) eq_refl).
  - done.
  - by vm_compute.
  - exists h'. split; [exact Hrun|]. rewrite Hl. vm_compute. reflexivity.
Defined.

(** ** A node on the CAN bus *)

(** Hardware that is busy at every third call. *)
Definition bench_can : CanBoard :=
  {| canhw_send n _ := if (n mod 3 =? 2)%nat then -1 else 1; CONFIG_HAVE_BOOTLOADER_REQUEST := true |}.
#[local] Existing Instance bench_can.

Definition rig_uuid : list Z := [1; 2; 3; 4; 5; 6].
Definition no_msg : canbus_msg := mk_canmsg 0 0 (replicate 8 0).
(** 20 bytes wait to be sent, and 5 received bytes wait to be processed. *)
Definition rig_can : canbus_data :=
  mk_can rig 0x180 rig_uuid 1 2 22 1 5 0 0 (replicate 8 no_msg) (Z.of_nat <$> seq 0 96) ([10; 20; 30; 40; 50] ++ replicate 187 0)
    0 [] 0x180 0.
Definition other_can : canbus_data := rig_can <| can_uuid := [6; 5; 4; 3; 2; 1] |> <| can_assigned_id := 0x182 |>.

Lemma bench_can_answers c : hw_answers 2 c.
Proof.
  intros msg. destruct (decide (can_sends c mod 3 = 2)%nat) as [E|E].
  - exists 1%nat. split; [lia|]. cbv [canhw_send bench_can]. rewrite (proj2 (Nat.eqb_neq _ _)); [done|].
    rewrite Nat.Div0.add_mod, E. done.
  - exists 0%nat. split; [lia|]. cbv [canhw_send bench_can]. rewrite Nat.add_0_r, (proj2 (Nat.eqb_neq _ _)) by done. done.
Qed.

(** The host gives the id of the first node to the second one. *)
Definition take_over : canbus_msg := mk_canmsg CANBUS_ID_ADMIN 8 [1; 6; 5; 4; 3; 2; 1; 64].
Lemma can_node_ids_witness :
  ∃ c1' c2', ended (can_process_admin 2 take_over) rig_can c1' ∧ ended (can_process_admin 2 take_over) other_can c2' ∧
    distinct_ids c1' c2'.
Proof.
  destruct (can_node_ids_unique 2 take_over rig_can other_can) as (c1 & c2 & H1 & H2 & H3 & _).
  - done.
  - intros H. vm_compute in H. discriminate.
  - apply bench_can_answers.
  - apply bench_can_answers.
  - done.
  - repeat constructor; unfold is_byte; lia.
  - by exists c1, c2.
Defined.

Lemma canserial_tx_fifo_witness :
  ∃ c' frames, canserial_tx_task rig_can = Ret tt c' ∧ concat (cm_data <$> frames) ++ can_pending c' = can_pending rig_can.
Proof.
  destruct (canserial_tx_fifo rig_can) as (c' & frames & H1 & _ & _ & _ & H2 & _).
  - split; [done|cbn; lia].
  - done.
  - cbn. lia.
  - by exists c', frames.
Defined.

Lemma rig_can_rx : can_rx_ok rig_can.
Proof. split; [done|cbn; lia]. Qed.

(** A frame arrives while three bytes are popped. *)
Lemma can_pop_witness :
  ∃ c' k, can_console_pop_input [([], [mk_canmsg 0x180 2 [7; 8; 0; 0; 0; 0; 0; 0]])] 3 rig_can = Ret tt c' ∧
    can_contents c' = drop 3 (foldl (can_push 0x180) [10; 20; 30; 40; 50]
      (concat (take k [[mk_canmsg 0x180 2 [7; 8; 0; 0; 0; 0; 0; 0]]]))).
Proof.
  destruct (can_pop_keeps_bytes [([], [mk_canmsg 0x180 2 [7; 8; 0; 0; 0; 0; 0; 0]])] 3 rig_can) as (c' & k & H1 & _ & H2).
  - apply rig_can_rx.
  - cbn. lia.
  - repeat constructor; cbn; lia.
  - by exists c', k.
Defined.

(** A queue on the bus. *)
Definition can_sq : serialqueue := serialqueue_alloc SQT_CAN 0x180.
Lemma can_write_witness :
  ∃ sq' c' ws, do_write [1; 2; 3; 4; 5; 6; 7; 8; 9] can_sq = Ret tt sq' ∧ rx_frames (bus_frame <$> ws) rig_can = Ret tt c' ∧
    can_contents c' = [10; 20; 30; 40; 50] ++ [1; 2; 3; 4; 5; 6; 7; 8; 9].
Proof.
  destruct (can_write_reaches_node [1; 2; 3; 4; 5; 6; 7; 8; 9] can_sq rig_can) as (sq' & ws & c' & H1 & _ & H2 & _ & _ & H3).
  - reflexivity.
  - apply rig_can_rx.
  - reflexivity.
  - done.
  - by vm_compute.
  - exists sq', c', ws. split; [exact H1|]. split; [exact H2|]. by apply H3.
Defined.

(** ** A USB controller *)

(** It is busy at every third call, and the host asks for the first 64 bytes of the
    configuration. *)
Definition rig_request : usb_ctrlrequest := mk_ctrlrequest USB_DIR_IN USB_REQ_GET_DESCRIPTOR (Z.shiftl USB_DT_CONFIG 8) 0 64.
Definition bench_usb : UsbBoard :=
  {| usb_read_bulk_out n := if (n =? 0)%nat then (6, [7; 16; 1; 2; 3; 126]) else (-1, []);
     usb_send_bulk_in n data := if (n mod 3 =? 2)%nat then -1 else Z.of_nat (length data);
     usb_read_ep0 n xs := (-1, []);
     usb_read_ep0_setup n := Some rig_request;
     usb_send_ep0 n data := if (n mod 3 =? 2)%nat then -1 else Z.of_nat (length data);
     usb_send_ep0_progmem n data := -1;
     usbserial_get_serialid := [4; 3; 65; 0];
     NEED_PROGMEM := false; CONFIG_USB_VENDOR_ID := 0x1d50; CONFIG_USB_DEVICE_ID := 0x614e;
     CONFIG_USB_SERIAL_NUMBER_CHIPID := true; USB_HAVE_BOOTLOADER_REQUEST := true;
     USB_STR_PRODUCT := [115; 116; 109]; USB_STR_SERIAL := [];
     USB_CDC_EP_BULK_IN := 1; USB_CDC_EP_BULK_OUT := 2; USB_CDC_EP_ACM := 3 |}.
#[local] Existing Instance bench_usb.
#[local] Instance bench_usb_lawful : LawfulUsb.
Proof.
  split.
  - intros n data. cbn. destruct (_ =? 2)%nat; lia.
  - done.
  - intros [|n]; cbn; [|done]. repeat split; try lia. repeat constructor; unfold is_byte; lia.
Qed.

(** 70 bytes wait to be sent, and two have been received. *)
Definition rig_usb : usb_data :=
  mk_usb rig 1 (Z.of_nat <$> seq 0 192) 70 1 ([1; 2] ++ replicate 126 0) 2 XD_null 0 0 (replicate 7 0) 0 1 0 [] [].

Lemma usb_bulk_in_witness : ∃ u', usb_bulk_in_task rig_usb = Ret tt u' ∧ usb_tx_ok u' ∧
  us_wire u' ++ usb_pending u' = Z.of_nat <$> seq 0 70.
Proof.
  destruct (usb_bulk_in_fifo rig_usb) as (u' & H1 & H2 & H3 & _).
  - split; [done|cbn; lia].
  - done.
  - exists u'. split; [exact H1|]. split; [exact H2|]. rewrite H3. reflexivity.
Defined.

(** A table of two commands; a block that calls the first one waits in the buffer. *)
Definition small_table : list command_parser := [decl_in_shutdown command_get_clock []; decl_in_shutdown command_debug_nop []].
Lemma small_table_returns : handlers_return small_table.
Proof.
  intros cp Hcp args s _ _. apply list_elem_of_In in Hcp. destruct Hcp as [<-|[<-|[]]]; cbn [cp_func decl_in_shutdown].
  - unfold command_get_clock, timer_read_time, next_read. repeat wstep. split; [done|]. by destruct (nz _).
  - unfold command_debug_nop. by wstep.
Qed.
Definition rig_usb_block : usb_data :=
  rig_usb <| us_receive_buf := add_frame 16 6 [1] ++ replicate 122 0 |> <| us_receive_pos := 6 |>.
Lemma usb_bulk_out_witness :
  wp (usb_bulk_out_task small_table) rig_usb_block
    (λ _ u', usb_rx_ok u' ∧ usb_contents u' = next_packet rig_usb_block ∧ us_bulk_out_wake u' = 1)
    (λ _ u', usb_rx_ok u' ∧ usb_contents u' = usb_contents rig_usb_block).
Proof.
  eapply wp_mono; [apply (usb_bulk_out_keeps_bytes small_table rig_usb_block)| |].
  - exact small_table_returns.
  - split; [done|cbn; lia|]. vm_compute. repeat constructor; discriminate.
  - done.
  - cbn beta. intros _ u' (Hok & s0 & ret & pop & s1 & Hs0 & Hfb & _ & Hc & _ & Hwake).
    assert (pop = 6) as ->.
    { destruct Hs0 as [-> | ->]; revert Hfb; vm_compute; congruence. }
    split; [exact Hok|]. split; [rewrite Hc; vm_compute; reflexivity|]. apply Hwake. left. by vm_compute.
  - done.
Defined.

Lemma usb_descriptor_witness : ∃ full p, concat (full ++ [p]) = cdc_config_descriptor ∧ Forall (λ q, length q = 16%nat) full ∧
  ∀ n, wp (usb_ep0_task;;; usb_resume n) rig_usb (λ _ u', sent false rig_usb u' (full ++ [p])) no_shut.
Proof.
  destruct (usb_descriptor_sent rig_request cdc_config_descriptor rig_usb) as (full & p & H1 & H2 & _ & H4).
  - done.
  - done.
  - done.
  - done.
  - done.
  - cbn. lia.
  - reflexivity.
  - apply Nat.ltb_lt. reflexivity.
  - exists full, p. split; [exact H1|]. split; [exact H2|exact H4].
Defined.

(** ** The bridge from USB to CAN *)

#[local] Instance bench_usb_ep0 : LawfulEp0.
Proof.
  split.
  - intros n size Hs. cbn. lia.
  - intros n req [= <-]. cbn. lia.
  - cbn. lia.
  - cbn. lia.
  - cbn. lia.
Qed.

(** The bridge after a reset, and a frame of another node. *)
Definition rig_bridge : usbcan_data :=
  mk_usbcan rig_can 1 (replicate 64 0) 0 0 0 0x180 0 0 (replicate 32 no_msg) GD_null 0 0 1
    (replicate 4 0) (replicate 20 0) (replicate 8 0) 0 0 [] [] [] [] [] [].
Definition rig_bus_frame : canbus_msg := mk_canmsg 0x204 3 [1; 2; 3; 0; 0; 0; 0; 0].

Lemma rig_bridge_init : bridge_init rig_bridge.
Proof.
  split.
  - split; [done|cbn; lia].
  - done.
  - done.
  - done.
  - split; [by intros []|done].
  - done.
Qed.

(** The state after an operation that returns. *)
Definition br_after (m : M usbcan_data unit) (b : usbcan_data) : usbcan_data :=
  match m b with Ret _ b' => b' | _ => b end.
Lemma br_after_eq (m : M usbcan_data unit) b :
  match m b with Ret _ _ => true | _ => false end = true → m b = Ret tt (br_after m b).
Proof. unfold br_after. by destruct (m b) as [[] ?| | |]. Qed.

Definition rig_bridge1 : usbcan_data := br_after (gs_canbus_process_data rig_bus_frame) rig_bridge.
Definition rig_bridge2 : usbcan_data := br_after (usbcan_task 3 []) rig_bridge1.
Lemma rig_bridge1_step : bridge_step rig_bridge rig_bridge1.
Proof. eapply BS_frame, br_after_eq. by vm_compute. Qed.
Lemma rig_bridge2_step : bridge_step rig_bridge1 rig_bridge2.
Proof. eapply BS_task, br_after_eq. by vm_compute. Qed.

Lemma bridge_delivers_witness :
  (∃ waiting, packets_of From_bus (uc_usb rig_bridge2) ++ (frame_of_msg <$> waiting) = [frame_of_msg rig_bus_frame]) ∧
  packets_of Echo (uc_usb rig_bridge2) ++
    if_has (host_status rig_bridge2) HS_TX_ECHO (take GS_HOST_FRAME_SIZE (host_frame rig_bridge2)) = echoes (uc_read rig_bridge2).
Proof.
  destruct (bridge_delivers rig_bridge rig_bridge2) as (_ & _ & H3 & waiting & _ & H4 & _).
  - exact rig_bridge_init.
  - eapply rtc_l; [exact rig_bridge1_step|]. eapply rtc_once. exact rig_bridge2_step.
  - split; [exists waiting; rewrite H4; by vm_compute|exact H3].
Defined.

Lemma gs_ep0_witness : ∃ b', gs_usb_ep0_task rig_bridge1 = Ret tt b' ∧ vars_ok b'.
Proof.
  destruct (gs_ep0_safe rig_bridge rig_bridge1) as (b' & H1 & H2 & _).
  - exact rig_bridge_init.
  - eapply rtc_once. exact rig_bridge1_step.
  - exists b'. split; [exact H1|exact H2].
Defined.

Lemma bridge_frame_witness : msg_of_frame (frame_of_msg rig_bus_frame) = rig_bus_frame.
Proof. apply (bridge_frame_roundtrip rig_bus_frame); [cbn; lia|cbn; lia|done]. Defined.

(** Controllers that take everything; the host sends an admin frame and one for the bus. *)
Definition free_usb : UsbBoard :=
  {| usb_read_bulk_out n :=
       if (n =? 1)%nat then (20, [9; 0; 0; 0; 0xf0; 3; 0; 0; 2; 0; 0; 0; 5; 6; 0; 0; 0; 0; 0; 0])
       else if (n =? 3)%nat then (20, [10; 0; 0; 0; 4; 2; 0; 0; 1; 0; 0; 0; 7; 0; 0; 0; 0; 0; 0; 0])
       else (-1, []);
     usb_send_bulk_in n data := Z.of_nat (length data);
     usb_read_ep0 n xs := (-1, []); usb_read_ep0_setup n := None;
     usb_send_ep0 n data := Z.of_nat (length data); usb_send_ep0_progmem n data := -1;
     usbserial_get_serialid := [4; 3; 65; 0];
     NEED_PROGMEM := false; CONFIG_USB_VENDOR_ID := 0x1d50; CONFIG_USB_DEVICE_ID := 0x614e;
     CONFIG_USB_SERIAL_NUMBER_CHIPID := true; USB_HAVE_BOOTLOADER_REQUEST := true;
     USB_STR_PRODUCT := [115; 116; 109]; USB_STR_SERIAL := [];
     USB_CDC_EP_BULK_IN := 1; USB_CDC_EP_BULK_OUT := 2; USB_CDC_EP_ACM := 3 |}.
Definition free_can : CanBoard := {| canhw_send _ _ := 8; CONFIG_HAVE_BOOTLOADER_REQUEST := true |}.
#[local] Existing Instance free_usb.
#[local] Instance free_usb_lawful : LawfulUsb.
Proof.
  split.
  - intros n data. cbn. lia.
  - done.
  - intros [|[|[|[|n]]]]; cbn; try done; (repeat split; try lia; repeat constructor; unfold is_byte; lia).
Qed.
#[local] Instance free_usb_ep0 : LawfulEp0.
Proof.
  split.
  - intros n size Hs. cbn. lia.
  - done.
  - cbn. lia.
  - cbn. lia.
  - cbn. lia.
Qed.

(** Both host frames and the frame of the bus are through after one run of the task. *)
Lemma usbcan_task_witness : ∃ b', @usbcan_task free_can free_usb 5 [] rig_bridge1 = Ret tt b' ∧
  packets_of From_bus (uc_usb b') = frame_of_msg <$> uc_bus b' ∧ packets_of Echo (uc_usb b') = echoes (uc_read b').
Proof.
  destruct (@usbcan_task_completes free_can free_usb _ _ 4 rig_bridge rig_bridge1 5 []) as (b' & H1 & H2).
  - exact rig_bridge_init.
  - eapply rtc_once, BS_frame, br_after_eq. by vm_compute.
  - intros [|[|[|[|n]]]] Hn; [lia..|]. cbn. lia.
  - by apply Nat.ltb_lt.
  - exists b'. split; [exact H1|].
    destruct H2 as (H3 & _ & _ & H4 & _); [by vm_compute|intros (n & p & H); cbn in H; lia|intros (n & msg & H); cbn in H; lia|].
    split; [exact H3|exact H4].
Defined.
